(* ===== verification/_CoqProject ===== *)
-Q . S2P
Prelude.v
KList.v
KListMulti.v
Bitops.v
KState.v
Sched.v
Timer.v
Semaphore.v
Env.v
PageAlloc.v
Slob.v
SlobSpec.v
SlobAlloc.v
Alloc.v
Task.v
WaitQueue.v
Workqueue.v
Str.v
Bytes.v
Symtab.v
Printk.v
Klog.v
Vfs.v
Fat.v
Reloc.v
Module.v
Mmu.v
Board.v
Driver.v
Shell.v
Commands.v
Debug.v
Boot.v
Kexpr.v
Kdups.v
Ksym.v
Kcalc.v
Ksafe.v
Kmenu.v
Kutil.v
