(* ===== verification/Prelude.v ===== *)
(** * YakOS: a verification development

    YakOS is a small kernel for ARM926 boards, written in C: a priority
    scheduler with semaphores, completions, timers and workqueues; a buddy and a
    slob allocator; a file system switch with FAT; a loader of kernel modules; the
    page tables; the driver model; and a shell on the serial port.  This library
    translates its routines into executable Rocq functions, statement by
    statement, and proves what they compute, what they keep, and where they do not
    do what they mean to.

    ** How the code is modelled

    Every C function is a function of the monad [M S] (below): it takes the state
    of its component and either returns a value and the new state ([Ok]) or stops
    with a [fault] ([Err]): a null or unmapped pointer, an index out of an array's
    range, a division by zero, a wait that only another task or a device can end,
    a call of [halt], or fuel that has run out.  [wp] is total correctness: [wp m Q
    s] says that [m] returns from [s], and [Q] holds of what it returns; so a
    theorem stated with [wp] includes termination and the absence of faults.  The
    lemmas named [wp_] and the tactics [wp_simpl], [wp_intro] execute the
    definitions symbolically.

    - Integers are [Z], wrapped to their width where the C type wraps ([u32],
      [s32], [s16], [u8]).  Pointers are 32-bit addresses; [NULL] is 0.
    - Objects of the kernel (tasks, timers, semaphores, pages, ...) are records in
      finite maps by address.  What the code aliases is in one map: the [struct
      list_head]s of all objects are in one heap of [next] and [prev] fields, at
      their real addresses, and [list_entry] is arithmetic on them.
    - Memory that the code treats as bytes (strings, the log, disk and module
      images) is a map from addresses to bytes; an address that is not in the map
      faults.
    - A call through a function pointer whose target is not part of the kernel (a
      driver's probe, a module's entry, the file system behind [vops]) is a
      parameter of the definition or a method of a class.
    - A loop is [loop fuel body].  Fuel is a bound that the state gives: the number
      of list nodes ([walk_fuel]) for a walk over a list, the size of the memory
      ([mem_fuel], [chain_fuel]) for strings and cluster chains, the value of the
      counter for a counted loop, [slob_fuel] (the units of a page and two) for the
      free list of a page, [S 8] for the eight priorities, the orders of the buddy
      allocator for splitting and joining; for the configuration tool the weight of an
      expression ([weight]: a negation doubles it), its size, and the number of symbols,
      since each nested call gives one more its flag.  Running out is a fault, so every theorem with [wp]
      proves that the fuel is enough.  Where another task has to act for the loop
      to end (a wait), the number of wake-ups is an argument of the definition, and
      the theorem says how many suffice.

    ** The parts

    Foundations.
    - [Prelude]: the monad, [wp], machine integers, lemmas and tactics.
    - [KList], [KListMulti] (include/kernel/list.h): the intrusive lists.  [dlist]
      is a closed ring, [lists] a family of rings that share no node; each routine
      has its [wp_] lemma on sequences.
    - [Bitops] (include/kernel/bitops.h): bits of arrays of words.
    - [Str] (lib/string.c) and [Bytes]: strings, blocks and little-endian numbers
      in byte memory.

    The kernel core, on the shared state [kst] of [KState].
    - [Sched] (kernel/sched_fifo.c): eight queues and a bitmap, invariant
      [sched_inv].  Picking the next task is the specification [pick_spec]: highest
      priority first, round robin within it, the blocked tasks passed over;
      enqueueing and dequeueing are inverse.
    - [Timer] (kernel/timer.c): arming keeps the order of the list, no timer fires
      before its expiry, and a tick ends at the first timer that is not due or
      whose function asks for rescheduling, as those of the kernel do
      ([timer_tick_runs_front] in [Workqueue], where both are defined).
    - [Semaphore] (kernel/semaphore.c): [down] and [up] are cut at the context
      switches; [Interleave] is the step relation of any number of tasks, with the
      conservation of tokens and mutual exclusion as invariants of every reachable
      state.  [resume] is what other tasks do during a switch.
    - [Task] (kernel/task.c, kernel/sched.c, arch/arm/arch_task.c): creation, sleep,
      wake, exit.  [WaitQueue] (kernel/wait_queue.c, kernel/completion.c) and
      [Workqueue] (kernel/workqueue.c): a completion is remembered, work runs once
      and in order, if [assert] does nothing; with [DEBUG], an argument of the
      definitions, an assertion contradicts every item that was queued.
    - [Env]: the addresses of static and local objects, and the code outside.

    Memory.
    - [PageAlloc] (mm/page_alloc.c): invariant [buddy_inv], the pages that are free
      as the set [free_idx]; allocation takes a block of free pages or finds none,
      freeing gives the same pages back, the initial insertion covers the range.
    - [Slob] (mm/slob.c, mm/malloc.c) and [Alloc]: small blocks inside pages.
      [SlobSpec] has the free blocks of one page: [page_blocks] is its invariant;
      allocation takes the first block with room, freeing puts the block back
      and joins it with its neighbours, and the two are inverse.  [SlobAlloc] has
      the lists of pages on top of it: [kmalloc] takes the block from the first
      page with room, and [kfree] gives it back.
      The class [Allocator] is what the other components use, and [AllocatorSpec]
      what they rely on.
    - [Mmu] (arch/arm/mmu.c): sections and small pages.  [walk] is the translation
      that the processor makes; after a mapping of whole sections the addresses
      asked for translate as asked for, and the others as before; a mapping of small
      pages forgets others.

    Files.
    - [Vfs] (fs/vfsfs.c): file systems, descriptors and the current path, over the
      class [Opvectors]; opening is the resolution of a path, but for paths of one
      character, and
      [vfs_change_path] refines a definition on characters.
    - [Fat] (fs/vfsfat.c), the file system behind them: the allocation table decodes as 12-, 16- or
      32-bit numbers, reading returns the bytes of the cluster chain, a directory
      is searched in the order of its entries.

    Modules.
    - [Symtab] (kernel/symtab.c): the search by name and by address.
    - [Reloc] (arch/arm/kernel/module.c): the relocated instructions, decoded as the
      processor does, lead to the symbol.
    - [Module] (kernel/module.c): segments, copying with relocation, loading,
      freeing.

    Output, the board and the user.
    - [Printk] and [Klog] (kernel/printk.c): formatting within the bounds of the
      buffer; the ring of log records, invariant [log_ok].
    - [Board] (arch/arm/boards/Hi3560): interrupts, the tick, the serial port; what
      the device registers give is an input.
    - [Driver] (drivers/base): objects, sets, buses, devices and drivers.
    - [Shell] (init/init_shell.c) and [Commands] (its commands, init/cmd_pwd.c): the
      line editor, the dispatch, and the commands that bring the file system, the
      loader and the log together through the class [Machine]; [ls] is followed
      down to the entries on the disk.
    - [Debug] (kernel/debug.c, arch/arm/faults.c): dumps of memory, and the end after
      an assertion or a fault.
    - [Boot] (init/main.c, arch/arm/arch.c): [kmain].  The record [machine] puts
      all components together, with one state of the kernel; the theorem follows
      the start of the shell through the allocator, the scheduler, the semaphore
      and the idle loop, from any state with the scheduler's invariant; that the
      routines before it, [kmain_init], reach such a state is not proved, nor that
      [page_alloc_init] reaches [buddy_inv] on the heap of the board.

    The configuration tool (scripts/kconfig), which runs on the build host.
    - [Kexpr] and [Kdups] (expr.c): the dependency expressions.  A valuation gives the
      symbols their values.  [value tri_not] is the value that the program gives an
      expression; its negation is not the one that the rewriting rules are
      written for, [neg3], under which [equiv] is equality of the value for all
      valuations, a congruence with [Proper] instances, and the helper for the rules.  The
      theorems on the program are about [tri_not]: [expr_transform] reaches the normal
      form [normal] and eliminating duplicates ends, and both keep the value where
      the theorems say, which excludes most negations.  A tree
      with two pointers into it is a state with two paths.
    - [Ksym] (symbol.c): the table of the symbols as a store; [sym_calc_value] and
      [expr_calc_value] call each other through the argument [calc].
    - [Kcalc]: what a calculation keeps, as rules for a predicate on programs
      ([calm]: types and the values that are there; [tame]: types and two values for
      a boolean symbol), and with it that the depth of the calls is bounded and that
      [expr_calc_value] returns the value that [Kexpr] defines without a state.
    - [Ksafe]: in a configuration as the parser makes it ([well_formed], with a rank for the
      symbols) nothing is calculated through a wrong pointer, so values are there.
    - [Kmenu] (menu.c): the tree of the menu entries.  The links that the parser makes
      are its nested blocks; [menu_finalize] hands the conditions down, puts entries
      below those they depend on, and gives a choice its symbols; its fuel is the number
      of entries, and [tree_finalized] evaluates it on a small configuration.
    - [Kutil] (util.c): growing strings, which never overrun their room.

    ** How they interact

    The scheduler, timers, tasks, semaphores, wait queues, workqueues and both
    allocators share [kst].  A blocking call ends in [task_schedule], whose effect on
    the state is the scheduler's choice followed by the parameter [resume].  The
    file system, the loader and the commands reach the allocator through
    [Allocator], the file systems through [Opvectors], and the kernel state and the
    memory through [Machine]; the instances at the ends of [Alloc], [Fat] and
    [Commands] put the kernel's own routines there.

    ** Groups of theorems

    Invariants: the scheduler, the tokens of a semaphore, the buddy allocator, the
    log, the page tables of the boot.  Types: the normal form of expressions, and that
    a boolean symbol is never [m].  Equivalence: the decoding of the allocation table.
    Refinement of an abstract definition: the
    scheduler's choice, path resolution, the current path, reading a file, the
    line editor, [printk], the value of a configuration expression.  Round trips: allocate and free, enqueue and dequeue,
    [kmalloc] and [kfree], open and close, printing and reading numbers.  Bounds: formatted output, the
    reach of relocated branches, the page tables' indices.  Where the code does
    something else than it means to, the theorem states what it does, and the text
    before it says so: [kmalloc_room], [kmalloc_blocks_overlap], [kfree_full_page], [slob_page_not_joined],
    [bus_probe_device_stuck], [platform_irq_calls], [symtab_lookup_spec], [timer_tick_runs_front],
    [vfs_open_one_letter], [root_dir_read_repeats], [map_page_forgets], [mapping_to_the_top]
    and the part of [run_workqueue_fifo] with [DEBUG] are of this kind.
    So do
    [expr_not_out_of_range], [expr_eliminate_dups_mod], [expr_eliminate_dups_negation],
    [expr_free_leaks] and [sym_check_deps_constant] (in [Kcalc]) for the configuration tool.
    A theorem with hypotheses is followed by a lemma, its name with [_witness],
    that applies it to a concrete state.

    ** Not modelled

    - Assembler: exception entry with the registers that it saves, the context
      switch, the first instructions, waiting for an interrupt.
    - The tasks' own code: what other tasks do is [resume].
    - The functions of drivers, modules and timers; they are parameters.
    - Device registers beyond the values they give.
    - The second board, which has a serial port of one store
      (arch/arm/boards/qemu_mini2440), the example module and the host test.
    - Of scripts/, the dialogues of kconfig (conf, mconf, gconf, qconf), the reading and
      writing of the configuration files, the parser and scanner, which bison and flex
      made, and fixdep: input and output on the build host. *)

From Stdlib Require Export ZArith Lia.
From stdpp Require Export base numbers gmap sets fin_maps list.

#[export] Set Default Goal Selector "!".

Global Open Scope Z_scope.

Declare Scope yak_scope.
Delimit Scope yak_scope with yak.

(** ** Outcomes

    A C routine either returns ([Ok]) or stops at the first point where the
    machine would do something the source does not define or does not return
    from: a null or unmapped dereference, an out-of-range array index, a
    division by zero, a wait for another task, a call of [halt], or a loop that
    outlives its fuel. *)
Inductive fault : Type :=
| NullDeref
| BadAddr (a : Z)
| BadIndex (i : Z)
| DivByZero
| Blocked
| Halted
| OutOfFuel.

Inductive outcome (A : Type) : Type :=
| Ok (a : A)
| Err (e : fault).
Arguments Ok {A} a.
Arguments Err {A} e.

#[export] Instance fault_eq_dec : EqDecision fault.
Proof. solve_decision. Defined.

(** ** The state and fault monad *)
Definition M (S A : Type) : Type := S -> outcome (A * S).

Definition ret {S A} (a : A) : M S A := fun s => Ok (a, s).
Definition fail {S A} (e : fault) : M S A := fun _ => Err e.
Definition bind {S A B} (m : M S A) (k : A -> M S B) : M S B :=
  fun s => match m s with Ok (a, s') => k a s' | Err e => Err e end.
Definition gets {S A} (f : S -> A) : M S A := fun s => Ok (f s, s).
Definition modify {S} (f : S -> S) : M S unit := fun s => Ok (tt, f s).

(** A computation on a part of the state, run on the whole. *)
Definition zoom {S T A} (g : S -> T) (p : T -> S -> S) (m : M T A) : M S A :=
  fun s => match m (g s) with
           | Ok (a, t) => Ok (a, p t s)
           | Err e => Err e
           end.

(** [lift_opt e o] is [o]'s value, or the fault [e]. *)
Definition lift_opt {S A} (e : fault) (o : option A) : M S A :=
  match o with Some a => ret a | None => fail e end.

Notation "x <- m ;; k" := (bind m (fun x => k))
  (at level 100, m at next level, right associativity) : yak_scope.
Notation "' p <- m ;; k" := (bind m (fun x => match x with p => k end))
  (at level 100, p pattern, m at next level, right associativity) : yak_scope.
Notation "m ;;; k" := (bind m (fun _ => k))
  (at level 100, right associativity) : yak_scope.
Global Open Scope yak_scope.

(** [when b m] is the C statement [if (b) m;]. *)
Definition when {S} (b : bool) (m : M S unit) : M S unit :=
  if b then m else ret tt.

(** A loop whose body either goes on with new values of the loop variables
    ([inl]) or leaves the loop with a result ([inr]). *)
Fixpoint loop {S A B} (fuel : nat) (body : A -> M S (A + B)) (a : A) : M S B :=
  match fuel with
  | O => fail OutOfFuel
  | Datatypes.S n =>
      r <- body a ;;
      match r with
      | inl a' => loop n body a'
      | inr b => ret b
      end
  end.

(** ** Total correctness: [wp m Q s] says that [m] run in [s] returns, without
    a fault and within its fuel, in a state that satisfies [Q]. *)
Definition wp {S A} (m : M S A) (Q : A -> S -> Prop) (s : S) : Prop :=
  match m s with Ok (a, s') => Q a s' | Err _ => False end.

Section WpLemmas.
Context {S A B : Type}.
Implicit Types (s : S).

Lemma wp_ok (m : M S A) (Q : A -> S -> Prop) s :
  wp m Q s <-> exists a s', m s = Ok (a, s') /\ Q a s'.
Proof.
  unfold wp. destruct (m s) as [[a s']|e]; split.
  - eauto.
  - intros (a0 & s0 & [= <- <-] & HQ). done.
  - done.
  - intros (a0 & s0 & [=] & _).
Qed.

Lemma wp_elim (m : M S A) (Q : A -> S -> Prop) s :
  wp m Q s -> exists a s', m s = Ok (a, s') /\ Q a s'.
Proof. apply wp_ok. Qed.

Lemma wp_intro (m : M S A) (Q : A -> S -> Prop) s a s' :
  m s = Ok (a, s') -> Q a s' -> wp m Q s.
Proof. intros H HQ. apply wp_ok. eauto. Qed.

Lemma wp_mono (m : M S A) (P Q : A -> S -> Prop) s :
  wp m P s -> (forall a s', P a s' -> Q a s') -> wp m Q s.
Proof. unfold wp. destruct (m s) as [[a s']|e]; auto. Qed.

Lemma wp_conj (m : M S A) (P Q : A -> S -> Prop) s :
  wp m P s -> wp m Q s -> wp m (fun a s' => P a s' /\ Q a s') s.
Proof. unfold wp. destruct (m s) as [[a s']|e]; auto. Qed.

Lemma wp_bind (m : M S A) (k : A -> M S B) (Q : B -> S -> Prop) s :
  wp (bind m k) Q s = wp m (fun a s' => wp (k a) Q s') s.
Proof. unfold wp, bind. destruct (m s) as [[a s']|e]; done. Qed.

(** The outcome of a sequence, a fault or not, when its first part returns. *)
Lemma bind_run (m : M S A) (k : A -> M S B) s o :
  wp m (fun a s' => k a s' = o) s -> bind m k s = o.
Proof. unfold wp, bind. by destruct (m s) as [[a s']|e']. Qed.

Lemma bind_err_l (m : M S A) (k : A -> M S B) s e : m s = Err e -> bind m k s = Err e.
Proof. unfold bind. by intros ->. Qed.

Lemma wp_ret (a : A) (Q : A -> S -> Prop) s : wp (ret a) Q s = Q a s.
Proof. done. Qed.

Lemma wp_gets (f : S -> A) (Q : A -> S -> Prop) s : wp (gets f) Q s = Q (f s) s.
Proof. done. Qed.

Lemma wp_modify (f : S -> S) (Q : unit -> S -> Prop) s :
  wp (modify f) Q s = Q tt (f s).
Proof. done. Qed.

Lemma wp_lift_some (e : fault) (a : A) (Q : A -> S -> Prop) s :
  wp (lift_opt e (Some a)) Q s = Q a s.
Proof. done. Qed.

Lemma wp_when (b : bool) (m : M S unit) (Q : unit -> S -> Prop) s :
  (b = true -> wp m Q s) -> (b = false -> Q tt s) -> wp (when b m) Q s.
Proof. destruct b; intros H1 H2; [by apply H1|by apply H2]. Qed.

End WpLemmas.

(** The loop rule: an invariant, a measure that decreases at every turn that
    goes on, and fuel above the measure. *)
Lemma wp_loop {S A B} (body : A -> M S (A + B)) (I : A -> S -> Prop) (mu : A -> S -> nat)
    (Q : B -> S -> Prop) :
  (forall a s, I a s ->
     wp (body a) (fun r s' => match r with
                              | inl a' => I a' s' /\ (mu a' s' < mu a s)%nat
                              | inr b => Q b s'
                              end) s) ->
  forall fuel a s, I a s -> (mu a s < fuel)%nat -> wp (loop fuel body a) Q s.
Proof.
  intros Hstep fuel. induction fuel as [|fuel IH]; intros a s HI Hmu; [lia|].
  cbn [loop]. rewrite wp_bind.
  eapply wp_mono; [exact (Hstep a s HI)|].
  intros [a'|b] s'; cbn beta iota.
  - intros [HI' Hlt]. apply IH; [done|lia].
  - done.
Qed.

(** The same with the measure as an index of the invariant. *)
Lemma wp_loop_idx {S A B} (body : A -> M S (A + B)) (I : nat -> A -> S -> Prop)
    (Q : B -> S -> Prop) :
  (forall n a s, I n a s ->
     wp (body a) (fun r s' => match r with
                              | inl a' => exists n', (n' < n)%nat /\ I n' a' s'
                              | inr b => Q b s'
                              end) s) ->
  forall fuel n a s, I n a s -> (n < fuel)%nat -> wp (loop fuel body a) Q s.
Proof.
  intros Hstep fuel. induction fuel as [|fuel IH]; intros n a s HI Hmu; [lia|].
  cbn [loop]. rewrite wp_bind.
  eapply wp_mono; [exact (Hstep n a s HI)|].
  intros [a'|b] s'; cbn beta iota; [|done].
  intros (n' & Hlt & HI'). apply (IH n'); [done|lia].
Qed.

(** Loops with the same body are the same. *)
Lemma loop_ext {S A B} (b1 b2 : A -> M S (A + B)) :
  (forall a s, b1 a s = b2 a s) -> forall n a s, loop n b1 a s = loop n b2 a s.
Proof.
  intros H n. induction n as [|n IH]; intros a s; cbn [loop]; [done|].
  unfold bind. rewrite H. destruct (b2 a s) as [[[a'|b] s']|e]; [apply IH|done|done].
Qed.

Lemma wp_zoom {S T A} (g : S -> T) (p : T -> S -> S) (m : M T A)
    (Q : A -> S -> Prop) s :
  wp (zoom g p m) Q s = wp m (fun a t => Q a (p t s)) (g s).
Proof. unfold wp, zoom. destruct (m (g s)) as [[a t]|e]; done. Qed.

(** [yak] holds the facts that close the routine side goals. *)
Create HintDb yak.

(** One symbolic execution step after another, as far as the rewrite rules go. *)
Ltac wp_simpl := repeat (first [rewrite wp_bind | rewrite wp_ret | rewrite wp_gets
  | rewrite wp_modify | rewrite wp_lift_some | rewrite wp_zoom]; cbv beta).

(** ** Machine-width integers *)
Definition u8 (x : Z) : Z := x mod 2 ^ 8.
Definition u16 (x : Z) : Z := x mod 2 ^ 16.
Definition u32 (x : Z) : Z := x mod 2 ^ 32.
Definition u64 (x : Z) : Z := x mod 2 ^ 64.

(** The value of a [w]-bit pattern read as a two's complement number. *)
Definition signed (w : Z) (x : Z) : Z :=
  let r := x mod 2 ^ w in if r <? 2 ^ (w - 1) then r else r - 2 ^ w.
Definition s8 : Z -> Z := signed 8.
Definition s16 : Z -> Z := signed 16.
Definition s32 : Z -> Z := signed 32.
Definition s64 : Z -> Z := signed 64.

Lemma u8_range x : 0 <= u8 x < 256.
Proof. apply Z.mod_pos_bound. lia. Qed.
Lemma u16_range x : 0 <= u16 x < 65536.
Proof. apply Z.mod_pos_bound. lia. Qed.
Lemma u32_range x : 0 <= u32 x < 4294967296.
Proof. apply Z.mod_pos_bound. lia. Qed.
Lemma u64_range x : 0 <= u64 x < 18446744073709551616.
Proof. apply Z.mod_pos_bound. lia. Qed.

Lemma u8_small x : 0 <= x < 256 -> u8 x = x.
Proof. apply Z.mod_small. Qed.
Lemma u16_small x : 0 <= x < 65536 -> u16 x = x.
Proof. apply Z.mod_small. Qed.
Lemma u32_small x : 0 <= x < 4294967296 -> u32 x = x.
Proof. apply Z.mod_small. Qed.
Lemma u64_small x : 0 <= x < 18446744073709551616 -> u64 x = x.
Proof. apply Z.mod_small. Qed.

Lemma signed_range w x : 0 < w -> - 2 ^ (w - 1) <= signed w x < 2 ^ (w - 1).
Proof.
  intros Hw. unfold signed.
  assert (Hp : 2 ^ w = 2 * 2 ^ (w - 1)).
  { rewrite <- Z.pow_succ_r by lia. f_equal. lia. }
  pose proof (Z.mod_pos_bound x (2 ^ w)) as Hb.
  assert (0 < 2 ^ w) by (apply Z.pow_pos_nonneg; lia).
  destruct (Z.ltb_spec (x mod 2 ^ w) (2 ^ (w - 1))); lia.
Qed.

Lemma signed_small w x : 0 < w -> - 2 ^ (w - 1) <= x < 2 ^ (w - 1) -> signed w x = x.
Proof.
  intros Hw Hx. unfold signed.
  assert (Hp : 2 ^ w = 2 * 2 ^ (w - 1)).
  { rewrite <- Z.pow_succ_r by lia. f_equal. lia. }
  destruct (Z.le_gt_cases 0 x).
  - rewrite Z.mod_small by lia.
    destruct (Z.ltb_spec x (2 ^ (w - 1))); lia.
  - replace (x mod 2 ^ w) with (x + 2 ^ w).
    + destruct (Z.ltb_spec (x + 2 ^ w) (2 ^ (w - 1))); lia.
    + symmetry. rewrite <- (Z.mod_add x 1) by lia. rewrite Z.mul_1_l.
      apply Z.mod_small. lia.
Qed.

Lemma s32_small x : -2147483648 <= x < 2147483648 -> s32 x = x.
Proof. intros. apply signed_small; lia. Qed.
Lemma s16_small x : -32768 <= x < 32768 -> s16 x = x.
Proof. intros. apply signed_small; lia. Qed.
Lemma s8_small x : -128 <= x < 128 -> s8 x = x.
Proof. intros. apply signed_small; lia. Qed.

(** Wrapping twice is wrapping once. *)
Lemma signed_mod w x : 0 < w -> signed w x mod 2 ^ w = x mod 2 ^ w.
Proof.
  intros Hw. unfold signed. assert (0 < 2 ^ w) by (apply Z.pow_pos_nonneg; lia).
  destruct (_ <? _).
  - apply Z.mod_mod. lia.
  - rewrite Zminus_mod, Z.mod_mod, Z_mod_same_full by lia. rewrite Z.sub_0_r. apply Z.mod_mod. lia.
Qed.
Lemma s32_add_l a b : s32 (s32 a + b) = s32 (a + b).
Proof.
  unfold s32 at 1 3, signed at 1 2. cbv zeta. rewrite (Zplus_mod (s32 a)).
  unfold s32. rewrite signed_mod by lia. by rewrite <- Zplus_mod.
Qed.
Lemma u32_add_l a b : u32 (u32 a + b) = u32 (a + b).
Proof. apply Zplus_mod_idemp_l. Qed.

(** Case analysis on every boolean comparison of [Z] in the goal. *)
Ltac case_cmp :=
  repeat match goal with
  | |- context [Z.eqb ?a ?b] => destruct (Z.eqb_spec a b)
  | |- context [Z.ltb ?a ?b] => destruct (Z.ltb_spec a b)
  | |- context [Z.leb ?a ?b] => destruct (Z.leb_spec a b)
  end.

(** ** Lists and maps *)
(** A duplicate-free list of keys of a map is no longer than the map. *)
Lemma NoDup_keys_size {V} (m : gmap Z V) (l : list Z) :
  NoDup l -> (forall a, a ∈ l -> is_Some (m !! a)) -> (length l <= size m)%nat.
Proof.
  intros Hnd Hin.
  rewrite <- (size_list_to_set (C := gset Z) l) by done.
  rewrite <- size_dom. apply subseteq_size.
  intros a Ha%elem_of_list_to_set. apply elem_of_dom. auto.
Qed.
