(* ===== verification/KList.v ===== *)
(** * include/kernel/list.h: the kernel's intrusive doubly linked lists

    A [list_head] is two words in memory.  The heap keeps the two fields of
    every node in one map each ([nx] for [next], [pv] for [prev]), so that a
    store to one field is visibly no store to the other.  Every routine of the
    header is a definition below, store for store; [dlist] says that a head and
    a sequence of nodes form a closed ring, and [lists] that a family of such
    rings shares no node.  The lemmas [wp_*] are what the other components use. *)

From S2P Require Import Prelude.

Record lheap : Type := mk_lheap {
  nx : gmap Z Z;    (** [p->next] *)
  pv : gmap Z Z     (** [p->prev] *)
}.

Definition NULL : Z := 0.

(** The fault of a load or store at an address that is not allocated. *)
Definition bad_ptr (a : Z) : fault := if a =? NULL then NullDeref else BadAddr a.

Definition rd_next (a : Z) : M lheap Z :=
  h <- gets id ;; lift_opt (bad_ptr a) (nx h !! a).
Definition rd_prev (a : Z) : M lheap Z :=
  h <- gets id ;; lift_opt (bad_ptr a) (pv h !! a).
Definition wr_next (a v : Z) : M lheap unit :=
  rd_next a ;;; modify (fun h => mk_lheap (<[a:=v]> (nx h)) (pv h)).
Definition wr_prev (a v : Z) : M lheap unit :=
  rd_prev a ;;; modify (fun h => mk_lheap (nx h) (<[a:=v]> (pv h))).

(** ** The routines of list.h *)

Definition INIT_LIST_HEAD (list : Z) : M lheap unit :=
  wr_next list list ;;; wr_prev list list.

Definition __list_add (new prev next : Z) : M lheap unit :=
  wr_prev next new ;;;
  wr_next new next ;;;
  wr_prev new prev ;;;
  wr_next prev new.

Definition list_add (new head : Z) : M lheap unit :=
  n <- rd_next head ;; __list_add new head n.

Definition list_add_tail (new head : Z) : M lheap unit :=
  p <- rd_prev head ;; __list_add new p head.

Definition __list_del (prev next : Z) : M lheap unit :=
  wr_prev next prev ;;; wr_next prev next.

Definition __list_del_entry (entry : Z) : M lheap unit :=
  p <- rd_prev entry ;; n <- rd_next entry ;; __list_del p n.

Definition list_del (entry : Z) : M lheap unit :=
  p <- rd_prev entry ;; n <- rd_next entry ;; __list_del p n ;;;
  wr_next entry 0 ;;;
  wr_prev entry 0.

Definition list_replace (old new : Z) : M lheap unit :=
  n <- rd_next old ;; wr_next new n ;;;
  n' <- rd_next new ;; wr_prev n' new ;;;
  p <- rd_prev old ;; wr_prev new p ;;;
  p' <- rd_prev new ;; wr_next p' new.

Definition list_replace_init (old new : Z) : M lheap unit :=
  list_replace old new ;;; INIT_LIST_HEAD old.

Definition list_del_init (entry : Z) : M lheap unit :=
  __list_del_entry entry ;;; INIT_LIST_HEAD entry.

Definition list_move (list head : Z) : M lheap unit :=
  __list_del_entry list ;;; list_add list head.

Definition list_move_tail (list head : Z) : M lheap unit :=
  __list_del_entry list ;;; list_add_tail list head.

Definition list_is_last (list head : Z) : M lheap bool :=
  n <- rd_next list ;; ret (n =? head).

Definition list_empty (head : Z) : M lheap bool :=
  n <- rd_next head ;; ret (n =? head).

Definition list_empty_careful (head : Z) : M lheap bool :=
  next <- rd_next head ;;
  if next =? head then p <- rd_prev head ;; ret (next =? p) else ret false.

Definition list_rotate_left (head : Z) : M lheap unit :=
  e <- list_empty head ;;
  if negb e then first <- rd_next head ;; list_move_tail first head else ret tt.

Definition list_is_singular (head : Z) : M lheap bool :=
  e <- list_empty head ;;
  if negb e then n <- rd_next head ;; p <- rd_prev head ;; ret (n =? p)
  else ret false.

Definition __list_cut_position (list head entry : Z) : M lheap unit :=
  new_first <- rd_next entry ;;
  n <- rd_next head ;; wr_next list n ;;;
  n' <- rd_next list ;; wr_prev n' list ;;;
  wr_prev list entry ;;;
  wr_next entry list ;;;
  wr_next head new_first ;;;
  wr_prev new_first head.

Definition list_cut_position (list head entry : Z) : M lheap unit :=
  e <- list_empty head ;;
  if e then ret tt else
  s <- list_is_singular head ;;
  skip <- (if s then n <- rd_next head ;;
                     ret (negb (n =? entry) && negb (head =? entry))
           else ret false) ;;
  if (skip : bool) then ret tt else
  if entry =? head then INIT_LIST_HEAD list
  else __list_cut_position list head entry.

Definition __list_splice (list prev next : Z) : M lheap unit :=
  first <- rd_next list ;;
  last <- rd_prev list ;;
  wr_prev first prev ;;;
  wr_next prev first ;;;
  wr_next last next ;;;
  wr_prev next last.

Definition list_splice (list head : Z) : M lheap unit :=
  e <- list_empty list ;;
  if negb e then n <- rd_next head ;; __list_splice list head n else ret tt.

Definition list_splice_tail (list head : Z) : M lheap unit :=
  e <- list_empty list ;;
  if negb e then p <- rd_prev head ;; __list_splice list p head else ret tt.

Definition list_splice_init (list head : Z) : M lheap unit :=
  e <- list_empty list ;;
  if negb e then
    (n <- rd_next head ;; __list_splice list head n) ;;; INIT_LIST_HEAD list
  else ret tt.

Definition list_splice_tail_init (list head : Z) : M lheap unit :=
  e <- list_empty list ;;
  if negb e then
    (p <- rd_prev head ;; __list_splice list p head) ;;; INIT_LIST_HEAD list
  else ret tt.

(** [list_for_each], [list_for_each_prev]: the nodes visited, in order.  A
    ring has at most as many nodes as the heap, so one more turn is enough
    for every traversal that comes back to its head. *)
Definition walk_fuel (h : lheap) : nat := S (S (size (nx h))).

Definition list_for_each_nodes (head : Z) : M lheap (list Z) :=
  fuel <- gets walk_fuel ;;
  first <- rd_next head ;;
  loop fuel (fun '(pos, seen) =>
      if pos =? head then ret (inr (rev seen))
      else n <- rd_next pos ;; ret (inl (n, pos :: seen)))
    (first, []).

Definition list_for_each_prev_nodes (head : Z) : M lheap (list Z) :=
  fuel <- gets walk_fuel ;;
  first <- rd_prev head ;;
  loop fuel (fun '(pos, seen) =>
      if pos =? head then ret (inr (rev seen))
      else p <- rd_prev pos ;; ret (inl (p, pos :: seen)))
    (first, []).

(** ** Rings *)

Definition link (h : lheap) (a b : Z) : Prop :=
  nx h !! a = Some b /\ pv h !! b = Some a.

(** Every two neighbours of the sequence are linked both ways. *)
Fixpoint path (h : lheap) (c : list Z) : Prop :=
  match c with
  | x :: t => match t with y :: _ => link h x y /\ path h t | [] => True end
  | [] => True
  end.

(** The head [hd] and the nodes [l], in order, are a ring of distinct nodes. *)
Definition dlist (h : lheap) (hd : Z) (l : list Z) : Prop :=
  NoDup (hd :: l) /\ path h (hd :: l ++ [hd]).

(** An allocated node. *)
Definition node (h : lheap) (a : Z) : Prop :=
  is_Some (nx h !! a) /\ is_Some (pv h !! a).

(** [h'] differs from [h] at most at the nodes of [X], and allocates the same. *)
Record same_out (X : list Z) (h h' : lheap) : Prop := {
  so_nx : forall a, a ∉ X -> nx h' !! a = nx h !! a;
  so_pv : forall a, a ∉ X -> pv h' !! a = pv h !! a;
  so_nx_dom : forall a, is_Some (nx h' !! a) <-> is_Some (nx h !! a);
  so_pv_dom : forall a, is_Some (pv h' !! a) <-> is_Some (pv h !! a)
}.

Definition lasto (hd : Z) (l : list Z) : Z := default hd (last l).
Definition heado (hd : Z) (l : list Z) : Z := default hd (head l).

(** *** Ends of a sequence *)

Lemma lasto_elem hd l : lasto hd l ∈ hd :: l.
Proof.
  unfold lasto. destruct (last l) as [x|] eqn:E; cbn; [|set_solver].
  apply last_Some in E as [l' ->]. set_solver.
Qed.

Lemma heado_elem hd l : heado hd l ∈ hd :: l.
Proof. destruct l; cbn; set_solver. Qed.

Lemma lasto_snoc hd l x : lasto hd (l ++ [x]) = x.
Proof. unfold lasto. by rewrite last_snoc. Qed.

Lemma lasto_cons hd x l : lasto hd (x :: l) = lasto x l.
Proof.
  unfold lasto. rewrite last_cons. by destruct (last l).
Qed.

Lemma lasto_app hd l1 x l2 : lasto hd (l1 ++ x :: l2) = lasto x l2.
Proof.
  revert hd. induction l1 as [|y l1 IH]; intros hd; cbn; rewrite lasto_cons; [done|].
  apply IH.
Qed.

Lemma split_lasto hd l : hd :: l = removelast (hd :: l) ++ [lasto hd l].
Proof.
  revert hd. induction l as [|x l IH]; intros hd; [done|].
  rewrite lasto_cons. change (removelast (hd :: x :: l)) with (hd :: removelast (x :: l)).
  cbn [app]. by rewrite <- IH.
Qed.

Lemma removelast_incl (l : list Z) a : a ∈ removelast l -> a ∈ l.
Proof.
  destruct l as [|x l]; [done|]. intros Ha. rewrite (split_lasto x l). set_solver.
Qed.

Lemma lasto_notin_removelast hd l :
  NoDup (hd :: l) -> lasto hd l ∉ removelast (hd :: l).
Proof.
  intros Hnd. rewrite (split_lasto hd l) in Hnd.
  apply NoDup_app in Hnd as (_ & Hd & _). intros Hin. apply (Hd _ Hin). set_solver.
Qed.

(** *** Paths *)

Lemma path_app h x c1 y c2 :
  path h (x :: c1 ++ y :: c2) <->
  path h (x :: c1) /\ link h (lasto x c1) y /\ path h (y :: c2).
Proof.
  revert x. induction c1 as [|z c1 IH]; intros x; cbn [app].
  - unfold lasto; cbn. tauto.
  - rewrite lasto_cons. cbn [path]. cbn [path] in IH. rewrite IH. tauto.
Qed.

Lemma path_frame h h' c :
  (forall a, a ∈ removelast c -> nx h' !! a = nx h !! a) ->
  (forall a, a ∈ tail c -> pv h' !! a = pv h !! a) ->
  path h c -> path h' c.
Proof.
  induction c as [|x [|y c] IH]; intros Hn Hp; [done|done|].
  cbn [path]. intros [[Hx Hy] Hc]. split.
  - split; [rewrite Hn; [done|cbn; set_solver]|rewrite Hp; [done|cbn; set_solver]].
  - apply IH; [| |done].
    + intros a Ha. apply Hn. change (removelast (x :: y :: c)) with (x :: removelast (y :: c)).
      set_solver.
    + intros a Ha. apply Hp. cbn in *. set_solver.
Qed.

Lemma path_cons_snoc h hd l1 l2 :
  path h (hd :: (l1 ++ l2) ++ [hd]) <->
  path h (hd :: l1) /\ link h (lasto hd l1) (heado hd l2) /\ path h (l2 ++ [hd]).
Proof. rewrite <- app_assoc. destruct l2 as [|y l2]; cbn [app]; apply path_app. Qed.

Lemma path_nodes h x c a :
  path h (x :: c) -> a ∈ removelast (x :: c) -> is_Some (nx h !! a).
Proof.
  revert x. induction c as [|y c IH]; intros x; [set_solver|].
  cbn [path]. intros [[Hx _] Hc].
  change (removelast (x :: y :: c)) with (x :: removelast (y :: c)).
  intros [->|Ha]%elem_of_cons; [eauto|eauto].
Qed.

Lemma path_nodes_pv h x c a : path h (x :: c) -> a ∈ c -> is_Some (pv h !! a).
Proof.
  revert x. induction c as [|y c IH]; intros x; [set_solver|].
  cbn [path]. intros [[_ Hy] Hc] [->|Ha]%elem_of_cons; [eauto|eauto].
Qed.

Lemma dlist_nx h hd l a : dlist h hd l -> a ∈ hd :: l -> is_Some (nx h !! a).
Proof.
  intros [_ Hp] Ha. eapply path_nodes; [exact Hp|].
  rewrite app_comm_cons, removelast_last. done.
Qed.

Lemma dlist_pv h hd l a : dlist h hd l -> a ∈ hd :: l -> is_Some (pv h !! a).
Proof. intros [_ Hp] Ha. eapply path_nodes_pv; [exact Hp|]. set_solver. Qed.

Lemma dlist_node h hd l a : dlist h hd l -> a ∈ hd :: l -> node h a.
Proof. intros. split; eauto using dlist_nx, dlist_pv. Qed.

Lemma dlist_first h hd l : dlist h hd l -> nx h !! hd = Some (heado hd l).
Proof. intros [_ Hp]. apply (path_cons_snoc h hd [] l) in Hp as (_ & [H _] & _). done. Qed.

Lemma dlist_last h hd l : dlist h hd l -> pv h !! hd = Some (lasto hd l).
Proof.
  intros [_ Hp]. rewrite <- (app_nil_r l) in Hp.
  apply path_cons_snoc in Hp as (_ & [_ H] & _). done.
Qed.

Lemma dlist_links h hd l1 x l2 :
  dlist h hd (l1 ++ x :: l2) ->
  nx h !! x = Some (heado hd l2) /\ pv h !! x = Some (lasto hd l1).
Proof.
  intros [_ Hp]. split.
  - assert (Hp2 := Hp). replace (l1 ++ x :: l2) with ((l1 ++ [x]) ++ l2) in Hp2
      by (rewrite <- app_assoc; done).
    apply path_cons_snoc in Hp2 as (_ & [H _] & _). by rewrite lasto_snoc in H.
  - apply path_cons_snoc in Hp as (_ & [_ H] & _). done.
Qed.

Lemma dlist_length h hd l : dlist h hd l -> (length l < size (nx h))%nat.
Proof.
  intros Hd. assert (H := NoDup_keys_size (nx h) (hd :: l) (proj1 Hd)).
  cbn in H. apply H. intros a Ha. by eapply dlist_nx.
Qed.

(** A ring is untouched by a change outside its nodes. *)
Lemma dlist_frame h h' X hd l :
  same_out X h h' -> (forall a, a ∈ X -> a ∉ hd :: l) -> dlist h hd l -> dlist h' hd l.
Proof.
  intros [Hn Hp _ _] HX [Hnd Hpath]. split; [done|].
  eapply path_frame; [| |exact Hpath].
  - intros a Ha. apply Hn. intros Hin. apply (HX a Hin).
    rewrite app_comm_cons, removelast_last in Ha. done.
  - intros a Ha. apply Hp. intros Hin. apply (HX a Hin). cbn in Ha. set_solver.
Qed.

(** *** Loads and stores *)

Lemma wp_rd_next h a b (Q : Z -> lheap -> Prop) :
  nx h !! a = Some b -> Q b h -> wp (rd_next a) Q h.
Proof. intros H HQ. unfold rd_next. wp_simpl. cbn. by rewrite H. Qed.

Lemma wp_rd_prev h a b (Q : Z -> lheap -> Prop) :
  pv h !! a = Some b -> Q b h -> wp (rd_prev a) Q h.
Proof. intros H HQ. unfold rd_prev. wp_simpl. cbn. by rewrite H. Qed.

Lemma wp_wr_next h a v (Q : unit -> lheap -> Prop) :
  is_Some (nx h !! a) -> Q tt (mk_lheap (<[a:=v]> (nx h)) (pv h)) ->
  wp (wr_next a v) Q h.
Proof. intros [b H] HQ. unfold wr_next. wp_simpl. by eapply wp_rd_next. Qed.

Lemma wp_wr_prev h a v (Q : unit -> lheap -> Prop) :
  is_Some (pv h !! a) -> Q tt (mk_lheap (nx h) (<[a:=v]> (pv h))) ->
  wp (wr_prev a v) Q h.
Proof. intros [b H] HQ. unfold wr_prev. wp_simpl. by eapply wp_rd_prev. Qed.

Lemma is_Some_insert (m : gmap Z Z) a v b :
  is_Some (m !! b) -> is_Some (<[a:=v]> m !! b).
Proof. intros H. rewrite lookup_insert. case_decide; eauto. Qed.

Lemma is_Some_insert_iff (m : gmap Z Z) a v b :
  is_Some (m !! a) -> is_Some (<[a:=v]> m !! b) <-> is_Some (m !! b).
Proof. intros H. rewrite lookup_insert. case_decide; subst; naive_solver. Qed.

#[export] Hint Resolve is_Some_insert : yak.

Lemma same_out_refl X h : same_out X h h.
Proof. split; done. Qed.

Lemma same_out_trans X h1 h2 h3 :
  same_out X h1 h2 -> same_out X h2 h3 -> same_out X h1 h3.
Proof.
  intros [A1 B1 C1 D1] [A2 B2 C2 D2]. split; intros a.
  - intros Ha. by rewrite A2, A1.
  - intros Ha. by rewrite B2, B1.
  - by rewrite C2.
  - by rewrite D2.
Qed.

Lemma same_out_weaken X Y h h' :
  (forall a, a ∈ X -> a ∈ Y) -> same_out X h h' -> same_out Y h h'.
Proof. intros HXY [A B C D]. split; intros; auto. Qed.

Lemma same_out_next X h a v :
  a ∈ X -> is_Some (nx h !! a) ->
  same_out X h (mk_lheap (<[a:=v]> (nx h)) (pv h)).
Proof.
  intros Ha Hs. split; cbn; intros b; [| done| |done].
  - intros Hb. rewrite lookup_insert_ne; [done|]. intros ->. done.
  - by apply is_Some_insert_iff.
Qed.

Lemma same_out_prev X h a v :
  a ∈ X -> is_Some (pv h !! a) ->
  same_out X h (mk_lheap (nx h) (<[a:=v]> (pv h))).
Proof.
  intros Ha Hs. split; cbn; intros b; [done| |done|].
  - intros Hb. rewrite lookup_insert_ne; [done|]. intros ->. done.
  - by apply is_Some_insert_iff.
Qed.

Lemma same_out_node X h h' a : same_out X h h' -> node h' a <-> node h a.
Proof. intros [_ _ C D]. unfold node. by rewrite C, D. Qed.

(** *** Insertion and removal between two neighbours *)

Lemma path_head h x hd l :
  path h (x :: l ++ [hd]) <-> link h x (heado hd l) /\ path h (l ++ [hd]).
Proof. destruct l; done. Qed.

Lemma path_prefix_frame h h' hd l1 :
  (forall a, a ∈ hd :: l1 -> a ≠ lasto hd l1 -> nx h' !! a = nx h !! a) ->
  (forall a, a ∈ l1 -> pv h' !! a = pv h !! a) ->
  NoDup (hd :: l1) -> path h (hd :: l1) -> path h' (hd :: l1).
Proof.
  intros Hn Hp Hnd. apply path_frame; [|done].
  intros a Ha. apply Hn; [by apply removelast_incl|].
  intros ->. by apply (lasto_notin_removelast hd l1).
Qed.

Lemma path_suffix_frame h h' hd l2 :
  (forall a, a ∈ l2 -> nx h' !! a = nx h !! a) ->
  (forall a, a ∈ hd :: l2 -> a ≠ heado hd l2 -> pv h' !! a = pv h !! a) ->
  NoDup (hd :: l2) -> path h (l2 ++ [hd]) -> path h' (l2 ++ [hd]).
Proof.
  intros Hn Hp Hnd. apply path_frame.
  - intros a. rewrite removelast_last. apply Hn.
  - intros a Ha. destruct l2 as [|y l2]; cbn in Ha; [set_solver|].
    apply Hp; [set_solver|]. cbn. intros ->.
    apply NoDup_cons in Hnd as [Hhd Hnd]. apply NoDup_cons in Hnd as [Hy _]. set_solver.
Qed.

(** The two ends of a gap in a ring, and what they are not. *)
Lemma gap_ends hd l1 l2 :
  NoDup (hd :: l1 ++ l2) ->
  lasto hd l1 ∉ l2 /\ heado hd l2 ∉ l1 /\
  NoDup (hd :: l1) /\ NoDup (hd :: l2) /\
  lasto hd l1 ∈ hd :: l1 ++ l2 /\ heado hd l2 ∈ hd :: l1 ++ l2.
Proof.
  intros Hnd. apply NoDup_cons in Hnd as [Hhd Hnd].
  apply NoDup_app in Hnd as (Hnd1 & Hd & Hnd2).
  pose proof (lasto_elem hd l1). pose proof (heado_elem hd l2).
  split_and!.
  - apply elem_of_cons in H as [->|H]; set_solver.
  - apply elem_of_cons in H0 as [->|H0]; set_solver.
  - apply NoDup_cons; set_solver.
  - apply NoDup_cons; set_solver.
  - set_solver.
  - set_solver.
Qed.

Lemma NoDup_insert_mid (hd x : Z) l1 l2 :
  NoDup (hd :: l1 ++ x :: l2) <-> x ∉ hd :: l1 ++ l2 /\ NoDup (hd :: l1 ++ l2).
Proof.
  rewrite <- (Permutation_middle l1 l2 x), Permutation_swap. apply NoDup_cons.
Qed.

(** Two nodes differ when one is in a sequence and the other is not. *)
Ltac node_neq :=
  match goal with
  | H : ?a ≠ ?b |- ?a ≠ ?b => exact H
  | H : ?b ≠ ?a |- ?a ≠ ?b => exact (not_eq_sym H)
  | |- ?a ≠ ?b =>
      let E := fresh in intros E;
      first [rewrite E in * |- | rewrite <- E in * |- ];
      repeat match goal with
      | H : _ ∉ _ :: _ |- _ => apply not_elem_of_cons in H as [? ?]
      | H : _ ∉ _ ++ _ |- _ => apply not_elem_of_app in H as [? ?]
      end;
      first [contradiction | congruence | set_solver]
  end.
Ltac link_lookup :=
  repeat (first [rewrite lookup_insert_eq | rewrite lookup_insert_ne by node_neq]).

Lemma wp_add_between h hd l1 l2 new (Q : unit -> lheap -> Prop) :
  dlist h hd (l1 ++ l2) -> new ∉ hd :: l1 ++ l2 -> node h new ->
  (forall h', dlist h' hd (l1 ++ new :: l2) ->
     same_out (new :: hd :: l1 ++ l2) h h' -> Q tt h') ->
  wp (__list_add new (lasto hd l1) (heado hd l2)) Q h.
Proof.
  intros Hd Hnew [Hnn Hnp] HQ.
  destruct (gap_ends hd l1 l2 (proj1 Hd)) as (Hp & Hn & Hnd1 & Hnd2 & Hpin & Hnin).
  pose proof (dlist_nx _ _ _ _ Hd Hpin) as Hpx. pose proof (dlist_pv _ _ _ _ Hd Hnin) as Hnv.
  set (p := lasto hd l1) in *. set (n := heado hd l2) in *.
  unfold __list_add. wp_simpl.
  apply wp_wr_prev; [done|]. wp_simpl. apply wp_wr_next; cbn; [done|]. wp_simpl.
  apply wp_wr_prev; cbn; [auto with yak|]. wp_simpl. apply wp_wr_next; cbn; [auto with yak|].
  assert (new ≠ p) by set_solver. assert (new ≠ n) by set_solver.
  apply HQ.
  - split.
    + apply NoDup_insert_mid. split; [done|apply Hd].
    + destruct Hd as [_ Hpath]. apply path_cons_snoc in Hpath as (P1 & _ & P2).
      apply path_cons_snoc. fold p. cbn [heado head default app]. split_and!; cbn.
      * eapply path_prefix_frame; [| | |exact P1]; cbn; [| |done].
        -- intros a Ha Hap. fold p in Hap. link_lookup. done.
        -- intros a Ha. link_lookup. done.
      * split; cbn; link_lookup; done.
      * apply path_head. fold n. split_and!; cbn; [split; cbn; link_lookup; done|].
        eapply path_suffix_frame; [| | |exact P2]; cbn; [| |done].
        -- intros a Ha. link_lookup. done.
        -- intros a Ha Han. fold n in Han. link_lookup. done.
  - split; cbn; intros a.
    + intros Ha. link_lookup. done.
    + intros Ha. link_lookup. done.
    + rewrite !is_Some_insert_iff; auto with yak.
    + rewrite !is_Some_insert_iff; auto with yak.
Qed.

(** Unlinking the node between [l1] and [l2]. *)
Lemma wp_del_between h hd l1 x l2 (Q : unit -> lheap -> Prop) :
  dlist h hd (l1 ++ x :: l2) ->
  (forall h', dlist h' hd (l1 ++ l2) -> node h' x ->
     same_out (hd :: l1 ++ l2) h h' -> Q tt h') ->
  wp (__list_del (lasto hd l1) (heado hd l2)) Q h.
Proof.
  intros Hd HQ.
  destruct (proj1 (NoDup_insert_mid _ _ _ _) (proj1 Hd)) as [Hx Hnd].
  destruct (gap_ends hd l1 l2 Hnd) as (Hp & Hn & Hnd1 & Hnd2 & Hpin & Hnin).
  assert (Hsub : forall a, a ∈ hd :: l1 ++ l2 -> a ∈ hd :: l1 ++ x :: l2) by set_solver.
  pose proof (dlist_nx _ _ _ _ Hd (Hsub _ Hpin)) as Hpx.
  pose proof (dlist_pv _ _ _ _ Hd (Hsub _ Hnin)) as Hnv.
  set (p := lasto hd l1) in *. set (n := heado hd l2) in *.
  unfold __list_del. wp_simpl. apply wp_wr_prev; [done|]. apply wp_wr_next; cbn; [done|].
  apply HQ.
  - split; [done|].
    destruct Hd as [_ Hpath]. apply path_cons_snoc in Hpath as (P1 & _ & P2).
    cbn [app] in P2. apply path_head in P2 as [_ P2].
    apply path_cons_snoc. fold p n. split_and!; cbn.
    + eapply path_prefix_frame; [| | |exact P1]; cbn; [| |done].
      * intros a Ha Hap. fold p in Hap. link_lookup. done.
      * intros a Ha. link_lookup. done.
    + split; cbn; link_lookup; done.
    + eapply path_suffix_frame; [| | |exact P2]; cbn; [| |done].
      * intros a Ha. link_lookup. done.
      * intros a Ha Han. fold n in Han. link_lookup. done.
  - assert (node h x) as [? ?] by (eapply dlist_node; [exact Hd|set_solver]).
    split; cbn; auto with yak.
  - split; cbn; intros a.
    + intros Ha. link_lookup. done.
    + intros Ha. link_lookup. done.
    + by rewrite is_Some_insert_iff.
    + by rewrite is_Some_insert_iff.
Qed.

(** *** The routines on one ring *)

Section OneRing.
Implicit Types (h : lheap) (hd new x : Z) (l : list Z) (Q : unit -> lheap -> Prop).

Lemma wp_INIT_LIST_HEAD h a Q :
  node h a ->
  (forall h', dlist h' a [] -> same_out [a] h h' -> Q tt h') ->
  wp (INIT_LIST_HEAD a) Q h.
Proof.
  intros [Hn Hp] HQ. unfold INIT_LIST_HEAD. wp_simpl.
  apply wp_wr_next; [done|]. apply wp_wr_prev; cbn; [done|].
  apply HQ.
  - split; [apply NoDup_singleton|]. cbn. split; [|done].
    split; cbn; link_lookup; done.
  - eapply same_out_trans; [by apply (same_out_next _ h a a); [set_solver|]|].
    by apply (same_out_prev _ (mk_lheap _ _) a a); [set_solver|].
Qed.

Lemma wp_list_add_after h hd l1 x l2 new Q :
  dlist h hd (l1 ++ x :: l2) -> new ∉ hd :: l1 ++ x :: l2 -> node h new ->
  (forall h', dlist h' hd (l1 ++ x :: new :: l2) ->
     same_out (new :: hd :: l1 ++ x :: l2) h h' -> Q tt h') ->
  wp (list_add new x) Q h.
Proof.
  intros Hd Hnew Hn HQ. unfold list_add. wp_simpl.
  destruct (dlist_links _ _ _ _ _ Hd) as [Hx _].
  eapply wp_rd_next; [exact Hx|].
  rewrite cons_middle, app_assoc in Hd, Hnew.
  rewrite <- (lasto_snoc hd l1 x) at 1.
  apply wp_add_between; [done|done|done|].
  intros h'. rewrite <- !app_assoc. apply HQ.
Qed.

Lemma wp_list_add_before h hd l1 x l2 new Q :
  dlist h hd (l1 ++ x :: l2) -> new ∉ hd :: l1 ++ x :: l2 -> node h new ->
  (forall h', dlist h' hd (l1 ++ new :: x :: l2) ->
     same_out (new :: hd :: l1 ++ x :: l2) h h' -> Q tt h') ->
  wp (list_add_tail new x) Q h.
Proof.
  intros Hd Hnew Hn HQ. unfold list_add_tail. wp_simpl.
  destruct (dlist_links _ _ _ _ _ Hd) as [_ Hx].
  eapply wp_rd_prev; [exact Hx|].
  change x with (heado hd (x :: l2)) at 1.
  by apply wp_add_between.
Qed.

Lemma wp_list_add h hd l new Q :
  dlist h hd l -> new ∉ hd :: l -> node h new ->
  (forall h', dlist h' hd (new :: l) -> same_out (new :: hd :: l) h h' -> Q tt h') ->
  wp (list_add new hd) Q h.
Proof.
  intros Hd Hnew Hn HQ. unfold list_add. wp_simpl.
  eapply wp_rd_next; [by eapply dlist_first|].
  by apply (wp_add_between h hd [] l new).
Qed.

Lemma wp_list_add_tail h hd l new Q :
  dlist h hd l -> new ∉ hd :: l -> node h new ->
  (forall h', dlist h' hd (l ++ [new]) -> same_out (new :: hd :: l) h h' -> Q tt h') ->
  wp (list_add_tail new hd) Q h.
Proof.
  intros Hd Hnew Hn HQ. unfold list_add_tail. wp_simpl.
  eapply wp_rd_prev; [by eapply dlist_last|].
  rewrite <- (app_nil_r l) in Hd, Hnew.
  apply (wp_add_between h hd l [] new); [done|done|done|].
  rewrite app_nil_r. done.
Qed.

Lemma wp___list_del_entry h hd l1 x l2 Q :
  dlist h hd (l1 ++ x :: l2) ->
  (forall h', dlist h' hd (l1 ++ l2) -> node h' x ->
     same_out (hd :: l1 ++ l2) h h' -> Q tt h') ->
  wp (__list_del_entry x) Q h.
Proof.
  intros Hd HQ. unfold __list_del_entry. wp_simpl.
  destruct (dlist_links _ _ _ _ _ Hd) as [Hx Hp].
  eapply wp_rd_prev; [exact Hp|]. wp_simpl. eapply wp_rd_next; [exact Hx|].
  by eapply wp_del_between.
Qed.

Lemma wp_list_del h hd l1 x l2 Q :
  dlist h hd (l1 ++ x :: l2) ->
  (forall h', dlist h' hd (l1 ++ l2) -> nx h' !! x = Some 0 -> pv h' !! x = Some 0 ->
     same_out (hd :: l1 ++ x :: l2) h h' -> Q tt h') ->
  wp (list_del x) Q h.
Proof.
  intros Hd HQ. unfold list_del. wp_simpl.
  destruct (dlist_links _ _ _ _ _ Hd) as [Hx Hp].
  destruct (proj1 (NoDup_insert_mid _ _ _ _) (proj1 Hd)) as [Hnin _].
  eapply wp_rd_prev; [exact Hp|]. wp_simpl. eapply wp_rd_next; [exact Hx|]. wp_simpl.
  eapply wp_del_between; [exact Hd|]. intros h1 Hd1 [Hn1 Hp1] Hs1. wp_simpl.
  apply wp_wr_next; [done|]. apply wp_wr_prev; cbn; [done|].
  assert (same_out [x] h1
    (mk_lheap (<[x:=0]> (nx h1)) (<[x:=0]> (pv h1)))) as Hs2.
  { eapply same_out_trans; [by apply (same_out_next _ h1 x 0); [set_solver|]|].
    by apply (same_out_prev _ (mk_lheap _ _) x 0); [set_solver|]. }
  apply HQ.
  - eapply dlist_frame; [exact Hs2| |exact Hd1]. intros a ->%list_elem_of_singleton. done.
  - cbn. by link_lookup.
  - cbn. by link_lookup.
  - eapply same_out_trans; (eapply same_out_weaken; [|eassumption]); set_solver.
Qed.

Lemma wp_list_del_init h hd l1 x l2 Q :
  dlist h hd (l1 ++ x :: l2) ->
  (forall h', dlist h' hd (l1 ++ l2) -> dlist h' x [] ->
     same_out (hd :: l1 ++ x :: l2) h h' -> Q tt h') ->
  wp (list_del_init x) Q h.
Proof.
  intros Hd HQ. unfold list_del_init. wp_simpl.
  destruct (proj1 (NoDup_insert_mid _ _ _ _) (proj1 Hd)) as [Hnin _].
  eapply wp___list_del_entry; [exact Hd|]. intros h1 Hd1 Hn1 Hs1.
  eapply wp_INIT_LIST_HEAD; [done|]. intros h2 Hd2 Hs2. apply HQ.
  - eapply dlist_frame; [exact Hs2| |exact Hd1]. intros a ->%list_elem_of_singleton. done.
  - done.
  - eapply same_out_trans; (eapply same_out_weaken; [|eassumption]); set_solver.
Qed.

Lemma wp_list_empty h hd l (Q : bool -> lheap -> Prop) :
  dlist h hd l -> Q (bool_decide (l = [])) h -> wp (list_empty hd) Q h.
Proof.
  intros Hd HQ. unfold list_empty. wp_simpl.
  eapply wp_rd_next; [by eapply dlist_first|]. wp_simpl.
  destruct l as [|x l].
  - rewrite Z.eqb_refl. exact HQ.
  - cbn. destruct (Z.eqb_spec x hd) as [->|]; [|exact HQ].
    destruct Hd as [Hnd _]. apply NoDup_cons in Hnd as [Hnd _]. set_solver.
Qed.

(** A node outside every ring whose fields were cleared by [list_del] does
    not look empty. *)
Lemma wp_list_empty_deleted h x (Q : bool -> lheap -> Prop) :
  nx h !! x = Some 0 -> x ≠ 0 -> Q false h -> wp (list_empty x) Q h.
Proof.
  intros Hx Hx0 HQ. unfold list_empty. wp_simpl.
  eapply wp_rd_next; [exact Hx|]. wp_simpl.
  destruct (Z.eqb_spec 0 x); [lia|done].
Qed.

Lemma wp_list_is_last h hd l1 x l2 (Q : bool -> lheap -> Prop) :
  dlist h hd (l1 ++ x :: l2) -> Q (bool_decide (l2 = [])) h ->
  wp (list_is_last x hd) Q h.
Proof.
  intros Hd HQ. unfold list_is_last. wp_simpl.
  destruct (dlist_links _ _ _ _ _ Hd) as [Hx _].
  eapply wp_rd_next; [exact Hx|]. wp_simpl. destruct l2 as [|y l2]; cbn.
  - by rewrite Z.eqb_refl.
  - destruct (Z.eqb_spec y hd) as [->|]; [|exact HQ].
    destruct Hd as [Hnd _]. apply NoDup_cons in Hnd as [Hnd _]. set_solver.
Qed.

Lemma wp_list_is_singular h hd l (Q : bool -> lheap -> Prop) :
  dlist h hd l -> Q (bool_decide (length l = 1%nat)) h -> wp (list_is_singular hd) Q h.
Proof.
  intros Hd HQ. unfold list_is_singular. wp_simpl.
  eapply wp_list_empty; [exact Hd|]. destruct l as [|x l]; [exact HQ|]. cbn [bool_decide].
  rewrite bool_decide_false by done. cbn [negb]. wp_simpl.
  eapply wp_rd_next; [by eapply dlist_first|]. wp_simpl.
  eapply wp_rd_prev; [by eapply dlist_last|]. wp_simpl.
  change (heado hd (x :: l)) with x. rewrite lasto_cons. destruct l as [|y l].
  - unfold lasto. cbn. by rewrite Z.eqb_refl.
  - rewrite lasto_cons. pose proof (lasto_elem y l).
    destruct (Z.eqb_spec x (lasto y l)) as [E|]; [|exact HQ].
    destruct Hd as [Hnd _]. apply NoDup_cons in Hnd as [_ Hnd].
    apply NoDup_cons in Hnd as [Hnd _]. rewrite E in Hnd. done.
Qed.

Lemma wp_list_move_same h hd l1 x l2 Q :
  dlist h hd (l1 ++ x :: l2) ->
  (forall h', dlist h' hd (x :: l1 ++ l2) ->
     same_out (hd :: l1 ++ x :: l2) h h' -> Q tt h') ->
  wp (list_move x hd) Q h.
Proof.
  intros Hd HQ. unfold list_move. wp_simpl.
  destruct (proj1 (NoDup_insert_mid _ _ _ _) (proj1 Hd)) as [Hnin _].
  eapply wp___list_del_entry; [exact Hd|]. intros h1 Hd1 Hn1 Hs1.
  eapply wp_list_add; [exact Hd1|done|done|]. intros h2 Hd2 Hs2. apply HQ; [done|].
  eapply same_out_trans; (eapply same_out_weaken; [|eassumption]); set_solver.
Qed.

Lemma wp_list_move_tail_same h hd l1 x l2 Q :
  dlist h hd (l1 ++ x :: l2) ->
  (forall h', dlist h' hd ((l1 ++ l2) ++ [x]) ->
     same_out (hd :: l1 ++ x :: l2) h h' -> Q tt h') ->
  wp (list_move_tail x hd) Q h.
Proof.
  intros Hd HQ. unfold list_move_tail. wp_simpl.
  destruct (proj1 (NoDup_insert_mid _ _ _ _) (proj1 Hd)) as [Hnin _].
  eapply wp___list_del_entry; [exact Hd|]. intros h1 Hd1 Hn1 Hs1.
  eapply wp_list_add_tail; [exact Hd1|done|done|]. intros h2 Hd2 Hs2. apply HQ; [done|].
  eapply same_out_trans; (eapply same_out_weaken; [|eassumption]); set_solver.
Qed.

Lemma wp_list_rotate_left h hd l Q :
  dlist h hd l ->
  (forall h', dlist h' hd (tail l ++ take 1 l) -> same_out (hd :: l) h h' -> Q tt h') ->
  wp (list_rotate_left hd) Q h.
Proof.
  intros Hd HQ. unfold list_rotate_left. wp_simpl.
  eapply wp_list_empty; [exact Hd|]. destruct l as [|x l].
  - apply HQ; [done|apply same_out_refl].
  - rewrite bool_decide_false by done. cbn [negb]. wp_simpl.
    eapply wp_rd_next; [by eapply dlist_first|].
    eapply (wp_list_move_tail_same h hd [] x l); [exact Hd|].
    cbn [app tail take] in *. rewrite take_0 in HQ. exact HQ.
Qed.

End OneRing.

(** *** Traversal *)

(** A ring seen from another of its nodes. *)
Lemma dlist_rotate h hd l1 x l2 :
  dlist h hd (l1 ++ x :: l2) -> dlist h x (l2 ++ hd :: l1).
Proof.
  intros [Hnd Hp]. split.
  - change (NoDup ((hd :: l1) ++ (x :: l2))) in Hnd.
    rewrite Permutation_app_comm in Hnd. exact Hnd.
  - apply path_cons_snoc in Hp as (P1 & L & P2). cbn [app] in P2.
    apply path_app in P2 as (P3 & L3 & _).
    rewrite <- app_assoc. cbn [app]. apply path_app. split_and!; [done|done|].
    apply path_app. done.
Qed.

(** The cursor of a traversal: the node that starts the rest [l2], or the head. *)
Lemma dlist_cursor h hd l1 l2 :
  dlist h hd (l1 ++ l2) -> heado hd l2 = hd <-> l2 = [].
Proof.
  intros [Hnd _]. destruct l2 as [|x l2]; [done|]. split; [|done]. cbn. intros ->.
  apply NoDup_cons in Hnd as [Hnd _]. set_solver.
Qed.

Lemma dlist_cursor_prev h hd l1 l2 :
  dlist h hd (l1 ++ l2) -> lasto hd l1 = hd <-> l1 = [].
Proof.
  intros [Hnd _]. split; [|by intros ->]. destruct l1 as [|x l1]; [done|].
  rewrite lasto_cons. pose proof (lasto_elem x l1) as Hin. intros E. rewrite E in Hin.
  apply NoDup_cons in Hnd as [Hnd _]. set_solver.
Qed.

Lemma wp_list_for_each_nodes h hd l (Q : list Z -> lheap -> Prop) :
  dlist h hd l -> Q l h -> wp (list_for_each_nodes hd) Q h.
Proof.
  intros Hd HQ. unfold list_for_each_nodes. wp_simpl.
  eapply wp_rd_next; [by eapply dlist_first|].
  apply (wp_loop _ (fun '(pos, seen) s => s = h /\ exists l2,
           l = rev seen ++ l2 /\ pos = heado hd l2)
         (fun '(pos, seen) _ => length l - length seen)%nat).
  - intros [pos seen] s (-> & l2 & El & ->). destruct l2 as [|x l2].
    + cbn. rewrite Z.eqb_refl. wp_simpl. by rewrite El, app_nil_r in HQ.
    + rewrite El in Hd. destruct (Z.eqb_spec (heado hd (x :: l2)) hd) as [E|E].
      { apply (dlist_cursor _ _ _ _ Hd) in E. done. }
      wp_simpl. eapply wp_rd_next; [apply (dlist_links _ _ _ _ _ Hd)|]. wp_simpl.
      split; [split; [done|]|].
      * exists l2. cbn [rev]. by rewrite <- app_assoc.
      * rewrite El, length_app, length_rev. cbn. lia.
  - split; [done|]. exists l. done.
  - pose proof (dlist_length _ _ _ Hd). unfold walk_fuel. cbn. lia.
Qed.

(** *** Families of rings

    The abstract state that the other components see: a map from list heads
    to the sequences of nodes behind them. *)
Record lists (h : lheap) (f : gmap Z (list Z)) : Prop := {
  lists_ring : forall hd l, f !! hd = Some l -> dlist h hd l;
  lists_disj : forall hd1 l1 hd2 l2 a,
    f !! hd1 = Some l1 -> f !! hd2 = Some l2 ->
    a ∈ hd1 :: l1 -> a ∈ hd2 :: l2 -> hd1 = hd2
}.

(** An allocated node that is in none of the rings. *)
Definition loose (h : lheap) (f : gmap Z (list Z)) (a : Z) : Prop :=
  node h a /\ forall hd l, f !! hd = Some l -> a ∉ hd :: l.

Lemma lists_update h h' f hd l l' X :
  lists h f -> f !! hd = Some l -> dlist h' hd l' -> same_out X h h' ->
  (forall a, a ∈ X -> a ∈ hd :: l \/ loose h f a) ->
  (forall a, a ∈ l' -> a ∈ l \/ loose h f a) ->
  lists h' (<[hd := l']> f).
Proof.
  intros [Hr Hd] Hf Hnew Hs HX Hl'. split.
  - intros hd2 l2. rewrite lookup_insert. case_decide as E.
    + intros [= <-]. by subst.
    + intros H2. eapply dlist_frame; [exact Hs| |by apply Hr].
      intros a Ha Hin. destruct (HX a Ha) as [H1|[_ H1]].
      * apply E. by eapply Hd.
      * by apply (H1 hd2 l2).
  - assert (Hkey : forall hd2 l2 a, hd ≠ hd2 -> f !! hd2 = Some l2 ->
        a ∈ hd :: l' -> a ∉ hd2 :: l2).
    { intros hd2 l2 a E H2 [->|Ha]%elem_of_cons Hin.
      - apply E. apply (Hd hd l hd2 l2 hd); [done|done|set_solver|done].
      - destruct (Hl' a Ha) as [H1|[_ H1]]; [|by apply (H1 hd2 l2)].
        apply E. apply (Hd hd l hd2 l2 a); [done|done|set_solver|done]. }
    intros hd1 l1 hd2 l2 a. rewrite !lookup_insert. repeat case_decide; subst.
    + done.
    + intros [= <-] H2 Ha1 Ha2. exfalso. by eapply Hkey.
    + intros H1 [= <-] Ha1 Ha2. exfalso. by eapply (Hkey hd1).
    + apply Hd.
Qed.

Lemma lists_new_ring h h' f hd :
  lists h f -> loose h f hd -> dlist h' hd [] -> same_out [hd] h h' ->
  lists h' (<[hd := []]> f).
Proof.
  intros [Hr Hd] [_ Hl] Hnew Hs. split.
  - intros hd2 l2. rewrite lookup_insert. case_decide as E; [by intros [= <-]; subst|].
    intros H2. eapply dlist_frame; [exact Hs| |by apply Hr].
    intros a ->%list_elem_of_singleton. by apply Hl.
  - intros hd1 l1 hd2 l2 a. rewrite !lookup_insert. repeat case_decide; subst; [done| | |apply Hd].
    + intros [= <-] H2 ->%list_elem_of_singleton Ha2. by destruct (Hl hd2 l2 H2).
    + intros H1 [= <-] Ha1 ->%list_elem_of_singleton. by destruct (Hl hd1 l1 H1).
Qed.

Lemma lists_neq h f hd1 l1 hd2 l2 :
  lists h f -> f !! hd1 = Some l1 -> f !! hd2 = Some l2 -> hd1 ≠ hd2 ->
  forall a, a ∈ hd1 :: l1 -> a ∉ hd2 :: l2.
Proof. intros Hl H1 H2 Hne a Ha1 Ha2. by eapply Hne, lists_disj. Qed.

(** What the clients use: an operation takes the family to the family with
    one sequence changed, and touches only nodes of that ring and the node
    given to it. *)
Section Family.
Context (h : lheap) (f : gmap Z (list Z)) (Hf : lists h f).
Implicit Types (hd new x : Z) (Q : unit -> lheap -> Prop).

Lemma fam_INIT_LIST_HEAD hd Q :
  loose h f hd ->
  (forall h', lists h' (<[hd := []]> f) -> same_out [hd] h h' -> Q tt h') ->
  wp (INIT_LIST_HEAD hd) Q h.
Proof.
  intros Hl HQ. apply wp_INIT_LIST_HEAD; [apply Hl|]. intros h' H1 H2.
  apply HQ; [by eapply lists_new_ring|done].
Qed.

Lemma fam_list_add hd l new Q :
  f !! hd = Some l -> loose h f new ->
  (forall h', lists h' (<[hd := new :: l]> f) -> same_out (new :: hd :: l) h h' -> Q tt h') ->
  wp (list_add new hd) Q h.
Proof.
  intros Hl Hn HQ. eapply wp_list_add; [by eapply lists_ring|by apply Hn|apply Hn|].
  intros h' H1 H2. apply HQ; [|done].
  eapply lists_update; [done|done|done|exact H2| |]; set_solver.
Qed.

Lemma fam_list_add_tail hd l new Q :
  f !! hd = Some l -> loose h f new ->
  (forall h', lists h' (<[hd := l ++ [new]]> f) -> same_out (new :: hd :: l) h h' -> Q tt h') ->
  wp (list_add_tail new hd) Q h.
Proof.
  intros Hl Hn HQ. eapply wp_list_add_tail; [by eapply lists_ring|by apply Hn|apply Hn|].
  intros h' H1 H2. apply HQ; [|done].
  eapply lists_update; [done|done|done|exact H2| |]; set_solver.
Qed.

Lemma fam_list_add_after hd l1 x l2 new Q :
  f !! hd = Some (l1 ++ x :: l2) -> loose h f new ->
  (forall h', lists h' (<[hd := l1 ++ x :: new :: l2]> f) ->
     same_out (new :: hd :: l1 ++ x :: l2) h h' -> Q tt h') ->
  wp (list_add new x) Q h.
Proof.
  intros Hl Hn HQ. eapply wp_list_add_after; [by eapply lists_ring|by apply Hn|apply Hn|].
  intros h' H1 H2. apply HQ; [|done].
  eapply lists_update; [done|done|done|exact H2| |]; set_solver.
Qed.

Lemma fam_list_add_before hd l1 x l2 new Q :
  f !! hd = Some (l1 ++ x :: l2) -> loose h f new ->
  (forall h', lists h' (<[hd := l1 ++ new :: x :: l2]> f) ->
     same_out (new :: hd :: l1 ++ x :: l2) h h' -> Q tt h') ->
  wp (list_add_tail new x) Q h.
Proof.
  intros Hl Hn HQ. eapply wp_list_add_before; [by eapply lists_ring|by apply Hn|apply Hn|].
  intros h' H1 H2. apply HQ; [|done].
  eapply lists_update; [done|done|done|exact H2| |]; set_solver.
Qed.

Lemma loose_removed h' hd l1 x l2 :
  f !! hd = Some (l1 ++ x :: l2) -> node h' x -> loose h' (<[hd := l1 ++ l2]> f) x.
Proof.
  intros Hl Hn. split; [done|]. intros hd2 l'. rewrite lookup_insert.
  pose proof (proj1 (lists_ring _ _ Hf _ _ Hl)) as Hnd. apply NoDup_insert_mid in Hnd.
  case_decide as E; [intros [= <-]; subst; apply Hnd|]. intros H2.
  eapply lists_neq; [exact Hf|exact Hl|exact H2|done|set_solver].
Qed.

Lemma fam_list_del hd l1 x l2 Q :
  f !! hd = Some (l1 ++ x :: l2) ->
  (forall h', lists h' (<[hd := l1 ++ l2]> f) -> loose h' (<[hd := l1 ++ l2]> f) x ->
     nx h' !! x = Some 0 -> pv h' !! x = Some 0 ->
     same_out (hd :: l1 ++ x :: l2) h h' -> Q tt h') ->
  wp (list_del x) Q h.
Proof.
  intros Hl HQ. eapply wp_list_del; [by eapply lists_ring|].
  intros h' H1 H2 H3 H4. apply HQ; [| |done|done|done].
  - eapply lists_update; [done|done|done|exact H4| |]; set_solver.
  - eapply loose_removed; [done|]. split; eauto.
Qed.

Lemma fam_list_del_init hd l1 x l2 Q :
  f !! hd = Some (l1 ++ x :: l2) ->
  (forall h', lists h' (<[hd := l1 ++ l2]> f) -> loose h' (<[hd := l1 ++ l2]> f) x ->
     same_out (hd :: l1 ++ x :: l2) h h' -> Q tt h') ->
  wp (list_del_init x) Q h.
Proof.
  intros Hl HQ. eapply wp_list_del_init; [by eapply lists_ring|].
  intros h' H1 H2 H3. apply HQ; [| |done].
  - eapply lists_update; [done|done|done|exact H3| |]; set_solver.
  - eapply loose_removed; [done|]. eapply dlist_node; [exact H2|set_solver].
Qed.

Lemma fam_list_empty hd l (Q : bool -> lheap -> Prop) :
  f !! hd = Some l -> Q (bool_decide (l = [])) h -> wp (list_empty hd) Q h.
Proof. intros Hl HQ. eapply wp_list_empty; [by eapply lists_ring|done]. Qed.

End Family.

(** A node stays loose when the operation worked on another node. *)
Lemma loose_other h h' f hd l' X a :
  loose h f a -> same_out X h h' -> a ≠ hd -> a ∉ l' ->
  loose h' (<[hd := l']> f) a.
Proof.
  intros [Hn Hl] Hs Hhd Hin. split; [by apply (same_out_node _ _ _ a Hs)|].
  intros hd2 l2. rewrite lookup_insert. case_decide; [intros [= <-]; set_solver|apply Hl].
Qed.

Lemma loose_not_in h f w ws hd : loose h f w -> f !! hd = Some ws -> w <> hd /\ w ∉ ws.
Proof. intros [_ H] Hf. specialize (H _ _ Hf). set_solver. Qed.

(** Stores to nodes outside every ring do not concern the family. *)
Lemma lists_same_out h h' f X :
  lists h f -> same_out X h h' -> (forall a, a ∈ X -> loose h f a) -> lists h' f.
Proof.
  intros [Hr Hd] Hs HX. split; [|done]. intros hd l Hl.
  eapply dlist_frame; [exact Hs| |by apply Hr]. intros a Ha. by apply (proj2 (HX a Ha) hd l).
Qed.

Lemma loose_same_out h h' f X a : loose h f a -> same_out X h h' -> loose h' f a.
Proof. intros [Hn Hl] Hs. split; [by apply (same_out_node _ _ _ a Hs)|done]. Qed.

(** *** A decision procedure for concrete heaps *)

Fixpoint path_b (h : lheap) (c : list Z) : bool :=
  match c with
  | x :: t => match t with
              | y :: _ => bool_decide (nx h !! x = Some y) && bool_decide (pv h !! y = Some x)
                          && path_b h t
              | [] => true
              end
  | [] => true
  end.

Lemma path_b_sound h c : path_b h c = true -> path h c.
Proof.
  induction c as [|x [|y c] IH]; [done|done|]. cbn [path path_b].
  rewrite !andb_true_iff, !bool_decide_eq_true. intros [[H1 H2] H3].
  split; [done|]. by apply IH.
Qed.

Definition lists_b (h : lheap) (fl : list (Z * list Z)) : bool :=
  bool_decide (NoDup (flat_map (fun p => p.1 :: p.2) fl)) &&
  forallb (fun p => path_b h (p.1 :: p.2 ++ [p.1])) fl.

Lemma flat_nodup_elem (fl : list (Z * list Z)) hd l :
  NoDup (flat_map (fun p => p.1 :: p.2) fl) -> (hd, l) ∈ fl -> NoDup (hd :: l).
Proof.
  induction fl as [|[hd0 l0] fl IH]; cbn [flat_map fst snd]; [set_solver|].
  intros (H1 & _ & H2)%NoDup_app [[= -> ->]|Hin]%elem_of_cons; [done|auto].
Qed.

Lemma flat_nodup_uniq (fl : list (Z * list Z)) hd1 l1 hd2 l2 a :
  NoDup (flat_map (fun p => p.1 :: p.2) fl) ->
  (hd1, l1) ∈ fl -> (hd2, l2) ∈ fl -> a ∈ hd1 :: l1 -> a ∈ hd2 :: l2 -> hd1 = hd2.
Proof.
  assert (Hflat : forall fl hd l a, (hd, l) ∈ fl -> a ∈ hd :: l ->
            a ∈ flat_map (fun p : Z * list Z => p.1 :: p.2) fl).
  { clear. induction fl as [|[hd0 l0] fl IH]; intros hd l a; cbn [flat_map fst snd]; [set_solver|].
    intros [[= -> ->]|Hin]%elem_of_cons Ha; apply elem_of_app; [by left|right; eauto]. }
  induction fl as [|[hd0 l0] fl IH]; cbn [flat_map fst snd]; [set_solver|].
  intros (H1 & Hd & H2)%NoDup_app [[= -> ->]|Hin1]%elem_of_cons [[= -> ->]|Hin2]%elem_of_cons Ha1 Ha2.
  - done.
  - exfalso. eapply Hd; [exact Ha1|]. by eapply Hflat.
  - exfalso. eapply Hd; [exact Ha2|]. by eapply Hflat.
  - by apply IH.
Qed.

Lemma lists_b_sound h fl : lists_b h fl = true -> lists h (list_to_map fl).
Proof.
  unfold lists_b. rewrite andb_true_iff, bool_decide_eq_true, forallb_forall.
  intros [Hnd Hall].
  assert (Hin : forall hd l, (list_to_map fl : gmap Z (list Z)) !! hd = Some l -> (hd, l) ∈ fl)
    by (intros hd l; apply elem_of_list_to_map_2).
  split.
  - intros hd l Hl%Hin. split; [by eapply flat_nodup_elem|].
    apply path_b_sound. apply (Hall (hd, l)). by apply list_elem_of_In.
  - intros hd1 l1 hd2 l2 a H1%Hin H2%Hin. by eapply flat_nodup_uniq.
Qed.
