(* ===== verification/KListMulti.v ===== *)
(** * list.h, continued: routines that relink several nodes or two rings

    Replacement, splicing and cutting of rings; same heap and predicates as
    [KList]. *)

From S2P Require Import Prelude KList.

(** *** Replacement, splicing and cutting *)

(** The stores of a routine that relinks one gap leave the two sides of the
    gap as they were. *)
Lemma path_sides h h' hd l1 l2 :
  NoDup (hd :: l1 ++ l2) ->
  (forall a, a ∈ hd :: l1 ++ l2 -> a ≠ lasto hd l1 -> nx h' !! a = nx h !! a) ->
  (forall a, a ∈ hd :: l1 ++ l2 -> a ≠ heado hd l2 -> pv h' !! a = pv h !! a) ->
  path h (hd :: l1) -> path h (l2 ++ [hd]) ->
  path h' (hd :: l1) /\ path h' (l2 ++ [hd]).
Proof.
  intros Hnd Hn Hp P1 P2.
  destruct (gap_ends hd l1 l2 Hnd) as (Hpl & Hnl & Hnd1 & Hnd2 & _ & _).
  split.
  - eapply path_prefix_frame; [| |done|exact P1].
    + intros a Ha. apply Hn. set_solver.
    + intros a Ha. apply Hp; [set_solver|]. intros ->. done.
  - eapply path_suffix_frame; [| |done|exact P2].
    + intros a Ha. apply Hn; [set_solver|]. intros ->. done.
    + intros a Ha. apply Hp. set_solver.
Qed.

Lemma wp_list_replace h hd l1 old l2 new (Q : unit -> lheap -> Prop) :
  dlist h hd (l1 ++ old :: l2) -> new ∉ hd :: l1 ++ old :: l2 -> node h new ->
  (forall h', dlist h' hd (l1 ++ new :: l2) ->
     same_out (new :: hd :: l1 ++ l2) h h' -> Q tt h') ->
  wp (list_replace old new) Q h.
Proof.
  intros Hd Hnew [Hnn Hnp] HQ.
  destruct (proj1 (NoDup_insert_mid _ _ _ _) (proj1 Hd)) as [Hold Hnd].
  destruct (dlist_links _ _ _ _ _ Hd) as [Hon Hop].
  destruct (gap_ends hd l1 l2 Hnd) as (Hp & Hn & _ & _ & Hpin & Hnin).
  assert (Hsub : forall a, a ∈ hd :: l1 ++ l2 -> a ∈ hd :: l1 ++ old :: l2) by set_solver.
  pose proof (dlist_nx _ _ _ _ Hd (Hsub _ Hpin)) as Hpx.
  pose proof (dlist_pv _ _ _ _ Hd (Hsub _ Hnin)) as Hnv.
  assert (Hnew' : new ∉ hd :: l1 ++ l2) by (intros Hin; apply Hnew, Hsub, Hin).
  assert (Hno : new ≠ old) by (intros ->; apply Hnew; set_solver).
  set (p := lasto hd l1) in *. set (n := heado hd l2) in *.
  unfold list_replace. wp_simpl.
  eapply wp_rd_next; [exact Hon|]. wp_simpl. apply wp_wr_next; [done|]. wp_simpl.
  eapply wp_rd_next; [cbn; link_lookup; done|]. wp_simpl. apply wp_wr_prev; [done|]. wp_simpl.
  eapply wp_rd_prev; [cbn; link_lookup; exact Hop|]. wp_simpl.
  apply wp_wr_prev; cbn; [auto with yak|]. wp_simpl.
  eapply wp_rd_prev; [cbn; link_lookup; done|]. apply wp_wr_next; cbn; [auto with yak|].
  apply HQ.
  - split; [by apply NoDup_insert_mid|].
    destruct Hd as [_ Hpath]. apply path_cons_snoc in Hpath as (P1 & _ & P2).
    cbn [app] in P2. apply path_head in P2 as [_ P2].
    eapply path_sides in P1 as [P1' P2']; [| exact Hnd | | |exact P2].
    + apply path_cons_snoc. split_and!; [exact P1'| |].
      * fold p. cbn [heado head default]. split; cbn; link_lookup; done.
      * cbn [app]. apply path_head. split; [|exact P2'].
        fold n. split; cbn; link_lookup; done.
    + cbn. intros a Ha Hap. fold p in Hap. link_lookup. done.
    + cbn. intros a Ha Han. fold n in Han. link_lookup. done.
  - split; cbn; intros a.
    + intros Ha. link_lookup. done.
    + intros Ha. link_lookup. done.
    + rewrite !is_Some_insert_iff; auto with yak.
    + rewrite !is_Some_insert_iff; auto with yak.
Qed.

Lemma wp_list_replace_init h hd l1 old l2 new (Q : unit -> lheap -> Prop) :
  dlist h hd (l1 ++ old :: l2) -> new ∉ hd :: l1 ++ old :: l2 -> node h new ->
  (forall h', dlist h' hd (l1 ++ new :: l2) -> dlist h' old [] ->
     same_out (new :: hd :: l1 ++ old :: l2) h h' -> Q tt h') ->
  wp (list_replace_init old new) Q h.
Proof.
  intros Hd Hnew Hn HQ. unfold list_replace_init. wp_simpl.
  destruct (proj1 (NoDup_insert_mid _ _ _ _) (proj1 Hd)) as [Hold Hnd].
  eapply wp_list_replace; [exact Hd|done|done|]. intros h1 Hd1 Hs1.
  eapply wp_INIT_LIST_HEAD.
  { apply (same_out_node _ _ _ old Hs1). eapply dlist_node; [exact Hd|set_solver]. }
  intros h2 Hd2 Hs2. apply HQ; [|done|].
  - eapply dlist_frame; [exact Hs2| |exact Hd1]. intros a ->%list_elem_of_singleton. set_solver.
  - eapply same_out_trans; (eapply same_out_weaken; [|eassumption]); set_solver.
Qed.

(** The nodes of one ring inserted in a gap of another. *)
Lemma wp___list_splice h hd l1 l2 list l (Q : unit -> lheap -> Prop) :
  dlist h hd (l1 ++ l2) -> dlist h list l -> l ≠ [] ->
  (forall a, a ∈ list :: l -> a ∉ hd :: l1 ++ l2) ->
  (forall h', dlist h' hd (l1 ++ l ++ l2) -> node h' list ->
     same_out (hd :: l1 ++ l ++ l2) h h' -> Q tt h') ->
  wp (__list_splice list (lasto hd l1) (heado hd l2)) Q h.
Proof.
  intros Hd Hl Hne Hdisj HQ. destruct l as [|f l]; [done|]. clear Hne.
  destruct (gap_ends hd l1 l2 (proj1 Hd)) as (Hp & Hn & _ & _ & Hpin & Hnin).
  assert (HlastL : lasto f l ∈ list :: f :: l) by (pose proof (lasto_elem f l); set_solver).
  assert (HfirstL : f ∈ list :: f :: l) by set_solver.
  pose proof (dlist_nx _ _ _ _ Hd Hpin) as Hpx. pose proof (dlist_pv _ _ _ _ Hd Hnin) as Hnv.
  pose proof (dlist_nx _ _ _ _ Hl HlastL) as Hlx. pose proof (dlist_pv _ _ _ _ Hl HfirstL) as Hfv.
  pose proof (Hdisj _ HlastL) as HlastD. pose proof (Hdisj _ HfirstL) as HfirstD.
  pose proof (dlist_last _ _ _ Hl) as HlL. rewrite lasto_cons in HlL.
  set (p := lasto hd l1) in *. set (n := heado hd l2) in *. set (e := lasto f l) in *.
  unfold __list_splice. wp_simpl.
  eapply wp_rd_next; [by eapply dlist_first|]. wp_simpl.
  change (heado list (f :: l)) with f. eapply wp_rd_prev; [exact HlL|]. wp_simpl.
  apply wp_wr_prev; [done|]. wp_simpl. apply wp_wr_next; cbn; [done|]. wp_simpl.
  apply wp_wr_next; cbn; [auto with yak|]. apply wp_wr_prev; cbn; [auto with yak|].
  assert (Hep : e ≠ p) by (intros E; rewrite E in HlastD; done).
  assert (Hfn : f ≠ n) by (intros E; rewrite E in HfirstD; done).
  assert (Hfl : NoDup (f :: l)) by (destruct Hl as [Hl _]; by apply NoDup_cons in Hl as [_ Hl]).
  assert (HLD : forall a, a ∈ f :: l -> a ∉ hd :: l1 ++ l2) by (intros a Ha; apply Hdisj; set_solver).
  apply HQ.
  - split.
    + rewrite app_assoc, (Permutation_app_comm l1), <- app_assoc, app_comm_cons.
      destruct Hd as [Hnd _].
      rewrite (Permutation_middle (f :: l) (l1 ++ l2) hd). apply NoDup_app. done.
    + destruct Hd as [Hnd Hpath]. apply path_cons_snoc in Hpath as (P1 & _ & P2).
      destruct Hl as [_ HpathL]. rewrite <- (app_nil_r (f :: l)) in HpathL.
      apply path_cons_snoc in HpathL as (PL & _ & _). apply (path_app h list [] f l) in PL as (_ & _ & PL).
      match goal with |- path ?h' _ =>
        destruct (path_sides h h' hd l1 l2 Hnd) as [P1' P2']; [| |done|done|] end.
      * cbn. intros a Ha Hap. fold p in Hap.
        rewrite lookup_insert_ne by (intros <-; done). rewrite lookup_insert_ne by done. done.
      * cbn. intros a Ha Han. fold n in Han. rewrite lookup_insert_ne by done.
        rewrite lookup_insert_ne by (intros <-; done). done.
      * apply path_cons_snoc. split_and!; [exact P1'| |].
        -- fold p. cbn [heado head default app]. split; cbn; link_lookup; done.
        -- rewrite <- app_assoc. cbn [app].
           assert (PL' : path (mk_lheap (<[e:=n]> (<[p:=f]> (nx h)))
                           (<[n:=e]> (<[f:=p]> (pv h)))) (f :: l)).
           { eapply path_prefix_frame; [| |done|exact PL]; cbn.
             - intros a Ha Hae. fold e in Hae.
               assert (a ≠ p) by (intros ->; by apply (HLD p Ha)). link_lookup. done.
             - intros a Ha. apply NoDup_cons in Hfl as [Hfl _].
               assert (a ≠ n) by (intros ->; apply (HLD n); [set_solver|done]).
               assert (a ≠ f) by (intros ->; done). link_lookup. done. }
           destruct l2 as [|y l2]; cbn [app] in P2' |- *; apply path_app;
             (split_and!; [exact PL'| |exact P2']);
             fold e; (split; cbn; link_lookup; done).
  - assert (node h list) as [? ?] by (eapply dlist_node; [exact Hl|set_solver]).
    split; cbn; auto with yak.
  - assert (e ∈ f :: l) by apply lasto_elem.
    split; cbn; intros a.
    + intros Ha. link_lookup. done.
    + intros Ha. link_lookup. done.
    + rewrite !is_Some_insert_iff; auto with yak.
    + rewrite !is_Some_insert_iff; auto with yak.
Qed.

Section TwoRings.
Context (h : lheap) (hd list : Z) (m l : Datatypes.list Z).
Context (Hhd : dlist h hd m) (Hl : dlist h list l).
Context (Hdisj : forall a, a ∈ list :: l -> a ∉ hd :: m).
Implicit Types (Q : unit -> lheap -> Prop).

Lemma same_out_nodes_weaken h' :
  same_out (hd :: m) h h' -> same_out (hd :: l ++ m) h h'.
Proof. apply same_out_weaken. set_solver. Qed.

Lemma wp_list_splice Q :
  (forall h', dlist h' hd (l ++ m) -> node h' list ->
     same_out (hd :: l ++ m) h h' -> Q tt h') ->
  wp (list_splice list hd) Q h.
Proof.
  intros HQ. unfold list_splice. wp_simpl.
  eapply wp_list_empty; [exact Hl|]. case_bool_decide as E; cbn [negb].
  - subst l. apply HQ; [done| |apply same_out_refl].
    eapply dlist_node; [exact Hl|set_solver].
  - wp_simpl. eapply wp_rd_next; [by eapply dlist_first|].
    by apply (wp___list_splice h hd [] m list l).
Qed.

Lemma wp_list_splice_tail Q :
  (forall h', dlist h' hd (m ++ l) -> node h' list ->
     same_out (hd :: m ++ l) h h' -> Q tt h') ->
  wp (list_splice_tail list hd) Q h.
Proof.
  intros HQ. unfold list_splice_tail. wp_simpl.
  eapply wp_list_empty; [exact Hl|]. case_bool_decide as E; cbn [negb].
  - subst l. rewrite app_nil_r in HQ. apply HQ; [done| |apply same_out_refl].
    eapply dlist_node; [exact Hl|set_solver].
  - wp_simpl. eapply wp_rd_prev; [by eapply dlist_last|].
    apply (wp___list_splice h hd m [] list l); rewrite ?app_nil_r; done.
Qed.

(** The [_init] variants leave the source as an empty ring. *)
Lemma wp_splice_then_init Q (r : Datatypes.list Z) h1 :
  dlist h1 hd r -> node h1 list -> list ∉ hd :: r ->
  same_out (hd :: r) h h1 ->
  (forall h', dlist h' hd r -> dlist h' list [] ->
     same_out (list :: hd :: r) h h' -> Q tt h') ->
  wp (INIT_LIST_HEAD list) Q h1.
Proof.
  intros H1 Hn Hnin Hs HQ. eapply wp_INIT_LIST_HEAD; [done|]. intros h2 H2 Hs2.
  apply HQ; [|done|].
  - eapply dlist_frame; [exact Hs2| |exact H1]. intros a ->%list_elem_of_singleton. done.
  - eapply same_out_trans; (eapply same_out_weaken; [|eassumption]); set_solver.
Qed.

Lemma list_not_in_both : list ∉ hd :: l ++ m /\ list ∉ hd :: m ++ l.
Proof.
  pose proof (Hdisj list) as H. destruct Hl as [Hnd _].
  apply NoDup_cons in Hnd as [Hnd _]. set_solver.
Qed.

Lemma wp_list_splice_init Q :
  (forall h', dlist h' hd (l ++ m) -> dlist h' list [] ->
     same_out (list :: hd :: l ++ m) h h' -> Q tt h') ->
  wp (list_splice_init list hd) Q h.
Proof.
  intros HQ. unfold list_splice_init. wp_simpl.
  eapply wp_list_empty; [exact Hl|]. case_bool_decide as E; cbn [negb].
  - subst l. apply HQ; [done|done|apply same_out_refl].
  - wp_simpl. eapply wp_rd_next; [by eapply dlist_first|].
    apply (wp___list_splice h hd [] m list l); [done|done|done|done|].
    intros h1 H1 Hn Hs. eapply wp_splice_then_init; eauto. apply list_not_in_both.
Qed.

Lemma wp_list_splice_tail_init Q :
  (forall h', dlist h' hd (m ++ l) -> dlist h' list [] ->
     same_out (list :: hd :: m ++ l) h h' -> Q tt h') ->
  wp (list_splice_tail_init list hd) Q h.
Proof.
  intros HQ. unfold list_splice_tail_init. wp_simpl.
  eapply wp_list_empty; [exact Hl|]. case_bool_decide as E; cbn [negb].
  - subst l. rewrite app_nil_r in HQ. apply HQ; [done|done|apply same_out_refl].
  - wp_simpl. eapply wp_rd_prev; [by eapply dlist_last|].
    apply (wp___list_splice h hd m [] list l); rewrite ?app_nil_r; [done|done|done|done|].
    intros h1 H1 Hn Hs. eapply wp_splice_then_init; eauto. apply list_not_in_both.
Qed.

End TwoRings.

Lemma path_tail h x c : path h (x :: c) -> path h c.
Proof. destruct c; [done|]. cbn [path]. tauto. Qed.

(** The nodes on the two sides of a cut. *)
Record cut_facts (hd : Z) (l1 : Datatypes.list Z) (e : Z) (l2 : Datatypes.list Z)
    (list : Z) : Prop := {
  cf_left : NoDup (list :: l1 ++ [e]);
  cf_right : NoDup (hd :: l2);
  cf_sep : forall a b, a ∈ list :: l1 ++ [e] -> b ∈ hd :: l2 -> a ≠ b
}.

Lemma cut_facts_intro hd l1 e l2 list :
  NoDup (hd :: l1 ++ e :: l2) -> list ∉ hd :: l1 ++ e :: l2 -> cut_facts hd l1 e l2 list.
Proof.
  intros Hnd Hnin. replace (l1 ++ e :: l2) with ((l1 ++ [e]) ++ l2) in Hnd, Hnin
    by (rewrite <- app_assoc; done).
  apply NoDup_cons in Hnd as [Hhd Hnd]. apply NoDup_app in Hnd as (Hnd1 & Hdj & Hnd2).
  apply not_elem_of_cons in Hnin as [Hlh Hnin]. apply not_elem_of_app in Hnin as [Hnin1 Hnin2].
  apply not_elem_of_app in Hhd as [Hhd1 Hhd2].
  split; [by apply NoDup_cons|by apply NoDup_cons|].
  intros a b [->|Ha]%elem_of_cons [->|Hb]%elem_of_cons; [done| | |].
  - intros ->. done.
  - intros ->. done.
  - intros ->. by apply (Hdj b).
Qed.

Lemma path_snoc h c e x :
  path h ((c ++ [e]) ++ [x]) <-> path h (c ++ [e]) /\ link h e x.
Proof.
  destruct c as [|y c]; cbn [app].
  - cbn [path]. tauto.
  - rewrite path_app, lasto_snoc. cbn [path]. tauto.
Qed.

(** The heap after a cut: [f] is the first node of the left part, [n] the
    successor of the cut. *)
Definition cut_heap (h : lheap) (list hd e f n : Z) : lheap :=
  mk_lheap (<[hd:=n]> (<[e:=list]> (<[list:=f]> (nx h))))
           (<[n:=hd]> (<[list:=e]> (<[f:=list]> (pv h)))).

Section CutHeap.
Context (h : lheap) (hd : Z) (l1 : Datatypes.list Z) (e : Z) (l2 : Datatypes.list Z) (list : Z).
Context (Hcf : cut_facts hd l1 e l2 list).
Let f := heado e l1.
Let n := heado hd l2.
Let h' := cut_heap h list hd e f n.

Lemma cut_f_in : f ∈ list :: l1 ++ [e].
Proof. unfold f. destruct l1; cbn; set_solver. Qed.

Lemma cut_heap_left : path h (l1 ++ [e]) -> dlist h' list (l1 ++ [e]).
Proof.
  intros P. destruct Hcf as [HL HR Hsep]. pose proof cut_f_in as Hf.
  assert (He : e ∈ list :: l1 ++ [e]) by set_solver.
  assert (Hl : list ∈ list :: l1 ++ [e]) by set_solver.
  assert (Hn : n ∈ hd :: l2) by apply heado_elem.
  assert (Hhd : hd ∈ hd :: l2) by set_solver.
  pose proof (Hsep _ _ Hf Hn). pose proof (Hsep _ _ Hl Hn). pose proof (Hsep _ _ Hl Hhd).
  pose proof (Hsep _ _ He Hhd).
  pose proof HL as HL2. apply NoDup_cons in HL2 as [Hnin HL2].
  assert (list ≠ e) by (intros E; rewrite E in Hnin; set_solver).
  assert (list ≠ f) by (intros E; unfold f in E; destruct l1; cbn in E; set_solver).
  split; [done|]. apply path_head. split.
  { replace (heado list (l1 ++ [e])) with f by (unfold f; by destruct l1).
    split; cbn; rewrite !lookup_insert; repeat case_decide; congruence. }
  apply path_snoc. split.
  - apply (path_suffix_frame h); [| | |exact P]; cbn.
    + intros a Ha. assert (Hain : a ∈ list :: l1 ++ [e]) by set_solver.
      pose proof (Hsep _ _ Hain Hhd).
      apply NoDup_app in HL2 as (_ & Hd2 & _). pose proof (Hd2 a Ha).
      rewrite !lookup_insert; repeat case_decide; set_solver.
    + intros a Ha Haf. fold f in Haf. assert (Hain : a ∈ list :: l1 ++ [e]) by set_solver.
      pose proof (Hsep _ _ Hain Hn).
      rewrite !lookup_insert; repeat case_decide; set_solver.
    + by rewrite Permutation_cons_append.
  - split; cbn; rewrite !lookup_insert; repeat case_decide; congruence.
Qed.

Lemma cut_heap_right : path h (l2 ++ [hd]) -> dlist h' hd l2.
Proof.
  intros P. destruct Hcf as [HL HR Hsep]. pose proof cut_f_in as Hf.
  assert (He : e ∈ list :: l1 ++ [e]) by set_solver.
  assert (Hl : list ∈ list :: l1 ++ [e]) by set_solver.
  split; [done|]. apply path_head. split.
  { fold n. split; cbn; by rewrite lookup_insert_eq. }
  apply (path_suffix_frame h); [| |done|exact P]; cbn.
  - intros a Ha. apply NoDup_cons in HR as [Hnin HR].
    assert (Hain : a ∈ hd :: l2) by set_solver.
    pose proof (Hsep _ _ He Hain). pose proof (Hsep _ _ Hl Hain).
    assert (hd ≠ a) by (intros ->; done).
    rewrite !lookup_insert_ne by congruence. done.
  - intros a Ha Han. fold n in Han. pose proof (Hsep _ _ Hf Ha). pose proof (Hsep _ _ Hl Ha).
    rewrite !lookup_insert_ne by congruence. done.
Qed.
End CutHeap.

(** [list_cut_position] splits a ring after [entry]. *)
Lemma wp___list_cut_position h hd l1 e l2 list (Q : unit -> lheap -> Prop) :
  dlist h hd (l1 ++ e :: l2) -> node h list -> list ∉ hd :: l1 ++ e :: l2 ->
  (forall h', dlist h' list (l1 ++ [e]) -> dlist h' hd l2 -> Q tt h') ->
  wp (__list_cut_position list hd e) Q h.
Proof.
  intros Hd [Hln Hlp] Hnin HQ.
  pose proof (cut_facts_intro _ _ _ _ _ (proj1 Hd) Hnin) as Hcf.
  destruct (dlist_links _ _ _ _ _ Hd) as [Hen _]. pose proof (dlist_first _ _ _ Hd) as Hfirst.
  replace (heado hd (l1 ++ e :: l2)) with (heado e l1) in Hfirst by (by destruct l1).
  assert (Hfv : is_Some (pv h !! heado e l1)).
  { eapply dlist_pv; [exact Hd|]. destruct l1; cbn; set_solver. }
  assert (Hnv : is_Some (pv h !! heado hd l2)).
  { eapply dlist_pv; [exact Hd|]. pose proof (heado_elem hd l2). set_solver. }
  unfold __list_cut_position. wp_simpl.
  eapply wp_rd_next; [exact Hen|]. wp_simpl. eapply wp_rd_next; [exact Hfirst|]. wp_simpl.
  apply wp_wr_next; [done|]. wp_simpl.
  eapply wp_rd_next; [cbn; by rewrite lookup_insert_eq|]. wp_simpl.
  apply wp_wr_prev; cbn; [done|]. wp_simpl. apply wp_wr_prev; cbn; [auto with yak|]. wp_simpl.
  apply wp_wr_next; cbn; [eauto with yak|]. wp_simpl.
  apply wp_wr_next; cbn; [eauto with yak|]. apply wp_wr_prev; cbn; [auto with yak|].
  assert (Hpath := proj2 Hd). replace (l1 ++ e :: l2) with ((l1 ++ [e]) ++ l2) in Hpath
    by (rewrite <- app_assoc; done).
  apply path_cons_snoc in Hpath as (P1 & _ & P2). apply path_tail in P1.
  apply HQ; [by apply cut_heap_left|by apply (cut_heap_right h hd l1 e l2 list)].
Qed.

(** The guarded routine: nothing to cut, everything to cut at the head, or the
    cut above. *)
Lemma wp_list_cut_position h hd l1 e l2 list (Q : unit -> lheap -> Prop) :
  dlist h hd (l1 ++ e :: l2) -> node h list -> list ∉ hd :: l1 ++ e :: l2 ->
  (forall h', dlist h' list (l1 ++ [e]) -> dlist h' hd l2 -> Q tt h') ->
  wp (list_cut_position list hd e) Q h.
Proof.
  intros Hd Hn Hnin HQ. unfold list_cut_position. wp_simpl.
  eapply wp_list_empty; [exact Hd|]. rewrite bool_decide_false by (by destruct l1).
  wp_simpl. eapply wp_list_is_singular; [exact Hd|].
  assert (e ≠ hd) by (destruct Hd as [Hnd _]; apply NoDup_cons in Hnd as [Hnd _]; set_solver).
  assert (Hfirst : length (l1 ++ e :: l2) = 1%nat -> nx h !! hd = Some e).
  { intros Hlen. rewrite length_app in Hlen. cbn in Hlen.
    destruct l1; [|cbn in Hlen; lia]. apply (dlist_first _ _ _ Hd). }
  wp_simpl. case_bool_decide as E.
  - wp_simpl. eapply wp_rd_next; [by apply Hfirst|]. wp_simpl.
    rewrite Z.eqb_refl. cbn. destruct (Z.eqb_spec e hd); [done|].
    by eapply wp___list_cut_position.
  - wp_simpl. destruct (Z.eqb_spec e hd); [done|]. by eapply wp___list_cut_position.
Qed.
