(* ===== verification/Bitops.v ===== *)
(** * include/kernel/bitops.h: bit operations on arrays of 32-bit words

    The state is the array of words that [addr] points to.  The scheduler's
    [task_bitmap], a page's [flags] and a work item's [pending] are arrays of
    one word. *)

From S2P Require Import Prelude.

Definition BITS_PER_LONG : Z := 32.
Definition BIT_MASK (nr : Z) : Z := u32 (Z.shiftl 1 (Z.rem nr BITS_PER_LONG)).
Definition BIT_WORD (nr : Z) : Z := Z.quot nr BITS_PER_LONG.

(** [*p] and [*p = w] for [p = (unsigned long * )addr + i]. *)
Definition rd_word (i : Z) : M (list Z) Z :=
  ws <- gets id ;;
  if i <? 0 then fail (BadIndex i) else lift_opt (BadIndex i) (ws !! Z.to_nat i).
Definition wr_word (i w : Z) : M (list Z) unit :=
  rd_word i ;;; modify (fun ws => <[Z.to_nat i := w]> ws).

Definition set_bit (nr : Z) : M (list Z) unit :=
  let mask := BIT_MASK nr in
  w <- rd_word (BIT_WORD nr) ;; wr_word (BIT_WORD nr) (Z.lor w mask).

Definition clear_bit (nr : Z) : M (list Z) unit :=
  let mask := BIT_MASK nr in
  w <- rd_word (BIT_WORD nr) ;; wr_word (BIT_WORD nr) (Z.land w (u32 (Z.lnot mask))).

Definition change_bit (nr : Z) : M (list Z) unit :=
  let mask := BIT_MASK nr in
  w <- rd_word (BIT_WORD nr) ;; wr_word (BIT_WORD nr) (Z.lxor w mask).

Definition test_and_set_bit (nr : Z) : M (list Z) bool :=
  let mask := BIT_MASK nr in
  old <- rd_word (BIT_WORD nr) ;;
  wr_word (BIT_WORD nr) (Z.lor old mask) ;;;
  ret (negb (Z.land old mask =? 0)).

Definition test_and_clear_bit (nr : Z) : M (list Z) bool :=
  let mask := BIT_MASK nr in
  old <- rd_word (BIT_WORD nr) ;;
  wr_word (BIT_WORD nr) (Z.land old (u32 (Z.lnot mask))) ;;;
  ret (negb (Z.land old mask =? 0)).

Definition test_and_change_bit (nr : Z) : M (list Z) bool :=
  let mask := BIT_MASK nr in
  old <- rd_word (BIT_WORD nr) ;;
  wr_word (BIT_WORD nr) (Z.lxor old mask) ;;;
  ret (negb (Z.land old mask =? 0)).

Definition test_bit (nr : Z) : M (list Z) Z :=
  w <- rd_word (BIT_WORD nr) ;;
  ret (Z.land 1 (Z.shiftr w (Z.land nr (BITS_PER_LONG - 1)))).

(** ** The bit that an array holds at a position *)
Definition bit_at (ws : list Z) (i : Z) : bool :=
  match ws !! Z.to_nat (i / 32) with
  | Some w => Z.testbit w (i mod 32)
  | None => false
  end.

Definition words_ok (ws : list Z) : Prop := Forall (fun w => 0 <= w < 2 ^ 32) ws.

(** The positions that an array of words has. *)
Definition in_bits (ws : list Z) (nr : Z) : Prop := 0 <= nr < 32 * Z.of_nat (length ws).

Lemma BIT_WORD_nonneg nr : 0 <= nr -> BIT_WORD nr = nr / 32.
Proof. intros. apply Z.quot_div_nonneg; unfold BITS_PER_LONG; lia. Qed.

Lemma BIT_MASK_pow nr : 0 <= nr -> BIT_MASK nr = 2 ^ (nr mod 32).
Proof.
  intros Hn. unfold BIT_MASK, BITS_PER_LONG. rewrite Z.rem_mod_nonneg by lia.
  pose proof (Z.mod_pos_bound nr 32). rewrite Z.shiftl_mul_pow2, Z.mul_1_l by lia.
  apply u32_small. split; [apply Z.pow_nonneg; lia|].
  apply (Z.lt_le_trans _ (2 ^ 32)); [apply Z.pow_lt_mono_r; lia|lia].
Qed.

Lemma word_index ws nr :
  in_bits ws nr -> exists w, ws !! Z.to_nat (nr / 32) = Some w.
Proof.
  intros [H0 H1]. apply lookup_lt_is_Some. apply Nat2Z.inj_lt.
  rewrite Z2Nat.id by (apply Z.div_pos; lia). apply Z.div_lt_upper_bound; lia.
Qed.

Lemma wp_rd_word ws nr w (Q : Z -> list Z -> Prop) :
  0 <= nr -> ws !! Z.to_nat (nr / 32) = Some w -> Q w ws ->
  wp (rd_word (BIT_WORD nr)) Q ws.
Proof.
  intros Hn Hw HQ. rewrite BIT_WORD_nonneg by done. unfold rd_word. wp_simpl. cbn.
  destruct (Z.ltb_spec (nr / 32) 0); [pose proof (Z.div_pos nr 32); lia|]. by rewrite Hw.
Qed.

Lemma wp_wr_word ws nr w v (Q : unit -> list Z -> Prop) :
  0 <= nr -> ws !! Z.to_nat (nr / 32) = Some w -> Q tt (<[Z.to_nat (nr / 32) := v]> ws) ->
  wp (wr_word (BIT_WORD nr) v) Q ws.
Proof.
  intros Hn Hw HQ. unfold wr_word. wp_simpl. eapply wp_rd_word; [done|done|]. wp_simpl.
  by rewrite BIT_WORD_nonneg.
Qed.

(** Storing a word changes the bits of that word only. *)
Lemma bit_at_insert ws nr w v i :
  0 <= nr -> 0 <= i -> ws !! Z.to_nat (nr / 32) = Some w ->
  bit_at (<[Z.to_nat (nr / 32) := v]> ws) i =
    if i / 32 =? nr / 32 then Z.testbit v (i mod 32) else bit_at ws i.
Proof.
  intros Hn Hi Hw. unfold bit_at. destruct (Z.eqb_spec (i / 32) (nr / 32)) as [->|Hne].
  - rewrite list_lookup_insert_eq by (by eapply lookup_lt_Some). done.
  - rewrite list_lookup_insert_ne; [done|]. pose proof (Z.div_pos nr 32). pose proof (Z.div_pos i 32). lia.
Qed.

Lemma same_pos i nr : (i / 32 = nr / 32 /\ i mod 32 = nr mod 32) <-> i = nr.
Proof.
  split; [|by intros ->]. intros [H1 H2].
  rewrite (Z.div_mod i 32), (Z.div_mod nr 32) by lia. congruence.
Qed.

(** A word operation that works bit by bit with the one-bit mask of [nr] acts
    on the whole array as an update of bit [nr]. *)
Lemma bit_at_update ws nr w v (g : bool -> bool) :
  0 <= nr -> ws !! Z.to_nat (nr / 32) = Some w ->
  (forall j, 0 <= j < 32 -> Z.testbit v j =
     if j =? nr mod 32 then g (Z.testbit w j) else Z.testbit w j) ->
  forall i, 0 <= i -> bit_at (<[Z.to_nat (nr / 32) := v]> ws) i =
    if i =? nr then g (bit_at ws i) else bit_at ws i.
Proof.
  intros Hn Hw Hv i Hi. rewrite (bit_at_insert ws nr w) by done.
  pose proof (Z.mod_pos_bound i 32 ltac:(lia)) as Hm.
  destruct (Z.eqb_spec (i / 32) (nr / 32)) as [E|E].
  - rewrite Hv by done. unfold bit_at. rewrite E, Hw.
    destruct (Z.eqb_spec (i mod 32) (nr mod 32)), (Z.eqb_spec i nr) as [->|]; try done.
    exfalso. by apply n, same_pos.
  - destruct (Z.eqb_spec i nr) as [->|]; done.
Qed.

Lemma testbit_lor_pow w k j :
  0 <= j -> 0 <= k ->
  Z.testbit (Z.lor w (2 ^ k)) j = if j =? k then true else Z.testbit w j.
Proof.
  intros. rewrite Z.lor_spec, Z.pow2_bits_eqb by done. rewrite (Z.eqb_sym k j).
  destruct (j =? k); [apply orb_true_r|apply orb_false_r].
Qed.

Lemma testbit_lxor_pow w k j :
  0 <= j -> 0 <= k ->
  Z.testbit (Z.lxor w (2 ^ k)) j = if j =? k then negb (Z.testbit w j) else Z.testbit w j.
Proof.
  intros. rewrite Z.lxor_spec, Z.pow2_bits_eqb by done. rewrite (Z.eqb_sym k j).
  destruct (j =? k); [apply xorb_true_r|apply xorb_false_r].
Qed.

Lemma testbit_clear_pow w k j :
  0 <= j < 32 -> 0 <= k ->
  Z.testbit (Z.land w (u32 (Z.lnot (2 ^ k)))) j =
    if j =? k then false else Z.testbit w j.
Proof.
  intros. unfold u32. rewrite Z.land_spec, Z.mod_pow2_bits_low by lia.
  rewrite Z.lnot_spec, Z.pow2_bits_eqb by lia. rewrite (Z.eqb_sym k j).
  destruct (j =? k); cbn; [apply andb_false_r|apply andb_true_r].
Qed.

(** *** What the operations do *)

Section Ops.
Context (ws : list Z) (nr : Z) (Hnr : in_bits ws nr).

Lemma wp_set_bit (Q : unit -> list Z -> Prop) :
  (forall ws', length ws' = length ws ->
     (forall i, 0 <= i -> bit_at ws' i = if i =? nr then true else bit_at ws i) -> Q tt ws') ->
  wp (set_bit nr) Q ws.
Proof.
  intros HQ. destruct (word_index _ _ Hnr) as [w Hw]. destruct Hnr as [H0 _].
  unfold set_bit. wp_simpl. eapply wp_rd_word; [done|done|].
  eapply wp_wr_word; [done|done|]. apply HQ; [apply length_insert|].
  apply (bit_at_update ws nr w _ (fun _ => true)); [done|done|].
  intros j Hj. rewrite BIT_MASK_pow by done.
  apply testbit_lor_pow; [lia|by apply Z.mod_pos_bound].
Qed.

Lemma wp_clear_bit (Q : unit -> list Z -> Prop) :
  (forall ws', length ws' = length ws ->
     (forall i, 0 <= i -> bit_at ws' i = if i =? nr then false else bit_at ws i) -> Q tt ws') ->
  wp (clear_bit nr) Q ws.
Proof.
  intros HQ. destruct (word_index _ _ Hnr) as [w Hw]. destruct Hnr as [H0 _].
  unfold clear_bit. wp_simpl. eapply wp_rd_word; [done|done|].
  eapply wp_wr_word; [done|done|]. apply HQ; [apply length_insert|].
  apply (bit_at_update ws nr w _ (fun _ => false)); [done|done|].
  intros j Hj. rewrite BIT_MASK_pow by done.
  apply testbit_clear_pow; [lia|by apply Z.mod_pos_bound].
Qed.

Lemma wp_change_bit (Q : unit -> list Z -> Prop) :
  (forall ws', length ws' = length ws ->
     (forall i, 0 <= i -> bit_at ws' i = if i =? nr then negb (bit_at ws i) else bit_at ws i) ->
     Q tt ws') ->
  wp (change_bit nr) Q ws.
Proof.
  intros HQ. destruct (word_index _ _ Hnr) as [w Hw]. destruct Hnr as [H0 _].
  unfold change_bit. wp_simpl. eapply wp_rd_word; [done|done|].
  eapply wp_wr_word; [done|done|]. apply HQ; [apply length_insert|].
  apply (bit_at_update ws nr w _ negb); [done|done|].
  intros j Hj. rewrite BIT_MASK_pow by done.
  apply testbit_lxor_pow; [lia|by apply Z.mod_pos_bound].
Qed.

Lemma land_pow_testbit w k : 0 <= k -> negb (Z.land w (2 ^ k) =? 0) = Z.testbit w k.
Proof.
  intros Hk. destruct (Z.testbit w k) eqn:E.
  - destruct (Z.eqb_spec (Z.land w (2 ^ k)) 0) as [H|]; [|done].
    assert (Hb : Z.testbit (Z.land w (2 ^ k)) k = true).
    { rewrite Z.land_spec, E, Z.pow2_bits_eqb, Z.eqb_refl by done. done. }
    rewrite H, Z.bits_0 in Hb. done.
  - assert (Hz : Z.land w (2 ^ k) = 0).
    { apply Z.bits_inj'. intros j Hj. rewrite Z.land_spec, Z.pow2_bits_eqb, Z.bits_0 by done.
      destruct (Z.eqb_spec k j) as [->|]; [by rewrite E|apply andb_false_r]. }
    by rewrite Hz.
Qed.

Lemma bit_at_word w : ws !! Z.to_nat (nr / 32) = Some w -> bit_at ws nr = Z.testbit w (nr mod 32).
Proof. unfold bit_at. by intros ->. Qed.

(** The three test-and-modify operations return the bit as it was. *)
Lemma wp_test_and_set_bit (Q : bool -> list Z -> Prop) :
  (forall ws', length ws' = length ws ->
     (forall i, 0 <= i -> bit_at ws' i = if i =? nr then true else bit_at ws i) ->
     Q (bit_at ws nr) ws') ->
  wp (test_and_set_bit nr) Q ws.
Proof.
  intros HQ. destruct (word_index _ _ Hnr) as [w Hw].
  assert (Hb := bit_at_word w Hw). destruct Hnr as [H0 _].
  unfold test_and_set_bit. wp_simpl. eapply wp_rd_word; [done|done|]. wp_simpl.
  eapply wp_wr_word; [done|done|]. wp_simpl.
  rewrite BIT_MASK_pow, land_pow_testbit, <- Hb by (done || by apply Z.mod_pos_bound).
  apply HQ; [apply length_insert|].
  apply (bit_at_update ws nr w _ (fun _ => true)); [done|done|].
  intros j Hj. apply testbit_lor_pow; [lia|by apply Z.mod_pos_bound].
Qed.

Lemma wp_test_and_clear_bit (Q : bool -> list Z -> Prop) :
  (forall ws', length ws' = length ws ->
     (forall i, 0 <= i -> bit_at ws' i = if i =? nr then false else bit_at ws i) ->
     Q (bit_at ws nr) ws') ->
  wp (test_and_clear_bit nr) Q ws.
Proof.
  intros HQ. destruct (word_index _ _ Hnr) as [w Hw].
  assert (Hb := bit_at_word w Hw). destruct Hnr as [H0 _].
  unfold test_and_clear_bit. wp_simpl. eapply wp_rd_word; [done|done|]. wp_simpl.
  eapply wp_wr_word; [done|done|]. wp_simpl.
  rewrite BIT_MASK_pow, land_pow_testbit, <- Hb by (done || by apply Z.mod_pos_bound).
  apply HQ; [apply length_insert|].
  apply (bit_at_update ws nr w _ (fun _ => false)); [done|done|].
  intros j Hj. apply testbit_clear_pow; [lia|by apply Z.mod_pos_bound].
Qed.

Lemma wp_test_and_change_bit (Q : bool -> list Z -> Prop) :
  (forall ws', length ws' = length ws ->
     (forall i, 0 <= i -> bit_at ws' i = if i =? nr then negb (bit_at ws i) else bit_at ws i) ->
     Q (bit_at ws nr) ws') ->
  wp (test_and_change_bit nr) Q ws.
Proof.
  intros HQ. destruct (word_index _ _ Hnr) as [w Hw].
  assert (Hb := bit_at_word w Hw). destruct Hnr as [H0 _].
  unfold test_and_change_bit. wp_simpl. eapply wp_rd_word; [done|done|]. wp_simpl.
  eapply wp_wr_word; [done|done|]. wp_simpl.
  rewrite BIT_MASK_pow, land_pow_testbit, <- Hb by (done || by apply Z.mod_pos_bound).
  apply HQ; [apply length_insert|].
  apply (bit_at_update ws nr w _ negb); [done|done|].
  intros j Hj. apply testbit_lxor_pow; [lia|by apply Z.mod_pos_bound].
Qed.

Lemma wp_test_bit (Q : Z -> list Z -> Prop) :
  Q (Z.b2z (bit_at ws nr)) ws -> wp (test_bit nr) Q ws.
Proof.
  intros HQ. destruct (word_index _ _ Hnr) as [w Hw].
  assert (Hb := bit_at_word w Hw). destruct Hnr as [H0 _].
  unfold test_bit. wp_simpl. eapply wp_rd_word; [done|done|]. wp_simpl.
  replace (Z.land nr (BITS_PER_LONG - 1)) with (nr mod 32)
    by (symmetry; apply (Z.land_ones nr 5); lia).
  rewrite Z.land_comm. change 1 with (Z.ones 1) at 1.
  rewrite Z.land_ones by lia. rewrite <- Z.bit0_mod, Z.shiftr_spec, Z.add_0_l by lia.
  by rewrite <- Hb.
Qed.
End Ops.

(** ** Fields of words *)

Lemma testbit_above w n i : 0 <= w < 2 ^ n -> 0 <= n <= i -> Z.testbit w i = false.
Proof.
  intros Hw Hn. rewrite <- (Z.mod_small w (2 ^ n)) by done. by apply Z.mod_pow2_bits_high.
Qed.

(** The part of a word from bit [k] on. *)
Lemma land_high w k n : 0 <= k -> 0 <= n -> 0 <= w < 2 ^ (k + n) ->
  Z.land w (Z.shiftl (Z.ones n) k) = Z.shiftl (Z.shiftr w k) k.
Proof.
  intros Hk Hn Hw. apply Z.bits_inj'. intros i Hi. rewrite Z.land_spec.
  destruct (Z.lt_ge_cases i k) as [Hlt|Hge].
  - by rewrite !Z.shiftl_spec_low, andb_false_r by done.
  - rewrite !Z.shiftl_spec, Z.shiftr_spec by lia. replace (i - k + k) with i by lia.
    destruct (Z.lt_ge_cases (i - k) n).
    + rewrite Z.ones_spec_low by lia. by rewrite andb_true_r.
    + rewrite (testbit_above w (k + n)) by lia. done.
Qed.

(** A high part and a low part put together. *)
Lemma lor_fields h l k : 0 <= k -> Z.lor (Z.shiftl h k) (Z.land l (Z.ones k)) = h * 2 ^ k + l mod 2 ^ k.
Proof.
  intros Hk. pose proof (Z.add_lor_land (Z.shiftl h k) (Z.land l (Z.ones k))) as E.
  replace (Z.land (Z.shiftl h k) (Z.land l (Z.ones k))) with 0 in E.
  - rewrite Z.shiftl_mul_pow2, Z.land_ones in * by done. lia.
  - symmetry. apply Z.bits_inj'. intros i Hi. rewrite !Z.land_spec, Z.bits_0.
    destruct (Z.lt_ge_cases i k).
    + by rewrite Z.shiftl_spec_low.
    + rewrite Z.ones_spec_high by lia. by rewrite !andb_false_r.
Qed.

Lemma mod_pow2_split x a b : 0 <= a -> 0 <= b -> (x mod 2 ^ (a + b)) mod 2 ^ a = x mod 2 ^ a.
Proof.
  intros Ha Hb. rewrite Z.pow_add_r, Z.rem_mul_r by lia.
  rewrite Z.mul_comm, Z.mod_add by lia. by rewrite Z.mod_mod by lia.
Qed.

(** A signed number is the one of its range with its remainder. *)
Lemma signed_unique w x y :
  0 < w -> x mod 2 ^ w = y mod 2 ^ w -> - 2 ^ (w - 1) <= y < 2 ^ (w - 1) -> signed w x = y.
Proof.
  intros Hw Hm Hy. rewrite <- (signed_small w y) by done. unfold signed. by rewrite Hm.
Qed.
