(* ===== verification/KState.v ===== *)
(** * The kernel state shared by the scheduler, tasks, timers, semaphores, wait
    queues and completions

    One record holds the globals and the objects of those components, so that
    they work on the same lists and the same tasks, as in the kernel.  Objects
    are kept by address, one map per type; the [struct list_head]s embedded in
    all of them are in one heap ([links]) at their real addresses. *)

From S2P Require Import Prelude KList.

(** include/kernel/task.h: [enum task_state], with its values. *)
Inductive task_state : Type :=
| RUNNING | SLEEPING | SUSPENDED | READY | CREATING | BLOCKED | EXITED.

Definition task_state_code (s : task_state) : Z :=
  match s with
  | RUNNING => 0 | SLEEPING => 1 | SUSPENDED => 2 | READY => 3
  | CREATING => 4 | BLOCKED => 5 | EXITED => 8
  end.

#[export] Instance task_state_eq_dec : EqDecision task_state.
Proof. solve_decision. Defined.

(** include/kernel/task.h: [task_t], less its [list] (at offset 0, in [links]). *)
Record task : Type := mk_task {
  t_sp : Z;
  t_priority : Z;
  t_state : task_state;
  t_stack : Z;
  t_stack_size : Z;
  t_pgd : Z;
  t_pid : Z;
  t_entry : Z;
  t_args : Z;
  t_ret : Z;
  t_name : list Z
}.

(** The functions that the kernel itself installs in a timer, and any other. *)
Inductive timer_function : Type :=
| TF_NULL
| TF_task_sleep_function
| TF_delayed_work_timer_fn
| TF_other (code : Z).

(** include/kernel/timer.h: [timer_t], less its [entry] (at offset 0). *)
Record ktimer : Type := mk_ktimer {
  expired_time : Z;
  periodic_time : Z;
  function : timer_function;
  arg : Z
}.

(** kernel/semaphore.c: [struct semaphore_waiter], less its [list] (offset 0). *)
Record semaphore_waiter : Type := mk_waiter {
  w_task : Z;
  w_up : Z
}.

(** The functions that a wait queue entry is woken with. *)
Inductive wait_queue_func : Type :=
| WF_default_wake_function
| WF_other (code : Z).

(** include/kernel/wait_queue.h: [wait_queue_t], less its [task_list]. *)
Record wait_queue_entry : Type := mk_wait {
  wq_flags : Z;
  wq_private : Z;
  wq_func : wait_queue_func
}.

(** include/mm/page_alloc.h: [struct page], less its [list] (offset 4).  The
    unions are one field each: [index]/[freelist] and [_mapcount]/[units]. *)
Record page : Type := mk_page {
  pg_flags : list Z;   (** one word *)
  pg_index : Z;
  pg_units : Z;
  pg_private : Z
}.

(** mm/: the globals of the page and slob allocators, the [struct page] array
    by address, and the 16-bit unit headers that slob keeps inside free memory,
    by address. *)
Record mm_st : Type := mk_mm {
  memmap_pages : Z;
  zone_start_pfn : Z;
  spanned_pages : Z;
  managed_pages : Z;
  nr_free : list Z;   (** [free_area[i].nr_free] *)
  pages : gmap Z page;
  slobs : gmap Z Z
}.

(** Before [kmalloc_init]. *)
Definition no_mm : mm_st := mk_mm 0 0 0 0 [] ∅ ∅.

(** include/kernel/workqueue.h: [struct work_struct], less [entry] and [timer]. *)
Record work_struct : Type := mk_work {
  pending : list Z;   (** one word *)
  wk_func : Z;
  wk_data : Z;
  wq_data : Z
}.

(** kernel/workqueue.c: [struct workqueue_struct], less the objects in it. *)
Record workqueue_struct : Type := mk_wq {
  remove_sequence : Z;
  insert_sequence : Z;
  wq_task : Z
}.

Record kst : Type := mk_kst {
  links : lheap;   (** every [struct list_head] of the kernel, by address *)
  tasks : gmap Z task;   (** the [task_t] objects *)
  task_bitmap : list Z;   (** kernel/sched_fifo.c: one word *)
  current_task : Z;   (** kernel/task.c *)
  next_task : Z;   (** kernel/task.c, [NULL] = 0 *)
  critical_section_count : Z;   (** kernel/task.c, an [int] *)
  ints_on : bool;   (** the processor's IRQ enable, as [arch_enable_ints] and [arch_disable_ints] set it *)
  timers : gmap Z ktimer;   (** the [timer_t] objects *)
  ticks : Z;   (** the board's [static unsigned long long ticks] *)
  first_time : bool;   (** the [static] of [timer_tick] *)
  sems : gmap Z Z;   (** [count] of the [struct semaphore]s *)
  waiters : gmap Z semaphore_waiter;   (** the [struct semaphore_waiter]s on the stacks of waiting tasks *)
  waits : gmap Z wait_queue_entry;   (** the [wait_queue_t]s *)
  dones : gmap Z Z;   (** [done] of the [struct completion]s *)
  next_pid : Z;   (** kernel/task.c: [static int pid] *)
  switches : list (Z * Z);   (** the context switches made so far, the last one first *)
  mm : mm_st;   (** mm/ *)
  works : gmap Z work_struct;   (** the [struct work_struct]s *)
  wqs : gmap Z workqueue_struct;   (** the [struct workqueue_struct]s *)
  keventd_wq : Z   (** kernel/workqueue.c *)
}.

(** Field updates. *)
Definition set_links (v : lheap) (s : kst) : kst :=
  mk_kst v (tasks s) (task_bitmap s) (current_task s) (next_task s)
    (critical_section_count s) (ints_on s) (timers s) (ticks s) (first_time s) (sems s)
    (waiters s) (waits s) (dones s) (next_pid s) (switches s) (mm s) (works s) (wqs s)
    (keventd_wq s).
Definition set_tasks (v : gmap Z task) (s : kst) : kst :=
  mk_kst (links s) v (task_bitmap s) (current_task s) (next_task s)
    (critical_section_count s) (ints_on s) (timers s) (ticks s) (first_time s) (sems s)
    (waiters s) (waits s) (dones s) (next_pid s) (switches s) (mm s) (works s) (wqs s)
    (keventd_wq s).
Definition set_task_bitmap (v : list Z) (s : kst) : kst :=
  mk_kst (links s) (tasks s) v (current_task s) (next_task s) (critical_section_count s)
    (ints_on s) (timers s) (ticks s) (first_time s) (sems s) (waiters s) (waits s)
    (dones s) (next_pid s) (switches s) (mm s) (works s) (wqs s) (keventd_wq s).
Definition set_current_task (v : Z) (s : kst) : kst :=
  mk_kst (links s) (tasks s) (task_bitmap s) v (next_task s) (critical_section_count s)
    (ints_on s) (timers s) (ticks s) (first_time s) (sems s) (waiters s) (waits s)
    (dones s) (next_pid s) (switches s) (mm s) (works s) (wqs s) (keventd_wq s).
Definition set_next_task (v : Z) (s : kst) : kst :=
  mk_kst (links s) (tasks s) (task_bitmap s) (current_task s) v
    (critical_section_count s) (ints_on s) (timers s) (ticks s) (first_time s) (sems s)
    (waiters s) (waits s) (dones s) (next_pid s) (switches s) (mm s) (works s) (wqs s)
    (keventd_wq s).
Definition set_critical_section_count (v : Z) (s : kst) : kst :=
  mk_kst (links s) (tasks s) (task_bitmap s) (current_task s) (next_task s) v
    (ints_on s) (timers s) (ticks s) (first_time s) (sems s) (waiters s) (waits s)
    (dones s) (next_pid s) (switches s) (mm s) (works s) (wqs s) (keventd_wq s).
Definition set_ints_on (v : bool) (s : kst) : kst :=
  mk_kst (links s) (tasks s) (task_bitmap s) (current_task s) (next_task s)
    (critical_section_count s) v (timers s) (ticks s) (first_time s) (sems s)
    (waiters s) (waits s) (dones s) (next_pid s) (switches s) (mm s) (works s) (wqs s)
    (keventd_wq s).
Definition set_timers (v : gmap Z ktimer) (s : kst) : kst :=
  mk_kst (links s) (tasks s) (task_bitmap s) (current_task s) (next_task s)
    (critical_section_count s) (ints_on s) v (ticks s) (first_time s) (sems s)
    (waiters s) (waits s) (dones s) (next_pid s) (switches s) (mm s) (works s) (wqs s)
    (keventd_wq s).
Definition set_ticks (v : Z) (s : kst) : kst :=
  mk_kst (links s) (tasks s) (task_bitmap s) (current_task s) (next_task s)
    (critical_section_count s) (ints_on s) (timers s) v (first_time s) (sems s)
    (waiters s) (waits s) (dones s) (next_pid s) (switches s) (mm s) (works s) (wqs s)
    (keventd_wq s).
Definition set_first_time (v : bool) (s : kst) : kst :=
  mk_kst (links s) (tasks s) (task_bitmap s) (current_task s) (next_task s)
    (critical_section_count s) (ints_on s) (timers s) (ticks s) v (sems s) (waiters s)
    (waits s) (dones s) (next_pid s) (switches s) (mm s) (works s) (wqs s)
    (keventd_wq s).
Definition set_sems (v : gmap Z Z) (s : kst) : kst :=
  mk_kst (links s) (tasks s) (task_bitmap s) (current_task s) (next_task s)
    (critical_section_count s) (ints_on s) (timers s) (ticks s) (first_time s) v
    (waiters s) (waits s) (dones s) (next_pid s) (switches s) (mm s) (works s) (wqs s)
    (keventd_wq s).
Definition set_waiters (v : gmap Z semaphore_waiter) (s : kst) : kst :=
  mk_kst (links s) (tasks s) (task_bitmap s) (current_task s) (next_task s)
    (critical_section_count s) (ints_on s) (timers s) (ticks s) (first_time s) (sems s)
    v (waits s) (dones s) (next_pid s) (switches s) (mm s) (works s) (wqs s)
    (keventd_wq s).
Definition set_waits (v : gmap Z wait_queue_entry) (s : kst) : kst :=
  mk_kst (links s) (tasks s) (task_bitmap s) (current_task s) (next_task s)
    (critical_section_count s) (ints_on s) (timers s) (ticks s) (first_time s) (sems s)
    (waiters s) v (dones s) (next_pid s) (switches s) (mm s) (works s) (wqs s)
    (keventd_wq s).
Definition set_dones (v : gmap Z Z) (s : kst) : kst :=
  mk_kst (links s) (tasks s) (task_bitmap s) (current_task s) (next_task s)
    (critical_section_count s) (ints_on s) (timers s) (ticks s) (first_time s) (sems s)
    (waiters s) (waits s) v (next_pid s) (switches s) (mm s) (works s) (wqs s)
    (keventd_wq s).
Definition set_next_pid (v : Z) (s : kst) : kst :=
  mk_kst (links s) (tasks s) (task_bitmap s) (current_task s) (next_task s)
    (critical_section_count s) (ints_on s) (timers s) (ticks s) (first_time s) (sems s)
    (waiters s) (waits s) (dones s) v (switches s) (mm s) (works s) (wqs s)
    (keventd_wq s).
Definition set_switches (v : list (Z * Z)) (s : kst) : kst :=
  mk_kst (links s) (tasks s) (task_bitmap s) (current_task s) (next_task s)
    (critical_section_count s) (ints_on s) (timers s) (ticks s) (first_time s) (sems s)
    (waiters s) (waits s) (dones s) (next_pid s) v (mm s) (works s) (wqs s)
    (keventd_wq s).
Definition set_mm (v : mm_st) (s : kst) : kst :=
  mk_kst (links s) (tasks s) (task_bitmap s) (current_task s) (next_task s)
    (critical_section_count s) (ints_on s) (timers s) (ticks s) (first_time s) (sems s)
    (waiters s) (waits s) (dones s) (next_pid s) (switches s) v (works s) (wqs s)
    (keventd_wq s).
Definition set_works (v : gmap Z work_struct) (s : kst) : kst :=
  mk_kst (links s) (tasks s) (task_bitmap s) (current_task s) (next_task s)
    (critical_section_count s) (ints_on s) (timers s) (ticks s) (first_time s) (sems s)
    (waiters s) (waits s) (dones s) (next_pid s) (switches s) (mm s) v (wqs s)
    (keventd_wq s).
Definition set_wqs (v : gmap Z workqueue_struct) (s : kst) : kst :=
  mk_kst (links s) (tasks s) (task_bitmap s) (current_task s) (next_task s)
    (critical_section_count s) (ints_on s) (timers s) (ticks s) (first_time s) (sems s)
    (waiters s) (waits s) (dones s) (next_pid s) (switches s) (mm s) (works s) v
    (keventd_wq s).
Definition set_keventd_wq (v : Z) (s : kst) : kst :=
  mk_kst (links s) (tasks s) (task_bitmap s) (current_task s) (next_task s)
    (critical_section_count s) (ints_on s) (timers s) (ticks s) (first_time s) (sems s)
    (waiters s) (waits s) (dones s) (next_pid s) (switches s) (mm s) (works s) (wqs s)
    v.

(** List operations on the shared heap. *)
Definition on_links {A} (m : M lheap A) : M kst A := zoom links set_links m.

(** Loads and stores of object fields; an object that is not there faults. *)
Definition rd_task (p : Z) : M kst task :=
  ts <- gets tasks ;; lift_opt (bad_ptr p) (ts !! p).
Definition wr_task (p : Z) (upd : task -> task) : M kst unit :=
  t <- rd_task p ;; modify (fun s => set_tasks (<[p := upd t]> (tasks s)) s).

Definition with_state (st : task_state) (t : task) : task :=
  mk_task (t_sp t) (t_priority t) st (t_stack t) (t_stack_size t) (t_pgd t)
    (t_pid t) (t_entry t) (t_args t) (t_ret t) (t_name t).

(** [set_task_state] of include/kernel/task.h *)
Definition set_task_state (p : Z) (st : task_state) : M kst unit :=
  wr_task p (with_state st).

(** [set_current_state] of include/kernel/task.h *)
Definition set_current_state (st : task_state) : M kst unit :=
  cur <- gets current_task ;; wr_task cur (with_state st).

(** arch/arm: the IRQ mask *)
Definition arch_disable_ints : M kst unit := modify (set_ints_on false).
Definition arch_enable_ints : M kst unit := modify (set_ints_on true).

(** include/kernel/task.h: critical sections, with an [int] counter *)
Definition enter_critical_section : M kst unit :=
  c <- gets critical_section_count ;;
  (if c =? 0 then arch_disable_ints else ret tt) ;;;
  modify (fun s => set_critical_section_count (s32 (critical_section_count s + 1)) s).

Definition exit_critical_section : M kst unit :=
  modify (fun s => set_critical_section_count (s32 (critical_section_count s - 1)) s) ;;;
  c <- gets critical_section_count ;;
  if c =? 0 then arch_enable_ints else ret tt.

(** ** Lemmas *)

Lemma wp_on_links {A} (m : M lheap A) (Q : A -> kst -> Prop) s :
  wp m (fun a h => Q a (set_links h s)) (links s) -> wp (on_links m) Q s.
Proof. unfold on_links. by rewrite wp_zoom. Qed.

Lemma wp_rd_task s p t (Q : task -> kst -> Prop) :
  tasks s !! p = Some t -> Q t s -> wp (rd_task p) Q s.
Proof. intros H HQ. unfold rd_task. wp_simpl. by rewrite H. Qed.

Lemma wp_wr_task s p t upd (Q : unit -> kst -> Prop) :
  tasks s !! p = Some t -> Q tt (set_tasks (<[p := upd t]> (tasks s)) s) ->
  wp (wr_task p upd) Q s.
Proof. intros H HQ. unfold wr_task. wp_simpl. eapply wp_rd_task; [done|]. by wp_simpl. Qed.

(** The nesting depth of critical sections and the IRQ mask: interrupts are on
    exactly outside every section. *)
Definition crit_ok (s : kst) : Prop :=
  0 <= critical_section_count s < 2147483647 ∧
  (ints_on s = true <-> critical_section_count s = 0).

Lemma wp_enter_critical_section s (Q : unit -> kst -> Prop) :
  0 <= critical_section_count s < 2147483647 -> 
  Q tt (set_critical_section_count (critical_section_count s + 1)
         (if critical_section_count s =? 0 then set_ints_on false s else s)) ->
  wp enter_critical_section Q s.
Proof.
  intros H HQ. unfold enter_critical_section. wp_simpl.
  destruct (critical_section_count s =? 0) eqn:E; unfold arch_disable_ints; wp_simpl;
    cbn; rewrite s32_small by lia; exact HQ.
Qed.

Lemma wp_exit_critical_section s (Q : unit -> kst -> Prop) :
  0 < critical_section_count s < 2147483648 ->
  Q tt (if critical_section_count s =? 1
        then set_ints_on true (set_critical_section_count 0 s)
        else set_critical_section_count (critical_section_count s - 1) s) ->
  wp exit_critical_section Q s.
Proof.
  intros H HQ. unfold exit_critical_section. wp_simpl. cbn.
  rewrite s32_small by lia.
  destruct (Z.eqb_spec (critical_section_count s - 1) 0) as [E|E];
    destruct (Z.eqb_spec (critical_section_count s) 1); try lia.
  - unfold arch_enable_ints. wp_simpl. rewrite E. exact HQ.
  - by wp_simpl.
Qed.
