(* ===== verification/Sched.v ===== *)
(** * kernel/sched_fifo.c: the priority scheduler

    Eight queues of tasks, one per priority, and a bitmap of the queues that
    are not empty.  The queues are rings in the shared heap; [sched_inv] ties
    heap, bitmap and task objects to the family [f] of sequences.  The
    routines are translated branch by branch; [pick_spec] is what picking the
    next task means on the sequences. *)

From S2P Require Import Prelude KList Bitops KState.

Definition MAX_PRIORITY : Z := 8.

Section Sched.
(** The address of [struct list_head all_task[MAX_PRIORITY]]. *)
Context (all_task : Z).

(** [&all_task[i]] *)
Definition queue_head (i : Z) : Z := all_task + 8 * i.

Definition on_bitmap {A} (m : M (list Z) A) : M kst A := zoom task_bitmap set_task_bitmap m.

(** [for (i = 0; i < MAX_PRIORITY; i++) INIT_LIST_HEAD(&all_task[i]);] *)
Definition sched_fifo_init : M kst unit :=
  loop 9 (fun i =>
      if i <? MAX_PRIORITY then on_links (INIT_LIST_HEAD (queue_head i)) ;;; ret (inl (i + 1))
      else ret (inr tt)) 0.

Definition _find_next_task (priority start : Z) : M kst Z :=
  fuel <- gets (fun s => walk_fuel (links s)) ;;
  first <- on_links (rd_next start) ;;
  loop fuel (fun iterator =>
      if iterator =? start then ret (inr NULL)
      else
        skip <- (if iterator =? queue_head priority then ret true
                 else t <- rd_task iterator ;; ret (bool_decide (t_state t = BLOCKED))) ;;
        if (skip : bool) then n <- on_links (rd_next iterator) ;; ret (inl n)
        else ret (inr iterator))
    first.

Definition sched_fifo_enqueue_task (p : Z) : M kst unit :=
  t <- rd_task p ;;
  on_links (list_add_tail p (queue_head (t_priority t))) ;;;
  on_bitmap (set_bit (t_priority t)).

Definition sched_fifo_dequeue_task (p : Z) : M kst unit :=
  t <- rd_task p ;;
  n <- _find_next_task (t_priority t) p ;;
  modify (set_next_task n) ;;;
  on_links (list_del p) ;;;
  e <- on_links (list_empty (queue_head (t_priority t))) ;;
  if (e : bool) then on_bitmap (clear_bit (t_priority t)) else ret tt.

(** One turn of the loop of [sched_fifo_pick_next_task]: go on with the next
    priority ([inl], also what [continue] does), leave with a task, or leave
    with [MAX_PRIORITY == i] ([inr None]). *)
Definition pick_body (i : Z) : M kst (Z + option Z) :=
  if MAX_PRIORITY <=? i then ret (inr None) else
  b <- on_bitmap (test_bit i) ;;
  if b =? 0 then ret (inl (i + 1)) else
  cur <- gets current_task ;;
  ct <- rd_task cur ;;
  if negb (i =? s32 (t_priority ct)) then
    new_task <- _find_next_task i (queue_head i) ;;
    if new_task =? NULL then ret (inl (i + 1)) else ret (inr (Some new_task))
  else if bool_decide (t_state ct = EXITED) || bool_decide (t_state ct = SLEEPING) then
    n <- gets next_task ;;
    if negb (n =? NULL) then modify (set_next_task NULL) ;;; ret (inr (Some n))
    else ret (inl (i + 1))
  else
    new_task <- _find_next_task i cur ;;
    if new_task =? NULL then ret (inl (i + 1)) else ret (inr (Some new_task)).

Definition pick_loop : M kst (option Z) := loop 9 pick_body 0.

Definition sched_fifo_pick_next_task : M kst Z :=
  r <- pick_loop ;;
  match r with
  | None => ret NULL
  | Some new_task =>
      set_task_state new_task RUNNING ;;;
      modify (set_current_task new_task) ;;;
      ret new_task
  end.

(** ** The invariant *)

Record sched_inv (f : gmap Z (list Z)) (s : kst) : Prop := {
  si_lists : lists (links s) f;
  si_queue : forall i, 0 <= i < 8 -> is_Some (f !! queue_head i);
  si_task : forall i q p, 0 <= i < 8 -> f !! queue_head i = Some q -> p ∈ q ->
    exists t, tasks s !! p = Some t /\ t_priority t = i;
  si_null : tasks s !! NULL = None;
  si_words : length (task_bitmap s) = 1%nat;
  si_bits : forall i q, 0 <= i < 8 -> f !! queue_head i = Some q ->
    bit_at (task_bitmap s) i = bool_decide (q <> [])
}.

(** A task that the scheduler may run: it exists and is not [BLOCKED]. *)
Definition not_blocked (s : kst) (p : Z) : bool :=
  match tasks s !! p with
  | Some t => bool_decide (t_state t <> BLOCKED)
  | None => false
  end.

(** The first task of a sequence that may run. *)
Fixpoint first_ready (s : kst) (l : list Z) : option Z :=
  match l with
  | [] => None
  | p :: l' => if not_blocked s p then Some p else first_ready s l'
  end.

Definition opt_ptr (o : option Z) : Z := default NULL o.

Lemma first_ready_app s l1 l2 :
  first_ready s (l1 ++ l2) =
    match first_ready s l1 with Some p => Some p | None => first_ready s l2 end.
Proof. induction l1 as [|p l1 IH]; cbn; [done|]. by destruct (not_blocked s p). Qed.

Lemma first_ready_elem s l p : first_ready s l = Some p -> p ∈ l /\ not_blocked s p = true.
Proof.
  induction l as [|x l IH]; cbn; [done|]. destruct (not_blocked s x) eqn:E.
  - intros [= <-]. split; [set_solver|done].
  - intros [H1 H2]%IH. split; [set_solver|done].
Qed.

Lemma first_ready_none s l : first_ready s l = None <-> forall p, p ∈ l -> not_blocked s p = false.
Proof.
  induction l as [|x l IH]; cbn.
  - split; [set_solver|done].
  - destruct (not_blocked s x) eqn:E.
    + split; [done|]. intros H. rewrite (H x) in E; set_solver.
    + rewrite IH. split; intros H p; [intros [->|Hp]%elem_of_cons; auto|].
      intros Hp. apply H. set_solver.
Qed.

(** The invariant speaks of the lists, the bitmap and the priorities only. *)
Lemma sched_inv_ext f s s' :
  sched_inv f s -> links s' = links s -> task_bitmap s' = task_bitmap s ->
  (forall p, t_priority <$> tasks s' !! p = t_priority <$> tasks s !! p) ->
  sched_inv f s'.
Proof.
  intros [A1 A2 A3 A4 A5 A6] El Eb Et. split; rewrite ?El, ?Eb; try done.
  - intros i q p Hi Hq Hp. destruct (A3 i q p Hi Hq Hp) as (t & Ht & Hpr).
    specialize (Et p). rewrite Ht in Et. destruct (tasks s' !! p) as [t'|]; [|done].
    injection Et as Et. exists t'. split; [done|congruence].
  - specialize (Et NULL). rewrite A4 in Et. by destruct (tasks s' !! NULL).
Qed.

Lemma priority_insert (m : gmap Z task) p t t' :
  m !! p = Some t -> t_priority t' = t_priority t ->
  forall a, t_priority <$> <[p := t']> m !! a = t_priority <$> m !! a.
Proof.
  intros Hp E a. rewrite lookup_insert. case_decide; [subst|done].
  rewrite Hp. cbn. by rewrite E.
Qed.

(** *** [_find_next_task] *)

(** The scan of the ring from [start], with the queue head skipped. *)
Lemma scan_spec s i start r (Q : Z -> kst -> Prop) :
  dlist (links s) start r ->
  (forall p, p ∈ r -> p <> queue_head i -> p <> NULL /\ is_Some (tasks s !! p)) ->
  Q (opt_ptr (first_ready s (filter (fun a => a <> queue_head i) r))) s ->
  wp (_find_next_task i start) Q s.
Proof.
  intros Hd Ht HQ. unfold _find_next_task. wp_simpl. apply wp_on_links.
  eapply wp_rd_next; [by eapply dlist_first|].
  replace (set_links (links s) s) with s by (by destruct s).
  set (keep := fun a => a <> queue_head i) in *.
  apply (wp_loop_idx _ (fun n it s' => s' = s /\ exists r1 r2, r = r1 ++ r2 /\ n = length r2 /\
            it = heado start r2 /\
            first_ready s (filter keep r) = first_ready s (filter keep r2)))
    with (n := length r).
  - intros n it s' (-> & r1 & r2 & Er & -> & -> & Hfr). rewrite Er in Hd.
    destruct r2 as [|x r2].
    { cbn. rewrite Z.eqb_refl. wp_simpl. rewrite Hfr in HQ. exact HQ. }
    destruct (Z.eqb_spec (heado start (x :: r2)) start) as [E|E].
    { apply (dlist_cursor _ _ _ _ Hd) in E. done. }
    cbn [heado head default from_option id] in *.
    assert (Hnext : forall (Hskip : first_ready s (filter keep (x :: r2)) = first_ready s (filter keep r2)),
      wp (n <- on_links (rd_next x) ;; ret (inl n)) (fun (r0 : Z + Z) s' =>
        match r0 with
        | inl a' => exists n', (n' < length (x :: r2))%nat /\ s' = s /\ exists r1 r3,
            r = r1 ++ r3 /\ n' = length r3 /\ a' = heado start r3 /\
            first_ready s (filter keep r) = first_ready s (filter keep r3)
        | inr b => Q b s' end) s).
    { intros Hskip. wp_simpl. apply wp_on_links.
      eapply wp_rd_next; [apply (dlist_links _ _ _ _ _ Hd)|]. wp_simpl.
      exists (length r2). split; [cbn; lia|]. split; [by destruct s|].
      exists (r1 ++ [x]), r2. rewrite <- app_assoc. split_and!; [done|done|done|].
      by rewrite Hfr. }
    destruct (Z.eqb_spec x (queue_head i)) as [Eh|Eh].
    { rewrite wp_bind, wp_ret. apply Hnext. rewrite filter_cons_False; [done|]. unfold keep. tauto. }
    rewrite !wp_bind. destruct (Ht x) as [Hx0 [t Ht']]; [rewrite Er; set_solver|done|].
    eapply wp_rd_task; [exact Ht'|]. rewrite wp_ret.
    case_bool_decide as Hb.
    + apply Hnext. rewrite filter_cons_True by done. cbn [first_ready].
      unfold not_blocked. rewrite Ht'. by rewrite bool_decide_false by tauto.
    + wp_simpl. rewrite Hfr, filter_cons_True in HQ by done. cbn [first_ready] in HQ.
      unfold not_blocked in HQ. rewrite Ht', bool_decide_true in HQ by done. exact HQ.
  - split; [done|]. exists [], r. done.
  - pose proof (dlist_length _ _ _ Hd). unfold walk_fuel. lia.
Qed.

Section WithInv.
Context (f : gmap Z (list Z)) (s : kst) (Hinv : sched_inv f s).

Lemma inv_task_ptr i q p :
  0 <= i < 8 -> f !! queue_head i = Some q -> p ∈ q -> p <> NULL /\ is_Some (tasks s !! p).
Proof.
  intros Hi Hq Hp. destruct (si_task _ _ Hinv i q p Hi Hq Hp) as (t & Ht & _).
  split; [|eauto]. intros ->. by rewrite (si_null _ _ Hinv) in Ht.
Qed.

Lemma inv_head_notin i q : f !! queue_head i = Some q -> queue_head i ∉ q.
Proof.
  intros Hq. destruct (lists_ring _ _ (si_lists _ _ Hinv) _ _ Hq) as [Hnd _].
  by apply NoDup_cons in Hnd as [Hnd _].
Qed.

Lemma filter_head_id i q (l : list Z) :
  f !! queue_head i = Some q -> (forall a, a ∈ l -> a ∈ q) ->
  filter (fun a => a <> queue_head i) l = l.
Proof.
  intros Hq Hsub. induction l as [|a l IH]; [done|].
  rewrite filter_cons_True, IH; [done|set_solver|].
  intros ->. apply (inv_head_notin i q Hq), Hsub. set_solver.
Qed.

(** From the queue head: the first task of the queue that may run. *)
Lemma wp_find_from_head i q (Q : Z -> kst -> Prop) :
  0 <= i < 8 -> f !! queue_head i = Some q ->
  Q (opt_ptr (first_ready s q)) s ->
  wp (_find_next_task i (queue_head i)) Q s.
Proof.
  intros Hi Hq HQ. eapply scan_spec.
  - by apply (lists_ring _ _ (si_lists _ _ Hinv)).
  - intros p Hp _. by eapply inv_task_ptr.
  - by rewrite (filter_head_id i q) by done.
Qed.

(** From a task: the first that may run among the tasks after it, then the
    tasks before it; never the task itself. *)
Lemma wp_find_from_task i l1 p l2 (Q : Z -> kst -> Prop) :
  0 <= i < 8 -> f !! queue_head i = Some (l1 ++ p :: l2) ->
  Q (opt_ptr (first_ready s (l2 ++ l1))) s ->
  wp (_find_next_task i p) Q s.
Proof.
  intros Hi Hq HQ. eapply scan_spec.
  - apply dlist_rotate. by apply (lists_ring _ _ (si_lists _ _ Hinv)).
  - intros a Ha Hne. eapply inv_task_ptr; [exact Hi|exact Hq|]. set_solver.
  - rewrite filter_app, filter_cons_False by tauto.
    rewrite !(filter_head_id i (l1 ++ p :: l2)) by (done || set_solver). exact HQ.
Qed.

(** *** Enqueue and dequeue *)

Lemma queue_head_inj i j : queue_head i = queue_head j -> i = j.
Proof. unfold queue_head. lia. Qed.

(** A new list heap and bitmap in which one queue changed. *)
Lemma sched_inv_update h' b' i q q' :
  0 <= i < 8 -> f !! queue_head i = Some q ->
  lists h' (<[queue_head i := q']> f) ->
  (forall p, p ∈ q' -> exists t, tasks s !! p = Some t /\ t_priority t = i) ->
  length b' = 1%nat ->
  (forall j, 0 <= j -> bit_at b' j = if j =? i then bool_decide (q' <> []) else bit_at (task_bitmap s) j) ->
  sched_inv (<[queue_head i := q']> f) (set_task_bitmap b' (set_links h' s)).
Proof.
  intros Hi Hq Hl Hp Hlen Hb. split; cbn; [done| | |apply Hinv|done|].
  - intros j Hj. rewrite lookup_insert. case_decide; [eauto|by apply (si_queue _ _ Hinv)].
  - intros j r p0 Hj. rewrite lookup_insert. case_decide as E.
    + apply queue_head_inj in E as ->. intros [= <-]. apply Hp.
    + intros Hr Hin. by eapply (si_task _ _ Hinv).
  - intros j r Hj. rewrite lookup_insert, Hb by lia. case_decide as E.
    + apply queue_head_inj in E as ->. rewrite Z.eqb_refl. intros [= <-]. done.
    + destruct (Z.eqb_spec j i) as [->|]; [done|]. intros Hr. by apply (si_bits _ _ Hinv).
Qed.

Lemma inv_bits_range i : 0 <= i < 8 -> in_bits (task_bitmap s) i.
Proof. intros Hi. unfold in_bits. rewrite (si_words _ _ Hinv). lia. Qed.

Lemma wp_enqueue p t q (Q : unit -> kst -> Prop) :
  tasks s !! p = Some t -> 0 <= t_priority t < 8 ->
  f !! queue_head (t_priority t) = Some q -> loose (links s) f p ->
  (forall h' b', let s' := set_task_bitmap b' (set_links h' s) in
     sched_inv (<[queue_head (t_priority t) := q ++ [p]]> f) s' ->
     same_out (p :: queue_head (t_priority t) :: q) (links s) h' -> Q tt s') ->
  wp (sched_fifo_enqueue_task p) Q s.
Proof.
  intros Ht Hi Hq Hl HQ. unfold sched_fifo_enqueue_task. wp_simpl.
  eapply wp_rd_task; [done|]. wp_simpl. apply wp_on_links.
  eapply fam_list_add_tail; [apply Hinv|exact Hq|done|]. intros h' Hl' Hs.
  unfold on_bitmap. rewrite wp_zoom. apply wp_set_bit; [by apply inv_bits_range|].
  intros b' Hlen Hb. apply HQ; [|done].
  eapply sched_inv_update; [done|done|done| |by rewrite Hlen; apply Hinv|].
  - intros p0. rewrite elem_of_app, list_elem_of_singleton. intros [Hp| -> ]; [|eauto].
    by eapply (si_task _ _ Hinv).
  - intros j Hj. rewrite Hb by done. rewrite bool_decide_true by (by destruct q). done.
Qed.

Lemma wp_dequeue p t l1 l2 (Q : unit -> kst -> Prop) :
  tasks s !! p = Some t -> 0 <= t_priority t < 8 ->
  f !! queue_head (t_priority t) = Some (l1 ++ p :: l2) ->
  (forall h' b', let s' := set_task_bitmap b' (set_links h'
                     (set_next_task (opt_ptr (first_ready s (l2 ++ l1))) s)) in
     sched_inv (<[queue_head (t_priority t) := l1 ++ l2]> f) s' ->
     loose h' (<[queue_head (t_priority t) := l1 ++ l2]> f) p ->
     same_out (queue_head (t_priority t) :: l1 ++ p :: l2) (links s) h' -> Q tt s') ->
  wp (sched_fifo_dequeue_task p) Q s.
Proof.
  intros Ht Hi Hq HQ. unfold sched_fifo_dequeue_task. wp_simpl.
  eapply wp_rd_task; [done|]. wp_simpl.
  eapply wp_find_from_task; [done|done|]. wp_simpl. apply wp_on_links. cbn [links set_next_task].
  eapply fam_list_del; [apply Hinv|exact Hq|]. intros h' Hl' Hloose _ _ Hs. wp_simpl.
  apply wp_on_links. eapply (fam_list_empty _ _ Hl'); [by rewrite lookup_insert_eq|]. cbn.
  assert (Hmem : forall p0, p0 ∈ l1 ++ l2 -> exists t0, tasks s !! p0 = Some t0 /\ t_priority t0 = t_priority t).
  { intros p0 Hp0. eapply (si_task _ _ Hinv); [done|exact Hq|]. set_solver. }
  set (n := opt_ptr _) in *. set (i := t_priority t) in *.
  assert (Hn : sched_inv f (set_next_task n s)) by (destruct Hinv; by split).
  case_bool_decide as E.
  - unfold on_bitmap. rewrite wp_zoom. apply wp_clear_bit; [by apply inv_bits_range|].
    intros b' Hlen Hb. apply (HQ h' b'); [|done|done].
    destruct Hn as [A1 A2 A3 A4 A5 A6].
    eapply (sched_inv_update h' b' i (l1 ++ p :: l2) (l1 ++ l2)) in Hl' as Hr;
      [|done|done|done|by rewrite Hlen; apply Hinv|].
    + destruct Hr. by split.
    + intros j Hj. rewrite Hb by done. destruct (j =? i); [by rewrite bool_decide_false by tauto|done].
  - wp_simpl.
    replace (set_links h' (set_links h' (set_next_task n s))) with
      (set_task_bitmap (task_bitmap s) (set_links h' (set_next_task n s))) by (by destruct s).
    apply HQ; [|done|done].
    eapply (sched_inv_update h' (task_bitmap s) i (l1 ++ p :: l2) (l1 ++ l2)) in Hl' as Hr;
      [|done|done|done|by apply Hinv|].
    + destruct Hr. by split.
    + intros j Hj. destruct (Z.eqb_spec j i) as [->|]; [|done].
      rewrite (si_bits _ _ Hinv i (l1 ++ p :: l2)) by done.
      rewrite !bool_decide_true; [done|done|by destruct l1].
Qed.
End WithInv.

(** *** Picking, on the sequences *)

(** The tasks of a queue in the order in which the scan from [p] meets them. *)
Fixpoint after (p : Z) (l : list Z) : list Z :=
  match l with [] => [] | x :: l' => if x =? p then l' else after p l' end.
Fixpoint before (p : Z) (l : list Z) : list Z :=
  match l with [] => [] | x :: l' => if x =? p then [] else x :: before p l' end.
Definition others (p : Z) (l : list Z) : list Z := after p l ++ before p l.

Lemma others_split p l1 l2 : p ∉ l1 -> others p (l1 ++ p :: l2) = l2 ++ l1.
Proof.
  intros Hp. unfold others.
  assert (H : after p (l1 ++ p :: l2) = l2 /\ before p (l1 ++ p :: l2) = l1).
  { induction l1 as [|x l1 IH]; cbn.
    - by rewrite Z.eqb_refl.
    - destruct (Z.eqb_spec x p) as [->|]; [set_solver|].
      destruct IH as [E1 E2]; [set_solver|]. by rewrite E1, E2. }
  destruct H as [-> ->]. done.
Qed.

Definition departed (t : task) : bool :=
  bool_decide (t_state t = EXITED) || bool_decide (t_state t = SLEEPING).

(** The task that priority [i] offers. *)
Definition candidate (f : gmap Z (list Z)) (s : kst) (ct : task) (i : Z) : option Z :=
  match f !! queue_head i with
  | None => None
  | Some q =>
      if bool_decide (q = []) then None
      else if negb (i =? t_priority ct) then first_ready s q
      else if departed ct then (if next_task s =? NULL then None else Some (next_task s))
      else first_ready s (others (current_task s) q)
  end.

(** The offer of the first priority that has one, from [i] on. *)
Fixpoint pick_from (f : gmap Z (list Z)) (s : kst) (ct : task) (n : nat) (i : Z) : option (Z * Z) :=
  match n with
  | O => None
  | S n' => match candidate f s ct i with
            | Some p => Some (i, p)
            | None => pick_from f s ct n' (i + 1)
            end
  end.
Definition pick_spec (f : gmap Z (list Z)) (s : kst) (ct : task) : option (Z * Z) :=
  pick_from f s ct 8 0.

(** The running task is in its queue, or has left it and [next_task] is its
    successor there. *)
Definition cur_ok (f : gmap Z (list Z)) (s : kst) (ct : task) : Prop :=
  tasks s !! current_task s = Some ct /\ 0 <= t_priority ct < 8 /\
  exists q, f !! queue_head (t_priority ct) = Some q /\
    if departed ct then next_task s = NULL \/ next_task s ∈ q else current_task s ∈ q.

(** The state after the loop: [next_task] is consumed when it was the offer. *)
Definition pick_state (s : kst) (ct : task) (r : option (Z * Z)) : kst :=
  match r with
  | Some (i, _) => if departed ct && (i =? t_priority ct) then set_next_task NULL s else s
  | None => s
  end.

Section Pick.
Context (f : gmap Z (list Z)) (s : kst) (Hinv : sched_inv f s).
Context (ct : task) (Hcur : cur_ok f s ct).

Lemma opt_ptr_null l i q :
  0 <= i < 8 -> f !! queue_head i = Some q -> (forall a, a ∈ l -> a ∈ q) ->
  (opt_ptr (first_ready s l) =? NULL) = bool_decide (first_ready s l = None).
Proof.
  intros Hi Hq Hsub. destruct (first_ready s l) as [p|] eqn:E; [|done].
  apply first_ready_elem in E as [Hp _]. cbn.
  destruct (inv_task_ptr f s Hinv i q p) as [Hp0 _]; [done|done|auto|].
  by destruct (Z.eqb_spec p NULL).
Qed.

(** One turn offers what [candidate] says. *)
Lemma wp_pick_body i (Q : Z + option Z -> kst -> Prop) :
  0 <= i < 8 ->
  match candidate f s ct i with
  | Some p => Q (inr (Some p)) (pick_state s ct (Some (i, p)))
  | None => Q (inl (i + 1)) s
  end ->
  wp (pick_body i) Q s.
Proof.
  intros Hi HQ. destruct Hcur as (Hct & Hpr & qc & Hqc & Hwhere).
  unfold pick_body. destruct (Z.leb_spec MAX_PRIORITY i); [unfold MAX_PRIORITY in *; lia|].
  destruct (si_queue _ _ Hinv i Hi) as [q Hq]. unfold candidate in HQ. rewrite Hq in HQ.
  wp_simpl. unfold on_bitmap. rewrite wp_zoom. apply wp_test_bit.
  { unfold in_bits. rewrite (si_words _ _ Hinv). lia. }
  replace (set_task_bitmap (task_bitmap s) s) with s by (by destruct s).
  rewrite (si_bits _ _ Hinv i q) by done.
  destruct (decide (q = [])) as [->|Hne]; [by wp_simpl|].
  rewrite bool_decide_true by done. rewrite bool_decide_false in HQ by done.
  cbn [Z.b2z]. change (1 =? 0) with false. cbv iota. wp_simpl.
  eapply wp_rd_task; [exact Hct|]. rewrite s32_small by lia.
  fold (departed ct).
  destruct (Z.eqb_spec i (t_priority ct)) as [->|Hnei]; cbn [negb] in *.
  - rewrite Hq in Hqc. injection Hqc as <-. destruct (departed ct) eqn:Edep.
    + wp_simpl. destruct (Z.eqb_spec (next_task s) NULL); cbn [negb]; wp_simpl; [done|].
      unfold pick_state in HQ. rewrite Edep, Z.eqb_refl in HQ. exact HQ.
    + wp_simpl. pose proof Hwhere as Hin. apply list_elem_of_split in Hin as (l1 & l2 & ->).
      eapply wp_find_from_task; [exact Hinv|done|exact Hq|].
      assert (Hnl1 : current_task s ∉ l1).
      { destruct (lists_ring _ _ (si_lists _ _ Hinv) _ _ Hq) as [Hnd _].
        apply NoDup_insert_mid in Hnd as [Hnd _]. set_solver. }
      rewrite others_split in HQ by done.
      rewrite (opt_ptr_null _ (t_priority ct) (l1 ++ current_task s :: l2)) by (done || set_solver).
      destruct (first_ready s (l2 ++ l1)) as [p|] eqn:E.
      * rewrite bool_decide_false by done. wp_simpl. unfold pick_state in HQ. by rewrite Edep in HQ.
      * rewrite bool_decide_true by done. by wp_simpl.
  - wp_simpl. eapply wp_find_from_head; [exact Hinv|done|exact Hq|].
    rewrite (opt_ptr_null _ i q) by done. destruct (first_ready s q) as [p|] eqn:E.
    + rewrite bool_decide_false by done. wp_simpl. unfold pick_state in HQ.
      apply Z.eqb_neq in Hnei. by rewrite Hnei, andb_false_r in HQ.
    + rewrite bool_decide_true by done. by wp_simpl.
Qed.

Lemma wp_pick_from n i (Q : option Z -> kst -> Prop) :
  0 <= i -> i + Z.of_nat n = 8 ->
  Q (snd <$> pick_from f s ct n i) (pick_state s ct (pick_from f s ct n i)) ->
  wp (loop (S n) pick_body i) Q s.
Proof.
  revert i. induction n as [|n IH]; intros i Hi Hn HQ.
  - cbn [loop]. rewrite wp_bind. unfold pick_body.
    destruct (Z.leb_spec MAX_PRIORITY i); [|unfold MAX_PRIORITY in *; lia]. by wp_simpl.
  - change (loop (S (S n)) pick_body i) with
      (r <- pick_body i ;; match r with inl a' => loop (S n) pick_body a' | inr b => ret b end).
    rewrite wp_bind. apply wp_pick_body; [lia|]. cbn [pick_from] in HQ.
    destruct (candidate f s ct i) as [p|] eqn:E; [by wp_simpl|]. apply IH; [lia|lia|done].
Qed.

Lemma pick_from_some n i j p :
  pick_from f s ct n i = Some (j, p) ->
  i <= j < i + Z.of_nat n /\ candidate f s ct j = Some p /\
  forall k, i <= k < j -> candidate f s ct k = None.
Proof.
  revert i. induction n as [|n IH]; intros i; cbn [pick_from]; [done|].
  destruct (candidate f s ct i) as [p'|] eqn:E.
  - intros [= <- <-]. split_and!; [lia|lia|done|]. intros k Hk. lia.
  - intros H%IH. destruct H as (H1 & H2 & H3). split_and!; [lia|lia|done|].
    intros k Hk. destruct (decide (k = i)) as [->|]; [done|]. apply H3. lia.
Qed.

Lemma pick_from_none n i k :
  pick_from f s ct n i = None -> i <= k < i + Z.of_nat n -> candidate f s ct k = None.
Proof.
  revert i. induction n as [|n IH]; intros i; cbn [pick_from]; [lia|].
  destruct (candidate f s ct i) as [p'|] eqn:E; [done|]. intros H Hk.
  destruct (decide (k = i)) as [->|]; [done|]. apply (IH (i + 1)); [done|lia].
Qed.

(** What is offered is a task of that queue. *)
Lemma candidate_elem i p :
  0 <= i < 8 -> candidate f s ct i = Some p ->
  exists q, f !! queue_head i = Some q /\ p ∈ q.
Proof.
  intros Hi. unfold candidate. destruct (f !! queue_head i) as [q|] eqn:Hq; [|done].
  destruct Hcur as (_ & _ & qc & Hqc & Hwhere).
  case_bool_decide; [done|]. destruct (Z.eqb_spec i (t_priority ct)) as [->|]; cbn.
  - rewrite Hq in Hqc. injection Hqc as <-. destruct (departed ct).
    + destruct (Z.eqb_spec (next_task s) NULL); [done|]. intros [= <-].
      exists q. split; [done|]. tauto.
    + intros [Hp _]%first_ready_elem. exists q. split; [done|].
      apply list_elem_of_split in Hwhere as (l1 & l2 & ->).
      rewrite others_split in Hp; [set_solver|].
      destruct (lists_ring _ _ (si_lists _ _ Hinv) _ _ Hq) as [Hnd _].
      apply NoDup_insert_mid in Hnd as [Hnd _]. set_solver.
  - intros [Hp _]%first_ready_elem. eauto.
Qed.

(** The state in which the picked task [p] runs. *)
Definition switch_to (s : kst) (p : Z) (t : task) : kst :=
  set_current_task p (set_tasks (<[p := with_state RUNNING t]> (tasks s)) s).

Lemma wp_pick_next_task (Q : Z -> kst -> Prop) :
  match pick_spec f s ct with
  | None => Q NULL s
  | Some (i, p) => forall t, tasks s !! p = Some t -> t_priority t = i ->
      Q p (switch_to (pick_state s ct (Some (i, p))) p t)
  end ->
  wp sched_fifo_pick_next_task Q s.
Proof.
  intros HQ. unfold sched_fifo_pick_next_task, pick_loop. rewrite wp_bind.
  apply wp_pick_from; [lia|done|]. unfold pick_spec in HQ.
  destruct (pick_from f s ct 8 0) as [[i p]|] eqn:E; cbn [fmap option_fmap option_map snd]; [|done].
  apply pick_from_some in E as (Hi & Hc & _).
  destruct (candidate_elem i p) as (q & Hq & Hp); [lia|done|].
  destruct (si_task _ _ Hinv i q p) as (t & Ht & Hpr); [lia|done|done|].
  rewrite wp_bind. unfold set_task_state.
  assert (Htasks : tasks (pick_state s ct (Some (i, p))) = tasks s)
    by (unfold pick_state; by destruct (departed ct && (i =? t_priority ct))).
  eapply wp_wr_task; [by rewrite Htasks|]. wp_simpl. rewrite Htasks.
  specialize (HQ t Ht Hpr). unfold switch_to in HQ. by rewrite Htasks in HQ.
Qed.

End Pick.

(** ** Initialisation *)

(** Any set of eight allocated and otherwise unused list heads becomes eight
    empty queues. *)
Lemma wp_sched_fifo_init s (Q : unit -> kst -> Prop) :
  (forall i, 0 <= i < 8 -> node (links s) (queue_head i)) ->
  tasks s !! NULL = None -> task_bitmap s = [0] ->
  (forall h' f', sched_inv f' (set_links h' s) ->
     (forall i, 0 <= i < 8 -> f' !! queue_head i = Some []) ->
     same_out (queue_head <$> seqZ 0 8) (links s) h' -> Q tt (set_links h' s)) ->
  wp sched_fifo_init Q s.
Proof.
  intros Hnode Hnull Hbm HQ. unfold sched_fifo_init.
  apply (wp_loop_idx _ (fun n i s' => 0 <= i <= 8 /\ n = Z.to_nat (8 - i) /\
      exists h' f', s' = set_links h' s /\ lists h' f' /\
        same_out (queue_head <$> seqZ 0 8) (links s) h' /\
        (forall j l, f' !! j = Some l -> exists k, 0 <= k < i /\ j = queue_head k) /\
        (forall k, 0 <= k < i -> f' !! queue_head k = Some []))) with (n := 8%nat).
  - intros n i s' (Hi & -> & h' & f' & -> & Hl & Hs & Hdom & Hq).
    destruct (Z.ltb_spec i MAX_PRIORITY); unfold MAX_PRIORITY in *.
    + wp_simpl. apply wp_on_links. cbn [links set_links].
      eapply fam_INIT_LIST_HEAD; [exact Hl| |].
      { split; [apply (same_out_node _ _ _ _ Hs), Hnode; lia|].
        intros hd l Hf. destruct (Hdom _ _ Hf) as (k & Hk & ->).
        rewrite Hq in Hf by done. injection Hf as <-.
        intros E%list_elem_of_singleton%queue_head_inj. lia. }
      intros h2 Hl2 Hs2. wp_simpl. exists (Z.to_nat (8 - (i + 1))). split; [lia|].
      split; [lia|]. split; [done|]. exists h2, (<[queue_head i := []]> f'). split_and!.
      * by destruct s.
      * done.
      * eapply same_out_trans; [exact Hs|]. eapply same_out_weaken; [|exact Hs2].
        intros a ->%list_elem_of_singleton. apply list_elem_of_fmap. exists i.
        split; [done|]. apply elem_of_seqZ. lia.
      * intros j l. rewrite lookup_insert. case_decide as E.
        -- intros _. exists i. split; [lia|done].
        -- intros Hf. destruct (Hdom _ _ Hf) as (k & Hk & ->). exists k. split; [lia|done].
      * intros k Hk. rewrite lookup_insert. case_decide as E; [done|].
        apply Hq. assert (k <> i) by (intros ->; done). lia.
    + wp_simpl. assert (i = 8) as -> by lia. apply HQ with (f' := f'); [|done|done].
      split; cbn; [done| | |done|by rewrite Hbm|].
      * intros j Hj. rewrite Hq by lia. eauto.
      * intros j q p Hj. rewrite Hq by lia. intros [= <-]. set_solver.
      * intros j q Hj. rewrite Hq by lia. intros [= <-]. rewrite Hbm.
        rewrite bool_decide_false by tauto. unfold bit_at.
        replace (j / 32) with 0 by (symmetry; apply Z.div_small; lia). cbn. apply Z.bits_0.
  - split; [lia|]. split; [done|]. exists (links s), ∅. split_and!.
    + by destruct s.
    + split; intros *; rewrite lookup_empty; done.
    + apply same_out_refl.
    + intros j l. by rewrite lookup_empty.
    + intros k Hk. lia.
  - lia.
Qed.
End Sched.

(** The invariant on concrete states, decided. *)
Definition sched_inv_b (all_task : Z) (fl : list (Z * list Z)) (s : kst) : bool :=
  let f : gmap Z (list Z) := list_to_map fl in
  lists_b (links s) fl &&
  forallb (fun i => match f !! queue_head all_task i with
    | None => false
    | Some q =>
        forallb (fun p => match tasks s !! p with
                          | Some t => t_priority t =? i | None => false end) q &&
        eqb (bit_at (task_bitmap s) i) (bool_decide (q <> []))
    end) (seqZ 0 8) &&
  bool_decide (tasks s !! NULL = None) &&
  bool_decide (length (task_bitmap s) = 1%nat).

Lemma sched_inv_b_sound all_task fl s :
  sched_inv_b all_task fl s = true -> sched_inv all_task (list_to_map fl) s.
Proof.
  unfold sched_inv_b. rewrite !andb_true_iff, !bool_decide_eq_true, forallb_forall.
  intros [[[Hl Hall] Hnull] Hlen].
  assert (Hi : forall i, 0 <= i < 8 -> exists q,
    (list_to_map fl : gmap Z (list Z)) !! queue_head all_task i = Some q /\
    (forall p, p ∈ q -> exists t, tasks s !! p = Some t /\ t_priority t = i) /\
    bit_at (task_bitmap s) i = bool_decide (q <> [])).
  { intros i Hi. specialize (Hall i). cbv beta in Hall.
    destruct (list_to_map fl !! queue_head all_task i) as [q|] eqn:E.
    - assert (Hin : In i (seqZ 0 8)) by (apply list_elem_of_In, elem_of_seqZ; lia).
      apply Hall, andb_true_iff in Hin as [Ht Hb].
      exists q. split; [done|]. split; [|by apply eqb_prop].
      intros p Hp%list_elem_of_In. rewrite forallb_forall in Ht. specialize (Ht p Hp).
      cbv beta in Ht. destruct (tasks s !! p) as [t|]; [|done]. exists t. split; [done|lia].
    - assert (false = true) by (apply Hall, list_elem_of_In, elem_of_seqZ; lia). done. }
  split; [by apply lists_b_sound| | |done|done|].
  - intros i Hr. destruct (Hi i Hr) as (q & -> & _). eauto.
  - intros i q p Hr Hq. destruct (Hi i Hr) as (q' & Hq' & Ht & _). rewrite Hq in Hq'.
    injection Hq' as <-. auto.
  - intros i q Hr Hq. destruct (Hi i Hr) as (q' & Hq' & _ & Hb). rewrite Hq in Hq'.
    by injection Hq' as <-.
Qed.

(** ** A concrete system, for the examples: two tasks of priority 5 and the
    [init] task of priority 7, enqueued by the scheduler itself. *)
Definition demo_task (prio : Z) (st : task_state) : task :=
  mk_task 0 prio st 0 0 0 0 0 0 0 [].

Definition demo_nodes (l : list Z) : gmap Z Z := list_to_map ((fun a => (a, 0)) <$> l).

Definition demo_boot : kst :=
  let nodes := demo_nodes ([2000; 2100; 2200] ++ (queue_head 1000 <$> seqZ 0 8)) in
  mk_kst (mk_lheap nodes nodes)
    (list_to_map [(2000, demo_task 5 RUNNING); (2100, demo_task 5 READY);
                  (2200, demo_task 7 CREATING)])
    [0] 2000 NULL 0 true ∅ 0 true ∅ ∅ ∅ ∅ 0 [] no_mm ∅ ∅ 0.

Definition run {A} (m : M kst A) (s : kst) : kst :=
  match m s with Ok (_, s') => s' | Err _ => s end.

Definition demo_sched : kst :=
  run (sched_fifo_init 1000 ;;; sched_fifo_enqueue_task 1000 2000 ;;;
       sched_fifo_enqueue_task 1000 2100 ;;; sched_fifo_enqueue_task 1000 2200) demo_boot.

Definition demo_queues : list (Z * list Z) :=
  (fun i => (queue_head 1000 i,
             if i =? 5 then [2000; 2100] else if i =? 7 then [2200] else [])) <$> seqZ 0 8.

Lemma demo_sched_inv : sched_inv 1000 (list_to_map demo_queues) demo_sched.
Proof. apply sched_inv_b_sound. vm_compute. reflexivity. Qed.

Lemma demo_sched_cur : cur_ok 1000 (list_to_map demo_queues) demo_sched (demo_task 5 RUNNING).
Proof.
  split; [vm_compute; reflexivity|]. split; [cbn; lia|].
  exists [2000; 2100]. split; [vm_compute; reflexivity|].
  change (2000 ∈ [2000; 2100]). set_solver.
Qed.

(** ** Properties *)

(** [C1] Picking the next task always returns, keeps the invariant, and
    respects priorities: either it returns [NULL], the state is unchanged and
    no queue other than the running task's holds a task that is not blocked;
    or it returns a task of some queue [i], which is now current and
    [RUNNING], and in every queue of a higher priority (a smaller index),
    except the running task's own, all tasks are blocked. *)
Theorem pick_highest_priority all_task f s ct :
  sched_inv all_task f s -> cur_ok all_task f s ct ->
  exists r s', sched_fifo_pick_next_task all_task s = Ok (r, s') /\
    sched_inv all_task f s' /\
    ((r = NULL /\ s' = s /\ forall i q p, 0 <= i < 8 -> i <> t_priority ct ->
        f !! queue_head all_task i = Some q -> p ∈ q -> not_blocked s p = false) \/
     (r <> NULL /\ current_task s' = r /\
      exists i q t, 0 <= i < 8 /\ f !! queue_head all_task i = Some q /\ r ∈ q /\
        tasks s' !! r = Some t /\ t_state t = RUNNING /\ t_priority t = i /\
        forall j qj p, 0 <= j < i -> j <> t_priority ct ->
          f !! queue_head all_task j = Some qj -> p ∈ qj -> not_blocked s p = false)).
Proof.
  intros Hinv Hcur. apply wp_elim. apply (wp_pick_next_task all_task f s Hinv ct Hcur).
  assert (Hcand : forall j q p, candidate all_task f s ct j = None -> j <> t_priority ct ->
            f !! queue_head all_task j = Some q -> p ∈ q -> not_blocked s p = false).
  { intros j q p. unfold candidate. intros H Hj Hq Hp. rewrite Hq in H.
    case_bool_decide; [set_solver|]. apply Z.eqb_neq in Hj. rewrite Hj in H. cbn in H.
    by apply first_ready_none with (p := p) in H. }
  unfold pick_spec. destruct (pick_from all_task f s ct 8 0) as [[i p]|] eqn:E.
  - intros t Ht Hpr. apply pick_from_some in E as (Hi & Hc & Hlow).
    destruct (candidate_elem all_task f s Hinv ct Hcur i p) as (q & Hq & Hp); [lia|done|].
    assert (Htasks : tasks (pick_state s ct (Some (i, p))) = tasks s)
      by (unfold pick_state; by destruct (departed ct && (i =? t_priority ct))).
    split; [|right; split].
    + eapply sched_inv_ext; [exact Hinv| | |].
      1,2: cbn; by destruct (departed ct && (i =? t_priority ct)).
      cbn [switch_to tasks set_current_task set_tasks]. rewrite Htasks.
      by apply (priority_insert _ p t).
    + intros ->. by rewrite (si_null _ _ _ Hinv) in Ht.
    + split; [done|]. exists i, q, (with_state RUNNING t). split_and!; try done; try lia.
      * cbn. by rewrite lookup_insert_eq.
      * intros j qj p0 Hj Hne Hqj Hp0. apply (Hcand j qj p0); [apply Hlow; lia|done|done|done].
  - split; [done|]. left. split; [done|]. split; [done|].
    intros i q p Hi. apply Hcand. eapply pick_from_none; [exact E|lia].
Qed.

Lemma pick_highest_priority_witness :
  exists r s', sched_fifo_pick_next_task 1000 demo_sched = Ok (r, s') /\ r = 2100.
Proof.
  destruct (pick_highest_priority 1000 _ _ _ demo_sched_inv demo_sched_cur) as (r & s' & H & _).
  exists r, s'. split; [exact H|]. vm_compute in H. congruence.
Defined.

(** Every task of the queues of higher priority than [i] is blocked. *)
Definition blocked_above (all_task : Z) (f : gmap Z (list Z)) (s : kst) (i : Z) : Prop :=
  forall j q p, 0 <= j < i -> f !! queue_head all_task j = Some q -> p ∈ q ->
    not_blocked s p = false.

(** With nothing to run above, the first offer from the running task's own
    priority on decides. *)
Lemma pick_from_skip all_task f s ct n i j :
  (forall k, i <= k < j -> candidate all_task f s ct k = None) ->
  0 <= j - i < Z.of_nat n ->
  pick_from all_task f s ct n i = pick_from all_task f s ct (n - Z.to_nat (j - i)) j.
Proof.
  revert i. induction n as [|n IH]; intros i Hnone Hr; [lia|].
  destruct (decide (i = j)) as [->|].
  - replace (S n - Z.to_nat (j - j))%nat with (S n) by lia. done.
  - cbn [pick_from]. rewrite Hnone by lia. rewrite IH; [|intros k Hk; apply Hnone; lia|lia].
    f_equal. lia.
Qed.

Lemma candidate_blocked_above all_task f s ct k :
  blocked_above all_task f s (t_priority ct) -> 0 <= k < t_priority ct ->
  candidate all_task f s ct k = None.
Proof.
  intros Hb Hk. unfold candidate. destruct (f !! queue_head all_task k) as [q|] eqn:Hq; [|done].
  case_bool_decide; [done|]. destruct (Z.eqb_spec k (t_priority ct)); [lia|]. cbn.
  apply first_ready_none. intros p Hp. by eapply Hb.
Qed.

Lemma candidate_own all_task f s ct l1 l2 :
  sched_inv all_task f s -> departed ct = false ->
  f !! queue_head all_task (t_priority ct) = Some (l1 ++ current_task s :: l2) ->
  candidate all_task f s ct (t_priority ct) = first_ready s (l2 ++ l1).
Proof.
  intros Hinv Hd Hq. unfold candidate. rewrite Hq, bool_decide_false by (by destruct l1).
  rewrite Z.eqb_refl, Hd. cbn. rewrite others_split; [done|].
  destruct (lists_ring _ _ (si_lists _ _ _ Hinv) _ _ Hq) as [Hnd _].
  apply NoDup_insert_mid in Hnd as [Hnd _]. set_solver.
Qed.



(** The scheduler is not strictly priority driven: a [RUNNING] task that is
    the only one able to run at its priority loses the processor to a task of a
    lower priority, because the scan of its own queue never considers the task
    itself. *)
Theorem pick_prefers_lower_priority all_task f s ct l1 l2 k q :
  sched_inv all_task f s -> cur_ok all_task f s ct -> t_state ct = RUNNING ->
  f !! queue_head all_task (t_priority ct) = Some (l1 ++ current_task s :: l2) ->
  blocked_above all_task f s (t_priority ct) ->
  (forall p, p ∈ l2 ++ l1 -> not_blocked s p = false) ->
  t_priority ct < k < 8 -> f !! queue_head all_task k = Some q ->
  (exists p, p ∈ q /\ not_blocked s p = true) ->
  exists r s' t, sched_fifo_pick_next_task all_task s = Ok (r, s') /\
    tasks s' !! r = Some t /\ t_priority ct < t_priority t.
Proof.
  intros Hinv Hcur Hrun Hq Hab Hown Hk Hqk (p & Hp & Hpr).
  assert (Hr : 0 <= t_priority ct < 8) by (destruct Hcur as (_ & H & _); exact H).
  assert (Hdep : departed ct = false) by (unfold departed; by rewrite Hrun).
  assert (Hown' : candidate all_task f s ct (t_priority ct) = None).
  { rewrite (candidate_own _ _ _ _ l1 l2) by done. by apply first_ready_none. }
  assert (Hlow : exists i r, pick_spec all_task f s ct = Some (i, r) /\ t_priority ct < i).
  { destruct (pick_spec all_task f s ct) as [[i r]|] eqn:E; unfold pick_spec in E.
    - exists i, r. split; [done|]. apply pick_from_some in E as (Hi & Hc & _).
      destruct (Z.lt_trichotomy i (t_priority ct)) as [H|[H|H]]; [| |done].
      + by rewrite candidate_blocked_above in Hc by (done || lia).
      + subst i. congruence.
    - exfalso. pose proof (pick_from_none _ _ _ _ 8 0 k E ltac:(lia)) as Hn.
      unfold candidate in Hn. rewrite Hqk in Hn. rewrite bool_decide_false in Hn by (intros ->; set_solver).
      destruct (Z.eqb_spec k (t_priority ct)); [lia|]. cbn in Hn.
      rewrite first_ready_none in Hn. rewrite Hn in Hpr; done. }
  destruct Hlow as (i & r & Hpick & Hlt).
  destruct (wp_elim (sched_fifo_pick_next_task all_task) (fun r s' => exists t,
     tasks s' !! r = Some t /\ t_priority ct < t_priority t) s) as (r' & s' & H1 & t & H2 & H3).
  - apply (wp_pick_next_task all_task f s Hinv ct Hcur). rewrite Hpick.
    intros t Ht Hpt. exists (with_state RUNNING t). split; [|cbn; lia].
    cbn. by rewrite lookup_insert_eq.
  - exists r', s', t. done.
Qed.

Lemma pick_prefers_lower_priority_witness :
  exists r s' t,
    sched_fifo_pick_next_task 1000 (run (set_task_state 2100 BLOCKED) demo_sched) = Ok (r, s') /\
    tasks s' !! r = Some t /\ 5 < t_priority t.
Proof.
  apply (pick_prefers_lower_priority 1000 (list_to_map demo_queues)
    (run (set_task_state 2100 BLOCKED) demo_sched) (demo_task 5 RUNNING) [] [2100] 7 [2200]).
  - apply sched_inv_b_sound. vm_compute. reflexivity.
  - split; [vm_compute; reflexivity|]. split; [cbn; lia|].
    exists [2000; 2100]. split; [vm_compute; reflexivity|].
    change (2000 ∈ [2000; 2100]). set_solver.
  - reflexivity.
  - vm_compute. reflexivity.
  - intros j q p Hj Hq Hp. cbn in Hj.
    assert (j = 0 \/ j = 1 \/ j = 2 \/ j = 3 \/ j = 4) as Hcase by lia.
    destruct Hcase as [E|[E|[E|[E|E]]]]; subst j; vm_compute in Hq;
      injection Hq as <-; apply elem_of_nil in Hp; destruct Hp.
  - intros p Hp. apply list_elem_of_singleton in Hp as ->. vm_compute. reflexivity.
  - cbn. lia.
  - vm_compute. reflexivity.
  - exists 2200. split; [set_solver|vm_compute; reflexivity].
Defined.

(** Enqueueing a task puts it at the end of the queue of its priority,
    dequeueing it again gives back the same queues, bitmap meaning and tasks,
    and leaves in [next_task] the first task of the rest of its queue that is
    not blocked ([NULL] if there is none). *)
Theorem enqueue_dequeue_roundtrip all_task f s p t q :
  sched_inv all_task f s -> tasks s !! p = Some t -> 0 <= t_priority t < 8 ->
  f !! queue_head all_task (t_priority t) = Some q -> loose (links s) f p ->
  exists s1 s2,
    sched_fifo_enqueue_task all_task p s = Ok (tt, s1) /\
    sched_inv all_task (<[queue_head all_task (t_priority t) := q ++ [p]]> f) s1 /\
    sched_fifo_dequeue_task all_task p s1 = Ok (tt, s2) /\
    sched_inv all_task f s2 /\ loose (links s2) f p /\ tasks s2 = tasks s /\
    next_task s2 = opt_ptr (first_ready s q).
Proof.
  intros Hinv Ht Hpr Hq Hl.
  set (hd := queue_head all_task (t_priority t)) in *.
  destruct (wp_elim (sched_fifo_enqueue_task all_task p) (fun _ s1 =>
     sched_inv all_task (<[hd := q ++ [p]]> f) s1 /\ tasks s1 = tasks s) s)
    as ([] & s1 & E1 & Hinv1 & Ht1).
  { eapply wp_enqueue; [exact Hinv|exact Ht|exact Hpr|exact Hq|exact Hl|]. done. }
  assert (Hfr : forall l, first_ready s1 l = first_ready s l).
  { intros l. induction l as [|x l IH]; cbn; [done|]. unfold not_blocked. by rewrite Ht1, IH. }
  destruct (wp_elim (sched_fifo_dequeue_task all_task p) (fun _ s2 =>
     sched_inv all_task f s2 /\ loose (links s2) f p /\ tasks s2 = tasks s /\
     next_task s2 = opt_ptr (first_ready s q)) s1) as ([] & s2 & E2 & H).
  { eapply (wp_dequeue all_task _ s1 Hinv1 p t q []); [by rewrite Ht1|exact Hpr| |].
    - fold hd. by rewrite lookup_insert_eq.
    - fold hd. rewrite app_nil_r, insert_insert_eq, insert_id by done.
      intros h' b' s' Hinv2 Hl2 _. split_and!; [done|done|done|].
      cbn. by rewrite Hfr. }
  exists s1, s2. tauto.
Qed.

Lemma enqueue_dequeue_roundtrip_witness :
  exists s1 s2, sched_fifo_enqueue_task 1000 2300 (set_tasks (<[2300 := demo_task 5 READY]> (tasks demo_sched))
      (set_links (mk_lheap (<[2300 := 0]> (nx (links demo_sched))) (<[2300 := 0]> (pv (links demo_sched))))
        demo_sched)) = Ok (tt, s1) /\
    sched_fifo_dequeue_task 1000 2300 s1 = Ok (tt, s2) /\ next_task s2 = 2000.
Proof.
  destruct (enqueue_dequeue_roundtrip 1000 (list_to_map demo_queues)
    (set_tasks (<[2300 := demo_task 5 READY]> (tasks demo_sched))
      (set_links (mk_lheap (<[2300 := 0]> (nx (links demo_sched))) (<[2300 := 0]> (pv (links demo_sched))))
        demo_sched)) 2300 (demo_task 5 READY) [2000; 2100]) as (s1 & s2 & E1 & _ & E2 & _ & _ & _ & E3).
  - apply sched_inv_b_sound. vm_compute. reflexivity.
  - reflexivity.
  - cbn. lia.
  - vm_compute. reflexivity.
  - split; [split; eexists; reflexivity|]. intros hd l Hl.
    apply elem_of_list_to_map_2 in Hl. unfold demo_queues in Hl.
    apply list_elem_of_fmap in Hl as (i & [= -> ->] & Hi%elem_of_seqZ).
    unfold queue_head. destruct (i =? 5); [|destruct (i =? 7)]; set_solver by lia.
  - exists s1, s2. split; [exact E1|]. split; [exact E2|]. rewrite E3. vm_compute. reflexivity.
Defined.
