(* ===== verification/Timer.v ===== *)
(** * kernel/timer.c: software timers

    The timers that are armed hang on the ring [timer_list], in the shared
    heap.  A timer's function is called through a parameter, because it is any
    code that some other component installed.  [timer_insert] says where
    [timer_list_add] puts a timer in the sequence. *)

From S2P Require Import Prelude KList KState Sched.

Inductive handler_return : Type := INT_NO_RESCHEDULE | INT_RESCHEDULE.
#[export] Instance handler_return_eq_dec : EqDecision handler_return.
Proof. solve_decision. Defined.

Definition rd_timer (p : Z) : M kst ktimer :=
  ts <- gets timers ;; lift_opt (bad_ptr p) (ts !! p).
Definition wr_timer (p : Z) (upd : ktimer -> ktimer) : M kst unit :=
  t <- rd_timer p ;; modify (fun s => set_timers (<[p := upd t]> (timers s)) s).

(** [current_time()] of the board *)
Definition current_time : M kst Z := gets ticks.

(** include/kernel/timer.h *)
Definition init_timer_value (t : Z) : M kst unit :=
  wr_timer t (fun _ => mk_ktimer 0 0 TF_NULL NULL) ;;;
  on_links (INIT_LIST_HEAD t).

Section Timer.
(** The address of [struct list_head timer_list]. *)
Context (timer_list : Z).

Definition timer_list_add (timer : Z) : M kst unit :=
  e <- on_links (list_empty timer_list) ;;
  if (e : bool) then on_links (list_add timer timer_list) else
  fuel <- gets (fun s => walk_fuel (links s)) ;;
  first <- on_links (rd_next timer_list) ;;
  found <- loop fuel (fun iterator =>
      if iterator =? timer_list then ret (inr false) else
      it <- rd_timer iterator ;;
      t <- rd_timer timer ;;
      if expired_time it <? expired_time t
      then on_links (list_add timer iterator) ;;; ret (inr true)
      else n <- on_links (rd_next iterator) ;; ret (inl n)) first ;;
  if (found : bool) then ret tt else on_links (list_add_tail timer timer_list).

(** The [error] of a timer that looks armed already only prints. *)
Definition timer_add (timer delay_time period : Z) (fn : timer_function) (a : Z) : M kst unit :=
  on_links (list_empty timer) ;;;
  now <- current_time ;;
  wr_timer timer (fun _ => mk_ktimer (u32 (now + delay_time)) period fn a) ;;;
  enter_critical_section ;;;
  timer_list_add timer ;;;
  exit_critical_section.

Definition oneshot_timer_add (timer delay : Z) (fn : timer_function) (a : Z) : M kst unit :=
  let delay := if 0 =? delay then 1 else delay in
  timer_add timer delay 0 fn a.

Definition periodic_timer_add (timer period : Z) (fn : timer_function) (a : Z) : M kst unit :=
  let period := if 0 =? period then 1 else period in
  timer_add timer period period fn a.

Definition timer_delete (timer : Z) : M kst unit :=
  enter_critical_section ;;;
  e <- on_links (list_empty timer) ;;
  (if negb e then on_links (list_del_init timer) else ret tt) ;;;
  wr_timer timer (fun _ => mk_ktimer 0 0 TF_NULL NULL) ;;;
  exit_critical_section.

Section Tick.
(** [timer->function(timer, now, timer->arg)] *)
Context (call : timer_function -> Z -> Z -> Z -> M kst handler_return).

(** One turn of the [list_for_each_entry_safe] loop; [n] is the saved next. *)
Definition tick_body (now : Z) (pos : Z * Z) : M kst (Z * Z + handler_return) :=
  let '(timer, tmp) := pos in
  if timer =? timer_list then ret (inr INT_NO_RESCHEDULE) else
  t <- rd_timer timer ;;
  if 0 <? s32 (expired_time t - now) then ret (inr INT_NO_RESCHEDULE) else
  on_links (list_del timer) ;;;
  t1 <- rd_timer timer ;;
  r <- call (function t1) timer (u32 now) (arg t1) ;;
  if bool_decide (r = INT_RESCHEDULE) then ret (inr INT_RESCHEDULE) else
  (if negb (periodic_time t =? 0) then
     e <- on_links (list_empty timer) ;;
     if (e : bool) then
       wr_timer timer (fun t2 => mk_ktimer (u32 (now + periodic_time t)) (periodic_time t2)
                                   (function t2) (arg t2)) ;;;
       timer_list_add timer
     else ret tt
   else ret tt) ;;;
  n <- on_links (rd_next tmp) ;;
  ret (inl (tmp, n)).

Definition timer_tick (fuel : nat) (now : Z) : M kst handler_return :=
  first <- gets first_time ;;
  if (first : bool) then modify (set_first_time false) ;;; ret INT_RESCHEDULE else
  pos <- on_links (rd_next timer_list) ;;
  n <- on_links (rd_next pos) ;;
  loop fuel (tick_body now) (pos, n).
End Tick.

(** [INIT_LIST_HEAD(&timer_list)]; the rest of [timer_init] programs the board. *)
Definition timer_init : M kst unit := on_links (INIT_LIST_HEAD timer_list).

(** ** Insertion on sequences *)

Definition expiry (s : kst) (p : Z) : Z :=
  match timers s !! p with Some t => expired_time t | None => 0 end.

(** Directly behind the first timer that expires earlier; at the end if there
    is none. *)
Fixpoint timer_insert (s : kst) (t : Z) (l : list Z) : list Z :=
  match l with
  | [] => [t]
  | x :: l' => if expiry s x <? expiry s t then x :: t :: l' else x :: timer_insert s t l'
  end.

Lemma timer_insert_ext s s' t l :
  timers s' = timers s -> timer_insert s' t l = timer_insert s t l.
Proof.
  intros E. induction l as [|x l IH]; cbn; [done|]. unfold expiry. by rewrite E, IH.
Qed.

Lemma timer_insert_perm s t l : timer_insert s t l ≡ₚ t :: l.
Proof.
  induction l as [|x l IH]; cbn; [done|]. destruct (_ <? _); [by rewrite Permutation_swap|].
  rewrite IH. by rewrite Permutation_swap.
Qed.

(** The first timer expired earlier, if any, decides the place. *)
Lemma timer_insert_split s t l1 x l2 :
  (forall y, y ∈ l1 -> expiry s t <= expiry s y) -> expiry s x < expiry s t ->
  timer_insert s t (l1 ++ x :: l2) = l1 ++ x :: t :: l2.
Proof.
  induction l1 as [|y l1 IH]; intros H Hx; cbn.
  - by destruct (Z.ltb_spec (expiry s x) (expiry s t)); [|lia].
  - destruct (Z.ltb_spec (expiry s y) (expiry s t)).
    + pose proof (H y ltac:(set_solver)). lia.
    + rewrite IH; [done|set_solver|done].
Qed.

Lemma timer_insert_end s t l :
  (forall y, y ∈ l -> expiry s t <= expiry s y) -> timer_insert s t l = l ++ [t].
Proof.
  induction l as [|y l IH]; intros H; cbn; [done|].
  destruct (Z.ltb_spec (expiry s y) (expiry s t)).
  - pose proof (H y ltac:(set_solver)). lia.
  - rewrite IH; [done|set_solver].
Qed.

(** The timers on the ring are objects. *)
Definition timers_ok (f : gmap Z (list Z)) (s : kst) : Prop :=
  lists (links s) f /\
  exists l, f !! timer_list = Some l /\ forall p, p ∈ l -> is_Some (timers s !! p).

Lemma wp_rd_timer s p t (Q : ktimer -> kst -> Prop) :
  timers s !! p = Some t -> Q t s -> wp (rd_timer p) Q s.
Proof. intros H HQ. unfold rd_timer. wp_simpl. by rewrite H. Qed.

Lemma wp_wr_timer s p t upd (Q : unit -> kst -> Prop) :
  timers s !! p = Some t -> Q tt (set_timers (<[p := upd t]> (timers s)) s) ->
  wp (wr_timer p upd) Q s.
Proof. intros H HQ. unfold wr_timer. wp_simpl. eapply wp_rd_timer; [done|]. by wp_simpl. Qed.

Lemma expiry_lookup s p t : timers s !! p = Some t -> expiry s p = expired_time t.
Proof. unfold expiry. by intros ->. Qed.

Lemma set_links_same s : set_links (links s) s = s.
Proof. by destruct s. Qed.

Lemma wp_timer_list_add f s timer l (Q : unit -> kst -> Prop) :
  lists (links s) f -> f !! timer_list = Some l ->
  (forall p, p ∈ l -> is_Some (timers s !! p)) ->
  is_Some (timers s !! timer) -> loose (links s) f timer ->
  (forall h', lists h' (<[timer_list := timer_insert s timer l]> f) ->
     same_out (timer :: timer_list :: l) (links s) h' -> Q tt (set_links h' s)) ->
  wp (timer_list_add timer) Q s.
Proof.
  intros Hl Hf Ht [tt0 Htt] Hloose HQ. unfold timer_list_add. wp_simpl.
  apply wp_on_links. eapply fam_list_empty; [exact Hl|exact Hf|]. rewrite set_links_same.
  case_bool_decide as E.
  { subst l. apply wp_on_links. by eapply fam_list_add. }
  wp_simpl. apply wp_on_links.
  eapply wp_rd_next; [eapply dlist_first, lists_ring; [exact Hl|exact Hf]|].
  rewrite set_links_same, wp_bind.
  apply (wp_loop_idx _ (fun n it s' => s' = s /\ exists l1 l2, l = l1 ++ l2 /\ n = length l2 /\
      it = heado timer_list l2 /\ forall y, y ∈ l1 -> expiry s timer <= expiry s y))
    with (n := length l).
  - intros n it s' (-> & l1 & l2 & El & -> & -> & Hge).
    pose proof (lists_ring _ _ Hl _ _ Hf) as Hd. rewrite El in Hd.
    destruct l2 as [|x l2].
    + cbn. rewrite Z.eqb_refl. wp_simpl. apply wp_on_links.
      eapply fam_list_add_tail; [exact Hl|exact Hf|done|].
      rewrite app_nil_r in El. subst l1. rewrite timer_insert_end in HQ by done. exact HQ.
    + destruct (Z.eqb_spec (heado timer_list (x :: l2)) timer_list) as [Eh|Eh].
      { apply (dlist_cursor _ _ _ _ Hd) in Eh. done. }
      change (heado timer_list (x :: l2)) with x. wp_simpl.
      destruct (Ht x) as [tx Htx]; [rewrite El; set_solver|].
      eapply wp_rd_timer; [exact Htx|]. wp_simpl. eapply wp_rd_timer; [exact Htt|].
      rewrite <- (expiry_lookup s x tx Htx), <- (expiry_lookup s timer tt0 Htt).
      destruct (Z.ltb_spec (expiry s x) (expiry s timer)) as [Hlt|Hle]; wp_simpl; apply wp_on_links.
      * rewrite El in Hf. eapply fam_list_add_after; [exact Hl|exact Hf|done|].
        intros h' Hh' Hs. wp_simpl. rewrite El in HQ.
        rewrite timer_insert_split in HQ by done. by apply HQ.
      * eapply wp_rd_next; [apply (dlist_links _ _ _ _ _ Hd)|]. wp_simpl.
        exists (length l2). split; [cbn; lia|]. rewrite set_links_same. split; [done|].
        exists (l1 ++ [x]), l2. rewrite <- app_assoc. split_and!; [done|done|done|].
        intros y [Hy|Hy%list_elem_of_singleton]%elem_of_app; [auto|by subst].
  - split; [done|]. exists [], l. split_and!; [done|done|done|set_solver].
  - pose proof (dlist_length _ _ _ (lists_ring _ _ Hl _ _ Hf)). unfold walk_fuel. lia.
Qed.

(** *** The tick *)

(** A call that refuses a timer whose time has not come. *)
Definition guarded (call : timer_function -> Z -> Z -> Z -> M kst handler_return) (now : Z)
    (fn : timer_function) (p n a : Z) : M kst handler_return :=
  t <- rd_timer p ;;
  if 0 <? s32 (expired_time t - now) then fail Halted else call fn p n a.

Lemma tick_body_guarded call now pos s :
  tick_body call now pos s = tick_body (guarded call now) now pos s.
Proof.
  destruct pos as [timer tmp]. unfold tick_body. destruct (timer =? timer_list); [done|].
  unfold bind at 1 7. unfold rd_timer at 1 3, gets, lift_opt, bind.
  destruct (timers s !! timer) as [t|] eqn:Ht; [|done]. cbn.
  destruct (0 <? s32 (expired_time t - now)) eqn:Hexp; [done|].
  unfold on_links, zoom. destruct (list_del timer (links s)) as [[[] h]|e]; [|done].
  unfold guarded, rd_timer, bind, gets, lift_opt, ret. cbn. rewrite Ht. cbn.
  rewrite ?Ht, ?Hexp. done.
Qed.

Section Fire.
Context (call : timer_function -> Z -> Z -> Z -> M kst handler_return).
(** Timer functions that leave the timers and the lists alone and do not ask
    for rescheduling: [eff p] is what the function of timer [p] does. *)
Context (eff : Z -> kst -> kst).
Context (Hcall : forall fn p n a s, call fn p n a s = Ok (INT_NO_RESCHEDULE, eff p s)).
Context (Heff_links : forall p h s, eff p (set_links h s) = set_links h (eff p s)).
Context (Heff_timers : forall p s, timers (eff p s) = timers s).

Definition due (s : kst) (now p : Z) : bool :=
  match timers s !! p with Some t => negb (0 <? s32 (expired_time t - now)) | None => false end.

Definition fire_all (l : list Z) (s : kst) : kst := foldl (fun s p => eff p s) s l.

Lemma fire_all_timers l s : timers (fire_all l s) = timers s.
Proof.
  unfold fire_all. revert s. induction l as [|p l IH]; intros s; cbn; [done|].
  by rewrite IH, Heff_timers.
Qed.

Lemma eff_links p s : links (eff p s) = links s.
Proof. rewrite <- (set_links_same s) at 1. by rewrite Heff_links. Qed.

Lemma wp_fire fuel now f s l1 l2 (Q : handler_return -> kst -> Prop) :
  lists (links s) f -> f !! timer_list = Some (l1 ++ l2) -> NULL ∉ l1 ->
  (forall p, p ∈ l1 ++ l2 -> is_Some (timers s !! p)) ->
  (forall p, p ∈ l1 -> due s now p = true) ->
  (forall p, head l2 = Some p -> due s now p = false) ->
  first_time s = false -> (length l1 < fuel)%nat ->
  (forall h', lists h' (<[timer_list := l2]> f) ->
     Q INT_NO_RESCHEDULE (set_links h' (fire_all l1 s))) ->
  wp (timer_tick call fuel now) Q s.
Proof.
  intros Hl Hf Hnull Ht Hdue Hnot Hft Hfuel HQ. unfold timer_tick. wp_simpl. rewrite Hft.
  pose proof (lists_ring _ _ Hl _ _ Hf) as Hd. wp_simpl. apply wp_on_links.
  eapply wp_rd_next; [by eapply dlist_first|]. rewrite set_links_same. wp_simpl.
  apply wp_on_links.
  assert (Hsome : is_Some (nx (links s) !! heado timer_list (l1 ++ l2)))
    by (eapply dlist_nx; [exact Hd|apply heado_elem]).
  destruct Hsome as [n Hn]. eapply wp_rd_next; [exact Hn|]. rewrite set_links_same.
  apply (wp_loop_idx _ (fun k pos s' => exists fired r h',
      l1 = fired ++ r /\ k = length r /\ s' = set_links h' (fire_all fired s) /\
      lists h' (<[timer_list := r ++ l2]> f) /\ fst pos = heado timer_list (r ++ l2) /\
      nx h' !! fst pos = Some (snd pos))) with (n := length l1).
  - clear Hn n. intros k [pos n] s' (fired & r & h' & El & -> & -> & Hl' & Ep & Hn).
    cbn [fst snd] in *. subst pos. unfold tick_body.
    pose proof (lists_ring _ _ Hl' timer_list (r ++ l2)) as Hd'.
    rewrite lookup_insert_eq in Hd'. specialize (Hd' eq_refl).
    destruct r as [|x r].
    + cbn [app] in *. destruct l2 as [|y l2].
      * cbn [heado head default]. cbn. rewrite Z.eqb_refl. wp_simpl.
        rewrite app_nil_r in El. subst fired. by apply HQ.
      * destruct (Z.eqb_spec (heado timer_list (y :: l2)) timer_list) as [E|_].
        { apply (dlist_cursor _ _ [] _ Hd') in E. done. }
        change (heado timer_list (y :: l2)) with y. wp_simpl.
        destruct (Ht y) as [ty Hty]; [set_solver|].
        eapply wp_rd_timer; [cbn [timers set_links]; rewrite fire_all_timers; done|].
        specialize (Hnot y eq_refl). unfold due in Hnot. rewrite Hty in Hnot.
        apply negb_false_iff in Hnot. rewrite Hnot. wp_simpl.
        rewrite app_nil_r in El. subst fired. by apply HQ.
    + destruct (Z.eqb_spec (heado timer_list ((x :: r) ++ l2)) timer_list) as [E|_].
      { apply (dlist_cursor _ _ [] _ Hd') in E. done. }
      change (heado timer_list ((x :: r) ++ l2)) with x in *. wp_simpl.
      destruct (Ht x) as [tx Htx]; [set_solver|].
      eapply wp_rd_timer; [cbn [timers set_links]; rewrite fire_all_timers; done|].
      assert (Hduex := Hdue x ltac:(set_solver)). unfold due in Hduex. rewrite Htx in Hduex.
      apply negb_true_iff in Hduex. rewrite Hduex. wp_simpl. apply wp_on_links. cbn [links set_links].
      eapply (fam_list_del h' _ Hl' timer_list []); [by rewrite lookup_insert_eq|].
      cbn [app]. rewrite insert_insert_eq. intros h2 Hl2 _ Hx0 _ Hs2. wp_simpl.
      eapply wp_rd_timer; [cbn [timers set_links]; rewrite fire_all_timers; done|]. wp_simpl.
      eapply wp_intro; [apply Hcall|]. cbv beta.
      rewrite bool_decide_false by done.
      assert (Hstep : forall s1, s1 = set_links h2 (fire_all (fired ++ [x]) s) ->
        wp (n0 <- on_links (rd_next n);; ret (inl (n, n0)))
          (fun (r0 : Z * Z + handler_return) s' => match r0 with
            | inl a' => exists n', (n' < length (x :: r))%nat /\ exists fired r h',
                l1 = fired ++ r /\ n' = length r /\ s' = set_links h' (fire_all fired s) /\
                lists h' (<[timer_list := r ++ l2]> f) /\ a'.1 = heado timer_list (r ++ l2) /\
                nx h' !! a'.1 = Some a'.2
            | inr b => Q b s' end) s1).
      { intros s1 ->. 
        destruct (dlist_links h' timer_list [] x (r ++ l2) Hd') as [Hnx _].
        rewrite Hn in Hnx. injection Hnx as ->.
        pose proof (lists_ring _ _ Hl2 timer_list (r ++ l2)) as Hd2.
        rewrite lookup_insert_eq in Hd2. specialize (Hd2 eq_refl).
        assert (is_Some (nx h2 !! heado timer_list (r ++ l2))) as [n2 Hn2]
          by (eapply dlist_nx; [exact Hd2|apply heado_elem]).
        rewrite wp_bind. apply wp_on_links. eapply wp_rd_next; [exact Hn2|]. rewrite wp_ret.
        exists (length r). split; [cbn; lia|].
        exists (fired ++ [x]), r, h2. rewrite <- app_assoc. done. }
      assert (Hstate : eff x (set_links h2 (set_links h' (fire_all fired s))) =
                       set_links h2 (fire_all (fired ++ [x]) s)).
      { unfold fire_all. rewrite foldl_app. cbn. rewrite !Heff_links. done. }
      rewrite Hstate, wp_bind. destruct (periodic_time tx =? 0); cbn [negb].
      { rewrite wp_ret. by apply Hstep. }
      rewrite wp_bind. apply wp_on_links. eapply wp_list_empty_deleted; [exact Hx0| |].
      * intros ->. apply Hnull. rewrite El. set_solver.
      * rewrite wp_ret. by apply Hstep.
  - exists [], l1, (links s). cbn [fst snd]. split_and!; [done|done|by rewrite set_links_same| |done|done].
    by rewrite insert_id.
  - done.
Qed.
End Fire.
End Timer.

(** A tick on a list whose first timer's function asks for rescheduling: when
    that timer is due the tick is the run of its function, on the state in which
    it is unlinked and everything behind it is still armed; otherwise it is
    nothing. *)
Lemma timer_tick_front timer_list call n now f s l :
  lists (links s) f -> f !! timer_list = Some l -> first_time s = false ->
  (forall p, p ∈ l -> exists t, timers s !! p = Some t /\
     forall s1 r s2, call (function t) p (u32 now) (arg t) s1 = Ok (r, s2) -> r = INT_RESCHEDULE) ->
  exists h', lists h' (<[timer_list := drop 1 l]> f) /\
    timer_tick timer_list call (S n) now s =
      match l with
      | x :: _ =>
          if due s now x then
            match timers s !! x with
            | Some t => call (function t) x (u32 now) (arg t) (set_links h' s)
            | None => Err (bad_ptr x)
            end
          else Ok (INT_NO_RESCHEDULE, s)
      | [] => Ok (INT_NO_RESCHEDULE, s)
      end.
Proof.
  intros Hl Hf Hft Ht. pose proof (lists_ring _ _ Hl _ _ Hf) as Hd.
  assert (Hdel : exists h', lists h' (<[timer_list := drop 1 l]> f) /\
    forall x, head l = Some x -> on_links (list_del x) s = Ok (tt, set_links h' s)).
  { destruct l as [|x l]; [exists (links s); rewrite insert_id by done; by split|].
    destruct (wp_elim (on_links (list_del x)) (fun _ s' => exists h', s' = set_links h' s /\
      lists h' (<[timer_list := l]> f)) s) as ([] & s' & E & h' & -> & Hl').
    - apply wp_on_links. eapply (fam_list_del _ _ Hl timer_list []); [exact Hf|]. intros h' Hl' _ _ _. by exists h'.
    - exists h'. split; [done|]. by intros y [= <-]. }
  destruct Hdel as (h' & Hl' & Hdel). exists h'. split; [done|].
  assert (Hsome : is_Some (nx (links s) !! heado timer_list l)) by (eapply dlist_nx; [exact Hd|apply heado_elem]).
  destruct Hsome as [m Hm]. unfold timer_tick. apply bind_run. wp_simpl. rewrite Hft.
  apply bind_run, wp_on_links. eapply wp_rd_next; [by eapply dlist_first|]. rewrite set_links_same.
  apply bind_run, wp_on_links. eapply wp_rd_next; [exact Hm|]. rewrite set_links_same.
  cbn [loop]. unfold tick_body at 1. destruct l as [|x l].
  { cbn [heado head default]. change (heado timer_list []) with timer_list. rewrite Z.eqb_refl.
    apply bind_run. wp_simpl. done. }
  change (heado timer_list (x :: l)) with x in *.
  destruct (Z.eqb_spec x timer_list) as [->|_].
  { by pose proof (proj1 (dlist_cursor _ _ [] (timer_list :: l) Hd) eq_refl). }
  destruct (Ht x) as (t & Hx & Hres); [set_solver|]. unfold due. rewrite Hx.
  destruct (0 <? s32 (expired_time t - now)) eqn:Hexp; cbn [negb].
  { apply bind_run. wp_simpl. eapply wp_rd_timer; [exact Hx|]. rewrite Hexp. by wp_simpl. }
  destruct (call (function t) x (u32 now) (arg t) (set_links h' s)) as [[r s2]|e] eqn:Ecall.
  - rewrite (Hres _ _ _ Ecall) in Ecall |- *. apply bind_run. wp_simpl. eapply wp_rd_timer; [exact Hx|].
    rewrite Hexp. wp_simpl. eapply wp_intro; [by apply Hdel|]. wp_simpl. eapply wp_rd_timer; [exact Hx|].
    wp_simpl. eapply wp_intro; [exact Ecall|]. by wp_simpl.
  - apply bind_err_l, bind_run. eapply wp_rd_timer; [exact Hx|]. rewrite Hexp.
    apply bind_run. eapply wp_intro; [by apply Hdel|]. apply bind_run. eapply wp_rd_timer; [exact Hx|].
    by apply bind_err_l.
Qed.

(** ** Properties *)

(** Three timers at 2000, 2100 and 2200 and the list head at 1000, with the
    clock at 0. *)
Definition demo_timers (l : list (Z * Z)) : kst :=
  let nodes := demo_nodes (1000 :: l.*1) in
  run (timer_init 1000)
    (mk_kst (mk_lheap nodes nodes) ∅ [0] 0 0 0 true
       (list_to_map ((fun p => (p.1, mk_ktimer p.2 0 (TF_other 0) 0)) <$> l))
       0 false ∅ ∅ ∅ ∅ 0 [] no_mm ∅ ∅ 0).

(** Arming a timer: [timer_add] stores the expiry [now + delay] at 32
    bits, the period, the function and its argument, and links the timer into
    the list directly behind the first timer that expires earlier, or at the
    end; every timer that was armed stays armed, in the same order, and the
    critical section is left as it was entered. *)
Theorem timer_add_spec timer_list f s timer d per fn a l t0 :
  lists (links s) f -> f !! timer_list = Some l ->
  (forall p, p ∈ l -> is_Some (timers s !! p)) ->
  timers s !! timer = Some t0 -> loose (links s) f timer ->
  crit_ok s ->
  exists s', timer_add timer_list timer d per fn a s = Ok (tt, s') /\
    timers s' = <[timer := mk_ktimer (u32 (ticks s + d)) per fn a]> (timers s) /\
    lists (links s') (<[timer_list := timer_insert s' timer l]> f) /\
    timer_insert s' timer l ≡ₚ timer :: l /\
    critical_section_count s' = critical_section_count s /\ ints_on s' = ints_on s.
Proof.
  intros Hl Hf Ht Ht0 Hloose [Hc Hints].
  destruct (wp_elim (timer_add timer_list timer d per fn a) (fun _ s' =>
    timers s' = <[timer := mk_ktimer (u32 (ticks s + d)) per fn a]> (timers s) /\
    lists (links s') (<[timer_list := timer_insert s' timer l]> f) /\
    timer_insert s' timer l ≡ₚ timer :: l /\
    critical_section_count s' = critical_section_count s /\ ints_on s' = ints_on s) s)
    as ([] & s' & H); [|exists s'; tauto].
  unfold timer_add. wp_simpl. apply wp_on_links. unfold list_empty. wp_simpl.
  destruct Hloose as [[[n Hn] Hp] Hloose].
  eapply wp_rd_next; [exact Hn|]. wp_simpl. rewrite set_links_same.
  unfold current_time. wp_simpl. eapply wp_wr_timer; [exact Ht0|]. wp_simpl.
  apply wp_enter_critical_section; [cbn; lia|]. wp_simpl.
  cbn [critical_section_count set_timers].
  set (tn := mk_ktimer _ _ _ _). set (s0 := set_timers _ s).
  set (s1 := if _ =? 0 then _ else _).
  assert (E1 : links s1 = links s /\ timers s1 = <[timer := tn]> (timers s) /\
     ints_on s1 = if critical_section_count s =? 0 then false else ints_on s).
  { unfold s1. by destruct (critical_section_count s =? 0). }
  clearbody s1. destruct E1 as (E1 & E2 & E3).
  eapply wp_timer_list_add; cbn [links timers set_critical_section_count];
    rewrite ?E1, ?E2; [exact Hl|exact Hf| | | |].
  - intros p Hp'. rewrite lookup_insert. case_decide; eauto.
  - rewrite lookup_insert_eq. eauto.
  - split; [split; eauto|done].
  - intros h' Hl' _. apply wp_exit_critical_section; [cbn; lia|].
    cbn [critical_section_count set_links set_critical_section_count].
    destruct (Z.eqb_spec (critical_section_count s) 0) as [E0|E0].
    + destruct (Z.eqb_spec (critical_section_count s + 1) 1); [|lia]. cbn.
      split_and!; [done|by erewrite timer_insert_ext|apply timer_insert_perm|congruence|].
      symmetry. tauto.
    + destruct (Z.eqb_spec (critical_section_count s + 1) 1); [lia|]. cbn.
      split_and!; [done|by erewrite timer_insert_ext|apply timer_insert_perm|lia|done].
Qed.

Lemma timer_add_spec_witness :
  exists s', timer_add 1000 2000 5 0 (TF_other 7) 9 (demo_timers [(2000, 0)]) = Ok (tt, s') /\
    timers s' !! 2000 = Some (mk_ktimer 5 0 (TF_other 7) 9).
Proof.
  destruct (timer_add_spec 1000 (list_to_map [(1000, [])]) (demo_timers [(2000, 0)]) 2000
              5 0 (TF_other 7) 9 [] (mk_ktimer 0 0 (TF_other 0) 0)) as (s' & H & E & _).
  - apply lists_b_sound. vm_compute. reflexivity.
  - reflexivity.
  - intros p Hp. apply elem_of_nil in Hp. destruct Hp.
  - reflexivity.
  - split; [split; eexists; vm_compute; reflexivity|].
    intros hd l Hin. apply elem_of_list_to_map_2, list_elem_of_singleton in Hin as [= -> ->]. set_solver.
  - vm_compute. split; congruence || done.
  - exists s'. split; [exact H|]. rewrite E. reflexivity.
Defined.

(** [C22] No timer fires early: in every state and for every timer function,
    the tick does exactly what it would do if each call checked that the
    timer's expiry, compared on 32-bit wrap-around, is not in the future. *)
Theorem timer_tick_never_early timer_list call fuel now s :
  timer_tick timer_list call fuel now s = timer_tick timer_list (guarded call now) fuel now s.
Proof.
  unfold timer_tick, bind, gets. destruct (first_time s); [done|]. unfold on_links, zoom.
  destruct (rd_next timer_list (links s)) as [[pos h]|e]; [|done].
  destruct (rd_next pos _) as [[n h']|e]; [|done].
  apply loop_ext. intros a s'. apply tick_body_guarded.
Qed.

(** Timer functions that other code could install, which leave timers and lists
    alone and do not ask for rescheduling (the kernel's own two do ask for it, see
    Workqueue.v): a tick fires the due timers at the front of the list, each once
    and in order, and unlinks them; what remains armed is the rest of the list
    from the first timer that is not due.  This holds for periodic timers as well:
    after a tick they are not armed any more. *)
Theorem timer_tick_fires_due timer_list call eff fuel now f s l1 l2 :
  (forall fn p n a s, call fn p n a s = Ok (INT_NO_RESCHEDULE, eff p s)) ->
  (forall p h s, eff p (set_links h s) = set_links h (eff p s)) ->
  (forall p s, timers (eff p s) = timers s) ->
  lists (links s) f -> f !! timer_list = Some (l1 ++ l2) -> NULL ∉ l1 ->
  (forall p, p ∈ l1 ++ l2 -> is_Some (timers s !! p)) ->
  (forall p, p ∈ l1 -> due s now p = true) ->
  (forall p, head l2 = Some p -> due s now p = false) ->
  first_time s = false -> (length l1 < fuel)%nat ->
  exists h', timer_tick timer_list call fuel now s =
      Ok (INT_NO_RESCHEDULE, set_links h' (fire_all eff l1 s)) /\
    lists h' (<[timer_list := l2]> f) /\ timers (fire_all eff l1 s) = timers s.
Proof.
  intros Hcall He1 He2 Hl Hf Hnull Ht Hdue Hnot Hft Hfuel.
  destruct (wp_elim (timer_tick timer_list call fuel now) (fun r s' => exists h',
     r = INT_NO_RESCHEDULE /\ s' = set_links h' (fire_all eff l1 s) /\
     lists h' (<[timer_list := l2]> f)) s) as (r & s' & E & h' & -> & -> & Hl').
  - eapply (wp_fire timer_list call eff); eauto.
  - exists h'. split; [exact E|]. split; [done|]. by apply fire_all_timers.
Qed.

(** Two one-shot timers that are due and one that is not. *)
Definition demo_armed : kst :=
  run (timer_list_add 1000 2000 ;;; timer_list_add 1000 2100 ;;; timer_list_add 1000 2200)
    (demo_timers [(2000, 3); (2100, 8); (2200, 5)]).

Lemma timer_tick_fires_due_witness :
  exists h', timer_tick 1000 (fun _ p _ _ s => Ok (INT_NO_RESCHEDULE, set_next_pid (next_pid s + p) s))
      9 6 demo_armed =
    Ok (INT_NO_RESCHEDULE, set_links h' (set_next_pid 4200 demo_armed)).
Proof.
  destruct (timer_tick_fires_due 1000
    (fun _ p _ _ s => Ok (INT_NO_RESCHEDULE, set_next_pid (next_pid s + p) s))
    (fun p s => set_next_pid (next_pid s + p) s) 9 6 (list_to_map [(1000, [2000; 2200; 2100])])
    demo_armed [2000; 2200] [2100]) as (h' & E & _).
  - reflexivity.
  - reflexivity.
  - reflexivity.
  - apply lists_b_sound. vm_compute. reflexivity.
  - reflexivity.
  - set_solver.
  - intros p Hp. apply list_elem_of_In in Hp. cbn in Hp.
    destruct Hp as [<-|[<-|[<-|[]]]]; eexists; vm_compute; reflexivity.
  - intros p Hp. apply list_elem_of_In in Hp. cbn in Hp.
    destruct Hp as [<-|[<-|[]]]; vm_compute; reflexivity.
  - intros p [= <-]. vm_compute. reflexivity.
  - reflexivity.
  - cbn. lia.
  - exists h'. exact E.
Defined.

(** The list is not kept in the order of expiry, on which the early exit
    of the tick relies: three timers armed with expiries 5, 7 and 9, in this
    order, are linked as 5, 9, 7, so the tick at time 8 fires the first, stops
    at the second and leaves the third armed although it is due. *)
Theorem timer_tick_misses_due :
  let s := run (timer_list_add 1000 2000 ;;; timer_list_add 1000 2100 ;;; timer_list_add 1000 2200)
             (demo_timers [(2000, 5); (2100, 7); (2200, 9)]) in
  exists s', timer_tick 1000 (fun _ _ _ _ s => Ok (INT_NO_RESCHEDULE, s)) 9 8 s =
      Ok (INT_NO_RESCHEDULE, s') /\
    due s' 8 2100 = true /\ lists (links s') (list_to_map [(1000, [2200; 2100])]).
Proof.
  eexists. split; [vm_compute; reflexivity|]. split; [reflexivity|].
  apply lists_b_sound. vm_compute. reflexivity.
Qed.

(** Deleting a timer that has already fired is an access through NULL:
    the tick unlinks with [list_del], which clears the entry's links, so
    [timer_delete] takes the timer for an armed one and unlinks it again. *)
Theorem timer_delete_after_fire timer_list f timer l1 l2 s :
  lists (links s) f -> f !! timer_list = Some (l1 ++ timer :: l2) -> crit_ok s ->
  nx (links s) !! NULL = None -> pv (links s) !! NULL = None ->
  exists s', on_links (list_del timer) s = Ok (tt, s') /\
    timer_delete timer s' = Err NullDeref.
Proof.
  intros Hl Hf [Hc _] H0 H0'.
  assert (Hr : dlist (links s) timer_list (l1 ++ timer :: l2)) by by eapply lists_ring.
  destruct (dlist_node _ _ _ timer Hr ltac:(set_solver)) as [Hn _].
  assert (Ht : timer <> NULL) by (intros ->; destruct Hn; congruence).
  destruct (wp_elim (on_links (list_del timer)) (fun _ s' => exists h', s' = set_links h' s /\
    nx h' !! timer = Some NULL /\ pv h' !! timer = Some NULL /\ pv h' !! NULL = None) s)
    as ([] & s' & E & h' & -> & Hx & Hp & H0'').
  { apply wp_on_links. eapply fam_list_del; [exact Hl|exact Hf|].
    intros h' _ _ Hx Hp Ho. exists h'. split_and!; try done.
    rewrite (so_pv _ _ _ Ho NULL); [done|].
    intros Hin. destruct (dlist_node _ _ _ NULL Hr Hin) as [[v Hv] _]. congruence. }
  exists (set_links h' s). split; [done|].
  unfold timer_delete, bind.
  destruct (wp_elim enter_critical_section (fun _ s' => links s' = h') (set_links h' s))
    as ([] & s' & -> & E').
  { apply wp_enter_critical_section; [exact Hc|]. cbn. by destruct (_ =? 0). }
  unfold on_links, zoom, list_empty, list_del_init, __list_del_entry, rd_next, rd_prev,
    __list_del, wr_prev, rd_prev, bind, gets, lift_opt. cbn.
  rewrite E', Hx. cbn. destruct timer; [done| |]; cbn;
    rewrite Hp; cbn; rewrite Hx; cbn; by rewrite H0''.
Qed.

Lemma timer_delete_after_fire_witness :
  exists s', on_links (list_del 2100) demo_armed = Ok (tt, s') /\
    timer_delete 2100 s' = Err NullDeref.
Proof.
  apply (timer_delete_after_fire 1000 (list_to_map [(1000, [2000; 2200; 2100])]) 2100 [2000; 2200] []).
  - apply lists_b_sound. vm_compute. reflexivity.
  - reflexivity.
  - vm_compute. split; congruence || done.
  - reflexivity.
  - reflexivity.
Defined.
