(* ===== verification/Semaphore.v ===== *)
(** * kernel/semaphore.c: counting semaphores, and the context switch under them

    A task that finds no token waits on the semaphore's list and gives up the
    processor.  What the other tasks do until it runs again is the parameter
    [resume]; it is arbitrary code on the kernel state.  The theorems about one
    call say what [down] and [up] do to count and list; the transition system
    [Interleave] runs the critical sections of any number of tasks in any order
    and has the conservation of tokens as an invariant. *)

From S2P Require Import Prelude KList Bitops KState Sched.

(** The address of [sem->wait_list]. *)
Definition wait_list (sem : Z) : Z := sem + 4.

Definition rd_sem (sem : Z) : M kst Z :=
  m <- gets sems ;; lift_opt (bad_ptr sem) (m !! sem).
Definition wr_sem (sem v : Z) : M kst unit :=
  rd_sem sem ;;; modify (fun s => set_sems (<[sem := v]> (sems s)) s).
Definition rd_waiter (w : Z) : M kst semaphore_waiter :=
  m <- gets waiters ;; lift_opt (bad_ptr w) (m !! w).

(** [sema_init] of include/kernel/semaphore.h: the compound literal sets the
    count and makes the list empty. *)
Definition sema_init (sem val : Z) : M kst unit :=
  modify (fun s => set_sems (<[sem := u32 val]> (sems s)) s) ;;;
  on_links (INIT_LIST_HEAD (wait_list sem)).

Section Switch.
Context (all_task : Z).
(** What happens between the moment the processor is switched away from the
    first task and the moment it is switched back to it. *)
Context (resume : Z -> Z -> M kst unit).
(** The address of the [waiter] local variable on a task's stack. *)
Context (waiter_of : Z -> Z).

(** arch/arm/arch_task.c; [cpu_switch_mm] and [arm_context_switch] are assembly. *)
Definition arch_context_switch (oldtask newtask : Z) : M kst unit :=
  rd_task newtask ;;;
  modify (fun s => set_switches ((oldtask, newtask) :: switches s) s) ;;;
  resume oldtask newtask.

(** kernel/task.c *)
Definition task_schedule : M kst unit :=
  old_task <- gets current_task ;;
  new_task <- sched_fifo_pick_next_task all_task ;;
  if (NULL =? new_task) || (old_task =? new_task) then ret tt
  else arch_context_switch old_task new_task.

(** One turn of the [for (;;)] of [__down]: [inr] leaves it with the result 0. *)
Definition __down_turn (task waiter : Z) : M kst (unit + Z) :=
  set_task_state task BLOCKED ;;;
  enter_critical_section ;;;
  task_schedule ;;;
  exit_critical_section ;;;
  w <- rd_waiter waiter ;;
  if negb (w_up w =? 0) then ret (inr 0) else ret (inl tt).

Definition __down (fuel : nat) (sem : Z) : M kst Z :=
  task <- gets current_task ;;
  let waiter := waiter_of task in
  on_links (list_add_tail waiter (wait_list sem)) ;;;
  modify (fun s => set_waiters (<[waiter := mk_waiter task 0]> (waiters s)) s) ;;;
  loop fuel (fun _ => __down_turn task waiter) tt.

Definition __up (sem : Z) : M kst unit :=
  waiter <- on_links (rd_next (wait_list sem)) ;;
  on_links (list_del waiter) ;;;
  w <- rd_waiter waiter ;;
  modify (fun s => set_waiters (<[waiter := mk_waiter (w_task w) 1]> (waiters s)) s) ;;;
  set_task_state (w_task w) READY.

Definition down (fuel : nat) (sem : Z) : M kst unit :=
  enter_critical_section ;;;
  c <- rd_sem sem ;;
  (if 0 <? c then wr_sem sem (u32 (c - 1)) else __down fuel sem ;;; ret tt) ;;;
  exit_critical_section.

Definition up (sem : Z) : M kst unit :=
  enter_critical_section ;;;
  e <- on_links (list_empty (wait_list sem)) ;;
  (if (e : bool) then c <- rd_sem sem ;; wr_sem sem (u32 (c + 1)) else __up sem) ;;;
  exit_critical_section.

(** ** The pieces of [down] between context switches

    [down_begin] runs up to the first switch or to the end: [None] when the
    token was there, else the waiter.  [down_wake] is what runs when the task
    has the processor again: [true] leaves [down]. *)
Definition down_begin (sem : Z) : M kst (option Z) :=
  enter_critical_section ;;;
  c <- rd_sem sem ;;
  if 0 <? c then wr_sem sem (u32 (c - 1)) ;;; exit_critical_section ;;; ret None
  else
    task <- gets current_task ;;
    on_links (list_add_tail (waiter_of task) (wait_list sem)) ;;;
    modify (fun s => set_waiters (<[waiter_of task := mk_waiter task 0]> (waiters s)) s) ;;;
    set_task_state task BLOCKED ;;;
    enter_critical_section ;;;
    ret (Some task).

Definition down_wake (task : Z) : M kst bool :=
  exit_critical_section ;;;
  w <- rd_waiter (waiter_of task) ;;
  if negb (w_up w =? 0) then exit_critical_section ;;; ret true
  else set_task_state task BLOCKED ;;; enter_critical_section ;;; ret false.

Definition down_by_pieces (fuel : nat) (sem : Z) : M kst unit :=
  r <- down_begin sem ;;
  match r with
  | None => ret tt
  | Some task =>
      loop fuel (fun _ => task_schedule ;;; b <- down_wake task ;;
                          ret (if (b : bool) then inr tt else inl tt)) tt
  end.
End Switch.

(** The pieces put together are [down]. *)
Lemma down_loop_pieces all_task resume waiter_of task n s x :
  (bind (loop n (fun _ => __down_turn all_task resume task (waiter_of task)) tt)
     (fun _ => exit_critical_section)) s = Ok x <->
  (set_task_state task BLOCKED ;;; enter_critical_section ;;;
   loop n (fun _ => task_schedule all_task resume ;;; b <- down_wake waiter_of task ;;
                    ret (if (b : bool) then inr tt else inl tt)) tt) s = Ok x.
Proof.
  revert s. induction n as [|n IH]; intros s.
  { cbn [loop]. unfold bind, fail. split; [done|].
    repeat case_match; done. }
  cbn [loop]. unfold __down_turn at 1, down_wake at 1. unfold bind in *.
  destruct (set_task_state task BLOCKED s) as [[[] s1]|e] eqn:E1; [|done].
  destruct (enter_critical_section s1) as [[[] s2]|e] eqn:E2; [|done].
  destruct (task_schedule all_task resume s2) as [[[] s3]|e]; [|done].
  destruct (exit_critical_section s3) as [[[] s4]|e]; [|done].
  destruct (rd_waiter (waiter_of task) s4) as [[w s5]|e]; [|done].
  destruct (negb (w_up w =? 0)).
  - unfold ret. destruct (exit_critical_section s5) as [[[] s6]|e]; done.
  - unfold ret. rewrite IH.
    destruct (set_task_state task BLOCKED s5) as [[[] s6]|e]; [|done].
    destruct (enter_critical_section s6) as [[[] s7]|e]; [|done].
    done.
Qed.

Lemma down_is_pieces all_task resume waiter_of n sem s x :
  down all_task resume waiter_of n sem s = Ok x <->
  down_by_pieces all_task resume waiter_of n sem s = Ok x.
Proof.
  pose proof (down_loop_pieces all_task resume waiter_of) as H.
  unfold down, down_by_pieces, down_begin, __down, bind, gets, modify, ret in *.
  destruct (enter_critical_section s) as [[[] s1]|e]; [|done].
  destruct (rd_sem sem s1) as [[c s2]|e]; [|done].
  destruct (0 <? c).
  - destruct (wr_sem sem _ s2) as [[[] s3]|e]; [|done].
    by destruct (exit_critical_section s3) as [[[] s4]|e].
  - set (w := waiter_of (current_task s2)).
    destruct (on_links (list_add_tail w (wait_list sem)) s2) as [[[] s3]|e]; [|done].
    specialize (H (current_task s2) n
      (set_waiters (<[w := mk_waiter (current_task s2) 0]> (waiters s3)) s3) x).
    fold w in H. set (s5 := set_waiters _ s3) in *.
    destruct (loop n (fun _ => __down_turn all_task resume (current_task s2) w) tt s5) as [[z s4]|e].
    + rewrite H. destruct (set_task_state _ _ _) as [[[] s6]|e]; [|done].
      destruct (enter_critical_section s6) as [[[] s7]|e]; done.
    + rewrite H. destruct (set_task_state _ _ _) as [[[] s6]|e']; [|done].
      destruct (enter_critical_section s6) as [[[] s7]|e']; done.
Qed.

(** ** Symbolic execution of the pieces *)

(** Critical sections touch two fields only, at any depth. *)
Definition crit_set (c : Z) (b : bool) (s : kst) : kst :=
  set_ints_on b (set_critical_section_count c s).

Lemma wp_enter_any s (Q : unit -> kst -> Prop) :
  (forall c b, Q tt (crit_set c b s)) -> wp enter_critical_section Q s.
Proof.
  intros H. unfold enter_critical_section. wp_simpl.
  destruct (critical_section_count s =? 0); unfold arch_disable_ints; wp_simpl.
  - exact (H _ false).
  - replace (set_critical_section_count _ s) with
      (crit_set (s32 (critical_section_count s + 1)) (ints_on s) s) by (by destruct s). apply H.
Qed.

Lemma wp_exit_any s (Q : unit -> kst -> Prop) :
  (forall c b, Q tt (crit_set c b s)) -> wp exit_critical_section Q s.
Proof.
  intros H. unfold exit_critical_section. wp_simpl.
  destruct (_ =? 0); unfold arch_enable_ints; wp_simpl.
  - exact (H _ true).
  - replace (set_critical_section_count _ s) with
      (crit_set (s32 (critical_section_count s - 1)) (ints_on s) s) by (by destruct s). apply H.
Qed.

Lemma wp_rd_sem s sem c (Q : Z -> kst -> Prop) :
  sems s !! sem = Some c -> Q c s -> wp (rd_sem sem) Q s.
Proof. intros H HQ. unfold rd_sem. wp_simpl. by rewrite H. Qed.

Lemma wp_wr_sem s sem c v (Q : unit -> kst -> Prop) :
  sems s !! sem = Some c -> Q tt (set_sems (<[sem := v]> (sems s)) s) -> wp (wr_sem sem v) Q s.
Proof. intros H HQ. unfold wr_sem. wp_simpl. eapply wp_rd_sem; [done|]. by wp_simpl. Qed.

Lemma wp_rd_waiter s w r (Q : semaphore_waiter -> kst -> Prop) :
  waiters s !! w = Some r -> Q r s -> wp (rd_waiter w) Q s.
Proof. intros H HQ. unfold rd_waiter. wp_simpl. by rewrite H. Qed.

Lemma wp_set_task_state s p t st (Q : unit -> kst -> Prop) :
  tasks s !! p = Some t -> Q tt (set_tasks (<[p := with_state st t]> (tasks s)) s) ->
  wp (set_task_state p st) Q s.
Proof. apply wp_wr_task. Qed.

(** What the components above the semaphore see of the state. *)
Record sem_frame (s s' : kst) : Prop := {
  sf_links : links s' = links s;
  sf_sems : sems s' = sems s;
  sf_waiters : waiters s' = waiters s;
  sf_tasks : forall t, is_Some (tasks s !! t) -> is_Some (tasks s' !! t)
}.

Section Pieces.
Context (waiter_of : Z -> Z) (sem : Z) (f : gmap Z (list Z)) (s : kst) (ws : list Z) (c : Z).
Context (Hl : lists (links s) f) (Hf : f !! wait_list sem = Some ws) (Hc : sems s !! sem = Some c).

Lemma wp_down_begin_free (Q : option Z -> kst -> Prop) :
  0 < c < 4294967296 ->
  (forall n b, Q None (crit_set n b (set_sems (<[sem := c - 1]> (sems s)) s))) ->
  wp (down_begin waiter_of sem) Q s.
Proof.
  intros Hr HQ. unfold down_begin. wp_simpl. apply wp_enter_any. intros n b. wp_simpl.
  eapply wp_rd_sem; [exact Hc|]. destruct (Z.ltb_spec 0 c); [|lia]. wp_simpl.
  eapply wp_wr_sem; [exact Hc|]. wp_simpl. apply wp_exit_any. intros n' b'. wp_simpl.
  rewrite u32_small by lia. apply (HQ n' b').
Qed.

Lemma wp_down_begin_wait t tk (Q : option Z -> kst -> Prop) :
  c = 0 -> current_task s = t -> tasks s !! t = Some tk -> loose (links s) f (waiter_of t) ->
  (forall n b h', lists h' (<[wait_list sem := ws ++ [waiter_of t]]> f) ->
     same_out (waiter_of t :: wait_list sem :: ws) (links s) h' ->
     Q (Some t) (crit_set n b (set_tasks (<[t := with_state BLOCKED tk]> (tasks s))
       (set_waiters (<[waiter_of t := mk_waiter t 0]> (waiters s)) (set_links h' s))))) ->
  wp (down_begin waiter_of sem) Q s.
Proof.
  intros -> Hcur Htk Hlo HQ. unfold down_begin. wp_simpl. apply wp_enter_any. intros n b. wp_simpl.
  eapply wp_rd_sem; [exact Hc|]. cbn [Z.ltb Z.compare]. wp_simpl. cbn [current_task crit_set set_ints_on set_critical_section_count].
  rewrite Hcur. apply wp_on_links. cbn [links crit_set set_ints_on set_critical_section_count].
  eapply fam_list_add_tail; [exact Hl|exact Hf|exact Hlo|]. intros h' Hl' Hs. wp_simpl.
  eapply wp_set_task_state; [exact Htk|]. wp_simpl. apply wp_enter_any. intros n' b'. wp_simpl.
  exact (HQ n' b' h' Hl' Hs).
Qed.

Lemma wp_up_free (Q : unit -> kst -> Prop) :
  ws = [] ->
  (forall n b, Q tt (crit_set n b (set_sems (<[sem := u32 (c + 1)]> (sems s)) s))) ->
  wp (up sem) Q s.
Proof.
  intros Hw HQ. unfold up. wp_simpl. apply wp_enter_any. intros n b. wp_simpl. apply wp_on_links.
  eapply fam_list_empty; [exact Hl|exact Hf|]. rewrite bool_decide_true by done. wp_simpl.
  eapply wp_rd_sem; [exact Hc|]. eapply wp_wr_sem; [exact Hc|]. apply wp_exit_any. intros n' b'.
  replace (crit_set n' b' _) with (crit_set n' b' (set_sems (<[sem := u32 (c + 1)]> (sems s)) s))
    by (by destruct s). apply HQ.
Qed.

Lemma wp_up_waiter w ws' t tk u (Q : unit -> kst -> Prop) :
  ws = w :: ws' -> waiters s !! w = Some (mk_waiter t u) -> tasks s !! t = Some tk ->
  (forall n b h', lists h' (<[wait_list sem := ws']> f) -> loose h' (<[wait_list sem := ws']> f) w ->
     same_out (wait_list sem :: w :: ws') (links s) h' ->
     Q tt (crit_set n b (set_tasks (<[t := with_state READY tk]> (tasks s))
       (set_waiters (<[w := mk_waiter t 1]> (waiters s)) (set_links h' s))))) ->
  wp (up sem) Q s.
Proof.
  intros Hw Hwt Htk HQ. unfold up. wp_simpl. apply wp_enter_any. intros n b. wp_simpl. apply wp_on_links.
  eapply fam_list_empty; [exact Hl|exact Hf|]. rewrite bool_decide_false by (by rewrite Hw).
  unfold __up. wp_simpl. apply wp_on_links.
  pose proof (lists_ring _ _ Hl _ _ Hf) as Hd. rewrite Hw in Hd.
  eapply wp_rd_next; [exact (dlist_first _ _ _ Hd)|]. wp_simpl.
  cbn [heado head default from_option id]. apply wp_on_links.
  eapply (fam_list_del _ _ Hl _ [] w ws'); [by rewrite <- Hw|]. intros h' Hl' Hlo _ _ Hs. wp_simpl.
  eapply wp_rd_waiter; [exact Hwt|]. wp_simpl. eapply wp_set_task_state; [exact Htk|].
  apply wp_exit_any. intros n' b'. exact (HQ n' b' h' Hl' Hlo Hs).
Qed.
End Pieces.

(** ** Interleaving

    Any number of tasks that use the semaphore as a lock with [N] tokens.  A
    step is one piece of code that runs without giving up the processor, in any
    task; [step_other] is anything else the kernel does in between that leaves
    the semaphore, the lists and the waiters alone. *)
Module Interleave.

Inductive pc : Type := Idle | Waiting | Holding.

Record sys : Type := mk_sys { k : kst; at_ : Z -> pc }.

Definition upd (t : Z) (p : pc) (g : Z -> pc) : Z -> pc :=
  fun t' => if t' =? t then p else g t'.

Section System.
Context (waiter_of : Z -> Z) (sem : Z) (ts : list Z).

Inductive step : sys -> sys -> Prop :=
| step_down t y r k' : t ∈ ts -> at_ y t = Idle ->
    down_begin waiter_of sem (set_current_task t (k y)) = Ok (r, k') ->
    step y (mk_sys k' (upd t (if r then Waiting else Holding) (at_ y)))
| step_wake t y b k' : t ∈ ts -> at_ y t = Waiting ->
    down_wake waiter_of t (set_current_task t (k y)) = Ok (b, k') ->
    step y (mk_sys k' (upd t (if (b : bool) then Holding else Waiting) (at_ y)))
| step_up t y k' : t ∈ ts -> at_ y t = Holding ->
    up sem (set_current_task t (k y)) = Ok (tt, k') ->
    step y (mk_sys k' (upd t Idle (at_ y)))
| step_other y k' : sem_frame (k y) k' -> step y (mk_sys k' (at_ y)).

(** The tokens that task [t] has: it is inside, or one was handed to it. *)
Definition granted (s : kst) (t : Z) : bool :=
  match waiters s !! waiter_of t with Some w => negb (w_up w =? 0) | None => false end.
Definition tokens (y : sys) (t : Z) : Z :=
  match at_ y t with
  | Idle => 0
  | Holding => 1
  | Waiting => if granted (k y) t then 1 else 0
  end.
Fixpoint total (g : Z -> Z) (l : list Z) : Z :=
  match l with [] => 0 | t :: l' => g t + total g l' end.
Definition inside (y : sys) : Z :=
  total (fun t => match at_ y t with Holding => 1 | _ => 0 end) ts.

(** The invariant: the waiting list holds exactly the waiting tasks without a
    token, a task waits only while there is no token, and tokens are neither
    made nor lost. *)
Record inv (N : Z) (y : sys) : Prop := {
  i_nodup : NoDup ts;
  i_inj : forall t1 t2, t1 ∈ ts -> t2 ∈ ts -> waiter_of t1 = waiter_of t2 -> t1 = t2;
  i_tasks : forall t, t ∈ ts -> is_Some (tasks (k y) !! t);
  i_bound : N < 4294967296;
  i_list : exists f ws c,
    lists (links (k y)) f /\ f !! wait_list sem = Some ws /\
    sems (k y) !! sem = Some c /\ 0 <= c /\ (ws <> [] -> c = 0) /\
    c + total (tokens y) ts = N /\
    (forall w, w ∈ ws -> exists t, t ∈ ts /\ w = waiter_of t /\ at_ y t = Waiting /\
                         granted (k y) t = false) /\
    (forall t, t ∈ ts -> at_ y t = Waiting ->
       exists u, waiters (k y) !! waiter_of t = Some (mk_waiter t u)) /\
    (forall t, t ∈ ts -> waiter_of t ∈ ws \/ loose (links (k y)) f (waiter_of t)) /\
    (forall t, t ∈ ts -> at_ y t = Waiting -> granted (k y) t = false -> waiter_of t ∈ ws)
}.

Lemma total_nonneg g l : (forall t, 0 <= g t) -> 0 <= total g l.
Proof. intros H. induction l as [|x l IH]; cbn; [lia|]. specialize (H x). lia. Qed.

Lemma total_ge g l t : (forall t, 0 <= g t) -> t ∈ l -> g t <= total g l.
Proof.
  intros H Ht. induction l as [|x l IH]; [set_solver|]. cbn.
  pose proof (H x). pose proof (total_nonneg g l H).
  apply elem_of_cons in Ht as [->|Ht]; [lia|]. specialize (IH Ht). lia.
Qed.

Lemma total_le g g' l : (forall t, t ∈ l -> g t <= g' t) -> total g l <= total g' l.
Proof.
  induction l as [|x l IH]; cbn; [lia|]. intros H. pose proof (H x ltac:(set_solver)).
  specialize (IH ltac:(set_solver)). lia.
Qed.

Lemma total_ext g g' l : (forall t, t ∈ l -> g t = g' t) -> total g l = total g' l.
Proof.
  intros H. apply Z.le_antisymm; apply total_le; intros t Ht; rewrite (H t Ht); lia.
Qed.

Lemma total_update g g' l t :
  NoDup l -> t ∈ l -> (forall t', t' ∈ l -> t' <> t -> g' t' = g t') ->
  total g' l = total g l - g t + g' t.
Proof.
  induction l as [|x l IH]; [set_solver|]. intros [Hx Hnd]%NoDup_cons Ht Hext. cbn.
  apply elem_of_cons in Ht as [->|Ht].
  - rewrite (total_ext g' g l); [lia|]. intros t' Ht'. apply Hext; [set_solver|].
    intros ->. done.
  - rewrite IH; [|done|done|intros t' ? ?; apply Hext; set_solver].
    rewrite (Hext x); [lia|set_solver|]. intros ->. done.
Qed.

Lemma tokens_range y t : 0 <= tokens y t <= 1.
Proof. unfold tokens. destruct (at_ y t); [lia| |lia]. destruct (granted _ _); lia. Qed.

Lemma upd_same t p g : upd t p g t = p.
Proof. unfold upd. by rewrite Z.eqb_refl. Qed.
Lemma upd_other t p g t' : t' <> t -> upd t p g t' = g t'.
Proof. intros H. unfold upd. by destruct (Z.eqb_spec t' t). Qed.

(** Storing in one task's waiter does not concern the others. *)
Lemma granted_other s t t' w s' :
  waiters s' = <[waiter_of t := w]> (waiters s) -> waiter_of t <> waiter_of t' ->
  granted s' t' = granted s t'.
Proof. intros E H. unfold granted. by rewrite E, lookup_insert_ne. Qed.

Lemma granted_same s t w s' :
  waiters s' = <[waiter_of t := w]> (waiters s) -> granted s' t = negb (w_up w =? 0).
Proof. intros E. unfold granted. by rewrite E, lookup_insert_eq. Qed.

Section Preserve.
Context (N : Z) (y : sys) (Hinv : inv N y) (t : Z) (Ht : t ∈ ts).

(** Taking a token. *)
Lemma inv_down_free f ws c b n :
  lists (links (k y)) f -> f !! wait_list sem = Some ws -> sems (k y) !! sem = Some c ->
  (ws <> [] -> c = 0) -> 0 < c -> at_ y t = Idle ->
  inv N (mk_sys (crit_set n b (set_sems (<[sem := c - 1]> (sems (k y))) (set_current_task t (k y))))
          (upd t Holding (at_ y))).
Proof.
  intros Hl Hf Hc Hz Hpos Hpc. destruct Hinv as [A1 A2 A3 A4 A5].
  destruct A5 as (f' & ws' & c' & B1 & B2 & B3 & B4 & B5 & B6 & B7 & B8 & B9 & B10).
  rewrite Hc in B3. injection B3 as <-.
  assert (ws' = []) as -> by (destruct ws'; [done|]; specialize (B5 ltac:(done)); lia).
  split; try done. exists f', [], (c - 1). cbn [k at_ links sems waiters crit_set set_ints_on set_critical_section_count set_sems].
  split_and!; try done; try lia; try by rewrite lookup_insert_eq.
  - rewrite (total_update (tokens y) _ ts t A1 Ht).
    + unfold tokens at 2 3. cbn [at_]. rewrite upd_same, Hpc. lia.
    + intros t' Ht' Hne. unfold tokens. cbn [at_ k]. by rewrite upd_other.
  - set_solver.
  - intros t' Ht' H. destruct (decide (t' = t)) as [->|Hne]; [by rewrite upd_same in H|].
    rewrite upd_other in H by done. by apply B8.
  - intros t' Ht' H. destruct (decide (t' = t)) as [->|Hne]; [by rewrite upd_same in H|].
    rewrite upd_other in H by done. by apply B10.
Qed.

Lemma waiter_ne t' : t' ∈ ts -> t' <> t -> waiter_of t <> waiter_of t'.
Proof. intros Ht' Hne E. apply Hne. symmetry. by apply (i_inj _ _ Hinv). Qed.

(** Joining the waiting tasks; [s'] is the state after it. *)
Lemma inv_down_wait f ws s' :
  lists (links (k y)) f -> f !! wait_list sem = Some ws -> sems (k y) !! sem = Some 0 ->
  0 + total (tokens y) ts = N ->
  (forall w, w ∈ ws -> exists t, t ∈ ts /\ w = waiter_of t /\ at_ y t = Waiting /\
                       granted (k y) t = false) ->
  (forall t, t ∈ ts -> waiter_of t ∈ ws \/ loose (links (k y)) f (waiter_of t)) ->
  (forall t, t ∈ ts -> at_ y t = Waiting -> granted (k y) t = false -> waiter_of t ∈ ws) ->
  (forall t, t ∈ ts -> at_ y t = Waiting ->
       exists u, waiters (k y) !! waiter_of t = Some (mk_waiter t u)) ->
  at_ y t = Idle ->
  lists (links s') (<[wait_list sem := ws ++ [waiter_of t]]> f) ->
  same_out (waiter_of t :: wait_list sem :: ws) (links (k y)) (links s') ->
  sems s' = sems (k y) -> waiters s' = <[waiter_of t := mk_waiter t 0]> (waiters (k y)) ->
  (forall t, t ∈ ts -> is_Some (tasks s' !! t)) ->
  inv N (mk_sys s' (upd t Waiting (at_ y))).
Proof.
  intros Hl Hf Hc Htot B7 B9 B10 B8 Hpc Hl' Hs Es Ew Et.
  assert (Hg : forall t', t' ∈ ts -> t' <> t -> granted s' t' = granted (k y) t')
    by (intros t' Ht' Hne; apply (granted_other _ t _ _ _ Ew); by apply waiter_ne).
  assert (Hgt : granted s' t = false) by (by rewrite (granted_same _ _ _ _ Ew)).
  split; [apply Hinv|apply Hinv|exact Et|apply Hinv|].
  exists (<[wait_list sem := ws ++ [waiter_of t]]> f), (ws ++ [waiter_of t]), 0. cbn [k at_].
  rewrite Es. split_and!; [done|by rewrite lookup_insert_eq|done|done|done| | | | |].
  - rewrite (total_update (tokens y) _ ts t (i_nodup _ _ Hinv) Ht).
    + unfold tokens at 2 3. cbn [at_ k]. rewrite upd_same, Hpc, Hgt. lia.
    + intros t' Ht' Hne. unfold tokens. cbn [at_ k]. by rewrite upd_other, Hg.
  - intros w [Hw| ->%list_elem_of_singleton]%elem_of_app.
    + destruct (B7 w Hw) as (t' & Ht' & -> & H1 & H2). exists t'.
      assert (t' <> t) by congruence. rewrite upd_other, Hg by done. done.
    + exists t. by rewrite upd_same.
  - intros t' Ht' H. rewrite Ew. destruct (decide (t' = t)) as [->|Hne].
    + exists 0. by rewrite lookup_insert_eq.
    + rewrite upd_other in H by done. rewrite lookup_insert_ne by by apply waiter_ne. by apply B8.
  - intros t' Ht'. destruct (decide (t' = t)) as [->|Hne]; [left; set_solver|].
    destruct (B9 t' Ht') as [H|H]; [left; set_solver|]. right.
    destruct (loose_not_in _ _ _ _ _ H Hf) as [H1 H2].
    eapply loose_other; [exact H|exact Hs|done|]. pose proof (waiter_ne t' Ht' Hne). set_solver.
  - intros t' Ht' H H'. destruct (decide (t' = t)) as [->|Hne]; [set_solver|].
    rewrite upd_other in H by done. rewrite Hg in H' by done. set_solver.
Qed.

(** Leaving with a token that was handed over, or finding none and waiting on. *)
Lemma inv_wake s' b :
  at_ y t = Waiting -> granted (k y) t = b ->
  links s' = links (k y) -> sems s' = sems (k y) -> waiters s' = waiters (k y) ->
  (forall t, t ∈ ts -> is_Some (tasks s' !! t)) ->
  inv N (mk_sys s' (upd t (if b then Holding else Waiting) (at_ y))).
Proof.
  intros Hpc Hb El Es Ew Et. destruct Hinv as [A1 A2 A3 A4 A5].
  destruct A5 as (f & ws & c & B1 & B2 & B3 & B4 & B5 & B6 & B7 & B8 & B9 & B10).
  assert (Hg : forall t', granted s' t' = granted (k y) t') by (intros t'; unfold granted; by rewrite Ew).
  split; try done. exists f, ws, c. cbn [k at_]. rewrite El, Es, Ew. split_and!; try done.
  - rewrite (total_update (tokens y) _ ts t A1 Ht).
    + unfold tokens at 2 3. cbn [at_ k]. rewrite upd_same, Hpc, Hb. destruct b; [lia|].
      rewrite Hg, Hb. lia.
    + intros t' Ht' Hne. unfold tokens. cbn [at_ k]. by rewrite upd_other, Hg.
  - intros w Hw. destruct (B7 w Hw) as (t' & Ht' & -> & H1 & H2). exists t'. rewrite Hg.
    split_and!; try done. destruct (decide (t' = t)) as [->|Hne]; [|by rewrite upd_other].
    rewrite upd_same, <- Hb, H2. done.
  - intros t' Ht' H. destruct (decide (t' = t)) as [->|Hne]; [by apply B8|].
    rewrite upd_other in H by done. by apply B8.
  - intros t' Ht' H. rewrite Hg. destruct (decide (t' = t)) as [->|Hne]; [by apply B10|].
    rewrite upd_other in H by done. by apply B10.
Qed.

(** Giving the token back, with nobody waiting. *)
Lemma inv_up_free f c b n :
  lists (links (k y)) f -> f !! wait_list sem = Some [] -> sems (k y) !! sem = Some c ->
  0 <= c -> c + total (tokens y) ts = N ->
  (forall t, t ∈ ts -> at_ y t = Waiting ->
       exists u, waiters (k y) !! waiter_of t = Some (mk_waiter t u)) ->
  (forall t, t ∈ ts -> waiter_of t ∈ ([] : list Z) \/ loose (links (k y)) f (waiter_of t)) ->
  (forall t, t ∈ ts -> at_ y t = Waiting -> granted (k y) t = false -> waiter_of t ∈ ([] : list Z)) ->
  at_ y t = Holding ->
  inv N (mk_sys (crit_set n b (set_sems (<[sem := u32 (c + 1)]> (sems (k y))) (set_current_task t (k y))))
          (upd t Idle (at_ y))).
Proof.
  intros Hl Hf Hc H0 Htot B8 B9 B10 Hpc.
  assert (Htok : tokens y t = 1) by (unfold tokens; by rewrite Hpc).
  pose proof (total_ge (tokens y) ts t (fun t => proj1 (tokens_range y t)) Ht).
  pose proof (i_bound _ _ Hinv).
  split; [apply Hinv|apply Hinv|apply Hinv|done|].
  exists f, [], (c + 1). cbn [k at_ links sems waiters crit_set set_ints_on set_critical_section_count set_sems].
  rewrite u32_small by lia.
  split_and!; try done; try lia; try by rewrite lookup_insert_eq.
  - rewrite (total_update (tokens y) _ ts t (i_nodup _ _ Hinv) Ht).
    + rewrite Htok. unfold tokens at 2. cbn [at_]. rewrite upd_same. lia.
    + intros t' Ht' Hne. unfold tokens. cbn [at_ k]. by rewrite upd_other.
  - intros w Hw. set_solver.
  - intros t' Ht' Hw'. destruct (decide (t' = t)) as [->|Hne]; [by rewrite upd_same in Hw'|].
    rewrite upd_other in Hw' by done. by apply B8.
  - intros t' Ht' Hw'. destruct (decide (t' = t)) as [->|Hne]; [by rewrite upd_same in Hw'|].
    rewrite upd_other in Hw' by done. by apply B10.
Qed.

(** Handing the token to the first waiting task, [v]. *)
Lemma inv_up_waiter f ws v s' :
  lists (links (k y)) f -> f !! wait_list sem = Some (waiter_of v :: ws) ->
  sems (k y) !! sem = Some 0 -> 0 + total (tokens y) ts = N ->
  (forall w, w ∈ waiter_of v :: ws -> exists t, t ∈ ts /\ w = waiter_of t /\ at_ y t = Waiting /\
                       granted (k y) t = false) ->
  (forall t, t ∈ ts -> at_ y t = Waiting ->
       exists u, waiters (k y) !! waiter_of t = Some (mk_waiter t u)) ->
  (forall t, t ∈ ts -> waiter_of t ∈ waiter_of v :: ws \/ loose (links (k y)) f (waiter_of t)) ->
  (forall t, t ∈ ts -> at_ y t = Waiting -> granted (k y) t = false -> waiter_of t ∈ waiter_of v :: ws) ->
  at_ y t = Holding -> v ∈ ts -> at_ y v = Waiting -> granted (k y) v = false ->
  lists (links s') (<[wait_list sem := ws]> f) -> loose (links s') (<[wait_list sem := ws]> f) (waiter_of v) ->
  same_out (wait_list sem :: waiter_of v :: ws) (links (k y)) (links s') ->
  sems s' = sems (k y) -> waiters s' = <[waiter_of v := mk_waiter v 1]> (waiters (k y)) ->
  (forall t, t ∈ ts -> is_Some (tasks s' !! t)) ->
  inv N (mk_sys s' (upd t Idle (at_ y))).
Proof.
  intros Hl Hf Hc Htot B7 B8 B9 B10 Hpc Hv Hvp Hvg Hl' Hlo Hs Es Ew Et.
  assert (Hvt : v <> t) by congruence.
  assert (Hvw : forall t', t' ∈ ts -> t' <> v -> waiter_of v <> waiter_of t').
  { intros t' Ht' Hne E. apply Hne. symmetry. by apply (i_inj _ _ Hinv). }
  assert (Hg : forall t', t' ∈ ts -> t' <> v -> granted s' t' = granted (k y) t')
    by (intros t' Ht' Hne; apply (granted_other _ v _ _ _ Ew); auto).
  assert (Hgv : granted s' v = true) by (by rewrite (granted_same _ _ _ _ Ew)).
  assert (Hnd : waiter_of v ∉ ws).
  { destruct (lists_ring _ _ Hl _ _ Hf) as [Hnd _]. apply NoDup_cons in Hnd as [_ Hnd].
    by apply NoDup_cons in Hnd as [Hnd _]. }
  split; [apply Hinv|apply Hinv|exact Et|apply Hinv|].
  exists (<[wait_list sem := ws]> f), ws, 0. cbn [k at_]. rewrite Es.
  split_and!; [done|by rewrite lookup_insert_eq|done|done|done| | | | |].
  - rewrite <- Htot.
    rewrite (total_update (fun x => if x =? v then 1 else tokens y x) _ ts t (i_nodup _ _ Hinv) Ht).
    + rewrite (total_update (tokens y) _ ts v (i_nodup _ _ Hinv) Hv).
      * rewrite Z.eqb_refl. destruct (Z.eqb_spec t v); [congruence|].
        unfold tokens at 2 3 4. cbn [at_ k]. rewrite Hvp, Hvg, Hpc, upd_same. lia.
      * intros t' _ Hne. by destruct (Z.eqb_spec t' v).
    + intros t' Ht' Hne. destruct (Z.eqb_spec t' v) as [->|Hne'].
      * unfold tokens. cbn [at_ k]. by rewrite upd_other, Hvp, Hgv.
      * unfold tokens. cbn [at_ k]. by rewrite upd_other, Hg.
  - intros w Hw. destruct (B7 w) as (t' & Ht' & -> & H1 & H2); [set_solver|]. exists t'.
    assert (t' <> v) by (intros ->; done). assert (t' <> t) by congruence.
    rewrite upd_other, Hg by done. done.
  - intros t' Ht' H. rewrite Ew. destruct (decide (t' = v)) as [->|Hne].
    + exists 1. by rewrite lookup_insert_eq.
    + rewrite lookup_insert_ne by auto. apply B8; [done|].
      destruct (decide (t' = t)) as [->|]; [by rewrite upd_same in H|by rewrite upd_other in H].
  - intros t' Ht'. destruct (decide (t' = v)) as [->|Hne]; [by right|].
    destruct (B9 t' Ht') as [H|H]; [left; specialize (Hvw t' Ht' Hne); set_solver|]. right.
    destruct (loose_not_in _ _ _ _ _ H Hf) as [H1 H2].
    eapply loose_other; [exact H|exact Hs|done|set_solver].
  - intros t' Ht' H H'. destruct (decide (t' = t)) as [->|Hne]; [by rewrite upd_same in H|].
    rewrite upd_other in H by done. destruct (decide (t' = v)) as [->|Hne']; [congruence|].
    rewrite Hg in H' by done. specialize (B10 t' Ht' H H'). specialize (Hvw t' Ht' Hne'). set_solver.
Qed.

(** Each piece returns, without a fault, in a state with the invariant. *)
Lemma wp_step_down :
  at_ y t = Idle ->
  wp (down_begin waiter_of sem)
    (fun r k' => inv N (mk_sys k' (upd t (if r then Waiting else Holding) (at_ y))))
    (set_current_task t (k y)).
Proof.
  intros Hpc. pose proof (i_list _ _ Hinv) as
    (f & ws & c & B1 & B2 & B3 & B4 & B5 & B6 & B7 & B8 & B9 & B10).
  destruct (decide (c = 0)) as [->|Hne].
  - destruct (i_tasks _ _ Hinv t Ht) as [tk Htk].
    assert (Hlo : loose (links (k y)) f (waiter_of t)).
    { destruct (B9 t Ht) as [H|H]; [|done]. destruct (B7 _ H) as (t' & Ht' & E & H1 & _).
      apply (i_inj _ _ Hinv) in E; [|done|done]. congruence. }
    eapply (wp_down_begin_wait waiter_of sem f (set_current_task t (k y)) ws 0 B1 B2 B3 t tk); [done|done|exact Htk|exact Hlo|].
    intros n b h' Hl' Hs. eapply (inv_down_wait f ws); try done.
    intros t' Ht'. cbn. rewrite lookup_insert. case_decide; [eauto|by apply (i_tasks _ _ Hinv)].
  - pose proof (total_nonneg (tokens y) ts (fun t => proj1 (tokens_range y t))).
    pose proof (i_bound _ _ Hinv).
    eapply (wp_down_begin_free _ _ (set_current_task t (k y)) c B3); [lia|].
    intros n b. eapply (inv_down_free f ws); try done. lia.
Qed.

Lemma wp_step_wake :
  at_ y t = Waiting ->
  wp (down_wake waiter_of t)
    (fun b k' => inv N (mk_sys k' (upd t (if (b : bool) then Holding else Waiting) (at_ y))))
    (set_current_task t (k y)).
Proof.
  intros Hpc. pose proof (i_list _ _ Hinv) as
    (f & ws & c & B1 & B2 & B3 & B4 & B5 & B6 & B7 & B8 & B9 & B10).
  destruct (B8 t Ht Hpc) as [u Hu]. destruct (i_tasks _ _ Hinv t Ht) as [tk Htk].
  assert (Hg : granted (k y) t = negb (u =? 0)) by (unfold granted; by rewrite Hu).
  unfold down_wake. wp_simpl. apply wp_exit_any. intros n b. wp_simpl.
  eapply wp_rd_waiter; [exact Hu|]. cbn [w_up]. destruct (negb (u =? 0)) eqn:E; wp_simpl.
  - apply wp_exit_any. intros n' b'. wp_simpl. eapply (inv_wake _ true); try done. apply Hinv.
  - eapply wp_set_task_state; [exact Htk|]. wp_simpl. apply wp_enter_any. intros n' b'. wp_simpl.
    eapply (inv_wake _ false); try done.
    intros t' Ht'. cbn. rewrite lookup_insert. case_decide; [eauto|by apply (i_tasks _ _ Hinv)].
Qed.

Lemma wp_step_up :
  at_ y t = Holding ->
  wp (up sem) (fun _ k' => inv N (mk_sys k' (upd t Idle (at_ y)))) (set_current_task t (k y)).
Proof.
  intros Hpc. pose proof (i_list _ _ Hinv) as
    (f & ws & c & B1 & B2 & B3 & B4 & B5 & B6 & B7 & B8 & B9 & B10).
  destruct ws as [|w ws].
  - eapply (wp_up_free _ _ (set_current_task t (k y)) _ _ B1 B2 B3); [done|].
    intros n b. by eapply inv_up_free.
  - assert (c = 0) as -> by (by apply B5).
    destruct (B7 w) as (v & Hv & -> & Hvp & Hvg); [set_solver|].
    destruct (B8 v Hv Hvp) as [u Hu]. destruct (i_tasks _ _ Hinv v Hv) as [tk Htk].
    eapply (wp_up_waiter _ _ (set_current_task t (k y)) _ B1 B2); [done|exact Hu|exact Htk|].
    intros n b h' Hl' Hlo Hs. eapply (inv_up_waiter f ws v); try done.
    intros t' Ht'. cbn. rewrite lookup_insert. case_decide; [eauto|by apply (i_tasks _ _ Hinv)].
Qed.
End Preserve.

Lemma inv_other N y k' : inv N y -> sem_frame (k y) k' -> inv N (mk_sys k' (at_ y)).
Proof.
  intros [A1 A2 A3 A4 A5] [El Es Ew Et].
  destruct A5 as (f & ws & c & B1 & B2 & B3 & B4 & B5 & B6 & B7 & B8 & B9 & B10).
  assert (Hg : forall t', granted k' t' = granted (k y) t') by (intros t'; unfold granted; by rewrite Ew).
  split; try done; [by intros t Ht; apply Et, A3|].
  exists f, ws, c. cbn [k at_]. rewrite El, Es, Ew. split_and!; try done.
  - rewrite <- B6. f_equal. apply total_ext. intros t _. unfold tokens. cbn [at_ k]. by rewrite Hg.
  - intros w Hw. destruct (B7 w Hw) as (t & ? & ? & ? & ?). exists t. by rewrite Hg.
  - intros t Ht. rewrite Hg. by apply B10.
Qed.

Lemma inv_step N y y' : inv N y -> step y y' -> inv N y'.
Proof.
  intros Hinv Hst. destruct Hst as [t y r k' Ht Hpc E|t y b k' Ht Hpc E|t y k' Ht Hpc E|y k' H].
  - pose proof (wp_step_down N y Hinv t Ht Hpc) as H. unfold wp in H. by rewrite E in H.
  - pose proof (wp_step_wake N y Hinv t Ht Hpc) as H. unfold wp in H. by rewrite E in H.
  - pose proof (wp_step_up N y Hinv t Ht Hpc) as H. unfold wp in H. by rewrite E in H.
  - by apply inv_other.
Qed.

Lemma inv_steps N y y' : inv N y -> rtc step y y' -> inv N y'.
Proof. intros Hinv Hr. induction Hr; eauto using inv_step. Qed.

(** The start: the count is [N], nobody waits and nobody is inside. *)
Definition start (N : Z) (s : kst) : Prop :=
  NoDup ts /\ (forall t1 t2, t1 ∈ ts -> t2 ∈ ts -> waiter_of t1 = waiter_of t2 -> t1 = t2) /\
  (forall t, t ∈ ts -> is_Some (tasks s !! t)) /\ 0 <= N < 4294967296 /\
  exists f, lists (links s) f /\ f !! wait_list sem = Some [] /\ sems s !! sem = Some N /\
    forall t, t ∈ ts -> loose (links s) f (waiter_of t).

Lemma inv_start N s : start N s -> inv N (mk_sys s (fun _ => Idle)).
Proof.
  intros (H1 & H2 & H3 & H4 & f & H5 & H6 & H7 & H8). split; try done; [lia|].
  exists f, [], N. cbn [k at_]. split_and!; try done; try lia.
  - replace (total _ ts) with 0; [lia|]. clear. induction ts as [|x l IH]; cbn; [done|]. by rewrite <- IH.
  - set_solver.
  - intros t Ht. right. by apply H8.
Qed.

Lemma inside_le_N N y : inv N y -> inside y <= N.
Proof.
  intros Hinv. pose proof (i_list _ _ Hinv) as (f & ws & c & B1 & B2 & B3 & B4 & B5 & B6 & _).
  rewrite <- B6. assert (inside y <= total (tokens y) ts); [|lia].
  apply total_le. intros t _. pose proof (tokens_range y t). unfold tokens in *. destruct (at_ y t); lia.
Qed.
End System.
End Interleave.

(** ** A concrete system, for the examples: two tasks and a semaphore at 3000. *)
Definition demo_sem (n : Z) : kst :=
  let nodes := demo_nodes ([3004; 2050; 2150; 2000; 2100; 2200] ++ (queue_head 1000 <$> seqZ 0 8)) in
  run (sched_fifo_init 1000 ;;; sema_init 3000 n)
    (mk_kst (mk_lheap nodes nodes)
       (list_to_map [(2000, demo_task 5 RUNNING); (2100, demo_task 5 READY)])
       [0] 2000 NULL 0 true ∅ 0 true ∅ ∅ ∅ ∅ 0 [] no_mm ∅ ∅ 0).
Definition demo_waiter (t : Z) : Z := t + 50.

Lemma demo_sem_start : Interleave.start demo_waiter 3000 [2000; 2100] 1 (demo_sem 1).
Proof.
  split; [by apply (bool_decide_unpack (NoDup [2000; 2100]))|].
  split; [unfold demo_waiter; intros; lia|].
  split; [intros t Ht; apply list_elem_of_In in Ht; destruct Ht as [<-|[<-|[]]]; eexists; vm_compute; reflexivity|].
  split; [lia|]. exists (list_to_map [(3004, [])]).
  split; [apply lists_b_sound; vm_compute; reflexivity|].
  split; [reflexivity|]. split; [vm_compute; reflexivity|].
  intros t Ht. split.
  - apply list_elem_of_In in Ht. destruct Ht as [<-|[<-|[]]]; split; eexists; vm_compute; reflexivity.
  - intros hd l Hl. apply elem_of_list_to_map_2, list_elem_of_singleton in Hl as [= -> ->].
    unfold demo_waiter. apply list_elem_of_In in Ht. destruct Ht as [<-|[<-|[]]]; set_solver.
Qed.

Definition demo_sem_1 : kst := run (down_begin demo_waiter 3000) (set_current_task 2000 (demo_sem 1)).
Definition demo_sem_2 : kst := run (down_begin demo_waiter 3000) (set_current_task 2100 demo_sem_1).

(** The first task is inside, the second one waits. *)
Definition demo_two : Interleave.sys :=
  Interleave.mk_sys demo_sem_2
    (Interleave.upd 2100 Interleave.Waiting (Interleave.upd 2000 Interleave.Holding (fun _ => Interleave.Idle))).

Lemma demo_two_reach : rtc (Interleave.step demo_waiter 3000 [2000; 2100])
  (Interleave.mk_sys (demo_sem 1) (fun _ => Interleave.Idle)) demo_two.
Proof.
  eapply rtc_l; [eapply (Interleave.step_down _ _ _ 2000 _ None demo_sem_1)|].
  - set_solver.
  - reflexivity.
  - vm_compute. reflexivity.
  - eapply rtc_l; [eapply (Interleave.step_down _ _ _ 2100 _ (Some 2100) demo_sem_2)|apply rtc_refl].
    + set_solver.
    + reflexivity.
    + vm_compute. reflexivity.
Qed.

(** ** Properties *)

(** [C3] Mutual exclusion: tasks that use a semaphore initialised to [N] as a
    lock, in any interleaving of their critical sections with each other and
    with other kernel activity, are never more than [N] inside; and in every
    state they reach, the next piece of [down] or [up] of every task returns
    without a fault. *)
Theorem sem_mutual_exclusion waiter_of sem ts N s y :
  Interleave.start waiter_of sem ts N s ->
  rtc (Interleave.step waiter_of sem ts) (Interleave.mk_sys s (fun _ => Interleave.Idle)) y ->
  Interleave.inside ts y <= N /\
  forall t, t ∈ ts -> exists y', Interleave.step waiter_of sem ts y y' /\
    (Interleave.at_ y t = Interleave.Holding -> Interleave.at_ y' t = Interleave.Idle) /\
    (Interleave.at_ y t = Interleave.Idle -> Interleave.at_ y' t <> Interleave.Idle).
Proof.
  intros Hs Hr. pose proof (Interleave.inv_steps _ _ _ _ _ _ (Interleave.inv_start _ _ _ _ _ Hs) Hr) as Hinv.
  split; [by eapply Interleave.inside_le_N|]. intros t Ht.
  destruct (Interleave.at_ y t) eqn:Hpc.
  - destruct (wp_elim _ _ _ (Interleave.wp_step_down _ _ _ _ _ Hinv t Ht Hpc)) as (r & k' & E & _).
    eexists. split; [by eapply Interleave.step_down|]. cbn [Interleave.at_].
    rewrite Interleave.upd_same. by destruct r.
  - destruct (wp_elim _ _ _ (Interleave.wp_step_wake _ _ _ _ _ Hinv t Ht Hpc)) as (r & k' & E & _).
    eexists. split; [by eapply Interleave.step_wake|]. done.
  - destruct (wp_elim _ _ _ (Interleave.wp_step_up _ _ _ _ _ Hinv t Ht Hpc)) as ([] & k' & E & _).
    eexists. split; [by eapply Interleave.step_up|]. cbn [Interleave.at_].
    by rewrite Interleave.upd_same.
Qed.

Lemma sem_mutual_exclusion_witness : Interleave.inside [2000; 2100] demo_two <= 1.
Proof.
  apply (sem_mutual_exclusion demo_waiter 3000 [2000; 2100] 1 (demo_sem 1) demo_two
           demo_sem_start demo_two_reach).
Defined.

(** [C4] No wakeup is lost and no token is: in every state that can be reached,
    the count and the tokens of the tasks (inside, or handed over and not yet
    taken up) add up to [N], and while the count is positive nobody waits for a
    token. *)
Theorem sem_tokens_conserved waiter_of sem ts N s y :
  Interleave.start waiter_of sem ts N s ->
  rtc (Interleave.step waiter_of sem ts) (Interleave.mk_sys s (fun _ => Interleave.Idle)) y ->
  exists c, sems (Interleave.k y) !! sem = Some c /\
    c + Interleave.total (Interleave.tokens waiter_of y) ts = N /\
    forall t, t ∈ ts -> 0 < c -> Interleave.at_ y t = Interleave.Waiting ->
      Interleave.granted waiter_of (Interleave.k y) t = true.
Proof.
  intros Hs Hr. pose proof (Interleave.inv_steps _ _ _ _ _ _ (Interleave.inv_start _ _ _ _ _ Hs) Hr) as Hinv.
  pose proof (Interleave.i_list _ _ _ _ _ Hinv) as
    (f & ws & c & B1 & B2 & B3 & B4 & B5 & B6 & B7 & B8 & B9 & B10).
  exists c. split_and!; [done|done|]. intros t Ht Hpos Hpc.
  destruct (Interleave.granted waiter_of (Interleave.k y) t) eqn:E; [done|].
  specialize (B10 t Ht Hpc E). assert (c = 0); [|lia]. apply B5. intros ->. set_solver.
Qed.

Lemma sem_tokens_conserved_witness :
  exists c, sems (Interleave.k demo_two) !! 3000 = Some c /\
    c + Interleave.total (Interleave.tokens demo_waiter demo_two) [2000; 2100] = 1.
Proof.
  destruct (sem_tokens_conserved demo_waiter 3000 [2000; 2100] 1 (demo_sem 1) demo_two
           demo_sem_start demo_two_reach) as (c & H1 & H2 & _).
  exists c. split; [exact H1|exact H2].
Defined.

(** First come, first served: [up] on a semaphore with waiting tasks leaves
    the count alone, takes the first waiter off the list, marks it as served and
    makes its task [READY]; the others keep their order. *)
Theorem up_serves_first sem f s w ws t tk u :
  lists (links s) f -> f !! wait_list sem = Some (w :: ws) ->
  waiters s !! w = Some (mk_waiter t u) -> tasks s !! t = Some tk ->
  exists s', up sem s = Ok (tt, s') /\
    lists (links s') (<[wait_list sem := ws]> f) /\ loose (links s') (<[wait_list sem := ws]> f) w /\
    sems s' = sems s /\ waiters s' = <[w := mk_waiter t 1]> (waiters s) /\
    tasks s' = <[t := with_state READY tk]> (tasks s).
Proof.
  intros Hl Hf Hw Htk.
  destruct (wp_elim (up sem) (fun _ s' =>
    lists (links s') (<[wait_list sem := ws]> f) /\ loose (links s') (<[wait_list sem := ws]> f) w /\
    sems s' = sems s /\ waiters s' = <[w := mk_waiter t 1]> (waiters s) /\
    tasks s' = <[t := with_state READY tk]> (tasks s)) s) as ([] & s' & E & H).
  - eapply wp_up_waiter; [exact Hl|exact Hf|done|exact Hw|exact Htk|]. intros n b h' Hl' Hlo _. done.
  - by exists s'.
Qed.

Lemma up_serves_first_witness :
  exists s', up 3000 demo_sem_2 = Ok (tt, s') /\ waiters s' !! 2150 = Some (mk_waiter 2100 1).
Proof.
  destruct (up_serves_first 3000 (list_to_map [(3004, [2150])]) demo_sem_2 2150 [] 2100
    (demo_task 5 BLOCKED) 0) as (s' & E & _ & _ & _ & Hw & _).
  - apply lists_b_sound. vm_compute. reflexivity.
  - reflexivity.
  - vm_compute. reflexivity.
  - vm_compute. reflexivity.
  - exists s'. split; [exact E|]. rewrite Hw. reflexivity.
Defined.

(** [down] is the composition of its pieces: for whatever the other tasks
    do while the caller is switched away, it returns a result exactly when
    [down_begin] followed by turns of scheduling and [down_wake] does, with the
    same state.  With it, what is shown of the pieces is shown of [down]. *)
Theorem down_decomposes all_task resume waiter_of n sem s x :
  down all_task resume waiter_of n sem s = Ok x <->
  down_by_pieces all_task resume waiter_of n sem s = Ok x.
Proof. apply down_is_pieces. Qed.
