(* ===== verification/Env.v ===== *)
(** * The surroundings of the kernel code

    The addresses that the linker and the stacks give to the kernel's static
    and local objects, and the code that runs outside the component at hand:
    the other tasks during a context switch, and the functions behind function
    pointers that are not the kernel's own. *)

From S2P Require Import Prelude KList KState Sched Timer Semaphore.

Record env : Type := mk_env {
  all_task : Z;            (** kernel/sched_fifo.c: [all_task] *)
  timer_list : Z;          (** kernel/timer.c: [timer_list] *)
  zones : Z;               (** mm/page_alloc.c: [zones[ZONE_NORMAL]] *)
  free_slob_small : Z;     (** mm/slob.c *)
  free_slob_medium : Z;
  free_slob_large : Z;
  slob_sem : Z;            (** mm/slob.c: [sem] *)
  kernel_pgd : Z;          (** arch/arm/mmu.c *)
  waiter_of : Z -> Z;      (** the [waiter] of [__down] on a task's stack *)
  wait_of : Z -> Z;        (** the [wait] of the task's [DECLARE_WAITQUEUE] *)
  resume : Z -> Z -> M kst unit;        (** the other tasks, from switch to switch back *)
  wake_other : Z -> Z -> M kst Z;       (** a wait queue function given by its code address *)
  entry_code : Z -> Z -> M kst Z;       (** a task's entry function *)
  timer_other : Z -> Z -> Z -> Z -> M kst handler_return;   (** a timer function given by its code address *)
  work_code : Z -> Z -> M kst unit;     (** a work function *)
  sem_fuel : nat           (** turns of the loop of [__down] *)
}.

(** Semaphore operations in this environment. *)
Definition down (E : env) (sem : Z) : M kst unit :=
  Semaphore.down (all_task E) (resume E) (waiter_of E) (sem_fuel E) sem.
Definition up (sem : Z) : M kst unit := Semaphore.up sem.
Definition task_schedule (E : env) : M kst unit :=
  Semaphore.task_schedule (all_task E) (resume E).

(** A token that is there is taken. *)
Lemma wp_down E sem c s (Q : unit -> kst -> Prop) :
  sems s !! sem = Some c -> 0 < c < 4294967296 ->
  (forall n b, Q tt (crit_set n b (set_sems (<[sem := c - 1]> (sems s)) s))) ->
  wp (down E sem) Q s.
Proof.
  intros Hc Hr HQ. unfold down, Semaphore.down. wp_simpl. apply wp_enter_any. intros n b. wp_simpl.
  eapply wp_rd_sem; [exact Hc|]. destruct (Z.ltb_spec 0 c); [|lia]. wp_simpl.
  eapply wp_wr_sem; [exact Hc|]. apply wp_exit_any. intros n' b'.
  rewrite u32_small by lia. apply (HQ n' b').
Qed.

(** A token given back while nobody waits. *)
Lemma wp_up f sem c s (Q : unit -> kst -> Prop) :
  lists (links s) f -> f !! wait_list sem = Some [] -> sems s !! sem = Some c ->
  0 <= c < 4294967295 ->
  (forall n b, Q tt (crit_set n b (set_sems (<[sem := c + 1]> (sems s)) s))) ->
  wp (up sem) Q s.
Proof.
  intros Hl Hf Hc Hr HQ. unfold up. eapply wp_up_free; [exact Hl|exact Hf|exact Hc|done|].
  intros n b. rewrite u32_small by lia. apply HQ.
Qed.

(** ** A task that waits for itself

    What a computation keeps when it returns, and with it: [down] on a semaphore
    without a token does not return unless another task gives it a token. *)
Definition keeps (I : kst -> Prop) {A} (m : M kst A) : Prop := forall s a s', I s -> m s = Ok (a, s') -> I s'.

Section Keeps.
Context (w : Z).
(** The waiter has not been given a token. *)
Definition not_up (s : kst) : Prop := exists r, waiters s !! w = Some r /\ w_up r = 0.
Notation keep := (keeps not_up).

Lemma keep_ret {A} (a : A) : keep (ret a).
Proof. by intros s x s' Hi [= _ <-]. Qed.
Lemma keep_fail {A} e : keep (fail (A := A) e).
Proof. by intros s x s' _ [=]. Qed.
Lemma keep_gets {A} (f : kst -> A) : keep (gets f).
Proof. by intros s x s' Hi [= _ <-]. Qed.
Lemma keep_lift {A} e (o : option A) : keep (lift_opt e o).
Proof. destruct o; [apply keep_ret|apply keep_fail]. Qed.
Lemma keep_modify f : (forall s, waiters (f s) = waiters s) -> keep (modify f).
Proof. intros Hf s x s' Hi [= _ <-]. unfold not_up. by rewrite Hf. Qed.
Lemma keep_zoom {T A} (g : kst -> T) p (m : M T A) : (forall t s, waiters (p t s) = waiters s) -> keep (zoom g p m).
Proof.
  intros Hp s x s' Hi. unfold zoom. destruct (m (g s)) as [[a t]|]; [|done]. intros [= _ <-]. unfold not_up. by rewrite Hp.
Qed.
Lemma keep_bind {A B} (m : M kst A) (k : A -> M kst B) : keep m -> (forall a, keep (k a)) -> keep (bind m k).
Proof.
  intros Hm Hk s x s' Hi. unfold bind. destruct (m s) as [[a t]|] eqn:E; [|done]. apply Hk. by eapply Hm.
Qed.
Lemma keep_loop {A B} n (body : A -> M kst (A + B)) : (forall a, keep (body a)) -> forall a, keep (loop n body a).
Proof.
  intros Hb. induction n as [|n IH]; intros a; cbn [loop]; [apply keep_fail|].
  apply keep_bind; [done|]. intros [a'|b]; [apply IH|apply keep_ret].
Qed.

Ltac keep := repeat match goal with
  | |- forall _ : _, keeps _ _ => intro
  | |- keeps _ (bind _ _) => apply keep_bind
  | |- keeps _ (loop _ _ _) => apply keep_loop
  | |- keeps _ (ret _) => apply keep_ret
  | |- keeps _ (gets _) => apply keep_gets
  | |- keeps _ (fail _) => apply keep_fail
  | |- keeps _ (lift_opt _ _) => apply keep_lift
  | |- keeps _ (modify _) => apply keep_modify; done
  | |- keeps _ (zoom _ _ _) => apply keep_zoom; done
  | |- keeps _ (on_links _) => apply keep_zoom; done
  | |- keeps _ (if ?b then _ else _) => destruct b
  | |- keeps _ (match ?x with _ => _ end) => destruct x
  end.

Lemma keep_enter : keep enter_critical_section.
Proof. unfold enter_critical_section, arch_disable_ints. keep. Qed.
Lemma keep_exit : keep exit_critical_section.
Proof. unfold exit_critical_section, arch_enable_ints. keep. Qed.
Lemma keep_set_task_state p st : keep (set_task_state p st).
Proof. unfold set_task_state, wr_task, rd_task. keep. Qed.
Lemma keep_pick all_task : keep (sched_fifo_pick_next_task all_task).
Proof.
  unfold sched_fifo_pick_next_task, pick_loop, pick_body, _find_next_task, rd_task, on_bitmap. keep.
  all: apply keep_set_task_state.
Qed.

(** The other tasks do not give the waiter a token. *)
Context (E : env) (Hresume : forall a b, keep (resume E a b)).

Lemma keep_schedule : keep (task_schedule E).
Proof.
  unfold task_schedule, Semaphore.task_schedule, arch_context_switch, rd_task. keep; [apply keep_pick|apply Hresume].
Qed.

Lemma down_turn_waits task : forall s r s', not_up s ->
  __down_turn (all_task E) (resume E) task w s = Ok (r, s') -> r = inl tt /\ not_up s'.
Proof.
  intros s r s' Hi. unfold __down_turn, bind.
  destruct (set_task_state task BLOCKED s) as [[[] s1]|] eqn:E1; [|done].
  destruct (enter_critical_section s1) as [[[] s2]|] eqn:E2; [|done].
  destruct (Semaphore.task_schedule _ _ s2) as [[[] s3]|] eqn:E3; [|done].
  destruct (exit_critical_section s3) as [[[] s4]|] eqn:E4; [|done].
  assert (H4 : not_up s4).
  { eapply keep_exit; [|exact E4]. eapply keep_schedule; [|exact E3]. eapply keep_enter; [|exact E2].
    eapply keep_set_task_state; [exact Hi|exact E1]. }
  destruct H4 as (x & Hx & Hu). unfold rd_waiter, bind, gets. rewrite Hx. cbn. rewrite Hu. cbn.
  intros [= <- <-]. split; [done|]. by exists x.
Qed.

End Keeps.

(** No token, and nobody who would give one: [down] does not return. *)
Lemma down_stuck E sem s :
  sems s !! sem = Some 0 -> (forall w a b, keeps (not_up w) (resume E a b)) ->
  exists e, down E sem s = Err e.
Proof.
  intros Hs Hr. destruct (down E sem s) as [[x s']|e] eqn:Ed; [|by eexists]. exfalso. revert Ed.
  unfold down, Semaphore.down, bind. destruct (enter_critical_section s) as [[[] s1]|] eqn:E1; [|done].
  assert (H1 : sems s1 = sems s).
  { revert E1. unfold enter_critical_section, arch_disable_ints, bind, gets, modify, ret.
    destruct (_ =? 0); intros [= <-]; done. }
  unfold rd_sem, bind, gets. rewrite H1, Hs. cbn [lift_opt ret Z.ltb Z.compare].
  unfold __down, bind, gets. destruct (on_links _ s1) as [[[] s2]|]; [|done]. cbn [modify].
  set (s3 := set_waiters _ s2). set (w := waiter_of E (current_task s1)) in *.
  assert (H3 : not_up w s3).
  { eexists. split; [apply lookup_insert_eq|done]. }
  assert (Hloop : forall n t, not_up w t ->
    exists e, loop n (fun _ : unit => __down_turn (all_task E) (resume E) (current_task s1) w) tt t = Err e).
  { intros n. induction n as [|n IH]; intros t Ht; [by eexists|]. cbn [loop]. unfold bind.
    destruct (__down_turn _ _ _ _ t) as [[r t']|e] eqn:Et; [|by eexists].
    destruct (down_turn_waits w E (Hr w) _ _ _ _ Ht Et) as [-> Ht']. by apply IH. }
  destruct (Hloop (sem_fuel E) s3 H3) as [e ->]. done.
Qed.
