(* ===== verification/PageAlloc.v ===== *)
(** * mm/page_alloc.c: the buddy allocator of pages

    A [struct page] per page frame, in an array at [memmap_pages]; free blocks
    of [2^order] pages hang with their first [struct page] on the free list of
    their order.  [buddy_inv] says that the free blocks lie in the managed range
    and do not overlap; [free_idx] is the pages they hold. *)

From S2P Require Import Prelude KList Bitops KState Sched Timer Semaphore Env.

Definition PAGE_SHIFT : Z := 12.
Definition PAGE_SIZE : Z := 4096.
(** [~(PAGE_SIZE - 1)] on 32 bits *)
Definition PAGE_MASK : Z := 4294963200.
Definition MAX_ORDER : Z := 11.
(** [sizeof(struct page)] *)
Definition page_size : Z := 24.

Definition PAGE_BUDDY_MAPCOUNT_VALUE : Z := -128.

(** Pointer arithmetic on [struct page *], and [&page->list]. *)
Definition page_plus (p k : Z) : Z := u32 (p + page_size * k).
Definition page_list (p : Z) : Z := p + 4.
Definition page_of_list (a : Z) : Z := a - 4.

Definition on_mm {A} (m : M mm_st A) : M kst A := zoom mm set_mm m.

Definition set_pages (v : gmap Z page) (m : mm_st) : mm_st :=
  mk_mm (memmap_pages m) (zone_start_pfn m) (spanned_pages m) (managed_pages m) (nr_free m) v (slobs m).
Definition set_nr_free (v : list Z) (m : mm_st) : mm_st :=
  mk_mm (memmap_pages m) (zone_start_pfn m) (spanned_pages m) (managed_pages m) v (pages m) (slobs m).
Definition set_slobs (v : gmap Z Z) (m : mm_st) : mm_st :=
  mk_mm (memmap_pages m) (zone_start_pfn m) (spanned_pages m) (managed_pages m) (nr_free m) (pages m) v.

Definition rd_page (p : Z) : M kst page :=
  on_mm (m <- gets pages ;; lift_opt (bad_ptr p) (m !! p)).
Definition wr_page (p : Z) (g : page -> page) : M kst unit :=
  pg <- rd_page p ;; on_mm (modify (fun m => set_pages (<[p := g pg]> (pages m)) m)).

Definition with_index (v : Z) (pg : page) : page := mk_page (pg_flags pg) v (pg_units pg) (pg_private pg).
Definition with_units (v : Z) (pg : page) : page := mk_page (pg_flags pg) (pg_index pg) v (pg_private pg).
Definition with_private (v : Z) (pg : page) : page := mk_page (pg_flags pg) (pg_index pg) (pg_units pg) v.

(** [zone->free_area[order].nr_free += d] *)
Definition add_nr_free (order d : Z) : M kst unit :=
  on_mm (l <- gets nr_free ;;
         n <- lift_opt (BadIndex order) (if order <? 0 then None else l !! Z.to_nat order) ;;
         modify (fun m => set_nr_free (<[Z.to_nat order := u32 (n + d)]> (nr_free m)) m)).

(** include/mm/page_alloc.h *)
Definition page_order (p : Z) : M kst Z := pg <- rd_page p ;; ret (pg_private pg).
Definition PageBuddy (p : Z) : M kst bool :=
  pg <- rd_page p ;; ret (pg_units pg =? PAGE_BUDDY_MAPCOUNT_VALUE).
Definition __SetPageBuddy (p : Z) : M kst unit := wr_page p (with_units PAGE_BUDDY_MAPCOUNT_VALUE).
Definition __ClearPageBuddy (p : Z) : M kst unit := wr_page p (with_units (-1)).

Definition set_page_order (p order : Z) : M kst unit :=
  wr_page p (with_private order) ;;; __SetPageBuddy p.
Definition rmv_page_order (p : Z) : M kst unit :=
  wr_page p (with_private 0) ;;; __ClearPageBuddy p.

(** include/arch/arm/arch.h: [32 - __clz(x)] *)
Definition __clz (x : Z) : Z := let x := u32 x in if x =? 0 then 32 else 31 - Z.log2 x.
Definition fls (x : Z) : Z := 32 - __clz x.

Definition get_order (size : Z) : Z :=
  let size := u32 (size - 1) in
  let size := Z.shiftr size PAGE_SHIFT in
  fls size.

Section PageAlloc.
Context (E : env).

(** [&zone->free_area[order].free_list], [&zone->lock] *)
Definition free_list (order : Z) : Z := zones E + 12 + 12 * order.
Definition zone_lock : Z := zones E + 144.

Definition insert_to_free_area (page page_num : Z) : M kst unit :=
  loop (S (S (Z.to_nat page_num) + 11))%nat (fun '(order, cur_page, cur_num) =>
      let element_num := u32 (Z.shiftl 1 order) in
      '(order, cur_page, cur_num) <-
        (if element_num <=? cur_num then
           on_links (INIT_LIST_HEAD (page_list cur_page)) ;;;
           on_links (list_add_tail (page_list cur_page) (free_list order)) ;;;
           add_nr_free order 1 ;;;
           ret (order, page_plus cur_page element_num, u32 (cur_num - element_num))
         else ret (if 0 <? order then order - 1 else order, cur_page, cur_num)) ;;
      if 0 <? s32 cur_num then ret (inl (order, cur_page, cur_num)) else ret (inr tt))
    (MAX_ORDER - 1, page, page_num).

Definition page_alloc_init (addr size : Z) : M kst unit :=
  if NULL =? addr then ret tt else
  let addr_origin := addr in
  let addr := Z.land (u32 (addr + PAGE_SIZE - 1)) PAGE_MASK in
  let size := Z.land (u32 (size - u32 (addr - addr_origin))) PAGE_MASK in
  let spanned := Z.shiftr size PAGE_SHIFT in
  on_mm (modify (fun m => mk_mm (memmap_pages m) (Z.shiftr addr PAGE_SHIFT) spanned
                            (managed_pages m) (nr_free m) (pages m) (slobs m))) ;;;
  loop 12 (fun i => if i <? MAX_ORDER then on_links (INIT_LIST_HEAD (free_list i)) ;;; ret (inl (i + 1))
                    else ret (inr tt)) 0 ;;;
  let used_pages := u32 (Z.shiftr (u32 (spanned * page_size)) PAGE_SHIFT + 1) in
  let managed := u32 (spanned - used_pages) in
  on_mm (modify (fun m => mk_mm (memmap_pages m) (zone_start_pfn m) (spanned_pages m) managed
                            (nr_free m) (pages m) (slobs m))) ;;;
  sema_init zone_lock 1 ;;;
  on_mm (modify (fun m => mk_mm addr (zone_start_pfn m) (spanned_pages m) (managed_pages m)
                            (nr_free m) (pages m) (slobs m))) ;;;
  loop (S (Z.to_nat managed)) (fun i =>
      if i <? managed then
        wr_page (page_plus addr i) (fun _ => mk_page [0] i 0 0) ;;; ret (inl (i + 1))
      else ret (inr tt)) 0 ;;;
  insert_to_free_area (page_plus addr used_pages) managed.

(** [area] is [&zone->free_area[high]] all along. *)
Definition expand (page low high : Z) : M kst unit :=
  loop 12 (fun '(high, size) =>
      if low <? high then
        let high := high - 1 in
        let size := Z.shiftr size 1 in
        let half := page_plus page size in
        on_links (list_add (page_list half) (free_list high)) ;;;
        add_nr_free high 1 ;;;
        set_page_order half high ;;;
        ret (inl (high, size))
      else ret (inr tt)) (high, u32 (Z.shiftl 1 high)).

Definition __rmqueue (order : Z) : M kst Z :=
  loop 12 (fun current_order =>
      if current_order <? MAX_ORDER then
        e <- on_links (list_empty (free_list current_order)) ;;
        if (e : bool) then ret (inl (current_order + 1)) else
        a <- on_links (rd_next (free_list current_order)) ;;
        let page := page_of_list a in
        on_links (list_del (page_list page)) ;;;
        rmv_page_order page ;;;
        add_nr_free current_order (-1) ;;;
        expand page order current_order ;;;
        wr_page page (with_private order) ;;;
        ret (inr page)
      else ret (inr NULL)) order.

Definition page_address (page : Z) : M kst Z :=
  base <- gets (fun s => memmap_pages (mm s)) ;;
  let page_idx := u32 ((page - base) / page_size) in
  ret (u32 (base + u32 (Z.shiftl page_idx PAGE_SHIFT))).

Definition alloc_pages (size : Z) : M kst Z :=
  let order := get_order size in
  if MAX_ORDER <=? order then ret NULL else
  down E zone_lock ;;;
  page <- __rmqueue order ;;
  up zone_lock ;;;
  ret page.

Definition __find_buddy_index (page_idx order : Z) : Z := Z.lxor page_idx (Z.shiftl 1 order).

Definition page_is_buddy (buddy order : Z) : M kst bool :=
  b <- PageBuddy buddy ;;
  if (b : bool) then o <- page_order buddy ;; ret (o =? order) else ret false.

Definition free_one_page (page order : Z) : M kst unit :=
  pg <- rd_page page ;;
  '(page, order) <- loop 12 (fun '(page, page_idx, order) =>
      if order <? MAX_ORDER - 1 then
        let buddy_idx := __find_buddy_index page_idx order in
        let buddy := page_plus page (buddy_idx - page_idx) in
        b <- page_is_buddy buddy order ;;
        if negb b then ret (inr (page, order)) else
        on_links (list_del (page_list buddy)) ;;;
        add_nr_free order (-1) ;;;
        rmv_page_order buddy ;;;
        let combined_idx := Z.land buddy_idx page_idx in
        ret (inl (page_plus page (combined_idx - page_idx), combined_idx, order + 1))
      else ret (inr (page, order))) (page, pg_index pg, order) ;;
  set_page_order page order ;;;
  on_links (list_add (page_list page) (free_list order)) ;;;
  add_nr_free order 1.

Definition __free_pages (page order : Z) : M kst unit :=
  down E zone_lock ;;; free_one_page page order ;;; up zone_lock.

Definition virt_to_page (addr : Z) : M kst Z :=
  let pfn := Z.shiftr (u32 addr) PAGE_SHIFT in
  m <- gets mm ;;
  if (u32 (zone_start_pfn m + spanned_pages m) <? pfn) || (pfn <? zone_start_pfn m) then ret NULL
  else ret (page_plus (memmap_pages m) (u32 (pfn - zone_start_pfn m))).

Definition free_pages (addr : Z) : M kst unit :=
  if 0 =? addr then ret tt else
  page <- virt_to_page addr ;;
  if negb (NULL =? page) then
    pg <- rd_page page ;;
    __free_pages page (pg_private pg)
  else ret tt.
End PageAlloc.

(** ** Symbolic execution *)

Lemma wp_rd_page s p pg (Q : page -> kst -> Prop) :
  pages (mm s) !! p = Some pg -> Q pg s -> wp (rd_page p) Q s.
Proof.
  intros H HQ. unfold rd_page, on_mm. wp_simpl. rewrite H. wp_simpl. by destruct s.
Qed.

Lemma wp_wr_page s p pg g (Q : unit -> kst -> Prop) :
  pages (mm s) !! p = Some pg ->
  Q tt (set_mm (set_pages (<[p := g pg]> (pages (mm s))) (mm s)) s) -> wp (wr_page p g) Q s.
Proof.
  intros H HQ. unfold wr_page. wp_simpl. eapply wp_rd_page; [exact H|]. unfold on_mm. by wp_simpl.
Qed.

Lemma wp_add_nr_free s o n d (Q : unit -> kst -> Prop) :
  0 <= o -> nr_free (mm s) !! Z.to_nat o = Some n ->
  Q tt (set_mm (set_nr_free (<[Z.to_nat o := u32 (n + d)]> (nr_free (mm s))) (mm s)) s) ->
  wp (add_nr_free o d) Q s.
Proof.
  intros Ho H HQ. unfold add_nr_free, on_mm. wp_simpl. destruct (Z.ltb_spec o 0); [lia|].
  rewrite H. by wp_simpl.
Qed.

Lemma wp_page_pair s p pg u v (Q : unit -> kst -> Prop) :
  pages (mm s) !! p = Some pg ->
  Q tt (set_mm (set_pages (<[p := with_units u (with_private v pg)]> (pages (mm s))) (mm s)) s) ->
  wp (wr_page p (with_private v) ;;; wr_page p (with_units u)) Q s.
Proof.
  intros H HQ. wp_simpl. eapply wp_wr_page; [exact H|]. eapply wp_wr_page.
  - cbn. by rewrite lookup_insert_eq.
  - cbn. rewrite insert_insert_eq. by destruct s.
Qed.

Lemma wp_set_page_order s p pg o (Q : unit -> kst -> Prop) :
  pages (mm s) !! p = Some pg ->
  Q tt (set_mm (set_pages (<[p := with_units PAGE_BUDDY_MAPCOUNT_VALUE (with_private o pg)]>
                             (pages (mm s))) (mm s)) s) ->
  wp (set_page_order p o) Q s.
Proof. apply wp_page_pair. Qed.

Lemma wp_rmv_page_order s p pg (Q : unit -> kst -> Prop) :
  pages (mm s) !! p = Some pg ->
  Q tt (set_mm (set_pages (<[p := with_units (-1) (with_private 0 pg)]> (pages (mm s))) (mm s)) s) ->
  wp (rmv_page_order p) Q s.
Proof. apply wp_page_pair. Qed.

(** ** Free blocks *)

Lemma flat_map_update {A} (g g' : Z -> list A) l o x :
  NoDup l -> o ∈ l -> g o ≡ₚ x ++ g' o -> (forall o', o' <> o -> g o' = g' o') ->
  flat_map g l ≡ₚ x ++ flat_map g' l.
Proof.
  intros Hnd Ho Hg Hext. induction l as [|y l IH]; [set_solver|].
  apply NoDup_cons in Hnd as [Hy Hnd]. cbn [flat_map].
  destruct (decide (y = o)) as [->|Hne].
  - rewrite Hg, <- app_assoc. do 2 f_equiv.
    clear -Hy Hext. induction l as [|z l IH]; [done|]. cbn [flat_map].
    rewrite Hext by set_solver. rewrite IH by set_solver. done.
  - rewrite IH; [|done|set_solver]. rewrite Hext by done.
    rewrite !app_assoc. f_equiv. apply Permutation_app_comm.
Qed.

(** ** Buddies *)
Lemma buddy_cases j o : 0 <= j -> 0 <= o ->
  (Z.lxor j (2 ^ o) = j + 2 ^ o /\ Z.land (Z.lxor j (2 ^ o)) j = j) \/
  (Z.lxor j (2 ^ o) = j - 2 ^ o /\ Z.land (Z.lxor j (2 ^ o)) j = j - 2 ^ o).
Proof.
  intros Hj Ho. destruct (Z.testbit j o) eqn:Hb.
  - right. assert (Hx : Z.lxor j (2 ^ o) = Z.ldiff j (2 ^ o)).
    { apply Z.bits_inj'. intros n Hn. rewrite Z.lxor_spec, Z.ldiff_spec, Z.pow2_bits_eqb by lia.
      destruct (Z.eqb_spec o n) as [<-|]; [by rewrite Hb|]. by destruct (Z.testbit j n). }
    assert (Hs : j - 2 ^ o = Z.ldiff j (2 ^ o)).
    { apply Z.sub_nocarry_ldiff. apply Z.bits_inj'. intros n Hn.
      rewrite Z.ldiff_spec, Z.pow2_bits_eqb, Z.bits_0 by lia.
      destruct (Z.eqb_spec o n) as [<-|]; [by rewrite Hb|done]. }
    rewrite Hx, Hs. split; [done|]. apply Z.bits_inj'. intros n Hn.
    rewrite Z.land_spec, Z.ldiff_spec. by destruct (Z.testbit j n); rewrite ?andb_true_r.
  - left. assert (Hx : j + 2 ^ o = Z.lxor j (2 ^ o)).
    { apply Z.add_nocarry_lxor. apply Z.bits_inj'. intros n Hn.
      rewrite Z.land_spec, Z.pow2_bits_eqb, Z.bits_0 by lia.
      destruct (Z.eqb_spec o n) as [<-|]; [by rewrite Hb|by rewrite andb_false_r]. }
    split; [done|]. apply Z.bits_inj'. intros n Hn.
    rewrite Z.land_spec, Z.lxor_spec, Z.pow2_bits_eqb by lia.
    destruct (Z.eqb_spec o n) as [<-|]; [by rewrite Hb|]. by destruct (Z.testbit j n).
Qed.

(** The buddy of a page below a multiple of the largest block is below it. *)
Lemma buddy_range j o M : 0 <= j < M -> 0 <= o < 11 -> (2048 | M) -> 0 <= Z.lxor j (2 ^ o) < M.
Proof.
  intros Hj Ho [k Hk]. split; [apply Z.lxor_nonneg; split; intros; [apply Z.pow_nonneg; lia|lia]|].
  assert (Hsh : Z.shiftr (Z.lxor j (2 ^ o)) 11 = Z.shiftr j 11).
  { rewrite Z.shiftr_lxor, (Z.shiftr_div_pow2 (2 ^ o)), Z.div_small; [apply Z.lxor_0_r| |lia].
    split; [apply Z.pow_nonneg; lia|]. apply Z.pow_lt_mono_r; lia. }
  rewrite !Z.shiftr_div_pow2 in Hsh by lia. change (2 ^ 11) with 2048 in Hsh. subst M.
  assert (j / 2048 < k) by (apply Z.div_lt_upper_bound; lia).
  pose proof (Z.mul_succ_div_gt (Z.lxor j (2 ^ o)) 2048 ltac:(lia)). nia.
Qed.

Section Buddy.
Context (E : env) (B lo hi M : Z).
Context (HB : 0 < B) (HM : B + 24 * M < 4294967296) (Hlo : 0 <= lo) (Hhi : hi <= M)
  (Hdiv : (2048 | M)).

(** The [struct page] of frame [i], and its list node. *)
Definition pg_at (i : Z) : Z := B + 24 * i.
Definition nd (i : Z) : Z := B + 24 * i + 4.
Definition idx (a : Z) : Z := (a - 4 - B) / 24.

Definition blocks (f : gmap Z (list Z)) (o : Z) : list Z :=
  match f !! free_list E o with
  | Some q => flat_map (fun a => seqZ (idx a) (2 ^ o)) q
  | None => []
  end.
(** Every page of every free block. *)
Definition free_idx (f : gmap Z (list Z)) : list Z := flat_map (blocks f) (seqZ 0 11).

Lemma idx_nd i : idx (nd i) = i.
Proof. unfold idx, nd. replace (B + 24 * i + 4 - 4 - B) with (i * 24) by lia. by rewrite Z.div_mul. Qed.
Lemma nd_inj i j : nd i = nd j -> i = j.
Proof. unfold nd. lia. Qed.
Lemma page_of_nd i : page_of_list (nd i) = pg_at i.
Proof. unfold page_of_list, nd, pg_at. lia. Qed.
Lemma page_list_at i : page_list (pg_at i) = nd i.
Proof. done. Qed.
Lemma free_list_inj o o' : free_list E o = free_list E o' -> o = o'.
Proof. unfold free_list. lia. Qed.
Lemma page_plus_at i k : 0 <= i + k <= M -> page_plus (pg_at i) k = pg_at (i + k).
Proof. intros H. unfold page_plus, pg_at, page_size. rewrite u32_small; lia. Qed.

Record buddy_inv (f : gmap Z (list Z)) (s : kst) : Prop := {
  bi_lists : lists (links s) f;
  bi_queue : forall o, 0 <= o < 11 -> exists q, f !! free_list E o = Some q /\
    nr_free (mm s) !! Z.to_nat o = Some (u32 (Z.of_nat (length q))) /\
    forall a, a ∈ q -> exists i, a = nd i /\ lo <= i /\ i + 2 ^ o <= hi;
  bi_nodup : NoDup (free_idx f);
  bi_page : forall i, 0 <= i < M -> exists pg, pages (mm s) !! pg_at i = Some pg /\ pg_index pg = i;
  bi_flag : forall i pg, 0 <= i < M -> pages (mm s) !! pg_at i = Some pg ->
    pg_units pg = PAGE_BUDDY_MAPCOUNT_VALUE ->
    0 <= pg_private pg < 11 /\ exists q, f !! free_list E (pg_private pg) = Some q /\ nd i ∈ q;
  bi_inner : forall o q i j, 0 <= o < 11 -> f !! free_list E o = Some q -> nd i ∈ q ->
    i < j < i + 2 ^ o -> loose (links s) f (nd j)
}.

(** A block of [2^o] pages from [i] on that is in nobody's list. *)
Record held (f : gmap Z (list Z)) (s : kst) (i o : Z) : Prop := {
  h_order : 0 <= o < 11;
  h_lo : lo <= i;
  h_hi : i + 2 ^ o <= hi;
  h_out : forall j, i <= j < i + 2 ^ o -> j ∉ free_idx f;
  h_loose : forall j, i <= j < i + 2 ^ o -> loose (links s) f (nd j)
}.

Lemma free_idx_update f o q q' x :
  0 <= o < 11 -> f !! free_list E o = Some q ->
  flat_map (fun a => seqZ (idx a) (2 ^ o)) q ≡ₚ x ++ flat_map (fun a => seqZ (idx a) (2 ^ o)) q' ->
  free_idx f ≡ₚ x ++ free_idx (<[free_list E o := q']> f).
Proof.
  intros Ho Hq Hx. apply (flat_map_update _ _ _ o).
  - apply NoDup_seqZ.
  - apply elem_of_seqZ. lia.
  - unfold blocks. by rewrite Hq, lookup_insert_eq.
  - intros o' Hne. unfold blocks. rewrite lookup_insert_ne; [done|].
    intros H%free_list_inj. lia.
Qed.

Lemma free_idx_remove f o l1 i l2 :
  0 <= o < 11 -> f !! free_list E o = Some (l1 ++ nd i :: l2) ->
  free_idx f ≡ₚ seqZ i (2 ^ o) ++ free_idx (<[free_list E o := l1 ++ l2]> f).
Proof.
  intros Ho Hq. apply (free_idx_update f o (l1 ++ nd i :: l2)); [done|done|].
  rewrite !flat_map_app. cbn [flat_map]. rewrite idx_nd.
  rewrite !app_assoc. f_equiv. apply Permutation_app_comm.
Qed.

Lemma free_idx_add f o q q' i :
  0 <= o < 11 -> f !! free_list E o = Some q -> q' ≡ₚ nd i :: q ->
  free_idx (<[free_list E o := q']> f) ≡ₚ seqZ i (2 ^ o) ++ free_idx f.
Proof.
  intros Ho Hq Hq'.
  pose proof (free_idx_update (<[free_list E o := q']> f) o q' q (seqZ i (2 ^ o)) Ho) as H.
  rewrite lookup_insert_eq, insert_insert_eq, (insert_id f _ q Hq) in H. apply H; [done|].
  rewrite <- (idx_nd i).
  change (_ ++ _) with (flat_map (fun a => seqZ (idx a) (2 ^ o)) (nd i :: q)).
  rewrite !flat_map_concat_map. by rewrite Hq'.
Qed.

Lemma free_idx_in f o q i j :
  0 <= o < 11 -> f !! free_list E o = Some q -> nd i ∈ q -> i <= j < i + 2 ^ o -> j ∈ free_idx f.
Proof.
  intros Ho Hq Hi Hj. apply list_elem_of_split in Hi as (l1 & l2 & ->).
  rewrite (free_idx_remove f o l1 i l2) by done. apply elem_of_app. left. apply elem_of_seqZ. lia.
Qed.

(** What a step does to the rest of the allocator's state. *)
Record page_step (s s' : kst) (i : Z) (pg' : page) (o d : Z) : Prop := {
  ps_pages : pages (mm s') = <[pg_at i := pg']> (pages (mm s));
  ps_free : exists n, nr_free (mm s) !! Z.to_nat o = Some n /\
    nr_free (mm s') = <[Z.to_nat o := u32 (n + d)]> (nr_free (mm s));
  ps_rest : mm s' = set_nr_free (nr_free (mm s')) (set_pages (pages (mm s')) (mm s));
  ps_state : s' = set_mm (mm s') (set_links (links s') s)
}.

Lemma pg_at_inj i j : pg_at i = pg_at j -> i = j.
Proof. unfold pg_at. lia. Qed.

Lemma page_step_page s s' i pg' o d f :
  page_step s s' i pg' o d -> buddy_inv f s -> pg_index pg' = i -> 
  forall j, 0 <= j < M -> exists pg, pages (mm s') !! pg_at j = Some pg /\ pg_index pg = j.
Proof.
  intros [Hp _ _ _] Hinv Hi j Hj. rewrite Hp, lookup_insert. case_decide as Ed.
  - apply pg_at_inj in Ed. subst j. eauto.
  - by apply (bi_page _ _ Hinv).
Qed.

(** The counters follow the lengths of the lists. *)
Lemma page_step_free s s' i pg' o d f q' :
  page_step s s' i pg' o d -> buddy_inv f s -> 0 <= o < 11 ->
  (forall q, f !! free_list E o = Some q -> Z.of_nat (length q') = Z.of_nat (length q) + d) ->
  (forall a, a ∈ q' -> exists i, a = nd i /\ lo <= i /\ i + 2 ^ o <= hi) ->
  forall o', 0 <= o' < 11 -> exists q, (<[free_list E o := q']> f) !! free_list E o' = Some q /\
    nr_free (mm s') !! Z.to_nat o' = Some (u32 (Z.of_nat (length q))) /\
    forall a, a ∈ q -> exists i, a = nd i /\ lo <= i /\ i + 2 ^ o' <= hi.
Proof.
  intros [_ (n & Hn & Hf) _ _] Hinv Ho Hlen Hmem o' Ho'. rewrite Hf.
  destruct (bi_queue _ _ Hinv o' Ho') as (q & Hq & Hnr & Hr).
  destruct (decide (o' = o)) as [->|Hne].
  - exists q'. rewrite lookup_insert_eq. split; [done|]. split; [|done].
    rewrite list_lookup_insert_eq by (by eapply lookup_lt_Some). rewrite Hnr in Hn.
    injection Hn as <-. rewrite (Hlen q Hq). f_equal. unfold u32. apply Zplus_mod_idemp_l.
  - exists q. rewrite lookup_insert_ne by (intros H%free_list_inj; lia).
    rewrite list_lookup_insert_ne by lia. done.
Qed.

(** Taking a block off its list. *)
Lemma inv_take f s s' o l1 i l2 pg' :
  buddy_inv f s -> 0 <= o < 11 -> f !! free_list E o = Some (l1 ++ nd i :: l2) ->
  let f' := <[free_list E o := l1 ++ l2]> f in
  lists (links s') f' -> loose (links s') f' (nd i) ->
  same_out (free_list E o :: l1 ++ nd i :: l2) (links s) (links s') ->
  page_step s s' i pg' o (-1) -> pg_index pg' = i -> pg_units pg' <> PAGE_BUDDY_MAPCOUNT_VALUE ->
  buddy_inv f' s' /\ held f' s' i o /\ free_idx f ≡ₚ seqZ i (2 ^ o) ++ free_idx f'.
Proof.
  intros Hinv Ho Hq f' Hl' Hlo' Hs Hps Hi Hu.
  pose proof (free_idx_remove f o l1 i l2 Ho Hq) as Hperm. fold f' in Hperm.
  destruct (bi_queue _ _ Hinv o Ho) as (q0 & Hq0 & Hnr & Hr). rewrite Hq in Hq0. injection Hq0 as <-.
  destruct (Hr (nd i)) as (i' & Hi' & Hr1 & Hr2); [set_solver|]. apply nd_inj in Hi'. subst i'.
  pose proof (bi_nodup _ _ Hinv) as Hnd. rewrite Hperm in Hnd. apply NoDup_app in Hnd as (_ & Hdisj & Hnd).
  assert (Hloose : forall j, loose (links s) f (nd j) -> loose (links s') f' (nd j)).
  { intros j Hj. destruct (loose_not_in _ _ _ _ _ Hj Hq) as [H1 H2].
    eapply loose_other; [exact Hj|exact Hs|done|set_solver]. }
  split_and!; [split| |done].
  - done.
  - eapply page_step_free; [exact Hps|exact Hinv|done| |].
    + intros q Hq'. rewrite Hq in Hq'. injection Hq' as <-. rewrite !length_app. cbn. lia.
    + intros a Ha. apply Hr. set_solver.
  - done.
  - by eapply page_step_page.
  - intros j pg Hj. rewrite (ps_pages _ _ _ _ _ _ Hps), lookup_insert. case_decide as Ed.
    + intros [= <-]. done.
    + intros Hpg Hf. destruct (bi_flag _ _ Hinv j pg Hj Hpg Hf) as (Hp & q & Hq' & Hin).
      split; [done|]. unfold f'. destruct (decide (pg_private pg = o)) as [Eo|Hne].
      * rewrite Eo, lookup_insert_eq. eexists. split; [done|]. rewrite Eo, Hq in Hq'.
        injection Hq' as <-. assert (nd j <> nd i) by (intros ->%nd_inj; done). set_solver.
      * rewrite lookup_insert_ne by (intros H%free_list_inj; lia). eauto.
  - intros o' q i' j Ho' Hq' Hin Hj. apply Hloose. unfold f' in Hq'.
    destruct (decide (o' = o)) as [->|Hne].
    + rewrite lookup_insert_eq in Hq'. injection Hq' as <-.
      eapply (bi_inner _ _ Hinv o _ i'); [done|exact Hq|set_solver|done].
    + rewrite lookup_insert_ne in Hq' by (intros H%free_list_inj; lia).
      by eapply (bi_inner _ _ Hinv o' q i').
  - split; [done|done|done| |].
    + intros j Hj Hin. apply (Hdisj j); [apply elem_of_seqZ; lia|done].
    + intros j Hj. destruct (decide (j = i)) as [->|Hne]; [done|].
      apply Hloose. eapply (bi_inner _ _ Hinv o _ i); [done|exact Hq|set_solver|lia].
Qed.

(** Putting a block on the list of its order. *)
Lemma inv_put f s s' o q q' i pg' :
  buddy_inv f s -> held f s i o -> f !! free_list E o = Some q -> q' ≡ₚ nd i :: q ->
  let f' := <[free_list E o := q']> f in
  lists (links s') f' -> same_out (nd i :: free_list E o :: q) (links s) (links s') ->
  page_step s s' i pg' o 1 -> pg_index pg' = i ->
  (pg_units pg' = PAGE_BUDDY_MAPCOUNT_VALUE -> pg_private pg' = o) ->
  buddy_inv f' s' /\ free_idx f' ≡ₚ seqZ i (2 ^ o) ++ free_idx f.
Proof.
  intros Hinv [Ho Hb1 Hb2 Hout Hloo] Hq Hq' f' Hl' Hs Hps Hi Hu.
  pose proof (free_idx_add f o q q' i Ho Hq Hq') as Hperm. fold f' in Hperm.
  destruct (bi_queue _ _ Hinv o Ho) as (q0 & Hq0 & Hnr & Hr). rewrite Hq in Hq0. injection Hq0 as <-.
  assert (Hloose : forall j, j <> i -> loose (links s) f (nd j) -> loose (links s') f' (nd j)).
  { intros j Hne Hj. destruct (loose_not_in _ _ _ _ _ Hj Hq) as [H1 H2].
    eapply loose_other; [exact Hj|exact Hs|done|]. rewrite Hq'.
    assert (nd j <> nd i) by (intros ->%nd_inj; done). set_solver. }
  split; [split|done].
  - done.
  - eapply page_step_free; [exact Hps|exact Hinv|done| |].
    + intros q0 Hq0. rewrite Hq in Hq0. injection Hq0 as <-. rewrite Hq'. cbn. lia.
    + intros a. rewrite Hq'. intros [->|Ha]%elem_of_cons; [eauto|by apply Hr].
  - rewrite Hperm. apply NoDup_app. split_and!; [apply NoDup_seqZ| |apply Hinv].
    intros j Hj%elem_of_seqZ. apply Hout. lia.
  - by eapply page_step_page.
  - intros j pg Hj. rewrite (ps_pages _ _ _ _ _ _ Hps), lookup_insert. case_decide as Ed.
    + apply pg_at_inj in Ed. subst j. intros [= <-] Hf. rewrite (Hu Hf). split; [done|].
      exists q'. unfold f'. rewrite lookup_insert_eq. split; [done|]. rewrite Hq'. set_solver.
    + intros Hpg Hf. destruct (bi_flag _ _ Hinv j pg Hj Hpg Hf) as (Hp & q0 & Hq0 & Hin).
      split; [done|]. unfold f'. destruct (decide (pg_private pg = o)) as [Eo|Hne].
      * rewrite Eo, lookup_insert_eq. exists q'. split; [done|]. rewrite Eo, Hq in Hq0.
        injection Hq0 as <-. rewrite Hq'. set_solver.
      * rewrite lookup_insert_ne by (intros H%free_list_inj; lia). eauto.
  - intros o' q0 i' j Ho' Hq0 Hin Hj. unfold f' in Hq0.
    destruct (decide (o' = o)) as [->|Hne].
    + rewrite lookup_insert_eq in Hq0. injection Hq0 as <-. rewrite Hq' in Hin.
      apply elem_of_cons in Hin as [->%nd_inj|Hin].
      * apply Hloose; [lia|]. apply Hloo. lia.
      * apply Hloose; [|by eapply (bi_inner _ _ Hinv o _ i')].
        intros ->. eapply (Hout i); [lia|]. eapply free_idx_in; [done|exact Hq|exact Hin|lia].
    + rewrite lookup_insert_ne in Hq0 by (intros H%free_list_inj; lia).
      apply Hloose; [|by eapply (bi_inner _ _ Hinv o' q0 i')].
      intros ->. eapply (Hout i); [lia|]. eapply (free_idx_in f o'); [done|exact Hq0|exact Hin|lia].
Qed.

(** A block in hand stays in hand while others are put back or taken. *)
Lemma held_put f s s' o q q' i i2 o2 :
  held f s i o -> held f s i2 o2 -> f !! free_list E o = Some q -> q' ≡ₚ nd i :: q ->
  (forall j, i2 <= j < i2 + 2 ^ o2 -> ~ (i <= j < i + 2 ^ o)) ->
  same_out (nd i :: free_list E o :: q) (links s) (links s') ->
  held (<[free_list E o := q']> f) s' i2 o2.
Proof.
  intros [Ho Hb1 Hb2 Hout Hloo] [Ho2 Hc1 Hc2 Hout2 Hloo2] Hq Hq' Hd Hs.
  split; [done|done|done| |].
  - intros j Hj. rewrite (free_idx_add f o q q' i) by done.
    intros [Hin%elem_of_seqZ|Hin]%elem_of_app; [by eapply Hd, Hin|by eapply Hout2].
  - intros j Hj. destruct (loose_not_in _ _ _ _ _ (Hloo2 j Hj) Hq) as [H1 H2].
    eapply loose_other; [by apply Hloo2|exact Hs|done|]. rewrite Hq'.
    assert (nd j <> nd i); [|set_solver]. intros ->%nd_inj. apply (Hd i Hj).
    assert (0 < 2 ^ o) by (apply Z.pow_pos_nonneg; lia). lia.
Qed.

Lemma held_take f s s' o l1 i l2 i2 o2 :
  0 <= o < 11 -> f !! free_list E o = Some (l1 ++ nd i :: l2) -> held f s i2 o2 ->
  same_out (free_list E o :: l1 ++ nd i :: l2) (links s) (links s') ->
  held (<[free_list E o := l1 ++ l2]> f) s' i2 o2.
Proof.
  intros Ho Hq [Ho2 Hc1 Hc2 Hout2 Hloo2] Hs. split; [done|done|done| |].
  - intros j Hj Hin. apply (Hout2 j Hj). rewrite (free_idx_remove f o l1 i l2) by done.
    apply elem_of_app. by right.
  - intros j Hj. destruct (loose_not_in _ _ _ _ _ (Hloo2 j Hj) Hq) as [H1 H2].
    eapply loose_other; [by apply Hloo2|exact Hs|done|set_solver].
Qed.

Lemma pow_half o : 0 < o -> 2 ^ o = 2 * 2 ^ (o - 1).
Proof. intros H. rewrite <- Z.pow_succ_r by lia. f_equal. lia. Qed.

Lemma held_split f s i o :
  held f s i o -> 0 < o -> held f s i (o - 1) /\ held f s (i + 2 ^ (o - 1)) (o - 1).
Proof.
  intros [Ho H1 H2 H3 H4] Hp. pose proof (pow_half o Hp) as E1.
  assert (0 < 2 ^ (o - 1)) by (apply Z.pow_pos_nonneg; lia).
  split; split; try lia; intros j Hj; (apply H3 || apply H4); lia.
Qed.

Lemma held_merge f s i o :
  held f s i o -> held f s (i + 2 ^ o) o -> o < 10 -> held f s i (o + 1).
Proof.
  intros [Ho H1 H2 H3 H4] [_ G1 G2 G3 G4] Hp.
  assert (E1 : 2 ^ (o + 1) = 2 * 2 ^ o) by (rewrite Z.pow_add_r by lia; lia).
  assert (0 < 2 ^ o) by (apply Z.pow_pos_nonneg; lia).
  split; try lia; intros j Hj; destruct (Z.lt_ge_cases j (i + 2 ^ o));
    first [apply H3; lia | apply H4; lia | apply G3; lia | apply G4; lia].
Qed.

Lemma seqZ_double i o : 0 <= o -> seqZ i (2 ^ (o + 1)) = seqZ i (2 ^ o) ++ seqZ (i + 2 ^ o) (2 ^ o).
Proof.
  intros Ho. rewrite <- seqZ_app by (apply Z.pow_nonneg; lia). f_equal.
  rewrite Z.pow_add_r by lia. lia.
Qed.

(** What the allocator leaves alone: everything but the list nodes and
    [struct page]s of the pages [X], the free lists and the counters. *)
Record frame (X : list Z) (f f' : gmap Z (list Z)) (s s' : kst) : Prop := {
  fr_state : s' = set_mm (mm s') (set_links (links s') s);
  fr_mm : mm s' = set_nr_free (nr_free (mm s')) (set_pages (pages (mm s')) (mm s));
  fr_pages : forall p, (forall j, j ∈ X -> p <> pg_at j) -> pages (mm s') !! p = pages (mm s) !! p;
  fr_lists : forall hd, (forall o, 0 <= o < 11 -> hd <> free_list E o) -> f' !! hd = f !! hd;
  fr_loose : forall a, (forall j, j ∈ X -> a <> nd j) -> loose (links s) f a -> loose (links s') f' a
}.

Lemma frame_refl X f s : frame X f f s s.
Proof. split; try done; by destruct s as [? ? ? ? ? ? ? ? ? ? ? ? ? ? ? ? []]. Qed.

Lemma frame_trans X f1 f2 f3 s1 s2 s3 :
  frame X f1 f2 s1 s2 -> frame X f2 f3 s2 s3 -> frame X f1 f3 s1 s3.
Proof.
  intros [A1 A2 A3 A4 A5] [B1 B2 B3 B4 B5]. split.
  - rewrite B1, A1. done.
  - rewrite B2, A2. done.
  - intros p Hp. rewrite B3, A3; done.
  - intros hd Hhd. rewrite B4, A4; done.
  - auto.
Qed.

Lemma frame_mono X Y f f' s s' : (forall j, j ∈ X -> j ∈ Y) -> frame X f f' s s' -> frame Y f f' s s'.
Proof. intros HXY [A1 A2 A3 A4 A5]. split; try done; intros; [apply A3|apply A5]; auto. Qed.

Lemma frame_step s s' i pg' o d f q q' Y :
  page_step s s' i pg' o d -> 0 <= o < 11 -> f !! free_list E o = Some q ->
  (forall a, a ∈ q' -> a = nd i \/ a ∈ q) -> same_out Y (links s) (links s') ->
  frame [i] f (<[free_list E o := q']> f) s s'.
Proof.
  intros [P1 P2 P3 P4] Ho Hq Hq' Hs. split; [done|done| | |].
  - intros p Hp. rewrite P1, lookup_insert_ne; [done|]. intros E1. apply (Hp i); [set_solver|done].
  - intros hd Hhd. rewrite lookup_insert_ne; [done|]. intros E1. by apply (Hhd o).
  - intros a Ha Hl. destruct (loose_not_in _ _ _ _ _ Hl Hq) as [H1 H2].
    eapply loose_other; [exact Hl|exact Hs|done|]. intros [->|Hin]%Hq'; [|done].
    apply (Ha i); [set_solver|done].
Qed.

Lemma shiftl1 o : 0 <= o -> Z.shiftl 1 o = 2 ^ o.
Proof. intros H. rewrite Z.shiftl_mul_pow2 by done. lia. Qed.

Lemma pow_range o : 0 <= o < 11 -> 0 < 2 ^ o <= 1024.
Proof.
  intros H. split; [apply Z.pow_pos_nonneg; lia|].
  change 1024 with (2 ^ 10). apply Z.pow_le_mono_r; lia.
Qed.

(** Splitting a block: the upper halves go back to the free lists. *)
Lemma wp_expand f s i low high (Q : unit -> kst -> Prop) :
  buddy_inv f s -> held f s i high -> 0 <= low <= high ->
  (forall f' s', buddy_inv f' s' -> held f' s' i low ->
     seqZ i (2 ^ low) ++ free_idx f' ≡ₚ seqZ i (2 ^ high) ++ free_idx f ->
     frame (seqZ i (2 ^ high)) f f' s s' -> Q tt s') ->
  wp (expand E (pg_at i) low high) Q s.
Proof.
  intros Hinv Hheld Hlow HQ. unfold expand.
  pose proof (h_order _ _ _ _ Hheld) as Hh. pose proof (pow_range high Hh) as Hph.
  apply (wp_loop_idx _ (fun n '(hg, sz) s1 => sz = 2 ^ hg /\ low <= hg <= high /\ n = Z.to_nat hg /\
     exists f1, buddy_inv f1 s1 /\ held f1 s1 i hg /\
       seqZ i (2 ^ hg) ++ free_idx f1 ≡ₚ seqZ i (2 ^ high) ++ free_idx f /\
       frame (seqZ i (2 ^ high)) f f1 s s1)) with (n := Z.to_nat high).
  2: { rewrite shiftl1, u32_small by lia. split_and!; try lia. exists f. split_and!; try done.
       apply frame_refl. }
  2: lia.
  intros n [hg sz] s1 (-> & Hr & -> & f1 & Hi1 & Hh1 & Hperm & Hfr).
  destruct (Z.ltb_spec low hg) as [Hlt|Hge].
  2: { wp_simpl. assert (hg = low) as -> by lia. by apply (HQ f1). }
  destruct (held_split _ _ _ _ Hh1) as [HhL HhU]; [lia|].
  pose proof (h_hi _ _ _ _ HhU) as HhiU. pose proof (h_lo _ _ _ _ HhU) as HloU.
  pose proof (pow_range (hg - 1) ltac:(lia)) as Hp1.
  assert (Hsz : Z.shiftr (2 ^ hg) 1 = 2 ^ (hg - 1)).
  { rewrite Z.shiftr_div_pow2 by lia. rewrite (pow_half hg) by lia. change (2 ^ 1) with 2.
    rewrite Z.mul_comm. by apply Z.div_mul. }
  rewrite Hsz, page_plus_at by lia. set (u := i + 2 ^ (hg - 1)) in *.
  destruct (bi_queue _ _ Hi1 (hg - 1)) as (q & Hq & Hnr & _); [lia|].
  destruct (bi_page _ _ Hi1 u) as (pg & Hpg & Hix); [lia|].
  wp_simpl. apply wp_on_links. rewrite page_list_at.
  eapply fam_list_add; [apply Hi1|exact Hq|apply HhU; lia|]. intros h' Hl' Hs. wp_simpl.
  eapply wp_add_nr_free; [lia|exact Hnr|]. wp_simpl.
  eapply wp_set_page_order; [exact Hpg|]. wp_simpl. cbn [mm set_mm set_links].
  set (s' := set_mm _ _).
  assert (Hps : page_step s1 s' u (with_units PAGE_BUDDY_MAPCOUNT_VALUE (with_private (hg - 1) pg)) (hg - 1) 1).
  { split; [done|exists (u32 (Z.of_nat (length q))); done|done|by destruct s1]. }
  destruct (inv_put f1 s1 s' (hg - 1) q (nd u :: q) u _ Hi1 HhU Hq ltac:(done) Hl' Hs Hps) as [Hi' Hperm']; [done|done|].
  exists (Z.to_nat (hg - 1)). split; [lia|]. split; [done|]. split; [lia|]. split; [done|].
  exists (<[free_list E (hg - 1) := nd u :: q]> f1). split_and!.
  - done.
  - eapply (held_put f1 s1); [exact HhU|exact HhL|exact Hq|done| |exact Hs]. lia.
  - rewrite <- Hperm, Hperm', app_assoc. f_equiv.
    replace hg with (hg - 1 + 1) at 3 by lia. by rewrite seqZ_double by lia.
  - eapply frame_trans; [exact Hfr|]. eapply (frame_mono [u]).
    + intros j ->%list_elem_of_singleton. apply elem_of_seqZ.
      pose proof (Z.pow_le_mono_r 2 hg high ltac:(lia) ltac:(lia)). rewrite (pow_half hg) in * by lia. lia.
    + eapply frame_step; [exact Hps|lia|exact Hq|set_solver|exact Hs].
Qed.

(** No free block of order [o] or above. *)
Definition no_block (f : gmap Z (list Z)) (o : Z) : Prop :=
  forall o', o <= o' < 11 -> f !! free_list E o' = Some [].

(** Writing a page that is in no free list. *)
Lemma inv_wr_private f s i o v :
  buddy_inv f s -> held f s i o -> exists pg, pages (mm s) !! pg_at i = Some pg /\
  let s' := set_mm (set_pages (<[pg_at i := with_private v pg]> (pages (mm s))) (mm s)) s in
  buddy_inv f s' /\ held f s' i o /\ frame [i] f f s s'.
Proof.
  intros Hinv Hheld. pose proof (h_order _ _ _ _ Hheld) as Ho. pose proof (pow_range o Ho).
  pose proof (h_lo _ _ _ _ Hheld). pose proof (h_hi _ _ _ _ Hheld).
  destruct (bi_page _ _ Hinv i ltac:(lia)) as (pg & Hpg & Hix). exists pg. split; [done|].
  intros s'. split_and!.
  - split; cbn; [apply Hinv|apply Hinv|apply Hinv| | |apply Hinv].
    + intros j Hj. rewrite lookup_insert. case_decide as Ed; [|by apply (bi_page _ _ Hinv)].
      apply pg_at_inj in Ed. subst j. eauto.
    + intros j pg' Hj. rewrite lookup_insert. case_decide as Ed; [|by apply (bi_flag _ _ Hinv)].
      apply pg_at_inj in Ed. subst j. intros [= <-] Hf. cbn in Hf.
      destruct (bi_flag _ _ Hinv i pg Hj Hpg Hf) as (Hp & q & Hq & Hin). exfalso.
      apply (h_out _ _ _ _ Hheld i ltac:(lia)). pose proof (pow_range _ Hp).
      eapply free_idx_in; [exact Hp|exact Hq|exact Hin|lia].
  - destruct Hheld. by split.
  - split; [by destruct s|done| |done|done].
    intros p Hp. cbn. rewrite lookup_insert_ne; [done|]. intros E1. apply (Hp i); [set_solver|done].
Qed.

Lemma pg_at_nonnull i : 0 <= i -> pg_at i <> NULL.
Proof. unfold pg_at, NULL. lia. Qed.

Lemma wp_rmqueue f s order (Q : Z -> kst -> Prop) :
  buddy_inv f s -> 0 <= order < 11 ->
  (no_block f order -> Q NULL s) ->
  (forall i f' s' pg, buddy_inv f' s' -> held f' s' i order ->
     free_idx f ≡ₚ seqZ i (2 ^ order) ++ free_idx f' -> frame (free_idx f) f f' s s' ->
     pages (mm s') !! pg_at i = Some pg -> pg_private pg = order -> Q (pg_at i) s') ->
  wp (__rmqueue E order) Q s.
Proof.
  intros Hinv Ho HNone HSome. unfold __rmqueue.
  apply (wp_loop_idx _ (fun n co s1 => s1 = s /\ order <= co <= 11 /\ n = Z.to_nat (11 - co) /\
     forall o', order <= o' < co -> f !! free_list E o' = Some [])) with (n := Z.to_nat (11 - order)).
  2: { split_and!; try done; lia. }
  2: lia.
  intros n co s1 (-> & Hco & -> & Hempty). unfold MAX_ORDER.
  destruct (Z.ltb_spec co 11) as [Hlt|Hge].
  2: { wp_simpl. apply HNone. intros o' Ho'. apply Hempty. lia. }
  destruct (bi_queue _ _ Hinv co ltac:(lia)) as (q & Hq & Hnr & Hr).
  wp_simpl. apply wp_on_links. eapply fam_list_empty; [apply Hinv|exact Hq|].
  case_bool_decide as Hqe.
  { wp_simpl. exists (Z.to_nat (11 - (co + 1))). split_and!; try lia; [by destruct s|].
    intros o' Ho'. destruct (decide (o' = co)) as [->|]; [by rewrite Hq, Hqe|apply Hempty; lia]. }
  destruct q as [|a q]; [done|]. destruct (Hr a) as (i & -> & Hi1 & Hi2); [set_solver|].
  pose proof (pow_range co ltac:(lia)) as Hpc.
  wp_simpl. apply wp_on_links. eapply wp_rd_next; [exact (dlist_first _ _ _ (lists_ring _ _ (bi_lists _ _ Hinv) _ _ Hq))|].
  cbn [heado head default from_option id]. wp_simpl. rewrite page_of_nd, page_list_at.
  apply wp_on_links. eapply (fam_list_del _ _ (bi_lists _ _ Hinv) _ [] (nd i) q); [exact Hq|].
  intros h' Hl' Hlo' _ _ Hs. wp_simpl.
  destruct (bi_page _ _ Hinv i) as (pg & Hpg & Hix); [lia|].
  eapply wp_rmv_page_order; [exact Hpg|]. wp_simpl.
  eapply wp_add_nr_free; [lia|exact Hnr|]. wp_simpl. cbn [mm set_mm set_links].
  set (s' := set_mm _ _).
  assert (Hps : page_step s s' i (with_units (-1) (with_private 0 pg)) co (-1)).
  { split; [done|exists (u32 (Z.of_nat (length (nd i :: q)))); done|done|by destruct s]. }
  destruct (inv_take f s s' co [] i q _ Hinv ltac:(lia) Hq Hl' Hlo' Hs Hps) as (Hi' & Hh' & Hperm);
    [done|done|]. cbn [app] in Hi', Hh', Hperm.
  eapply wp_expand; [exact Hi'|exact Hh'|lia|]. intros f2 s2 Hi2' Hh2 Hperm2 Hfr2. wp_simpl.
  destruct (inv_wr_private f2 s2 i order order Hi2' Hh2) as (pg2 & Hpg2 & Hi3 & Hh3 & Hfr3).
  eapply wp_wr_page; [exact Hpg2|]. wp_simpl.
  assert (Hsub : forall j, j ∈ seqZ i (2 ^ co) -> j ∈ free_idx f) by (intros j Hj; rewrite Hperm; set_solver).
  eapply (HSome i f2); [exact Hi3|exact Hh3|by rewrite Hperm, <- Hperm2| |cbn; by rewrite lookup_insert_eq|done].
  assert (Hi0 : i ∈ free_idx f) by (apply Hsub, elem_of_seqZ; lia).
  eapply frame_trans; [|eapply frame_trans].
  - eapply (frame_mono [i]); [set_solver|]. eapply frame_step; [exact Hps|lia|exact Hq|set_solver|exact Hs].
  - eapply frame_mono; [exact Hsub|exact Hfr2].
  - eapply (frame_mono [i]); [set_solver|exact Hfr3].
Qed.

Lemma wp_page_is_buddy s b o pg (Q : bool -> kst -> Prop) :
  pages (mm s) !! b = Some pg ->
  Q ((pg_units pg =? PAGE_BUDDY_MAPCOUNT_VALUE) && (pg_private pg =? o)) s ->
  wp (page_is_buddy b o) Q s.
Proof.
  intros Hpg HQ. unfold page_is_buddy, PageBuddy, page_order. wp_simpl.
  eapply wp_rd_page; [exact Hpg|]. wp_simpl. destruct (pg_units pg =? _).
  - wp_simpl. eapply wp_rd_page; [exact Hpg|]. by wp_simpl.
  - by wp_simpl.
Qed.

(** The two halves in either order make the block of the next order. *)
Lemma held_buddy f s j o : 0 <= j -> o < 10 ->
  held f s j o -> held f s (Z.lxor j (2 ^ o)) o ->
  held f s (Z.land (Z.lxor j (2 ^ o)) j) (o + 1) /\
  seqZ j (2 ^ o) ++ seqZ (Z.lxor j (2 ^ o)) (2 ^ o) ≡ₚ seqZ (Z.land (Z.lxor j (2 ^ o)) j) (2 ^ (o + 1)).
Proof.
  intros Hj Ho Hh1 Hh2. pose proof (h_order _ _ _ _ Hh1) as Hor.
  rewrite seqZ_double by lia.
  destruct (buddy_cases j o Hj) as [[E1 E2]|[E1 E2]]; [lia| |]; rewrite E1 in *; rewrite E2.
  - split; [by apply held_merge|done].
  - split; [apply held_merge; [done|by replace (j - 2 ^ o + 2 ^ o) with j by lia|done]|].
    replace (j - 2 ^ o + 2 ^ o) with j by lia. apply Permutation_app_comm.
Qed.

Lemma wp_free_one_page f s i order (Q : unit -> kst -> Prop) :
  buddy_inv f s -> held f s i order ->
  (forall f' s', buddy_inv f' s' -> free_idx f' ≡ₚ seqZ i (2 ^ order) ++ free_idx f ->
     frame (seqZ i (2 ^ order) ++ free_idx f) f f' s s' -> Q tt s') ->
  wp (free_one_page E (pg_at i) order) Q s.
Proof.
  intros Hinv Hheld HQ. unfold free_one_page.
  pose proof (h_order _ _ _ _ Hheld) as Ho. pose proof (pow_range order Ho).
  pose proof (h_lo _ _ _ _ Hheld). pose proof (h_hi _ _ _ _ Hheld).
  destruct (bi_page _ _ Hinv i ltac:(lia)) as (pg & Hpg & Hix). wp_simpl.
  eapply wp_rd_page; [exact Hpg|]. rewrite Hix. wp_simpl.
  set (X := seqZ i (2 ^ order) ++ free_idx f) in *.
  apply (wp_loop_idx _ (fun n '(p, j, o) s1 => p = pg_at j /\ n = Z.to_nat (11 - o) /\ exists f1,
     buddy_inv f1 s1 /\ held f1 s1 j o /\ seqZ j (2 ^ o) ++ free_idx f1 ≡ₚ X /\ frame X f f1 s s1))
    with (n := Z.to_nat (11 - order)).
  2: { split_and!; try done. exists f. split_and!; try done. apply frame_refl. }
  2: lia.
  clear pg Hpg Hix. intros n [[p j] o] s1 (-> & -> & f1 & Hi1 & Hh1 & Hperm & Hfr).
  pose proof (h_order _ _ _ _ Hh1) as Ho1. pose proof (pow_range o Ho1).
  pose proof (h_lo _ _ _ _ Hh1). pose proof (h_hi _ _ _ _ Hh1).
  (* leaving the loop *)
  assert (Hexit : wp (set_page_order (pg_at j) o ;;;
      on_links (list_add (page_list (pg_at j)) (free_list E o)) ;;; add_nr_free o 1) Q s1).
  { destruct (bi_queue _ _ Hi1 o Ho1) as (q & Hq & Hnr & _).
    destruct (bi_page _ _ Hi1 j ltac:(lia)) as (pg & Hpg & Hix). wp_simpl.
    eapply wp_set_page_order; [exact Hpg|]. wp_simpl. apply wp_on_links. rewrite page_list_at.
    eapply fam_list_add; [apply Hi1|exact Hq|apply Hh1; lia|]. intros h' Hl' Hs. wp_simpl.
    eapply wp_add_nr_free; [lia|exact Hnr|]. cbn [mm set_mm set_links]. set (s' := set_mm _ _).
    assert (Hps : page_step s1 s' j (with_units PAGE_BUDDY_MAPCOUNT_VALUE (with_private o pg)) o 1).
    { split; [done|exists (u32 (Z.of_nat (length q))); done|done|by destruct s1]. }
    destruct (inv_put f1 s1 s' o q (nd j :: q) j _ Hi1 Hh1 Hq ltac:(done) Hl' Hs Hps) as [Hi' Hperm']; [done|done|].
    apply (HQ _ s' Hi'); [by rewrite Hperm', Hperm|].
    eapply frame_trans; [exact Hfr|]. eapply (frame_mono [j]).
    - intros k ->%list_elem_of_singleton. rewrite <- Hperm. apply elem_of_app. left. apply elem_of_seqZ. lia.
    - eapply frame_step; [exact Hps|lia|exact Hq|set_solver|exact Hs]. }
  unfold MAX_ORDER. destruct (Z.ltb_spec o (11 - 1)) as [Hlt|Hge]; [|rewrite wp_ret; exact Hexit].
  unfold __find_buddy_index. rewrite shiftl1 by lia. set (b := Z.lxor j (2 ^ o)).
  assert (Hb : 0 <= b < M) by (apply buddy_range; [lia|lia|done]).
  rewrite page_plus_at by lia. replace (j + (b - j)) with b by lia.
  destruct (bi_page _ _ Hi1 b Hb) as (pg & Hpg & Hix). wp_simpl.
  eapply wp_page_is_buddy; [exact Hpg|].
  destruct ((pg_units pg =? _) && (pg_private pg =? o)) eqn:Hbud; cbn [negb]; [|rewrite wp_ret; exact Hexit].
  apply andb_true_iff in Hbud as [Hu%Z.eqb_eq Hpo%Z.eqb_eq].
  destruct (bi_flag _ _ Hi1 b pg Hb Hpg Hu) as (_ & q & Hq & Hin). rewrite Hpo in Hq.
  apply list_elem_of_split in Hin as (l1 & l2 & ->).
  destruct (bi_queue _ _ Hi1 o Ho1) as (q0 & Hq0 & Hnr & _). rewrite Hq in Hq0. injection Hq0 as <-.
  wp_simpl. rewrite page_list_at. apply wp_on_links. eapply (fam_list_del _ _ (bi_lists _ _ Hi1)); [exact Hq|].
  intros h' Hl' Hlo' _ _ Hs. wp_simpl. eapply wp_add_nr_free; [lia|exact Hnr|]. wp_simpl.
  eapply wp_rmv_page_order; [exact Hpg|]. wp_simpl. cbn [mm set_mm set_links]. set (s' := set_mm _ _).
  assert (Hps : page_step s1 s' b (with_units (-1) (with_private 0 pg)) o (-1)).
  { split; [done|exists (u32 (Z.of_nat (length (l1 ++ nd b :: l2)))); done|done|by destruct s1]. }
  destruct (inv_take f1 s1 s' o l1 b l2 _ Hi1 Ho1 Hq Hl' Hlo' Hs Hps) as (Hi' & Hhb & Hperm'); [done|done|].
  pose proof (held_take f1 s1 s' o l1 b l2 j o Ho1 Hq Hh1 Hs) as Hhj.
  destruct (held_buddy _ s' j o ltac:(lia) ltac:(lia) Hhj Hhb) as [Hhm Hpm]. fold b in Hhm, Hpm.
  set (c := Z.land b j) in *.
  pose proof (h_lo _ _ _ _ Hhm). pose proof (h_hi _ _ _ _ Hhm).
  pose proof (Z.pow_nonneg 2 (o + 1) ltac:(lia)).
  exists (Z.to_nat (11 - (o + 1))). split; [lia|]. rewrite page_plus_at by lia.
  split; [f_equal; lia|]. split; [done|]. exists (<[free_list E o := l1 ++ l2]> f1). split_and!; try done.
  - rewrite <- Hperm, Hperm', <- Hpm. by rewrite app_assoc.
  - eapply frame_trans; [exact Hfr|]. eapply (frame_mono [b]).
    + intros k ->%list_elem_of_singleton. rewrite <- Hperm, Hperm'. rewrite !elem_of_app, !elem_of_seqZ. lia.
    + eapply frame_step; [exact Hps|lia|exact Hq|set_solver|exact Hs].
Qed.

(** *** Filling the free lists *)

(** The invariant and blocks in hand survive stores to loose nodes. *)
Lemma inv_relink f s X h' :
  buddy_inv f s -> same_out X (links s) h' -> (forall a, a ∈ X -> loose (links s) f a) ->
  buddy_inv f (set_links h' s).
Proof.
  intros [A1 A2 A3 A4 A5 A6] Hs HX. split; cbn; try done.
  - by eapply lists_same_out.
  - intros o q i j Ho Hq Hi Hj. eapply loose_same_out; [by eapply A6|exact Hs].
Qed.

(** Pages [i] to [i + n - 1] are in nobody's list. *)
Record in_hand (f : gmap Z (list Z)) (s : kst) (i n : Z) : Prop := {
  ih_lo : lo <= i; ih_hi : i + n <= hi; ih_n : 0 <= n;
  ih_out : forall j, i <= j < i + n -> j ∉ free_idx f;
  ih_loose : forall j, i <= j < i + n -> loose (links s) f (nd j)
}.

Lemma in_hand_block f s i n o :
  in_hand f s i n -> 0 <= o < 11 -> 2 ^ o <= n -> held f s i o /\ in_hand f s (i + 2 ^ o) (n - 2 ^ o).
Proof.
  intros [H1 H2 H3 H4 H5] Ho Hn. pose proof (pow_range o Ho).
  split; split; try lia; intros j Hj; (apply H4 || apply H5); lia.
Qed.

Lemma held_unflagged f s i o pg :
  buddy_inv f s -> held f s i o -> pages (mm s) !! pg_at i = Some pg ->
  pg_units pg <> PAGE_BUDDY_MAPCOUNT_VALUE.
Proof.
  intros Hinv Hh Hpg Hu. pose proof (pow_range o (h_order _ _ _ _ Hh)).
  pose proof (h_lo _ _ _ _ Hh). pose proof (h_hi _ _ _ _ Hh).
  destruct (bi_flag _ _ Hinv i pg ltac:(lia) Hpg Hu) as (Hp & q & Hq & Hin).
  apply (h_out _ _ _ _ Hh i ltac:(lia)). pose proof (pow_range _ Hp).
  eapply free_idx_in; [exact Hp|exact Hq|exact Hin|lia].
Qed.

Lemma in_hand_put f s s' o q q' i n :
  held f s i o -> in_hand f s (i + 2 ^ o) n -> f !! free_list E o = Some q -> q' ≡ₚ nd i :: q ->
  same_out (nd i :: free_list E o :: q) (links s) (links s') ->
  in_hand (<[free_list E o := q']> f) s' (i + 2 ^ o) n.
Proof.
  intros Hh [H1 H2 H3 H4 H5] Hq Hq' Hs. pose proof (h_order _ _ _ _ Hh) as Ho.
  split; try lia; intros j Hj.
  - rewrite (free_idx_add f o q q' i) by done.
    intros [Hin%elem_of_seqZ|Hin]%elem_of_app; [lia|by eapply H4].
  - destruct (loose_not_in _ _ _ _ _ (H5 j Hj) Hq) as [G1 G2].
    eapply loose_other; [by apply H5|exact Hs|done|]. rewrite Hq'. pose proof (pow_range o Ho).
    assert (nd j <> nd i) by (intros ?%nd_inj; lia). set_solver.
Qed.

Lemma wp_insert_to_free_area f s i n (Q : unit -> kst -> Prop) :
  buddy_inv f s -> in_hand f s i n -> n < 2147483648 ->
  (forall f' s', buddy_inv f' s' -> free_idx f' ≡ₚ seqZ i n ++ free_idx f -> Q tt s') ->
  wp (insert_to_free_area E (pg_at i) n) Q s.
Proof.
  intros Hinv Hih Hn31 HQ. unfold insert_to_free_area.
  apply (wp_loop_idx _ (fun m '(o, p, c) s1 => 0 <= o < 11 /\ p = pg_at (i + n - c) /\ 0 <= c <= n /\
     m = (Z.to_nat c + Z.to_nat o)%nat /\ exists f1,
     buddy_inv f1 s1 /\ in_hand f1 s1 (i + n - c) c /\
     seqZ (i + n - c) c ++ free_idx f1 ≡ₚ seqZ i n ++ free_idx f))
    with (n := (Z.to_nat n + 10)%nat).
  2: { unfold MAX_ORDER. pose proof (ih_n _ _ _ _ Hih). replace (i + n - n) with i by lia.
       split_and!; try lia; try done. exists f. done. }
  2: lia.
  intros m [[o p] c] s1 (Ho & -> & Hc & -> & f1 & Hi1 & Hih1 & Hperm).
  pose proof (pow_range o Ho) as Hpo. rewrite shiftl1, u32_small by lia.
  pose proof (ih_lo _ _ _ _ Hih1). pose proof (ih_hi _ _ _ _ Hih1).
  destruct (Z.leb_spec (2 ^ o) c) as [Hle|Hgt].
  - destruct (in_hand_block _ _ _ _ o Hih1 Ho Hle) as [Hh Hih2].
    set (j := i + n - c) in *. wp_simpl. rewrite page_list_at. apply wp_on_links.
    apply wp_INIT_LIST_HEAD; [apply Hh; lia|]. intros h1 _ Hs1.
    assert (Hi2 : buddy_inv f1 (set_links h1 s1)).
    { eapply inv_relink; [exact Hi1|exact Hs1|]. intros a ->%list_elem_of_singleton. apply Hh. lia. }
    assert (Hh2 : held f1 (set_links h1 s1) j o).
    { destruct Hh as [A1 A2 A3 A4 A5]. split; try done. intros k Hk.
      eapply loose_same_out; [by apply A5|exact Hs1]. }
    assert (Hih3 : in_hand f1 (set_links h1 s1) (j + 2 ^ o) (c - 2 ^ o)).
    { destruct Hih2 as [A1 A2 A3 A4 A5]. split; try done. intros k Hk.
      eapply loose_same_out; [by apply A5|exact Hs1]. }
    destruct (bi_queue _ _ Hi2 o Ho) as (q & Hq & Hnr & _).
    destruct (bi_page _ _ Hi2 j ltac:(lia)) as (pg & Hpg & Hix).
    wp_simpl. apply wp_on_links. eapply fam_list_add_tail; [apply Hi2|exact Hq|apply Hh2; lia|].
    intros h' Hl' Hs. wp_simpl. eapply wp_add_nr_free; [lia|exact Hnr|]. cbn [mm set_mm set_links].
    set (s' := set_mm _ _). set (s2 := set_links h1 s1) in *.
    assert (Hps : page_step s2 s' j pg o 1).
    { split; [cbn; by rewrite insert_id|exists (u32 (Z.of_nat (length q))); done|by destruct s1 as [? ? ? ? ? ? ? ? ? ? ? ? ? ? ? ? []]|by destruct s1]. }
    assert (Hqp : q ++ [nd j] ≡ₚ nd j :: q) by (symmetry; apply Permutation_cons_append).
    destruct (inv_put f1 s2 s' o q (q ++ [nd j]) j pg Hi2 Hh2 Hq Hqp Hl' Hs Hps) as [Hi' Hperm']; [done| |].
    { intros Hu. by destruct (held_unflagged _ _ _ _ _ Hi2 Hh2 Hpg). }
    pose proof (in_hand_put f1 s2 s' o q _ j _ Hh2 Hih3 Hq Hqp Hs) as Hih'.
    wp_simpl. rewrite page_plus_at by lia. rewrite u32_small by lia. rewrite s32_small by lia.
    replace (i + n - (c - 2 ^ o)) with (j + 2 ^ o) by lia.
    assert (Hperm2 : seqZ (j + 2 ^ o) (c - 2 ^ o) ++
        free_idx (<[free_list E o := q ++ [nd j]]> f1) ≡ₚ seqZ i n ++ free_idx f).
    { rewrite <- Hperm, Hperm'. replace c with (2 ^ o + (c - 2 ^ o)) at 2 by lia.
      rewrite seqZ_app by lia. rewrite !app_assoc. f_equiv. apply Permutation_app_comm. }
    destruct (Z.ltb_spec 0 (c - 2 ^ o)).
    + wp_simpl. exists (Z.to_nat (c - 2 ^ o) + Z.to_nat o)%nat. split; [lia|].
      split_and!; [lia|lia|f_equal; lia|lia|lia|done|].
      eexists. split_and!; [exact Hi'| |].
      * by replace (i + n - (c - 2 ^ o)) with (j + 2 ^ o) by lia.
      * by replace (i + n - (c - 2 ^ o)) with (j + 2 ^ o) by lia.
    + wp_simpl. apply (HQ _ _ Hi'). rewrite <- Hperm2.
      by replace (c - 2 ^ o) with 0 by lia.
  - wp_simpl. rewrite s32_small by lia. destruct (Z.ltb_spec 0 c).
    + wp_simpl. assert (0 < o).
      { destruct (decide (o = 0)) as [->|]; [|lia]. cbn in Hgt. lia. }
      destruct (Z.ltb_spec 0 o); [|lia].
      exists (Z.to_nat c + Z.to_nat (o - 1))%nat. split; [lia|].
      split_and!; try lia; try done. exists f1. done.
    + wp_simpl. apply (HQ f1); [done|]. rewrite <- Hperm.
      by replace c with 0 by lia.
Qed.

(** *** With the lock *)

(** The zone's lock is free and nobody waits for it. *)
Record zone_free (f : gmap Z (list Z)) (s : kst) : Prop := {
  zf_sem : sems s !! zone_lock E = Some 1;
  zf_list : f !! wait_list (zone_lock E) = Some []
}.

(** The layout of the zone: the frames start at the page array itself. *)
Record zone_ok (s : kst) : Prop := {
  zo_base : memmap_pages (mm s) = B;
  zo_start : 4096 * zone_start_pfn (mm s) = B;
  zo_span : hi <= spanned_pages (mm s);
  zo_end : B + 4096 * spanned_pages (mm s) < 4294967296
}.

Lemma lock_not_free o : 0 <= o < 11 -> wait_list (zone_lock E) <> free_list E o.
Proof. unfold wait_list, zone_lock, free_list. lia. Qed.

Lemma inv_crit f s c b v : buddy_inv f s -> buddy_inv f (crit_set c b (set_sems v s)).
Proof. intros [A1 A2 A3 A4 A5 A6]. by split. Qed.
Lemma held_crit f s c b v i o : held f s i o -> held f (crit_set c b (set_sems v s)) i o.
Proof. intros [A1 A2 A3 A4 A5]. by split. Qed.

(** The state apart from locks and critical sections. *)
Definition unlock_eq (s s' : kst) : Prop :=
  links s' = links s /\ mm s' = mm s /\ sems s' = sems s /\ tasks s' = tasks s /\
  waiters s' = waiters s /\ timers s' = timers s /\ current_task s' = current_task s.

Lemma get_order_spec size :
  1 <= size < 4294967296 ->
  0 <= get_order size /\ size <= 4096 * 2 ^ get_order size /\
  (0 < get_order size -> 4096 * 2 ^ (get_order size - 1) < size).
Proof.
  intros Hs. unfold get_order, fls, __clz. rewrite (u32_small (size - 1)) by lia.
  unfold PAGE_SHIFT. rewrite Z.shiftr_div_pow2 by lia. change (2 ^ 12) with 4096.
  pose proof (Z.div_mod (size - 1) 4096 ltac:(lia)) as Hdm.
  pose proof (Z.mod_pos_bound (size - 1) 4096 ltac:(lia)) as Hmb.
  set (q := (size - 1) / 4096) in *. assert (Hq : 0 <= q < 1048576) by lia.
  rewrite (u32_small q) by lia. destruct (Z.eqb_spec q 0) as [Hz|Hnz].
  - cbn. lia.
  - replace (32 - (31 - Z.log2 q)) with (Z.log2 q + 1) by lia.
    pose proof (Z.log2_spec q ltac:(lia)) as [H1 H2]. pose proof (Z.log2_nonneg q).
    unfold Z.succ in H2. replace (Z.log2 q + 1 - 1) with (Z.log2 q) by lia. split_and!; lia.
Qed.

Lemma wp_alloc_pages f s size (Q : Z -> kst -> Prop) :
  buddy_inv f s -> zone_free f s -> 1 <= size < 4294967296 ->
  (forall s', unlock_eq s s' -> 11 <= get_order size \/ no_block f (get_order size) -> Q NULL s') ->
  (forall i f' s1 s' pg, get_order size < 11 -> buddy_inv f' s' -> zone_free f' s' ->
     held f' s' i (get_order size) ->
     free_idx f ≡ₚ seqZ i (2 ^ get_order size) ++ free_idx f' ->
     frame (free_idx f) f f' s s1 -> unlock_eq s1 s' ->
     pages (mm s') !! pg_at i = Some pg -> pg_private pg = get_order size -> Q (pg_at i) s') ->
  wp (alloc_pages E size) Q s.
Proof.
  intros Hinv [Hz1 Hz2] Hsz HN HS. unfold alloc_pages.
  destruct (get_order_spec size Hsz) as (Ho0 & _). set (o := get_order size) in *.
  unfold MAX_ORDER. destruct (Z.leb_spec 11 o) as [Hge|Hlt].
  { wp_simpl. apply HN; [done|by left]. }
  wp_simpl. eapply wp_down; [exact Hz1|lia|]. intros c b. wp_simpl.
  set (s0 := crit_set c b _). assert (Hi0 : buddy_inv f s0) by by apply inv_crit.
  eapply wp_rmqueue; [exact Hi0|lia| |].
  - intros Hno. wp_simpl. eapply wp_up; [apply Hi0|exact Hz2|cbn; by rewrite lookup_insert_eq|lia|].
    intros c' b'. wp_simpl. apply HN; [|by right]. cbn. rewrite insert_insert_eq, insert_id by done. done.
  - intros i f' s' pg Hi' Hh' Hperm Hfr Hpg Hpr. wp_simpl.
    assert (Hsem : sems s' !! zone_lock E = Some 0).
    { rewrite (fr_state _ _ _ _ _ Hfr). cbn. by rewrite lookup_insert_eq. }
    assert (Hlst : f' !! wait_list (zone_lock E) = Some []).
    { rewrite (fr_lists _ _ _ _ _ Hfr); [done|]. apply lock_not_free. }
    eapply wp_up; [apply Hi'|exact Hlst|exact Hsem|lia|]. intros c' b'. wp_simpl.
    eapply (HS i f' (set_mm (mm s') (set_links (links s') s)) _ pg); [done| | | |exact Hperm| | |exact Hpg|exact Hpr].
    + by apply inv_crit.
    + split; [cbn; by rewrite lookup_insert_eq|done].
    + by apply held_crit.
    + destruct Hfr as [F1 F2 F3 F4 F5]. split; try done; by destruct s.
    + rewrite (fr_state _ _ _ _ _ Hfr). split_and!; try done. cbn.
      rewrite !insert_insert_eq, insert_id by done. done.
Qed.

Lemma wp_free_pages f s i pg (Q : unit -> kst -> Prop) :
  buddy_inv f s -> zone_free f s -> zone_ok s ->
  pages (mm s) !! pg_at i = Some pg -> held f s i (pg_private pg) ->
  (forall f' s1 s', buddy_inv f' s' -> zone_free f' s' ->
     free_idx f' ≡ₚ seqZ i (2 ^ pg_private pg) ++ free_idx f ->
     frame (seqZ i (2 ^ pg_private pg) ++ free_idx f) f f' s s1 -> unlock_eq s1 s' -> Q tt s') ->
  wp (free_pages E (B + 4096 * i)) Q s.
Proof.
  intros Hinv [Hz1 Hz2] [Zb Zs Zp Ze] Hpg Hheld HQ. unfold free_pages.
  pose proof (h_order _ _ _ _ Hheld) as Ho. pose proof (pow_range _ Ho).
  pose proof (h_lo _ _ _ _ Hheld). pose proof (h_hi _ _ _ _ Hheld).
  destruct (Z.eqb_spec 0 (B + 4096 * i)); [lia|]. unfold virt_to_page. wp_simpl.
  assert (Hpfn : Z.shiftr (u32 (B + 4096 * i)) PAGE_SHIFT = zone_start_pfn (mm s) + i).
  { rewrite u32_small by lia. unfold PAGE_SHIFT. rewrite Z.shiftr_div_pow2 by lia.
    change (2 ^ 12) with 4096. rewrite <- Zs.
    replace (4096 * zone_start_pfn (mm s) + 4096 * i) with ((zone_start_pfn (mm s) + i) * 4096) by lia.
    by apply Z.div_mul. }
  rewrite Hpfn. rewrite (u32_small (_ + spanned_pages _)) by lia.
  destruct (Z.ltb_spec (zone_start_pfn (mm s) + spanned_pages (mm s)) (zone_start_pfn (mm s) + i)); [lia|].
  destruct (Z.ltb_spec (zone_start_pfn (mm s) + i) (zone_start_pfn (mm s))); [lia|]. cbn [orb]. wp_simpl.
  replace (zone_start_pfn (mm s) + i - zone_start_pfn (mm s)) with i by lia.
  rewrite u32_small by lia. rewrite Zb.
  assert (Hpp : page_plus B i = pg_at i).
  { unfold page_plus, page_size, pg_at. rewrite u32_small; lia. }
  rewrite Hpp.
  destruct (Z.eqb_spec NULL (pg_at i)) as [E0|_]; [pose proof (pg_at_nonnull i); lia|]. cbn [negb].
  wp_simpl. eapply wp_rd_page; [exact Hpg|]. unfold __free_pages. wp_simpl.
  eapply wp_down; [exact Hz1|lia|]. intros c b. wp_simpl. set (s0 := crit_set c b _).
  eapply (wp_free_one_page f s0); [by apply inv_crit|by apply held_crit|].
  intros f' s' Hi' Hperm Hfr. wp_simpl.
  assert (Hsem : sems s' !! zone_lock E = Some 0).
  { rewrite (fr_state _ _ _ _ _ Hfr). cbn. by rewrite lookup_insert_eq. }
  assert (Hlst : f' !! wait_list (zone_lock E) = Some []).
  { rewrite (fr_lists _ _ _ _ _ Hfr); [done|]. apply lock_not_free. }
  eapply wp_up; [apply Hi'|exact Hlst|exact Hsem|lia|]. intros c' b'.
  eapply (HQ f' (set_mm (mm s') (set_links (links s') s))); [by apply inv_crit| |exact Hperm| |].
  - split; [cbn; by rewrite lookup_insert_eq|done].
  - destruct Hfr as [F1 F2 F3 F4 F5]. split; try done; by destruct s.
  - rewrite (fr_state _ _ _ _ _ Hfr). split_and!; try done. cbn.
    rewrite !insert_insert_eq, insert_id by done. done.
Qed.
End Buddy.

(** Where the page array and the managed frames lie. *)
Record geometry (B lo hi M : Z) : Prop := {
  g_base : 0 < B; g_fits : B + 24 * M < 4294967296;
  g_lo : 0 <= lo; g_hi : hi <= M; g_div : (2048 | M)
}.

(** ** A decision procedure for concrete states *)
Definition buddy_inv_b (E : env) (B lo hi M : Z) (fl : list (Z * list Z)) (s : kst) : bool :=
  let f : gmap Z (list Z) := list_to_map fl in
  lists_b (links s) fl &&
  forallb (fun o => match f !! free_list E o with
    | Some q => bool_decide (nr_free (mm s) !! Z.to_nat o = Some (u32 (Z.of_nat (length q)))) &&
        forallb (fun a => (a =? nd B (idx B a)) && (lo <=? idx B a) && (idx B a + 2 ^ o <=? hi) &&
          forallb (fun j => bool_decide (is_Some (nx (links s) !! nd B j)) &&
                            bool_decide (is_Some (pv (links s) !! nd B j)) &&
                            negb (existsb (Z.eqb (nd B j)) (flat_map (fun p => p.1 :: p.2) fl)))
            (seqZ (idx B a + 1) (2 ^ o - 1))) q
    | None => false end) (seqZ 0 11) &&
  bool_decide (NoDup (free_idx E B f)) &&
  forallb (fun i => match pages (mm s) !! pg_at B i with
    | Some pg => (pg_index pg =? i) &&
        (negb (pg_units pg =? PAGE_BUDDY_MAPCOUNT_VALUE) ||
         ((0 <=? pg_private pg) && (pg_private pg <? 11) &&
          match f !! free_list E (pg_private pg) with
          | Some q => existsb (Z.eqb (nd B i)) q | None => false end))
    | None => false end) (seqZ 0 M).

Lemma flat_elem (fl : list (Z * list Z)) hd l a :
  (hd, l) ∈ fl -> a ∈ hd :: l -> a ∈ flat_map (fun p : Z * list Z => p.1 :: p.2) fl.
Proof. intros Hin Ha. apply list_elem_of_In, in_flat_map. exists (hd, l). split; by apply list_elem_of_In. Qed.

Lemma existsb_elem a l : existsb (Z.eqb a) l = true <-> a ∈ l.
Proof.
  rewrite existsb_exists. split.
  - intros (x & Hx & ->%Z.eqb_eq). by apply list_elem_of_In.
  - intros H. exists a. split; [by apply list_elem_of_In|apply Z.eqb_refl].
Qed.

Lemma forallb_seqZ (P : Z -> bool) a n :
  forallb P (seqZ a n) = true -> forall i, a <= i < a + n -> P i = true.
Proof.
  rewrite forallb_forall. intros H i Hi. apply H, list_elem_of_In, elem_of_seqZ. lia.
Qed.

Lemma buddy_inv_b_sound E B lo hi M fl s :
  buddy_inv_b E B lo hi M fl s = true -> buddy_inv E B lo hi M (list_to_map fl) s.
Proof.
  unfold buddy_inv_b. set (f := list_to_map fl).
  rewrite !andb_true_iff, bool_decide_eq_true. intros [[[Hl Ho] Hnd] Hp].
  pose proof (forallb_seqZ _ _ _ Ho) as Ho'. pose proof (forallb_seqZ _ _ _ Hp) as Hp'.
  assert (Hq : forall o, 0 <= o < 11 -> exists q, f !! free_list E o = Some q /\
    nr_free (mm s) !! Z.to_nat o = Some (u32 (Z.of_nat (length q))) /\
    forall a, a ∈ q -> a = nd B (idx B a) /\ lo <= idx B a /\ idx B a + 2 ^ o <= hi /\
      forall j, idx B a < j < idx B a + 2 ^ o -> loose (links s) f (nd B j)).
  { intros o Hr. specialize (Ho' o ltac:(lia)). cbv beta in Ho'.
    destruct (f !! free_list E o) as [q|]; [|done]. exists q. split; [done|].
    apply andb_true_iff in Ho' as [Hnr Hall]. apply bool_decide_eq_true in Hnr. split; [done|].
    intros a Ha. rewrite forallb_forall in Hall. specialize (Hall a ltac:(by apply list_elem_of_In)).
    rewrite !andb_true_iff in Hall. destruct Hall as [[[H1 H2] H3] H4].
    split_and!; [lia|lia|lia|]. intros j Hj. pose proof (forallb_seqZ _ _ _ H4 j ltac:(lia)) as H5.
    cbv beta in H5. rewrite !andb_true_iff, !bool_decide_eq_true, negb_true_iff in H5.
    destruct H5 as [[H5 H6] H7]. split; [done|]. intros hd l Hlk Hin.
    apply elem_of_list_to_map_2 in Hlk. apply (flat_elem _ _ _ _ Hlk) in Hin.
    apply existsb_elem in Hin. congruence. }
  split.
  - by apply lists_b_sound.
  - intros o Hr. destruct (Hq o Hr) as (q & H1 & H2 & H3). exists q. split_and!; [done|done|].
    intros a Ha. destruct (H3 a Ha) as (H4 & H5 & H6 & _). eauto.
  - done.
  - intros i Hi. specialize (Hp' i ltac:(lia)). cbv beta in Hp'.
    destruct (pages (mm s) !! pg_at B i) as [pg|]; [|done]. exists pg. split; [done|].
    apply andb_true_iff in Hp' as [Hp' _]. lia.
  - intros i pg Hi Hpg Hu. specialize (Hp' i ltac:(lia)). cbv beta in Hp'. rewrite Hpg in Hp'.
    apply andb_true_iff in Hp' as [_ Hp']. rewrite Hu, Z.eqb_refl in Hp'. cbn [negb orb] in Hp'.
    apply andb_true_iff in Hp' as [Hp1 Hp2]. split; [lia|].
    destruct (f !! free_list E (pg_private pg)) as [q|]; [|done]. exists q. split; [done|].
    by apply existsb_elem.
  - intros o q i j Hr Hf Hin Hj. destruct (Hq o Hr) as (q' & H1 & _ & H3). rewrite Hf in H1.
    injection H1 as <-. destruct (H3 _ Hin) as (_ & _ & _ & H4). apply H4. by rewrite idx_nd.
Qed.

(** ** A concrete zone, for the examples: the page array at 1 MB describes 2048
    frames, of which 8 from frame 16 on are managed. *)
Definition demo_env : env :=
  mk_env 1000 1100 5000 6000 6010 6020 6030 0 (fun t => t + 50) (fun t => t + 70)
    (fun _ _ => ret tt) (fun _ _ => ret 0) (fun _ _ => ret 0)
    (fun _ _ _ _ => ret INT_NO_RESCHEDULE) (fun _ _ => ret tt) 9.

Definition demo_B : Z := 1048576.

(** The value a run returns. *)
Definition result {A} (o : outcome (A * kst)) : option A :=
  match o with Ok (a, _) => Some a | Err _ => None end.

Definition demo_zone : kst :=
  let nodes := demo_nodes (5148 :: (free_list demo_env <$> seqZ 0 11) ++ (nd demo_B <$> seqZ 0 32)) in
  let pgs := list_to_map ((fun i => (pg_at demo_B i, mk_page [0] i 0 0)) <$> seqZ 0 2048) in
  run (loop 12 (fun i => if i <? 11 then on_links (INIT_LIST_HEAD (free_list demo_env i)) ;;; ret (inl (i + 1))
                         else ret (inr tt)) 0 ;;;
       sema_init (zone_lock demo_env) 1 ;;;
       insert_to_free_area demo_env (pg_at demo_B 16) 8)
    (mk_kst (mk_lheap nodes nodes) ∅ [0] 0 0 0 true ∅ 0 true ∅ ∅ ∅ ∅ 0 []
       (mk_mm demo_B 256 2048 2000 (replicate 11 0) pgs ∅) ∅ ∅ 0).

Definition demo_free : list (Z * list Z) :=
  (5148, []) :: ((fun o => (free_list demo_env o, if o =? 3 then [nd demo_B 16] else [])) <$> seqZ 0 11).

Lemma demo_zone_inv : buddy_inv demo_env demo_B 16 24 2048 (list_to_map demo_free) demo_zone.
Proof. apply buddy_inv_b_sound. vm_compute. reflexivity. Qed.
Lemma demo_geometry : geometry demo_B 16 24 2048.
Proof. split; unfold demo_B; try lia. by exists 1. Qed.
Lemma demo_zone_free : zone_free demo_env (list_to_map demo_free) demo_zone.
Proof. split; vm_compute; reflexivity. Qed.
Lemma demo_zone_ok : zone_ok demo_B 24 demo_zone.
Proof. split; vm_compute; congruence. Qed.

(** ** Properties *)

(** [C5] [alloc_pages] returns, keeps the invariant (free blocks in range, none
    overlapping, lists and counters in step), and hands out what it should:
    either [NULL], with the allocator unchanged, and then the request is larger
    than the largest block or there is no free block of its order or above; or a
    block large enough for the request, in the managed range, whose pages were
    free and are now exactly the pages missing from the free lists.  Nobody
    else's [struct page] changes. *)
Theorem alloc_pages_spec E B lo hi M f s size :
  geometry B lo hi M -> buddy_inv E B lo hi M f s -> zone_free E f s -> 1 <= size < 4294967296 ->
  let o := get_order size in
  exists r s', alloc_pages E size s = Ok (r, s') /\
    ((r = NULL /\ mm s' = mm s /\ links s' = links s /\ (11 <= o \/ no_block E f o)) \/
     (exists i f', r = pg_at B i /\ lo <= i /\ i + 2 ^ o <= hi /\ size <= 4096 * 2 ^ o /\
        buddy_inv E B lo hi M f' s' /\ zone_free E f' s' /\
        free_idx E B f ≡ₚ seqZ i (2 ^ o) ++ free_idx E B f' /\
        forall p, (forall j, j ∈ free_idx E B f -> p <> pg_at B j) ->
          pages (mm s') !! p = pages (mm s) !! p)).
Proof.
  intros [HB HM Hlo Hhi Hd] Hinv Hz Hs o. apply wp_elim.
  eapply wp_alloc_pages; [exact HB|exact HM|exact Hlo|exact Hhi|exact Hd|exact Hinv|exact Hz|exact Hs| |].
  - intros s' (E1 & E2 & _) Hno. left. done.
  - intros i f' s1 s' pg Ho Hi' Hz' Hh Hperm Hfr (E1 & E2 & _) Hpg Hpr. right. exists i, f'.
    destruct (get_order_spec size Hs) as (_ & Hle & _).
    split_and!; try done; [apply Hh|apply Hh|]. rewrite E2. apply Hfr.
Qed.

Lemma alloc_pages_spec_witness :
  exists r s', alloc_pages demo_env 5000 demo_zone = Ok (r, s') /\ r = pg_at demo_B 16.
Proof.
  destruct (alloc_pages_spec demo_env demo_B 16 24 2048 (list_to_map demo_free) demo_zone 5000
    demo_geometry demo_zone_inv demo_zone_free) as (r & s' & E & _).
  - lia.
  - exists r, s'. split; [exact E|]. apply (f_equal result) in E. vm_compute in E.
    injection E as <-. reflexivity.
Defined.

(** [C6] What was allocated can be freed: after a successful [alloc_pages], the
    address that [page_address] gives leads [free_pages] back to the block, and
    afterwards the same pages are free as before the allocation, with the
    invariant. *)
Theorem alloc_free_roundtrip E B lo hi M f s size r s1 :
  geometry B lo hi M -> buddy_inv E B lo hi M f s -> zone_free E f s -> zone_ok B hi s ->
  1 <= size < 4294967296 -> alloc_pages E size s = Ok (r, s1) -> r <> NULL ->
  exists a s2 f2, page_address r s1 = Ok (a, s1) /\ free_pages E a s1 = Ok (tt, s2) /\
    buddy_inv E B lo hi M f2 s2 /\ zone_free E f2 s2 /\ free_idx E B f2 ≡ₚ free_idx E B f.
Proof.
  intros [HB HM Hlo Hhi Hd] Hinv Hz Hok Hs Hrun Hnn.
  assert (Hpost : exists i f' pg, r = pg_at B i /\ buddy_inv E B lo hi M f' s1 /\ zone_free E f' s1 /\
    zone_ok B hi s1 /\ held E B lo hi f' s1 i (get_order size) /\
    free_idx E B f ≡ₚ seqZ i (2 ^ get_order size) ++ free_idx E B f' /\
    pages (mm s1) !! pg_at B i = Some pg /\ pg_private pg = get_order size).
  { assert (Hwp : wp (alloc_pages E size) (fun r s1 => r <> NULL -> exists i f' pg, r = pg_at B i /\
      buddy_inv E B lo hi M f' s1 /\ zone_free E f' s1 /\ zone_ok B hi s1 /\
      held E B lo hi f' s1 i (get_order size) /\
      free_idx E B f ≡ₚ seqZ i (2 ^ get_order size) ++ free_idx E B f' /\
      pages (mm s1) !! pg_at B i = Some pg /\ pg_private pg = get_order size) s).
    { eapply wp_alloc_pages; [exact HB|exact HM|exact Hlo|exact Hhi|exact Hd|exact Hinv|exact Hz|exact Hs|done|].
      intros i f' s0 s' pg Ho Hi' Hz' Hh Hperm Hfr (_ & E2 & _) Hpg Hpr _. exists i, f', pg.
      split_and!; try done. destruct Hok as [Z1 Z2 Z3 Z4].
      split; rewrite E2, (fr_mm _ _ _ _ _ _ _ Hfr); done. }
    unfold wp in Hwp. rewrite Hrun in Hwp. auto. }
  destruct Hpost as (i & f' & pg & -> & Hi' & Hz' & Hok' & Hh & Hperm & Hpg & Hpr).
  pose proof (h_order _ _ _ _ _ _ _ _ Hh) as Ho. pose proof (pow_range _ Ho).
  pose proof (h_lo _ _ _ _ _ _ _ _ Hh). pose proof (h_hi _ _ _ _ _ _ _ _ Hh).
  destruct Hok' as [Z1 Z2 Z3 Z4].
  destruct (wp_elim (free_pages E (B + 4096 * i)) (fun _ s2 => exists f2,
     buddy_inv E B lo hi M f2 s2 /\ zone_free E f2 s2 /\ free_idx E B f2 ≡ₚ free_idx E B f) s1)
    as ([] & s2 & E2 & f2 & H2).
  - eapply (wp_free_pages E B lo hi M); [exact HB|exact HM|exact Hlo|exact Hhi|exact Hd|exact Hi'|exact Hz'|by split|exact Hpg|by rewrite Hpr|].
    intros f2 s3 s4 Hi2 Hz2 Hperm2 _ _. exists f2. split_and!; try done. by rewrite Hperm2, Hpr, Hperm.
  - exists (B + 4096 * i), s2, f2. split_and!; try done; try apply H2.
    unfold page_address, bind, gets, ret. rewrite Z1. unfold pg_at, page_size.
    replace (B + 24 * i - B) with (i * 24) by lia. rewrite Z.div_mul by lia.
    rewrite (u32_small i) by lia. unfold PAGE_SHIFT. rewrite Z.shiftl_mul_pow2 by lia.
    change (2 ^ 12) with 4096. rewrite (u32_small (i * 4096)) by lia.
    rewrite u32_small by lia. do 3 f_equal. lia.
Qed.

Lemma alloc_free_roundtrip_witness :
  exists s1 a s2, alloc_pages demo_env 5000 demo_zone = Ok (pg_at demo_B 16, s1) /\
    page_address (pg_at demo_B 16) s1 = Ok (a, s1) /\ free_pages demo_env a s1 = Ok (tt, s2).
Proof.
  destruct (alloc_pages demo_env 5000 demo_zone) as [[r s1]|e] eqn:Hrun.
  - assert (Hr : r = pg_at demo_B 16).
    { apply (f_equal result) in Hrun. vm_compute in Hrun. injection Hrun as <-. reflexivity. }
    subst r.
    destruct (alloc_free_roundtrip demo_env demo_B 16 24 2048 (list_to_map demo_free) demo_zone 5000
      (pg_at demo_B 16) s1 demo_geometry demo_zone_inv demo_zone_free demo_zone_ok) as (a & s2 & f2 & E1 & E2 & _).
    + lia.
    + exact Hrun.
    + vm_compute. congruence.
    + exists s1, a, s2. split; [reflexivity|]. split; [exact E1|exact E2].
  - exfalso. apply (f_equal result) in Hrun. vm_compute in Hrun. discriminate Hrun.
Defined.

(** [C24] Filling the free lists: [insert_to_free_area] terminates and cuts any
    run of pages that are in no list into blocks of at most 1024 pages: exactly
    these pages become free, none twice. *)
Theorem insert_covers_range E B lo hi M f s i n :
  geometry B lo hi M -> buddy_inv E B lo hi M f s -> in_hand E B lo hi f s i n -> n < 2147483648 ->
  exists s' f', insert_to_free_area E (pg_at B i) n s = Ok (tt, s') /\
    buddy_inv E B lo hi M f' s' /\ free_idx E B f' ≡ₚ seqZ i n ++ free_idx E B f.
Proof.
  intros [HB HM Hlo Hhi Hd] Hinv Hih Hn.
  destruct (wp_elim (insert_to_free_area E (pg_at B i) n) (fun _ s' => exists f',
    buddy_inv E B lo hi M f' s' /\ free_idx E B f' ≡ₚ seqZ i n ++ free_idx E B f) s) as ([] & s' & E1 & f' & H).
  - eapply wp_insert_to_free_area; eauto.
  - exists s', f'. done.
Qed.

Definition demo_emptied : kst := run (alloc_pages demo_env 20000) demo_zone.

Lemma insert_covers_range_witness :
  exists s', insert_to_free_area demo_env (pg_at demo_B 17) 5 demo_emptied = Ok (tt, s').
Proof.
  destruct (insert_covers_range demo_env demo_B 16 24 2048
    (list_to_map ((5148, []) :: ((fun o => (free_list demo_env o, [])) <$> seqZ 0 11))) demo_emptied 17 5
    demo_geometry) as (s' & f' & E & _).
  - apply buddy_inv_b_sound. vm_compute. reflexivity.
  - split; [lia|lia|lia| |].
    + intros j _. vm_compute. intros H. inversion H.
    + intros j Hj. assert (j = 17 \/ j = 18 \/ j = 19 \/ j = 20 \/ j = 21) as Hc by lia.
      split; [destruct Hc as [ -> | [ -> | [ -> | [ -> | -> ]]]]; split; eexists; vm_compute; reflexivity|].
      intros hd l Hl. apply elem_of_list_to_map_2 in Hl. apply elem_of_cons in Hl as [[= -> ->]|Hl].
      * unfold nd, demo_B. set_solver by lia.
      * apply list_elem_of_fmap in Hl as (o & [= -> ->] & Ho%elem_of_seqZ).
        unfold nd, demo_B, free_list. cbn. set_solver by lia.
  - lia.
  - exists s'. exact E.
Defined.

(** Four pages of memory at 1 MB, with 77 in every word that becomes a page's
    index. *)
Definition demo_raw : kst :=
  let nodes := demo_nodes (5148 :: (free_list demo_env <$> seqZ 0 11) ++ (nd demo_B <$> seqZ 0 4)) in
  mk_kst (mk_lheap nodes nodes) ∅ [0] 0 0 0 true ∅ 0 true ∅ ∅ ∅ ∅ 0 []
    (mk_mm 0 0 0 0 (replicate 11 0)
       (list_to_map ((fun i => (pg_at demo_B i, mk_page [0] 77 0 0)) <$> seqZ 0 4)) ∅) ∅ ∅ 0.

(** [page_alloc_init] numbers the wrong pages: it sets the index of the
    first [managed_pages] entries of the array, while the pages it puts on the
    free lists start after the array's own pages.  Of four pages, 1 to 3 become
    free and the last of them keeps whatever index was in memory. *)
Theorem page_alloc_init_skips_index :
  exists s', page_alloc_init demo_env demo_B 16384 demo_raw = Ok (tt, s') /\
    lists (links s') (list_to_map [(free_list demo_env 1, [nd demo_B 1]); (free_list demo_env 0, [nd demo_B 3])]) /\
    pg_index <$> pages (mm s') !! pg_at demo_B 1 = Some 1 /\
    pg_index <$> pages (mm s') !! pg_at demo_B 3 = Some 77.
Proof.
  eexists. split; [vm_compute; reflexivity|]. split; [|split; vm_compute; reflexivity].
  apply lists_b_sound. vm_compute. reflexivity.
Qed.
