(* ===== verification/Slob.v ===== *)
(** * mm/slob.c and mm/malloc.c: small blocks inside pages

    A page that slob owns is cut into units of two bytes.  A free block starts
    with its size in units and, in the next unit, the offset of the next free
    block; a free block of one unit has only the negated offset.  These 16-bit
    cells are [slobs] of the memory state.  [kmalloc] puts the block's size in
    front of the memory it returns. *)

From S2P Require Import Prelude KList Bitops KState Sched Semaphore Env PageAlloc.

Definition SLOB_BREAK1 : Z := 256.
Definition SLOB_BREAK2 : Z := 1024.
Definition PG_slob_free : Z := 0.
Definition SLOB_UNIT : Z := 2.
Definition ARCH_SLOB_MINALIGN : Z := 8.

(** [DIV_ROUND_UP(size, SLOB_UNIT)], unsigned *)
Definition SLOB_UNITS (size : Z) : Z := u32 (u32 (size + SLOB_UNIT) - 1) / SLOB_UNIT.

(** [ALIGN(P, ALIGNBYTES)] of arch/mmu.h: rounds down *)
Definition ALIGN (p a : Z) : Z := Z.land (u32 p) (u32 (Z.lnot (a - 1))).

(** Pointer arithmetic on [slob_t *] *)
Definition slob_plus (s k : Z) : Z := u32 (s + SLOB_UNIT * k).
Definition slob_sub (a b : Z) : Z := s32 (a - b) / SLOB_UNIT.

Definition rd_slob (a : Z) : M kst Z :=
  on_mm (m <- gets slobs ;; lift_opt (bad_ptr a) (m !! a)).
Definition wr_slob (a v : Z) : M kst unit :=
  rd_slob a ;;; on_mm (modify (fun m => set_slobs (<[a := s16 v]> (slobs m)) m)).

(** The flag bit of a page. *)
Definition on_flags {A} (p : Z) (op : M (list Z) A) : M kst A :=
  pg <- rd_page p ;;
  match op (pg_flags pg) with
  | Ok (a, fl) => wr_page p (fun pg => mk_page fl (pg_index pg) (pg_units pg) (pg_private pg)) ;;; ret a
  | Err e => fail e
  end.
Definition PageSlobFree (p : Z) : M kst Z := pg <- rd_page p ;;
  match test_bit PG_slob_free (pg_flags pg) with Ok (b, _) => ret b | Err e => fail e end.
Definition __SetPageSlobFree (p : Z) : M kst unit := on_flags p (set_bit PG_slob_free).
Definition __ClearPageSlobFree (p : Z) : M kst unit := on_flags p (clear_bit PG_slob_free).
Definition PageSlob (p : Z) : M kst Z := PageSlobFree p.
Definition slob_page_free (sp : Z) : M kst Z := PageSlobFree sp.

Definition set_slob_page_free (sp list : Z) : M kst unit :=
  on_links (list_add (page_list sp) list) ;;; __SetPageSlobFree sp.
Definition clear_slob_page_free (sp : Z) : M kst unit :=
  on_links (list_del (page_list sp)) ;;; __ClearPageSlobFree sp.

Definition slob_base (s : Z) : Z := Z.land s PAGE_MASK.

Definition set_slob (s size next : Z) : M kst unit :=
  let base := slob_base s in
  let offset := s16 (slob_sub next base) in
  if 1 <? size then wr_slob s size ;;; wr_slob (slob_plus s 1) offset
  else wr_slob s (- offset).

Definition slob_units (s : Z) : M kst Z :=
  u <- rd_slob s ;; if 0 <? u then ret u else ret 1.

Definition slob_next (s : Z) : M kst Z :=
  let base := slob_base s in
  u <- rd_slob s ;;
  next <- (if u <? 0 then ret (s16 (- u)) else rd_slob (slob_plus s 1)) ;;
  ret (slob_plus base next).

Definition slob_last (s : Z) : M kst bool :=
  n <- slob_next s ;; ret (Z.land n (4294967295 - PAGE_MASK) =? 0).

(** [sp->freelist], [sp->units] *)
Definition rd_freelist (sp : Z) : M kst Z := pg <- rd_page sp ;; ret (pg_index pg).
Definition wr_freelist (sp v : Z) : M kst unit := wr_page sp (with_index v).
Definition rd_units (sp : Z) : M kst Z := pg <- rd_page sp ;; ret (pg_units pg).
Definition wr_units (sp v : Z) : M kst unit := wr_page sp (with_units (s32 v)).

(** At most one turn per unit of the page. *)
Definition slob_fuel : nat := 2050.

(** The body of the [for] of [slob_page_alloc] once the block has room. *)
Definition slob_take (sp units align prev cur avail delta aligned : Z) : M kst Z :=
  '(prev, cur, avail) <-
    (if negb (delta =? 0) then
       next <- slob_next cur ;;
       set_slob aligned (s16 (avail - delta)) next ;;;
       set_slob cur (s16 delta) aligned ;;;
       a <- slob_units aligned ;;
       ret (cur, aligned, a)
     else ret (prev, cur, avail)) ;;
  next <- slob_next cur ;;
  (if avail =? units then
     if negb (prev =? NULL) then u <- slob_units prev ;; set_slob prev u next
     else wr_freelist sp next
   else
     (if negb (prev =? NULL) then u <- slob_units prev ;; set_slob prev u (slob_plus cur units)
      else wr_freelist sp (slob_plus cur units)) ;;;
     set_slob (slob_plus cur units) (s16 (avail - units)) next) ;;;
  u <- rd_units sp ;;
  wr_units sp (u - units) ;;;
  u' <- rd_units sp ;;
  (if u' =? 0 then clear_slob_page_free sp else ret tt) ;;;
  set_slob cur (s16 units) (slob_plus cur units) ;;;
  ret (u32 (cur + align)).

Definition slob_page_alloc (sp size align : Z) : M kst Z :=
  let units := s32 (SLOB_UNITS size) in
  first <- rd_freelist sp ;;
  loop slob_fuel (fun '(prev, cur, delta, aligned) =>
      avail <- slob_units cur ;;
      let '(delta, aligned) :=
        if negb (align =? 0)
        then let a := ALIGN (cur + align - 1) align in (slob_sub a cur, a)
        else (delta, aligned) in
      if units + delta <=? avail then
        r <- slob_take sp units align prev cur avail delta aligned ;; ret (inr r)
      else
        l <- slob_last cur ;;
        if (l : bool) then ret (inr NULL)
        else n <- slob_next cur ;; ret (inl (cur, n, delta, aligned)))
    (NULL, first, 0, NULL).

Section Slob.
Context (E : env).

Definition slob_new_pages (size : Z) : M kst Z :=
  page <- alloc_pages E size ;;
  if page =? NULL then ret NULL else page_address page.

Definition slob_free_pages (b : Z) : M kst unit := free_pages E b.

(** The list that a size belongs to. *)
Definition slob_list_for (size : Z) : Z :=
  if size <? SLOB_BREAK1 then free_slob_small E
  else if size <? SLOB_BREAK2 then free_slob_medium E
  else free_slob_large E.

(** The [list_for_each_entry] of [slob_alloc]: a block, or [NULL]. *)
Definition slob_search (slob_list size align : Z) : M kst Z :=
  fuel <- gets (fun s => walk_fuel (links s)) ;;
  first <- on_links (rd_next slob_list) ;;
  loop fuel (fun pos =>
      if pos =? slob_list then ret (inr NULL) else
      let sp := page_of_list pos in
      u <- rd_units sp ;;
      if u32 u <? SLOB_UNITS size then n <- on_links (rd_next pos) ;; ret (inl n) else
      prev <- on_links (rd_prev pos) ;;
      b <- slob_page_alloc sp size align ;;
      if b =? NULL then n <- on_links (rd_next pos) ;; ret (inl n) else
      lp <- on_links (rd_prev slob_list) ;;
      (if negb (prev =? lp) then
         ln <- on_links (rd_next slob_list) ;;
         pn <- on_links (rd_next prev) ;;
         if negb (ln =? pn) then on_links (list_move_tail slob_list pn) else ret tt
       else ret tt) ;;;
      ret (inr b)) first.

Definition slob_alloc (size align : Z) : M kst Z :=
  let slob_list := slob_list_for size in
  down E (slob_sem E) ;;;
  b <- slob_search slob_list size align ;;
  up (slob_sem E) ;;;
  if b =? NULL then
    b <- slob_new_pages (PAGE_SIZE - 1) ;;
    if b =? NULL then ret NULL else
    sp <- virt_to_page b ;;
    down E (slob_sem E) ;;;
    wr_units sp (SLOB_UNITS PAGE_SIZE) ;;;
    wr_freelist sp b ;;;
    on_links (INIT_LIST_HEAD (page_list sp)) ;;;
    set_slob b (s16 (SLOB_UNITS PAGE_SIZE)) (slob_plus b (SLOB_UNITS PAGE_SIZE)) ;;;
    set_slob_page_free sp slob_list ;;;
    b <- slob_page_alloc sp size align ;;
    up (slob_sem E) ;;;
    ret b
  else ret b.

(** Reinsertion into a page that has free blocks already. *)
Definition slob_reinsert (sp b units : Z) : M kst unit :=
  fl <- rd_freelist sp ;;
  if b <? fl then
    units <- (if slob_plus b units =? fl then
                u <- slob_units fl ;;
                n <- slob_next fl ;;
                wr_freelist sp n ;;;
                ret (s16 (units + u))
              else ret units) ;;
    fl <- rd_freelist sp ;;
    set_slob b units fl ;;;
    wr_freelist sp b
  else
    next <- slob_next fl ;;
    '(prev, next) <- loop slob_fuel (fun '(prev, next) =>
        if next <? b then n <- slob_next next ;; ret (inl (next, n))
        else ret (inr (prev, next))) (fl, next) ;;
    last <- slob_last prev ;;
    (if negb last && (slob_plus b units =? next) then
       u <- slob_units next ;;
       nn <- slob_next next ;;
       set_slob b (s16 (units + u)) nn
     else set_slob b units next) ;;;
    pu <- slob_units prev ;;
    if slob_plus prev pu =? b then
      bu <- slob_units b ;;
      nb <- slob_next b ;;
      set_slob prev (s16 (bu + pu)) nb
    else set_slob prev pu b.

Definition slob_free (block size : Z) : M kst unit :=
  sp <- virt_to_page block ;;
  let units := s16 (SLOB_UNITS size) in
  down E (slob_sem E) ;;;
  su <- rd_units sp ;;
  if u32 (su + units) =? SLOB_UNITS PAGE_SIZE then
    b <- slob_page_free sp ;;
    (if negb (b =? 0) then clear_slob_page_free sp else ret tt) ;;;
    up (slob_sem E) ;;;
    wr_units sp (-1) ;;;
    slob_free_pages block
  else
    b <- slob_page_free sp ;;
    (if b =? 0 then
       wr_units sp units ;;;
       wr_freelist sp block ;;;
       set_slob block units (Z.land (slob_plus block (SLOB_UNITS PAGE_SIZE)) PAGE_MASK) ;;;
       set_slob_page_free sp (slob_list_for size)
     else
       wr_units sp (su + units) ;;;
       slob_reinsert sp block units) ;;;
    up (slob_sem E).

(** ** mm/malloc.c *)

Definition kmalloc_init (addr size : Z) : M kst unit :=
  if NULL =? addr then ret tt else page_alloc_init E addr size.

(** The size that [kmalloc] asks slob for. *)
Definition kmalloc_size (size : Z) : Z :=
  ALIGN (size + SLOB_UNIT + ARCH_SLOB_MINALIGN - 1) ARCH_SLOB_MINALIGN.

Definition kmalloc (size : Z) : M kst Z :=
  if size =? 0 then ret NULL else
  let size := kmalloc_size size in
  if size <? PAGE_SIZE then
    if size =? 0 then ret NULL else slob_alloc size ARCH_SLOB_MINALIGN
  else slob_new_pages size.

Definition kfree (addr : Z) : M kst unit :=
  if NULL =? addr then ret tt else
  sp <- virt_to_page addr ;;
  b <- PageSlob sp ;;
  if negb (b =? 0) then
    let m := u32 (addr - ARCH_SLOB_MINALIGN) in
    u <- rd_slob m ;;
    slob_free m (s32 (u * SLOB_UNIT))
  else free_pages E addr.
End Slob.

(** ** Symbolic execution of the cells *)

Lemma wp_rd_slob s a v (Q : Z -> kst -> Prop) :
  slobs (mm s) !! a = Some v -> Q v s -> wp (rd_slob a) Q s.
Proof.
  intros H HQ. unfold rd_slob, on_mm. wp_simpl. rewrite H. wp_simpl. by destruct s.
Qed.

(** ** A concrete heap, for the examples: the zone of [PageAlloc], with empty
    slob lists and zeroed memory in its first two pages. *)
Definition demo_heap : kst :=
  let s := demo_zone in
  let extra := [6000; 6010; 6020; 6034] in
  let cells := list_to_map ((fun i => (demo_B + 4096 * 16 + 2 * i, 0)) <$> seqZ 0 4096) in
  run (on_links (INIT_LIST_HEAD 6000) ;;; on_links (INIT_LIST_HEAD 6010) ;;;
       on_links (INIT_LIST_HEAD 6020) ;;; sema_init 6030 1)
    (set_mm (set_slobs cells (mm s))
       (set_links (mk_lheap (demo_nodes extra ∪ nx (links s)) (demo_nodes extra ∪ pv (links s))) s)).

(** ** Properties *)

(** [kmalloc] of a size below a page reserves [kmalloc_size] bytes and
    returns the address eight bytes into them.  That leaves room for the size
    asked for exactly if it is 0 or 7 modulo 8; for every other size the block
    is too small. *)
Theorem kmalloc_room size :
  1 <= size <= 4000 ->
  ARCH_SLOB_MINALIGN + size <= kmalloc_size size <-> size mod 8 = 0 \/ size mod 8 = 7.
Proof.
  intros Hs. unfold kmalloc_size, ALIGN, SLOB_UNIT, ARCH_SLOB_MINALIGN.
  rewrite (u32_small (size + 2 + 8 - 1)) by lia.
  assert (E : Z.land (size + 2 + 8 - 1) (u32 (Z.lnot (8 - 1))) = 8 * ((size + 2 + 8 - 1) / 8)).
  { change (u32 (Z.lnot (8 - 1))) with (Z.shiftl (Z.ones 29) 3).
    set (x := size + 2 + 8 - 1) in *. rewrite Z.mul_comm. change 8 with (2 ^ 3).
    rewrite <- Z.shiftr_div_pow2, <- Z.shiftl_mul_pow2 by lia.
    apply Z.bits_inj'. intros n Hn. rewrite Z.land_spec.
    destruct (Z.lt_ge_cases n 3).
    - rewrite !Z.shiftl_spec_low by lia. by rewrite andb_false_r.
    - rewrite !Z.shiftl_spec by lia. rewrite Z.shiftr_spec by lia. replace (n - 3 + 3) with n by lia.
      destruct (Z.lt_ge_cases n 32).
      + rewrite Z.ones_spec_low by lia. by rewrite andb_true_r.
      + rewrite Z.ones_spec_high by lia. rewrite andb_false_r. symmetry.
        apply Z.bits_above_log2; [unfold x; lia|]. apply Z.log2_lt_pow2; [unfold x; lia|].
        apply Z.lt_le_trans with (2 ^ 32); [unfold x; lia|]. apply Z.pow_le_mono_r; lia. }
  rewrite E. pose proof (Z.div_mod size 8 ltac:(lia)). pose proof (Z.mod_pos_bound size 8 ltac:(lia)).
  pose proof (Z.div_mod (size + 2 + 8 - 1) 8 ltac:(lia)).
  pose proof (Z.mod_pos_bound (size + 2 + 8 - 1) 8 ltac:(lia)). lia.
Qed.

Lemma kmalloc_room_witness :
  ARCH_SLOB_MINALIGN + 80 <= kmalloc_size 80 /\ ~ ARCH_SLOB_MINALIGN + 44 <= kmalloc_size 44.
Proof.
  split.
  - apply (kmalloc_room 80); [lia|]. left. reflexivity.
  - intros H. apply (kmalloc_room 44) in H; [|lia]. vm_compute in H. destruct H; congruence.
Defined.

(** So two blocks overlap: of two consecutive [kmalloc(6)], the header cell
    of the second lies at the address that the first returned. *)
Theorem kmalloc_blocks_overlap :
  exists p, p <> NULL /\
    result ((p1 <- kmalloc demo_env 6 ;; p2 <- kmalloc demo_env 6 ;;
             header <- rd_slob p1 ;; ret (p1, p2, header)) demo_heap) = Some (p, p + 8, 4).
Proof. exists 1114120. split; [done|]. vm_compute. reflexivity. Qed.

(** Freeing from a full page frees the whole page: a page without free
    units is not marked as a slob page any more, so [kfree] of one of two live
    blocks in it gives the page itself back, and the next page allocation hands
    out memory that the other block still uses. *)
Theorem kfree_full_page :
  exists p1 p2 sp, p1 <> NULL /\ p2 <> NULL /\ sp <> NULL /\
    result ((p1 <- kmalloc demo_env 2040 ;; p2 <- kmalloc demo_env 2040 ;;
             kfree demo_env p1 ;;;
             page2 <- virt_to_page p2 ;;
             new <- alloc_pages demo_env 4096 ;;
             ret (p1, p2, page2, new)) demo_heap) = Some (p1, p2, sp, sp).
Proof.
  exists 1114120, (1114120 + 2048), (pg_at demo_B 16).
  split; [done|]. split; [done|]. split; [done|]. vm_compute. reflexivity.
Qed.
