(* ===== verification/SlobSpec.v ===== *)
(** * The free list of a slob page

    What mm/slob.c does to one page, on the list of its free blocks.  Offsets and
    sizes are in units of two bytes, a page has 2048 of them.  [chain] is how the
    cells of the page hold the list, [page_blocks] the invariant of a page; [take] is
    the first fit, [give] the insertion of a block with its joining, both on lists.
    The routines refine them. *)

From S2P Require Import Prelude KList Bitops KState Sched Semaphore Env PageAlloc Slob.

Definition page_units : Z := 2048.

(** The offset of the first block of [l], [e] if there is none. *)
Definition nxt (l : list (Z * Z)) (e : Z) : Z := match l with [] => e | (o, _) :: _ => o end.

(** The free units. *)
Fixpoint total (l : list (Z * Z)) : Z := match l with [] => 0 | (_, n) :: r => n + total r end.

(** Blocks one after the other from [lo] on; [apart] if no two of them touch. *)
Fixpoint ordered (lo : Z) (l : list (Z * Z)) : Prop :=
  match l with
  | [] => lo <= page_units
  | (o, n) :: r => lo <= o /\ 1 <= n /\ ordered (o + n) r
  end.
Fixpoint apart (lo : Z) (l : list (Z * Z)) : Prop :=
  match l with
  | [] => True
  | (o, n) :: r => lo <= o /\ 1 <= n /\ o + n <= page_units /\ apart (o + n + 1) r
  end.

(** Unit [i] is in no block of [l]. *)
Definition outside (l : list (Z * Z)) (i : Z) : Prop := forall o n, (o, n) ∈ l -> i < o \/ o + n <= i.

(** ** First fit and insertion, on lists *)

(** The first unit from [o] on at an address that is a multiple of [align]. *)
Definition align_up (align o : Z) : Z :=
  if align =? 0 then o else (2 * o + align - 1) / align * align / 2.

Fixpoint take (align units : Z) (l : list (Z * Z)) : option (Z * list (Z * Z)) :=
  match l with
  | [] => None
  | (o, n) :: r =>
    let a := align_up align o in
    if units + (a - o) <=? n
    then Some (a, (if a =? o then [] else [(o, a - o)]) ++
                  (if n - (a - o) =? units then [] else [(a + units, n - (a - o) - units)]) ++ r)
    else match take align units r with
         | Some (a, r') => Some (a, (o, n) :: r')
         | None => None
         end
  end.

Fixpoint give (o n : Z) (l : list (Z * Z)) : list (Z * Z) :=
  match l with
  | [] => [(o, n)]
  | (o1, n1) :: r =>
    if o <? o1 then if o + n =? o1 then (o, n + n1) :: r else (o, n) :: l
    else if o1 + n1 =? o then
      match r with
      | (o2, n2) :: r' => if o + n =? o2 then (o1, n1 + (n + n2)) :: r' else (o1, n1 + n) :: r
      | [] => [(o1, n1 + n)]
      end
    else (o1, n1) :: give o n r
  end.

Lemma ordered_weaken lo lo' l : lo' <= lo -> ordered lo l -> ordered lo' l.
Proof. destruct l as [|[o n] r]; cbn; intuition lia. Qed.

Lemma ordered_bound lo l : ordered lo l -> lo <= page_units.
Proof. revert lo. induction l as [|[o n] r IH]; intros lo; cbn; [done|]. intros (? & ? & H). apply IH in H. lia. Qed.

Lemma apart_weaken lo lo' l : lo' <= lo -> apart lo l -> apart lo' l.
Proof. destruct l as [|[o n] r]; cbn; intuition lia. Qed.

Lemma apart_ordered lo l : lo <= page_units -> apart lo l -> ordered lo l.
Proof.
  revert lo. induction l as [|[o n] r IH]; intros lo Hlo; cbn; [done|].
  intros (? & ? & ? & H). split_and!; [done|done|]. apply IH; [done|].
  eapply apart_weaken; [|exact H]. lia.
Qed.

Lemma ordered_elem lo l o n : ordered lo l -> (o, n) ∈ l -> lo <= o /\ 1 <= n /\ o + n <= page_units.
Proof.
  revert lo. induction l as [|[o1 n1] r IH]; intros lo; cbn; [by intros ? ?%not_elem_of_nil|].
  intros (? & ? & H) [[= -> ->]|Hin]%elem_of_cons.
  - apply ordered_bound in H. lia.
  - destruct (IH _ H Hin). lia.
Qed.

Lemma ordered_app lo l1 o n l2 :
  ordered lo (l1 ++ (o, n) :: l2) <-> ordered lo l1 /\ (forall o1 n1, (o1, n1) ∈ l1 -> o1 + n1 <= o) /\ ordered lo ((o, n) :: l2).
Proof.
  revert lo. induction l1 as [|[o1 n1] r IH]; intros lo; cbn [app ordered].
  - split; [|by intros (_ & _ & H)]. intros (? & ? & H).
    pose proof (ordered_bound _ _ H). split_and!; try done; [lia|by intros ? ? ?%not_elem_of_nil].
  - rewrite IH. cbn [ordered]. split.
    + intros (? & ? & ? & Hb & ? & ? & ?). split_and!; try done; [|lia].
      intros o2 n2 [[= -> ->]|Hin]%elem_of_cons; [lia|eauto].
    + intros ((? & ? & ?) & Hb & ? & ? & ?). split_and!; try done.
      * intros o2 n2 Hin. apply Hb. by right.
      * apply (Hb o1 n1). by left.
Qed.

Lemma outside_app l1 l2 i : outside (l1 ++ l2) i <-> outside l1 i /\ outside l2 i.
Proof. unfold outside. set_solver. Qed.

Lemma outside_cons o n l i : outside ((o, n) :: l) i <-> (i < o \/ o + n <= i) /\ outside l i.
Proof.
  unfold outside. split.
  - intros H. split; [apply H; by left|]. intros. apply H. by right.
  - intros [H1 H2] o' n' [[= -> ->]|?]%elem_of_cons; [done|by apply H2].
Qed.

Lemma inside_cons o n l i : o <= i < o + n -> ~ outside ((o, n) :: l) i.
Proof. intros Hi [? _]%outside_cons. lia. Qed.

Lemma ordered_below lo l i : ordered lo l -> i < lo -> outside l i.
Proof. intros H Hi o n Hin. destruct (ordered_elem _ _ _ _ H Hin). lia. Qed.

Lemma outside_nil i : outside [] i.
Proof. by intros ? ? ?%not_elem_of_nil. Qed.

Lemma apart_below lo l i : apart lo l -> i < lo -> outside l i.
Proof.
  revert lo. induction l as [|[o n] r IH]; intros lo; cbn; [intros; apply outside_nil|].
  intros (? & ? & ? & H) Hi. rewrite outside_cons. split; [lia|]. eapply IH; [exact H|lia].
Qed.

(** Two parts of an ordered list share no unit. *)
Lemma outside_either lo l1 l2 i : ordered lo (l1 ++ l2) -> outside l1 i \/ outside l2 i.
Proof.
  revert lo. induction l1 as [|[o n] r IH]; intros lo; cbn; [left; apply outside_nil|].
  intros (H1 & H2 & H3). destruct (decide (i < o + n)) as [Hi|Hi].
  - right. pose proof (ordered_below _ _ _ H3 Hi) as Hout. by apply outside_app in Hout as [_ ?].
  - destruct (IH _ H3); [left|by right]. apply outside_cons. split; [lia|done].
Qed.

Lemma total_app l1 l2 : total (l1 ++ l2) = total l1 + total l2.
Proof. induction l1 as [|[o n] r IH]; cbn; [done|]. rewrite IH. lia. Qed.

Lemma total_bound lo l : ordered lo l -> 0 <= total l <= page_units - lo.
Proof.
  revert lo. induction l as [|[o n] r IH]; intros lo; cbn; [lia|]. intros (? & ? & H). apply IH in H. lia.
Qed.

Lemma total_0 lo l : ordered lo l -> total l = 0 <-> l = [].
Proof.
  destruct l as [|[o n] r]; cbn; [done|]. intros (? & ? & H). apply total_bound in H. split; [lia|done].
Qed.

(** The insertion keeps the blocks apart, and adds exactly the units of the
    block. *)
Lemma give_apart lo o n l :
  apart lo l -> lo <= o -> 1 <= n -> o + n <= page_units -> (forall i, o <= i < o + n -> outside l i) ->
  apart lo (give o n l).
Proof.
  revert lo. induction l as [|[o1 n1] r IH]; intros lo Ha Hlo Hn Hb Hout; cbn [give].
  - cbn. done.
  - cbn in Ha. destruct Ha as (H1 & H2 & H3 & H4).
    assert (Hd : o + n <= o1 \/ o1 + n1 <= o).
    { destruct (decide (o + n <= o1)); [lia|]. destruct (decide (o1 + n1 <= o)); [lia|].
      exfalso. destruct (Hout (Z.max o o1) ltac:(lia) o1 n1 ltac:(by left)); lia. }
    destruct (Z.ltb_spec o o1); [destruct (Z.eqb_spec (o + n) o1)|destruct (Z.eqb_spec (o1 + n1) o)].
    + cbn. split_and!; try lia. eapply apart_weaken; [|exact H4]. lia.
    + cbn. split_and!; try lia. done.
    + destruct r as [|[o2 n2] r']; [cbn; lia|]. cbn in H4. destruct H4 as (H4 & H5 & H6 & H7).
      assert (o + n <= o2).
      { destruct (decide (o + n <= o2)); [done|].
        destruct (Hout o2 ltac:(lia) o2 n2 ltac:(by right; left)); lia. }
      destruct (Z.eqb_spec (o + n) o2); cbn; split_and!; try lia; try done.
      eapply apart_weaken; [|exact H7]. lia.
    + cbn. split_and!; try lia. apply IH; [done|lia|done|done|].
      intros i Hi. specialize (Hout i Hi). by apply outside_cons in Hout as [_ ?].
Qed.

Lemma give_outside lo o n l i :
  apart lo l -> 1 <= n -> outside (give o n l) i <-> (i < o \/ o + n <= i) /\ outside l i.
Proof.
  intros Ha Hn. revert lo Ha. induction l as [|[o1 n1] r IH]; intros lo Ha; cbn [give].
  - by rewrite outside_cons.
  - cbn in Ha. destruct Ha as (H1 & H2 & H3 & H4).
    destruct (Z.ltb_spec o o1); [destruct (Z.eqb_spec (o + n) o1)|destruct (Z.eqb_spec (o1 + n1) o)].
    + rewrite !outside_cons. intuition lia.
    + by rewrite outside_cons.
    + destruct r as [|[o2 n2] r']; [rewrite !outside_cons; intuition lia|]. cbn in H4.
      destruct (Z.eqb_spec (o + n) o2); rewrite !outside_cons; intuition lia.
    + rewrite !outside_cons, (IH _ H4). tauto.
Qed.

Lemma give_total o n l : total (give o n l) = n + total l.
Proof.
  induction l as [|[o1 n1] r IH]; cbn [give]; [done|].
  repeat case_match; cbn [total] in *; subst; cbn [total] in *; lia.
Qed.

(** What first fit takes: free units, at an aligned place; the rest stays free
    and apart.  It finds nothing only if no block has room. *)
Record taken (align units lo : Z) (l : list (Z * Z)) (a : Z) (l' : list (Z * Z)) : Prop := {
  tk_low : lo <= a;
  tk_align : exists o, a = align_up align o;
  tk_free : forall i, outside l' i <-> outside l i \/ a <= i < a + units;
  tk_was : forall i, a <= i < a + units -> ~ outside l i;
  tk_high : a + units <= page_units;
  tk_apart : apart lo l';
  tk_total : total l' = total l - units
}.

Lemma take_some align units lo l a l' :
  apart lo l -> 1 <= units -> (forall o, o <= align_up align o) ->
  take align units l = Some (a, l') -> taken align units lo l a l'.
Proof.
  intros Ha Hu Hup. revert lo a l' Ha. induction l as [|[o n] r IH]; intros lo a l' Ha; cbn [take]; [done|].
  cbn in Ha. destruct Ha as (H1 & H2 & H3 & H4). specialize (Hup o).
  destruct (Z.leb_spec (units + (align_up align o - o)) n).
  - intros [= <- <-].
    assert (Hr : forall i, i <= o + n -> outside r i) by (intros; eapply apart_below; [exact H4|lia]).
    split; [lia|by exists o| | |lia| |].
    + intros i. rewrite !outside_app, outside_cons. specialize (Hr i).
      pose proof (outside_nil i). destruct (decide (align_up align o <= i < align_up align o + units));
        (destruct (decide (i <= o + n)) as [Hi|Hi]; [specialize (Hr Hi)|clear Hr]);
        repeat case_cmp; rewrite ?outside_cons; intuition lia.
    + intros i Hi. rewrite outside_cons. intros [? _]. lia.
    + repeat case_cmp; cbn [app apart]; try split_and!; try lia; (eapply apart_weaken; [|exact H4]; lia).
    + repeat case_cmp; cbn [app total]; lia.
  - destruct (take align units r) as [[a1 r']|] eqn:E; [|done]. intros [= <- <-].
    destruct (IH _ _ _ H4 eq_refl) as [T1 T2 T3 T4 T5 T6 T7].
    split; [lia|done| | |done|by split_and!|cbn; lia].
    + intros i. rewrite !outside_cons, T3. intuition lia.
    + intros i Hi. rewrite outside_cons. intros [_ Hout]. by apply (T4 i).
Qed.

Lemma take_none align units l :
  take align units l = None <-> forall o n, (o, n) ∈ l -> n < units + (align_up align o - o).
Proof.
  induction l as [|[o n] r IH]; cbn [take]; [split; [by intros _ ? ? ?%not_elem_of_nil|done]|].
  destruct (Z.leb_spec (units + (align_up align o - o)) n).
  - split; [done|]. intros H'. specialize (H' o n ltac:(by left)). lia.
  - destruct (take align units r) as [[a r']|].
    + split; [done|]. intros H'. assert (E : Some (a, r') = None); [|done].
      apply IH. intros o' n' Hin. apply H'. by right.
    + split; [|done]. intros _ o' n' [[= -> ->]|Hin]%elem_of_cons; [done|]. by apply IH.
Qed.

(** Taking a block and giving it back is no change. *)
Lemma take_give align units l lo a l' :
  apart lo l -> 1 <= units -> (forall o, o <= align_up align o) ->
  take align units l = Some (a, l') -> lo <= a /\ give a units l' = l.
Proof.
  intros Ha Hu Hup. revert lo a l' Ha. induction l as [|[o n] r IH]; intros lo a l' Ha; cbn [take]; [done|].
  cbn in Ha. destruct Ha as (H1 & H2 & H3 & H4). specialize (Hup o) as Hup1.
  destruct (Z.leb_spec (units + (align_up align o - o)) n).
  - intros [= <- <-]. split; [lia|]. set (a := align_up align o) in *.
    assert (Hr : forall m, give a m r = (a, m) :: r \/ o + n < a + m).
    { intros m. destruct r as [|[o2 n2] r']; [by left|]. cbn in H4. cbn.
      destruct (Z.ltb_spec a o2), (Z.eqb_spec (a + m) o2); (left; congruence) || (right; lia) || lia. }
    destruct (Z.eqb_spec a o), (Z.eqb_spec (n - (a - o)) units); cbn [app].
    + destruct (Hr units) as [->|]; [|lia]. repeat f_equal; lia.
    + cbn [give]. rewrite (proj2 (Z.ltb_lt a (a + units))), Z.eqb_refl by lia. repeat f_equal; lia.
    + cbn [give]. rewrite (proj2 (Z.ltb_ge a o)), (proj2 (Z.eqb_eq (o + (a - o)) a)) by lia.
      destruct r as [|[o2 n2] r']; [repeat f_equal; lia|]. cbn in H4.
      rewrite (proj2 (Z.eqb_neq (a + units) o2)) by lia. repeat f_equal; lia.
    + cbn [give]. rewrite (proj2 (Z.ltb_ge a o)), (proj2 (Z.eqb_eq (o + (a - o)) a)), Z.eqb_refl by lia.
      repeat f_equal; lia.
  - destruct (take align units r) as [[a1 r']|] eqn:E; [|done]. intros [= <- <-]. cbn [give].
    destruct (IH _ _ _ H4 eq_refl) as [Hlo <-].
    rewrite (proj2 (Z.ltb_ge a1 o)), (proj2 (Z.eqb_neq (o + n) a1)) by lia. split; [lia|done].
Qed.

(** ** The cells of a page *)

(** A mask that clears the low bits of a word. *)
Lemma land_clear k x : 0 <= k <= 32 -> 0 <= x < 2 ^ 32 -> Z.land x (Z.shiftl (Z.ones (32 - k)) k) = x - x mod 2 ^ k.
Proof.
  intros Hk Hx. rewrite land_high by (replace (k + (32 - k)) with 32 by lia; lia).
  rewrite Z.shiftl_mul_pow2, Z.shiftr_div_pow2 by lia. pose proof (Z.div_mod x (2 ^ k) ltac:(lia)). lia.
Qed.

Section Page.
(** [b] is the address of the page. *)
Variable b : Z.

Record page_base : Prop := {
  pb_pos : 0 < b;
  pb_top : b + 4096 < 2 ^ 32;
  pb_mod : b mod 4096 = 0
}.
Context (Hb : page_base).

Definition at_unit (o : Z) : Z := b + 2 * o.

(** A free block of [n] units at [o], the next one at [e]. *)
Definition block_at (c : gmap Z Z) (o n e : Z) : Prop :=
  if 1 <? n then c !! at_unit o = Some n /\ c !! at_unit (o + 1) = Some e
  else c !! at_unit o = Some (- e).

(** The blocks of [l], the last of which leads to [e]. *)
Fixpoint chain (c : gmap Z Z) (l : list (Z * Z)) (e : Z) : Prop :=
  match l with
  | [] => True
  | (o, n) :: r => block_at c o n (nxt r e) /\ chain c r e
  end.

Definition cells_in (c : gmap Z Z) : Prop := forall i, 0 <= i < page_units -> is_Some (c !! at_unit i).

(** What [set_slob] writes. *)
Definition put_block (c : gmap Z Z) (o n e : Z) : gmap Z Z :=
  if 1 <? n then <[at_unit (o + 1) := e]> (<[at_unit o := n]> c) else <[at_unit o := - e]> c.

Lemma at_unit_inj i j : at_unit i = at_unit j <-> i = j.
Proof. unfold at_unit. lia. Qed.

Lemma put_block_other c o n e a : (forall i, o <= i < o + Z.max 1 n -> a <> at_unit i) -> put_block c o n e !! a = c !! a.
Proof.
  intros H. unfold put_block. destruct (Z.ltb_spec 1 n).
  - rewrite !lookup_insert_ne; [done| |]; intros <-; [apply (H o)|apply (H (o + 1))]; lia || done.
  - rewrite lookup_insert_ne; [done|]. intros <-. apply (H o); lia || done.
Qed.

Lemma put_block_unit c o n e i : 1 <= n -> i < o \/ o + n <= i -> put_block c o n e !! at_unit i = c !! at_unit i.
Proof. intros Hn Hi. apply put_block_other. intros j Hj. rewrite at_unit_inj. lia. Qed.

Lemma put_block_is c o n e : 1 <= n -> block_at (put_block c o n e) o n e.
Proof.
  intros Hn. unfold block_at, put_block. destruct (Z.ltb_spec 1 n).
  - rewrite lookup_insert_eq, lookup_insert_ne, lookup_insert_eq by (rewrite at_unit_inj; lia). done.
  - by rewrite lookup_insert_eq.
Qed.

Lemma put_block_in c o n e : cells_in c -> cells_in (put_block c o n e).
Proof.
  intros H i Hi. unfold put_block. destruct (1 <? n); rewrite !lookup_insert_is_Some'; auto.
Qed.

Lemma block_at_frame c c' o n e :
  block_at c o n e -> 1 <= n -> (forall i, o <= i < o + n -> c' !! at_unit i = c !! at_unit i) -> block_at c' o n e.
Proof.
  unfold block_at. intros H Hn Hf. destruct (Z.ltb_spec 1 n); rewrite !Hf by lia; done.
Qed.

Lemma blocks_frame c c' lo l e :
  ordered lo l -> chain c l e -> (forall i, ~ outside l i -> c' !! at_unit i = c !! at_unit i) -> chain c' l e.
Proof.
  revert lo. induction l as [|[o n] r IH]; intros lo; cbn; [done|].
  intros (H1 & H2 & H3) [Hc Hr] Hf. split.
  - eapply block_at_frame; [exact Hc|done|]. intros i Hi. apply Hf. rewrite outside_cons. lia.
  - eapply IH; [exact H3|exact Hr|]. intros i Hi. apply Hf. rewrite outside_cons. tauto.
Qed.

Lemma nxt_app l1 o n l2 e : nxt (l1 ++ (o, n) :: l2) e = nxt l1 o.
Proof. by destruct l1. Qed.

Lemma blocks_app c l1 l2 e : chain c (l1 ++ l2) e <-> chain c l1 (nxt l2 e) /\ chain c l2 e.
Proof.
  induction l1 as [|[o n] r IH]; cbn; [tauto|]. rewrite IH. destruct r as [|[o2 n2] r']; cbn; tauto.
Qed.

(** ** Execution: the states that differ from [s] in the cells and in the page [sp] *)

Variable sp : Z.

Definition st (s : kst) (pg : page) (c : gmap Z Z) : kst :=
  set_mm (set_slobs c (set_pages (<[sp := pg]> (pages (mm s))) (mm s))) s.

Lemma st_st s pg c pg2 c2 : st (st s pg c) pg2 c2 = st s pg2 c2.
Proof. unfold st, set_mm, set_slobs, set_pages. cbn. by rewrite insert_insert_eq. Qed.

Lemma wp_rd_cell s pg c a v (Q : Z -> kst -> Prop) :
  c !! a = Some v -> Q v (st s pg c) -> wp (rd_slob a) Q (st s pg c).
Proof. intros H HQ. apply (wp_rd_slob _ _ v); [exact H|exact HQ]. Qed.

Lemma wp_wr_cell s pg c a v (Q : unit -> kst -> Prop) :
  is_Some (c !! a) -> -32768 <= v < 32768 -> Q tt (st s pg (<[a := v]> c)) -> wp (wr_slob a v) Q (st s pg c).
Proof.
  intros [w Hw] Hv HQ. unfold wr_slob. wp_simpl. eapply wp_rd_cell; [exact Hw|]. unfold on_mm. wp_simpl.
  rewrite s16_small by done. exact HQ.
Qed.

Lemma wp_rd_sp s pg c (Q : page -> kst -> Prop) : Q pg (st s pg c) -> wp (rd_page sp) Q (st s pg c).
Proof. intros HQ. eapply wp_rd_page; [|exact HQ]. apply lookup_insert_eq. Qed.

Lemma wp_wr_sp s pg c g (Q : unit -> kst -> Prop) : Q tt (st s (g pg) c) -> wp (wr_page sp g) Q (st s pg c).
Proof.
  intros HQ. eapply wp_wr_page; [apply lookup_insert_eq|].
  replace (set_mm _ _) with (st s (g pg) c); [exact HQ|]. unfold st, set_mm, set_slobs, set_pages. cbn.
  by rewrite insert_insert_eq.
Qed.

Lemma slob_base_unit o : 0 <= o < page_units -> slob_base (at_unit o) = b.
Proof.
  intros Ho. destruct Hb as [B1 B2 B3]. unfold slob_base, at_unit, page_units in *.
  change PAGE_MASK with (Z.shiftl (Z.ones (32 - 12)) 12). rewrite land_clear by lia. change (2 ^ 12) with 4096.
  rewrite <- Z.add_mod_idemp_l, B3, Z.add_0_l, Z.mod_small by lia. lia.
Qed.

Lemma slob_plus_unit o k : 0 <= o + k <= page_units -> slob_plus (at_unit o) k = at_unit (o + k).
Proof.
  intros H. destruct Hb as [B1 B2 B3]. unfold slob_plus, at_unit, SLOB_UNIT, page_units in *.
  rewrite u32_small by lia. lia.
Qed.

Lemma slob_sub_unit o k : 0 <= o <= page_units -> 0 <= k <= page_units -> slob_sub (at_unit o) (at_unit k) = o - k.
Proof.
  intros. unfold slob_sub, at_unit, SLOB_UNIT, page_units in *. rewrite s32_small by lia.
  replace (b + 2 * o - (b + 2 * k)) with ((o - k) * 2) by lia. by apply Z.div_mul.
Qed.

Lemma at_unit_0 : b = at_unit 0.
Proof. unfold at_unit. lia. Qed.

Lemma at_unit_ne o : 0 <= o -> at_unit o <> NULL.
Proof. destruct Hb. unfold at_unit, NULL. lia. Qed.

Lemma wp_set_slob s pg c o n e (Q : unit -> kst -> Prop) :
  cells_in c -> 0 <= o -> 1 <= n -> o + n <= page_units -> 0 <= e <= page_units ->
  Q tt (st s pg (put_block c o n e)) -> wp (set_slob (at_unit o) n (at_unit e)) Q (st s pg c).
Proof.
  intros Hc Ho Hn Hon He HQ. unfold set_slob. rewrite slob_base_unit by (unfold page_units in *; lia).
  rewrite at_unit_0, slob_sub_unit, Z.sub_0_r by (unfold page_units in *; lia).
  unfold put_block in HQ. unfold page_units in *. rewrite (s16_small e) by lia. destruct (Z.ltb_spec 1 n).
  - wp_simpl. apply wp_wr_cell; [apply Hc; unfold page_units; lia|lia|].
    rewrite slob_plus_unit by (unfold page_units; lia). apply wp_wr_cell; [|lia|done].
    rewrite lookup_insert_is_Some'. right. apply Hc. unfold page_units. lia.
  - apply wp_wr_cell; [apply Hc; unfold page_units; lia|lia|done].
Qed.

Lemma wp_slob_units s pg c o n e (Q : Z -> kst -> Prop) :
  block_at c o n e -> 1 <= n -> 0 <= e -> Q n (st s pg c) -> wp (slob_units (at_unit o)) Q (st s pg c).
Proof.
  unfold block_at. intros Hc Hn He HQ. unfold slob_units. destruct (Z.ltb_spec 1 n).
  - wp_simpl. eapply wp_rd_cell; [apply Hc|]. by rewrite (proj2 (Z.ltb_lt 0 n)) by lia.
  - wp_simpl. eapply wp_rd_cell; [exact Hc|]. rewrite (proj2 (Z.ltb_ge 0 (- e))) by lia.
    by replace n with 1 in HQ by lia.
Qed.

Lemma wp_slob_next s pg c o n e (Q : Z -> kst -> Prop) :
  block_at c o n e -> 0 <= o -> 1 <= n -> o + n <= page_units -> 0 < e <= page_units ->
  Q (at_unit e) (st s pg c) -> wp (slob_next (at_unit o)) Q (st s pg c).
Proof.
  unfold block_at. intros Hc Ho Hn Hon He HQ. unfold page_units in *. unfold slob_next.
  rewrite slob_base_unit by (unfold page_units; lia). destruct (Z.ltb_spec 1 n).
  - wp_simpl. eapply wp_rd_cell; [apply Hc|]. rewrite (proj2 (Z.ltb_ge n 0)) by lia.
    rewrite slob_plus_unit by (unfold page_units; lia). wp_simpl. eapply wp_rd_cell; [apply Hc|]. wp_simpl.
    rewrite at_unit_0, slob_plus_unit by (unfold page_units; lia). exact HQ.
  - wp_simpl. eapply wp_rd_cell; [exact Hc|]. rewrite (proj2 (Z.ltb_lt (- e) 0)) by lia. wp_simpl.
    rewrite Z.opp_involutive, s16_small by lia. rewrite at_unit_0, slob_plus_unit by (unfold page_units; lia). exact HQ.
Qed.

Lemma wp_slob_last s pg c o n e (Q : bool -> kst -> Prop) :
  block_at c o n e -> 0 <= o -> 1 <= n -> o + n <= page_units -> 0 < e <= page_units ->
  Q (e =? page_units) (st s pg c) -> wp (slob_last (at_unit o)) Q (st s pg c).
Proof.
  intros Hc Ho Hn Hon He HQ. unfold slob_last. wp_simpl. eapply wp_slob_next; [exact Hc|done..|]. wp_simpl.
  replace (Z.land _ _ =? 0) with (e =? page_units); [exact HQ|].
  destruct Hb as [B1 B2 B3]. change (4294967295 - PAGE_MASK) with (Z.ones 12). rewrite Z.land_ones by lia.
  change (2 ^ 12) with 4096. unfold at_unit, page_units in *. rewrite <- Z.add_mod_idemp_l, B3, Z.add_0_l by lia.
  destruct (Z.eqb_spec e 2048) as [->|]; [done|]. rewrite Z.mod_small by lia. symmetry. apply Z.eqb_neq. lia.
Qed.

(** The block before, as [slob_page_alloc] keeps it, and its new successor: the
    page's [freelist] if there is no block before. *)
Definition prev_of (l : list (Z * Z)) : Z := match last l with Some (o, _) => at_unit o | None => NULL end.
Definition head_to (l : list (Z * Z)) (e : Z) (pg : page) : page :=
  match l with [] => with_index (at_unit e) pg | _ => pg end.

Lemma prev_of_snoc l o n : prev_of (l ++ [(o, n)]) = at_unit o.
Proof. unfold prev_of. by rewrite last_snoc. Qed.

Lemma head_to_index l e e' pg : pg_index pg = at_unit (nxt l e) -> pg_index (head_to l e' pg) = at_unit (nxt l e').
Proof. by destruct l as [|[o n] r]. Qed.

Lemma head_to_units l e pg : pg_units (head_to l e pg) = pg_units pg.
Proof. by destruct l as [|[o n] r]. Qed.

Lemma head_to_flags l e pg : pg_flags (head_to l e pg) = pg_flags pg.
Proof. by destruct l as [|[o n] r]. Qed.

(** [c'] differs from [c] at units of [l] only. *)
Definition within (l : list (Z * Z)) (c c' : gmap Z Z) : Prop :=
  forall a, (forall i, a = at_unit i -> outside l i) -> c' !! a = c !! a.

Lemma within_unit l c c' i : within l c c' -> outside l i -> c' !! at_unit i = c !! at_unit i.
Proof. intros H Hi. apply H. intros j Hj%(proj1 (at_unit_inj i j)). by subst. Qed.

Lemma within_trans l c1 c2 c3 : within l c1 c2 -> within l c2 c3 -> within l c1 c3.
Proof. intros H1 H2 a Ha. rewrite H2, H1; done. Qed.

Lemma within_sub l1 l2 c c' : (forall i, outside l2 i -> outside l1 i) -> within l1 c c' -> within l2 c c'.
Proof. intros Hs H a Ha. apply H. intros i Hi. by apply Hs, Ha. Qed.

Lemma within_put l c o n e : 1 <= n -> (forall i, o <= i < o + n -> ~ outside l i) -> within l c (put_block c o n e).
Proof.
  intros Hn Hl a Ha. apply put_block_other. intros i Hi ->. apply (Hl i); [lia|]. by apply Ha.
Qed.

(** A chain that writes elsewhere leave alone. *)
Lemma chain_within c c' lo l l2 e :
  ordered lo l -> chain c l e -> within l2 c c' -> (forall i, ~ outside l i -> outside l2 i) -> chain c' l e.
Proof.
  intros Ho Hc Hw Hs. eapply blocks_frame; [exact Ho|exact Hc|]. intros i Hi. eapply within_unit; [exact Hw|]. by apply Hs.
Qed.

Definition relink (prev next : Z) : M kst unit :=
  if negb (prev =? NULL) then u <- slob_units prev ;; set_slob prev u next else wr_freelist sp next.

Lemma wp_relink s pg c l e e' (Q : unit -> kst -> Prop) :
  ordered 0 l -> chain c l e -> 0 <= e <= page_units -> cells_in c -> 0 < e' <= page_units ->
  (forall c', chain c' l e' -> cells_in c' -> within l c c' -> Q tt (st s (head_to l e' pg) c')) ->
  wp (relink (prev_of l) (at_unit e')) Q (st s pg c).
Proof.
  intros Ho Hc He Hin He' HQ. unfold relink. destruct l as [|[o n] l1 _] using rev_ind.
  - cbn. apply wp_wr_sp, HQ; done.
  - rewrite prev_of_snoc. pose proof Ho as (_ & _ & (H1 & H2 & H3))%ordered_app.
    rewrite (proj2 (Z.eqb_neq (at_unit o) NULL)) by (by apply at_unit_ne). cbn [negb ordered] in *.
    apply blocks_app in Hc as [Hc1 [Hc2 _]]. cbn [nxt] in *. wp_simpl.
    eapply wp_slob_units; [exact Hc2|done|lia|].
    apply wp_set_slob; [done|done|done|done|lia|]. replace pg with (head_to (l1 ++ [(o, n)]) e' pg) by (by destruct l1 as [|[??]?]).
    assert (W : within [(o, n)] c (put_block c o n e')).
    { apply within_put; [done|]. intros i Hi. apply inside_cons. lia. }
    apply HQ; [|by apply put_block_in|].
    + apply blocks_app. split; [|split; [by apply put_block_is|done]]. cbn [nxt].
      eapply chain_within; [by apply ordered_app in Ho as [? _]|exact Hc1|exact W|].
      intros i Hi. by destruct (outside_either _ _ _ i Ho).
    + eapply within_sub; [|exact W]. intros i. rewrite outside_app. tauto.
Qed.

(** *** The steps of [slob_take] *)

Lemma nxt_bound lo l : ordered lo l -> lo <= nxt l page_units <= page_units.
Proof. destruct l as [|[o n] r]; cbn; [lia|]. intros (? & ? & H). apply ordered_bound in H. lia. Qed.

(** The parts of a chain around one block. *)
Lemma chain_mid c l1 o n r : chain c (l1 ++ (o, n) :: r) page_units <->
  chain c l1 o /\ block_at c o n (nxt r page_units) /\ chain c r page_units.
Proof. rewrite blocks_app. done. Qed.

(** Where [l1] and [r] are ordered around a block, writes inside the block leave
    them alone. *)
Lemma chain_around c c' l1 o n r e :
  ordered 0 (l1 ++ (o, n) :: r) -> within [(o, n)] c c' ->
  (chain c l1 e -> chain c' l1 e) /\ (chain c r page_units -> chain c' r page_units).
Proof.
  intros Ho Hw. pose proof Ho as (H1 & _ & (H2 & H3 & H4))%ordered_app.
  change ((o, n) :: r) with ([(o, n)] ++ r) in Ho. split; intros Hc.
  - eapply chain_within; [exact H1|exact Hc|exact Hw|]. intros i Hi.
    destruct (outside_either _ _ _ i Ho) as [|Hx]; [done|]. by apply outside_app in Hx as [? _].
  - eapply chain_within; [exact H4|exact Hc|exact Hw|]. intros i Hi. rewrite app_assoc in Ho.
    destruct (outside_either _ _ _ i Ho) as [Hx|]; [|done]. by apply outside_app in Hx as [_ ?].
Qed.

(** The head of a block is cut off so that the rest is aligned. *)
Lemma split_chain c l1 o n d r :
  ordered 0 (l1 ++ (o, n) :: r) -> 1 <= d < n -> chain c (l1 ++ (o, n) :: r) page_units ->
  let c' := put_block (put_block c (o + d) (n - d) (nxt r page_units)) o d (o + d) in
  chain c' (l1 ++ (o, d) :: (o + d, n - d) :: r) page_units /\ within [(o, n)] c c'.
Proof.
  intros Ho Hd Hc c'. assert (W : within [(o, n)] c c').
  { apply (within_trans _ _ (put_block c (o + d) (n - d) (nxt r page_units))); (apply within_put; [lia|]);
      intros i Hi; apply inside_cons; lia. }
  apply chain_mid in Hc as (Hc1 & _ & Hc3). split; [|exact W].
  destruct (chain_around c c' l1 o n r o Ho W) as [A1 A2].
  rewrite !chain_mid. split; [by apply A1|]. split; [apply put_block_is; lia|]. cbn [chain]. split; [|by apply A2].
  eapply block_at_frame; [apply (put_block_is c); lia|lia|]. intros i Hi. apply put_block_unit; lia.
Qed.

Definition slob_cut (units prev cur avail : Z) : M kst unit :=
  next <- slob_next cur ;;
  if avail =? units then relink prev next
  else relink prev (slob_plus cur units) ;;; set_slob (slob_plus cur units) (s16 (avail - units)) next.

Definition rest_of (a m units : Z) : list (Z * Z) := if m =? units then [] else [(a + units, m - units)].

Lemma wp_slob_cut s pg c l1 a m r units (Q : unit -> kst -> Prop) :
  ordered 0 (l1 ++ (a, m) :: r) -> chain c (l1 ++ (a, m) :: r) page_units -> cells_in c -> 1 <= units <= m ->
  (forall c', chain c' (l1 ++ rest_of a m units ++ r) page_units -> cells_in c' -> within (l1 ++ [(a, m)]) c c' ->
     Q tt (st s (head_to l1 (nxt (rest_of a m units ++ r) page_units) pg) c')) ->
  wp (slob_cut units (prev_of l1) (at_unit a) m) Q (st s pg c).
Proof.
  intros Ho Hc Hin Hu HQ. pose proof Ho as (Ho1 & _ & (Ha & Hm & Hor))%ordered_app.
  pose proof (nxt_bound _ _ Hor) as Hn. pose proof (ordered_bound _ _ Hor) as Hb'.
  apply chain_mid in Hc as (Hc1 & Hcb & Hcr).
  unfold slob_cut. wp_simpl. eapply wp_slob_next; [exact Hcb|lia..|]. unfold rest_of in HQ.
  assert (Hsub : forall i, outside (l1 ++ [(a, m)]) i -> outside l1 i) by (intros i; rewrite outside_app; tauto).
  destruct (Z.eqb_spec m units) as [->|Hne]; cbn [app] in HQ.
  - eapply wp_relink; [exact Ho1|exact Hc1|lia|done|lia|]. intros c' H1 H2 H3. apply HQ; [|done|by eapply within_sub].
    apply blocks_app. split; [done|]. eapply chain_within; [exact Hor|exact Hcr|exact H3|].
    intros i Hi. destruct (outside_either _ _ _ i Ho) as [|Hx]; [done|]. by apply outside_cons in Hx as [_ ?].
  - rewrite slob_plus_unit by lia. wp_simpl. eapply wp_relink; [exact Ho1|exact Hc1|lia|done|lia|].
    intros c1 H1 H2 H3. rewrite s16_small by (unfold page_units in *; lia). apply wp_set_slob; [done|lia..|].
    set (c' := put_block _ _ _ _). assert (W : within [(a, m)] c1 c').
    { apply within_put; [lia|]. intros i Hi. apply inside_cons. lia. }
    destruct (chain_around c1 c' l1 a m r (a + units) Ho W) as [A1 A2].
    apply HQ; [|by apply put_block_in|].
    + apply chain_mid. split; [by apply A1|]. split; [apply put_block_is; lia|]. apply A2.
      eapply chain_within; [exact Hor|exact Hcr|exact H3|]. intros i Hi.
      destruct (outside_either _ _ _ i Ho) as [|Hx]; [done|]. by apply outside_cons in Hx as [_ ?].
    + eapply within_trans; [by eapply within_sub|]. eapply within_sub; [|exact W].
      intros i. rewrite outside_app. tauto.
Qed.

(** The page leaves the list it is on. *)
Lemma wp_clear_slob_page_free s pg c f hd p1 p2 (Q : unit -> kst -> Prop) :
  lists (links s) f -> f !! hd = Some (p1 ++ page_list sp :: p2) -> length (pg_flags pg) = 1%nat ->
  (forall h' fl, lists h' (<[hd := p1 ++ p2]> f) -> loose h' (<[hd := p1 ++ p2]> f) (page_list sp) ->
     length fl = 1%nat -> bit_at fl PG_slob_free = false ->
     Q tt (st (set_links h' s) (mk_page fl (pg_index pg) (pg_units pg) (pg_private pg)) c)) ->
  wp (clear_slob_page_free sp) Q (st s pg c).
Proof.
  intros Hl Hf Hfl HQ. unfold clear_slob_page_free. wp_simpl. apply wp_on_links.
  eapply fam_list_del; [exact Hl|exact Hf|]. intros h' H1 H2 _ _ _. cbn beta.
  change (set_links h' (st s pg c)) with (st (set_links h' s) pg c).
  unfold __ClearPageSlobFree, on_flags. wp_simpl. apply wp_rd_sp.
  assert (Hbits : in_bits (pg_flags pg) PG_slob_free) by (unfold in_bits, PG_slob_free; rewrite Hfl; lia).
  assert (Hop : wp (clear_bit PG_slob_free) (fun _ fl => length fl = 1%nat /\ bit_at fl PG_slob_free = false) (pg_flags pg)).
  { apply wp_clear_bit; [done|]. intros ws' E1 E2. split; [congruence|by rewrite E2]. }
  destruct (wp_elim _ _ _ Hop) as ([] & fl & -> & E1 & E2).
  wp_simpl. apply wp_wr_sp. wp_simpl. by apply HQ.
Qed.

(** The page and the rest of the state once its free blocks are [l]: the page has
    left its list if there is none. *)
Record page_after (f : gmap Z (list Z)) (hd : Z) (ps : list Z) (s : kst) (pg : page) (l : list (Z * Z))
    (s' : kst) (pg' : page) : Prop := {
  pa_index : pg_index pg' = at_unit (nxt l page_units);
  pa_units : pg_units pg' = total l;
  pa_private : pg_private pg' = pg_private pg;
  pa_some : l <> [] -> s' = s /\ pg_flags pg' = pg_flags pg;
  pa_none : l = [] -> bit_at (pg_flags pg') PG_slob_free = false /\ length (pg_flags pg') = 1%nat /\
    exists h', s' = set_links h' s /\ lists h' (<[hd := ps]> f) /\ loose h' (<[hd := ps]> f) (page_list sp)
}.

(** The page is on the list [hd], between [p1] and [p2]. *)
Record on_list (f : gmap Z (list Z)) (hd : Z) (p1 p2 : list Z) (s : kst) (pg : page) : Prop := {
  ol_lists : lists (links s) f;
  ol_here : f !! hd = Some (p1 ++ page_list sp :: p2);
  ol_flags : length (pg_flags pg) = 1%nat
}.

(** [sp->units -= units; if (!sp->units) clear_slob_page_free(sp);] *)
Definition slob_charge (units : Z) : M kst unit :=
  u <- rd_units sp ;;
  wr_units sp (u - units) ;;;
  u' <- rd_units sp ;;
  if u' =? 0 then clear_slob_page_free sp else ret tt.

Lemma wp_slob_charge s pg pg0 c f hd p1 p2 units l (Q : unit -> kst -> Prop) :
  on_list f hd p1 p2 s pg0 -> ordered 0 l ->
  pg_index pg = at_unit (nxt l page_units) -> pg_units pg = total l + units ->
  pg_private pg = pg_private pg0 -> pg_flags pg = pg_flags pg0 ->
  (forall s' pg', page_after f hd (p1 ++ p2) s pg0 l s' pg' -> Q tt (st s' pg' c)) ->
  wp (slob_charge units) Q (st s pg c).
Proof.
  intros [Hl Hf Hfl] Ho Hi Hu Hp Hfg HQ. unfold slob_charge, rd_units, wr_units. wp_simpl. apply wp_rd_sp. wp_simpl.
  apply wp_wr_sp. wp_simpl. apply wp_rd_sp. wp_simpl. cbn [with_units pg_units].
  pose proof (total_bound _ _ Ho). rewrite Hu, s32_small by (unfold page_units in *; lia).
  replace (total l + units - units) with (total l) by lia. destruct (Z.eqb_spec (total l) 0) as [Hz|Hz].
  - apply (total_0 _ _ Ho) in Hz as ->. eapply wp_clear_slob_page_free; [exact Hl|exact Hf|cbn; by rewrite Hfg|].
    intros h' fl H1 H2 H3 H4. apply HQ. split; cbn; try done. intros _. split_and!; [done..|]. by exists h'.
  - wp_simpl. apply HQ. split; cbn; try done. by intros ->.
Qed.

(** The list without [units] units from [o + d] on. *)
Definition cut (l1 : list (Z * Z)) (o n d units : Z) (r : list (Z * Z)) : list (Z * Z) :=
  l1 ++ (if o + d =? o then [] else [(o, d)]) ++ rest_of (o + d) (n - d) units ++ r.

Lemma cut_outside l1 o n d units r i :
  ordered 0 (l1 ++ (o, n) :: r) -> 1 <= units -> 0 <= d -> units + d <= n -> o + d <= i < o + d + units ->
  outside (cut l1 o n d units r) i.
Proof.
  intros Ho Hu Hd Hfit Hi. pose proof Ho as (_ & _ & (_ & _ & H3))%ordered_app.
  unfold cut, rest_of. rewrite !outside_app. split_and!.
  - destruct (outside_either _ _ _ i Ho) as [|Hx]; [done|]. exfalso. by apply (inside_cons o n r i) in Hx; [|lia].
  - case_cmp; [apply outside_nil|]. rewrite outside_cons. split; [lia|apply outside_nil].
  - case_cmp; [apply outside_nil|]. rewrite outside_cons. split; [lia|apply outside_nil].
  - eapply ordered_below; [exact H3|lia].
Qed.

Lemma bind_pieces {A B C} (m : M kst A) (k : A -> M kst B) (k' : B -> M kst C) Q s :
  wp (bind (bind m k) k') Q s -> wp (bind m (fun x => bind (k x) k')) Q s.
Proof. unfold wp, bind. by destruct (m s) as [[a s']|]. Qed.

Lemma wp_charge_then {A} units (k : M kst A) Q s :
  wp (slob_charge units) (fun _ => wp k Q) s ->
  wp (u <- rd_units sp ;; wr_units sp (u - units) ;;; u' <- rd_units sp ;;
      (if u' =? 0 then clear_slob_page_free sp else ret tt) ;;; k) Q s.
Proof.
  unfold slob_charge, wp, bind. destruct (rd_units sp s) as [[u s1]|]; [|done].
  destruct (wr_units sp (u - units) s1) as [[[] s2]|]; [|done].
  destruct (rd_units sp s2) as [[u' s3]|]; [|done].
  by destruct ((if u' =? 0 then clear_slob_page_free sp else ret tt) s3) as [[[] s4]|].
Qed.

(** *** The whole of [slob_take] *)
Section Take.
Context (s : kst) (pg : page) (c : gmap Z Z) (f : gmap Z (list Z)) (hd : Z) (p1 p2 : list Z)
  (l1 r : list (Z * Z)) (o n units align d aligned : Z).
Let l := l1 ++ (o, n) :: r.
Let l' := cut l1 o n d units r.
Context (Hol : on_list f hd p1 p2 s pg) (Ho : ordered 0 l) (Ho' : ordered 0 l') (Hc : chain c l page_units) (Hin : cells_in c)
  (Hix : pg_index pg = at_unit (nxt l page_units)) (Hut : pg_units pg = total l)
  (Hu : 1 <= units) (Hd : 0 <= d) (Hfit : units + d <= n) (Hal : d <> 0 -> aligned = at_unit (o + d)).

Definition take_done (Q : Z -> kst -> Prop) : Prop := forall s' pg' c',
  page_after f hd (p1 ++ p2) s pg l' s' pg' -> chain c' l' page_units -> cells_in c' ->
  within l c c' -> block_at c' (o + d) units (o + d + units) -> Q (u32 (at_unit (o + d) + align)) (st s' pg' c').

Lemma take_bounds : 0 <= o /\ o + n <= page_units /\ o + n <= nxt r page_units <= page_units.
Proof.
  pose proof Ho as (_ & _ & (H1 & H2 & H3))%ordered_app. pose proof (ordered_bound _ _ H3).
  pose proof (nxt_bound _ _ H3). lia.
Qed.

Lemma wp_take_end pg1 c1 Q :
  take_done Q -> pg_index pg1 = at_unit (nxt l' page_units) -> pg_units pg1 = pg_units pg ->
  pg_private pg1 = pg_private pg -> pg_flags pg1 = pg_flags pg ->
  chain c1 l' page_units -> cells_in c1 -> within l c c1 ->
  wp (slob_charge units) (fun _ => wp (set_slob (at_unit (o + d)) (s16 units) (slob_plus (at_unit (o + d)) units) ;;;
    ret (u32 (at_unit (o + d) + align))) Q) (st s pg1 c1).
Proof.
  intros HQ h1 h2 h3 h4 A1 A2 A3. destruct take_bounds as (B1 & B2 & B3).
  assert (Htl : total l = total l' + units).
  { unfold l, l', cut, rest_of. rewrite !total_app. cbn [total].
    destruct (Z.eqb_spec (o + d) o), (Z.eqb_spec (n - d) units); cbn [total]; lia. }
  eapply wp_slob_charge; [exact Hol|exact Ho'|done|lia|done|done|].
  intros s' pg' Hpa. rewrite slob_plus_unit, s16_small by (unfold page_units in *; lia). wp_simpl.
  apply wp_set_slob; [done|lia..|]. wp_simpl. set (c' := put_block _ _ _ _).
  assert (W : within [(o + d, units)] c1 c') by (apply within_put; [lia|]; intros i Hi; apply inside_cons; lia).
  apply HQ; [done| |by apply put_block_in| |apply put_block_is; lia].
  - eapply chain_within; [exact Ho'|exact A1|exact W|]. intros i Hi. rewrite outside_cons. split; [|apply outside_nil].
    destruct (decide (o + d <= i < o + d + units)); [|lia]. exfalso. by apply Hi, cut_outside.
  - eapply within_trans; [exact A3|]. eapply within_sub; [|exact W]. intros i. unfold l. rewrite outside_app, !outside_cons.
    intros (_ & ? & _). split; [lia|apply outside_nil].
Qed.

Lemma wp_take_cut pg1 c1 l1' a m Q :
  take_done Q -> l' = l1' ++ rest_of a m units ++ r -> a = o + d -> units <= m ->
  ordered 0 (l1' ++ (a, m) :: r) -> chain c1 (l1' ++ (a, m) :: r) page_units -> cells_in c1 -> within l c c1 ->
  (forall i, outside l i -> outside (l1' ++ [(a, m)]) i) ->
  pg_index pg1 = at_unit (nxt (l1' ++ (a, m) :: r) page_units) -> pg_units pg1 = pg_units pg ->
  pg_private pg1 = pg_private pg -> pg_flags pg1 = pg_flags pg ->
  wp (next <- slob_next (at_unit a) ;;
      (if m =? units then relink (prev_of l1') next
       else relink (prev_of l1') (slob_plus (at_unit a) units) ;;; set_slob (slob_plus (at_unit a) units) (s16 (m - units)) next) ;;;
      u <- rd_units sp ;; wr_units sp (u - units) ;;; u' <- rd_units sp ;;
      (if u' =? 0 then clear_slob_page_free sp else ret tt) ;;;
      set_slob (at_unit a) (s16 units) (slob_plus (at_unit a) units) ;;;
      ret (u32 (at_unit a + align))) Q (st s pg1 c1).
Proof.
  intros HQ Hl' Ha Hm A1 A2 A3 A4 Hsub h1 h2 h3 h4. apply bind_pieces. rewrite wp_bind.
  apply (wp_slob_cut s pg1 c1 l1' a m r units); [done..|lia|]. intros c2 B1 B2 B3. apply wp_charge_then.
  rewrite <- Hl' in B1. subst a. apply wp_take_end; [done| | | | |done|done|].
  - rewrite Hl'. destruct l1' as [|[o1 n1] l2]; [done|exact h1].
  - by rewrite head_to_units.
  - by destruct l1' as [|[??]?].
  - by rewrite head_to_flags.
  - eapply within_trans; [exact A4|]. by eapply within_sub.
Qed.

Lemma wp_slob_take Q :
  take_done Q -> wp (slob_take sp units align (prev_of l1) (at_unit o) n d aligned) Q (st s pg c).
Proof.
  intros HQ. destruct take_bounds as (B1 & B2 & B3). pose proof Hc as (Hc1 & Hcb & Hcr)%chain_mid.
  unfold slob_take. destruct (Z.eqb_spec d 0) as [Hd0|Hd0]; cbn [negb].
  - rewrite wp_bind, wp_ret. apply (wp_take_cut pg c l1 o n); try done; try lia.
    + unfold l', cut. rewrite (proj2 (Z.eqb_eq (o + d) o)) by lia. rewrite Hd0, Z.add_0_r, Z.sub_0_r. done.
    + intros i. unfold l. rewrite !outside_app, !outside_cons. intros (? & ? & ?). split_and!; [done..|apply outside_nil].
  - rewrite wp_bind. wp_simpl. eapply wp_slob_next; [exact Hcb|lia..|]. wp_simpl. rewrite (Hal Hd0), (s16_small (n - d)), (s16_small d) by (unfold page_units in *; lia).
    apply wp_set_slob; [done|lia..|]. wp_simpl. apply wp_set_slob; [by apply put_block_in|lia..|]. wp_simpl.
    destruct (split_chain c l1 o n d r Ho ltac:(lia) Hc) as [S1 S2].
    pose proof S1 as (_ & _ & (S3 & _))%chain_mid.
    eapply wp_slob_units; [exact S3|lia..|]. rewrite wp_ret. cbv beta.
    replace (at_unit o) with (prev_of (l1 ++ [(o, d)])) by apply prev_of_snoc.
    eapply (wp_take_cut pg _ (l1 ++ [(o, d)]) (o + d) (n - d)); rewrite <- ?app_assoc; cbn [app]; try done; try lia.
    + unfold l', cut. by rewrite (proj2 (Z.eqb_neq (o + d) o)) by lia.
    + pose proof Ho as (O1 & O2 & (O3 & O4 & O5))%ordered_app. apply ordered_app. split_and!; [done|done|].
      cbn. split_and!; try lia. by replace (o + d + (n - d)) with (o + n) by lia.
    + by do 2 apply put_block_in.
    + eapply within_sub; [|exact S2]. intros i. unfold l. rewrite outside_app, !outside_cons.
      intros (_ & ? & _). split; [done|apply outside_nil].
    + intros i. unfold l. rewrite !outside_app, !outside_cons. intros (? & ? & ?).
      split_and!; [done|lia|lia|apply outside_nil].
    + rewrite nxt_app. rewrite Hix. unfold l. by rewrite nxt_app.
Qed.
End Take.

(** *** Alignment *)

(** 0, or a power of two that divides the page. *)
Definition align_ok (align : Z) : Prop := align = 0 \/ exists k, 1 <= k <= 11 /\ align = 2 ^ k.

Lemma align_up_le align o : align_ok align -> o <= align_up align o.
Proof.
  intros [->|(k & Hk & ->)]; [done|]. unfold align_up. rewrite (proj2 (Z.eqb_neq (2 ^ k) 0)) by lia.
  pose proof (Z.div_mod (2 * o + 2 ^ k - 1) (2 ^ k) ltac:(lia)). pose proof (Z.mod_pos_bound (2 * o + 2 ^ k - 1) (2 ^ k) ltac:(lia)).
  apply Z.div_le_lower_bound; lia.
Qed.

Lemma align_up_top align o : align_ok align -> o <= page_units -> align_up align o <= page_units.
Proof.
  intros [->|(k & Hk & ->)] Ho; [done|]. unfold align_up, page_units in *. rewrite (proj2 (Z.eqb_neq (2 ^ k) 0)) by lia.
  assert (E : 4096 = 2 ^ (12 - k) * 2 ^ k) by (rewrite <- Z.pow_add_r by lia; by replace (12 - k + k) with 12 by lia).
  assert ((2 * o + 2 ^ k - 1) / 2 ^ k < 2 ^ (12 - k) + 1) by (apply Z.div_lt_upper_bound; lia).
  apply Z.lt_succ_r, Z.div_lt_upper_bound; [lia|].
  pose proof (Z.mul_le_mono_nonneg_r ((2 * o + 2 ^ k - 1) / 2 ^ k) (2 ^ (12 - k)) (2 ^ k) ltac:(lia) ltac:(lia)). lia.
Qed.

(** There is room behind a unit for the bytes that [slob_page_alloc] skips. *)
Lemma at_unit_align align a : align_ok align -> 0 <= a < page_units -> 0 <= at_unit a + align < 4294967296.
Proof.
  intros Hal Ha. destruct Hb as [B1 B2 B3]. unfold at_unit, page_units in *.
  pose proof (Z.div_mod b 4096 ltac:(lia)). destruct Hal as [->|(k & Hk & ->)]; [lia|].
  assert (2 ^ k <= 2 ^ 11) by (apply Z.pow_le_mono_r; lia). change (2 ^ 11) with 2048 in *.
  change (2 ^ 32) with (1048576 * 4096) in B2. lia.
Qed.

Lemma ALIGN_unit align o : align_ok align -> align <> 0 -> 0 <= o < page_units ->
  ALIGN (at_unit o + align - 1) align = at_unit (align_up align o).
Proof.
  intros [->|(k & Hk & ->)] Ha Ho; [done|]. unfold align_up, ALIGN. rewrite (proj2 (Z.eqb_neq (2 ^ k) 0)) by lia.
  destruct Hb as [B1 B2 B3]. unfold page_units, at_unit in *.
  assert (Hk2 : 2 ^ k <= 2 ^ 11) by (apply Z.pow_le_mono_r; lia). change (2 ^ 11) with 2048 in Hk2.
  assert (H32 : 2 ^ 32 = 2 ^ (32 - k) * 2 ^ k) by (rewrite <- Z.pow_add_r by lia; by replace (32 - k + k) with 32 by lia).
  assert (Hm : u32 (Z.lnot (2 ^ k - 1)) = Z.shiftl (Z.ones (32 - k)) k).
  { rewrite Z.shiftl_mul_pow2, Z.ones_equiv by lia. unfold u32.
    replace (Z.lnot (2 ^ k - 1)) with (2 ^ 32 - 2 ^ k + -1 * 2 ^ 32) by (unfold Z.lnot; lia).
    rewrite Z.mod_add, Z.mod_small by lia. lia. }
  pose proof (Z.div_mod b 4096 ltac:(lia)) as Hbd. change (2 ^ 32) with 4294967296 in *.
  rewrite Hm, u32_small, land_clear by lia.
  assert (Hbk : b mod 2 ^ k = 0).
  { rewrite Hbd, B3, Z.add_0_r. replace 4096 with (2 ^ (12 - k) * 2 ^ k) by
      (rewrite <- Z.pow_add_r by lia; by replace (12 - k + k) with 12 by lia).
    rewrite (Z.mul_comm _ (b / _)), Z.mul_assoc. apply Z.mod_mul. lia. }
  replace (b + 2 * o + 2 ^ k - 1) with (b + (2 * o + 2 ^ k - 1)) by lia.
  rewrite <- Z.add_mod_idemp_l, Hbk, Z.add_0_l by lia.
  pose proof (Z.div_mod (2 * o + 2 ^ k - 1) (2 ^ k) ltac:(lia)) as Hd.
  set (q := (2 * o + 2 ^ k - 1) / 2 ^ k) in *.
  assert (Hq : q * 2 ^ k = 2 * (q * 2 ^ (k - 1))).
  { replace k with (1 + (k - 1)) at 1 by lia. rewrite Z.pow_add_r by lia. lia. }
  rewrite Hq, (Z.mul_comm 2 (q * _)), Z.div_mul by lia. lia.
Qed.

(** ** The invariant of a page: its free blocks are [l] *)

Record page_blocks (s : kst) (l : list (Z * Z)) (pg : page) : Prop := {
  fr_page : pages (mm s) !! sp = Some pg;
  fr_index : pg_index pg = at_unit (nxt l page_units);
  fr_units : pg_units pg = total l;
  fr_chain : chain (slobs (mm s)) l page_units;
  fr_cells : cells_in (slobs (mm s));
  fr_apart : apart 0 l
}.

Lemma st_self s pg : pages (mm s) !! sp = Some pg -> s = st s pg (slobs (mm s)).
Proof.
  intros H. unfold st, set_pages, set_slobs, set_mm. cbn. rewrite insert_id by done. by destruct s, mm.
Qed.

Lemma st_page_blocks s s' pg pg' c l f hd ps :
  page_after f hd ps s pg l s' pg' -> chain c l page_units -> cells_in c -> apart 0 l ->
  page_blocks (st s' pg' c) l pg'.
Proof. intros [P1 P2 P3 P4 P5] Hc Hi Ha. split; [apply lookup_insert_eq|done..]. Qed.

Lemma SLOB_UNITS_eq size : 0 <= size <= 4096 -> SLOB_UNITS size = (size + 1) / 2.
Proof.
  intros H. unfold SLOB_UNITS, SLOB_UNIT. rewrite (u32_small (size + 2)), u32_small by lia. f_equal. lia.
Qed.

Lemma SLOB_UNITS_range size : 1 <= size <= 4096 -> 1 <= SLOB_UNITS size <= page_units /\ s32 (SLOB_UNITS size) = SLOB_UNITS size.
Proof.
  intros H. rewrite SLOB_UNITS_eq by lia. pose proof (Z.div_mod (size + 1) 2 ltac:(lia)).
  pose proof (Z.mod_pos_bound (size + 1) 2 ltac:(lia)). unfold page_units. split; [lia|]. apply s32_small. lia.
Qed.

Lemma ordered_length lo l : ordered lo l -> Z.of_nat (length l) <= page_units - lo.
Proof.
  revert lo. induction l as [|[o n] r IH]; intros lo; cbn [ordered length]; [lia|].
  intros (H1 & H2 & H3). apply IH in H3. lia.
Qed.

Lemma take_skip align units l1 l2 :
  (forall o n, (o, n) ∈ l1 -> n < units + (align_up align o - o)) ->
  take align units (l1 ++ l2) = match take align units l2 with Some (a, r) => Some (a, l1 ++ r) | None => None end.
Proof.
  induction l1 as [|[o n] l1 IH]; intros H; cbn [app take]; [by destruct (take align units l2) as [[??]|]|].
  specialize (H o n ltac:(by left)) as Hn. rewrite (proj2 (Z.leb_gt _ _)) by lia.
  rewrite IH by (intros; apply H; by right). by destruct (take align units l2) as [[??]|].
Qed.

Lemma wp_slob_page_alloc s pg l f hd p1 p2 size align (Q : Z -> kst -> Prop) :
  page_blocks s l pg -> on_list f hd p1 p2 s pg -> l <> [] -> 1 <= size <= 4096 -> align_ok align ->
  (take align (SLOB_UNITS size) l = None -> Q NULL s) ->
  (forall a l' s' pg' c', take align (SLOB_UNITS size) l = Some (a, l') ->
     page_after f hd (p1 ++ p2) s pg l' s' pg' -> chain c' l' page_units -> cells_in c' ->
     within l (slobs (mm s)) c' -> block_at c' a (SLOB_UNITS size) (a + SLOB_UNITS size) ->
     Q (at_unit a + align) (st s' pg' c')) ->
  wp (slob_page_alloc sp size align) Q s.
Proof.
  intros [F1 F2 F3 F4 F5 F6] Hol Hne Hsz Hal HN HS. destruct (SLOB_UNITS_range _ Hsz) as (Hu & Hs32).
  assert (Ho : ordered 0 l) by (apply apart_ordered; [done|exact F6]).
  unfold slob_page_alloc. rewrite Hs32. rewrite (st_self s pg F1). unfold rd_freelist. wp_simpl. apply wp_rd_sp. wp_simpl.
  set (c := slobs (mm s)) in *. set (units := SLOB_UNITS size) in *.
  apply (wp_loop_idx _ (fun k '(prev, cur, delta, aligned) s' => s' = st s pg c /\ exists l1 o n r,
    l = l1 ++ (o, n) :: r /\ k = length r /\ prev = prev_of l1 /\ cur = at_unit o /\ (align = 0 -> delta = 0) /\
    (forall o n, (o, n) ∈ l1 -> n < units + (align_up align o - o))) Q) with (n := pred (length l)).
  - intros k [[[prev cur] delta] aligned] s' (-> & l1 & o & n & r & Hl & -> & -> & -> & Hd & Hno). cbv beta iota.
    pose proof Ho as Ho2. rewrite Hl in Ho2. pose proof Ho2 as (O1 & O2 & (O3 & O4 & O5))%ordered_app.
    pose proof (ordered_bound _ _ O5) as O6. pose proof (nxt_bound _ _ O5) as O7.
    pose proof F4 as C. rewrite Hl in C. apply chain_mid in C as (C1 & C2 & C3).
    wp_simpl. eapply wp_slob_units; [exact C2|lia..|]. cbv beta.
    assert (E : (if negb (align =? 0) then (slob_sub (ALIGN (at_unit o + align - 1) align) (at_unit o),
                   ALIGN (at_unit o + align - 1) align) else (delta, aligned)) = (align_up align o - o, if align =? 0 then aligned else at_unit (align_up align o))).
    { pose proof (align_up_le align o Hal). pose proof (align_up_top align o Hal ltac:(lia)).
      destruct (Z.eqb_spec align 0) as [->|Hnz]; cbn [negb]; [rewrite Hd by done; f_equal; unfold align_up; cbn; lia|].
      rewrite ALIGN_unit by (done || lia). rewrite slob_sub_unit by lia. done. }
    rewrite E. cbv beta iota. clear E. set (a := align_up align o) in *.
    pose proof (align_up_le align o Hal). fold a in H.
    assert (Hsk := take_skip align units l1 ((o, n) :: r) Hno). rewrite <- Hl in Hsk. cbn [take] in Hsk. fold a in Hsk.
    destruct (Z.leb_spec (units + (a - o)) n) as [Hfit|Hfit].
    + set (l' := cut l1 o n (a - o) units r).
      assert (Ht : take align units l = Some (a, l')).
      { rewrite Hsk. unfold l', cut, rest_of. replace (o + (a - o)) with a by lia. done. }
      destruct (take_some align units 0 l a l' F6 ltac:(lia) (fun o => align_up_le align o Hal) Ht) as [T1 T2 T3 T4 T5 T6 T7].
      wp_simpl. apply (wp_slob_take s pg c f hd p1 p2 l1 r o n units align (a - o)); rewrite <- ?Hl; try done; try lia.
      * by apply apart_ordered.
      * intros Hd0. destruct (Z.eqb_spec align 0) as [Hz|]; [|f_equal; lia].
        exfalso. apply Hd0. unfold a, align_up. rewrite Hz. cbn. lia.
      * intros s' pg' c' P1 P2 P3 P4 P5. wp_simpl. replace (o + (a - o)) with a in * by lia.
        rewrite u32_small by (apply at_unit_align; [done|lia]). apply (HS a l'); try done. by rewrite Hl.
    + wp_simpl. eapply wp_slob_last; [exact C2|lia..|]. cbv beta. destruct (Z.eqb_spec (nxt r page_units) page_units) as [Hn|Hn].
      * wp_simpl. pose proof (st_self s pg F1) as Es. fold c in Es. rewrite <- Es. apply HN. rewrite Hsk. destruct r as [|[o2 n2] r']; [done|].
        cbn in Hn, O5. pose proof (ordered_bound _ _ (proj2 (proj2 O5))). lia.
      * wp_simpl. eapply wp_slob_next; [exact C2|lia..|]. wp_simpl. destruct r as [|[o2 n2] r']; [done|].
        exists (length r'). split; [cbn; lia|]. split; [done|]. exists (l1 ++ [(o, n)]), o2, n2, r'.
        split_and!; [by rewrite <- app_assoc|done|by rewrite prev_of_snoc|done| |].
        -- intros Hz. unfold a, align_up. rewrite Hz. cbn. lia.
        -- intros o' n' [Hin|Hin]%elem_of_app; [by apply Hno|]. apply list_elem_of_singleton in Hin as [= -> ->]. done.
  - split; [done|]. destruct l as [|[o n] r]; [done|]. exists [], o, n, r. split_and!; try done.
    intros ? ? ?%not_elem_of_nil. done.
  - pose proof (ordered_length _ _ Ho). unfold slob_fuel, page_units in *. lia.
Qed.

(** ** Freeing *)

Lemma at_unit_ltb i j : (at_unit i <? at_unit j) = (i <? j).
Proof. unfold at_unit. destruct (Z.ltb_spec i j); [apply Z.ltb_lt|apply Z.ltb_ge]; lia. Qed.
Lemma at_unit_eqb i j : (at_unit i =? at_unit j) = (i =? j).
Proof. unfold at_unit. destruct (Z.eqb_spec i j); [apply Z.eqb_eq|apply Z.eqb_neq]; lia. Qed.

Lemma give_skip o n l1 op np r lo :
  apart lo (l1 ++ (op, np) :: r) -> op < o -> give o n (l1 ++ (op, np) :: r) = l1 ++ give o n ((op, np) :: r).
Proof.
  revert lo. induction l1 as [|[o1 n1] l1 IH]; intros lo; cbn [app]; [done|]. cbn [apart]. intros (H1 & H2 & H3 & H4) Hop.
  assert (o1 + n1 + 1 <= op).
  { assert (Hx : ordered (o1 + n1 + 1) (l1 ++ (op, np) :: r)).
    { destruct (decide (o1 + n1 + 1 <= page_units)); [by apply apart_ordered|].
      destruct (l1 ++ (op, np) :: r) as [|[o2 n2] r2] eqn:E; [by destruct l1|]. cbn in H4. lia. }
    apply (ordered_elem _ _ op np) in Hx; [lia|]. apply elem_of_app. right. by left. }
  cbn [give]. rewrite (proj2 (Z.ltb_ge o o1)), (proj2 (Z.eqb_neq (o1 + n1) o)) by lia.
  f_equal. by apply (IH (o1 + n1 + 1)).
Qed.

Section Give.
Context (s : kst) (pg : page) (c : gmap Z Z) (l : list (Z * Z)) (o n : Z).
Context (Ha : apart 0 l) (Hc : chain c l page_units) (Hin : cells_in c) (Hix : pg_index pg = at_unit (nxt l page_units))
  (Ho : 0 <= o) (Hn : 1 <= n) (Hon : o + n <= page_units) (Hout : forall i, o <= i < o + n -> outside l i).

Definition give_done (Q : unit -> kst -> Prop) : Prop := forall pg' c',
  pg_index pg' = at_unit (nxt (give o n l) page_units) -> pg_units pg' = pg_units pg -> pg_private pg' = pg_private pg ->
  pg_flags pg' = pg_flags pg -> chain c' (give o n l) page_units -> cells_in c' -> within ((o, n) :: l) c c' ->
  Q tt (st s pg' c').

(** The block and the one after it in the list, when it comes first. *)
Lemma wp_give_front Q o1 n1 r : give_done Q -> l = (o1, n1) :: r -> o < o1 -> wp (slob_reinsert sp (at_unit o) n) Q (st s pg c).
Proof.
  intros HQ Hl Hlt. assert (Hord : ordered 0 l) by (apply apart_ordered; [done|exact Ha]).
  rewrite Hl in Hord. destruct Hord as (O1 & O2 & O3). pose proof (ordered_bound _ _ O3) as O4. pose proof (nxt_bound _ _ O3) as O5.
  pose proof Hc as Hc'. rewrite Hl in Hc'. destruct Hc' as [C1 C2].
  assert (Hle : o + n <= o1).
  { destruct (decide (o + n <= o1)); [done|]. exfalso. apply (inside_cons o1 n1 r o1); [lia|]. rewrite <- Hl. apply Hout. lia. }
  unfold slob_reinsert, rd_freelist. wp_simpl. apply wp_rd_sp. wp_simpl. rewrite Hix, Hl. cbn [nxt].
  rewrite at_unit_ltb, (proj2 (Z.ltb_lt o o1)) by done. rewrite slob_plus_unit, at_unit_eqb by lia.
  unfold give_done in HQ. rewrite Hl in HQ. cbn [give] in HQ. rewrite (proj2 (Z.ltb_lt o o1)) in HQ by done.
  destruct (Z.eqb_spec (o + n) o1) as [He|He].
  - wp_simpl. eapply wp_slob_units; [exact C1|lia..|]. wp_simpl. eapply wp_slob_next; [exact C1|lia..|]. wp_simpl.
    apply wp_wr_sp. wp_simpl. apply wp_rd_sp. wp_simpl. cbn [with_index pg_index].
    rewrite s16_small by (unfold page_units in *; lia). apply wp_set_slob; [done|lia..|]. apply wp_wr_sp.
    set (c' := put_block _ _ _ _).
    assert (W : within [(o, n + n1)] c c') by (apply within_put; [lia|]; intros i Hi; apply inside_cons; lia).
    apply HQ; try done; [|by apply put_block_in|].
    + split; [apply put_block_is; lia|]. eapply chain_within; [exact O3|exact C2|exact W|].
      intros i Hi. rewrite outside_cons. split; [|apply outside_nil].
      destruct (decide (i < o1 + n1)); [|lia]. exfalso. apply Hi. eapply ordered_below; [exact O3|lia].
    + eapply within_sub; [|exact W]. intros i. rewrite !outside_cons. intros (? & ? & ?). split; [lia|apply outside_nil].
  - wp_simpl. apply wp_rd_sp. wp_simpl. rewrite Hix, Hl. cbn [nxt]. apply wp_set_slob; [done|lia..|]. apply wp_wr_sp.
    set (c' := put_block _ _ _ _).
    assert (W : within [(o, n)] c c') by (apply within_put; [lia|]; intros i Hi; apply inside_cons; lia).
    apply HQ; try done; [|by apply put_block_in|].
    + split; [apply put_block_is; lia|].
      eapply (chain_within _ _ (o + n)); [|cbn; split; [exact C1|exact C2]|exact W|].
      * cbn. split_and!; done.
      * intros i Hi. rewrite outside_cons. split; [|apply outside_nil].
        destruct (decide (i < o + n)); [|lia]. exfalso. apply Hi. eapply (ordered_below (o + n)); [|done]. cbn. done.
    + eapply within_sub; [|exact W]. intros i. rewrite !outside_cons. intros (? & ? & ?). split; [lia|apply outside_nil].
Qed.

(** The new block, of [m] units and before [r], and the block [(op, np)] before
    it. *)
Lemma wp_join_prev c1 l1 op np m r Q :
  give_done Q -> give o n l = l1 ++ (if op + np =? o then (op, np + m) :: r else (op, np) :: (o, m) :: r) ->
  ordered 0 (l1 ++ (op, np) :: (o, m) :: r) -> pg_index pg = at_unit (nxt (l1 ++ [(op, np)]) page_units) ->
  chain c1 l1 op -> block_at c1 o m (nxt r page_units) -> chain c1 r page_units -> cells_in c1 -> within ((o, n) :: l) c c1 ->
  (exists e, 0 <= e /\ block_at c1 op np e) -> (forall i, outside ((o, n) :: l) i -> outside [(op, np); (o, m)] i) ->
  wp (pu <- slob_units (at_unit op) ;;
      if slob_plus (at_unit op) pu =? at_unit o then
        bu <- slob_units (at_unit o) ;; nb <- slob_next (at_unit o) ;; set_slob (at_unit op) (s16 (bu + pu)) nb
      else set_slob (at_unit op) pu (at_unit o)) Q (st s pg c1).
Proof.
  intros HQ Hg Hord Hix' C1 C2 C3 Hin1 HW (e & He & C4) Hsub.
  pose proof Hord as (O1 & O2 & (O3 & O4 & O5 & O6 & O7))%ordered_app. pose proof (ordered_bound _ _ O7) as O8.
  pose proof (nxt_bound _ _ O7) as O9. wp_simpl. eapply wp_slob_units; [exact C4|lia..|].
  rewrite slob_plus_unit, at_unit_eqb by lia.
  assert (Hfr : forall k e', 1 <= k -> op + k <= o + m -> k <= np \/ op + np = o ->
     let c' := put_block c1 op k e' in chain c' l1 op /\ chain c' r page_units /\ within ((o, n) :: l) c c').
  { intros k e' Hk1 Hk2 Hk3 c'. assert (W : within [(op, k)] c1 c') by (apply within_put; [lia|]; intros i Hi; apply inside_cons; lia).
    split_and!.
    - eapply chain_within; [exact O1|exact C1|exact W|]. intros i Hi. rewrite outside_cons. split; [|apply outside_nil].
      destruct (decide (i < op)); [lia|]. exfalso. apply Hi. intros o1 n1 Hx. specialize (O2 _ _ Hx). lia.
    - eapply chain_within; [exact O7|exact C3|exact W|]. intros i Hi. rewrite outside_cons. split; [|apply outside_nil].
      destruct (decide (i < o + m)); [|lia]. exfalso. apply Hi. by eapply ordered_below.
    - eapply within_trans; [exact HW|]. apply within_put; [done|]. intros i Hi Hx. apply Hsub in Hx.
      rewrite !outside_cons in Hx. lia. }
  destruct (Z.eqb_spec (op + np) o) as [Hj|Hj].
  - wp_simpl. eapply wp_slob_units; [exact C2|lia..|]. wp_simpl. eapply wp_slob_next; [exact C2|lia..|].
    rewrite s16_small by (unfold page_units in *; lia). apply wp_set_slob; [done|lia..|].
    destruct (Hfr (m + np) (nxt r page_units) ltac:(lia) ltac:(lia) ltac:(lia)) as (F1 & F2 & F3).
    apply HQ; try done; [| |by apply put_block_in].
    + rewrite Hg, Hix'. by destruct l1 as [|[??]?].
    + rewrite Hg. apply chain_mid. split; [exact F1|]. split; [|exact F2]. rewrite Z.add_comm. apply put_block_is. lia.
  - apply wp_set_slob; [done|lia..|]. destruct (Hfr np o ltac:(lia) ltac:(lia) ltac:(lia)) as (F1 & F2 & F3).
    apply HQ; try done; [| |by apply put_block_in].
    + rewrite Hg, Hix'. by destruct l1 as [|[??]?].
    + rewrite Hg. apply chain_mid. split; [exact F1|]. split; [apply put_block_is; lia|]. split; [|exact F2].
      eapply block_at_frame; [exact C2|lia|]. intros i Hi. apply put_block_unit; lia.
Qed.

(** The place is behind [(op, np)] and before [r]: the end of [slob_reinsert]. *)
Lemma wp_join l1 op np r Q :
  give_done Q -> l = l1 ++ (op, np) :: r -> op < o -> o <= nxt r page_units ->
  wp (last <- slob_last (at_unit op) ;;
      (if negb last && (slob_plus (at_unit o) n =? at_unit (nxt r page_units)) then
         u <- slob_units (at_unit (nxt r page_units)) ;;
         nn <- slob_next (at_unit (nxt r page_units)) ;;
         set_slob (at_unit o) (s16 (n + u)) nn
       else set_slob (at_unit o) n (at_unit (nxt r page_units))) ;;;
      pu <- slob_units (at_unit op) ;;
      if slob_plus (at_unit op) pu =? at_unit o then
        bu <- slob_units (at_unit o) ;; nb <- slob_next (at_unit o) ;; set_slob (at_unit op) (s16 (bu + pu)) nb
      else set_slob (at_unit op) pu (at_unit o)) Q (st s pg c).
Proof.
  intros HQ Hl Hop Hnx. assert (Hord : ordered 0 l) by (apply apart_ordered; [done|exact Ha]).
  pose proof Hord as Hord2. rewrite Hl in Hord2. pose proof Hord2 as (O1 & O2 & (O3 & O4 & O5))%ordered_app.
  pose proof (ordered_bound _ _ O5) as O6. pose proof (nxt_bound _ _ O5) as O7.
  pose proof Hc as C. rewrite Hl in C. apply chain_mid in C as (C1 & C2 & C3).
  assert (Hpo : op + np <= o).
  { destruct (decide (op + np <= o)); [done|]. exfalso. assert (Hx : outside l o) by (apply Hout; lia).
    rewrite Hl in Hx. apply outside_app in Hx as [_ Hx]. by apply (inside_cons op np r o) in Hx; [|lia]. }
  assert (Hg : give o n l = l1 ++ give o n ((op, np) :: r)).
  { rewrite Hl. apply (give_skip _ _ _ _ _ _ 0); [by rewrite <- Hl|done]. }
  cbn [give] in Hg. rewrite (proj2 (Z.ltb_ge o op)) in Hg by lia.
  (* the list around the new block, and what is written for it *)
  assert (Hgo : forall m e r', e = nxt r' page_units -> n <= m -> ordered (o + m) r' -> chain c r' page_units ->
      give o n l = l1 ++ (if op + np =? o then (op, np + m) :: r' else (op, np) :: (o, m) :: r') ->
      (forall i, outside ((o, n) :: l) i -> i < o \/ o + m <= i) ->
      wp (set_slob (at_unit o) m (at_unit e)) (fun _ => wp (pu <- slob_units (at_unit op) ;;
        if slob_plus (at_unit op) pu =? at_unit o then
          bu <- slob_units (at_unit o) ;; nb <- slob_next (at_unit o) ;; set_slob (at_unit op) (s16 (bu + pu)) nb
        else set_slob (at_unit op) pu (at_unit o)) Q) (st s pg c)).
  { intros m e r' -> Hm Hor Hcr Hgv Hsub. pose proof (ordered_bound _ _ Hor). pose proof (nxt_bound _ _ Hor).
    apply wp_set_slob; [done|lia..|]. set (c1 := put_block _ _ _ _).
    assert (W : within [(o, m)] c c1) by (apply within_put; [lia|]; intros i Hi; apply inside_cons; lia).
    assert (Hpre : forall i, o <= i -> outside (l1 ++ [(op, np)]) i).
    { intros i Hi. apply outside_app. split; [|rewrite outside_cons; split; [lia|apply outside_nil]].
      intros o1 n1 Hx. specialize (O2 _ _ Hx). lia. }
    apply (wp_join_prev c1 l1 op np m r'); [done|done| | | |apply put_block_is; lia| |by apply put_block_in| | |].
    - apply ordered_app. split_and!; [done|done|]. cbn. split_and!; try done; lia.
    - rewrite Hix, Hl. by destruct l1 as [|[??]?].
    - eapply chain_within; [exact O1|exact C1|exact W|]. intros i Hi. rewrite outside_cons. split; [|apply outside_nil].
      destruct (decide (i < o)); [lia|]. exfalso. apply Hi. apply (proj1 (outside_app l1 [(op, np)] i)), Hpre. lia.
    - eapply chain_within; [exact Hor|exact Hcr|exact W|]. intros i Hi. rewrite outside_cons. split; [|apply outside_nil].
      destruct (decide (i < o + m)); [|lia]. exfalso. apply Hi. by eapply ordered_below.
    - eapply within_sub; [|exact W]. intros i Hi. rewrite outside_cons. split; [by apply Hsub|apply outside_nil].
    - exists (nxt r page_units). split; [lia|]. eapply block_at_frame; [exact C2|lia|].
      intros i Hi. apply put_block_unit; lia.
    - intros i Hi. pose proof (Hsub i Hi). apply outside_cons in Hi as [_ Hi]. rewrite Hl, outside_app, !outside_cons in Hi.
      rewrite !outside_cons. split_and!; [lia|lia|apply outside_nil]. }
  wp_simpl. eapply wp_slob_last; [exact C2|lia..|]. cbv beta. rewrite slob_plus_unit, at_unit_eqb by lia.
  destruct r as [|[o2 n2] r']; cbn [nxt] in *.
  - rewrite Z.eqb_refl. cbn [negb andb]. wp_simpl. apply (Hgo n page_units []); [done|lia|done|done| |].
    + rewrite Hg. by destruct (op + np =? o).
    + intros i Hi. by apply outside_cons in Hi as [? _].
  - destruct O5 as (P1 & P2 & P3). pose proof (ordered_bound _ _ P3) as P4. pose proof (nxt_bound _ _ P3) as P5.
    destruct C3 as [D1 D2]. rewrite (proj2 (Z.eqb_neq o2 page_units)) by lia. cbn [negb andb].
    assert (Hle : o + n <= o2).
    { destruct (decide (o + n <= o2)); [done|]. exfalso. assert (Hx : outside l o2) by (apply Hout; lia).
      rewrite Hl in Hx. apply outside_app in Hx as [_ [_ Hx]%outside_cons]. by apply (inside_cons o2 n2 r' o2) in Hx; [|lia]. }
    destruct (Z.eqb_spec (o + n) o2) as [He|He].
    + wp_simpl. eapply wp_slob_units; [exact D1|lia..|]. wp_simpl. eapply wp_slob_next; [exact D1|lia..|].
      rewrite s16_small by (unfold page_units in *; lia). apply (Hgo (n + n2) _ r'); [done|lia| |done| |].
      * by replace (o + (n + n2)) with (o2 + n2) by lia.
      * rewrite Hg. f_equal. destruct (Z.eqb_spec (op + np) o); [done|]. f_equal. cbn.
        by rewrite (proj2 (Z.ltb_lt o o2)), (proj2 (Z.eqb_eq (o + n) o2)) by lia.
      * intros i Hi. rewrite Hl, outside_cons, outside_app, !outside_cons in Hi. lia.
    + wp_simpl. apply (Hgo n _ ((o2, n2) :: r')); [done|lia| |done| |].
      * cbn. split_and!; done.
      * rewrite Hg. f_equal. destruct (Z.eqb_spec (op + np) o); [done|]. f_equal. cbn.
        destruct (Z.ltb_spec o o2); [|lia]. by rewrite (proj2 (Z.eqb_neq (o + n) o2)) by lia.
      * intros i Hi. by apply outside_cons in Hi as [? _].
Qed.

Lemma wp_slob_reinsert Q : give_done Q -> l <> [] -> wp (slob_reinsert sp (at_unit o) n) Q (st s pg c).
Proof.
  intros HQ Hne. assert (Hord : ordered 0 l) by (apply apart_ordered; [done|exact Ha]).
  assert (exists o1 n1 r1, l = (o1, n1) :: r1) as (o1 & n1 & r1 & El) by (destruct l as [|[??]?]; [done|eauto]).
  destruct (decide (o < o1)) as [Hlt|Hge]; [by eapply wp_give_front|].
  assert (Ho1 : o1 < o).
  { destruct (decide (o = o1)) as [->|]; [|lia]. exfalso. assert (Hx : outside l o1) by (apply Hout; lia).
    rewrite El in Hx, Hord. apply (inside_cons o1 n1 r1 o1) in Hx; [done|]. destruct Hord as (? & ? & _). lia. }
  unfold slob_reinsert, rd_freelist. wp_simpl. apply wp_rd_sp. wp_simpl. rewrite Hix, El. cbn [nxt].
  rewrite at_unit_ltb, (proj2 (Z.ltb_ge o o1)) by lia.
  pose proof Hc as C. pose proof Hord as O. rewrite El in C, O. destruct C as [C1 _], O as (O1 & O2 & O3).
  pose proof (ordered_bound _ _ O3). pose proof (nxt_bound _ _ O3).
  wp_simpl. eapply wp_slob_next; [exact C1|lia..|]. wp_simpl.
  apply (wp_loop_idx _ (fun k '(prev, next) s' => s' = st s pg c /\ exists l1 op np r,
    l = l1 ++ (op, np) :: r /\ k = length r /\ prev = at_unit op /\ next = at_unit (nxt r page_units) /\ op < o) _)
    with (n := length r1).
  - intros k [prev next] s' (-> & l1 & op & np & r & Hl & -> & -> & -> & Hop). cbv beta iota. rewrite at_unit_ltb.
    destruct (Z.ltb_spec (nxt r page_units) o) as [Hnx|Hnx].
    + destruct r as [|[o2 n2] r']; cbn [nxt] in *; [lia|].
      pose proof Hord as O. rewrite Hl in O. apply ordered_app in O as (_ & _ & (P1 & P2 & P3 & P4 & P5)).
      pose proof (ordered_bound _ _ P5). pose proof (nxt_bound _ _ P5).
      pose proof Hc as C. rewrite Hl in C. apply chain_mid in C as (_ & _ & (D1 & _)).
      wp_simpl. eapply wp_slob_next; [exact D1|lia..|]. wp_simpl. exists (length r'). split; [cbn; lia|]. split; [done|].
      exists (l1 ++ [(op, np)]), o2, n2, r'. by rewrite <- app_assoc.
    + rewrite wp_ret. cbv beta iota. by apply (wp_join l1 op np r).
  - split; [done|]. exists [], o1, n1, r1. by rewrite El.
  - pose proof (ordered_length _ _ Hord) as Hlen. rewrite El in Hlen. cbn in Hlen. unfold slob_fuel, page_units in *. lia.
Qed.
End Give.

(** [virt_to_page], which only looks at the zone. *)
Definition page_of (m : mm_st) (addr : Z) : Z :=
  let pfn := Z.shiftr (u32 addr) PAGE_SHIFT in
  if (u32 (zone_start_pfn m + spanned_pages m) <? pfn) || (pfn <? zone_start_pfn m) then NULL
  else page_plus (memmap_pages m) (u32 (pfn - zone_start_pfn m)).

Lemma wp_virt_to_page addr s (Q : Z -> kst -> Prop) : Q (page_of (mm s) addr) s -> wp (virt_to_page addr) Q s.
Proof. unfold virt_to_page, page_of. wp_simpl. by destruct (_ || _). Qed.

(** The lock of slob is free, and nobody waits for it. *)
Record slob_free_lock (E : env) (f : gmap Z (list Z)) (s : kst) : Prop := {
  sl_lists : lists (links s) f;
  sl_wait : f !! wait_list (slob_sem E) = Some [];
  sl_sem : sems s !! slob_sem E = Some 1
}.

Lemma wp_PageSlobFree s pg c (Q : Z -> kst -> Prop) :
  length (pg_flags pg) = 1%nat -> Q (Z.b2z (bit_at (pg_flags pg) PG_slob_free)) (st s pg c) -> wp (PageSlobFree sp) Q (st s pg c).
Proof.
  intros Hfl HQ. unfold PageSlobFree. wp_simpl. apply wp_rd_sp.
  assert (Hop : wp (test_bit PG_slob_free) (fun b _ => b = Z.b2z (bit_at (pg_flags pg) PG_slob_free)) (pg_flags pg)).
  { apply wp_test_bit; [unfold in_bits, PG_slob_free; rewrite Hfl; lia|done]. }
  destruct (wp_elim _ _ _ Hop) as (v & fl & -> & ->). by wp_simpl.
Qed.

(** [slob_free] of a block of a page that has free blocks, and will have used ones. *)
Lemma wp_slob_free E s pg l f o size (Q : unit -> kst -> Prop) :
  page_blocks s l pg -> slob_free_lock E f s -> length (pg_flags pg) = 1%nat -> bit_at (pg_flags pg) PG_slob_free = true ->
  l <> [] -> 1 <= size <= 4096 -> 0 <= o -> o + SLOB_UNITS size <= page_units ->
  (forall i, o <= i < o + SLOB_UNITS size -> outside l i) -> total l + SLOB_UNITS size < page_units ->
  page_of (mm s) (at_unit o) = sp ->
  (forall n i pg' c', page_blocks (st s pg' c') (give o (SLOB_UNITS size) l) pg' -> pg_flags pg' = pg_flags pg ->
     pg_private pg' = pg_private pg -> within ((o, SLOB_UNITS size) :: l) (slobs (mm s)) c' ->
     Q tt (crit_set n i (st s pg' c'))) ->
  wp (slob_free E (at_unit o) size) Q s.
Proof.
  intros [F1 F2 F3 F4 F5 F6] [Sl Sw Ss] Hfl Hbit Hne Hsz Ho Hon Hout Htot Hpo HQ.
  destruct (SLOB_UNITS_range size Hsz) as [Hu _]. set (n := SLOB_UNITS size) in *.
  pose proof (total_bound 0 l (apart_ordered 0 l ltac:(done) F6)) as Htb. unfold page_units in *.
  unfold slob_free. fold n. wp_simpl. apply wp_virt_to_page. rewrite Hpo. cbv beta zeta. rewrite s16_small by lia.
  wp_simpl. eapply wp_down; [exact Ss|lia|]. intros c1 b1. set (s1 := crit_set c1 b1 _).
  rewrite (st_self s1 pg F1). unfold rd_units, slob_page_free. wp_simpl. apply wp_rd_sp. wp_simpl. rewrite F3.
  change (SLOB_UNITS PAGE_SIZE) with 2048. rewrite u32_small, (proj2 (Z.eqb_neq (total l + n) 2048)) by lia.
  wp_simpl. apply wp_PageSlobFree; [done|]. rewrite Hbit. cbn [Z.b2z Z.eqb]. unfold wr_units. wp_simpl. apply wp_wr_sp.
  rewrite s32_small by lia.
  apply (wp_slob_reinsert s1 (with_units (total l + n) pg) (slobs (mm s1)) l o n); try done; try lia; try exact F4; try exact F5.
  intros pg' c' G1 G2 G3 G4 G5 G6 G7. cbn [with_units pg_units pg_private pg_flags] in *.
  eapply (wp_up f _ 0); [exact Sl|exact Sw|cbn; apply lookup_insert_eq|lia|]. intros n2 i2.
  replace (crit_set n2 i2 _) with (crit_set n2 i2 (st s pg' c')).
  - apply HQ; [|done..]. split; [apply lookup_insert_eq|done| |done|done|].
    + rewrite G2, give_total. lia.
    + apply (give_apart 0); try done; lia.
  - unfold s1. destruct s. cbn in *. rewrite insert_insert_eq, insert_id by done. done.
Qed.
End Page.

(** ** A concrete page, for the examples: after three allocations, the first of
    them given back. *)
Definition demo_base : Z := demo_B + 4096 * 16.
Definition demo_sp : Z := pg_at demo_B 16.
Definition demo_page : page := mk_page [1] demo_base 1880 0.
Definition demo_blocks : list (Z * Z) := [(0, 44); (212, 1836)].

Definition blank : gmap Z Z := list_to_map ((fun i => (at_unit demo_base i, 0)) <$> seqZ 0 page_units).
Definition demo_cells : gmap Z Z :=
  put_block demo_base (put_block demo_base (put_block demo_base (put_block demo_base blank 168 44 212) 44 124 168)
    212 1836 2048) 0 44 212.

Definition demo_slob : kst :=
  let m : gmap Z Z := {[6000 := page_list demo_sp; page_list demo_sp := 6000; 6034 := 6034]} in
  set_mm (mk_mm demo_B 256 2048 2000 [] {[demo_sp := demo_page]} demo_cells)
    (mk_kst (mk_lheap m m) ∅ [0] 0 0 0 true ∅ 0 true {[6030 := 1]} ∅ ∅ ∅ 0 [] no_mm ∅ ∅ 0).

Definition demo_rings : list (Z * list Z) := [(6000, [page_list demo_sp]); (6034, [])].

Lemma demo_page_base : page_base demo_base.
Proof. split; vm_compute; congruence. Qed.

Lemma blank_in : cells_in demo_base blank.
Proof.
  intros i Hi. exists 0. apply elem_of_list_to_map_1.
  - rewrite <- list_fmap_compose. apply NoDup_fmap_2; [|apply NoDup_seqZ]. intros x y E. cbn in E. unfold at_unit in E. lia.
  - apply list_elem_of_fmap. exists i. split; [done|]. apply elem_of_seqZ. lia.
Qed.

Lemma demo_page_blocks : page_blocks demo_base demo_sp demo_slob demo_blocks demo_page.
Proof.
  split; [apply lookup_singleton_eq|done|done| | |cbn; unfold page_units; lia]; change (slobs (mm demo_slob)) with demo_cells.
  - split; [by apply put_block_is|]. split; [|done]. eapply block_at_frame; [by apply put_block_is|done|].
    intros i Hi. apply put_block_unit; lia.
  - do 4 apply put_block_in. apply blank_in.
Qed.

Lemma demo_lists : lists (links demo_slob) (list_to_map demo_rings).
Proof. apply lists_b_sound. vm_compute. reflexivity. Qed.

Lemma demo_on_list : on_list demo_sp (list_to_map demo_rings) 6000 [] [] demo_slob demo_page.
Proof. split; [exact demo_lists|vm_compute; reflexivity|done]. Qed.

Lemma demo_lock : slob_free_lock demo_env (list_to_map demo_rings) demo_slob.
Proof. split; [exact demo_lists|vm_compute; reflexivity|by apply lookup_singleton_eq]. Qed.

Lemma demo_page_of i : 0 <= i < page_units -> page_of (mm demo_slob) (at_unit demo_base i) = demo_sp.
Proof.
  intros Hi. unfold page_units in Hi. unfold page_of. rewrite (u32_small (at_unit demo_base i)) by (unfold at_unit, demo_base, demo_B; lia).
  replace (Z.shiftr (at_unit demo_base i) PAGE_SHIFT) with 272; [vm_compute; reflexivity|].
  unfold PAGE_SHIFT, at_unit, demo_base, demo_B. rewrite Z.shiftr_div_pow2 by lia.
  apply (Z.div_unique_pos _ _ _ (2 * i)); change (2 ^ 12) with 4096; lia.
Qed.

(** ** Properties *)

(** [C9] [slob_page_alloc] takes the first free block of the page that has room, for
    the size asked for and the alignment: it returns an address in it behind the
    [align] bytes of the header, those units were free and are the ones that are
    missing from the free blocks afterwards, and the invariant of the page is
    kept; a page with nothing left leaves its list.  It returns [NULL], and
    changes nothing, exactly if no block has room. *)
Theorem slob_page_alloc_first_fit b sp s pg l f hd p1 p2 size align :
  page_base b -> page_blocks b sp s l pg -> on_list sp f hd p1 p2 s pg -> l <> [] -> 1 <= size <= 4096 -> align_ok align ->
  wp (slob_page_alloc sp size align) (fun r s' =>
    match take align (SLOB_UNITS size) l with
    | Some (a, l') => r = at_unit b a + align /\ taken align (SLOB_UNITS size) 0 l a l' /\
        block_at b (slobs (mm s')) a (SLOB_UNITS size) (a + SLOB_UNITS size) /\ within b l (slobs (mm s)) (slobs (mm s')) /\
        exists s1 pg', s' = st sp s1 pg' (slobs (mm s')) /\ page_after b sp f hd (p1 ++ p2) s pg l' s1 pg' /\
          page_blocks b sp s' l' pg'
    | None => r = NULL /\ s' = s /\ forall o n, (o, n) ∈ l -> n < SLOB_UNITS size + (align_up align o - o)
    end) s.
Proof.
  intros Hb Hp Hol Hne Hsz Hal. apply (wp_slob_page_alloc b Hb sp s pg l f hd p1 p2); try done.
  - intros Hn. rewrite Hn. split_and!; [done..|]. by apply take_none.
  - intros a l' s1 pg' c' Ht P1 P2 P3 P4 P5. rewrite Ht.
    assert (T : taken align (SLOB_UNITS size) 0 l a l').
    { apply take_some; [apply Hp|by apply SLOB_UNITS_range| |exact Ht]. intros o. by apply align_up_le. }
    split_and!; [done..|]. exists s1, pg'. split_and!; [done..|]. eapply st_page_blocks; [exact P1|exact P2|exact P3|apply T].
Qed.

Lemma slob_page_alloc_first_fit_witness :
  wp (slob_page_alloc demo_sp 1000 8) (fun r s' => r = demo_base + 424 + 8) demo_slob.
Proof.
  eapply wp_mono; [apply (slob_page_alloc_first_fit demo_base demo_sp demo_slob demo_page demo_blocks
    (list_to_map demo_rings) 6000 [] [] 1000 8 demo_page_base demo_page_blocks demo_on_list)|].
  - done.
  - lia.
  - right. by exists 3.
  - intros r s' (H & _). exact H.
Defined.

(** [slob_free] of a block of a partly used page puts it back in its place and
    joins it with the free blocks that it touches: the free units are those of
    before and the units of the block, no two free blocks touch, the page stays
    what it was otherwise, and the lock is free again. *)
Theorem slob_free_joins E b sp s pg l f o size :
  page_base b -> page_blocks b sp s l pg -> slob_free_lock E f s ->
  length (pg_flags pg) = 1%nat -> bit_at (pg_flags pg) PG_slob_free = true ->
  l <> [] -> 1 <= size <= 4096 -> 0 <= o -> o + SLOB_UNITS size <= page_units ->
  (forall i, o <= i < o + SLOB_UNITS size -> outside l i) -> total l + SLOB_UNITS size < page_units ->
  page_of (mm s) (at_unit b o) = sp ->
  wp (slob_free E (at_unit b o) size) (fun _ s' => exists pg' n i,
    s' = crit_set n i (st sp s pg' (slobs (mm s'))) /\
    page_blocks b sp s' (give o (SLOB_UNITS size) l) pg' /\
    (forall j, outside (give o (SLOB_UNITS size) l) j <-> (j < o \/ o + SLOB_UNITS size <= j) /\ outside l j) /\
    within b ((o, SLOB_UNITS size) :: l) (slobs (mm s)) (slobs (mm s'))) s.
Proof.
  intros Hb Hp Hlk Hfl Hbit Hne Hsz Ho Hon Hout Htot Hpo.
  eapply (wp_slob_free b Hb sp E s pg l f); try done. intros n i pg' c' G1 G2 G3 G4.
  exists pg', n, i. split_and!; [done|by destruct G1|intros j|done].
  eapply give_outside; [apply Hp|by apply SLOB_UNITS_range].
Qed.

Lemma slob_free_joins_witness :
  wp (slob_free demo_env (at_unit demo_base 44) 248) (fun _ s' =>
    exists pg', page_blocks demo_base demo_sp s' [(0, 168); (212, 1836)] pg') demo_slob.
Proof.
  eapply wp_mono; [apply (slob_free_joins demo_env demo_base demo_sp demo_slob demo_page demo_blocks
    (list_to_map demo_rings) 44 248 demo_page_base demo_page_blocks demo_lock)|]; try done.
  - intros i Hi. change (SLOB_UNITS 248) with 124 in Hi. unfold demo_blocks. rewrite !outside_cons.
    split_and!; [lia|lia|apply outside_nil].
  - intros u s' (pg' & n & i & _ & H & _). by exists pg'.
Defined.

(** Allocating in a page and freeing leaves everything as it was: the page has
    the same free blocks, and only cells inside them have changed. *)
Theorem slob_alloc_free_roundtrip E b sp s pg l f hd p1 p2 size align a l' :
  page_base b -> page_blocks b sp s l pg -> on_list sp f hd p1 p2 s pg -> slob_free_lock E f s ->
  bit_at (pg_flags pg) PG_slob_free = true -> 1 <= size <= 4096 -> align_ok align ->
  take align (SLOB_UNITS size) l = Some (a, l') -> l' <> [] -> total l < page_units ->
  page_of (mm s) (at_unit b a) = sp ->
  wp (p <- slob_page_alloc sp size align ;; slob_free E (p - align) size) (fun _ s' => exists n i,
    s' = crit_set n i (st sp s pg (slobs (mm s'))) /\ page_blocks b sp s' l pg /\
    within b l (slobs (mm s)) (slobs (mm s'))) s.
Proof.
  intros Hb Hp Hol [L1 L2 L3] Hbit Hsz Hal Ht Hne' Htot Hpo. assert (Hne : l <> []) by (by destruct l).
  destruct (SLOB_UNITS_range size Hsz) as [Hu _]. pose proof (fr_apart _ _ _ _ _ Hp) as Ha.
  assert (Hup : forall o, o <= align_up align o) by (intros; by apply align_up_le).
  destruct (take_some _ _ _ _ _ _ Ha (proj1 Hu) Hup Ht) as [T1 T2 T3 T4 T5 T6 T7].
  destruct (take_give _ _ _ _ _ _ Ha (proj1 Hu) Hup Ht) as [_ Hg].
  rewrite wp_bind. apply (wp_slob_page_alloc b Hb sp s pg l f hd p1 p2); [done..| |]; rewrite Ht; [done|].
  intros ? ? s1 pg1 c1 [= <- <-] P1 P2 P3 P4 P5. replace (at_unit b a + align - align) with (at_unit b a) by lia.
  destruct (pa_some _ _ _ _ _ _ _ _ _ _ P1 Hne') as [-> Hfl1].
  assert (Hp1 : page_blocks b sp (st sp s pg1 c1) l' pg1) by (by eapply st_page_blocks).
  eapply (wp_slob_free b Hb sp E _ pg1 l' f); [exact Hp1|by split| | |done|done|lia|done| |lia|exact Hpo|].
  - rewrite Hfl1. by apply ol_flags in Hol.
  - by rewrite Hfl1.
  - intros i Hi. apply T3. by right.
  - intros n i pg2 c2 Q1 Q2 Q3 Q4. rewrite Hg in Q1. rewrite st_st in *.
    replace pg2 with pg in *.
    + exists n, i. split_and!; [done|by destruct Q1|]. eapply within_trans; [exact P4|].
      eapply within_sub; [|exact Q4]. intros j Hj. rewrite outside_cons. split; [|apply T3; by left].
      destruct (decide (a <= j < a + SLOB_UNITS size)) as [Hin|]; [|lia]. by destruct (T4 j Hin).
    + destruct Hp as [R1 R2 R3 _ _ _], Q1 as [W1 W2 W3 _ _ _]. rewrite Hfl1 in Q2. rewrite (pa_private _ _ _ _ _ _ _ _ _ _ P1) in Q3.
      destruct pg, pg2. cbn in *. congruence.
Qed.

Lemma slob_alloc_free_roundtrip_witness :
  wp (p <- slob_page_alloc demo_sp 1000 8 ;; slob_free demo_env (p - 8) 1000) (fun _ s' =>
    page_blocks demo_base demo_sp s' demo_blocks demo_page) demo_slob.
Proof.
  eapply wp_mono; [apply (slob_alloc_free_roundtrip demo_env demo_base demo_sp demo_slob demo_page demo_blocks
    (list_to_map demo_rings) 6000 [] [] 1000 8 212 [(0, 44); (712, 1336)] demo_page_base demo_page_blocks
    demo_on_list demo_lock)|]; try done.
  - right. by exists 3.
  - intros u s' (n & i & _ & H & _). exact H.
Defined.

(** [index] and [freelist] of a page share a word, so a page that slob gives
    back has no index to find its buddy with.  Here four pages are allocated and
    all are freed again; if slob had the second of them, the eight pages of the
    zone do not join, and a request for all of them fails. *)
Definition demo_all_freed (second : M kst Z) (give_second : Z -> M kst unit) : M kst Z :=
  p1 <- alloc_pages demo_env 4096 ;;
  p2 <- second ;;
  p3 <- alloc_pages demo_env 4096 ;;
  p4 <- alloc_pages demo_env 4096 ;;
  __free_pages demo_env p3 0 ;;;
  give_second p2 ;;;
  __free_pages demo_env p1 0 ;;;
  __free_pages demo_env p4 0 ;;;
  alloc_pages demo_env 32768.

Theorem slob_page_not_joined :
  result (demo_all_freed (kmalloc demo_env 80) (kfree demo_env) demo_heap) = Some NULL /\
  result (demo_all_freed (alloc_pages demo_env 4096) (fun p => __free_pages demo_env p 0) demo_heap) = Some (pg_at demo_B 16).
Proof. split; vm_compute; reflexivity. Qed.
