(* ===== verification/SlobAlloc.v ===== *)
(** * mm/slob.c, continued: the lists of pages with free blocks

    [slob_pages] says that the pages on one of the three lists satisfy the
    invariant of [SlobSpec], each on its own part of memory.  The search of
    [slob_alloc] keeps it, takes from the first page with room, and leaves the
    list so that the next search begins there. *)

From S2P Require Import Prelude KList Bitops KState Sched Semaphore Env PageAlloc Slob SlobSpec.

(** The head [hd] moves on to be before [x]: the list begins with [x] then. *)
Lemma fam_list_move_head h f hd q1 x r (Q : unit -> lheap -> Prop) :
  lists h f -> f !! hd = Some (q1 ++ x :: r) ->
  (forall h', lists h' (<[hd := x :: r ++ q1]> f) -> Q tt h') -> wp (list_move_tail hd x) Q h.
Proof.
  intros Hl Hf HQ. pose proof (lists_ring _ _ Hl _ _ Hf) as Hd. apply dlist_rotate in Hd.
  eapply wp_list_move_tail_same; [exact Hd|]. intros h' Hd' Hs. apply HQ.
  eapply lists_update; [exact Hl|exact Hf| |exact Hs| |].
  - apply dlist_rotate in Hd'. rewrite app_nil_l in Hd'. exact Hd'.
  - intros a Ha. left. set_solver.
  - intros a Ha. left. set_solver.
Qed.

(** ** Several pages *)

Lemma page_blocks_other b b' sp sp' s s1 pg' pg1 c l l1 :
  page_base b -> page_base b' -> b <> b' -> sp <> sp' ->
  ordered 0 l -> within b l (slobs (mm s)) c -> pages (mm s1) = pages (mm s) ->
  page_blocks b' sp' s l1 pg1 -> page_blocks b' sp' (st sp s1 pg' c) l1 pg1.
Proof.
  intros [B1 B2 B3] [B1' B2' B3'] Hb Hsp Ho Hw Hpg [F1 F2 F3 F4 F5 F6].
  assert (Hc : forall i, 0 <= i < page_units -> c !! at_unit b' i = slobs (mm s) !! at_unit b' i).
  { intros i Hi. apply Hw. intros j Hj o n Hin. destruct (ordered_elem _ _ _ _ Ho Hin) as (E1 & E2 & E3).
    pose proof (Z.div_mod b 4096 ltac:(lia)). pose proof (Z.div_mod b' 4096 ltac:(lia)).
    unfold at_unit, page_units in *. destruct (decide (b / 4096 = b' / 4096)); [lia|]. lia. }
  split; [|done|done| | |done].
  - cbn. rewrite lookup_insert_ne by done. by rewrite Hpg.
  - assert (Ho1 : ordered 0 l1) by (by apply apart_ordered).
    eapply blocks_frame; [exact Ho1|exact F4|]. intros i Hi. apply Hc.
    destruct (decide (0 <= i < page_units)) as [|Hn]; [done|]. exfalso. apply Hi. intros o n Hin.
    destruct (ordered_elem _ _ _ _ Ho1 Hin). unfold page_units in *. lia.
  - intros i Hi. cbn. rewrite Hc by done. by apply F5.
Qed.

Section Pages.
(** Where the memory of a page is, by its [struct page]. *)
Variable base : Z -> Z.

Record page_ready (s : kst) (blk : Z -> list (Z * Z)) (sp : Z) (pg : page) : Prop := {
  pr_base : page_base (base sp);
  pr_blocks : page_blocks (base sp) sp s (blk sp) pg;
  pr_some : blk sp <> [];
  pr_flags : length (pg_flags pg) = 1%nat;
  pr_free : bit_at (pg_flags pg) PG_slob_free = true
}.

(** The pages on the list [hd], with the nodes [q]; [blk] gives their free blocks. *)
Record slob_pages (f : gmap Z (list Z)) (hd : Z) (q : list Z) (blk : Z -> list (Z * Z)) (s : kst) : Prop := {
  sg_lists : lists (links s) f;
  sg_list : f !! hd = Some q;
  sg_page : forall a, a ∈ q -> exists pg, page_ready s blk (page_of_list a) pg;
  sg_apart : forall a a', a ∈ q -> a' ∈ q -> base (page_of_list a) = base (page_of_list a') -> a = a'
}.

(** The first page with room, and what is before and after it. *)
Fixpoint first_room (align units : Z) (blk : Z -> list (Z * Z)) (q : list Z) : option (list Z * Z * list Z) :=
  match q with
  | [] => None
  | a :: r =>
    match take align units (blk (page_of_list a)) with
    | Some _ => Some ([], a, r)
    | None => match first_room align units blk r with Some (q1, x, q2) => Some (a :: q1, x, q2) | None => None end
    end
  end.

Definition upd (blk : Z -> list (Z * Z)) (sp : Z) (l : list (Z * Z)) : Z -> list (Z * Z) :=
  fun sp' => if sp' =? sp then l else blk sp'.

Lemma first_room_some align units blk q q1 a q2 : first_room align units blk q = Some (q1, a, q2) -> q = q1 ++ a :: q2.
Proof.
  revert q1. induction q as [|x r IH]; intros q1; cbn; [done|].
  destruct (take align units (blk (page_of_list x))); [by intros [= <- <- <-]|].
  destruct (first_room align units blk r) as [[[q1' ?] ?]|]; [|done]. intros [= <- <- <-]. cbn. by rewrite (IH q1').
Qed.

Lemma first_room_skip align units blk q1 q2 :
  (forall a, a ∈ q1 -> take align units (blk (page_of_list a)) = None) ->
  first_room align units blk (q1 ++ q2) =
    match first_room align units blk q2 with Some (q', a, q'') => Some (q1 ++ q', a, q'') | None => None end.
Proof.
  induction q1 as [|x r IH]; intros H; cbn; [by destruct (first_room align units blk q2) as [[[??]?]|]|].
  rewrite (H x) by (by left). rewrite IH by (intros; apply H; by right).
  by destruct (first_room align units blk q2) as [[[??]?]|].
Qed.

(** A page with fewer free units than needed has no room. *)
Lemma take_total align units l a l' lo :
  apart lo l -> lo <= page_units -> 1 <= units -> align_ok align -> take align units l = Some (a, l') -> units <= total l.
Proof.
  intros Ha Hlo Hu Hal Ht. destruct (take_some align units lo l a l' Ha Hu (fun o => align_up_le align o Hal) Ht).
  pose proof (total_bound lo l' (apart_ordered _ _ Hlo tk_apart)). lia.
Qed.

Lemma ring_next h hd q1 r : dlist h hd (q1 ++ r) -> nx h !! lasto hd q1 = Some (heado hd r).
Proof.
  intros Hd. destruct q1 as [|x q1 _] using rev_ind; [by apply dlist_first|].
  rewrite lasto_snoc. rewrite <- app_assoc in Hd. by apply (dlist_links h hd q1 x r) in Hd as [? _].
Qed.

(** ** The search *)

(** The list is turned so that the next search begins where this one ended. *)
Lemma wp_restart s f hd q1 rest (Q : unit -> kst -> Prop) :
  lists (links s) f -> f !! hd = Some (q1 ++ rest) ->
  (forall h', lists h' (<[hd := rest ++ q1]> f) -> Q tt (set_links h' s)) ->
  wp (lp <- on_links (rd_prev hd) ;;
      if negb (lasto hd q1 =? lp) then
        ln <- on_links (rd_next hd) ;;
        pn <- on_links (rd_next (lasto hd q1)) ;;
        if negb (ln =? pn) then on_links (list_move_tail hd pn) else ret tt
      else ret tt) Q s.
Proof.
  intros Hl Hf HQ. pose proof (lists_ring _ _ Hl _ _ Hf) as Hd. destruct (gap_ends _ _ _ (proj1 Hd)) as (G1 & G2 & _).
  assert (Hs : s = set_links (links s) s) by (by destruct s). assert (Hsame : rest ++ q1 = q1 ++ rest -> Q tt s).
  { intros E. rewrite Hs. apply HQ. rewrite E, insert_id by done. exact Hl. }
  wp_simpl. apply wp_on_links. eapply wp_rd_prev; [by apply dlist_last|]. rewrite <- Hs.
  destruct rest as [|x r].
  - rewrite app_nil_r, Z.eqb_refl. cbn [negb]. wp_simpl. apply Hsame. by rewrite app_nil_r.
  - rewrite lasto_app. assert (lasto hd q1 <> lasto x r).
    { intros E. apply G1. rewrite E. apply lasto_elem. }
    rewrite (proj2 (Z.eqb_neq _ _)) by done. cbn [negb]. wp_simpl.
    apply wp_on_links. eapply wp_rd_next; [by apply dlist_first|]. rewrite <- Hs. wp_simpl.
    apply wp_on_links. eapply wp_rd_next; [by apply ring_next|]. rewrite <- Hs. cbn [heado head default].
    destruct q1 as [|y q1]; cbn [heado head default app].
    + rewrite Z.eqb_refl. cbn [negb]. wp_simpl. apply Hsame. by rewrite app_nil_r.
    + rewrite (proj2 (Z.eqb_neq _ _)) by (cbn; intros E; apply G2; cbn; rewrite E; by left). cbn [negb]. apply wp_on_links.
      eapply (fam_list_move_head _ f hd (y :: q1) x r); [exact Hl|exact Hf|]. intros h' Hh. by apply HQ.
Qed.

(** The page stays on the list if it still has free blocks. *)
Definition still (a : Z) (l : list (Z * Z)) : list Z := match l with [] => [] | _ => [a] end.

Lemma page_after_links b sp f hd ps s pg l s1 pg' : page_after b sp f hd ps s pg l s1 pg' -> exists h, s1 = set_links h s.
Proof.
  intros Hpa. destruct l as [|b0 l0].
  - destruct (pa_none _ _ _ _ _ _ _ _ _ _ Hpa eq_refl) as (_ & _ & h & -> & _). by exists h.
  - destruct (pa_some _ _ _ _ _ _ _ _ _ _ Hpa ltac:(done)) as [-> _]. exists (links s). by destruct s.
Qed.

(** One page of the list took an allocation. *)
Lemma pages_after f hd q1 a q2 blk s pg l' s1 pg' c :
  slob_pages f hd (q1 ++ a :: q2) blk s -> page_ready s blk (page_of_list a) pg ->
  page_after (base (page_of_list a)) (page_of_list a) f hd (q1 ++ q2) s pg l' s1 pg' ->
  apart 0 l' -> chain (base (page_of_list a)) c l' page_units -> cells_in (base (page_of_list a)) c ->
  within (base (page_of_list a)) (blk (page_of_list a)) (slobs (mm s)) c ->
  slob_pages (<[hd := q1 ++ still a l' ++ q2]> f) hd (q1 ++ still a l' ++ q2) (upd blk (page_of_list a) l')
    (st (page_of_list a) s1 pg' c).
Proof.
  intros [S1 S2 S3 S4] [R1 R2 R3 R4 R5] Hpa Hap Hch Hce Hw. set (sp := page_of_list a) in *.
  assert (Hnd : NoDup (q1 ++ a :: q2)) by (pose proof (lists_ring _ _ S1 _ _ S2) as [Hnd _]; by apply NoDup_cons in Hnd as [_ ?]).
  assert (Hsub : forall x, x ∈ q1 ++ still a l' ++ q2 -> x ∈ q1 ++ a :: q2).
  { intros x. unfold still. destruct l'; set_solver. }
  assert (Hmm : mm s1 = mm s).
  { by destruct (page_after_links _ _ _ _ _ _ _ _ _ _ Hpa) as (h & ->). }
  split.
  - unfold still. destruct l' as [|b0 l0]; cbn [app].
    + by destruct (pa_none _ _ _ _ _ _ _ _ _ _ Hpa eq_refl) as (_ & _ & h' & -> & ? & _).
    + destruct (pa_some _ _ _ _ _ _ _ _ _ _ Hpa ltac:(done)) as [-> _]. by rewrite insert_id.
  - apply lookup_insert_eq.
  - intros x Hx. destruct (decide (x = a)) as [->|Hne].
    + fold sp. exists pg'. assert (Hl' : l' <> []).
      { intros ->. cbn in Hx. apply NoDup_app in Hnd as (N1 & N2 & N3). apply NoDup_cons in N3 as [N3 _].
        apply elem_of_app in Hx as [Hx|Hx]; [by apply (N2 a Hx); left|done]. }
      destruct (pa_some _ _ _ _ _ _ _ _ _ _ Hpa Hl') as [-> Hfl]. split; unfold upd; rewrite ?Z.eqb_refl.
      * done.
      * by eapply st_page_blocks.
      * done.
      * by rewrite Hfl.
      * by rewrite Hfl.
    + destruct (S3 x (Hsub x Hx)) as (pgx & [X1 X2 X3 X4 X5]). exists pgx.
      assert (Hsp : sp <> page_of_list x) by (unfold sp, page_of_list; lia).
      assert (Hu : upd blk sp l' (page_of_list x) = blk (page_of_list x)).
      { unfold upd. by rewrite (proj2 (Z.eqb_neq _ _)) by done. }
      split; rewrite ?Hu; try done.
      eapply page_blocks_other; [exact R1|exact X1| |exact Hsp| |exact Hw|by rewrite Hmm|exact X2].
      * intros E. apply Hne. symmetry. apply S4; [set_solver|by apply Hsub|exact E].
      * apply apart_ordered; [done|apply R2].
  - intros x y Hx Hy. apply S4; by apply Hsub.
Qed.

Lemma pages_turned f hd q q' blk s h' :
  slob_pages f hd q blk s -> lists h' (<[hd := q']> f) -> (forall a, a ∈ q' -> a ∈ q) ->
  slob_pages (<[hd := q']> f) hd q' blk (set_links h' s).
Proof.
  intros [S1 S2 S3 S4] Hl Hsub. split; [done|apply lookup_insert_eq| |].
  - intros a Ha. destruct (S3 a (Hsub a Ha)) as (pg & [R1 [F1 F2 F3 F4 F5 F6] R3 R4 R5]). by exists pg.
  - intros a a' Ha Ha'. by apply S4; apply Hsub.
Qed.

(** What the search did: [units] units at [o] of the page at [a] are taken. *)
Record taken_from (s : kst) (blk : Z -> list (Z * Z)) (a o units : Z) (l' : list (Z * Z)) (s' : kst) : Prop := {
  tf_sems : sems s' = sems s;
  tf_waiters : waiters s' = waiters s;
  tf_mm : exists pg', mm s' = mm (st (page_of_list a) s pg' (slobs (mm s')));
  tf_header : block_at (base (page_of_list a)) (slobs (mm s')) o units (o + units);
  tf_within : within (base (page_of_list a)) (blk (page_of_list a)) (slobs (mm s)) (slobs (mm s'))
}.

Lemma wp_slob_search s f hd q blk size align (Q : Z -> kst -> Prop) :
  slob_pages f hd q blk s -> 1 <= size <= 4096 -> align_ok align ->
  (first_room align (SLOB_UNITS size) blk q = None -> Q NULL s) ->
  (forall q1 a q2 o l' s', first_room align (SLOB_UNITS size) blk q = Some (q1, a, q2) ->
     take align (SLOB_UNITS size) (blk (page_of_list a)) = Some (o, l') ->
     slob_pages (<[hd := (still a l' ++ q2) ++ q1]> f) hd ((still a l' ++ q2) ++ q1) (upd blk (page_of_list a) l') s' ->
     taken_from s blk a o (SLOB_UNITS size) l' s' -> Q (at_unit (base (page_of_list a)) o + align) s') ->
  wp (slob_search hd size align) Q s.
Proof.
  intros Hsp Hsz Hal HN HS. pose proof Hsp as [S1 S2 S3 S4]. destruct (SLOB_UNITS_range _ Hsz) as [Hu Hs32].
  set (units := SLOB_UNITS size) in *. pose proof (lists_ring _ _ S1 _ _ S2) as Hd.
  assert (Hs : set_links (links s) s = s) by (by destruct s).
  unfold slob_search. fold units. wp_simpl. apply wp_on_links. eapply wp_rd_next; [by eapply dlist_first|]. rewrite Hs.
  apply (wp_loop_idx _ (fun k pos s' => s' = s /\ exists q1 q2, q = q1 ++ q2 /\ k = length q2 /\ pos = heado hd q2 /\
    forall a, a ∈ q1 -> take align units (blk (page_of_list a)) = None) Q) with (n := length q).
  - intros k pos s' (-> & q1 & q2 & Hq & -> & -> & Hno). pose proof Hd as Hd2. rewrite Hq in Hd2.
    pose proof (first_room_skip align units blk q1 q2 Hno) as Hfr. rewrite <- Hq in Hfr.
    destruct q2 as [|a q2].
    + cbn [heado head default]. rewrite Z.eqb_refl. wp_simpl. apply HN. by rewrite Hfr.
    + assert (Hne : heado hd (a :: q2) <> hd) by (intros E; by apply (dlist_cursor _ _ _ _ Hd2) in E).
      rewrite (proj2 (Z.eqb_neq _ _)) by exact Hne. change (heado hd (a :: q2)) with a in *.
      destruct (S3 a ltac:(rewrite Hq; set_solver)) as (pg & Hr). pose proof Hr as [R1 R2 R3 R4 R5].
      set (sp := page_of_list a) in *. pose proof (fr_apart _ _ _ _ _ R2) as Hap.
      pose proof (total_bound 0 _ (apart_ordered 0 _ ltac:(done) Hap)) as Htb. unfold page_units in Htb.
      destruct (dlist_links _ _ _ _ _ Hd2) as [Hnx Hpv].
      assert (Hgo : take align units (blk sp) = None -> wp (n <- on_links (rd_next a) ;; ret (inl n)) (fun r s' => match r with
          | inl a' => exists n', (n' < length (a :: q2))%nat /\ s' = s /\ exists q1 q2, q = q1 ++ q2 /\ n' = length q2 /\
              a' = heado hd q2 /\ forall a, a ∈ q1 -> take align units (blk (page_of_list a)) = None
          | inr b => Q b s' end) s).
      { intros Ht. wp_simpl. apply wp_on_links. eapply wp_rd_next; [exact Hnx|]. rewrite Hs. wp_simpl.
        exists (length q2). split; [cbn; lia|]. split; [done|]. exists (q1 ++ [a]), q2. rewrite <- app_assoc.
        split_and!; [done..|]. intros x [Hx|Hx]%elem_of_app; [by apply Hno|]. by apply list_elem_of_singleton in Hx as ->. }
      unfold rd_units. rewrite wp_bind, wp_bind. eapply wp_rd_page; [exact (fr_page _ _ _ _ _ R2)|]. rewrite wp_ret.
      rewrite (fr_units _ _ _ _ _ R2), u32_small by lia. destruct (Z.ltb_spec (total (blk sp)) units) as [Hlt|Hge].
      { apply Hgo. destruct (take align units (blk sp)) as [[o l']|] eqn:Ht; [|done].
        pose proof (take_total align units _ o l' 0 Hap ltac:(done) ltac:(lia) Hal Ht). lia. }
      rewrite wp_bind. apply wp_on_links. eapply wp_rd_prev; [exact Hpv|]. rewrite Hs. rewrite wp_bind.
      assert (Hol : on_list sp f hd q1 q2 s pg).
      { split; [done| |done]. unfold page_list, sp, page_of_list. by replace (a - 4 + 4) with a by lia; rewrite <- Hq. }
      apply (wp_slob_page_alloc (base sp) R1 sp s pg (blk sp) f hd q1 q2); try done.
      intros o l' s1 pg' c' Ht P1 P2 P3 P4 P5. fold units in Ht, P5.
      destruct (take_some align units 0 _ o l' Hap ltac:(lia) (fun o => align_up_le align o Hal) Ht) as [T1 T2 T3 T4 T5 T6 T7].
      assert (Hr0 : 0 <= at_unit (base sp) o + align < 4294967296).
      { apply at_unit_align; [done|done|]. lia. }
      rewrite (proj2 (Z.eqb_neq _ NULL)) by (pose proof (at_unit_ne (base sp) R1 o ltac:(lia)); destruct Hal as [->|(k & ? & ->)]; [by rewrite Z.add_0_r|];
        unfold NULL in *; pose proof (at_unit_align (base sp) R1 0 o (or_introl eq_refl) ltac:(lia)); lia).
      apply bind_pieces. rewrite wp_bind.
      pose proof (pages_after f hd q1 a q2 blk s pg l' s1 pg' c' ltac:(by rewrite <- Hq) Hr P1 T6 P2 P3 P4) as Hpa.
      pose proof Hpa as [A1 A2 _ _].
      apply (wp_restart _ (<[hd := q1 ++ still a l' ++ q2]> f) hd q1 (still a l' ++ q2)); [exact A1|exact A2|].
      intros h' Hh. rewrite !wp_ret. rewrite insert_insert_eq in Hh.
      apply (HS q1 a q2 o l'); [|exact Ht| |].
      * rewrite Hfr. cbn [first_room]. fold sp. rewrite Ht. by rewrite app_nil_r.
      * assert (Hff : <[hd := (still a l' ++ q2) ++ q1]> (<[hd := q1 ++ still a l' ++ q2]> f)
          = <[hd := (still a l' ++ q2) ++ q1]> f) by apply insert_insert_eq.
        rewrite <- Hff. eapply pages_turned; [exact Hpa|by rewrite Hff|]. intros x. set_solver.
      * destruct (page_after_links _ _ _ _ _ _ _ _ _ _ P1) as (h1 & ->). split; [done|done|by exists pg'|exact P5|exact P4].
  - split; [done|]. exists [], q. split_and!; [done..|]. by intros ? ?%not_elem_of_nil.
  - pose proof (dlist_length _ _ _ Hd). unfold walk_fuel. lia.
Qed.

(** ** [kmalloc] and [kfree] *)

(** [slob_pages] is about the lists and the memory only. *)
Lemma slob_pages_ext f hd q blk s s' :
  slob_pages f hd q blk s -> links s' = links s -> mm s' = mm s -> slob_pages f hd q blk s'.
Proof.
  intros [S1 S2 S3 S4] El Em. split; [by rewrite El|done| |done].
  intros a Ha. destruct (S3 a Ha) as (pg & [R1 [F1 F2 F3 F4 F5 F6] R3 R4 R5]).
  exists pg. split; [done| |done..]. split; rewrite ?Em; done.
Qed.

Lemma kmalloc_size_eq size : 1 <= size <= 4086 -> kmalloc_size size = 8 * ((size + 9) / 8).
Proof.
  intros Hs. unfold kmalloc_size, ALIGN, SLOB_UNIT, ARCH_SLOB_MINALIGN.
  rewrite (u32_small (size + 2 + 8 - 1)) by lia. change (u32 (Z.lnot (8 - 1))) with (Z.shiftl (Z.ones (32 - 3)) 3).
  rewrite land_clear by lia. change (2 ^ 3) with 8. replace (size + 2 + 8 - 1) with (size + 9) by lia.
  pose proof (Z.div_mod (size + 9) 8 ltac:(lia)). lia.
Qed.

Lemma kmalloc_size_range size : 1 <= size <= 4086 ->
  8 <= kmalloc_size size < 4096 /\ 4 <= SLOB_UNITS (kmalloc_size size) /\
  (7 <= size -> 8 <= SLOB_UNITS (kmalloc_size size)) /\ 2 * SLOB_UNITS (kmalloc_size size) = kmalloc_size size.
Proof.
  intros Hs. rewrite kmalloc_size_eq by done. pose proof (Z.div_mod (size + 9) 8 ltac:(lia)).
  pose proof (Z.mod_pos_bound (size + 9) 8 ltac:(lia)). split; [lia|]. rewrite SLOB_UNITS_eq by lia.
  assert ((8 * ((size + 9) / 8) + 1) / 2 = 4 * ((size + 9) / 8)) as ->; [|lia].
  symmetry. apply (Z.div_unique_pos _ _ _ 1); lia.
Qed.

Lemma align_8 : align_ok ARCH_SLOB_MINALIGN.
Proof. right. by exists 3. Qed.

Section Alloc.
Context (E : env) (f : gmap Z (list Z)) (q q1 q2 : list Z) (blk : Z -> list (Z * Z)) (s : kst) (size a : Z).
Let n := kmalloc_size size.
Let units := SLOB_UNITS n.
Let hd := slob_list_for E n.
Let sp := page_of_list a.
Context (Hsp : slob_pages f hd q blk s) (Hlk : slob_free_lock E f s) (Hsz : 1 <= size <= 4086)
  (Hroom : first_room ARCH_SLOB_MINALIGN units blk q = Some (q1, a, q2)).

(** The nodes of the list after the allocation: the search goes on from [a]. *)
Definition nodes_after (l' : list (Z * Z)) : list Z := (still a l' ++ q2) ++ q1.

Lemma room_facts : exists pg, page_ready s blk sp pg /\ a ∈ q.
Proof.
  pose proof (first_room_some _ _ _ _ _ _ _ Hroom) as Hq. assert (a ∈ q) by (rewrite Hq; set_solver).
  destruct (sg_page _ _ _ _ _ Hsp a) as (pg & R); [done|]. by exists pg.
Qed.

Lemma block_facts o l' : take ARCH_SLOB_MINALIGN units (blk sp) = Some (o, l') -> taken ARCH_SLOB_MINALIGN units 0 (blk sp) o l'.
Proof.
  intros Ht. destruct room_facts as (pg & R & _), (kmalloc_size_range size Hsz) as (_ & N2 & _). fold n units in N2.
  apply take_some; [by apply (fr_apart _ _ _ _ _ (pr_blocks _ _ _ _ R))|lia|intros; by apply align_up_le, align_8|done].
Qed.

Lemma wp_kmalloc_block (Q : Z -> kst -> Prop) :
  (forall o l' s', take ARCH_SLOB_MINALIGN units (blk sp) = Some (o, l') ->
     slob_pages (<[hd := nodes_after l']> f) hd (nodes_after l') (upd blk sp l') s' ->
     slob_free_lock E (<[hd := nodes_after l']> f) s' -> taken_from s blk a o units l' s' ->
     Q (at_unit (base sp) o + ARCH_SLOB_MINALIGN) s') ->
  wp (kmalloc E size) Q s.
Proof.
  intros HQ. destruct (kmalloc_size_range size Hsz) as (N1 & N2 & N7 & N3). destruct Hlk as [L1 L2 L3].
  unfold kmalloc. rewrite (proj2 (Z.eqb_neq size 0)) by lia. cbv zeta. fold n in N1, N2, N3 |- *.
  rewrite (proj2 (Z.ltb_lt n PAGE_SIZE)), (proj2 (Z.eqb_neq n 0)) by (unfold PAGE_SIZE; lia).
  unfold slob_alloc. fold hd. wp_simpl. eapply wp_down; [exact L3|lia|]. intros c1 b1. wp_simpl.
  eapply (wp_slob_search _ f hd q blk n); [eapply slob_pages_ext; [exact Hsp|done|done]|lia|exact align_8| |].
  { intros Hno. fold units in Hno. by rewrite Hroom in Hno. }
  intros q1' a' q2' o l' s2 Hr Ht Hp [T1 T2 T3 T4 T5]. fold units in Hr, Ht, T4. rewrite Hroom in Hr. injection Hr as <- <- <-.
  assert (Hhd : hd <> wait_list (slob_sem E)).
  { intros E0. rewrite E0 in Hsp. apply sg_list in Hsp. rewrite L2 in Hsp. injection Hsp as <-. done. }
  pose proof (sg_lists _ _ _ _ _ Hp) as Hl2.
  wp_simpl. eapply (wp_up _ _ 0); [exact Hl2|by rewrite lookup_insert_ne by exact Hhd| |lia|].
  { rewrite T1. cbn. apply lookup_insert_eq. }
  intros c2 b2. wp_simpl. rewrite (proj2 (Z.eqb_neq _ NULL)).
  2: { destruct room_facts as (pg & R & _). destruct (pr_base _ _ _ _ R) as [B1 _ _]. unfold sp in B1. pose proof (tk_low _ _ _ _ _ _ (block_facts o l' Ht)).
       unfold sp, at_unit, NULL, ARCH_SLOB_MINALIGN. lia. }
  rewrite wp_ret. apply (HQ o l'); [exact Ht| | |].
  - eapply slob_pages_ext; [exact Hp|done|done].
  - split; [exact Hl2|by rewrite lookup_insert_ne by exact Hhd|]. cbn. by rewrite lookup_insert_eq.
  - split; cbn; [|done|done|done|done]. rewrite T1. cbn. by rewrite insert_insert_eq, insert_id.
Qed.

(** [kfree] of the block at [o], while the page has free blocks [l'] and is
    known to [virt_to_page]. *)
Lemma wp_kfree_block s1 pg1 l' o (Q : unit -> kst -> Prop) :
  7 <= size -> page_base (base sp) -> page_blocks (base sp) sp s1 l' pg1 -> slob_free_lock E f s1 ->
  length (pg_flags pg1) = 1%nat -> bit_at (pg_flags pg1) PG_slob_free = true -> l' <> [] ->
  block_at (base sp) (slobs (mm s1)) o units (o + units) ->
  0 <= o -> o + units <= page_units -> (forall i, o <= i < o + units -> outside l' i) -> total l' + units < page_units ->
  (forall i, 0 <= i < page_units -> page_of (mm s1) (at_unit (base sp) i) = sp) ->
  (forall k i pg' c', page_blocks (base sp) sp (st sp s1 pg' c') (give o units l') pg' -> pg_flags pg' = pg_flags pg1 ->
     pg_private pg' = pg_private pg1 -> within (base sp) ((o, units) :: l') (slobs (mm s1)) c' ->
     Q tt (crit_set k i (st sp s1 pg' c'))) ->
  wp (kfree E (at_unit (base sp) o + ARCH_SLOB_MINALIGN)) Q s1.
Proof.
  intros H7 Hb Hp Hl Hf1 Hf2 Hne Hbl Ho Hou Hout Htot Hpo HQ. destruct (kmalloc_size_range size Hsz) as (N1 & N2 & N7 & N3).
  fold n units in N1, N2, N3, N7. specialize (N7 H7). unfold page_units in *.
  assert (Hhead : slobs (mm s1) !! at_unit (base sp) o = Some units).
  { unfold block_at in Hbl. rewrite (proj2 (Z.ltb_lt 1 units)) in Hbl by lia. apply Hbl. }
  assert (Ha : at_unit (base sp) o + ARCH_SLOB_MINALIGN = at_unit (base sp) (o + 4)) by (unfold at_unit, ARCH_SLOB_MINALIGN; lia).
  pose proof (pb_top _ Hb). pose proof (pb_pos _ Hb).
  unfold kfree. rewrite (proj2 (Z.eqb_neq NULL _)) by (unfold at_unit, NULL, ARCH_SLOB_MINALIGN; lia).
  wp_simpl. apply wp_virt_to_page. rewrite Ha, Hpo by lia. unfold PageSlob. wp_simpl.
  rewrite (st_self sp s1 pg1 (fr_page _ _ _ _ _ Hp)). apply wp_PageSlobFree; [done|]. rewrite Hf2. cbn [Z.b2z Z.eqb negb].
  rewrite <- (st_self sp s1 pg1 (fr_page _ _ _ _ _ Hp)). rewrite <- Ha. cbv zeta.
  replace (at_unit (base sp) o + ARCH_SLOB_MINALIGN - ARCH_SLOB_MINALIGN) with (at_unit (base sp) o) by lia.
  rewrite u32_small by (unfold at_unit; lia). wp_simpl. eapply wp_rd_slob; [exact Hhead|].
  unfold SLOB_UNIT. rewrite s32_small by lia. replace (units * 2) with n by lia.
  apply (wp_slob_free (base sp) Hb sp E s1 pg1 l' f); try done; try lia. apply Hpo. unfold page_units. lia.
Qed.
End Alloc.

(** One page changes, inside the blocks [L]. *)
Lemma pages_updated f hd q blk blk' s a pg' c' L :
  slob_pages f hd q blk s -> a ∈ q -> (forall sp, sp <> page_of_list a -> blk' sp = blk sp) ->
  page_ready (st (page_of_list a) s pg' c') blk' (page_of_list a) pg' ->
  ordered 0 L -> within (base (page_of_list a)) L (slobs (mm s)) c' ->
  slob_pages f hd q blk' (st (page_of_list a) s pg' c').
Proof.
  intros [S1 S2 S3 S4] Ha Hb Hr Ho Hw. split; [done|done| |done]. intros x Hx.
  destruct (decide (x = a)) as [->|Hne]; [by exists pg'|].
  destruct (S3 x Hx) as (pgx & [X1 X2 X3 X4 X5]). exists pgx.
  assert (Hsp : page_of_list a <> page_of_list x) by (unfold page_of_list; lia).
  split; rewrite ?(Hb (page_of_list x)) by done; try done.
  eapply page_blocks_other; [apply Hr|exact X1| |exact Hsp|exact Ho|exact Hw|done|exact X2].
  intros E. apply Hne. symmetry. by apply S4.
Qed.
End Pages.

(** ** Properties *)

(** [C7] [kmalloc] of a size that fits into a page takes the block from the first page
    of its list with room, at the first place in it, and returns the address
    behind the header: the units were free and are taken now, the header holds
    their number, every page on the list keeps its invariant, the next search
    begins at that page, and the lock is free again. *)
Theorem kmalloc_takes_first base E f q q1 a q2 blk s size :
  slob_pages base f (slob_list_for E (kmalloc_size size)) q blk s -> slob_free_lock E f s -> 1 <= size <= 4086 ->
  first_room ARCH_SLOB_MINALIGN (SLOB_UNITS (kmalloc_size size)) blk q = Some (q1, a, q2) ->
  wp (kmalloc E size) (fun r s' => exists o l',
    take ARCH_SLOB_MINALIGN (SLOB_UNITS (kmalloc_size size)) (blk (page_of_list a)) = Some (o, l') /\
    r = at_unit (base (page_of_list a)) o + ARCH_SLOB_MINALIGN /\
    taken ARCH_SLOB_MINALIGN (SLOB_UNITS (kmalloc_size size)) 0 (blk (page_of_list a)) o l' /\
    taken_from base s blk a o (SLOB_UNITS (kmalloc_size size)) l' s' /\
    slob_pages base (<[slob_list_for E (kmalloc_size size) := nodes_after q1 q2 a l']> f)
      (slob_list_for E (kmalloc_size size)) (nodes_after q1 q2 a l') (upd blk (page_of_list a) l') s' /\
    slob_free_lock E (<[slob_list_for E (kmalloc_size size) := nodes_after q1 q2 a l']> f) s') s.
Proof.
  intros Hsp Hlk Hsz Hr. apply (wp_kmalloc_block base E f q q1 q2 blk s size a); try done.
  intros o l' s' Ht H1 H2 H3. exists o, l'. split_and!; try done. by eapply block_facts.
Qed.

(** [C8] [kmalloc] and [kfree] of what it returned: every page of the list has the
    free blocks it had before, only cells of free blocks have changed, and the
    list has only turned to that page.  The size is at least 7 (below, the block
    has no room behind its header), some page of the list has room, and that page
    is neither filled up by the block ([kfree_full_page] says what [kfree] does
    then) nor all free before (then [kfree] gives it back). *)
Theorem kmalloc_kfree_roundtrip base E f q q1 a q2 blk s size o l' :
  slob_pages base f (slob_list_for E (kmalloc_size size)) q blk s -> slob_free_lock E f s -> 7 <= size <= 4086 ->
  first_room ARCH_SLOB_MINALIGN (SLOB_UNITS (kmalloc_size size)) blk q = Some (q1, a, q2) ->
  take ARCH_SLOB_MINALIGN (SLOB_UNITS (kmalloc_size size)) (blk (page_of_list a)) = Some (o, l') ->
  l' <> [] -> total (blk (page_of_list a)) < page_units ->
  (forall i, 0 <= i < page_units -> page_of (mm s) (at_unit (base (page_of_list a)) i) = page_of_list a) ->
  wp (p <- kmalloc E size ;; kfree E p) (fun _ s' =>
    let g := <[slob_list_for E (kmalloc_size size) := a :: q2 ++ q1]> f in
    slob_pages base g (slob_list_for E (kmalloc_size size)) (a :: q2 ++ q1) blk s' /\ slob_free_lock E g s' /\
    within (base (page_of_list a)) (blk (page_of_list a)) (slobs (mm s)) (slobs (mm s'))) s.
Proof.
  intros Hsp Hlk Hsz Hr Ht Hne Htot Hpo. set (sp := page_of_list a) in *. set (n := kmalloc_size size) in *.
  assert (Hsz1 : 1 <= size <= 4086) by lia.
  pose proof (block_facts base E f q q1 q2 blk s size a Hsp Hlk Hsz1 Hr o l' Ht) as [T1 T2 T3 T4 T5 T6 T7]. fold n sp in T1, T2, T3, T4, T5, T6, T7.
  destruct (kmalloc_size_range size Hsz1) as (N1 & N2 & N7 & N3). fold n in N1, N2, N3, N7.
  rewrite wp_bind. apply (wp_kmalloc_block base E f q q1 q2 blk s size a); try done.
  intros o1 l1 s1 Ht1 P1 P2 P3. fold n sp in Ht1, P1, P2, P3 |- *. rewrite Ht in Ht1. injection Ht1 as <- <-.
  assert (Hnodes : nodes_after q1 q2 a l' = a :: q2 ++ q1) by (by destruct l'). rewrite Hnodes in P1, P2.
  destruct (sg_page _ _ _ _ _ _ P1 a ltac:(by left)) as (pg1 & [R1 R2 R3 R4 R5]).
  assert (Hbl1 : upd blk sp l' sp = l') by (unfold upd; by rewrite Z.eqb_refl). fold sp in R1, R2, R3. rewrite Hbl1 in R2.
  destruct P3 as [F1 F2 (pgm & F3) F4 F5]. fold sp in F3, F4, F5.
  destruct (room_facts base E f q q1 q2 blk s size a Hsp Hlk Hsz1 Hr) as (pg0 & [_ Q2 _ _ _] & _). fold sp in Q2.
  destruct (take_give ARCH_SLOB_MINALIGN (SLOB_UNITS n) (blk sp) 0 o l' (fr_apart _ _ _ _ _ Q2) ltac:(lia) ltac:(intros; by apply align_up_le, align_8) Ht) as [_ Hgive].
  apply (wp_kfree_block base E (<[slob_list_for E n := a :: q2 ++ q1]> f) size a Hsz1 s1 pg1 l' o); fold n sp; try done; try lia.
  - intros i Hi. apply T3. by right.
  - intros i Hi. rewrite F3. by apply Hpo.
  - intros k i pg' c' G1 G2 G3 G4. fold n sp in G1, G4 |- *. rewrite Hgive in G1. cbv zeta.
    assert (W : within (base sp) (blk sp) (slobs (mm s1)) c').
    { eapply within_sub; [|exact G4]. intros j Hj. rewrite outside_cons. split; [|apply T3; by left].
      destruct (decide (o <= j < o + SLOB_UNITS n)) as [Hin|]; [|lia]. by destruct (T4 j Hin). }
    split_and!.
    + eapply (slob_pages_ext _ _ _ _ _ (st sp s1 pg' c')); [|done|done]. apply (pages_updated base _ _ _ (upd blk sp l') blk s1 a pg' c' (blk sp)); try done.
      * by left.
      * intros sp' Hsp'. unfold upd. by rewrite (proj2 (Z.eqb_neq _ _)) by done.
      * split; [done|done|fold sp; by destruct (blk sp)|by rewrite G2|by rewrite G2].
      * by apply apart_ordered, (fr_apart _ _ _ _ _ Q2).
    + destruct P2 as [L1 L2 L3]. by split.
    + eapply within_trans; [exact F5|exact W].
Qed.

(** The page of [demo_slob], alone on its list. *)
Lemma demo_slob_pages : slob_pages (fun _ => demo_base) (list_to_map demo_rings) 6000 [page_list demo_sp]
  (fun _ => demo_blocks) demo_slob.
Proof.
  split.
  - exact demo_lists.
  - vm_compute. reflexivity.
  - intros a ->%list_elem_of_singleton. exists demo_page. change (page_of_list (page_list demo_sp)) with demo_sp.
    split; [exact demo_page_base|exact demo_page_blocks|done|done|done].
  - intros a a' ->%list_elem_of_singleton ->%list_elem_of_singleton. done.
Qed.

Lemma kmalloc_takes_first_witness : wp (kmalloc demo_env 100) (fun r s' => r = demo_base + 424 + 8) demo_slob.
Proof.
  eapply wp_mono; [apply (kmalloc_takes_first (fun _ => demo_base) demo_env (list_to_map demo_rings) [page_list demo_sp] []
    (page_list demo_sp) [] (fun _ => demo_blocks) demo_slob 100)|].
  - exact demo_slob_pages.
  - exact demo_lock.
  - lia.
  - vm_compute. reflexivity.
  - intros r s' (o & l' & Ht & -> & _). vm_compute in Ht. injection Ht as <- _. vm_compute. reflexivity.
Defined.

Lemma kmalloc_kfree_roundtrip_witness :
  wp (p <- kmalloc demo_env 100 ;; kfree demo_env p) (fun _ s' =>
    exists pg, page_blocks demo_base demo_sp s' demo_blocks pg) demo_slob.
Proof.
  eapply wp_mono; [apply (kmalloc_kfree_roundtrip (fun _ => demo_base) demo_env (list_to_map demo_rings) [page_list demo_sp] []
    (page_list demo_sp) [] (fun _ => demo_blocks) demo_slob 100 212 [(0, 44); (264, 1784)])|].
  - exact demo_slob_pages.
  - exact demo_lock.
  - lia.
  - vm_compute. reflexivity.
  - vm_compute. reflexivity.
  - done.
  - done.
  - exact demo_page_of.
  - intros u s' (H & _). destruct (sg_page _ _ _ _ _ _ H (page_list demo_sp) ltac:(by left)) as (pg & R). exists pg. apply R.
Defined.
