(* ===== verification/Alloc.v ===== *)
(** * The allocator as its callers see it

    The components that allocate memory (tasks, workqueues, the file system, the
    module loader, the driver model) use it through the class [Allocator], on
    whatever state it keeps; mm/malloc.c on the kernel state is one instance.
    [AllocatorSpec] is what a client may rely on while there is memory. *)

From S2P Require Import Prelude KList KState Env Slob.

Class Allocator (H : Type) : Type := {
  kmalloc : Z -> M H Z;
  kfree : Z -> M H unit
}.

(** mm/malloc.c *)
#[export] Instance kernel_allocator (E : env) : Allocator kst := {
  kmalloc := Slob.kmalloc E;
  kfree := Slob.kfree E
}.

(** An allocator that serves every request and keeps its own invariant. *)
Class AllocatorSpec (H : Type) `{Allocator H} : Type := {
  heap_ok : H -> Prop;
  kmalloc_ok : forall n h, heap_ok h -> wp (kmalloc n) (fun p h' => p <> 0 /\ heap_ok h') h;
  kfree_ok : forall p h, heap_ok h -> wp (kfree p) (fun _ h' => heap_ok h') h
}.

(** An allocator that never frees, for examples. *)
#[export] Instance bump : Allocator Z := {
  kmalloc := fun n => p <- gets id ;; modify (fun h => h + Z.max 0 n) ;;; ret p;
  kfree := fun _ => ret tt
}.
Lemma bump_kmalloc_ok n h : 0 < h -> wp (kmalloc n) (fun p h' => p <> 0 /\ 0 < h') h.
Proof. intros Hh. cbn. wp_simpl. unfold id. lia. Qed.
Lemma bump_kfree_ok p h : 0 < h -> wp (kfree p) (fun _ h' => 0 < h') h.
Proof. intros Hh. cbn. by wp_simpl. Qed.
#[export] Instance bump_spec : AllocatorSpec Z := {
  heap_ok := fun h => 0 < h;
  kmalloc_ok := bump_kmalloc_ok;
  kfree_ok := bump_kfree_ok
}.
