(* ===== verification/Task.v ===== *)
(** * kernel/task.c, kernel/sched.c and arch/arm/arch_task.c: tasks

    Creation, sleeping, waking and exit of tasks, on top of the scheduler, the
    timers and the allocator.  Memory that [kmalloc] returns becomes an object
    when the code first writes it ([new_task], [new_timer]).  The allocator is
    used through the class [Allocator]; [kernel_allocator] is the kernel's. *)

From S2P Require Import Prelude KList Bitops KState Sched Timer Semaphore Env PageAlloc Slob Alloc.

Definition STACK_DEF_SIZE : Z := 8192.
Definition DEFAULT_PRIORITY : Z := MAX_PRIORITY - 2.
(** "init" *)
Definition INIT_TASK_NAME : list Z := [105; 110; 105; 116].
Definition sizeof_task : Z := 80.
Definition sizeof_timer : Z := 24.
Definition MAX_SCHEDULE_TIMEOUT : Z := 2147483647.

(** The allocated memory at [p] seen as an object with a list node. *)
Definition new_node (p : Z) : M kst unit :=
  modify (fun s => set_links (mk_lheap (<[p := 0]> (nx (links s))) (<[p := 0]> (pv (links s)))) s).
Definition new_task (p : Z) (t : task) : M kst unit :=
  new_node p ;;; modify (fun s => set_tasks (<[p := t]> (tasks s)) s).
Definition new_timer (p : Z) : M kst unit :=
  new_node p ;;; modify (fun s => set_timers (<[p := mk_ktimer 0 0 TF_NULL NULL]> (timers s)) s).

(** A [task_t] of zero bytes. *)
Definition zero_task : task := mk_task 0 0 RUNNING 0 0 0 0 0 0 0 [].

(** [memcpy(task->name, name, strlen(name) + 1)] into 32 bytes *)
Definition copy_name (p : Z) (name : list Z) : M kst unit :=
  if (32 <? Z.of_nat (length name) + 1) then fail (BadIndex 32)
  else wr_task p (fun t => mk_task (t_sp t) (t_priority t) (t_state t) (t_stack t) (t_stack_size t)
                             (t_pgd t) (t_pid t) (t_entry t) (t_args t) (t_ret t) name).

(** arch/arm/arch_task.c: the frame of nine words at the top of the stack; the
    words themselves are stack memory. *)
Definition arch_task_initialize (p : Z) : M kst unit :=
  t <- rd_task p ;;
  let stack_top := Z.land (u32 (t_stack t + t_stack_size t)) (u32 (Z.lnot (8 - 1))) in
  let frame := u32 (stack_top - 36) in
  wr_task p (fun t => mk_task frame (t_priority t) (t_state t) (t_stack t) (t_stack_size t)
                        (t_pgd t) (t_pid t) (t_entry t) (t_args t) (t_ret t) (t_name t)).

Section Task.
Context (E : env) {A : Allocator kst}.

Definition enqueue_task (p : Z) : M kst unit := sched_fifo_enqueue_task (all_task E) p.
Definition dequeue_task (p : Z) : M kst unit := sched_fifo_dequeue_task (all_task E) p.

(** kernel/sched.c: the only class is [sched_class_fifo] *)
Definition sched_init : M kst unit := sched_fifo_init (all_task E).

Definition task_alloc (name : option (list Z)) (stack_size priority : Z) : M kst Z :=
  match name with
  | None => ret NULL
  | Some name =>
      if MAX_PRIORITY <=? priority then ret NULL else
      task <- kmalloc sizeof_task ;;
      if task =? NULL then ret NULL else
      new_task task zero_task ;;;
      copy_name task name ;;;
      pid <- gets next_pid ;;
      modify (set_next_pid (s32 (pid + 1))) ;;;
      wr_task task (fun t => mk_task (t_sp t) priority (t_state t) (t_stack t) stack_size
                               (kernel_pgd E) pid (t_entry t) (t_args t) (t_ret t) (t_name t)) ;;;
      ret task
  end.

Definition task_free (task : Z) : M kst unit :=
  if NULL =? task then ret tt else
  t <- rd_task task ;; kfree (t_stack t) ;;; kfree task.

Definition task_create (task entry args : Z) : M kst Z :=
  t <- rd_task task ;;
  (if 0 =? t_stack_size t then
     wr_task task (fun t => mk_task (t_sp t) (t_priority t) (t_state t) (t_stack t) STACK_DEF_SIZE
                              (t_pgd t) (t_pid t) (t_entry t) (t_args t) (t_ret t) (t_name t))
   else ret tt) ;;;
  t <- rd_task task ;;
  stack_addr <- kmalloc (u32 (t_stack_size t)) ;;
  if stack_addr =? NULL then ret (-1) else
  wr_task task (fun t => mk_task (t_sp t) (t_priority t) CREATING stack_addr (t_stack_size t)
                           (t_pgd t) (t_pid t) entry args (t_ret t) (t_name t)) ;;;
  arch_task_initialize task ;;;
  on_links (INIT_LIST_HEAD task) ;;;
  enqueue_task task ;;;
  ret 0.

Definition task_sleep_function (timer now a : Z) : M kst handler_return :=
  set_task_state a READY ;;;
  enter_critical_section ;;;
  enqueue_task a ;;;
  kfree timer ;;;
  exit_critical_section ;;;
  ret INT_RESCHEDULE.

(** The first half of [task_sleep]: up to the context switch. *)
Definition task_sleep_begin (delay : Z) : M kst unit :=
  timer <- kmalloc sizeof_timer ;;
  (if timer =? NULL then ret tt else new_timer timer) ;;;
  init_timer_value timer ;;;
  enter_critical_section ;;;
  cur <- gets current_task ;;
  oneshot_timer_add (timer_list E) timer delay TF_task_sleep_function cur ;;;
  set_current_state SLEEPING ;;;
  dequeue_task cur.

Definition task_sleep (delay : Z) : M kst unit :=
  task_sleep_begin delay ;;;
  task_schedule E ;;;
  exit_critical_section.

Definition task_create_init : M kst unit :=
  init <- kmalloc sizeof_task ;;
  if init =? NULL then ret tt else
  stack_addr <- kmalloc STACK_DEF_SIZE ;;
  if stack_addr =? NULL then kfree init else
  new_task init zero_task ;;;
  wr_task init (fun t => mk_task (u32 (stack_addr + STACK_DEF_SIZE)) (MAX_PRIORITY - 1) CREATING
                           (t_stack t) STACK_DEF_SIZE (kernel_pgd E) (t_pid t) (t_entry t)
                           (t_args t) (t_ret t) (t_name t)) ;;;
  copy_name init INIT_TASK_NAME ;;;
  on_links (INIT_LIST_HEAD init) ;;;
  enqueue_task init ;;;
  modify (set_current_task init).

Definition task_init : M kst unit := sched_init.

Definition task_exit (retcode : Z) : M kst unit :=
  enter_critical_section ;;;
  cur <- gets current_task ;;
  set_current_state EXITED ;;;
  wr_task cur (fun t => mk_task (t_sp t) (t_priority t) (t_state t) (t_stack t) (t_stack_size t)
                          (t_pgd t) (t_pid t) (t_entry t) (t_args t) retcode (t_name t)) ;;;
  dequeue_task cur ;;;
  task_schedule E.

(** The first code of a new task. *)
Definition initial_task_func : M kst unit :=
  exit_critical_section ;;;
  cur <- gets current_task ;;
  t <- rd_task cur ;;
  r <- entry_code E (t_entry t) (t_args t) ;;
  task_exit r.

Definition try_to_wake_up (t : Z) : M kst Z :=
  set_task_state t READY ;;;
  enter_critical_section ;;;
  enqueue_task t ;;;
  task_schedule E ;;;
  exit_critical_section ;;;
  ret 0.

Definition rd_wait (w : Z) : M kst wait_queue_entry :=
  m <- gets waits ;; lift_opt (bad_ptr w) (m !! w).

Definition default_wake_function (curr : Z) : M kst Z :=
  w <- rd_wait curr ;; try_to_wake_up (wq_private w).

Definition schedule_timeout (timeout : Z) : M kst Z :=
  timeout <-
    (if timeout =? MAX_SCHEDULE_TIMEOUT then
       set_current_state SLEEPING ;;;
       cur <- gets current_task ;;
       dequeue_task cur ;;;
       task_schedule E ;;;
       ret timeout
     else if timeout <? 0 then set_current_state RUNNING ;;; ret timeout
     else
       now <- current_time ;;
       let expire := u32 (timeout + now) in
       task_sleep expire ;;;
       now' <- current_time ;;
       ret (s32 (expire - now'))) ;;
  ret (if timeout <? 0 then 0 else timeout).
End Task.

(** ** Symbolic execution *)

Lemma wp_task_schedule E f s ct (Q : unit -> kst -> Prop) :
  sched_inv (all_task E) f s -> cur_ok (all_task E) f s ct ->
  match pick_spec (all_task E) f s ct with
  | None => Q tt s
  | Some (i, p) => forall t, tasks s !! p = Some t -> t_priority t = i ->
      let s1 := switch_to (pick_state s ct (Some (i, p))) p t in
      if p =? current_task s then Q tt s1
      else wp (resume E (current_task s) p) Q (set_switches ((current_task s, p) :: switches s1) s1)
  end ->
  wp (task_schedule E) Q s.
Proof.
  intros Hinv Hcur HQ. unfold task_schedule, Semaphore.task_schedule. wp_simpl.
  apply (wp_pick_next_task _ f s Hinv ct Hcur).
  destruct (pick_spec (all_task E) f s ct) as [[i p]|] eqn:Ep; [|cbn; by wp_simpl].
  intros t Ht Hpr. specialize (HQ t Ht Hpr). cbv zeta in HQ.
  assert (Hp0 : p <> NULL) by (intros ->; by rewrite (si_null _ _ _ Hinv) in Ht).
  destruct (Z.eqb_spec NULL p); [congruence|]. cbn [orb].
  rewrite Z.eqb_sym. destruct (Z.eqb_spec p (current_task s)); [by wp_simpl|].
  unfold arch_context_switch. wp_simpl. eapply wp_rd_task.
  { cbn. by rewrite lookup_insert_eq. }
  by wp_simpl.
Qed.

(** The invariant of the scheduler does not see these fields. *)
Lemma sched_inv_crit a f s c b : sched_inv a f s -> sched_inv a f (crit_set c b s).
Proof. intros H. by eapply sched_inv_ext. Qed.

Lemma sched_inv_task a f s p t t' :
  sched_inv a f s -> tasks s !! p = Some t -> t_priority t' = t_priority t ->
  sched_inv a f (set_tasks (<[p := t']> (tasks s)) s).
Proof. intros H Hp Ht. eapply sched_inv_ext; [exact H|done|done|]. cbn. by apply (priority_insert _ p t). Qed.

Lemma sched_inv_switch a f s ct i p t :
  sched_inv a f s -> tasks s !! p = Some t ->
  sched_inv a f (switch_to (pick_state s ct (Some (i, p))) p t).
Proof.
  intros H Hp. eapply sched_inv_ext; [exact H| | |].
  1,2: cbn; by destruct (departed ct && (i =? t_priority ct)).
  cbn. destruct (departed ct && (i =? t_priority ct)); cbn; by apply (priority_insert _ p t).
Qed.

Definition with_ret (r : Z) (t : task) : task :=
  mk_task (t_sp t) (t_priority t) (t_state t) (t_stack t) (t_stack_size t)
    (t_pgd t) (t_pid t) (t_entry t) (t_args t) r (t_name t).

(** Who is picked is never the task that left. *)
Lemma pick_not_departed a f s ct i p :
  sched_inv a f s -> cur_ok a f s ct ->
  (forall i q, 0 <= i < 8 -> f !! queue_head a i = Some q -> current_task s ∉ q) ->
  pick_spec a f s ct = Some (i, p) -> p <> current_task s.
Proof.
  intros Hinv Hcur Hout Hp ->. unfold pick_spec in Hp. apply pick_from_some in Hp as (Hi & Hc & _).
  destruct (candidate_elem a f s Hinv ct Hcur i _ ltac:(lia) Hc) as (q & Hq & Hin).
  by apply (Hout i q ltac:(lia) Hq).
Qed.

(** ** Properties *)

(** [C30] [task_exit]: the running task is marked [EXITED] with its return code
    and leaves its run queue, and is in no queue afterwards; the scheduler's
    invariant holds when the processor is handed over, and it is handed to
    another task unless no other task can run. *)
Theorem task_exit_leaves E f s ct l1 l2 r :
  resume E = (fun _ _ => ret tt) ->
  sched_inv (all_task E) f s -> tasks s !! current_task s = Some ct -> 0 <= t_priority ct < 8 ->
  f !! queue_head (all_task E) (t_priority ct) = Some (l1 ++ current_task s :: l2) ->
  let f' := <[queue_head (all_task E) (t_priority ct) := l1 ++ l2]> f in
  exists s', task_exit E r s = Ok (tt, s') /\ sched_inv (all_task E) f' s' /\
    tasks s' !! current_task s = Some (with_ret r (with_state EXITED ct)) /\
    (forall hd q, f' !! hd = Some q -> current_task s ∉ hd :: q) /\
    (current_task s' <> current_task s /\ switches s' = (current_task s, current_task s') :: switches s \/
     current_task s' = current_task s /\
       pick_spec (all_task E) f' s' (with_ret r (with_state EXITED ct)) = None).
Proof.
  intros Hres Hinv Hct Hpr Hq f'. set (cur := current_task s) in *.
  set (ct' := with_ret r (with_state EXITED ct)).
  destruct (wp_elim (task_exit E r) (fun _ s' => sched_inv (all_task E) f' s' /\
    tasks s' !! cur = Some ct' /\ (forall hd q, f' !! hd = Some q -> cur ∉ hd :: q) /\
    (current_task s' <> cur /\ switches s' = (cur, current_task s') :: switches s \/
     current_task s' = cur /\ pick_spec (all_task E) f' s' ct' = None)) s) as ([] & s' & Hrun & H);
    [|by exists s'].
  unfold task_exit. wp_simpl. apply wp_enter_any. intros c b. wp_simpl. cbn [current_task crit_set set_ints_on set_critical_section_count].
  fold cur. unfold set_current_state. wp_simpl. cbn [current_task crit_set set_ints_on set_critical_section_count]. fold cur.
  eapply wp_wr_task; [exact Hct|]. wp_simpl. eapply wp_wr_task; [cbn; by rewrite lookup_insert_eq|]. wp_simpl.
  change (mk_task _ _ _ _ _ _ _ _ _ _ _) with ct'. set (s1 := set_tasks _ _).
  assert (Hs1 : s1 = set_tasks (<[cur := ct']> (tasks s)) (crit_set c b s)).
  { unfold s1. cbn. by rewrite insert_insert_eq. }
  clearbody s1. subst s1.
  assert (Hinv1 : sched_inv (all_task E) f (set_tasks (<[cur := ct']> (tasks s)) (crit_set c b s))).
  { eapply (sched_inv_task _ _ (crit_set c b s) cur ct); [by apply sched_inv_crit|exact Hct|done]. }
  unfold dequeue_task. eapply (wp_dequeue _ f _ Hinv1 cur ct' l1 l2); [cbn; by rewrite lookup_insert_eq|exact Hpr|exact Hq|].
  change (t_priority ct') with (t_priority ct). fold f'.
  intros h' b' s2 Hinv2 Hlo _. assert (Ht2 : tasks s2 !! cur = Some ct') by (cbn; by rewrite lookup_insert_eq).
  assert (Hout : forall hd q, f' !! hd = Some q -> cur ∉ hd :: q) by apply Hlo.
  assert (Hdep : departed ct' = true) by done.
  assert (Hcur2 : cur_ok (all_task E) f' s2 ct').
  { split; [exact Ht2|]. split; [exact Hpr|]. exists (l1 ++ l2). rewrite Hdep.
    split; [unfold f'; by rewrite lookup_insert_eq|]. cbn.
    destruct (first_ready _ (l2 ++ l1)) as [p|] eqn:Ef; [right|by left].
    apply first_ready_elem in Ef as [Hp _]. cbn. set_solver. }
  eapply wp_task_schedule; [exact Hinv2|exact Hcur2|].
  destruct (pick_spec (all_task E) f' s2 ct') as [[i p]|] eqn:Ep.
  - intros t Ht Hpt. assert (Hne : p <> cur).
    { eapply (pick_not_departed _ _ s2); [exact Hinv2|exact Hcur2| |exact Ep].
      intros j q _ Hq' Hin. apply (Hout _ _ Hq'). set_solver. }
    change (current_task s2) with cur. destruct (Z.eqb_spec p cur); [done|].
    rewrite Hres. wp_simpl. split; [|split; [cbn|split; [exact Hout|left; split; [exact Hne|]]]].
    + eapply sched_inv_ext; [by eapply (sched_inv_switch _ _ s2 ct' i p t)|done|done|done].
    + rewrite lookup_insert_ne by done. by destruct (departed ct' && (i =? t_priority ct)).
    + cbn. by destruct (departed ct' && (i =? t_priority ct)).
  - split_and!; [done|done|done|right; done].
Qed.

Lemma task_exit_leaves_witness :
  exists s', task_exit demo_env 3 demo_sched = Ok (tt, s') /\ current_task s' = 2100.
Proof.
  destruct (task_exit_leaves demo_env (list_to_map demo_queues) demo_sched (demo_task 5 RUNNING) [] [2100] 3)
    as (s' & E & _).
  - reflexivity.
  - exact demo_sched_inv.
  - vm_compute. reflexivity.
  - cbn. lia.
  - vm_compute. reflexivity.
  - exists s'. split; [exact E|]. apply (f_equal (fun o => match o with Ok (_, s) => current_task s | Err _ => 0 end)) in E.
    vm_compute in E. symmetry. exact E.
Defined.

(** The run queues of priority [i] and above (smaller index) hold only blocked
    tasks. *)
Definition blocked_upto (a : Z) (f : gmap Z (list Z)) (s : kst) (i : Z) : Prop :=
  blocked_above a f s (i + 1).

(** A task at the end of its queue that has a higher priority than the running
    one is picked, when nobody before it can run. *)
Lemma pick_newcomer a f s ct i q t :
  0 <= i < t_priority ct -> t_priority ct < 8 -> f !! queue_head a i = Some (q ++ [t]) ->
  not_blocked s t = true ->
  (forall p, p ∈ q -> not_blocked s p = false) -> blocked_above a f s i ->
  pick_spec a f s ct = Some (i, t).
Proof.
  intros Hi Hct Hq Ht Hsame Habove. unfold pick_spec. rewrite (pick_from_skip _ _ _ _ _ _ i); [| |lia].
  - replace (8 - Z.to_nat (i - 0))%nat with (S (7 - Z.to_nat i)) by lia.
    cbn [pick_from]. unfold candidate at 1. rewrite Hq, bool_decide_false by (by destruct q).
    destruct (Z.eqb_spec i (t_priority ct)); [lia|]. cbn [negb].
    rewrite first_ready_app, (proj2 (first_ready_none s q) Hsame). cbn. by rewrite Ht.
  - intros k Hk. unfold candidate. destruct (f !! queue_head a k) as [qk|] eqn:Hqk; [|done].
    case_bool_decide; [done|]. destruct (Z.eqb_spec k (t_priority ct)); [lia|]. cbn [negb].
    apply first_ready_none. intros p Hp. by apply (Habove k qk p).
Qed.

(** [C31] Waking preempts: when the task that is woken has a higher priority than
    the running task and nothing else at its priority or above can run, the
    waker switches to it at once; the task is [RUNNING], at the end of the queue
    of its priority. *)
Theorem wake_preempts E f s ct t tk q :
  resume E = (fun _ _ => ret tt) ->
  sched_inv (all_task E) f s -> cur_ok (all_task E) f s ct ->
  tasks s !! t = Some tk -> 0 <= t_priority tk < t_priority ct -> t <> current_task s ->
  f !! queue_head (all_task E) (t_priority tk) = Some q -> loose (links s) f t ->
  blocked_upto (all_task E) f s (t_priority tk) ->
  let f' := <[queue_head (all_task E) (t_priority tk) := q ++ [t]]> f in
  exists s', try_to_wake_up E t s = Ok (0, s') /\ sched_inv (all_task E) f' s' /\
    current_task s' = t /\ tasks s' !! t = Some (with_state RUNNING tk) /\
    switches s' = (current_task s, t) :: switches s.
Proof.
  intros Hres Hinv Hcur Ht Hpr Hne Hq Hlo Hblk f'.
  set (tk' := with_state READY tk).
  destruct (wp_elim (try_to_wake_up E t) (fun r s' => r = 0 /\ sched_inv (all_task E) f' s' /\
    current_task s' = t /\ tasks s' !! t = Some (with_state RUNNING tk) /\
    switches s' = (current_task s, t) :: switches s) s) as (r & s' & Hrun & -> & H); [|by exists s'].
  unfold try_to_wake_up. wp_simpl. eapply wp_set_task_state; [exact Ht|]. fold tk'. wp_simpl.
  apply wp_enter_any. intros c b. wp_simpl.
  set (s1 := crit_set c b _).
  assert (Hinv1 : sched_inv (all_task E) f s1).
  { apply sched_inv_crit. by eapply sched_inv_task. }
  assert (Ht1 : tasks s1 !! t = Some tk') by (cbn; by rewrite lookup_insert_eq).
  destruct Hcur as (Hct & Hprc & qc & Hqc & Hwh).
  unfold enqueue_task. eapply (wp_enqueue _ f s1 Hinv1 t tk' q); [exact Ht1|cbn; lia|exact Hq|exact Hlo|].
  intros h' b' s2 Hinv2 _. change (t_priority tk') with (t_priority tk) in *. fold f' in Hinv2.
  assert (Hct2 : tasks s2 !! current_task s2 = Some ct) by (cbn; by rewrite lookup_insert_ne).
  assert (Hcur2 : cur_ok (all_task E) f' s2 ct).
  { split; [exact Hct2|]. split; [done|]. exists qc. split.
    - unfold f'. rewrite lookup_insert_ne; [done|]. unfold queue_head. lia.
    - exact Hwh. }
  assert (Hnb : forall p, p <> t -> not_blocked s2 p = not_blocked s p).
  { intros p Hp. unfold not_blocked. cbn. by rewrite lookup_insert_ne by done. }
  assert (Hpick : pick_spec (all_task E) f' s2 ct = Some (t_priority tk, t)).
  { apply (pick_newcomer _ _ _ _ _ q); [lia|lia|unfold f'; by rewrite lookup_insert_eq| | |].
    - unfold not_blocked. cbn. by rewrite lookup_insert_eq.
    - intros p Hp. rewrite Hnb by (intros ->; apply (proj2 Hlo _ _ Hq); set_solver).
      eapply (Hblk (t_priority tk)); [lia|exact Hq|done].
    - intros j qj p Hj Hqj Hp. unfold f' in Hqj. rewrite lookup_insert_ne in Hqj by (unfold queue_head; lia).
      rewrite Hnb by (intros ->; apply (proj2 Hlo _ _ Hqj); set_solver). eapply (Hblk j); [lia|exact Hqj|done]. }
  wp_simpl. eapply wp_task_schedule; [exact Hinv2|exact Hcur2|]. rewrite Hpick.
  intros t0 Ht0 _. change (tasks s1 !! t = Some t0) in Ht0. assert (t0 = tk') as -> by congruence.
  change (current_task s2) with (current_task s). destruct (Z.eqb_spec t (current_task s)); [done|].
  rewrite Hres. wp_simpl. apply wp_exit_any. intros c' b''. wp_simpl.
  split; [done|]. split; [|split; [done|split]].
  - apply sched_inv_crit. eapply sched_inv_ext; [by eapply (sched_inv_switch _ _ s2 ct (t_priority tk) t tk')|done|done|done].
  - cbn. by rewrite lookup_insert_eq.
  - cbn. by destruct (departed ct && (t_priority tk =? t_priority ct)).
Qed.

(** A task of priority 2 that sleeps, next to the demo's two of priority 5. *)
Definition demo_sleeper : kst :=
  set_tasks (<[2300 := demo_task 2 SLEEPING]> (tasks demo_sched))
    (set_links (mk_lheap (<[2300 := 0]> (nx (links demo_sched))) (<[2300 := 0]> (pv (links demo_sched))))
       demo_sched).

Lemma wake_preempts_witness :
  exists s', try_to_wake_up demo_env 2300 demo_sleeper = Ok (0, s') /\ current_task s' = 2300.
Proof.
  destruct (wake_preempts demo_env (list_to_map demo_queues) demo_sleeper (demo_task 5 RUNNING) 2300
    (demo_task 2 SLEEPING) []) as (s' & E & _ & E2 & _).
  - reflexivity.
  - apply sched_inv_b_sound. vm_compute. reflexivity.
  - split; [vm_compute; reflexivity|]. split; [cbn; lia|].
    exists [2000; 2100]. split; [vm_compute; reflexivity|].
    change (2000 ∈ [2000; 2100]). set_solver.
  - vm_compute. reflexivity.
  - cbn. lia.
  - vm_compute. congruence.
  - vm_compute. reflexivity.
  - split; [split; eexists; vm_compute; reflexivity|]. intros hd l Hl.
    apply elem_of_list_to_map_2 in Hl. unfold demo_queues in Hl.
    apply list_elem_of_fmap in Hl as (i & [= -> ->] & Hi%elem_of_seqZ).
    unfold queue_head. destruct (i =? 5); [|destruct (i =? 7)]; set_solver by lia.
  - intros j q p Hj Hq Hp. cbn in Hj. assert (j = 0 \/ j = 1 \/ j = 2) as Hc by lia.
    destruct Hc as [ -> | [ -> | -> ]]; vm_compute in Hq; injection Hq as <-;
      apply elem_of_nil in Hp; destruct Hp.
  - exists s'. split; [exact E|exact E2].
Defined.

(** Interrupts stay off in a task that is started by a blocked [down]: the
    depth of critical sections is global and a contended [down] waits at depth
    two, while the first code of a new task leaves one section only.  Its entry
    function then runs at depth one with interrupts disabled. *)
Theorem new_task_runs_masked E waiter_of sem s t s1 n tn :
  critical_section_count s = 0 ->
  down_begin waiter_of sem s = Ok (Some t, s1) -> tasks s1 !! n = Some tn ->
  exists s2, initial_task_func E (set_current_task n s1) =
      (r <- entry_code E (t_entry tn) (t_args tn) ;; task_exit E r) s2 /\
    current_task s2 = n /\ critical_section_count s2 = 1 /\ ints_on s2 = false.
Proof.
  intros Hc Hd Hn.
  assert (H1 : critical_section_count s1 = 2 /\ ints_on s1 = false).
  { revert Hd. unfold down_begin, enter_critical_section, arch_disable_ints, rd_sem, lift_opt,
      bind, gets, modify, ret, fail. rewrite Hc. cbn [Z.eqb].
    cbn [sems set_critical_section_count set_ints_on].
    destruct (sems s !! sem) as [cnt|]; [|done]. destruct (0 <? cnt).
    - destruct (wr_sem _ _ _) as [[[] s3]|e]; [|done].
      destruct (exit_critical_section s3) as [[[] s4]|e]; done.
    - unfold on_links, zoom. cbn [links current_task set_critical_section_count set_ints_on critical_section_count].
      destruct (list_add_tail _ _ _) as [[[] h']|e]; [|done].
      unfold set_task_state, wr_task, rd_task, lift_opt, bind, gets, modify, ret, fail. cbn.
      destruct (tasks s !! current_task s) as [ct|]; [|done]. cbn. rewrite Hc. change (s32 (0 + 1)) with 1. cbn [Z.eqb].
      intros [= _ <-]. done. }
  destruct H1 as [H1 H2].
  unfold initial_task_func, exit_critical_section, rd_task, lift_opt, bind, gets, modify, ret. cbn.
  rewrite H1. change (s32 (2 - 1)) with 1. cbn. rewrite Hn. eexists. split; [reflexivity|]. done.
Qed.

Lemma new_task_runs_masked_witness :
  exists s1 s2, down_begin demo_waiter 3000 (demo_sem 0) = Ok (Some 2000, s1) /\
    initial_task_func demo_env (set_current_task 2100 s1) = task_exit demo_env 0 s2 /\ ints_on s2 = false.
Proof.
  set (s1 := run (down_begin demo_waiter 3000) (demo_sem 0)).
  destruct (new_task_runs_masked demo_env demo_waiter 3000 (demo_sem 0) 2000 s1 2100 (demo_task 5 READY))
    as (s2 & E1 & _ & _ & E2).
  - reflexivity.
  - vm_compute. reflexivity.
  - vm_compute. reflexivity.
  - exists s1, s2. split; [vm_compute; reflexivity|]. split; [exact E1|exact E2].
Defined.
