(* ===== verification/WaitQueue.v ===== *)
(** * kernel/wait_queue.c and kernel/completion.c

    A wait queue is a lock and a list of entries, each with the function that
    wakes its task.  A completion is a counter and a wait queue.  Lists are in
    the shared heap, entries in [waits], counters in [dones]. *)

From S2P Require Import Prelude KList Bitops KState Sched Timer Semaphore Env PageAlloc Slob Alloc Task.

Definition WQ_FLAG_EXCLUSIVE : Z := 1.

(** [&q->lock], [&q->task_list] of a [wait_queue_head_t]; [&wait->task_list] *)
Definition q_lock (q : Z) : Z := q.
Definition q_list (q : Z) : Z := q + 12.
Definition w_node (w : Z) : Z := w + 12.
Definition w_of_node (a : Z) : Z := a - 12.

Definition wr_wait (w : Z) (g : wait_queue_entry -> wait_queue_entry) : M kst unit :=
  e <- rd_wait w ;; modify (fun s => set_waits (<[w := g e]> (waits s)) s).
Definition with_flags (v : Z) (e : wait_queue_entry) : wait_queue_entry :=
  mk_wait v (wq_private e) (wq_func e).

(** [DECLARE_WAITQUEUE]: a local entry with NULL links *)
Definition DECLARE_WAITQUEUE (w tsk : Z) : M kst unit :=
  modify (fun s => set_waits (<[w := mk_wait 0 tsk WF_default_wake_function]> (waits s)) s) ;;;
  on_links (wr_next (w_node w) NULL) ;;; on_links (wr_prev (w_node w) NULL).

(** include/kernel/wait_queue.h *)
Definition init_waitqueue_entry (q p : Z) : M kst unit :=
  wr_wait q (fun _ => mk_wait 0 p WF_default_wake_function).
Definition init_waitqueue_func_entry (q : Z) (func : wait_queue_func) : M kst unit :=
  wr_wait q (fun _ => mk_wait 0 NULL func).
Definition waitqueue_active (q : Z) : M kst bool :=
  e <- on_links (list_empty (q_list q)) ;; ret (negb e).
Definition __add_wait_queue (head new : Z) : M kst unit :=
  on_links (list_add (w_node new) (q_list head)).
Definition set_exclusive (wait : Z) : M kst unit :=
  wr_wait wait (fun e => with_flags (Z.lor (wq_flags e) WQ_FLAG_EXCLUSIVE) e).
Definition __add_wait_queue_exclusive (q wait : Z) : M kst unit :=
  set_exclusive wait ;;; __add_wait_queue q wait.
Definition __add_wait_queue_tail (head new : Z) : M kst unit :=
  on_links (list_add_tail (w_node new) (q_list head)).
Definition __add_wait_queue_tail_exclusive (q wait : Z) : M kst unit :=
  set_exclusive wait ;;; __add_wait_queue_tail q wait.
Definition __remove_wait_queue (head old : Z) : M kst unit :=
  on_links (list_del (w_node old)).

Definition __init_waitqueue_head (q : Z) : M kst unit :=
  sema_init (q_lock q) 1 ;;; on_links (INIT_LIST_HEAD (q_list q)).

Section WaitQueue.
Context (E : env) {A : Allocator kst}.

Definition add_wait_queue (q wait : Z) : M kst unit :=
  wr_wait wait (fun e => with_flags (Z.land (wq_flags e) (u32 (Z.lnot WQ_FLAG_EXCLUSIVE))) e) ;;;
  down E (q_lock q) ;;;
  __add_wait_queue q wait ;;;
  up (q_lock q).

Definition add_wait_queue_exclusive (q wait : Z) : M kst unit :=
  set_exclusive wait ;;;
  down E (q_lock q) ;;;
  __add_wait_queue_tail q wait ;;;
  up (q_lock q).

Definition remove_wait_queue (q wait : Z) : M kst unit := __remove_wait_queue q wait.

(** [curr->func(curr)] *)
Definition wake_func (curr : Z) : M kst Z :=
  e <- rd_wait curr ;;
  match wq_func e with
  | WF_default_wake_function => default_wake_function E curr
  | WF_other c => wake_other E c curr
  end.

(** [list_for_each_entry_safe]: the loop carries the entry, the saved next node
    and what is left of [nr_exclusive]. *)
Definition __wake_up_common (fuel : nat) (q nr_exclusive : Z) : M kst unit :=
  first <- on_links (rd_next (q_list q)) ;;
  second <- on_links (rd_next first) ;;
  loop fuel (fun '(pos, next, nr) =>
      if pos =? q_list q then ret (inr tt) else
      let curr := w_of_node pos in
      e <- rd_wait curr ;;
      let flags := wq_flags e in
      r <- wake_func curr ;;
      let '(stop, nr) :=
        if negb (r =? 0) then
          if negb (Z.land flags WQ_FLAG_EXCLUSIVE =? 0)
          then (s32 (nr - 1) =? 0, s32 (nr - 1)) else (false, nr)
        else (false, nr) in
      if (stop : bool) then ret (inr tt)
      else n <- on_links (rd_next next) ;; ret (inl (next, n, nr))) (first, second, nr_exclusive).

Definition __wake_up (fuel : nat) (q nr_exclusive : Z) : M kst unit :=
  down E (q_lock q) ;;; __wake_up_common fuel q nr_exclusive ;;; up (q_lock q).
Definition __wake_up_locked (fuel : nat) (q nr : Z) : M kst unit := __wake_up_common fuel q nr.
Definition wake_up (fuel : nat) (x : Z) : M kst unit := __wake_up fuel x 1.

Definition finish_wait (q wait : Z) : M kst unit :=
  set_current_state RUNNING ;;;
  e <- on_links (list_empty_careful (w_node wait)) ;;
  if negb e then
    down E (q_lock q) ;;; on_links (list_del_init (w_node wait)) ;;; up (q_lock q)
  else ret tt.

(** ** kernel/completion.c *)

(** [&x->wait] *)
Definition c_wait (x : Z) : Z := x + 4.

Definition rd_done (x : Z) : M kst Z := m <- gets dones ;; lift_opt (bad_ptr x) (m !! x).
Definition wr_done (x v : Z) : M kst unit :=
  rd_done x ;;; modify (fun s => set_dones (<[x := u32 v]> (dones s)) s).

Definition init_completion (x : Z) : M kst unit :=
  modify (fun s => set_dones (<[x := 0]> (dones s)) s) ;;; __init_waitqueue_head (c_wait x).
Definition reinit_completion (x : Z) : M kst unit := wr_done x 0.

Definition complete (fuel : nat) (x : Z) : M kst unit :=
  d <- rd_done x ;; wr_done x (d + 1) ;;; __wake_up_locked fuel (c_wait x) 1.

Definition UINT_MAX : Z := 4294967295.
Definition complete_all (fuel : nat) (x : Z) : M kst unit :=
  d <- rd_done x ;; wr_done x (d + UINT_MAX / 2) ;;; __wake_up_locked fuel (c_wait x) 0.

(** The [do ... while] of [do_wait_for_common], at most [fuel] turns. *)
Definition do_wait_for_common (fuel : nat) (x : Z) (action : Z -> M kst Z) (timeout : Z)
    (state : task_state) : M kst Z :=
  d <- rd_done x ;;
  r <- (if d =? 0 then
          cur <- gets current_task ;;
          let wait := wait_of E cur in
          DECLARE_WAITQUEUE wait cur ;;;
          __add_wait_queue_tail_exclusive (c_wait x) wait ;;;
          timeout <- loop fuel (fun timeout =>
              set_current_state state ;;;
              timeout <- action timeout ;;
              d <- rd_done x ;;
              if (d =? 0) && negb (timeout =? 0) then ret (inl timeout) else ret (inr timeout)) timeout ;;
          __remove_wait_queue (c_wait x) wait ;;;
          d <- rd_done x ;;
          ret (if d =? 0 then inl timeout else inr timeout)
        else ret (inr timeout)) ;;
  match r with
  | inl timeout => ret timeout
  | inr timeout =>
      d <- rd_done x ;; wr_done x (d - 1) ;;;
      ret (if negb (timeout =? 0) then 0 else 1)
  end.

Definition __wait_for_common (fuel : nat) (x : Z) (action : Z -> M kst Z) (timeout : Z)
    (state : task_state) : M kst Z :=
  down E (q_lock (c_wait x)) ;;;
  timeout <- do_wait_for_common fuel x action timeout state ;;
  up (q_lock (c_wait x)) ;;;
  ret timeout.

Definition wait_for_common (fuel : nat) (x timeout : Z) (state : task_state) : M kst Z :=
  __wait_for_common fuel x (schedule_timeout E) timeout state.

Definition wait_for_completion (fuel : nat) (x : Z) : M kst unit :=
  wait_for_common fuel x MAX_SCHEDULE_TIMEOUT SLEEPING ;;; ret tt.

Definition wait_for_completion_timeout (fuel : nat) (x timeout : Z) : M kst Z :=
  r <- wait_for_common fuel x (s32 timeout) SLEEPING ;; ret (u32 r).

Definition completion_done (x : Z) : M kst Z :=
  down E (q_lock (c_wait x)) ;;;
  d <- rd_done x ;;
  let r := if d =? 0 then 0 else 1 in
  up (q_lock (c_wait x)) ;;;
  ret r.
End WaitQueue.

(** ** Lemmas *)

Lemma default_wake_zero E curr s r s' : default_wake_function E curr s = Ok (r, s') -> r = 0.
Proof.
  unfold default_wake_function, try_to_wake_up, bind, ret. intros H.
  repeat (case_match; try done). by simplify_eq.
Qed.

Lemma wake_func_zero E curr s r s' :
  (forall c w s r s', wake_other E c w s = Ok (r, s') -> r = 0) ->
  wake_func E curr s = Ok (r, s') -> r = 0.
Proof.
  intros Ho. unfold wake_func, bind. destruct (rd_wait curr s) as [[e s1]|]; [|done].
  destruct (wq_func e); [apply default_wake_zero|apply Ho].
Qed.

Lemma wp_rd_done s x d (Q : Z -> kst -> Prop) :
  dones s !! x = Some d -> Q d s -> wp (rd_done x) Q s.
Proof. intros H HQ. unfold rd_done. wp_simpl. by rewrite H. Qed.

Lemma wp_wr_done s x d v (Q : unit -> kst -> Prop) :
  dones s !! x = Some d -> Q tt (set_dones (<[x := u32 v]> (dones s)) s) -> wp (wr_done x v) Q s.
Proof. intros H HQ. unfold wr_done. wp_simpl. eapply wp_rd_done; [done|]. by wp_simpl. Qed.

Lemma wp_wake_up_none E f s q nr n (Q : unit -> kst -> Prop) :
  lists (links s) f -> f !! q_list q = Some [] -> Q tt s ->
  wp (__wake_up_common E (S n) q nr) Q s.
Proof.
  intros Hl Hf HQ. unfold __wake_up_common. wp_simpl.
  pose proof (lists_ring _ _ Hl _ _ Hf) as Hd. pose proof (dlist_first _ _ _ Hd) as Hn.
  apply wp_on_links. eapply wp_rd_next; [exact Hn|]. wp_simpl. apply wp_on_links.
  eapply wp_rd_next; [exact Hn|]. cbn [loop heado head default from_option id]. wp_simpl.
  rewrite Z.eqb_refl. wp_simpl. by destruct s.
Qed.

(** A completion that has been completed is consumed at once. *)
Lemma wp_do_wait_done E s x d action timeout st n (Q : Z -> kst -> Prop) :
  dones s !! x = Some d -> 0 < d < 4294967296 ->
  Q (if negb (timeout =? 0) then 0 else 1) (set_dones (<[x := d - 1]> (dones s)) s) ->
  wp (do_wait_for_common E n x action timeout st) Q s.
Proof.
  intros Hd Hr HQ. unfold do_wait_for_common. wp_simpl. eapply wp_rd_done; [exact Hd|].
  destruct (Z.eqb_spec d 0); [lia|]. wp_simpl. eapply wp_rd_done; [exact Hd|]. wp_simpl.
  eapply wp_wr_done; [exact Hd|]. wp_simpl. by rewrite u32_small by lia.
Qed.

Lemma insert_same_out h a u v :
  node h a -> same_out [a] h (mk_lheap (<[a := u]> (nx h)) (<[a := v]> (pv h))).
Proof.
  intros [Hn Hp]. split; cbn.
  - intros b Hb. rewrite lookup_insert_ne; [done|]. set_solver.
  - intros b Hb. rewrite lookup_insert_ne; [done|]. set_solver.
  - intros b. rewrite lookup_insert. case_decide; [subst; split; eauto|done].
  - intros b. rewrite lookup_insert. case_decide; [subst; split; eauto|done].
Qed.

Lemma wp_DECLARE_WAITQUEUE f s w t (Q : unit -> kst -> Prop) :
  lists (links s) f -> loose (links s) f (w_node w) ->
  (forall h', lists h' f -> loose h' f (w_node w) ->
     Q tt (set_links h' (set_waits (<[w := mk_wait 0 t WF_default_wake_function]> (waits s)) s))) ->
  wp (DECLARE_WAITQUEUE w t) Q s.
Proof.
  intros Hl Hlo HQ. unfold DECLARE_WAITQUEUE. wp_simpl. apply wp_on_links.
  pose proof (insert_same_out _ _ NULL NULL (proj1 Hlo)) as Hs. destruct (proj1 Hlo) as [Hn Hp].
  eapply wp_wr_next; [exact Hn|]. wp_simpl. apply wp_on_links. eapply wp_wr_prev; [exact Hp|].
  apply HQ.
  - eapply lists_same_out; [exact Hl|exact Hs|]. by intros a ->%list_elem_of_singleton.
  - by eapply loose_same_out.
Qed.

Lemma wp_rd_wait s w e (Q : wait_queue_entry -> kst -> Prop) :
  waits s !! w = Some e -> Q e s -> wp (rd_wait w) Q s.
Proof. intros H HQ. unfold rd_wait. wp_simpl. by rewrite H. Qed.

(** ** Properties *)

(** [wake_up] wakes everybody: the number of exclusive waiters to wake has
    no effect at all, because the kernel's wake function returns 0 and the loop
    counts only wake functions that return something else. *)
Theorem wake_up_ignores_nr E fuel q nr nr' s :
  (forall c w s r s', wake_other E c w s = Ok (r, s') -> r = 0) ->
  __wake_up_common E fuel q nr s = __wake_up_common E fuel q nr' s.
Proof.
  intros Ho. unfold __wake_up_common, bind.
  destruct (on_links (rd_next (q_list q)) s) as [[first s1]|e]; [|done].
  destruct (on_links (rd_next first) s1) as [[second s2]|e]; [|done].
  generalize first, second, s2. clear first second s1 s2.
  induction fuel as [|fuel IH]; intros pos next s1; cbn [loop]; [done|]. unfold bind.
  destruct (pos =? q_list q); [done|].
  destruct (rd_wait (w_of_node pos) s1) as [[e s2]|]; [|done].
  destruct (wake_func E (w_of_node pos) s2) as [[r s3]|] eqn:Ew; [|done].
  apply (wake_func_zero _ _ _ _ _ Ho) in Ew as ->. cbn [Z.eqb negb].
  destruct (on_links (rd_next next) s3) as [[n s4]|]; [|done]. apply IH.
Qed.

Lemma wake_up_ignores_nr_witness :
  __wake_up_common demo_env 5 4004 1 (demo_sem 1) = __wake_up_common demo_env 5 4004 0 (demo_sem 1).
Proof.
  apply (wake_up_ignores_nr demo_env 5 4004 1 0 (demo_sem 1)).
  intros c w s r s' H. cbn in H. unfold ret in H. congruence.
Defined.

(** [C33] A completion is not lost: [complete] with nobody waiting is remembered,
    and a later [wait_for_completion] returns at once, without giving up the
    processor, and uses it up. *)
Theorem complete_then_wait E `{Allocator kst} f s x d n :
  lists (links s) f -> f !! q_list (c_wait x) = Some [] ->
  f !! wait_list (q_lock (c_wait x)) = Some [] -> sems s !! q_lock (c_wait x) = Some 1 ->
  dones s !! x = Some d -> 0 <= d < 4294967295 ->
  exists s', (complete E (S n) x ;;; wait_for_completion E n x) s = Ok (tt, s') /\
    dones s' = dones s /\ links s' = links s /\ sems s' = sems s /\ switches s' = switches s /\
    current_task s' = current_task s.
Proof.
  intros Hl Hf Hw Hs Hd Hr.
  destruct (wp_elim (complete E (S n) x ;;; wait_for_completion E n x) (fun _ s' =>
    dones s' = dones s /\ links s' = links s /\ sems s' = sems s /\ switches s' = switches s /\
    current_task s' = current_task s) s) as ([] & s' & Hrun & Hpost); [|by exists s'].
  wp_simpl. unfold complete. wp_simpl. eapply wp_rd_done; [exact Hd|]. wp_simpl.
  eapply wp_wr_done; [exact Hd|]. rewrite u32_small by lia.
  eapply wp_wake_up_none; [exact Hl|exact Hf|].
  unfold wait_for_completion, wait_for_common, __wait_for_common. wp_simpl.
  eapply wp_down; [exact Hs|lia|]. intros c b. wp_simpl.
  eapply wp_do_wait_done; [cbn; by rewrite lookup_insert_eq|lia|]. wp_simpl.
  eapply wp_up; [exact Hl|exact Hw|cbn; by rewrite lookup_insert_eq|lia|]. intros c' b'. wp_simpl.
  cbn. rewrite !insert_insert_eq. replace (d + 1 - 1) with d by lia.
  rewrite (insert_id (dones s)), (insert_id (sems s)) by done. done.
Qed.

Definition demo_completion : kst :=
  run (init_completion 4000)
    (let s := demo_sem 1 in
     set_links (mk_lheap (demo_nodes [4008; 4016; 2082; 2182] ∪ nx (links s))
                         (demo_nodes [4008; 4016; 2082; 2182] ∪ pv (links s))) s).

Lemma complete_then_wait_witness :
  exists s', (complete demo_env 1 4000 ;;; wait_for_completion demo_env (A := kernel_allocator demo_env) 0 4000) demo_completion = Ok (tt, s') /\
    dones s' = dones demo_completion.
Proof.
  destruct (complete_then_wait demo_env (H := kernel_allocator demo_env) (list_to_map [(4016, []); (4008, [])]) demo_completion 4000 0 0)
    as (s' & E1 & E2 & _).
  - apply lists_b_sound. vm_compute. reflexivity.
  - reflexivity.
  - reflexivity.
  - reflexivity.
  - reflexivity.
  - lia.
  - exists s'. split; [exact E1|exact E2].
Defined.

(** The result of a wait with a timeout does not tell what happened: 0 comes
    back when the event was there within the time, and 0 comes back when the
    time ran out. *)
Theorem completion_timeout_ambiguous E f s x d timeout st n action l :
  0 < timeout -> 0 < d < 4294967296 ->
  (forall t s, action t s = Ok (0, s)) ->
  is_Some (tasks s !! current_task s) -> lists (links s) f -> f !! q_list (c_wait x) = Some l ->
  loose (links s) f (w_node (wait_of E (current_task s))) ->
  result (do_wait_for_common E (S n) x action timeout st (set_dones (<[x := d]> (dones s)) s)) = Some 0 /\
  result (do_wait_for_common E (S n) x action timeout st (set_dones (<[x := 0]> (dones s)) s)) = Some 0.
Proof.
  intros Ht Hd Hact [ct Hct] Hl Hf Hlo.
  assert (Hres : forall (m : M kst Z) s0, wp m (fun r _ => r = 0) s0 -> result (m s0) = Some 0).
  { intros m s0 Hwp. destruct (wp_elim _ _ _ Hwp) as (r & s' & -> & ->). done. }
  split; apply Hres.
  - eapply wp_do_wait_done; [cbn; by rewrite lookup_insert_eq|done|].
    destruct (Z.eqb_spec timeout 0); [lia|done].
  - unfold do_wait_for_common. wp_simpl. eapply wp_rd_done; [cbn; by rewrite lookup_insert_eq|].
    cbn [Z.eqb]. wp_simpl. cbn [current_task set_dones]. set (w := wait_of E (current_task s)) in *.
    eapply wp_DECLARE_WAITQUEUE; [exact Hl|exact Hlo|]. intros h1 Hl1 Hlo1. wp_simpl.
    unfold __add_wait_queue_tail_exclusive, set_exclusive, wr_wait, __add_wait_queue_tail. wp_simpl.
    eapply wp_rd_wait; [cbn; by rewrite lookup_insert_eq|]. wp_simpl. apply wp_on_links.
    eapply fam_list_add_tail; [exact Hl1|exact Hf|exact Hlo1|]. intros h2 Hl2 _.
    cbn [loop]. wp_simpl. unfold set_current_state. wp_simpl.
    eapply wp_wr_task; [exact Hct|]. wp_simpl. eapply wp_intro; [apply Hact|]. wp_simpl.
    eapply wp_rd_done; [cbn; by rewrite lookup_insert_eq|]. cbn [Z.eqb negb andb]. wp_simpl.
    unfold __remove_wait_queue. apply wp_on_links.
    eapply (fam_list_del _ _ Hl2 _ l (w_node w) []); [by rewrite lookup_insert_eq|].
    intros h3 _ _ _ _ _. wp_simpl. eapply wp_rd_done; [cbn; by rewrite lookup_insert_eq|].
    cbn [Z.eqb]. by wp_simpl.
Qed.

Lemma completion_timeout_ambiguous_witness :
  result (do_wait_for_common demo_env 1 4000 (fun _ s => Ok (0, s)) 10 SLEEPING
            (set_dones (<[4000 := 1]> (dones demo_completion)) demo_completion)) = Some 0 /\
  result (do_wait_for_common demo_env 1 4000 (fun _ s => Ok (0, s)) 10 SLEEPING
            (set_dones (<[4000 := 0]> (dones demo_completion)) demo_completion)) = Some 0.
Proof.
  apply (completion_timeout_ambiguous demo_env (list_to_map [(4016, []); (4008, [])]) demo_completion
    4000 1 10 SLEEPING 0 (fun _ s => Ok (0, s)) []).
  - lia.
  - lia.
  - reflexivity.
  - eexists. vm_compute. reflexivity.
  - apply lists_b_sound. vm_compute. reflexivity.
  - reflexivity.
  - split; [split; eexists; vm_compute; reflexivity|]. intros hd l Hl.
    apply elem_of_list_to_map_2 in Hl.
    apply elem_of_cons in Hl as [[= -> ->]|[= -> ->]%list_elem_of_singleton];
      change (w_node (wait_of demo_env (current_task demo_completion))) with 2082; set_solver by lia.
Defined.

(** Two tasks of priority 5 run, a task of priority 7 waits for the completion;
    whoever gets the processor gives it back later. *)
Definition demo_back : env :=
  mk_env 1000 1100 5000 6000 6010 6020 6030 0 (fun t => t + 50) (fun t => t + 70)
    (fun old _ => modify (set_current_task old)) (fun _ _ => ret 0) (fun _ _ => ret 0)
    (fun _ _ _ _ => ret INT_NO_RESCHEDULE) (fun _ _ => ret tt) 9.
Definition demo_waiting : kst :=
  let s := demo_completion in
  run (sched_fifo_enqueue_task 1000 2000 ;;; sched_fifo_enqueue_task 1000 2200 ;;;
       DECLARE_WAITQUEUE 2170 2100 ;;; __add_wait_queue_tail_exclusive 4004 2170)
    (set_tasks (list_to_map [(2000, demo_task 5 RUNNING); (2200, demo_task 5 READY);
                             (2100, demo_task 7 SLEEPING)]) s).

(** Completing twice before the waiter has run destroys the run queue: the
    waker does not take the entry off the wait queue, so the second [complete]
    enqueues the task again while it is still queued, its list node points to
    itself, and a walk over the queue does not end. *)
Theorem complete_twice_breaks_queue :
  (exists s1, complete demo_back 5 4000 demo_waiting = Ok (tt, s1) /\
     lists (links s1) (list_to_map [(queue_head 1000 7, [2100]); (queue_head 1000 5, [2000; 2200])])) /\
  result ((complete demo_back 5 4000 ;;; complete demo_back 5 4000 ;;; on_links (rd_next 2100)) demo_waiting)
    = Some 2100 /\
  (complete demo_back 5 4000 ;;; complete demo_back 5 4000 ;;;
   on_links (list_for_each_nodes (queue_head 1000 7))) demo_waiting = Err OutOfFuel.
Proof.
  split; [|split; vm_compute; reflexivity].
  eexists. split; [vm_compute; reflexivity|]. apply lists_b_sound. vm_compute. reflexivity.
Qed.
