(* ===== verification/Workqueue.v ===== *)
(** * kernel/workqueue.c: deferred work

    Work items are queued on a list under a lock and run, in order, by a worker
    task.  A work item's [pending] bit keeps it from being queued twice.  The
    objects inside [struct workqueue_struct] and [struct work_struct] (lock,
    lists, wait queues, completion, timer) are at their offsets; the remaining
    fields are in [wqs] and [works].  [DEBUG] says whether [assert] is compiled.
    The last part puts the kernel's timer functions into [timer_tick]. *)

From S2P Require Import Prelude KList Bitops KState Sched Timer Semaphore Env PageAlloc Slob Alloc Task WaitQueue.

Definition WQ_STACK_SIZE : Z := 8192.
Definition sizeof_wq : Z := 96.

(** Members of [struct workqueue_struct] *)
Definition wq_lock (wq : Z) : Z := wq.
Definition wq_worklist (wq : Z) : Z := wq + 20.
Definition wq_more_work (wq : Z) : Z := wq + 28.
Definition wq_work_done (wq : Z) : Z := wq + 48.
Definition wq_exit (wq : Z) : Z := wq + 72.
(** Members of [struct work_struct] *)
Definition wk_entry (wk : Z) : Z := wk + 4.
Definition wk_of_entry (a : Z) : Z := a - 4.
Definition wk_timer (wk : Z) : Z := wk + 24.

Definition rd_work (wk : Z) : M kst work_struct :=
  m <- gets works ;; lift_opt (bad_ptr wk) (m !! wk).
Definition wr_work (wk : Z) (g : work_struct -> work_struct) : M kst unit :=
  w <- rd_work wk ;; modify (fun s => set_works (<[wk := g w]> (works s)) s).
Definition rd_wq (wq : Z) : M kst workqueue_struct :=
  m <- gets wqs ;; lift_opt (bad_ptr wq) (m !! wq).
Definition wr_wq (wq : Z) (g : workqueue_struct -> workqueue_struct) : M kst unit :=
  w <- rd_wq wq ;; modify (fun s => set_wqs (<[wq := g w]> (wqs s)) s).

(** A bit operation on [work->pending] *)
Definition on_pending {A} (wk : Z) (op : M (list Z) A) : M kst A :=
  w <- rd_work wk ;;
  match op (pending w) with
  | Ok (a, p) => wr_work wk (fun w => mk_work p (wk_func w) (wk_data w) (wq_data w)) ;;; ret a
  | Err e => fail e
  end.

(** include/kernel/workqueue.h *)
Definition PREPARE_WORK (wk func data : Z) : M kst unit :=
  wr_work wk (fun w => mk_work (pending w) func data (wq_data w)).
Definition INIT_WORK (wk func data : Z) : M kst unit :=
  on_links (INIT_LIST_HEAD (wk_entry wk)) ;;;
  wr_work wk (fun w => mk_work [0] (wk_func w) (wk_data w) (wq_data w)) ;;;
  PREPARE_WORK wk func data ;;;
  init_timer_value (wk_timer wk).
Definition cancel_delayed_work (wk : Z) : M kst unit := timer_delete (wk_timer wk).

Section Workqueue.
Context (E : env) {A : Allocator kst}.
(** Turns of the loops that wait for other tasks. *)
Context (fuel : nat).
(** Whether the kernel is compiled with [DEBUG] (include/kernel/debug.h). *)
Context (DEBUG : bool).
(** The address of [worker_thread], and of the local [startup] of the creator. *)
Context (worker_code : Z) (startup_of : Z -> Z).

(** include/kernel/debug.h: with [DEBUG] the condition is tested and the machine
    halted when it is false; without it the macro is empty. *)
Definition assert_that (expr : M kst bool) : M kst unit :=
  if DEBUG then b <- expr ;; if (b : bool) then ret tt else fail Halted else ret tt.

(** What [queue_work] and the timer do with the queue. *)
Definition insert_work (wq work : Z) : M kst unit :=
  down E (wq_lock wq) ;;;
  on_links (list_add_tail (wk_entry work) (wq_worklist wq)) ;;;
  wr_wq wq (fun w => mk_wq (remove_sequence w) (s32 (insert_sequence w + 1)) (wq_task w)) ;;;
  wake_up E fuel (wq_more_work wq) ;;;
  up (wq_lock wq).

Definition queue_work (wq work : Z) : M kst Z :=
  b <- on_pending work (test_and_set_bit 0) ;;
  if negb b then
    assert_that (e <- on_links (list_empty (wk_entry work)) ;; ret (negb e)) ;;;
    wr_work work (fun w => mk_work (pending w) (wk_func w) (wk_data w) wq) ;;;
    insert_work wq work ;;;
    ret 1
  else ret 0.

Definition delayed_work_timer_fn (timer now work : Z) : M kst handler_return :=
  w <- rd_work work ;;
  insert_work (wq_data w) work ;;;
  ret INT_RESCHEDULE.

Definition queue_delayed_work (wq work delay : Z) : M kst Z :=
  b <- on_pending work (test_and_set_bit 0) ;;
  if negb b then
    assert_that (e <- on_links (list_empty (wk_entry work)) ;; ret (negb e)) ;;;
    wr_work work (fun w => mk_work (pending w) (wk_func w) (wk_data w) wq) ;;;
    oneshot_timer_add (timer_list E) (wk_timer work) delay TF_delayed_work_timer_fn work ;;;
    ret 1
  else ret 0.

(** One turn of the loop of [run_workqueue], with the lock held. *)
Definition run_turn (wq : Z) : M kst (unit + unit) :=
  e <- on_links (list_empty (wq_worklist wq)) ;;
  if (e : bool) then ret (inr tt) else
  first <- on_links (rd_next (wq_worklist wq)) ;;
  let work := wk_of_entry first in
  w <- rd_work work ;;
  n <- on_links (rd_next (wq_worklist wq)) ;;
  on_links (list_del_init n) ;;;
  up (wq_lock wq) ;;;
  assert_that (w' <- rd_work work ;; ret (negb (wq_data w' =? wq))) ;;;
  on_pending work (clear_bit 0) ;;;
  work_code E (wk_func w) (wk_data w) ;;;
  down E (wq_lock wq) ;;;
  wr_wq wq (fun w => mk_wq (s32 (remove_sequence w + 1)) (insert_sequence w) (wq_task w)) ;;;
  wake_up E fuel (wq_work_done wq) ;;;
  ret (inl tt).

Definition run_workqueue (wq : Z) : M kst unit :=
  down E (wq_lock wq) ;;;
  loop fuel (fun _ => run_turn wq) tt ;;;
  up (wq_lock wq).

(** [startup->wq] is [wq]; the completion [startup->done] is behind it. *)
Definition worker_thread (startup wq : Z) : M kst Z :=
  cur <- gets current_task ;;
  let wait := wait_of E cur in
  DECLARE_WAITQUEUE wait cur ;;;
  wr_wq wq (fun w => mk_wq (remove_sequence w) (insert_sequence w) cur) ;;;
  complete E fuel (startup + 4) ;;;
  loop fuel (fun _ =>
      add_wait_queue E (wq_more_work wq) wait ;;;
      w <- rd_wq wq ;;
      if wq_task w =? NULL then ret (inr tt) else
      e <- on_links (list_empty (wq_worklist wq)) ;;
      (if (e : bool) then schedule_timeout E MAX_SCHEDULE_TIMEOUT ;;; ret tt else ret tt) ;;;
      remove_wait_queue (wq_more_work wq) wait ;;;
      e <- on_links (list_empty (wq_worklist wq)) ;;
      (if negb e then run_workqueue wq else ret tt) ;;;
      ret (inl tt)) tt ;;;
  remove_wait_queue (wq_more_work wq) wait ;;;
  complete E fuel (wq_exit wq) ;;;
  ret 0.

Definition flush_workqueue (wq : Z) : M kst unit :=
  cur <- gets current_task ;;
  let wait := wait_of E cur in
  DECLARE_WAITQUEUE wait cur ;;;
  down E (wq_lock wq) ;;;
  w <- rd_wq wq ;;
  let sequence_needed := insert_sequence w in
  loop fuel (fun _ =>
      w <- rd_wq wq ;;
      if 0 <? s32 (sequence_needed - remove_sequence w) then
        add_wait_queue E (wq_work_done wq) wait ;;;
        up (wq_lock wq) ;;;
        schedule_timeout E MAX_SCHEDULE_TIMEOUT ;;;
        down E (wq_lock wq) ;;;
        ret (inl tt)
      else ret (inr tt)) tt ;;;
  finish_wait E (wq_work_done wq) wait ;;;
  up (wq_lock wq).

Definition create_workqueue_thread (wq : Z) : M kst Z :=
  sema_init (wq_lock wq) 1 ;;;
  wr_wq wq (fun _ => mk_wq 0 0 NULL) ;;;
  on_links (INIT_LIST_HEAD (wq_worklist wq)) ;;;
  __init_waitqueue_head (wq_more_work wq) ;;;
  __init_waitqueue_head (wq_work_done wq) ;;;
  init_completion (wq_exit wq) ;;;
  cur <- gets current_task ;;
  let startup := startup_of cur in
  init_completion (startup + 4) ;;;
  task_wq <- task_alloc E (Some [119; 111; 114; 107; 113; 117; 101; 117; 101]) WQ_STACK_SIZE 1 ;;
  if NULL =? task_wq then ret (-1) else
  r <- task_create E task_wq worker_code startup ;;
  (if 0 =? r then wait_for_completion E fuel (startup + 4) else ret tt) ;;;
  ret r.

Definition cleanup_workqueue_task (wq : Z) : M kst unit :=
  w <- rd_wq wq ;;
  if negb (wq_task w =? NULL) then
    wr_wq wq (fun w => mk_wq (remove_sequence w) (insert_sequence w) NULL) ;;;
    wake_up E fuel (wq_more_work wq) ;;;
    wait_for_completion E fuel (wq_exit wq)
  else ret tt.

Definition destroy_workqueue (wq : Z) : M kst unit :=
  flush_workqueue wq ;;; cleanup_workqueue_task wq ;;; kfree wq.

(** The memory of a new [struct workqueue_struct], with its list nodes. *)
Definition new_wq (wq : Z) : M kst unit :=
  modify (fun s => set_wqs (<[wq := mk_wq 0 0 NULL]> (wqs s)) s) ;;;
  new_node (wait_list (wq_lock wq)) ;;; new_node (wq_worklist wq) ;;;
  new_node (wait_list (q_lock (wq_more_work wq))) ;;; new_node (q_list (wq_more_work wq)) ;;;
  new_node (wait_list (q_lock (wq_work_done wq))) ;;; new_node (q_list (wq_work_done wq)) ;;;
  new_node (wait_list (q_lock (c_wait (wq_exit wq)))) ;;; new_node (q_list (c_wait (wq_exit wq))).

Definition create_workqueue : M kst Z :=
  wq <- kmalloc sizeof_wq ;;
  if wq =? NULL then ret NULL else
  new_wq wq ;;;
  r <- create_workqueue_thread wq ;;
  if r <? 0 then destroy_workqueue wq ;;; ret NULL else ret wq.

Definition schedule_work (work : Z) : M kst Z :=
  wq <- gets keventd_wq ;; queue_work wq work.
Definition schedule_delayed_work (work delay : Z) : M kst Z :=
  wq <- gets keventd_wq ;; queue_delayed_work wq work delay.
Definition flush_scheduled_work : M kst unit :=
  wq <- gets keventd_wq ;; flush_workqueue wq.
Definition current_is_keventd : M kst Z :=
  cur <- gets current_task ;;
  wq <- gets keventd_wq ;;
  w <- rd_wq wq ;;
  ret (if cur =? wq_task w then 1 else 0).
Definition init_workqueues : M kst unit :=
  wq <- create_workqueue ;;
  modify (set_keventd_wq wq) ;;;
  assert_that (k <- gets keventd_wq ;; ret (k =? NULL)).

(** The timer functions of the kernel, for [timer_tick]. *)
Definition timer_call (fn : timer_function) (timer now a : Z) : M kst handler_return :=
  match fn with
  | TF_NULL => fail NullDeref
  | TF_task_sleep_function => task_sleep_function E timer now a
  | TF_delayed_work_timer_fn => delayed_work_timer_fn timer now a
  | TF_other c => timer_other E c timer now a
  end.
End Workqueue.

(** ** Symbolic execution *)

Lemma wp_rd_work s wk w (Q : work_struct -> kst -> Prop) :
  works s !! wk = Some w -> Q w s -> wp (rd_work wk) Q s.
Proof. intros H HQ. unfold rd_work. wp_simpl. by rewrite H. Qed.
Lemma wp_wr_work s wk w g (Q : unit -> kst -> Prop) :
  works s !! wk = Some w -> Q tt (set_works (<[wk := g w]> (works s)) s) -> wp (wr_work wk g) Q s.
Proof. intros H HQ. unfold wr_work. wp_simpl. eapply wp_rd_work; [done|]. by wp_simpl. Qed.
Lemma wp_rd_wq s wq w (Q : workqueue_struct -> kst -> Prop) :
  wqs s !! wq = Some w -> Q w s -> wp (rd_wq wq) Q s.
Proof. intros H HQ. unfold rd_wq. wp_simpl. by rewrite H. Qed.
Lemma wp_wr_wq s wq w g (Q : unit -> kst -> Prop) :
  wqs s !! wq = Some w -> Q tt (set_wqs (<[wq := g w]> (wqs s)) s) -> wp (wr_wq wq g) Q s.
Proof. intros H HQ. unfold wr_wq. wp_simpl. eapply wp_rd_wq; [done|]. by wp_simpl. Qed.

Lemma wp_on_pending {A} s wk w (op : M (list Z) A) (Q : A -> kst -> Prop) :
  works s !! wk = Some w ->
  wp op (fun a p => Q a (set_works (<[wk := mk_work p (wk_func w) (wk_data w) (wq_data w)]> (works s)) s))
    (pending w) ->
  wp (on_pending wk op) Q s.
Proof.
  intros Hw Hop. unfold on_pending. wp_simpl. eapply wp_rd_work; [exact Hw|].
  destruct (wp_elim _ _ _ Hop) as (a & p & -> & HQ). wp_simpl.
  eapply wp_wr_work; [exact Hw|]. by wp_simpl.
Qed.

(** The lock and the wait queue [q] are idle: the lock is free, nobody waits for
    it or on the queue. *)
Record idle (f : gmap Z (list Z)) (s : kst) (sem : Z) : Prop := {
  id_sem : sems s !! sem = Some 1;
  id_list : f !! wait_list sem = Some []
}.

Lemma idle_ext f f' s s' sem :
  idle f s sem -> f' !! wait_list sem = f !! wait_list sem -> sems s' !! sem = sems s !! sem ->
  idle f' s' sem.
Proof. intros [H1 H2] E1 E2. split; congruence. Qed.

(** Waking an idle queue does nothing. *)
Lemma wp_wake_up_idle E f s q n (Q : unit -> kst -> Prop) :
  lists (links s) f -> f !! q_list q = Some [] -> idle f s (q_lock q) ->
  (forall c b, Q tt (crit_set c b s)) -> wp (wake_up E (S n) q) Q s.
Proof.
  intros Hl Hf [Hs Hw] HQ. unfold wake_up, __wake_up. wp_simpl.
  eapply wp_down; [exact Hs|lia|]. intros c b. wp_simpl. eapply wp_wake_up_none; [exact Hl|exact Hf|].
  eapply wp_up; [exact Hl|exact Hw|cbn; by rewrite lookup_insert_eq|lia|]. intros c' b'.
  replace (crit_set c' b' _) with (crit_set c' b' s); [apply HQ|].
  unfold crit_set. cbn. rewrite insert_insert_eq, insert_id by done. by destruct s.
Qed.

Section Run.
Context (E : env) (n : nat) (wq : Z).
(** What the work functions do that can be seen from outside: here [obs] reads
    it off the state.  They leave the lists, locks and queues alone. *)
Context (obs : kst -> list (Z * Z)).
Context (Hobs : forall s s', tasks s' = tasks s -> switches s' = switches s ->
  next_pid s' = next_pid s -> obs s' = obs s).
Context (Hcode : forall fn d s, exists s', work_code E fn d s = Ok (tt, s') /\
  links s' = links s /\ sems s' = sems s /\ works s' = works s /\ wqs s' = wqs s /\
  obs s' = obs s ++ [(fn, d)]).

(** What a worker meets: the queue [l], its lock held. *)
Record wq_inv (f : gmap Z (list Z)) (s : kst) (l : list Z) (r : Z) : Prop := {
  wi_lists : lists (links s) f;
  wi_list : f !! wq_worklist wq = Some (wk_entry <$> l);
  wi_lock : sems s !! wq_lock wq = Some 0;
  wi_wait : f !! wait_list (wq_lock wq) = Some [];
  wi_done : f !! q_list (wq_work_done wq) = Some [];
  wi_done_lock : idle f s (q_lock (wq_work_done wq));
  wi_wq : exists w, wqs s !! wq = Some w /\ remove_sequence w = r;
  wi_works : forall wk, wk ∈ l -> exists w, works s !! wk = Some w /\ length (pending w) = 1%nat
}.

Definition call_of (s : kst) (wk : Z) : Z * Z :=
  match works s !! wk with Some w => (wk_func w, wk_data w) | None => (0, 0) end.

Lemma wp_run_turn f s wk l r (Q : unit + unit -> kst -> Prop) :
  wq_inv f s (wk :: l) r ->
  (forall s', wq_inv (<[wq_worklist wq := wk_entry <$> l]> f) s' l (s32 (r + 1)) ->
     obs s' = obs s ++ [call_of s wk] ->
     (exists w w', works s !! wk = Some w /\ works s' = <[wk := w']> (works s) /\
        wk_func w' = wk_func w /\ wk_data w' = wk_data w /\ bit_at (pending w') 0 = false) ->
     Q (inl tt) s') ->
  wp (run_turn E (S n) false wq) Q s.
Proof.
  intros [A1 A2 A3 A4 A5 A6 (w & A7 & <-) A8] HQ. unfold run_turn, assert_that. wp_simpl.
  destruct (A8 wk) as (k & Hk & Hlen); [set_solver|].
  assert (Hneq : forall hd q, f !! hd = Some q -> q = [] -> hd <> wq_worklist wq).
  { intros hd q Hq -> ->. rewrite A2 in Hq. done. }
  apply wp_on_links. eapply fam_list_empty; [exact A1|exact A2|]. rewrite bool_decide_false by done.
  wp_simpl. pose proof (lists_ring _ _ A1 _ _ A2) as Hd. pose proof (dlist_first _ _ _ Hd) as Hfst.
  cbn in Hfst. apply wp_on_links. eapply wp_rd_next; [exact Hfst|]. wp_simpl.
  replace (wk_of_entry (wk_entry wk)) with wk by (unfold wk_of_entry, wk_entry; lia).
  eapply wp_rd_work; [exact Hk|]. wp_simpl. apply wp_on_links. eapply wp_rd_next; [exact Hfst|]. wp_simpl.
  apply wp_on_links. eapply (fam_list_del_init _ _ A1 _ [] (wk_entry wk) (wk_entry <$> l)); [exact A2|].
  cbn [app]. set (f' := <[wq_worklist wq := wk_entry <$> l]> f). intros h' Hl' _ _. wp_simpl.
  assert (Hf' : forall hd q, f !! hd = Some q -> q = [] -> f' !! hd = Some []).
  { intros hd q Hq ->. unfold f'. rewrite lookup_insert_ne; [done|]. symmetry. by eapply Hneq. }
  eapply wp_up; [exact Hl'|by eapply Hf'|exact A3|lia|]. intros c b. wp_simpl.
  eapply wp_on_pending; [exact Hk|]. apply wp_clear_bit; [unfold in_bits; lia|].
  intros p' Hlen' Hbit. wp_simpl. set (s1 := set_works _ _).
  destruct (Hcode (wk_func k) (wk_data k) s1) as (s2 & Hrun & E1 & E2 & E3 & E4 & E5).
  eapply wp_intro; [exact Hrun|]. wp_simpl.
  eapply wp_down; [rewrite E2; cbn; by rewrite lookup_insert_eq|lia|]. intros c2 b2. wp_simpl.
  eapply wp_wr_wq; [cbn; rewrite E4; exact A7|]. wp_simpl.
  assert (Hlk : q_lock (wq_work_done wq) <> wq_lock wq) by (unfold q_lock, wq_work_done, wq_lock; lia).
  eapply (wp_wake_up_idle E f').
  - cbn. rewrite E1. exact Hl'.
  - by eapply Hf'.
  - destruct A6 as [B1 B2]. split; [|by eapply Hf'].
    cbn. rewrite lookup_insert_ne by done. rewrite E2. cbn. by rewrite lookup_insert_ne.
  - intros c3 b3. wp_simpl. apply HQ.
    + split; cbn.
      * rewrite E1. exact Hl'.
      * unfold f'. by rewrite lookup_insert_eq.
      * by rewrite lookup_insert_eq.
      * by eapply Hf'.
      * by eapply Hf'.
      * destruct A6 as [B1 B2]. split; [|by eapply Hf'].
        cbn. rewrite lookup_insert_ne by done. rewrite E2. cbn. by rewrite lookup_insert_ne.
      * eexists. rewrite lookup_insert_eq. by split.
      * intros wk' Hin. rewrite E3. cbn. rewrite lookup_insert. case_decide.
        -- eexists. split; [done|]. cbn. lia.
        -- apply A8. set_solver.
    + rewrite (Hobs s2) by done. rewrite E5. f_equal; [by apply Hobs|]. unfold call_of. by rewrite Hk.
    + exists k. eexists. split; [exact Hk|]. cbn. rewrite E3. split; [reflexivity|]. cbn.
      split; [done|]. split; [done|]. rewrite Hbit by lia. done.
Qed.

Lemma call_of_ext s s' wk wk' :
  (exists w w', works s !! wk = Some w /\ works s' = <[wk := w']> (works s) /\
        wk_func w' = wk_func w /\ wk_data w' = wk_data w /\ bit_at (pending w') 0 = false) ->
  call_of s' wk' = call_of s wk'.
Proof.
  intros (w & w' & Hw & E1 & E2 & E3 & _). unfold call_of. rewrite E1, lookup_insert.
  case_decide; [subst; rewrite Hw; congruence|done].
Qed.

Lemma wp_run_loop f s l r m (Q : unit -> kst -> Prop) :
  wq_inv f s l r -> (length l < m)%nat ->
  (forall s' r', wq_inv (<[wq_worklist wq := []]> f) s' [] r' ->
     obs s' = obs s ++ (call_of s <$> l) ->
     (forall wk, wk ∈ l -> exists w, works s' !! wk = Some w /\ bit_at (pending w) 0 = false) ->
     (forall wk, wk ∉ l -> works s' !! wk = works s !! wk) ->
     s32 r' = s32 (r + Z.of_nat (length l)) ->
     Q tt s') ->
  wp (loop m (fun _ => run_turn E (S n) false wq) tt) Q s.
Proof.
  revert f s r m. induction l as [|wk l IH]; intros f s r m Hinv Hm HQ;
    (destruct m as [|m]; [cbn in Hm; lia|]); cbn [loop]; wp_simpl.
  - unfold run_turn, assert_that. wp_simpl. apply wp_on_links.
    eapply fam_list_empty; [apply Hinv|apply Hinv|]. rewrite bool_decide_true by done. wp_simpl.
    replace (set_links (links s) s) with s by (by destruct s).
    apply (HQ s r); [|by rewrite app_nil_r|set_solver|done|cbn; f_equal; lia].
    by rewrite insert_id by apply Hinv.
  - eapply wp_run_turn; [exact Hinv|]. intros s1 Hinv1 Hobs1 Hwk. cbv iota.
    eapply IH; [exact Hinv1|cbn in Hm; lia|]. rewrite insert_insert_eq.
    intros s' r' Hinv' Hobs' Hbits Hout Hr'.
    assert (Hnin : wk ∉ l).
    { destruct (lists_ring _ _ (wi_lists _ _ _ _ Hinv) _ _ (wi_list _ _ _ _ Hinv)) as [Hnd _].
      apply NoDup_cons in Hnd as [_ Hnd]. cbn in Hnd. apply NoDup_cons in Hnd as [Hnd _].
      intros Hin. apply Hnd. by apply list_elem_of_fmap_2. }
    pose proof Hwk as (w & w' & Hw & Ews & _ & _ & Hbit).
    apply (HQ s' r'); [exact Hinv'| | | |].
    + rewrite Hobs', Hobs1, <- app_assoc. cbn. do 2 f_equal. apply list_fmap_ext.
      intros i wk' _. by apply (call_of_ext _ _ wk).
    + intros wk' [->|Hin]%elem_of_cons; [|auto]. rewrite Hout by done.
      exists w'. by rewrite Ews, lookup_insert_eq.
    + intros wk' Hin. rewrite Hout by set_solver. rewrite Ews, lookup_insert_ne; [done|set_solver].
    + rewrite Hr', s32_add_l. f_equal. cbn [length]. lia.
Qed.
End Run.

(** ** A concrete work queue, for the examples: at 7000, with two works. *)
Definition demo_wq_env : env :=
  mk_env 1000 1100 5000 6000 6010 6020 6030 0 (fun t => t + 50) (fun t => t + 70)
    (fun _ _ => ret tt) (fun _ _ => ret 0) (fun _ _ => ret 0)
    (fun _ _ _ _ => ret INT_NO_RESCHEDULE)
    (fun f d => modify (fun s => set_switches (switches s ++ [(f, d)]) s)) 9.

Definition demo_wq_init : kst :=
  let nodes := demo_nodes [7004; 7020; 7032; 7040; 7052; 7060; 8004; 8024; 8104; 8124] in
  run (sema_init 7000 1 ;;; on_links (INIT_LIST_HEAD 7020) ;;;
       __init_waitqueue_head 7028 ;;; __init_waitqueue_head 7048 ;;;
       INIT_WORK 8000 11 12 ;;; INIT_WORK 8100 21 22)
    (mk_kst (mk_lheap nodes nodes) ∅ [0] 0 0 0 true
       (list_to_map [(8024, mk_ktimer 0 0 TF_NULL 0); (8124, mk_ktimer 0 0 TF_NULL 0)])
       0 true ∅ ∅ ∅ ∅ 0 [] no_mm
       (list_to_map [(8000, mk_work [0] 0 0 0); (8100, mk_work [0] 0 0 0)])
       (list_to_map [(7000, mk_wq 0 0 0)]) 0).
Definition demo_wq_two : kst :=
  run (queue_work demo_wq_env 1 false 7000 8000 ;;; queue_work demo_wq_env 1 false 7000 8100) demo_wq_init.
Definition demo_wq_fam (l : list Z) : list (Z * list Z) :=
  [(7004, []); (7020, l); (7032, []); (7040, []); (7052, []); (7060, [])].

(** Two delayed works, armed one after the other and due together. *)
Definition demo_delayed : kst :=
  run (on_links (INIT_LIST_HEAD 1100) ;;;
       queue_delayed_work demo_wq_env false 7000 8000 5 ;;; queue_delayed_work demo_wq_env false 7000 8100 5)
    (set_links (mk_lheap (<[1100 := 0]> (nx (links demo_wq_init))) (<[1100 := 0]> (pv (links demo_wq_init))))
       (set_first_time false demo_wq_init)).

(** The functions of the kernel's own timers. *)
Definition kernel_timer (fn : timer_function) : bool :=
  match fn with TF_task_sleep_function | TF_delayed_work_timer_fn => true | _ => false end.

(** Both ask for rescheduling. *)
Lemma kernel_timer_reschedules E {A : Allocator kst} n fn p now a s r s' :
  kernel_timer fn = true -> timer_call E n fn p now a s = Ok (r, s') -> r = INT_RESCHEDULE.
Proof.
  assert (Hr : forall s1, ret INT_RESCHEDULE s1 = Ok (r, s') -> r = INT_RESCHEDULE) by (by intros s1 [= <- _]).
  assert (Hb : forall B (m : M kst B) k s0, (forall b s1, k b s1 = Ok (r, s') -> r = INT_RESCHEDULE) ->
    bind m k s0 = Ok (r, s') -> r = INT_RESCHEDULE).
  { intros B m k s0 Hk. unfold bind. destruct (m s0) as [[b s1]|e]; [apply Hk|discriminate]. }
  destruct fn; [done| | |done]; intros _; cbn [timer_call]; unfold task_sleep_function, delayed_work_timer_fn;
    repeat (refine (Hb _ _ _ _ _); intros ? ?); apply Hr.
Qed.

(** ** Properties *)

(** Queueing: a work item that is not pending is put at the end of the
    queue, marked pending and counted, and the result is 1; a work item that is
    pending is left as it is, and the result is 0. *)
Theorem queue_work_spec E n f s wq work w q l :
  lists (links s) f -> f !! wq_worklist wq = Some l ->
  f !! q_list (wq_more_work wq) = Some [] -> idle f s (q_lock (wq_more_work wq)) ->
  idle f s (wq_lock wq) -> wqs s !! wq = Some q -> works s !! work = Some w ->
  length (pending w) = 1%nat -> loose (links s) f (wk_entry work) ->
  exists r s', queue_work E (S n) false wq work s = Ok (r, s') /\
    if bit_at (pending w) 0 then r = 0 /\ links s' = links s /\ wqs s' = wqs s /\ sems s' = sems s
    else r = 1 /\ lists (links s') (<[wq_worklist wq := l ++ [wk_entry work]]> f) /\
      wqs s' = <[wq := mk_wq (remove_sequence q) (s32 (insert_sequence q + 1)) (wq_task q)]> (wqs s) /\
      sems s' = sems s /\
      exists w', works s' !! work = Some w' /\ wk_func w' = wk_func w /\ wk_data w' = wk_data w /\
        wq_data w' = wq /\ bit_at (pending w') 0 = true.
Proof.
  intros Hl Hf Hm Him Hil Hq Hw Hlen Hlo. apply wp_elim. unfold queue_work, assert_that. wp_simpl.
  eapply wp_on_pending; [exact Hw|]. apply wp_test_and_set_bit; [unfold in_bits; lia|].
  intros p' Hlen' Hbit. destruct (bit_at (pending w) 0) eqn:Eb; cbn [negb]; [by wp_simpl|].
  wp_simpl. eapply wp_wr_work; [cbn; by rewrite lookup_insert_eq|]. wp_simpl.
  unfold insert_work. wp_simpl. destruct Hil as [Hs1 Hs2].
  assert (Hlk : q_lock (wq_more_work wq) <> wq_lock wq) by (unfold q_lock, wq_more_work, wq_lock; lia).
  assert (Hne : forall hd, (hd = wait_list (wq_lock wq) \/ hd = wait_list (q_lock (wq_more_work wq)) \/
      hd = q_list (wq_more_work wq)) -> hd <> wq_worklist wq).
  { unfold wait_list, wq_lock, q_lock, wq_more_work, q_list, wq_worklist. lia. }
  eapply wp_down; [exact Hs1|lia|]. intros c b. wp_simpl. apply wp_on_links.
  eapply fam_list_add_tail; [exact Hl|exact Hf|exact Hlo|]. intros h' Hl' _. wp_simpl.
  eapply wp_wr_wq; [exact Hq|]. wp_simpl.
  eapply (wp_wake_up_idle E (<[wq_worklist wq := l ++ [wk_entry work]]> f)).
  - exact Hl'.
  - rewrite lookup_insert_ne; [done|]. symmetry. apply Hne. tauto.
  - destruct Him as [M1 M2]. split; cbn.
    + by rewrite lookup_insert_ne.
    + rewrite lookup_insert_ne; [done|]. symmetry. apply Hne. tauto.
  - intros c2 b2. wp_simpl. eapply wp_up; [exact Hl'| |cbn; by rewrite lookup_insert_eq|lia|].
    { rewrite lookup_insert_ne; [done|]. symmetry. apply Hne. tauto. }
    intros c3 b3. wp_simpl. cbn. rewrite !insert_insert_eq, (insert_id (sems s)) by done.
    split_and!; try done. eexists. rewrite lookup_insert_eq. split; [done|]. cbn.
    rewrite Hbit by lia. done.
Qed.

Lemma queue_work_spec_witness :
  exists r s', queue_work demo_wq_env 1 false 7000 8000 demo_wq_init = Ok (r, s') /\ r = 1.
Proof.
  destruct (queue_work_spec demo_wq_env 0 (list_to_map (demo_wq_fam [])) demo_wq_init 7000 8000
    (mk_work [0] 11 12 0) (mk_wq 0 0 0) []) as (r & s' & E & H).
  - apply lists_b_sound. vm_compute. reflexivity.
  - reflexivity.
  - reflexivity.
  - split; vm_compute; reflexivity.
  - split; vm_compute; reflexivity.
  - vm_compute. reflexivity.
  - vm_compute. reflexivity.
  - reflexivity.
  - split; [split; eexists; vm_compute; reflexivity|]. intros hd l Hl.
    apply elem_of_list_to_map_2, list_elem_of_In in Hl. cbn in Hl.
    repeat (destruct Hl as [[= <- <-]|Hl]; [intros [H|H]%elem_of_cons; [discriminate H|by apply elem_of_nil in H]|]).
    destruct Hl.
  - exists r, s'. split; [exact E|]. vm_compute in H. destruct H as [H _]. exact H.
Defined.

(** With [DEBUG] the first turn of the loop ends at the assertion, because
    [queue_work] has stored the queue in the work item. *)
Lemma run_turn_asserts E n wq f s wk l r w :
  wq_inv wq f s (wk :: l) r -> works s !! wk = Some w -> wq_data w = wq ->
  run_turn E (S n) true wq s = Err Halted.
Proof.
  intros [A1 A2 A3 A4 _ _ _ _] Hw Hwq. unfold run_turn, assert_that.
  pose proof (dlist_first _ _ _ (lists_ring _ _ A1 _ _ A2)) as Hfst. cbn in Hfst.
  apply bind_run, wp_on_links. eapply fam_list_empty; [exact A1|exact A2|]. rewrite bool_decide_false by done.
  apply bind_run, wp_on_links. eapply wp_rd_next; [exact Hfst|].
  replace (wk_of_entry (wk_entry wk)) with wk by (unfold wk_of_entry, wk_entry; lia).
  apply bind_run. eapply wp_rd_work; [exact Hw|].
  apply bind_run, wp_on_links. eapply wp_rd_next; [exact Hfst|].
  apply bind_run, wp_on_links. eapply (fam_list_del_init _ _ A1 _ [] (wk_entry wk) (wk_entry <$> l)); [exact A2|].
  intros h' Hl' _ _. apply bind_run. eapply wp_up; [exact Hl'| |exact A3|lia|].
  { rewrite lookup_insert_ne; [done|]. intros E0. rewrite E0, A4 in A2. done. }
  intros c b. apply bind_err_l, bind_run. wp_simpl. eapply wp_rd_work; [exact Hw|]. by rewrite Hwq, Z.eqb_refl.
Qed.

(** [C21] [run_workqueue], for work functions that leave lists, locks and queues
    alone.  Without [DEBUG] it runs every queued work item exactly once, in the
    order in which they were queued, clears their pending bits, leaves the queue
    empty and advances the count of finished work by their number; it returns
    when the fuel exceeds the length of the queue.  With [DEBUG] it stops the
    machine at the first item that [queue_work] has queued: the assertion says
    that the item is not of this queue. *)
Theorem run_workqueue_fifo (DEBUG : bool) E n wq obs f s l r :
  (forall s s', tasks s' = tasks s -> switches s' = switches s ->
     next_pid s' = next_pid s -> obs s' = obs s) ->
  (forall fn d s, exists s', work_code E fn d s = Ok (tt, s') /\
     links s' = links s /\ sems s' = sems s /\ works s' = works s /\ wqs s' = wqs s /\
     obs s' = obs s ++ [(fn, d)]) ->
  wq_inv wq f (set_sems (<[wq_lock wq := 0]> (sems s)) s) l r -> sems s !! wq_lock wq = Some 1 ->
  (length l <= n)%nat ->
  if DEBUG then forall wk w, head l = Some wk -> works s !! wk = Some w -> wq_data w = wq ->
    run_workqueue E (S n) DEBUG wq s = Err Halted
  else exists s' w, run_workqueue E (S n) DEBUG wq s = Ok (tt, s') /\
    obs s' = obs s ++ (call_of s <$> l) /\
    lists (links s') (<[wq_worklist wq := []]> f) /\
    (forall wk, wk ∈ l -> exists w, works s' !! wk = Some w /\ bit_at (pending w) 0 = false) /\
    wqs s' !! wq = Some w /\ s32 (remove_sequence w) = s32 (r + Z.of_nat (length l)) /\
    sems s' !! wq_lock wq = Some 1.
Proof.
  intros Hobs Hcode Hinv Hlock Hn. set (s0 := set_sems _ _) in *.
  assert (Hcrit : forall c b, wq_inv wq f (crit_set c b s0) l r)
    by (intros c b; destruct Hinv as [A1 A2 A3 A4 A5 [A6 A6'] A7 A8]; by split).
  destruct DEBUG.
  { intros wk w Hwk Hw Hwq. destruct l as [|wk' l]; [done|]. injection Hwk as ->.
    unfold run_workqueue. apply bind_run. eapply wp_down; [exact Hlock|lia|]. intros c b.
    cbn [loop]. apply bind_err_l, bind_err_l. by eapply run_turn_asserts. }
  destruct (wp_elim (run_workqueue E (S n) false wq) (fun _ s' => exists w,
    obs s' = obs s ++ (call_of s <$> l) /\
    lists (links s') (<[wq_worklist wq := []]> f) /\
    (forall wk, wk ∈ l -> exists w, works s' !! wk = Some w /\ bit_at (pending w) 0 = false) /\
    wqs s' !! wq = Some w /\ s32 (remove_sequence w) = s32 (r + Z.of_nat (length l)) /\
    sems s' !! wq_lock wq = Some 1) s) as ([] & s' & Hrun & w & H); [|by exists s', w].
  unfold run_workqueue. wp_simpl. eapply wp_down; [exact Hlock|lia|]. intros c b. wp_simpl.
  change (1 - 1) with 0. fold s0.
  eapply (wp_run_loop E n wq obs Hobs Hcode f (crit_set c b s0) l r); [done|lia|].
  intros s1 r1 Hinv1 Hobs1 Hbits _ Hr1. destruct (wi_wq _ _ _ _ _ Hinv1) as (w & Hw & Hwr).
  eapply wp_up; [apply Hinv1|apply Hinv1|apply Hinv1|lia|]. intros c' b'.
  exists w. split_and!; try done.
  - rewrite (Hobs s1) by done. rewrite Hobs1. f_equal. by apply Hobs.
  - apply Hinv1.
  - by rewrite Hwr.
  - cbn. by rewrite lookup_insert_eq.
Qed.

Lemma run_workqueue_fifo_witness :
  run_workqueue demo_wq_env 3 true 7000 demo_wq_two = Err Halted /\
  exists s', run_workqueue demo_wq_env 3 false 7000 demo_wq_two = Ok (tt, s') /\
    switches s' = [(11, 12); (21, 22)].
Proof.
  assert (H : forall DEBUG : bool, _) by (intros DEBUG; refine (run_workqueue_fifo DEBUG
    demo_wq_env 2 7000 switches (list_to_map (demo_wq_fam [8004; 8104])) demo_wq_two [8000; 8100] 0 _ _ _ _ _);
  [intros s s' _ H _; exact H
  |intros fn d s; eexists; split; [reflexivity|]; split_and!; reflexivity
  |split;
    [apply lists_b_sound; vm_compute; reflexivity|reflexivity|vm_compute; reflexivity|reflexivity|reflexivity
    |split; vm_compute; reflexivity
    |eexists; split; [vm_compute; reflexivity|reflexivity]
    |intros wk Hwk; apply list_elem_of_In in Hwk; destruct Hwk as [<-|[<-|[]]];
        (eexists; split; [vm_compute; reflexivity|reflexivity])]
  |vm_compute; reflexivity
  |cbn; lia]).
  split.
  - apply (H true 8000 (mk_work [1] 11 12 7000)); vm_compute; reflexivity.
  - destruct (H false) as (s' & w & E & E2 & _). exists s'. split; [exact E|]. rewrite E2. vm_compute. reflexivity.
Defined.

(** [C23] A tick runs one timer at most.  When the kernel's own timers are armed
    (sleeping tasks and delayed works) the tick is the run of the function of the
    first timer of the list, with that timer unlinked and all the others still
    armed, if it is due, and otherwise it changes nothing; the function asks for
    rescheduling, so the tick returns at once, and timers behind the first wait
    for a later tick even if they are due. *)
Theorem timer_tick_runs_front E {A : Allocator kst} n m now f s l :
  lists (links s) f -> f !! timer_list E = Some l -> first_time s = false ->
  (forall p, p ∈ l -> exists t, timers s !! p = Some t /\ kernel_timer (function t) = true) ->
  exists h', lists h' (<[timer_list E := drop 1 l]> f) /\
    timer_tick (timer_list E) (timer_call E n) (S m) now s =
      match l with
      | x :: _ =>
          if due s now x then
            match timers s !! x with
            | Some t => match timer_call E n (function t) x (u32 now) (arg t) (set_links h' s) with
                        | Ok (_, s') => Ok (INT_RESCHEDULE, s')
                        | Err e => Err e
                        end
            | None => Err (bad_ptr x)
            end
          else Ok (INT_NO_RESCHEDULE, s)
      | [] => Ok (INT_NO_RESCHEDULE, s)
      end.
Proof.
  intros Hl Hf Hft Ht.
  destruct (timer_tick_front (timer_list E) (timer_call E n) m now f s l Hl Hf Hft) as (h' & Hl' & Erun).
  { intros p Hp. destruct (Ht p Hp) as (t & Htm & Hk). exists t. split; [done|].
    intros s1 r s2. by apply kernel_timer_reschedules. }
  exists h'. split; [done|]. rewrite Erun. destruct l as [|x l]; [done|]. destruct (due s now x); [|done].
  destruct (Ht x) as (t & -> & Hk); [set_solver|].
  destruct (timer_call _ _ _ _ _ _ _) as [[r s']|e] eqn:Ecall; [|done].
  by rewrite (kernel_timer_reschedules _ _ _ _ _ _ _ _ _ Hk Ecall).
Qed.

Lemma timer_tick_runs_front_witness :
  let A := kernel_allocator demo_wq_env in
  due demo_delayed 9 8124 = true /\
  exists h', lists h' (<[1100 := [8124]]> (list_to_map ((1100, [8024; 8124]) :: demo_wq_fam []))) /\
    timer_tick 1100 (timer_call demo_wq_env 1) 5 9 demo_delayed =
      match delayed_work_timer_fn demo_wq_env 1 8024 9 8000 (set_links h' demo_delayed) with
      | Ok (_, s') => Ok (INT_RESCHEDULE, s')
      | Err e => Err e
      end.
Proof.
  intros A. split; [vm_compute; reflexivity|].
  destruct (timer_tick_runs_front demo_wq_env 1 4 9 (list_to_map ((1100, [8024; 8124]) :: demo_wq_fam []))
    demo_delayed [8024; 8124]) as (h' & Hl' & Erun).
  - apply lists_b_sound. vm_compute. reflexivity.
  - vm_compute. reflexivity.
  - vm_compute. reflexivity.
  - intros p Hp. apply list_elem_of_In in Hp. destruct Hp as [<-|[<-|[]]].
    + exists (mk_ktimer 5 0 TF_delayed_work_timer_fn 8000). split; [vm_compute; reflexivity|reflexivity].
    + exists (mk_ktimer 5 0 TF_delayed_work_timer_fn 8100). split; [vm_compute; reflexivity|reflexivity].
  - exists h'. split; [exact Hl'|].
    replace (due demo_delayed 9 8024) with true in Erun by (vm_compute; reflexivity).
    replace (timers demo_delayed !! 8024) with (Some (mk_ktimer 5 0 TF_delayed_work_timer_fn 8000)) in Erun
      by (vm_compute; reflexivity).
    exact Erun.
Defined.

(** After that tick the first work is queued, and the second timer is armed
    still, though it is due. *)
Example tick_leaves_due_timer :
  match timer_tick 1100 (timer_call (A := kernel_allocator demo_wq_env) demo_wq_env 1) 5 9 demo_delayed with
  | Ok (INT_RESCHEDULE, s') =>
      lists_b (links s') ((1100, [8124]) :: demo_wq_fam [8004]) && due s' 9 8124
  | _ => false
  end = true.
Proof. vm_compute. reflexivity. Qed.
