(* ===== verification/Str.v ===== *)
(** * lib/string.c: bytes and strings in memory

    Memory is a map from addresses to bytes; an address outside it faults.
    [bytes m a l] says that the bytes [l] lie at [a], [str m a l] that a string
    with the characters [l] and its terminating zero does. *)

From S2P Require Import Prelude KList.

Notation mem := (gmap Z Z).

Definition rd8 (a : Z) : M mem Z := m <- gets id ;; lift_opt (bad_ptr a) ((m : mem) !! a).
Definition wr8 (a v : Z) : M mem unit :=
  rd8 a ;;; modify (fun m : mem => <[a := u8 v]> m).

(** A scan through mapped memory takes at most one step per byte. *)
Definition mem_fuel (m : mem) : nat := S (size m).

Definition strcpy_loop (dest src : Z) : M mem unit :=
  fuel <- gets mem_fuel ;;
  loop fuel (fun '(dest, src) =>
      c <- rd8 src ;;
      wr8 dest c ;;;
      if negb (c =? 0) then ret (inl (dest + 1, src + 1)) else ret (inr tt)) (dest, src).

Definition strcpy (dest src : Z) : M mem Z := strcpy_loop dest src ;;; ret dest.

Definition strncpy (dest src count : Z) : M mem Z :=
  loop (S (Z.to_nat count)) (fun '(tmp, src, count) =>
      if count =? 0 then ret (inr tt) else
      c <- rd8 src ;;
      wr8 tmp c ;;;
      ret (inl (tmp + 1, if negb (c =? 0) then src + 1 else src, count - 1))) (dest, src, count) ;;;
  ret dest.

(** [while ( *s ) s++;] *)
Definition skip_string (s : Z) : M mem Z :=
  fuel <- gets mem_fuel ;;
  loop fuel (fun sc => c <- rd8 sc ;; if negb (c =? 0) then ret (inl (sc + 1)) else ret (inr sc)) s.

Definition strcat (dest src : Z) : M mem Z :=
  d <- skip_string dest ;; strcpy_loop d src ;;; ret dest.

Definition strcmp (cs ct : Z) : M mem Z :=
  fuel <- gets mem_fuel ;;
  loop fuel (fun '(cs, ct) =>
      c1 <- rd8 cs ;;
      c2 <- rd8 ct ;;
      if negb (c1 =? c2) then ret (inr (if c1 <? c2 then -1 else 1))
      else if c1 =? 0 then ret (inr 0)
      else ret (inl (cs + 1, ct + 1))) (cs, ct).

Definition strncmp (cs ct count : Z) : M mem Z :=
  loop (S (Z.to_nat count)) (fun '(cs, ct, count) =>
      if count =? 0 then ret (inr 0) else
      c1 <- rd8 cs ;;
      c2 <- rd8 ct ;;
      if negb (c1 =? c2) then ret (inr (if c1 <? c2 then -1 else 1))
      else if c1 =? 0 then ret (inr 0)
      else ret (inl (cs + 1, ct + 1, count - 1))) (cs, ct, count).

Definition strlen (s : Z) : M mem Z := sc <- skip_string s ;; ret (sc - s).

(** [strchr] of the C library, which include/string.h declares: the first [c],
    or null. *)
Definition strchr (s c : Z) : M mem Z :=
  fuel <- gets mem_fuel ;;
  loop fuel (fun p =>
      x <- rd8 p ;;
      if x =? u8 c then ret (inr p) else if x =? 0 then ret (inr 0) else ret (inl (p + 1))) s.

Definition memset (s c count : Z) : M mem Z :=
  loop (S (Z.to_nat count)) (fun '(xs, count) =>
      if count =? 0 then ret (inr tt) else wr8 xs c ;;; ret (inl (xs + 1, count - 1))) (s, count) ;;;
  ret s.

(** [while (count--) *tmp++ = *s++;] *)
Definition copy_up (dest src count : Z) : M mem unit :=
  loop (S (Z.to_nat count)) (fun '(tmp, s, count) =>
      if count =? 0 then ret (inr tt) else
      c <- rd8 s ;; wr8 tmp c ;;; ret (inl (tmp + 1, s + 1, count - 1))) (dest, src, count).

(** [while (count--) *--tmp = *--s;] *)
Definition copy_down (dest src count : Z) : M mem unit :=
  loop (S (Z.to_nat count)) (fun '(tmp, s, count) =>
      if count =? 0 then ret (inr tt) else
      c <- rd8 (s - 1) ;; wr8 (tmp - 1) c ;;; ret (inl (tmp - 1, s - 1, count - 1)))
    (dest + count, src + count, count).

Definition memcpy (dest src count : Z) : M mem Z := copy_up dest src count ;;; ret dest.

Definition memmove (dest src count : Z) : M mem Z :=
  (if dest <=? src then copy_up dest src count else copy_down dest src count) ;;; ret dest.

Definition memcmp (cs ct count : Z) : M mem Z :=
  loop (S (Z.to_nat count)) (fun '(su1, su2, count, res) =>
      if 0 <? count then
        a <- rd8 su1 ;; b <- rd8 su2 ;;
        let res := s8 (a - b) in
        if negb (res =? 0) then ret (inr res) else ret (inl (su1 + 1, su2 + 1, count - 1, res))
      else ret (inr res)) (cs, ct, count, 0).

Definition islower (c : Z) : bool := (97 <=? c) && (c <=? 122).
Definition isupper (c : Z) : bool := (65 <=? c) && (c <=? 90).
Definition isdigit (c : Z) : bool := (48 <=? c) && (c <=? 57).
Definition isalpha (c : Z) : bool := isupper c || islower c.

(** ** Bytes and strings *)

Fixpoint bytes (m : mem) (a : Z) (l : list Z) : Prop :=
  match l with
  | [] => True
  | c :: l' => m !! a = Some c /\ bytes m (a + 1) l'
  end.

Definition byte (c : Z) : Prop := 0 <= c < 256.
Definition char_ok (c : Z) : Prop := 0 < c < 256.

Definition str (m : mem) (a : Z) (l : list Z) : Prop :=
  bytes m a (l ++ [0]) /\ Forall char_ok l.

(** Decision procedures for concrete memories. *)
Fixpoint bytes_check (m : mem) (a : Z) (l : list Z) : bool :=
  match l with
  | [] => true
  | c :: l' => bool_decide (m !! a = Some c) && bytes_check m (a + 1) l'
  end.

Lemma bytes_check_sound m l : forall a, bytes_check m a l = true -> bytes m a l.
Proof.
  induction l as [|c l IH]; intros a; cbn; [done|]. intros [H1 H2]%andb_prop.
  apply bool_decide_eq_true in H1. split; [done|by apply IH].
Qed.

Lemma byte_check_sound l : forallb (fun c => (0 <=? c) && (c <? 256)) l = true -> Forall byte l.
Proof.
  intros H. apply Forall_forall. intros c Hc%list_elem_of_In. rewrite forallb_forall in H.
  specialize (H c Hc). unfold byte. apply andb_prop in H as [H1%Z.leb_le H2%Z.ltb_lt]. lia.
Qed.

Lemma bytes_app m a l1 l2 :
  bytes m a (l1 ++ l2) <-> bytes m a l1 /\ bytes m (a + Z.of_nat (length l1)) l2.
Proof.
  revert a. induction l1 as [|c l1 IH]; intros a; cbn [app bytes length].
  - rewrite Z.add_0_r. tauto.
  - rewrite IH. replace (a + 1 + Z.of_nat (length l1)) with (a + Z.of_nat (S (length l1))) by lia. tauto.
Qed.

Lemma bytes_lookup m a l i c : bytes m a l -> l !! i = Some c -> m !! (a + Z.of_nat i) = Some c.
Proof.
  revert a i. induction l as [|x l IH]; intros a i; [done|]. cbn [bytes]. intros [H1 H2] Hi.
  destruct i as [|i]; cbn in Hi.
  - injection Hi as <-. by rewrite Z.add_0_r.
  - specialize (IH _ _ H2 Hi). by replace (a + Z.of_nat (S i)) with (a + 1 + Z.of_nat i) by lia.
Qed.

Lemma bytes_intro m a l :
  (forall i c, l !! i = Some c -> m !! (a + Z.of_nat i) = Some c) -> bytes m a l.
Proof.
  revert a. induction l as [|x l IH]; intros a H; [done|]. cbn [bytes]. split.
  - specialize (H 0%nat x eq_refl). by rewrite Z.add_0_r in H.
  - apply IH. intros i c Hi. specialize (H (S i) c Hi).
    by replace (a + 1 + Z.of_nat i) with (a + Z.of_nat (S i)) by lia.
Qed.

Lemma bytes_size m a l : bytes m a l -> (length l <= size m)%nat.
Proof.
  intros H. rewrite <- (length_seq (length l) 0), <- (length_fmap (fun i => a + Z.of_nat i)).
  apply NoDup_keys_size.
  - apply NoDup_fmap_2_strong; [|apply NoDup_seq]. intros x y _ _. lia.
  - intros b (i & -> & Hi)%list_elem_of_fmap. apply elem_of_seq in Hi.
    destruct (lookup_lt_is_Some_2 l i ltac:(lia)) as [c Hc]. eexists. by eapply bytes_lookup.
Qed.

Lemma wp_rd8 m a c (Q : Z -> mem -> Prop) : m !! a = Some c -> Q c m -> wp (rd8 a) Q m.
Proof. intros H HQ. unfold rd8. wp_simpl. cbn. by rewrite H. Qed.

Lemma wp_wr8 m a v (Q : unit -> mem -> Prop) :
  is_Some (m !! a) -> Q tt (<[a := u8 v]> m) -> wp (wr8 a v) Q m.
Proof. intros [c H] HQ. unfold wr8. wp_simpl. eapply wp_rd8; [exact H|]. by wp_simpl. Qed.

Lemma wp_skip_string m a l (Q : Z -> mem -> Prop) :
  str m a l -> Q (a + Z.of_nat (length l)) m -> wp (skip_string a) Q m.
Proof.
  intros [Hb Hc] HQ. unfold skip_string. wp_simpl.
  pose proof (bytes_size _ _ _ Hb) as Hsz. rewrite length_app in Hsz. cbn in Hsz.
  apply (wp_loop_idx _ (fun n sc m' => m' = m /\ exists i, (i <= length l)%nat /\
     sc = a + Z.of_nat i /\ n = (length l - i)%nat)) with (n := length l).
  - intros n sc m' (-> & i & Hi & -> & ->). wp_simpl.
    destruct (decide (i = length l)) as [->|Hne].
    + eapply wp_rd8; [eapply bytes_lookup; [exact Hb|]|].
      { rewrite lookup_app_r, Nat.sub_diag by lia. done. }
      cbn. by wp_simpl.
    + destruct (lookup_lt_is_Some_2 l i ltac:(lia)) as [c Hci].
      eapply wp_rd8; [eapply bytes_lookup; [exact Hb|by rewrite lookup_app_l by lia]|].
      rewrite Forall_lookup in Hc. pose proof (Hc _ _ Hci) as Hcc. unfold char_ok in Hcc.
      destruct (Z.eqb_spec c 0); [lia|]. cbn [negb]. wp_simpl.
      exists (length l - S i)%nat. split; [lia|]. split; [done|]. exists (S i). split_and!; lia.
  - split; [done|]. exists 0%nat. split_and!; lia.
  - unfold mem_fuel. lia.
Qed.

(** ** Comparison *)

(** The order of the characters, a prefix first. *)
Fixpoint strcmp_l (l1 l2 : list Z) : Z :=
  match l1, l2 with
  | [], [] => 0
  | [], _ :: _ => -1
  | _ :: _, [] => 1
  | a :: l1', b :: l2' => if a =? b then strcmp_l l1' l2' else if a <? b then -1 else 1
  end.

Lemma strcmp_l_refl l : strcmp_l l l = 0.
Proof. induction l as [|c l IH]; cbn; [done|]. by rewrite Z.eqb_refl. Qed.

Lemma strcmp_l_zero l1 l2 : strcmp_l l1 l2 = 0 <-> l1 = l2.
Proof.
  split; [|intros ->; apply strcmp_l_refl]. revert l2. induction l1 as [|a l1 IH]; intros [|b l2]; cbn; try done.
  destruct (Z.eqb_spec a b) as [->|]; [|by destruct (a <? b)]. intros H%IH. by subst.
Qed.

Lemma strcmp_l_sign l1 l2 : strcmp_l l1 l2 = -1 \/ strcmp_l l1 l2 = 0 \/ strcmp_l l1 l2 = 1.
Proof.
  revert l2. induction l1 as [|a l1 IH]; intros [|b l2]; cbn; auto.
  destruct (a =? b); [apply IH|]. destruct (a <? b); auto.
Qed.

Lemma strcmp_l_anti l1 l2 : strcmp_l l2 l1 = - strcmp_l l1 l2.
Proof.
  revert l2. induction l1 as [|a l1 IH]; intros [|b l2]; cbn; try done.
  rewrite (Z.eqb_sym b a). destruct (Z.eqb_spec a b); [apply IH|].
  destruct (Z.ltb_spec a b), (Z.ltb_spec b a); lia.
Qed.

Lemma strcmp_l_trans l1 l2 l3 :
  strcmp_l l1 l2 = -1 -> strcmp_l l2 l3 = -1 -> strcmp_l l1 l3 = -1.
Proof.
  revert l2 l3. induction l1 as [|a l1 IH]; intros [|b l2] [|c l3]; cbn; try done.
  destruct (Z.eqb_spec a b) as [->|Hab].
  - destruct (Z.eqb_spec b c); [apply IH|done].
  - destruct (Z.ltb_spec a b); [|done]. intros _. destruct (Z.eqb_spec b c) as [->|Hbc].
    + intros _. destruct (Z.eqb_spec a c); [lia|]. by destruct (Z.ltb_spec a c); [|lia].
    + destruct (Z.ltb_spec b c); [|done]. intros _.
      destruct (Z.eqb_spec a c); [lia|]. by destruct (Z.ltb_spec a c); [|lia].
Qed.

Lemma wp_strcmp m a b l1 l2 (Q : Z -> mem -> Prop) :
  str m a l1 -> str m b l2 -> Q (strcmp_l l1 l2) m -> wp (strcmp a b) Q m.
Proof.
  intros [Ha Hca] [Hb Hcb] HQ. unfold strcmp. wp_simpl.
  assert (Hf : (length l1 < mem_fuel m)%nat).
  { pose proof (bytes_size _ _ _ Ha) as H. rewrite length_app in H. cbn in H. unfold mem_fuel. lia. }
  revert Hf. generalize (mem_fuel m). intros fuel. revert fuel a b l2 Ha Hca Hb Hcb HQ.
  induction l1 as [|x l1 IH]; intros fuel a b l2 Ha Hca Hb Hcb HQ Hf;
    (destruct fuel as [|fuel]; [cbn in Hf; lia|]); cbn [loop]; wp_simpl.
  - destruct Ha as [Ha _]. eapply wp_rd8; [exact Ha|]. wp_simpl. destruct l2 as [|y l2].
    + destruct Hb as [Hb _]. eapply wp_rd8; [exact Hb|]. cbn. by wp_simpl.
    + destruct Hb as [Hb _]. eapply wp_rd8; [exact Hb|]. apply Forall_cons in Hcb as [Hy _].
      unfold char_ok in Hy. destruct (Z.eqb_spec 0 y); [lia|]. cbn [negb]. wp_simpl.
      by destruct (Z.ltb_spec 0 y); [|lia].
  - destruct Ha as [Ha Ha']. apply Forall_cons in Hca as [Hx Hca]. unfold char_ok in Hx.
    eapply wp_rd8; [exact Ha|]. wp_simpl. destruct l2 as [|y l2].
    + destruct Hb as [Hb _]. eapply wp_rd8; [exact Hb|]. destruct (Z.eqb_spec x 0); [lia|]. cbn [negb]. wp_simpl.
      by destruct (Z.ltb_spec x 0); [lia|].
    + destruct Hb as [Hb Hb']. eapply wp_rd8; [exact Hb|]. apply Forall_cons in Hcb as [Hy Hcb].
      cbn [strcmp_l] in HQ. destruct (Z.eqb_spec x y) as [->|]; cbn [negb]; [|by wp_simpl].
      destruct (Z.eqb_spec y 0); [lia|]. wp_simpl. eapply IH; [exact Ha'|done|exact Hb'|done|exact HQ|].
      cbn in Hf. lia.
Qed.

(** The same for the first [n] characters. *)
Fixpoint strncmp_l (n : nat) (l1 l2 : list Z) : Z :=
  match n, l1, l2 with
  | O, _, _ | S _, [], [] => 0
  | S _, [], _ :: _ => -1
  | S _, _ :: _, [] => 1
  | S n, a :: l1', b :: l2' => if a =? b then strncmp_l n l1' l2' else if a <? b then -1 else 1
  end.

Lemma strncmp_l_prefix l1 l2 : strncmp_l (length l2) l1 l2 = 0 <-> l2 `prefix_of` l1.
Proof.
  revert l1. induction l2 as [|b l2 IH]; intros l1; cbn.
  - split; [intros _; apply prefix_nil|done].
  - destruct l1 as [|a l1]; cbn.
    + split; [done|]. intros H. by apply prefix_nil_inv in H.
    + destruct (Z.eqb_spec a b) as [->|Hne].
      * rewrite IH. split; [apply prefix_cons|apply prefix_cons_inv_2].
      * split; [by destruct (a <? b)|]. intros H. apply prefix_cons_inv_1 in H. congruence.
Qed.

Lemma wp_strncmp m a b l1 l2 n (Q : Z -> mem -> Prop) :
  str m a l1 -> str m b l2 -> Q (strncmp_l n l1 l2) m -> wp (strncmp a b (Z.of_nat n)) Q m.
Proof.
  intros [Ha Hca] [Hb Hcb] HQ. unfold strncmp. rewrite Nat2Z.id.
  assert (Hf : (n < S n)%nat) by lia. revert Hf. generalize (S n). intros fuel.
  revert fuel a b l1 l2 Ha Hca Hb Hcb HQ. induction n as [|n IH]; intros fuel a b l1 l2 Ha Hca Hb Hcb HQ Hf;
    (destruct fuel as [|fuel]; [lia|]); cbn [loop]; wp_simpl; [by destruct l1|].
  destruct (Z.eqb_spec (Z.of_nat (S n)) 0); [lia|]. wp_simpl.
  destruct l1 as [|x l1]; destruct Ha as [Ha Ha']; (eapply wp_rd8; [exact Ha|]); wp_simpl;
    destruct l2 as [|y l2]; destruct Hb as [Hb Hb']; (eapply wp_rd8; [exact Hb|]); cbn [strncmp_l] in HQ;
    try (apply Forall_cons in Hca as [Hx Hca]); try (apply Forall_cons in Hcb as [Hy Hcb]); unfold char_ok in *.
  - cbn. by wp_simpl.
  - destruct (Z.eqb_spec 0 y); [lia|]. cbn [negb]. wp_simpl. by destruct (Z.ltb_spec 0 y); [|lia].
  - destruct (Z.eqb_spec x 0); [lia|]. cbn [negb]. wp_simpl. by destruct (Z.ltb_spec x 0); [lia|].
  - destruct (Z.eqb_spec x y) as [->|]; cbn [negb]; [|by wp_simpl]. destruct (Z.eqb_spec y 0); [lia|].
    wp_simpl. replace (Z.of_nat (S n) - 1) with (Z.of_nat n) by lia.
    apply (IH _ _ _ l1 l2); try done; lia.
Qed.

(** ** Copying *)

Definition mem_ok (m : mem) : Prop := forall a c, m !! a = Some c -> byte c.
Definition mapped (m : mem) (a n : Z) : Prop := forall i, 0 <= i < n -> is_Some (m !! (a + i)).

(** [m'] is [m] with [n] bytes from [src] copied to [dest]. *)
Record copied (m m' : mem) (dest src n : Z) : Prop := {
  cp_in : forall i, 0 <= i < n -> m' !! (dest + i) = m !! (src + i);
  cp_out : forall a, ~ (dest <= a < dest + n) -> m' !! a = m !! a
}.

Lemma wp_copy_up m dest src n (Q : unit -> mem -> Prop) :
  mem_ok m -> 0 <= n -> mapped m src n -> mapped m dest n ->
  (forall k j, 0 <= j < k -> k < n -> dest + j <> src + k) ->
  (forall m', copied m m' dest src n -> Q tt m') -> wp (copy_up dest src n) Q m.
Proof.
  intros Hok Hn Hs Hd Hover HQ. unfold copy_up.
  apply (wp_loop_idx _ (fun k '(t, s, c) m' => t = dest + (n - c) /\ s = src + (n - c) /\
     0 <= c <= n /\ k = Z.to_nat c /\ copied m m' dest src (n - c))) with (n := Z.to_nat n).
  - intros k [[t s] c] m' (-> & -> & Hc & -> & [Hin Hout]).
    destruct (Z.eqb_spec c 0) as [->|Hne].
    { wp_simpl. apply HQ. rewrite Z.sub_0_r in *. by split. }
    set (j := n - c) in *. destruct (Hs j ltac:(lia)) as [v Hv].
    assert (Hrd : m' !! (src + j) = Some v).
    { rewrite Hout; [done|]. intros Hr. apply (Hover j (src + j - dest)); lia. }
    wp_simpl. eapply wp_rd8; [exact Hrd|]. wp_simpl. eapply wp_wr8.
    { rewrite Hout by lia. apply Hd. lia. }
    wp_simpl. exists (Z.to_nat (c - 1)). split; [lia|]. split_and!; try lia.
    pose proof (Hok _ _ Hv) as Hbv. unfold byte in Hbv. rewrite u8_small by lia.
    replace (n - (c - 1)) with (j + 1) by lia. split.
    + intros i Hi. rewrite lookup_insert. case_decide as E; [|apply Hin; lia].
      assert (i = j) as -> by lia. done.
    + intros a Ha. rewrite lookup_insert_ne by lia. apply Hout. lia.
  - replace (n - n) with 0 by lia. split_and!; try lia. split; [lia|done].
  - lia.
Qed.

Lemma wp_copy_down m dest src n (Q : unit -> mem -> Prop) :
  mem_ok m -> 0 <= n -> mapped m src n -> mapped m dest n -> src < dest ->
  (forall m', copied m m' dest src n -> Q tt m') -> wp (copy_down dest src n) Q m.
Proof.
  intros Hok Hn Hs Hd Hlt HQ. unfold copy_down.
  apply (wp_loop_idx _ (fun k '(t, s, c) m' => t = dest + c /\ s = src + c /\
     0 <= c <= n /\ k = Z.to_nat c /\
     (forall i, c <= i < n -> m' !! (dest + i) = m !! (src + i)) /\
     (forall a, ~ (dest + c <= a < dest + n) -> m' !! a = m !! a))) with (n := Z.to_nat n).
  - intros k [[t s] c] m' (-> & -> & Hc & -> & Hin & Hout).
    destruct (Z.eqb_spec c 0) as [->|Hne].
    { wp_simpl. apply HQ. rewrite !Z.add_0_r in *. split; [exact Hin|]. intros a Ha. apply Hout. lia. }
    replace (src + c - 1) with (src + (c - 1)) by lia. replace (dest + c - 1) with (dest + (c - 1)) by lia.
    set (j := c - 1) in *. destruct (Hs j ltac:(lia)) as [v Hv].
    assert (Hrd : m' !! (src + j) = Some v) by (rewrite Hout; [done|lia]).
    wp_simpl. eapply wp_rd8; [exact Hrd|]. wp_simpl. eapply wp_wr8.
    { rewrite Hout by lia. apply Hd. lia. }
    wp_simpl. exists (Z.to_nat j). split; [lia|]. split_and!; try lia.
    + pose proof (Hok _ _ Hv) as Hbv. unfold byte in Hbv. rewrite u8_small by lia.
      intros i Hi. rewrite lookup_insert. case_decide as E; [|apply Hin; lia].
      assert (i = j) as -> by lia. done.
    + intros a Ha. rewrite lookup_insert_ne by lia. apply Hout. lia.
  - split_and!; try lia; done.
  - lia.
Qed.

(** [m'] is [m] with the bytes [l] stored at [a]. *)
Record stored (m m' : mem) (a : Z) (l : list Z) : Prop := {
  st_in : bytes m' a l;
  st_out : forall b, ~ (a <= b < a + Z.of_nat (length l)) -> m' !! b = m !! b
}.

Lemma bytes_ext m m' a l :
  (forall b, a <= b < a + Z.of_nat (length l) -> m' !! b = m !! b) -> bytes m a l -> bytes m' a l.
Proof.
  intros H Hb. apply bytes_intro. intros i c Hi. rewrite H; [by eapply bytes_lookup|].
  apply lookup_lt_Some in Hi. lia.
Qed.

Lemma str_ext m m' a l :
  (forall b, a <= b <= a + Z.of_nat (length l) -> m' !! b = m !! b) -> str m a l -> str m' a l.
Proof.
  intros H [Hb Hc]. split; [|done]. eapply bytes_ext; [|exact Hb].
  rewrite length_app. cbn. intros b Hr. apply H. lia.
Qed.

Lemma str_lookup m a l i c : str m a l -> l !! i = Some c -> m !! (a + Z.of_nat i) = Some c.
Proof. intros [Hb _] Hi. eapply bytes_lookup; [exact Hb|]. by apply lookup_app_l_Some. Qed.

Lemma str_end m a l : str m a l -> m !! (a + Z.of_nat (length l)) = Some 0.
Proof.
  intros [Hb _]. eapply bytes_lookup; [exact Hb|]. by rewrite lookup_app_r, Nat.sub_diag by lia.
Qed.

Lemma str_chars m a l i c : str m a l -> l !! i = Some c -> char_ok c.
Proof. intros [_ Hc] Hi. rewrite Forall_lookup in Hc. eauto. Qed.

Lemma str_size m a l : str m a l -> (length l < size m)%nat.
Proof. intros [Hb _]. apply bytes_size in Hb. rewrite length_app in Hb. cbn in Hb. lia. Qed.

(** A string is a string from any of its characters on. *)
Lemma str_drop m a l n : (n <= length l)%nat -> str m a l -> str m (a + Z.of_nat n) (drop n l).
Proof.
  intros Hn [Hb Hc]. split; [|by apply Forall_drop].
  rewrite <- (take_drop n l), <- app_assoc in Hb. apply bytes_app in Hb as [_ Hb].
  by rewrite length_take_le in Hb by done.
Qed.

Lemma wp_strlen m a l (Q : Z -> mem -> Prop) :
  str m a l -> Q (Z.of_nat (length l)) m -> wp (strlen a) Q m.
Proof.
  intros H HQ. unfold strlen. wp_simpl. eapply wp_skip_string; [exact H|]. wp_simpl.
  by replace (a + Z.of_nat (length l) - a) with (Z.of_nat (length l)) by lia.
Qed.

(** The first occurrence of [c], by index. *)
Fixpoint index_of (c : Z) (l : list Z) : option nat :=
  match l with
  | [] => None
  | x :: l' => if x =? c then Some 0%nat else S <$> index_of c l'
  end.

Lemma wp_strchr m a c l (Q : Z -> mem -> Prop) :
  str m a l -> char_ok c ->
  Q (match index_of c l with Some i => a + Z.of_nat i | None => 0 end) m -> wp (strchr a c) Q m.
Proof.
  intros H Hc HQ. unfold strchr. wp_simpl. unfold char_ok in Hc. rewrite u8_small by lia.
  assert (Hf : (length l < mem_fuel m)%nat) by (pose proof (str_size _ _ _ H); unfold mem_fuel; lia).
  revert Hf. generalize (mem_fuel m). intros fuel. destruct H as [H Hl]. revert fuel a H Hl HQ.
  induction l as [|x l IH]; intros fuel a H Hl HQ Hf;
    (destruct fuel as [|fuel]; [cbn in Hf; lia|]); cbn [loop]; wp_simpl.
  - destruct H as [H _]. eapply wp_rd8; [exact H|]. destruct (Z.eqb_spec 0 c); [lia|]. cbn. by wp_simpl.
  - destruct H as [H H']. eapply wp_rd8; [exact H|]. apply Forall_cons in Hl as [Hx Hl].
    unfold char_ok in Hx. cbn [index_of] in HQ. destruct (Z.eqb_spec x c).
    + wp_simpl. by rewrite Z.add_0_r in HQ.
    + destruct (Z.eqb_spec x 0); [lia|]. wp_simpl. apply IH; [exact H'|done| |cbn in Hf; lia].
      destruct (index_of c l) as [i|]; [|done]. cbn in HQ.
      by replace (a + 1 + Z.of_nat i) with (a + Z.of_nat (S i)) by lia.
Qed.

(** Copying a string to where it does not overlap. *)
Lemma wp_strcpy_loop m dest src l (Q : unit -> mem -> Prop) :
  str m src l -> mapped m dest (Z.of_nat (length l) + 1) ->
  (dest + Z.of_nat (length l) < src \/ src + Z.of_nat (length l) < dest) ->
  (forall m', stored m m' dest (l ++ [0]) -> Q tt m') -> wp (strcpy_loop dest src) Q m.
Proof.
  intros H Hm Hd HQ. unfold strcpy_loop. wp_simpl.
  assert (Hf : (length l < mem_fuel m)%nat) by (pose proof (str_size _ _ _ H); unfold mem_fuel; lia).
  revert Hf. generalize (mem_fuel m). intros fuel. destruct H as [H Hl].
  revert fuel m dest src H Hl Hm Hd HQ.
  induction l as [|x l IH]; intros fuel m dest src H Hl Hm Hd HQ Hf;
    (destruct fuel as [|fuel]; [cbn in Hf; lia|]); cbn [loop]; wp_simpl.
  - destruct H as [H _]. eapply wp_rd8; [exact H|]. wp_simpl. eapply wp_wr8.
    { replace dest with (dest + 0) by lia. apply Hm. cbn. lia. }
    cbn. wp_simpl. apply HQ. split; [cbn; by rewrite lookup_insert_eq|].
    cbn. intros b Hb. rewrite lookup_insert_ne by lia. done.
  - destruct H as [H H']. apply Forall_cons in Hl as [Hx Hl]. unfold char_ok in Hx.
    cbn [length] in *. eapply wp_rd8; [exact H|]. wp_simpl. eapply wp_wr8.
    { replace dest with (dest + 0) by lia. apply Hm. lia. }
    destruct (Z.eqb_spec x 0); [lia|]. cbn [negb]. wp_simpl. rewrite u8_small by lia. apply IH.
    + eapply bytes_ext; [|exact H']. rewrite length_app. cbn. intros b Hb.
      rewrite lookup_insert_ne by lia. done.
    + done.
    + intros i Hi. rewrite lookup_insert. case_decide; [done|].
      replace (dest + 1 + i) with (dest + (1 + i)) by lia. apply Hm. lia.
    + lia.
    + intros m' [Hin Hout]. rewrite length_app in Hout. cbn in Hout. apply HQ. split.
      * cbn. split; [|exact Hin]. rewrite Hout by lia. by rewrite lookup_insert_eq.
      * cbn. rewrite length_app. cbn. intros b Hb. rewrite Hout by lia. by rewrite lookup_insert_ne by lia.
    + lia.
Qed.

(** Appending a string that does not overlap with the room at [dest]. *)
Lemma wp_strcat m dest src d l (Q : Z -> mem -> Prop) :
  str m dest d -> str m src l -> mapped m dest (Z.of_nat (length d + length l) + 1) ->
  (dest + Z.of_nat (length d + length l) < src \/ src + Z.of_nat (length l) < dest) ->
  (forall m', str m' dest (d ++ l) ->
     (forall b, ~ (dest <= b <= dest + Z.of_nat (length d + length l)) -> m' !! b = m !! b) -> Q dest m') ->
  wp (strcat dest src) Q m.
Proof.
  intros Hd Hl Hm Hdis HQ. unfold strcat. wp_simpl. eapply wp_skip_string; [exact Hd|]. wp_simpl.
  eapply wp_strcpy_loop; [exact Hl| | |].
  - intros i Hi. rewrite <- Z.add_assoc. apply Hm. lia.
  - lia.
  - intros m' [Hin Hout]. rewrite length_app in Hout. cbn in Hout. wp_simpl. apply HQ.
    + split; [|apply Forall_app; split; [exact (proj2 Hd)|exact (proj2 Hl)]].
      rewrite <- app_assoc. apply bytes_app. split; [|exact Hin].
      destruct Hd as [Hd _]. apply bytes_app in Hd as [Hd _]. eapply bytes_ext; [|exact Hd].
      intros b Hb. apply Hout. lia.
    + intros b Hb. apply Hout. lia.
Qed.

(** ** Properties *)

Definition demo_mem : mem :=
  list_to_map (zip (seqZ 100 8) [97; 98; 99; 0; 97; 98; 100; 0]).

Lemma demo_mem_ok : mem_ok demo_mem.
Proof.
  intros a c H. apply elem_of_list_to_map_2, list_elem_of_In in H. cbn in H. unfold byte.
  repeat (destruct H as [[= <- <-]|H]; [lia|]). destruct H.
Qed.

(** [memmove] is a copy also when the areas overlap, in either direction:
    it returns [dest], every byte of the destination is the byte that was at the
    source before, and no other byte changes. *)
Theorem memmove_correct m dest src n :
  mem_ok m -> 0 <= n -> mapped m src n -> mapped m dest n ->
  exists m', memmove dest src n m = Ok (dest, m') /\ copied m m' dest src n.
Proof.
  intros Hok Hn Hs Hd.
  destruct (wp_elim (memmove dest src n) (fun r m' => r = dest /\ copied m m' dest src n) m)
    as (r & m' & E & -> & H); [|eauto].
  unfold memmove. wp_simpl. destruct (Z.leb_spec dest src).
  - apply wp_copy_up; try done. intros k j Hj Hk. lia.
  - apply wp_copy_down; try done.
Qed.

Lemma memmove_correct_witness :
  exists m', memmove 101 100 3 demo_mem = Ok (101, m') /\ copied demo_mem m' 101 100 3.
Proof.
  apply (memmove_correct demo_mem 101 100 3 demo_mem_ok); [lia| |];
    intros i Hi; assert (i = 0 \/ i = 1 \/ i = 2) as [ -> | [ -> | -> ]] by lia;
    eexists; vm_compute; reflexivity.
Defined.

(** [strcmp] compares as the lexicographic order on unsigned characters
    does, with a prefix before its extensions: it returns -1, 0 or 1. *)
Theorem strcmp_correct m a b l1 l2 :
  str m a l1 -> str m b l2 -> strcmp a b m = Ok (strcmp_l l1 l2, m).
Proof.
  intros H1 H2. destruct (wp_elim (strcmp a b) (fun r m' => r = strcmp_l l1 l2 /\ m' = m) m)
    as (r & m' & E & -> & ->); [|done]. by eapply wp_strcmp.
Qed.

Lemma strcmp_correct_witness : strcmp 100 104 demo_mem = Ok (-1, demo_mem).
Proof.
  apply (strcmp_correct demo_mem 100 104 [97; 98; 99] [97; 98; 100]).
  - split; [repeat split; vm_compute; reflexivity|]. repeat constructor; lia.
  - split; [repeat split; vm_compute; reflexivity|]. repeat constructor; lia.
Defined.

(** [memcmp] keeps the difference of two bytes in a [signed char], so for
    bytes that differ by 128 or more its sign is the wrong one. *)
Theorem memcmp_wrong_sign m a b x y :
  m !! a = Some x -> m !! b = Some y -> 128 <= x - y < 256 ->
  exists r, memcmp a b 1 m = Ok (r, m) /\ r < 0.
Proof.
  intros Ha Hb Hd. exists (x - y - 256). split; [|lia].
  assert (E : s8 (x - y) = x - y - 256).
  { unfold s8, signed. change (2 ^ 8) with 256. rewrite Z.mod_small by lia.
    destruct (Z.ltb_spec (x - y) (2 ^ (8 - 1))); cbn in *; lia. }
  destruct (wp_elim (memcmp a b 1) (fun r m' => r = x - y - 256 /\ m' = m) m)
    as (r & m' & -> & -> & ->); [|done].
  unfold memcmp. change (S (Z.to_nat 1)) with 2%nat. cbn [loop]. wp_simpl. cbn [Z.ltb Z.compare].
  wp_simpl. eapply wp_rd8; [exact Ha|]. wp_simpl. eapply wp_rd8; [exact Hb|].
  rewrite E. destruct (Z.eqb_spec (x - y - 256) 0); [lia|]. cbn [negb]. by wp_simpl.
Qed.

Lemma memcmp_wrong_sign_witness :
  exists r, memcmp 10 20 1 (<[10 := 200]> (<[20 := 3]> ∅)) = Ok (r, <[10 := 200]> (<[20 := 3]> ∅)) /\ r < 0.
Proof.
  apply (memcmp_wrong_sign (<[10 := 200]> (<[20 := 3]> ∅)) 10 20 200 3); [reflexivity|reflexivity|lia].
Defined.
