(* ===== verification/Bytes.v ===== *)
(** * Bytes: numbers and blocks of bytes in memory

    Little-endian numbers in lists of bytes, reading and writing blocks, and the
    string at the beginning of a buffer; shared by the log, the file system and
    the module loader. *)

From stdpp Require Import strings.
From S2P Require Import Prelude KList Str.

(** The characters of a string constant. *)
Definition chars (s : string) : list Z :=
  (fun c => Z.of_nat (Ascii.nat_of_ascii c)) <$> String.list_ascii_of_string s.
Arguments chars s%_string.

(** ** Reading and writing *)

Definition le16 (l : list Z) (i : nat) : Z := default 0 (l !! i) + 256 * default 0 (l !! S i).
Definition le32 (l : list Z) (i : nat) : Z := le16 l i + 65536 * le16 l (i + 2)%nat.

Fixpoint read_bytes (a : Z) (n : nat) : M mem (list Z) :=
  match n with
  | O => ret []
  | S n => c <- rd8 a ;; l <- read_bytes (a + 1) n ;; ret (c :: l)
  end.

Definition bytes16 (v : Z) : list Z := [v mod 256; v / 256 mod 256].
Definition bytes32 (v : Z) : list Z := bytes16 (v mod 65536) ++ bytes16 (v / 65536 mod 65536).

Fixpoint write_bytes (a : Z) (l : list Z) : M mem unit :=
  match l with [] => ret tt | c :: l' => wr8 a c ;;; write_bytes (a + 1) l' end.

(** The characters before the first zero. *)
Fixpoint c_string (l : list Z) : list Z :=
  match l with
  | [] => []
  | c :: l' => if c =? 0 then [] else c :: c_string l'
  end.

(** ** Little-endian numbers *)

Fixpoint le (l : list Z) : Z := match l with [] => 0 | b :: l' => b + 256 * le l' end.

Lemma le_drop l i : Forall byte l -> le l / 2 ^ (8 * Z.of_nat i) = le (drop i l).
Proof.
  intros Hb. revert i. induction Hb as [|b l Hb Hl IH]; intros i.
  - rewrite drop_nil. cbn. apply Zdiv_0_l.
  - destruct i as [|i]; [cbn [Z.of_nat]; rewrite Z.mul_0_r, Z.pow_0_r, Z.div_1_r, drop_0; done|].
    cbn [drop le]. rewrite <- IH. replace (8 * Z.of_nat (S i)) with (8 + 8 * Z.of_nat i) by lia.
    rewrite Z.pow_add_r by lia. change (2 ^ 8) with 256. rewrite <- Z.div_div by lia.
    f_equal. unfold byte in Hb. rewrite Z.mul_comm, Z.div_add by lia. rewrite Z.div_small by lia. lia.
Qed.

Lemma lookup_byte l i : Forall byte l -> 0 <= default 0 (l !! i) < 256.
Proof.
  intros Hb. destruct (l !! i) as [b|] eqn:E; cbn; [|lia]. rewrite Forall_lookup in Hb.
  exact (Hb _ _ E).
Qed.

Lemma le_mod16 l : Forall byte l -> le l mod 2 ^ 16 = le16 l 0.
Proof.
  intros Hb. unfold le16. destruct l as [|a [|b l]]; [done| |].
  - apply Forall_cons in Hb as [Ha _]. unfold byte in Ha. cbn. rewrite Z.mod_small; lia.
  - apply Forall_cons in Hb as [Ha Hb]. apply Forall_cons in Hb as [Hb _]. unfold byte in *. cbn [le lookup list_lookup default].
    cbn. replace (a + 256 * (b + 256 * le l)) with (a + 256 * b + le l * 65536) by lia.
    change (Z.pow_pos 2 16) with 65536. rewrite Z.mod_add by lia. apply Z.mod_small. lia.
Qed.

Lemma le16_drop l i j : le16 (drop i l) j = le16 l (i + j).
Proof. unfold le16. rewrite !lookup_drop. by rewrite Nat.add_succ_r. Qed.

Lemma le16_value l i : Forall byte l -> le16 l i = (le l / 2 ^ (8 * Z.of_nat i)) mod 2 ^ 16.
Proof.
  intros Hb. rewrite le_drop by done. rewrite le_mod16 by (by apply Forall_drop).
  by rewrite le16_drop, Nat.add_0_r.
Qed.

Lemma le32_value l i : Forall byte l -> le32 l i = (le l / 2 ^ (8 * Z.of_nat i)) mod 2 ^ 32.
Proof.
  intros Hb. unfold le32. rewrite !le16_value by done.
  replace (8 * Z.of_nat (i + 2)) with (8 * Z.of_nat i + 16) by lia.
  rewrite Z.pow_add_r, <- Z.div_div by lia. set (x := le l / _).
  change (2 ^ 32) with (2 ^ 16 * 2 ^ 16). change 65536 with (2 ^ 16).
  by rewrite (Z.rem_mul_r x (2 ^ 16) (2 ^ 16)) by lia.
Qed.

Lemma le16_app_window l o k j :
  (S j < k)%nat -> le16 (take k (drop o l)) j = le16 l (o + j).
Proof.
  intros Hj. unfold le16. rewrite !lookup_take_lt, !lookup_drop by lia. by rewrite Nat.add_succ_r.
Qed.

Lemma le32_window l o k j :
  (j + 3 < k)%nat -> le32 (take k (drop o l)) j = le32 l (o + j).
Proof. intros Hj. unfold le32. rewrite !le16_app_window by lia. by rewrite Nat.add_assoc. Qed.

Lemma read_bytes_eq m l : forall a, bytes m a l -> read_bytes a (length l) m = Ok (l, m).
Proof.
  induction l as [|c l IH]; intros a Hb; [done|]. destruct Hb as [Hc Hb]. cbn [read_bytes length].
  unfold bind, rd8, bind, gets, id. rewrite Hc. cbn [lift_opt ret]. by rewrite (IH _ Hb).
Qed.

Lemma bytes_slice m a l o k :
  (o + k <= length l)%nat -> bytes m a l -> bytes m (a + Z.of_nat o) (take k (drop o l)).
Proof.
  intros Hk Hb. rewrite <- (take_drop o l) in Hb. apply bytes_app in Hb as [_ Hb].
  rewrite length_take_le in Hb by lia. rewrite <- (take_drop k (drop o l)) in Hb.
  by apply bytes_app in Hb as [Hb _].
Qed.


Lemma wp_write_bytes l : forall m a (Q : unit -> mem -> Prop),
  Forall byte l -> mapped m a (Z.of_nat (length l)) -> (forall m', stored m m' a l -> Q tt m') ->
  wp (write_bytes a l) Q m.
Proof.
  induction l as [|c l IH]; intros m a Q Hb Hm HQ; cbn [write_bytes].
  - wp_simpl. apply HQ. split; done.
  - apply Forall_cons in Hb as [Hc Hb]. unfold byte in Hc. wp_simpl. eapply wp_wr8.
    { replace a with (a + 0) by lia. apply Hm. cbn. lia. }
    rewrite u8_small by lia. apply IH; [done| |].
    + intros i Hi. rewrite lookup_insert. case_decide; [done|].
      replace (a + 1 + i) with (a + (1 + i)) by lia. apply Hm. cbn [length]. lia.
    + intros m' [Hin Hout]. apply HQ. split.
      * cbn. split; [|exact Hin]. rewrite Hout by lia. by rewrite lookup_insert_eq.
      * cbn [length]. intros b Hb'. rewrite Hout by lia. by rewrite lookup_insert_ne by lia.
Qed.

Lemma bytes16_byte v : Forall byte (bytes16 v).
Proof. unfold bytes16. repeat constructor; apply Z.mod_pos_bound; lia. Qed.
Lemma bytes32_byte v : Forall byte (bytes32 v).
Proof. apply Forall_app. split; apply bytes16_byte. Qed.
