(* ===== verification/Symtab.v ===== *)
(** * kernel/symtab.c: the kernel's symbol table

    The table [symbols] is generated by the build: its entries in the order of
    their names, then the entry [{0, 0}]; [symbols_nelts] counts that last entry
    too (tools/make-symbols-nm).  A name is [None] for a null pointer.  Names are
    compared as [strcmp] does. *)

From S2P Require Import Prelude KList Str.

Record symbols : Type := mk_symbol { sym_name : option (list Z); sym_value : Z }.

(** [strcmp(name, symbols[i].name)] *)
Definition cmp_at (table : list symbols) (name : list Z) (i : Z) : outcome Z :=
  match (if i <? 0 then None else table !! Z.to_nat i) with
  | None => Err (BadIndex i)
  | Some e => match sym_name e with
              | None => Err NullDeref
              | Some n => Ok (strcmp_l name n)
              end
  end.
Definition value_at (table : list symbols) (i : Z) : Z :=
  match table !! Z.to_nat i with Some e => sym_value e | None => 0 end.

(** The binary search, which is the one that is compiled. *)
Fixpoint search (fuel : nat) (table : list symbols) (name : list Z) (start end_ : Z) : outcome Z :=
  match fuel with
  | O => Err OutOfFuel
  | S fuel =>
      if start <=? end_ then
        let middle := Z.quot (start + end_) 2 in
        match cmp_at table name middle with
        | Err e => Err e
        | Ok r => if r <? 0 then search fuel table name start (middle - 1)
                  else if 0 <? r then search fuel table name (middle + 1) end_
                  else Ok (value_at table middle)
        end
      else Ok NULL
  end.

Definition symtab_lookup (table : list symbols) (symbols_nelts : Z) (name : list Z) : outcome Z :=
  search (S (Z.to_nat symbols_nelts)) table name 0 (symbols_nelts - 1).

(** The linear search of the other branch of the [#if]. *)
Fixpoint symtab_lookup_linear (table : list symbols) (name : list Z) : outcome Z :=
  match table with
  | [] => Err (BadIndex 0)
  | e :: table' => match sym_name e with
                   | None => Ok 0
                   | Some n => if strcmp_l name n =? 0 then Ok (sym_value e)
                               else symtab_lookup_linear table' name
                   end
  end.

(** ** The table that the build generates *)

Definition entry (p : list Z * Z) : symbols := mk_symbol (Some p.1) p.2.
Definition generated (l : list (list Z * Z)) : list symbols :=
  (entry <$> l) ++ [mk_symbol None 0].

(** Names in strictly increasing order. *)
Definition sorted (l : list (list Z * Z)) : Prop :=
  forall i j a b, (i < j)%nat -> l !! i = Some a -> l !! j = Some b -> strcmp_l a.1 b.1 = -1.

Lemma generated_lookup l i p : l !! i = Some p -> generated l !! i = Some (entry p).
Proof.
  intros H. unfold generated. rewrite lookup_app_l.
  - by rewrite list_lookup_fmap, H.
  - rewrite length_fmap. by eapply lookup_lt_Some.
Qed.

Lemma generated_end l : generated l !! length l = Some (mk_symbol None 0).
Proof. unfold generated. rewrite lookup_app_r; rewrite length_fmap; [by rewrite Nat.sub_diag|lia]. Qed.

Lemma linear_spec l name :
  symtab_lookup_linear (generated l) name =
    Ok (match list_find (fun p => p.1 = name) l with Some (_, p) => p.2 | None => 0 end).
Proof.
  unfold generated. induction l as [|p l IH]; cbn; [done|].
  destruct (Z.eqb_spec (strcmp_l name p.1) 0) as [E|E].
  - apply strcmp_l_zero in E. rewrite decide_True by done. done.
  - rewrite decide_False; [|intros <-; by rewrite strcmp_l_refl in E]. rewrite IH.
    by destruct (list_find _ l) as [[i q]|].
Qed.

Section Search.
Context (l : list (list Z * Z)) (name : list Z) (Hs : sorted l).

(** What is left of [start] is smaller, what is right of [end] is larger. *)
Definition outside_lt (start : Z) : Prop :=
  forall i p, l !! i = Some p -> Z.of_nat i < start -> strcmp_l p.1 name = -1.
Definition outside_gt (end_ : Z) : Prop :=
  forall i p, l !! i = Some p -> end_ < Z.of_nat i -> strcmp_l name p.1 = -1.

Lemma below i p : l !! i = Some p -> strcmp_l name p.1 = 1 -> outside_lt (Z.of_nat i + 1).
Proof.
  intros Hi Hc j q Hj Hlt.
  assert (Hpn : strcmp_l p.1 name = -1) by (rewrite strcmp_l_anti, Hc; done).
  destruct (decide (j = i)) as [->|Hne]; [congruence|].
  eapply strcmp_l_trans; [|exact Hpn]. eapply (Hs j i); [lia|done|done].
Qed.
Lemma above i p : l !! i = Some p -> strcmp_l name p.1 = -1 -> outside_gt (Z.of_nat i - 1).
Proof.
  intros Hi Hc j q Hj Hlt. destruct (decide (j = i)) as [->|Hne]; [congruence|].
  eapply strcmp_l_trans; [exact Hc|]. eapply (Hs i j); [lia|done|done].
Qed.

Definition found : option Z :=
  match list_find (fun p => p.1 = name) l with Some (_, p) => Some p.2 | None => None end.

Lemma found_at i p : l !! i = Some p -> p.1 = name -> found = Some p.2.
Proof.
  intros Hi Hn. unfold found. destruct (list_find (fun p => p.1 = name) l) as [[j q]|] eqn:E.
  - apply list_find_Some in E as (Hj & Hq & _). destruct (Nat.lt_trichotomy i j) as [H|[->|H]].
    + pose proof (Hs i j p q H Hi Hj) as Hc. rewrite Hn, Hq, strcmp_l_refl in Hc. done.
    + congruence.
    + pose proof (Hs j i q p H Hj Hi) as Hc. rewrite Hn, Hq, strcmp_l_refl in Hc. done.
  - apply list_find_None in E. rewrite Forall_lookup in E. by destruct (E i p Hi).
Qed.

Lemma not_found start end_ :
  outside_lt start -> outside_gt end_ -> end_ < start -> found = None.
Proof.
  intros Hlt Hgt Hse. unfold found. destruct (list_find (fun p => p.1 = name) l) as [[j q]|] eqn:E; [|done].
  apply list_find_Some in E as (Hj & Hq & _). exfalso.
  destruct (Z.lt_ge_cases (Z.of_nat j) start) as [H|H].
  - pose proof (Hlt j q Hj H) as Hc. rewrite Hq, strcmp_l_refl in Hc. done.
  - pose proof (Hgt j q Hj ltac:(lia)) as Hc. rewrite Hq, strcmp_l_refl in Hc. done.
Qed.

(** Every name of the table is smaller. *)
Definition beyond : bool := forallb (fun p => strcmp_l p.1 name =? -1) l.

Lemma beyond_false i p : l !! i = Some p -> strcmp_l p.1 name <> -1 -> beyond = false.
Proof.
  intros Hi Hc. apply not_true_iff_false. intros Hb. unfold beyond in Hb. rewrite forallb_forall in Hb.
  specialize (Hb p). rewrite Z.eqb_eq in Hb. apply Hc, Hb, list_elem_of_In. by eapply list_elem_of_lookup_2.
Qed.
Lemma beyond_true : outside_lt (Z.of_nat (length l)) -> beyond = true.
Proof.
  intros H. apply forallb_forall. intros p Hp%list_elem_of_In. apply Z.eqb_eq.
  apply list_elem_of_lookup in Hp as [i Hi]. eapply H; [exact Hi|]. apply lookup_lt_Some in Hi. lia.
Qed.

(** The search over the generated table, from any state of its loop: if some
    name is not smaller than [name], the end marker is never looked at. *)
Lemma search_spec fuel start end_ :
  0 <= start <= Z.of_nat (length l) -> end_ <= Z.of_nat (length l) -> start <= end_ + 1 ->
  outside_lt start -> outside_gt end_ ->
  (Z.to_nat (end_ + 1 - start) < fuel)%nat ->
  search fuel (generated l) name start end_ =
    if beyond && (Z.of_nat (length l) <=? end_) then Err NullDeref else Ok (default 0 found).
Proof.
  revert start end_. induction fuel as [|fuel IH]; intros start end_ H0 He Hse Hlt Hgt Hf; [lia|].
  cbn [search]. destruct (Z.leb_spec start end_) as [Hle|Hgt'].
  2: { rewrite (not_found start end_) by (done || lia). destruct (Z.leb_spec (Z.of_nat (length l)) end_).
       - lia.
       - by rewrite andb_false_r. }
  set (mid := Z.quot (start + end_) 2). assert (Hmid : start <= mid <= end_).
  { unfold mid. rewrite Z.quot_div_nonneg by lia. split; [apply Z.div_le_lower_bound; lia|].
    apply Z.div_le_upper_bound; lia. }
  unfold cmp_at. destruct (Z.ltb_spec mid 0); [lia|].
  destruct (decide (mid = Z.of_nat (length l))) as [Em|Hm].
  - (* the end marker *)
    rewrite Em, Nat2Z.id, generated_end. cbn.
    assert (start = Z.of_nat (length l) /\ end_ = Z.of_nat (length l)) as [-> ->].
    { unfold mid in Em. rewrite Z.quot_div_nonneg in Em by lia.
      pose proof (Z.mul_div_le (start + end_) 2 ltac:(lia)). lia. }
    rewrite beyond_true by done. by rewrite Z.leb_refl.
  - destruct (lookup_lt_is_Some_2 l (Z.to_nat mid) ltac:(lia)) as [p Hp].
    rewrite (generated_lookup l _ p Hp). cbn [sym_name entry].
    destruct (strcmp_l_sign name p.1) as [Hc|[Hc|Hc]]; rewrite Hc; cbn [Z.ltb Z.compare].
    + rewrite IH; [| lia | lia | lia | done | | lia].
      * rewrite (beyond_false _ _ Hp); [done|]. rewrite strcmp_l_anti, Hc. done.
      * replace (mid - 1) with (Z.of_nat (Z.to_nat mid) - 1) by lia. by eapply above.
    + assert (Hn : p.1 = name) by (symmetry; by apply strcmp_l_zero).
      rewrite (found_at _ _ Hp Hn), (beyond_false _ _ Hp) by (by rewrite Hn, strcmp_l_refl).
      cbn. unfold value_at. by rewrite (generated_lookup l _ p Hp).
    + apply IH; [lia|lia|lia| |done|lia].
      replace (mid + 1) with (Z.of_nat (Z.to_nat mid) + 1) by lia. by eapply below.
Qed.
End Search.

(** ** Properties *)

(** The lookup over a table that the build generates, described completely:
    with the names in order, it finds the value of a name that is in the table
    and returns NULL for one that is not, but faults on the end marker's null
    name when the name comes after every name of the table. *)
Theorem symtab_lookup_spec l name :
  sorted l ->
  symtab_lookup (generated l) (Z.of_nat (length l) + 1) name =
    if beyond l name then Err NullDeref else Ok (default 0 (found l name)).
Proof.
  intros Hs. unfold symtab_lookup. rewrite (search_spec l name Hs); try lia.
  - replace (Z.of_nat (length l) + 1 - 1) with (Z.of_nat (length l)) by lia.
    by rewrite Z.leb_refl, andb_true_r.
  - intros i p _ H. lia.
  - intros i p Hi H. apply lookup_lt_Some in Hi. lia.
Qed.

Definition demo_table : list (list Z * Z) := [([97], 10); ([98; 99], 20); ([99], 30)].

Lemma demo_sorted : sorted demo_table.
Proof.
  intros i j a b Hij Hi Hj. assert (j < 3)%nat by (apply lookup_lt_Some in Hj; exact Hj).
  assert ((i = 0 /\ j = 1) \/ (i = 0 /\ j = 2) \/ (i = 1 /\ j = 2))%nat as Hc by lia.
  destruct Hc as [[-> ->]|[[-> ->]|[-> ->]]]; cbn in Hi, Hj; injection Hi as <-; injection Hj as <-;
    reflexivity.
Qed.

Lemma symtab_lookup_spec_witness :
  symtab_lookup (generated demo_table) 4 [98; 99] = Ok 20 /\
  symtab_lookup (generated demo_table) 4 [100] = Err NullDeref.
Proof.
  split.
  - etransitivity; [exact (symtab_lookup_spec demo_table [98; 99] demo_sorted)|reflexivity].
  - etransitivity; [exact (symtab_lookup_spec demo_table [100] demo_sorted)|reflexivity].
Defined.

(** The binary search and the linear search that the [#if] chooses between
    agree on every table in order and every name that does not come after all
    names of the table. *)
Theorem symtab_binary_linear l name :
  sorted l -> beyond l name = false ->
  symtab_lookup (generated l) (Z.of_nat (length l) + 1) name = symtab_lookup_linear (generated l) name.
Proof.
  intros Hs Hb. rewrite linear_spec. unfold symtab_lookup. rewrite (search_spec l name Hs); try lia.
  - rewrite Hb. cbn [andb]. unfold found. by destruct (list_find _ l) as [[i p]|].
  - intros i p _ H. lia.
  - intros i p Hi H. apply lookup_lt_Some in Hi. lia.
Qed.

Lemma symtab_binary_linear_witness :
  symtab_lookup (generated demo_table) 4 [98] = symtab_lookup_linear (generated demo_table) [98].
Proof. apply (symtab_binary_linear demo_table [98] demo_sorted). reflexivity. Defined.
