(* ===== verification/Printk.v ===== *)
(** * kernel/printk.c: formatted output

    [vsnprintf] walks over the format once; the characters it stores are
    collected in order, so that their number can be compared with the size of
    the buffer.  The variable arguments are a list of numbers and strings. *)

From stdpp Require Import strings.
From S2P Require Import Prelude KList KState Str Bytes.

Definition LONGFLAG : Z := 1.
Definition LONGLONGFLAG : Z := 2.
Definition HALFFLAG : Z := 4.
Definition HALFHALFFLAG : Z := 8.
Definition SIZETFLAG : Z := 16.
Definition ALTFLAG : Z := 32.
Definition CAPSFLAG : Z := 64.
Definition SHOWSIGNFLAG : Z := 128.
Definition SIGNEDFLAG : Z := 256.
Definition LEFTFORMATFLAG : Z := 512.
Definition LEADZEROFLAG : Z := 1024.

Definition has (flags f : Z) : bool := negb (Z.land flags f =? 0).

(** ** Numbers *)

(** The digits of the loop of [longlong_to_string], last digit first; the
    division is on 32 bits. *)
Fixpoint dec_digits (fuel : nat) (n : Z) : list Z :=
  match fuel with
  | O => []
  | S fuel => if 10 <=? n then (u32 n mod 10 + 48) :: dec_digits fuel (u32 n / 10)
              else [n + 48]
  end.

(** Twelve turns are enough: after the first one [n] is below 2^32. *)
Definition longlong_to_string (n : Z) (flag : Z) : list Z :=
  let negative := has flag SIGNEDFLAG && (s64 n <? 0) in
  let n := if negative then u64 (- n) else n in
  let digits := rev (dec_digits 12 n) in
  if negative then 45 :: digits
  else if has flag SHOWSIGNFLAG then 43 :: digits
  else digits.

Definition hextable (caps : bool) (d : Z) : Z :=
  if d <? 10 then d + 48 else if caps then d - 10 + 65 else d - 10 + 97.

Fixpoint hex_digits (fuel : nat) (caps : bool) (u : Z) : list Z :=
  match fuel with
  | O => []
  | S fuel => hextable caps (u mod 16) :: (if u / 16 =? 0 then [] else hex_digits fuel caps (u / 16))
  end.

Definition longlong_to_hexstring (u flag : Z) : list Z :=
  rev (hex_digits 16 (has flag CAPSFLAG) u).

(** ** [vsnprintf] *)

Inductive varg : Type :=
| VNum (n : Z)
| VStr (s : option (list Z)).

Record pstate : Type := mk_ps {
  p_out : list Z;     (** what was stored in the buffer, in order *)
  p_ap : list varg;   (** the arguments that are left *)
  p_n : list Z        (** what [%n] stored *)
}.

(** [va_arg] *)
Definition next_num (st : pstate) : outcome (Z * pstate) :=
  match p_ap st with
  | VNum n :: ap => Ok (n, mk_ps (p_out st) ap (p_n st))
  | _ => Err (BadAddr 0)
  end.
Definition next_str (st : pstate) : outcome (option (list Z) * pstate) :=
  match p_ap st with
  | VStr s :: ap => Ok (s, mk_ps (p_out st) ap (p_n st))
  | _ => Err (BadAddr 0)
  end.

(** [OUTPUT_CHAR]: [true] is the [goto done]. *)
Definition OUTPUT_CHAR (len c : Z) (st : pstate) : bool * pstate :=
  let st := mk_ps (p_out st ++ [u8 c]) (p_ap st) (p_n st) in
  (Z.of_nat (length (p_out st)) + 1 =? len, st).

(** One character after the other, until the buffer is full. *)
Fixpoint output (len : Z) (l : list Z) (st : pstate) : bool * pstate :=
  match l with
  | [] => (false, st)
  | c :: l' => let '(stop, st) := OUTPUT_CHAR len c st in
               if (stop : bool) then (true, st) else output len l' st
  end.

(** The signed and the unsigned reading of a number argument, by its flags; the
    result is an [unsigned long long]. *)
Definition arg_signed (flags n : Z) : Z :=
  u64 (if has flags LONGLONGFLAG then s64 n
       else if has flags LONGFLAG then s32 n
       else if has flags HALFHALFFLAG then s8 n
       else if has flags HALFFLAG then s16 n
       else s32 n).
Definition arg_unsigned (flags n : Z) : Z :=
  if has flags LONGLONGFLAG then u64 n
  else if has flags LONGFLAG then u32 n
  else if has flags HALFHALFFLAG then u8 n
  else if has flags HALFFLAG then u16 n
  else u32 n.

(** [_output_string] *)
Definition output_string (len flags format_num : Z) (s : list Z) (st : pstate) : bool * pstate :=
  let pad := Z.to_nat (format_num - Z.of_nat (length s)) in
  if has flags LEFTFORMATFLAG then output len (s ++ replicate pad 32) st
  else output len (replicate pad (if has flags LEADZEROFLAG then 48 else 32) ++ s) st.

(** What a format character does: read on with new flags and width, or output. *)
Inductive faction : Type :=
| FMore (flags format_num : Z)
| FOut (r : bool * pstate).

Definition null_text : list Z := [60; 110; 117; 108; 108; 62].

Definition do_hex (len flags format_num : Z) (st : pstate) : outcome faction :=
  match next_num st with
  | Err e => Err e
  | Ok (n, st) =>
      let s := longlong_to_hexstring (arg_unsigned flags n) flags in
      let '(stop, st) := if has flags ALTFLAG
                         then output len [48; if has flags CAPSFLAG then 88 else 120] st
                         else (false, st) in
      if (stop : bool) then Ok (FOut (true, st)) else Ok (FOut (output_string len flags format_num s st))
  end.

Definition format_char (len flags format_num c : Z) (st : pstate) : outcome faction :=
  let dec signed flags :=
    match next_num st with
    | Err e => Err e
    | Ok (n, st) =>
        let n := if (signed : bool) then arg_signed flags n else arg_unsigned flags n in
        let flags := if signed then Z.lor flags SIGNEDFLAG else flags in
        Ok (FOut (output_string len flags format_num (longlong_to_string n flags) st))
    end in
  if (48 <=? c) && (c <=? 57) then
    let flags := if (c =? 48) && (format_num =? 0) then Z.lor flags LEADZEROFLAG else flags in
    Ok (FMore flags (u32 (format_num * 10 + (c - 48))))
  else if c =? 46 (* . *) then Ok (FMore flags format_num)
  else if c =? 37 (* % *) then Ok (FOut (output len [37] st))
  else if c =? 99 (* c *) then
    match next_num st with Err e => Err e | Ok (n, st) => Ok (FOut (output len [u8 n] st)) end
  else if c =? 115 (* s *) then
    match next_str st with
    | Err e => Err e
    | Ok (s, st) => Ok (FOut (output_string len flags format_num (default null_text s) st))
    end
  else if c =? 45 (* - *) then Ok (FMore (Z.lor flags LEFTFORMATFLAG) format_num)
  else if c =? 43 (* + *) then Ok (FMore (Z.lor flags SHOWSIGNFLAG) format_num)
  else if c =? 35 (* # *) then Ok (FMore (Z.lor flags ALTFLAG) format_num)
  else if c =? 108 (* l *) then
    let flags := if has flags LONGFLAG then Z.lor flags LONGLONGFLAG else flags in
    Ok (FMore (Z.lor flags LONGFLAG) format_num)
  else if c =? 104 (* h *) then
    let flags := if has flags HALFFLAG then Z.lor flags HALFHALFFLAG else flags in
    Ok (FMore (Z.lor flags HALFFLAG) format_num)
  else if c =? 122 (* z *) then Ok (FMore (Z.lor flags SIZETFLAG) format_num)
  else if c =? 68 (* D *) then dec true (Z.lor flags LONGFLAG)
  else if (c =? 105) || (c =? 100) (* i d *) then dec true flags
  else if c =? 85 (* U *) then dec false (Z.lor flags LONGFLAG)
  else if c =? 117 (* u *) then dec false flags
  else if c =? 112 (* p *) then do_hex len (Z.lor flags (Z.lor LONGFLAG ALTFLAG)) format_num st
  else if c =? 88 (* X *) then do_hex len (Z.lor flags CAPSFLAG) format_num st
  else if c =? 120 (* x *) then do_hex len flags format_num st
  else if c =? 110 (* n *) then
    match next_num st with
    | Err e => Err e
    | Ok (_, st) => Ok (FOut (false, mk_ps (p_out st) (p_ap st) (p_n st ++ [Z.of_nat (length (p_out st))])))
    end
  else Ok (FOut (output len [37; c] st)).

(** The main loop: [spec] is the flags and the width after a [%]. *)
Fixpoint format_loop (len : Z) (fmt : list Z) (spec : option (Z * Z)) (st : pstate) : outcome pstate :=
  match fmt with
  | [] => Ok st
  | c :: fmt' =>
      match spec with
      | None => if c =? 37 then format_loop len fmt' (Some (0, 0)) st
                else let '(stop, st) := OUTPUT_CHAR len c st in
                     if (stop : bool) then Ok st else format_loop len fmt' None st
      | Some (flags, format_num) =>
          match format_char len flags format_num c st with
          | Err e => Err e
          | Ok (FMore flags format_num) => format_loop len fmt' (Some (flags, format_num)) st
          | Ok (FOut (stop, st)) => if (stop : bool) then Ok st else format_loop len fmt' None st
          end
      end
  end.

(** What is stored in the buffer, and the result. *)
Definition vsnprintf (len : Z) (fmt : list Z) (ap : list varg) : outcome (list Z * Z) :=
  match format_loop len fmt None (mk_ps [] ap []) with
  | Err e => Err e
  | Ok st => Ok (p_out st ++ [0], Z.of_nat (length (p_out st)))
  end.

(** ** Lemmas *)

Lemma output_len len l st : 
  Z.of_nat (length (p_out st)) + 1 < len ->
  let '(stop, st') := output len l st in
  if (stop : bool) then Z.of_nat (length (p_out st')) + 1 = len
  else Z.of_nat (length (p_out st')) + 1 < len.
Proof.
  revert st. induction l as [|c l IH]; intros st H; cbn; [done|].
  rewrite length_app. cbn [length]. destruct (Z.eqb_spec (Z.of_nat (length (p_out st) + 1) + 1) len).
  - cbn. rewrite length_app. cbn. lia.
  - apply IH. cbn. rewrite length_app. cbn. lia.
Qed.

(** What is stored is bytes, and there is room for one more and the zero; a stop
    is at the last place. *)
Definition in_room (len : Z) (st : pstate) : Prop :=
  Z.of_nat (length (p_out st)) + 1 < len /\ Forall byte (p_out st).
Definition out_ok (len : Z) (r : bool * pstate) : Prop :=
  if r.1 then Z.of_nat (length (p_out r.2)) + 1 = len /\ Forall byte (p_out r.2) else in_room len r.2.

Lemma output_bytes len l st : Forall byte (p_out st) -> Forall byte (p_out (output len l st).2).
Proof.
  revert st. induction l as [|c l IH]; intros st H; [done|]. cbn [output]. unfold OUTPUT_CHAR.
  assert (H1 : Forall byte (p_out st ++ [u8 c])) by (apply Forall_app; split; [done|constructor; [apply u8_range|done]]).
  destruct (_ =? _); [done|]. by apply IH.
Qed.

Lemma output_ok len l st : in_room len st -> out_ok len (output len l st).
Proof.
  intros [H Hb]. pose proof (output_len len l st H) as Ho. pose proof (output_bytes len l st Hb) as Hb'.
  unfold out_ok, in_room. by destruct (output len l st) as [[] st'].
Qed.

Lemma output_string_ok len flags n s st : in_room len st -> out_ok len (output_string len flags n s st).
Proof. intros H. unfold output_string. destruct (has _ _); by apply output_ok. Qed.

Lemma next_num_ok st n st' : next_num st = Ok (n, st') -> p_out st' = p_out st.
Proof. unfold next_num. destruct (p_ap st) as [|[]]; [done| |done]. by intros [= <- <-]. Qed.
Lemma next_str_ok st s st' : next_str st = Ok (s, st') -> p_out st' = p_out st.
Proof. unfold next_str. destruct (p_ap st) as [|[]]; [done|done|]. by intros [= <- <-]. Qed.

Lemma in_room_ext len st st' : p_out st' = p_out st -> in_room len st -> in_room len st'.
Proof. unfold in_room. by intros ->. Qed.
Lemma in_room_start len ap : 2 <= len -> in_room len (mk_ps [] ap []).
Proof. split; [cbn; lia|constructor]. Qed.

Lemma do_hex_ok len flags n st a :
  in_room len st -> do_hex len flags n st = Ok a ->
  match a with FMore _ _ => True | FOut r => out_ok len r end.
Proof.
  intros H. unfold do_hex. destruct (next_num st) as [[v st1]|] eqn:E; [|done].
  apply next_num_ok in E. pose proof (in_room_ext _ _ _ E H) as H1.
  set (r := if has flags ALTFLAG then _ else _).
  assert (Hr : out_ok len r) by (unfold r; destruct (has flags ALTFLAG); [by apply output_ok|done]).
  destruct r as [[] st2]; intros [= <-]; [done|]. by apply output_string_ok.
Qed.

Lemma format_char_ok len flags n c st a :
  in_room len st -> format_char len flags n c st = Ok a ->
  match a with FMore _ _ => True | FOut r => out_ok len r end.
Proof.
  intros H. unfold format_char.
  repeat match goal with
  | |- (if ?b then _ else _) = _ -> _ => destruct b
  | |- Ok _ = Ok _ -> _ => intros [= <-]
  | |- context [match next_num st with _ => _ end] => destruct (next_num st) as [[? ?]|] eqn:?; [|done]
  | |- context [match next_str st with _ => _ end] => destruct (next_str st) as [[? ?]|] eqn:?; [|done]
  end;
  repeat match goal with
  | E : next_num _ = Ok _ |- _ => apply next_num_ok in E
  | E : next_str _ = Ok _ |- _ => apply next_str_ok in E
  end;
  try done; try (by eapply do_hex_ok);
  try (apply output_ok); try (apply output_string_ok); try (by eapply in_room_ext); try done.
  - exact (output_ok len [37] st H).
  - match goal with E : p_out ?p = _ |- _ => exact (output_ok len [u8 _] p (in_room_ext _ _ _ E H)) end.
  - exact (output_ok len [37; c] st H).
Qed.

Lemma format_loop_ok len fmt spec st st' :
  in_room len st -> format_loop len fmt spec st = Ok st' ->
  Z.of_nat (length (p_out st')) + 1 <= len /\ Forall byte (p_out st').
Proof.
  revert spec st. induction fmt as [|c fmt IH]; intros spec st H; cbn [format_loop].
  - intros [= <-]. destruct H. split; [lia|done].
  - destruct spec as [[flags n]|].
    + destruct (format_char len flags n c st) as [a|] eqn:E; [|done].
      apply format_char_ok in E; [|done]. destruct a as [fl n'|[[] st1]]; [by apply IH| |by apply IH].
      intros [= <-]. destruct E as [E1 E2]. cbn in *. split; [lia|done].
    + destruct (c =? 37); [by apply IH|].
      pose proof (output_ok len [c] st H) as Ho. cbn [output] in Ho.
      destruct (OUTPUT_CHAR len c st) as [[] st1]; [|by apply IH].
      intros [= <-]. destruct Ho as [E1 E2]. cbn in *. split; [lia|done].
Qed.

(** What a character behind a [%] takes of the arguments. *)
Inductive takes : Type := TMore | TNone | TNum | TStr.
Definition conv_takes (c : Z) : takes :=
  if bool_decide (c ∈ chars "0123456789.-+#lhz") then TMore
  else if bool_decide (c ∈ chars "cDidUupXxn") then TNum
  else if c =? 115 then TStr else TNone.

(** The arguments fit the format: a number or a string for each conversion. *)
Fixpoint args_fit (fmt : list Z) (in_spec : bool) (ap : list varg) : bool :=
  match fmt with
  | [] => true
  | c :: fmt' =>
      if in_spec then
        match conv_takes c, ap with
        | TMore, _ => args_fit fmt' true ap
        | TNone, _ => args_fit fmt' false ap
        | TNum, VNum _ :: ap' | TStr, VStr _ :: ap' => args_fit fmt' false ap'
        | _, _ => false
        end
      else args_fit fmt' (c =? 37) ap
  end.

Lemma output_ap len l st : p_ap (output len l st).2 = p_ap st.
Proof.
  revert st. induction l as [|c l IH]; intros st; [done|]. cbn [output]. unfold OUTPUT_CHAR.
  destruct (_ =? _); [done|]. by rewrite IH.
Qed.
Lemma output_string_ap len flags n s st : p_ap (output_string len flags n s st).2 = p_ap st.
Proof. unfold output_string. destruct (has _ _); apply output_ap. Qed.

(** A conversion that puts something out and leaves the arguments [ap]. *)
Definition puts_out (a : outcome faction) (ap : list varg) : Prop :=
  match a with Ok (FOut r) => p_ap r.2 = ap | _ => False end.

Lemma do_hex_takes len flags n st v ap : p_ap st = VNum v :: ap -> puts_out (do_hex len flags n st) ap.
Proof.
  intros E. unfold do_hex, next_num. rewrite E.
  destruct (has flags ALTFLAG); [|by cbn; rewrite output_string_ap].
  destruct (output len _ _) as [[] st1] eqn:Eo.
  - cbn. change st1 with (true, st1).2. rewrite <- Eo. by rewrite output_ap.
  - cbn. rewrite output_string_ap. change st1 with (false, st1).2. rewrite <- Eo. by rewrite output_ap.
Qed.

Definition format_char_does (len flags n c : Z) (st : pstate) : Prop :=
  match conv_takes c with
  | TMore => match format_char len flags n c st with Ok (FMore _ _) => True | _ => False end
  | TNone => puts_out (format_char len flags n c st) (p_ap st)
  | TNum => forall v ap, p_ap st = VNum v :: ap -> puts_out (format_char len flags n c st) ap
  | TStr => forall v ap, p_ap st = VStr v :: ap -> puts_out (format_char len flags n c st) ap
  end.

Lemma format_char_known len flags n st c :
  c ∈ chars "0123456789.-+#lhzcDidUupXxns%" -> format_char_does len flags n c st.
Proof.
  intros Hc. vm_compute in Hc.
  repeat (apply elem_of_cons in Hc as [->|Hc]); [..|by apply elem_of_nil in Hc];
    unfold format_char_does, format_char, puts_out; cbn -[output output_string do_hex longlong_to_string Z.lor];
    try done; try (by apply output_ap); intros v ap E;
    try (by apply (do_hex_takes _ _ _ _ v)); unfold next_num, next_str; rewrite E;
    cbn -[output output_string longlong_to_string Z.lor]; by rewrite ?output_string_ap, ?output_ap.
Qed.

Lemma digit_known c :
  (48 <=? c) && (c <=? 57) = true ->
  c = 48 \/ c = 49 \/ c = 50 \/ c = 51 \/ c = 52 \/ c = 53 \/ c = 54 \/ c = 55 \/ c = 56 \/ c = 57.
Proof. lia. Qed.

Lemma format_char_other len flags n st c :
  c ∉ chars "0123456789.-+#lhzcDidUupXxns%" -> format_char_does len flags n c st.
Proof.
  intros Hc. unfold chars in Hc. cbn in Hc. rewrite !not_elem_of_cons in Hc. destruct_and! Hc.
  assert (Et : conv_takes c = TNone).
  { unfold conv_takes, chars. cbn [map String.list_ascii_of_string].
    rewrite !bool_decide_eq_false_2 by (cbn; rewrite !not_elem_of_cons; split_and!; try done; apply not_elem_of_nil).
    by destruct (Z.eqb_spec c 115). }
  unfold format_char_does. rewrite Et. unfold format_char.
  destruct (andb _ _) eqn:Er; [by apply digit_known in Er; repeat destruct Er as [Er|Er]|clear Er].
  repeat match goal with |- context [c =? ?k] => destruct (Z.eqb_spec c k); [done|] end.
  cbn [orb]. unfold puts_out. by rewrite output_ap.
Qed.

Lemma format_char_takes len flags n c st : format_char_does len flags n c st.
Proof.
  destruct (decide (c ∈ chars "0123456789.-+#lhzcDidUupXxns%")); [by apply format_char_known|by apply format_char_other].
Qed.

(** With arguments that fit, every conversion finds its argument. *)
Lemma format_loop_total len fmt spec st :
  args_fit fmt (bool_decide (is_Some spec)) (p_ap st) = true -> exists st', format_loop len fmt spec st = Ok st'.
Proof.
  revert spec st. induction fmt as [|c fmt IH]; intros spec st H; [by eexists|]. cbn [format_loop args_fit] in *.
  destruct spec as [[flags n]|].
  - rewrite bool_decide_eq_true_2 in H by done.
    pose proof (format_char_takes len flags n c st) as Hc. unfold format_char_does in Hc.
    assert (Hout : forall ap, puts_out (format_char len flags n c st) ap -> args_fit fmt false ap = true ->
      exists st', match format_char len flags n c st with
        | Err e => Err e
        | Ok (FMore fl k) => format_loop len fmt (Some (fl, k)) st
        | Ok (FOut (stop, st)) => if (stop : bool) then Ok st else format_loop len fmt None st
        end = Ok st').
    { intros ap Ho Hf. unfold puts_out in Ho. destruct (format_char len flags n c st) as [[|[[] st1]]|]; [done| | |done];
        [by eexists|]. apply IH. cbn in Ho. by rewrite Ho. }
    destruct (conv_takes c).
    + destruct (format_char len flags n c st) as [[fl k|]|]; try done. by apply IH.
    + by apply (Hout _ Hc).
    + destruct (p_ap st) as [|[v|v] ap] eqn:E; try done. by apply (Hout ap (Hc v ap eq_refl)).
    + destruct (p_ap st) as [|[v|v] ap] eqn:E; try done. by apply (Hout ap (Hc v ap eq_refl)).
  - rewrite bool_decide_eq_false_2 in H by (by intros [? ?]).
    destruct (Z.eqb_spec c 37); [by apply IH|].
    unfold OUTPUT_CHAR. destruct (_ =? len); [by eexists|by apply IH].
Qed.

(** The number that a string of digits denotes. *)
Definition dec_value (l : list Z) : Z := fold_left (fun a c => 10 * a + (c - 48)) l 0.
Definition hex_char (c : Z) : Z :=
  if c <? 58 then c - 48 else if c <? 71 then c - 65 + 10 else c - 97 + 10.
Definition hex_value (l : list Z) : Z := fold_left (fun a c => 16 * a + hex_char c) l 0.

Lemma dec_value_snoc l c : dec_value (l ++ [c]) = 10 * dec_value l + (c - 48).
Proof. unfold dec_value. by rewrite fold_left_app. Qed.
Lemma hex_value_snoc l c : hex_value (l ++ [c]) = 16 * hex_value l + hex_char c.
Proof. unfold hex_value. by rewrite fold_left_app. Qed.

Lemma dec_digits_value fuel n :
  0 <= n < 10 ^ Z.of_nat fuel -> n < 4294967296 -> (0 < fuel)%nat ->
  dec_value (rev (dec_digits fuel n)) = n.
Proof.
  revert n. induction fuel as [|fuel IH]; intros n Hn H32 Hf; [lia|]. cbn [dec_digits].
  destruct (Z.leb_spec 10 n) as [Hge|Hlt].
  - rewrite u32_small by lia. cbn [rev]. rewrite dec_value_snoc.
    rewrite Nat2Z.inj_succ, Z.pow_succ_r in Hn by lia.
    assert (Hfuel : (0 < fuel)%nat) by (destruct fuel; [cbn in Hn; lia|lia]).
    rewrite IH; [| | |done].
    + pose proof (Z.div_mod n 10 ltac:(lia)). lia.
    + split; [apply Z.div_pos; lia|]. apply Z.div_lt_upper_bound; lia.
    + apply Z.div_lt_upper_bound; lia.
  - cbn. lia.
Qed.

Lemma hextable_char caps d : 0 <= d < 16 -> hex_char (hextable caps d) = d.
Proof.
  intros Hd. unfold hextable, hex_char. destruct (Z.ltb_spec d 10).
  - destruct (Z.ltb_spec (d + 48) 58); lia.
  - destruct caps.
    + destruct (Z.ltb_spec (d - 10 + 65) 58), (Z.ltb_spec (d - 10 + 65) 71); lia.
    + destruct (Z.ltb_spec (d - 10 + 97) 58), (Z.ltb_spec (d - 10 + 97) 71); lia.
Qed.

Lemma hex_digits_value fuel caps u :
  0 <= u < 16 ^ Z.of_nat fuel -> (0 < fuel)%nat -> hex_value (rev (hex_digits fuel caps u)) = u.
Proof.
  revert u. induction fuel as [|fuel IH]; intros u Hu Hf; [lia|]. cbn [hex_digits rev].
  rewrite hex_value_snoc, hextable_char by (apply Z.mod_pos_bound; lia).
  pose proof (Z.div_mod u 16 ltac:(lia)).
  destruct (Z.eqb_spec (u / 16) 0) as [E|E]; [cbn; lia|].
  rewrite Nat2Z.inj_succ, Z.pow_succ_r in Hu by lia.
  assert (Hfuel : (0 < fuel)%nat).
  { destruct fuel; [|lia]. cbn in Hu. rewrite Z.div_small in E; lia. }
  rewrite IH; [lia| |done]. split; [apply Z.div_pos; lia|]. apply Z.div_lt_upper_bound; lia.
Qed.

(** ** Properties *)

Lemma output_fits len l st :
  Z.of_nat (length (p_out st) + length l) + 1 < len ->
  output len l st = (false, mk_ps (p_out st ++ (u8 <$> l)) (p_ap st) (p_n st)).
Proof.
  revert st. induction l as [|c l IH]; intros st H; cbn [output fmap list_fmap].
  - rewrite app_nil_r. by destruct st.
  - unfold OUTPUT_CHAR. cbn [p_out p_ap p_n]. cbn [length] in H. rewrite length_app. cbn [length].
    destruct (Z.eqb_spec (Z.of_nat (length (p_out st) + 1) + 1) len); [lia|].
    rewrite IH; cbn [p_out p_ap p_n]; [|rewrite length_app; cbn [length]; lia]. by rewrite <- app_assoc.
Qed.

Lemma u8_chars l : Forall byte l -> u8 <$> l = l.
Proof. induction 1 as [|c l Hc _ IH]; cbn; [done|]. by rewrite u8_small, IH by exact Hc. Qed.

(** A string on a line of its own. *)
Lemma vsnprintf_line len p :
  Forall byte p -> Z.of_nat (length p) + 2 < len ->
  vsnprintf len (chars "%s" ++ [10]) [VStr (Some p)] = Ok (p ++ [10; 0], Z.of_nat (length p) + 1).
Proof.
  intros Hp Hl. unfold vsnprintf. cbn [chars String.list_ascii_of_string fmap list_fmap app].
  assert (Hs : forall st, format_char len 0 0 115 st = match next_str st with
    | Err e => Err e | Ok (s, st) => Ok (FOut (output_string len 0 0 (default null_text s) st)) end) by done.
  change (Z.of_nat (Ascii.nat_of_ascii _)) with 37 at 1. change (Z.of_nat (Ascii.nat_of_ascii _)) with 115.
  cbn [format_loop Z.eqb Pos.eqb]. rewrite Hs. cbn [next_str p_ap]. unfold output_string.
  change (has 0 LEFTFORMATFLAG) with false. change (has 0 LEADZEROFLAG) with false. cbn [default from_option id].
  replace (Z.to_nat (0 - Z.of_nat (length p))) with 0%nat by lia. cbn [replicate app].
  rewrite output_fits by (cbn; lia). cbn [p_out p_ap p_n app]. rewrite u8_chars by done.
  unfold OUTPUT_CHAR. cbn [p_out]. rewrite length_app. cbn [length].
  destruct (Z.eqb_spec (Z.of_nat (length p + 1) + 1) len); [lia|]. cbn [p_out]. rewrite <- app_assoc, length_app. cbn [length].
  f_equal. f_equal. lia.
Qed.

Lemma vsnprintf_fits len fmt ap :
  2 <= len -> args_fit fmt false ap = true ->
  exists out, vsnprintf len fmt ap = Ok (out ++ [0], Z.of_nat (length out)) /\
    Z.of_nat (length out) + 1 <= len /\ Forall byte out.
Proof.
  intros Hlen Hfit. unfold vsnprintf.
  destruct (format_loop_total len fmt None (mk_ps [] ap []) Hfit) as [st E]. rewrite E.
  apply format_loop_ok in E as [E Hb]; [|by apply in_room_start]. by eexists.
Qed.

(** [C32] With a buffer of at least two bytes and arguments that fit the format,
    [vsnprintf] returns, whatever the flags and widths are, and never stores more
    than fits: with the final zero, at most [len] bytes are stored, and the result
    is the number of characters before the zero. *)
Theorem vsnprintf_bounded len fmt ap :
  2 <= len -> args_fit fmt false ap = true ->
  exists out r, vsnprintf len fmt ap = Ok (out, r) /\
    Z.of_nat (length out) <= len /\ r = Z.of_nat (length out) - 1 /\ last out = Some 0.
Proof.
  intros Hlen Hfit. destruct (vsnprintf_fits len fmt ap Hlen Hfit) as (out & E & Hl & _).
  do 2 eexists. split; [exact E|]. rewrite length_app, last_snoc. cbn. split_and!; [lia|lia|done].
Qed.

(** ["a%sb%-04d"] into four bytes *)
Lemma vsnprintf_bounded_witness :
  vsnprintf 4 (chars "a%sb%-04d") [VStr (Some (chars "cccc")); VNum 7] = Ok ([97; 99; 99; 0], 3) /\
  exists out r, vsnprintf 4 (chars "a%sb%-04d") [VStr (Some (chars "cccc")); VNum 7] = Ok (out, r) /\
    Z.of_nat (length out) <= 4 /\ r = Z.of_nat (length out) - 1 /\ last out = Some 0.
Proof.
  split; [vm_compute; reflexivity|].
  apply (vsnprintf_bounded 4 (chars "a%sb%-04d") [VStr (Some (chars "cccc")); VNum 7]);
    [lia|vm_compute; reflexivity].
Defined.

(** For a buffer of one byte there is no bound: the end is tested only after
    a store, against a count that has already passed it, so a text of any length
    is stored in full. *)
Theorem vsnprintf_one_byte text :
  Forall (fun c => c <> 37 /\ 0 < c < 256) text ->
  vsnprintf 1 text [] = Ok (text ++ [0], Z.of_nat (length text)).
Proof.
  intros Hc. unfold vsnprintf.
  assert (H : forall out, format_loop 1 text None (mk_ps out [] []) = Ok (mk_ps (out ++ text) [] [])).
  { induction Hc as [|c text [Hc1 Hc2] _ IH]; intros out; cbn [format_loop].
    - by rewrite app_nil_r.
    - destruct (Z.eqb_spec c 37); [done|]. unfold OUTPUT_CHAR. cbn [p_out p_ap p_n].
      rewrite u8_small by lia. rewrite length_app. cbn [length].
      destruct (Z.eqb_spec (Z.of_nat (length out + 1) + 1) 1); [lia|]. rewrite IH, <- app_assoc. done. }
  by rewrite H.
Qed.

Lemma vsnprintf_one_byte_witness : vsnprintf 1 [72; 105; 33] [] = Ok ([72; 105; 33; 0], 3).
Proof. apply (vsnprintf_one_byte [72; 105; 33]). repeat constructor; lia. Defined.

(** Decimal conversion is right for every number of 32 bits: the digits of
    the string denote the number, in front of them a plus sign if asked for. *)
Theorem decimal_roundtrip n :
  0 <= n < 4294967296 ->
  dec_value (longlong_to_string n 0) = n /\
  longlong_to_string n SHOWSIGNFLAG = 43 :: longlong_to_string n 0 /\
  (0 < n -> longlong_to_string (u64 (- n)) SIGNEDFLAG = 45 :: longlong_to_string n 0).
Proof.
  intros Hn. split_and!; [|done|].
  - unfold longlong_to_string. cbn [andb has SIGNEDFLAG SHOWSIGNFLAG].
    change (has 0 SIGNEDFLAG) with false. change (has 0 SHOWSIGNFLAG) with false. cbn [andb].
    apply dec_digits_value; [cbn; lia|lia|lia].
  - intros Hp. unfold longlong_to_string. change (has SIGNEDFLAG SIGNEDFLAG) with true.
    change (has 0 SIGNEDFLAG) with false. change (has 0 SHOWSIGNFLAG) with false. cbn [andb].
    assert (E1 : u64 (- n) = 18446744073709551616 - n).
    { unfold u64. change (2 ^ 64) with 18446744073709551616.
      rewrite <- (Z.mod_add (- n) 1) by lia. rewrite Z.mod_small; lia. }
    assert (E2 : s64 (u64 (- n)) = - n).
    { rewrite E1. unfold s64, signed. change (2 ^ 64) with 18446744073709551616.
      change (2 ^ (64 - 1)) with 9223372036854775808. rewrite Z.mod_small by lia.
      destruct (Z.ltb_spec (18446744073709551616 - n) 9223372036854775808); lia. }
    rewrite E2. destruct (Z.ltb_spec (- n) 0); [|lia]. cbn [andb].
    rewrite E1. replace (- (18446744073709551616 - n)) with (n + -1 * 18446744073709551616) by lia.
    unfold u64. change (2 ^ 64) with 18446744073709551616. rewrite Z.mod_add by lia.
    rewrite Z.mod_small by lia. done.
Qed.

Lemma decimal_roundtrip_witness :
  dec_value (longlong_to_string 4294967295 0) = 4294967295 /\
  longlong_to_string (u64 (-1)) SIGNEDFLAG = [45; 49].
Proof.
  split; [apply (decimal_roundtrip 4294967295); lia|].
  etransitivity; [apply (decimal_roundtrip 1); lia|vm_compute; reflexivity].
Defined.

(** Hexadecimal conversion is right for every number of 64 bits, in both
    alphabets. *)
Theorem hex_roundtrip u flag :
  0 <= u < 18446744073709551616 -> hex_value (longlong_to_hexstring u flag) = u.
Proof. intros Hu. apply hex_digits_value; [cbn; lia|lia]. Qed.

Lemma hex_roundtrip_witness : hex_value (longlong_to_hexstring 3735928559 CAPSFLAG) = 3735928559.
Proof. apply (hex_roundtrip 3735928559 CAPSFLAG). lia. Defined.

(** Decimal conversion of larger numbers is wrong, because the division is
    done on 32 bits: 4294967301 is printed as 05. *)
Theorem decimal_truncates :
  vsnprintf 64 [37; 108; 108; 117] [VNum 4294967301] = Ok ([48; 53; 0], 2).
Proof. vm_compute. reflexivity. Qed.
