(* ===== verification/Klog.v ===== *)
(** * kernel/printk.c: the kernel log

    The log is a ring buffer of records in byte memory, each a header and a text;
    a header of length 0 says that the next record is at the beginning.  [log_ok]
    is its invariant: the texts that it holds, in order. *)

From stdpp Require Import strings.
From S2P Require Import Prelude KList KState Semaphore Str Bytes Printk.

(** ** Records and the ring *)

Definition LOG_BUF_LEN : Z := 1024.
(** [sizeof(struct printk_log)], [LOG_ALIGN] *)
Definition printk_log_size : Z := 8.
Definition LOG_ALIGN : Z := 4.

Record klog : Type := mk_log {
  log_buf : mem;   (** [__log_buf], by index *)
  log_first_seq : Z; log_first_idx : Z;
  log_next_seq : Z; log_next_idx : Z;
  uart : list Z    (** what went to [uart.puts] *)
}.
Definition set_log_buf (v : mem) (g : klog) : klog :=
  mk_log v (log_first_seq g) (log_first_idx g) (log_next_seq g) (log_next_idx g) (uart g).
Definition on_buf {A} (m : M mem A) : M klog A := zoom log_buf set_log_buf m.

(** Little-endian words of the record header: [len] at 0, [text_len] at 4,
    [level] at 6. *)
Definition rd32 (a : Z) : M mem Z :=
  b0 <- rd8 a ;; b1 <- rd8 (a + 1) ;; b2 <- rd8 (a + 2) ;; b3 <- rd8 (a + 3) ;;
  ret (b0 + 256 * b1 + 65536 * b2 + 16777216 * b3).
Definition wr16 (a v : Z) : M mem unit := wr8 a v ;;; wr8 (a + 1) (v / 256).
Definition wr32 (a v : Z) : M mem unit :=
  wr8 a v ;;; wr8 (a + 1) (v / 256) ;;; wr8 (a + 2) (v / 65536) ;;; wr8 (a + 3) (v / 16777216).

Definition log_text (msg : Z) : Z := msg + printk_log_size.

Definition log_from_idx (idx : Z) : M klog Z :=
  len <- on_buf (rd32 idx) ;; ret (if len =? 0 then 0 else idx).

Definition log_next (idx : Z) : M klog Z :=
  len <- on_buf (rd32 idx) ;;
  if len =? 0 then on_buf (rd32 0) else ret (u32 (idx + len)).

(** The free space that the loop compares with. *)
Definition log_free (g : klog) : Z :=
  if log_first_idx g <? log_next_idx g
  then Z.max (u32 (LOG_BUF_LEN - log_next_idx g)) (log_first_idx g)
  else u32 (log_first_idx g - log_next_idx g).

(** The loop that drops old messages. *)
Definition log_drop (size : Z) : M klog unit :=
  n <- gets (fun g => Z.to_nat (log_next_seq g - log_first_seq g)) ;;
  loop (S n) (fun _ =>
      g <- gets id ;;
      if log_first_seq g <? log_next_seq g then
        if u32 (size + printk_log_size) <? log_free g then ret (inr tt) else
        i <- log_next (log_first_idx g) ;;
        modify (fun g => mk_log (log_buf g) (u64 (log_first_seq g + 1)) i
                           (log_next_seq g) (log_next_idx g) (uart g)) ;;;
        ret (inl tt)
      else ret (inr tt)) tt.

(** A text in a record: the writes of [log_store] once the place is chosen. *)
Definition log_fill (level : Z) (text : list Z) (text_len pad_len : Z) : M klog unit :=
  msg <- gets log_next_idx ;;
  on_buf (write_bytes (log_text msg) (take (Z.to_nat text_len) text)) ;;;
  on_buf (wr16 (msg + 4) text_len) ;;;
  on_buf (wr16 (msg + 6) level) ;;;
  on_buf (wr32 msg (printk_log_size + text_len + pad_len)) ;;;
  len <- on_buf (rd32 msg) ;;
  modify (fun g => mk_log (log_buf g) (log_first_seq g) (log_first_idx g)
                     (u64 (log_next_seq g + 1)) (u32 (log_next_idx g + len)) (uart g)).

Definition log_store (level : Z) (text : list Z) (text_len : Z) : M klog unit :=
  let size := printk_log_size + text_len in
  let pad_len := Z.land (u32 (- size)) (LOG_ALIGN - 1) in
  let size := size + pad_len in
  log_drop size ;;;
  g <- gets id ;;
  (if LOG_BUF_LEN <=? u32 (log_next_idx g + size + printk_log_size) then
     on_buf (memset (log_next_idx g) 0 printk_log_size) ;;;
     modify (fun g => mk_log (log_buf g) (log_first_seq g) (log_first_idx g)
                        (log_next_seq g) 0 (uart g))
   else ret tt) ;;;
  log_fill level text text_len pad_len.

(** [puts] of a string in memory *)
Definition puts (l : list Z) : M klog unit :=
  modify (fun g => mk_log (log_buf g) (log_first_seq g) (log_first_idx g) (log_next_seq g)
                     (log_next_idx g) (uart g ++ l)).

Definition on_log {A} (m : M klog A) : M (kst * klog) A := zoom snd (fun g s => (fst s, g)) m.
Definition on_kst {A} (m : M kst A) : M (kst * klog) A := zoom fst (fun k s => (k, snd s)) m.

Definition _dvprintf (fmt : list Z) (ap : list varg) : M (kst * klog) Z :=
  on_kst enter_critical_section ;;;
  match vsnprintf 256 fmt ap with
  | Err e => fail e
  | Ok (buf, len) =>
      (if 0 <? len then
         on_log (log_store 0 buf (u16 (len + 1))) ;;;
         on_log (puts (c_string buf))
       else ret tt) ;;;
      on_kst exit_critical_section ;;;
      ret len
  end.

Definition printk (fmt : list Z) (ap : list varg) : M (kst * klog) Z := _dvprintf fmt ap.

(** The string at [a] of the log buffer. *)
Definition read_text (a : Z) : M klog (list Z) :=
  n <- on_buf (strlen a) ;;
  m <- gets log_buf ;;
  ret ((fun i => default 0 (m !! (a + i))) <$> seqZ 0 n).

Definition kmsg_dump : M klog unit :=
  first <- gets log_first_idx ;;
  next <- gets log_next_idx ;;
  if first =? next then ret tt else
  fuel <- gets (fun g => S (Z.to_nat (log_next_seq g - log_first_seq g))) ;;
  loop fuel (fun current_idx =>
      i <- log_next current_idx ;;
      if i =? next then ret (inr tt) else
      msg <- log_from_idx i ;;
      text <- read_text (log_text msg) ;;
      puts text ;;;
      ret (inl i)) first.


(** ** Words in memory *)

Lemma bytes32_length v : length (bytes32 v) = 4%nat.
Proof. done. Qed.

Lemma bytes32_eq v : 0 <= v < 2 ^ 32 ->
  bytes32 v = [v mod 256; v / 256 mod 256; v / 65536 mod 256; v / 16777216].
Proof.
  intros Hv. unfold bytes32, bytes16. cbn [app]. change (2 ^ 32) with 4294967296 in Hv.
  assert (E1 : v mod 65536 mod 256 = v mod 256).
  { apply Z.mod_mod_divide. by exists 256. }
  assert (E2 : v mod 65536 / 256 mod 256 = v / 256 mod 256).
  { replace (v mod 65536) with (v + - (256 * (v / 65536)) * 256) by (pose proof (Z.div_mod v 65536 ltac:(lia)); lia).
    rewrite Z.div_add by lia. replace (v / 256 + - (256 * (v / 65536))) with (v / 256 + - (v / 65536) * 256) by lia.
    by rewrite Z.mod_add by lia. }
  assert (E3 : v / 65536 mod 65536 = v / 65536) by (apply Z.mod_small; split; [apply Z.div_pos; lia|apply Z.div_lt_upper_bound; lia]).
  rewrite E1, E2, E3. rewrite Z.div_div by lia. change (65536 * 256) with 16777216.
  assert (E4 : v / 16777216 mod 256 = v / 16777216) by (apply Z.mod_small; split; [apply Z.div_pos; lia|apply Z.div_lt_upper_bound; lia]).
  by rewrite E4.
Qed.

Lemma wp_rd32 m a v (Q : Z -> mem -> Prop) :
  bytes m a (bytes32 v) -> 0 <= v < 2 ^ 32 -> Q v m -> wp (rd32 a) Q m.
Proof.
  intros Hb Hv HQ. rewrite bytes32_eq in Hb by done. change (2 ^ 32) with 4294967296 in Hv.
  destruct Hb as (H0 & H1 & H2 & H3 & _). unfold rd32. replace (a + 1 + 1) with (a + 2) in * by lia.
  replace (a + 2 + 1) with (a + 3) in * by lia.
  wp_simpl. eapply wp_rd8; [exact H0|]. wp_simpl. eapply wp_rd8; [exact H1|]. wp_simpl.
  eapply wp_rd8; [exact H2|]. wp_simpl. eapply wp_rd8; [exact H3|]. wp_simpl.
  replace (v mod 256 + 256 * (v / 256 mod 256) + 65536 * (v / 65536 mod 256) + 16777216 * (v / 16777216)) with v; [done|].
  replace (v / 16777216) with (v / 65536 / 256) by (rewrite Z.div_div by lia; done).
  pose proof (Z.div_mod v 256 ltac:(lia)). pose proof (Z.div_mod (v / 256) 256 ltac:(lia)) as H5.
  pose proof (Z.div_mod (v / 65536) 256 ltac:(lia)). rewrite Z.div_div in H5 by lia. change (256 * 256) with 65536 in H5. lia.
Qed.

(** [memset], [wr16] and [wr32] store bytes. *)
Lemma wp_store_word l : forall m a (Q : unit -> mem -> Prop),
  mapped m a (Z.of_nat (length l)) -> (forall m', stored m m' a (u8 <$> l) -> Q tt m') ->
  wp (write_bytes a l) Q m.
Proof.
  induction l as [|c l IH]; intros m a Q Hm HQ; cbn [write_bytes].
  - wp_simpl. apply HQ. split; done.
  - wp_simpl. eapply wp_wr8; [replace a with (a + 0) by lia; apply Hm; cbn; lia|]. apply IH.
    + intros i Hi. rewrite lookup_insert. case_decide; [done|]. replace (a + 1 + i) with (a + (1 + i)) by lia.
      apply Hm. cbn [length]. lia.
    + intros m' [Hin Hout]. apply HQ. rewrite length_fmap in Hout. split.
      * cbn. split; [|exact Hin]. rewrite Hout by lia. by rewrite lookup_insert_eq.
      * cbn. rewrite length_fmap. intros b Hb. rewrite Hout by lia. by rewrite lookup_insert_ne by lia.
Qed.

Lemma wr16_is a v m : wr16 a v m = write_bytes a [v; v / 256] m.
Proof. unfold wr16. cbn [write_bytes]. unfold bind. destruct (wr8 a v m) as [[[] m1]|]; [|done]. by destruct (wr8 (a + 1) _ m1) as [[[] m2]|]. Qed.
Lemma wr32_is a v m : wr32 a v m = write_bytes a [v; v / 256; v / 65536; v / 16777216] m.
Proof.
  unfold wr32. cbn [write_bytes]. replace (a + 1 + 1) with (a + 2) by lia. replace (a + 2 + 1) with (a + 3) by lia.
  unfold bind. destruct (wr8 a v m) as [[[] m1]|]; [|done]. destruct (wr8 (a + 1) _ m1) as [[[] m2]|]; [|done].
  destruct (wr8 (a + 2) _ m2) as [[[] m3]|]; [|done]. by destruct (wr8 (a + 3) _ m3) as [[[] m4]|].
Qed.

Lemma wp_wr16 m a v (Q : unit -> mem -> Prop) :
  mapped m a 2 -> (forall m', stored m m' a [u8 v; u8 (v / 256)] -> Q tt m') -> wp (wr16 a v) Q m.
Proof. intros Hm HQ. unfold wp. rewrite wr16_is. exact (wp_store_word [v; v / 256] m a Q Hm HQ). Qed.
Lemma wp_wr_u32 m a v (Q : unit -> mem -> Prop) :
  mapped m a 4 -> 0 <= v < 2 ^ 32 -> (forall m', stored m m' a (bytes32 v) -> Q tt m') -> wp (wr32 a v) Q m.
Proof.
  intros Hm Hv HQ. unfold wp. rewrite wr32_is. eapply (wp_store_word [v; v / 256; v / 65536; v / 16777216]); [exact Hm|].
  intros m' Hs. apply HQ. rewrite bytes32_eq by done. cbn in Hs. unfold u8 in Hs. change (2 ^ 8) with 256 in Hs.
  rewrite (Z.mod_small (v / 16777216)) in Hs; [done|]. split; [apply Z.div_pos; lia|apply Z.div_lt_upper_bound; lia].
Qed.

(** ** The invariant *)

(** The size of a record with a text of [n] characters. *)
Definition record_size (n : Z) : Z := let s := printk_log_size + n in s + Z.land (u32 (- s)) (LOG_ALIGN - 1).

Lemma record_size_range n : 0 <= n < 65536 -> 8 + n <= record_size n < 12 + n.
Proof.
  intros Hn. unfold record_size, printk_log_size, LOG_ALIGN. change (4 - 1) with (Z.ones 2). rewrite Z.land_ones by lia.
  pose proof (Z.mod_pos_bound (u32 (- (8 + n))) (2 ^ 2) ltac:(lia)). change (2 ^ 2) with 4 in *. lia.
Qed.

(** The log takes texts of bytes with a terminating zero, of at most 256 bytes. *)
Record text_ok (t : list Z) : Prop := {
  to_bytes : Forall byte t;
  to_zero : 0 ∈ t;
  to_length : (length t <= 256)%nat
}.
Definition size_of (t : list Z) : Z := record_size (Z.of_nat (length t)).

Lemma text_length t : text_ok t -> (0 < length t)%nat.
Proof. intros [_ Hz _]. destruct t; [by apply elem_of_nil in Hz|cbn; lia]. Qed.
Lemma size_of_range t : text_ok t -> 8 + Z.of_nat (length t) <= size_of t < 12 + Z.of_nat (length t) /\ 9 <= size_of t < 268.
Proof.
  intros Ht. pose proof (text_length _ Ht). destruct Ht as [_ _ Hl]. unfold size_of.
  pose proof (record_size_range (Z.of_nat (length t)) ltac:(lia)). lia.
Qed.

(** The record of the text [t] at [a]. *)
Definition record_at (m : mem) (a : Z) (t : list Z) : Prop :=
  bytes m a (bytes32 (size_of t)) /\ bytes m (a + 8) t.

(** The records of the texts [ts] one behind the other, from [a] up to [b]. *)
Fixpoint chain (m : mem) (a : Z) (ts : list (list Z)) (b : Z) : Prop :=
  match ts with
  | [] => a = b
  | t :: ts' => record_at m a t /\ chain m (a + size_of t) ts' b
  end.

(** A header of length 0. *)
Definition wraps_at (m : mem) (w : Z) : Prop := bytes m w (bytes32 0) /\ 0 <= w /\ w + 8 <= LOG_BUF_LEN.

(** The records that are read from [c] on, up to [b]: in one piece, or up to the
    mark at [w] and from the beginning. *)
Definition layout (m : mem) (c : Z) (ts : list (list Z)) (b : Z) : Prop :=
  chain m c ts b \/
  exists w t1 t t2, ts = t1 ++ t :: t2 /\ chain m c t1 w /\ wraps_at m w /\ chain m 0 (t :: t2) b /\ b < c.

Record log_ok (g : klog) (ts : list (list Z)) : Prop := {
  lo_mapped : mapped (log_buf g) 0 LOG_BUF_LEN;
  lo_texts : Forall text_ok ts;
  lo_first : 0 <= log_first_idx g;
  lo_next : 0 <= log_next_idx g /\ log_next_idx g + 8 <= LOG_BUF_LEN;
  lo_seq : log_next_seq g = log_first_seq g + Z.of_nat (length ts);
  lo_seq_range : 0 <= log_first_seq g /\ log_next_seq g < 2 ^ 64;
  lo_layout : layout (log_buf g) (log_first_idx g) ts (log_next_idx g)
}.

Lemma chain_le m ts : forall a b, Forall text_ok ts -> chain m a ts b -> a <= b /\ (ts <> [] -> a < b).
Proof.
  induction ts as [|t ts IH]; intros a b Ht; cbn [chain]; [intros ->; split; [lia|done]|].
  apply Forall_cons in Ht as [H1 Ht]. intros [_ Hc]. apply IH in Hc as [Hc _]; [|done].
  pose proof (size_of_range t H1). split; [lia|]. intros _. lia.
Qed.

Lemma chain_app m t1 t2 : forall a b, chain m a (t1 ++ t2) b <-> exists c, chain m a t1 c /\ chain m c t2 b.
Proof.
  induction t1 as [|t t1 IH]; intros a b; cbn [app chain].
  - split; [intros H; by exists a|]. by intros (c & -> & H).
  - rewrite IH. naive_solver.
Qed.

Lemma record_frame m m' a t :
  text_ok t -> (forall x, a <= x < a + size_of t -> m' !! x = m !! x) -> record_at m a t -> record_at m' a t.
Proof.
  intros Ht Hx [H1 H2]. pose proof (size_of_range t Ht). split.
  - eapply bytes_ext; [|exact H1]. intros b Hb. apply Hx. cbn in Hb. lia.
  - eapply bytes_ext; [|exact H2]. intros b Hb. apply Hx. lia.
Qed.

Lemma chain_frame m m' ts : forall a b,
  Forall text_ok ts -> (forall x, a <= x < b -> m' !! x = m !! x) -> chain m a ts b -> chain m' a ts b.
Proof.
  induction ts as [|t ts IH]; intros a b Ht Hx; cbn [chain]; [done|]. apply Forall_cons in Ht as [H1 Ht].
  intros [Hr Hc]. pose proof (chain_le _ _ _ _ Ht Hc) as [Hle _]. pose proof (size_of_range t H1). split.
  - eapply record_frame; [done| |exact Hr]. intros x Hx'. apply Hx. lia.
  - eapply IH; [done| |exact Hc]. intros x Hx'. apply Hx. lia.
Qed.

(** ** Walking over the log *)

Lemma layout_split ts t1 t t2 : Forall text_ok ts -> ts = t1 ++ t :: t2 -> Forall text_ok t1 /\ Forall text_ok (t :: t2).
Proof. intros H ->. by apply Forall_app in H. Qed.

Lemma layout_nil m c b : layout m c [] b -> c = b.
Proof. intros [H|(w & [|] & t & t2 & E & _)]; done. Qed.

Lemma layout_ne m c ts b : Forall text_ok ts -> ts <> [] -> layout m c ts b -> c <> b.
Proof.
  intros Ht Hn [H|(w & t1 & t & t2 & -> & _ & _ & _ & H)]; [|lia]. apply chain_le in H as [_ H]; [|done]. specialize (H Hn). lia.
Qed.

(** The record at a place, and the place behind it. *)
Lemma wp_log_next g c t ts b (Q : Z -> klog -> Prop) :
  Forall text_ok (t :: ts) -> layout (log_buf g) c (t :: ts) b -> 0 <= c -> b + 8 <= LOG_BUF_LEN ->
  (forall c', layout (log_buf g) c' ts b -> 0 <= c' -> Q c' g) -> wp (log_next c) Q g.
Proof.
  intros Ht Hl Hc Hb HQ. unfold log_next, on_buf. pose proof Ht as [Ht1 Ht2]%Forall_cons. pose proof (size_of_range t Ht1) as Hs.
  assert (Hg : set_log_buf (log_buf g) g = g) by (by destruct g).
  assert (Hgo : c + size_of t < 4294967296 -> layout (log_buf g) (c + size_of t) ts b -> record_at (log_buf g) c t -> wp
    (len <- zoom log_buf set_log_buf (rd32 c) ;; if len =? 0 then zoom log_buf set_log_buf (rd32 0) else ret (u32 (c + len))) Q g).
  { intros Hlt Hl' [Hr _]. wp_simpl. eapply wp_rd32; [exact Hr|lia|]. rewrite Hg. destruct (Z.eqb_spec (size_of t) 0); [lia|].
    wp_simpl. rewrite u32_small by lia. apply HQ; [done|lia]. }
  unfold LOG_BUF_LEN in *.
  destruct Hl as [[Hr Hch]|(w & t1 & t' & t2 & E & Hch & Hw & H0 & Hlt)].
  - apply Hgo; [|by left|done]. pose proof (chain_le _ _ _ _ Ht2 Hch). lia.
  - destruct t1 as [|t1 ts1]; injection E as <- ->.
    + cbn in Hch. subst w. destruct Hw as [Hw _]. destruct H0 as [[Hr _] H0]. wp_simpl. eapply wp_rd32; [exact Hw|lia|].
      rewrite Hg. cbn [Z.eqb]. wp_simpl. eapply wp_rd32; [exact Hr|lia|]. rewrite Hg. apply HQ; [by left|lia].
    + destruct Hch as [Hr Hch]. apply Forall_app in Ht2 as [Ht2 Ht3]. pose proof (chain_le _ _ _ _ Ht2 Hch).
      destruct Hw as [Hw Hw']. unfold LOG_BUF_LEN in Hw'. apply Hgo; [lia| |done]. right. exists w, ts1, t', t2. split_and!; try done. lia.
Qed.

Lemma wp_log_from_idx g c t ts b (Q : Z -> klog -> Prop) :
  Forall text_ok (t :: ts) -> layout (log_buf g) c (t :: ts) b ->
  (forall a, record_at (log_buf g) a t -> Q a g) -> wp (log_from_idx c) Q g.
Proof.
  intros Ht Hl HQ. unfold log_from_idx, on_buf. apply Forall_cons in Ht as [Ht _]. pose proof (size_of_range t Ht) as Hs.
  assert (Hg : set_log_buf (log_buf g) g = g) by (by destruct g).
  assert (Hgo : record_at (log_buf g) c t -> wp (len <- zoom log_buf set_log_buf (rd32 c) ;; ret (if len =? 0 then 0 else c)) Q g).
  { intros Hr. wp_simpl. eapply wp_rd32; [apply Hr|lia|]. rewrite Hg. destruct (Z.eqb_spec (size_of t) 0); [lia|]. by apply HQ. }
  destruct Hl as [[Hr _]|(w & [|t1 ts1] & t' & t2 & E & Hch & Hw & H0 & Hlt)]; [by apply Hgo| |]; injection E as <- ->.
  - cbn in Hch. subst w. wp_simpl. eapply wp_rd32; [apply Hw|lia|]. rewrite Hg. cbn [Z.eqb]. apply HQ, H0.
  - apply Hgo, Hch.
Qed.

(** ** Storing *)

(** [g'] is [g] with the first [k] messages dropped. *)
Record dropped (k : nat) (g g' : klog) : Prop := {
  dr_buf : log_buf g' = log_buf g;
  dr_next : log_next_idx g' = log_next_idx g;
  dr_seq : log_next_seq g' = log_next_seq g;
  dr_first_seq : log_first_seq g' = log_first_seq g + Z.of_nat k;
  dr_uart : uart g' = uart g;
  dr_none : k = 0%nat -> g' = g
}.

Lemma wp_log_drop g ts size (Q : unit -> klog -> Prop) :
  log_ok g ts -> 0 <= size < 1024 ->
  (forall k g', log_ok g' (drop k ts) -> dropped k g g' ->
     drop k ts = [] \/ size + 8 < log_free g' -> (k <> 0%nat -> log_free g <= size + 8) -> Q tt g') ->
  wp (log_drop size) Q g.
Proof.
  intros Hok Hsize HQ. unfold log_drop. wp_simpl.
  assert (Hu : u32 (size + printk_log_size) = size + 8) by (apply u32_small; unfold printk_log_size; lia). rewrite Hu.
  apply (wp_loop_idx _ (fun n _ g' => exists k, log_ok g' (drop k ts) /\ dropped k g g' /\ n = (length ts - k)%nat /\
    (k <= length ts)%nat /\ (k <> 0%nat -> log_free g <= size + 8))) with (n := length ts).
  - intros n _ g' (k & Hk & Hd & -> & Hle & Hmin). wp_simpl.
    pose proof (lo_seq _ _ Hk) as Hseq. rewrite length_drop in Hseq.
    destruct (Z.ltb_spec (log_first_seq (id g')) (log_next_seq (id g'))) as [Hlt|Hge]; unfold id in *.
    2:{ wp_simpl. apply (HQ k); [done|done| |done]. left. apply drop_ge. lia. }
    destruct (Z.ltb_spec (size + 8) (log_free g')) as [Hf|Hf].
    { wp_simpl. apply (HQ k); [done|done|by right|done]. }
    assert (Hkl : (k < length ts)%nat) by lia. destruct (lookup_lt_is_Some_2 _ _ Hkl) as [t Ht].
    pose proof (drop_S _ _ _ Ht) as Hdr. rewrite Hdr in Hk. destruct Hk as [H1 H2 H3 H4 H5 H6 H7]. wp_simpl.
    eapply wp_log_next; [exact H2|exact H7|done|lia|]. intros c Hl Hc. wp_simpl.
    apply Forall_cons in H2 as [_ H2]. cbn [length] in H5. change (2 ^ 64) with 18446744073709551616 in H6.
    exists (length ts - S k)%nat. split; [lia|]. exists (S k). split_and!; try lia.
    + split; cbn; try done; rewrite ?u64_small; lia.
    + destruct Hd as [D1 D2 D3 D4 D5 _]. split; cbn; try done. rewrite u64_small; lia.
    + intros _. destruct (decide (k = 0%nat)) as [->|Hne]; [|by apply Hmin]. rewrite <- (dr_none _ _ _ Hd eq_refl). lia.
  - exists 0%nat. rewrite drop_0. split_and!; try done; try lia. split; try done. lia.
  - pose proof (lo_seq _ _ Hok). lia.
Qed.

Lemma stored_mapped m m' a l x : stored m m' a l -> is_Some (m !! x) -> is_Some (m' !! x).
Proof.
  intros [Hin Hout] Hx. destruct (decide (a <= x < a + Z.of_nat (length l))) as [H|H]; [|by rewrite Hout].
  destruct (lookup_lt_is_Some_2 l (Z.to_nat (x - a)) ltac:(lia)) as [c Hc].
  pose proof (bytes_lookup _ _ _ _ _ Hin Hc) as Hm. rewrite Z2Nat.id in Hm by lia.
  replace (a + (x - a)) with x in Hm by lia. by eexists.
Qed.

Lemma wp_log_fill level t pad g (Q : unit -> klog -> Prop) :
  text_ok t -> size_of t = printk_log_size + Z.of_nat (length t) + pad ->
  0 <= log_next_idx g -> log_next_idx g + size_of t <= LOG_BUF_LEN -> mapped (log_buf g) 0 LOG_BUF_LEN ->
  (forall m', record_at m' (log_next_idx g) t ->
     (forall x, is_Some (log_buf g !! x) -> is_Some (m' !! x)) ->
     (forall x, ~ (log_next_idx g <= x < log_next_idx g + size_of t) -> m' !! x = log_buf g !! x) ->
     Q tt (mk_log m' (log_first_seq g) (log_first_idx g) (u64 (log_next_seq g + 1)) (log_next_idx g + size_of t) (uart g))) ->
  wp (log_fill level t (Z.of_nat (length t)) pad) Q g.
Proof.
  intros Ht Hsz H0 Hroom Hmap HQ. unfold log_fill, on_buf, log_text. wp_simpl. rewrite Nat2Z.id, take_ge by done.
  pose proof (size_of_range t Ht) as Hr. set (a := log_next_idx g) in *. unfold printk_log_size, LOG_BUF_LEN in *.
  assert (Hm : forall m o n, (forall x, is_Some (log_buf g !! x) -> is_Some (m !! x)) -> 0 <= o -> 0 <= n -> o + n <= 1024 -> mapped m o n).
  { intros m o n Hsame Ho Hn Hlt i Hi. apply Hsame. replace (o + i) with (0 + (o + i)) by lia. apply Hmap. lia. }
  apply wp_write_bytes; [apply Ht|apply Hm; [done|lia|lia|lia]|]. intros m1 S1. wp_simpl.
  pose proof (fun x => stored_mapped _ _ _ _ x S1) as M1.
  apply wp_wr16; [apply Hm; [done|lia|lia|lia]|]. intros m2 S2. wp_simpl.
  pose proof (fun x H => stored_mapped _ _ _ _ x S2 (M1 x H)) as M2.
  apply wp_wr16; [apply Hm; [done|lia|lia|lia]|]. intros m3 S3. wp_simpl.
  pose proof (fun x H => stored_mapped _ _ _ _ x S3 (M2 x H)) as M3. cbn [log_buf set_log_buf] in *.
  apply wp_wr_u32; [apply Hm; [done|lia|lia|lia]|lia|]. intros m4 S4. wp_simpl.
  pose proof (fun x H => stored_mapped _ _ _ _ x S4 (M3 x H)) as M4.
  rewrite <- Hsz in *. cbn [log_buf set_log_buf]. eapply wp_rd32; [apply S4|lia|]. wp_simpl.
  cbn [log_next_idx log_next_seq log_first_idx log_first_seq uart log_buf set_log_buf]. fold a. rewrite u32_small by lia.
  pose proof (st_out _ _ _ _ S1) as O1. pose proof (st_out _ _ _ _ S2) as O2. pose proof (st_out _ _ _ _ S3) as O3.
  pose proof (st_out _ _ _ _ S4) as O4. cbn in O2, O3. rewrite (bytes32_length (size_of t)) in O4.
  apply HQ; [|exact M4|].
  - split; [apply S4|]. eapply bytes_ext; [|apply S1]. intros b Hb. rewrite O4, O3, O2 by lia. done.
  - intros x Hx. rewrite O4, O3, O2, O1 by lia. done.
Qed.

Lemma wp_memset m a c n (Q : Z -> mem -> Prop) :
  0 <= n -> mapped m a n -> (forall m', stored m m' a (replicate (Z.to_nat n) (u8 c)) -> Q a m') -> wp (memset a c n) Q m.
Proof.
  intros Hn Hm HQ. unfold memset. wp_simpl.
  apply (wp_loop_idx _ (fun k '(xs, r) m' => xs = a + (n - r) /\ 0 <= r <= n /\ k = Z.to_nat r /\
    stored m m' a (replicate (Z.to_nat (n - r)) (u8 c)))) with (n := Z.to_nat n).
  - intros k [xs r] m' (-> & Hr & -> & Hst). destruct (Z.eqb_spec r 0) as [->|Hne].
    + wp_simpl. apply HQ. by rewrite Z.sub_0_r in Hst.
    + wp_simpl. eapply wp_wr8; [eapply stored_mapped, Hm; [exact Hst|lia]|]. wp_simpl.
      exists (Z.to_nat (r - 1)). split; [lia|]. split_and!; try lia. destruct Hst as [Hin Hout]. rewrite length_replicate in Hout.
      replace (Z.to_nat (n - (r - 1))) with (Z.to_nat (n - r) + 1)%nat by lia. rewrite replicate_add. split.
      * apply bytes_app. rewrite length_replicate. split.
        -- eapply bytes_ext; [|exact Hin]. rewrite length_replicate. intros b Hb. by rewrite lookup_insert_ne by lia.
        -- cbn. split; [|done]. rewrite Z2Nat.id by lia. by rewrite lookup_insert_eq.
      * rewrite length_app, length_replicate. cbn. intros b Hb. rewrite lookup_insert_ne by lia. apply Hout. lia.
  - split_and!; try lia. rewrite Z.sub_diag. split; done.
  - lia.
Qed.

(** What [log_store] needs of the log once there is room. *)
Lemma layout_here m m' c ts b t :
  Forall text_ok ts -> text_ok t -> 0 <= c -> 0 <= b -> b + size_of t + 8 < LOG_BUF_LEN -> layout m c ts b ->
  (ts <> [] -> b < c -> b + size_of t < c) ->
  record_at m' b t -> (forall x, ~ (b <= x < b + size_of t) -> m' !! x = m !! x) -> layout m' c (ts ++ [t]) (b + size_of t).
Proof.
  intros Hts Ht Hc Hb Hroom Hl Hgap Hr Hsame. destruct Hl as [Hl|(w & t1 & t' & t2 & -> & H1 & [Hw Hw'] & H2 & Hlt)].
  - left. apply chain_app. exists b. split; [|by split]. eapply chain_frame; [done| |exact Hl]. intros x Hx. apply Hsame. lia.
  - right. exists w, t1, t', (t2 ++ [t]). apply Forall_app in Hts as [Hts1 Hts2].
    assert (Hgap' : b + size_of t < c) by (apply Hgap; [by destruct t1|done]).
    pose proof (chain_le _ _ _ _ Hts1 H1) as [Hcw _]. split_and!.
    + by rewrite <- app_assoc.
    + eapply chain_frame; [done| |exact H1]. intros x Hx. apply Hsame. lia.
    + split; [|done]. eapply bytes_ext; [|exact Hw]. intros x Hx. apply Hsame. lia.
    + change (t' :: t2 ++ [t]) with ((t' :: t2) ++ [t]). apply chain_app. exists b. split; [|by split].
      eapply chain_frame; [done| |exact H2]. intros x Hx. apply Hsame. lia.
    + done.
Qed.

Lemma layout_wrapped m m' c ts b t :
  Forall text_ok ts -> chain m c ts b -> 0 <= c -> b + 8 <= LOG_BUF_LEN -> size_of t < c -> wraps_at m' b -> record_at m' 0 t ->
  (forall x, ~ (0 <= x < size_of t) -> ~ (b <= x < b + 8) -> m' !! x = m !! x) -> layout m' c (ts ++ [t]) (size_of t).
Proof.
  intros Hts Hl Hc Hb Hlt Hw Hr Hsame. right. exists b, ts, t, []. split_and!; try done.
  eapply chain_frame; [done| |exact Hl]. intros x Hx. apply Hsame; lia.
Qed.

(** The room that is left for a record of [n] bytes. *)
Lemma room_wrapped g ts n :
  log_ok g ts -> ts = [] \/ n + 8 < log_free g -> log_next_idx g < log_first_idx g -> log_next_idx g + n + 8 < log_first_idx g.
Proof.
  intros Hok Hroom Hlt. destruct Hroom as [->|Hroom].
  - pose proof (layout_nil _ _ _ (lo_layout _ _ Hok)). lia.
  - destruct Hok as [_ Ht H0 Hb _ _ Hl]. unfold log_free, LOG_BUF_LEN in *.
    destruct (Z.ltb_spec (log_first_idx g) (log_next_idx g)); [lia|]. rewrite u32_small in Hroom; [lia|].
    destruct Hl as [Hl|(w & t1 & t & t2 & -> & Hc & [_ Hw] & _)]; [apply chain_le in Hl; [lia|done]|].
    apply Forall_app in Ht as [Ht _]. apply chain_le in Hc; [|done]. unfold LOG_BUF_LEN in Hw. lia.
Qed.

Lemma room_straight g ts n :
  log_ok g ts -> ts = [] \/ n + 8 < log_free g -> 9 <= n < 268 -> chain (log_buf g) (log_first_idx g) ts (log_next_idx g) ->
  LOG_BUF_LEN <= log_next_idx g + n + 8 -> n < log_first_idx g.
Proof.
  intros Hok Hroom Hn Hc Hfull. unfold LOG_BUF_LEN in *. pose proof (lo_texts _ _ Hok) as Ht.
  destruct (decide (ts = [])) as [->|Hne]; [cbn in Hc; lia|]. destruct Hroom as [|Hroom]; [done|].
  apply chain_le in Hc as [_ Hc]; [|done]. specialize (Hc Hne). pose proof (lo_next _ _ Hok) as Hb. pose proof (lo_first _ _ Hok).
  unfold log_free, LOG_BUF_LEN in *. destruct (Z.ltb_spec (log_first_idx g) (log_next_idx g)); [|lia].
  rewrite u32_small in Hroom by lia. lia.
Qed.

Lemma layout_full g ts n :
  log_ok g ts -> ts = [] \/ n + 8 < log_free g -> LOG_BUF_LEN <= log_next_idx g + n + 8 ->
  chain (log_buf g) (log_first_idx g) ts (log_next_idx g).
Proof.
  intros Hok Hroom Hfull. pose proof (room_wrapped g ts n Hok Hroom) as Hr.
  destruct (lo_layout _ _ Hok) as [Hl|(w & t1 & t & t2 & -> & Hc & [_ Hw] & _ & Hlt)]; [done|].
  specialize (Hr Hlt). pose proof (lo_texts _ _ Hok) as [Ht _]%Forall_app. apply chain_le in Hc; [|done]. lia.
Qed.

Lemma wp_log_store level t g ts (Q : unit -> klog -> Prop) :
  log_ok g ts -> text_ok t -> log_next_seq g + 1 < 2 ^ 64 ->
  (forall k g', log_ok g' (drop k ts ++ [t]) -> uart g' = uart g -> log_next_seq g' = log_next_seq g + 1 ->
     (forall x, ~ (0 <= x < LOG_BUF_LEN) -> log_buf g' !! x = log_buf g !! x) ->
     (k <> 0%nat -> log_free g <= size_of t + 8) -> Q tt g') ->
  wp (log_store level t (Z.of_nat (length t))) Q g.
Proof.
  intros Hok Ht Hseq HQ. pose proof (size_of_range t Ht) as Hs. change (2 ^ 64) with 18446744073709551616 in Hseq.
  set (pad := Z.land (u32 (- (printk_log_size + Z.of_nat (length t)))) (LOG_ALIGN - 1)).
  assert (Hsz : size_of t = printk_log_size + Z.of_nat (length t) + pad) by done.
  unfold log_store. cbv zeta. fold pad. rewrite <- Hsz. wp_simpl. eapply wp_log_drop; [exact Hok|lia|].
  intros k g1 Hok1 [D1 D2 D3 D4 D5 _] Hroom Hmin. wp_simpl. unfold id.
  pose proof Hok1 as [Hmap Htx Hfi [Hn0 Hn] Hsq Hsr Hl]. unfold printk_log_size at 1. rewrite u32_small by (unfold LOG_BUF_LEN in *; lia).
  assert (Hfin : forall m c, layout m (log_first_idx g1) (drop k ts ++ [t]) (c + size_of t) -> 0 <= c -> c + size_of t + 8 <= LOG_BUF_LEN ->
    (forall x, is_Some (log_buf g1 !! x) -> is_Some (m !! x)) ->
    (forall x, ~ (0 <= x < LOG_BUF_LEN) -> m !! x = log_buf g1 !! x) ->
    Q tt (mk_log m (log_first_seq g1) (log_first_idx g1) (u64 (log_next_seq g1 + 1)) (c + size_of t) (uart g1))).
  { intros m c Hlay Hc Hc8 Hms Hsame. rewrite u64_small by lia. apply (HQ k); cbn; try done; [|lia|by intros; rewrite Hsame, D1].
    split; cbn; try done.
    - intros i Hi. apply Hms, Hmap, Hi.
    - apply Forall_app. split; [done|by constructor].
    - lia.
    - rewrite length_app. cbn. lia.
    - change (2 ^ 64) with 18446744073709551616. lia. }
  destruct (Z.leb_spec LOG_BUF_LEN (log_next_idx g1 + size_of t + 8)) as [Hfull|Hfits].
  - pose proof (layout_full _ _ _ Hok1 Hroom Hfull) as Hch.
    pose proof (room_straight _ _ _ Hok1 Hroom (proj2 Hs) Hch Hfull) as Hlt. unfold on_buf, printk_log_size. wp_simpl.
    apply wp_memset; [lia| |].
    { intros i Hi. replace (log_next_idx g1 + i) with (0 + (log_next_idx g1 + i)) by lia. apply Hmap. unfold LOG_BUF_LEN in *. lia. }
    intros m1 S1. wp_simpl. pose proof (fun x => stored_mapped _ _ _ _ x S1) as M1. destruct S1 as [I1 O1].
    rewrite length_replicate in O1. change (Z.of_nat (Z.to_nat 8)) with 8 in O1. cbn in I1.
    apply wp_log_fill; cbn; [done|done|lia|unfold LOG_BUF_LEN; lia|intros i Hi; apply M1, Hmap, Hi|].
    intros m' Hr M2 O2. apply (Hfin m' 0); [|lia|unfold LOG_BUF_LEN; lia|auto|].
    + apply (layout_wrapped (log_buf g1) _ _ _ (log_next_idx g1)); try done.
      * split; [|done]. destruct I1 as (J1 & J2 & J3 & J4 & _). cbn. repeat split; rewrite O2 by (unfold LOG_BUF_LEN in *; lia); done.
      * intros x Hx1 Hx2. rewrite O2, O1 by lia. done.
    + intros x Hx. unfold LOG_BUF_LEN in *. rewrite O2, O1 by lia. done.
  - wp_simpl. apply wp_log_fill; [done|done|done|lia|done|]. intros m' Hr M2 O2. apply Hfin; [|done|lia|done|].
    + eapply layout_here; try done. intros Hne Hlt. pose proof (room_wrapped _ _ _ Hok1 Hroom Hlt). lia.
    + intros x Hx. rewrite O2; [done|]. unfold LOG_BUF_LEN in *. lia.
Qed.

(** ** Reading *)

Lemma c_string_split t : Forall byte t -> 0 ∈ t -> exists rest, t = c_string t ++ 0 :: rest /\ Forall char_ok (c_string t).
Proof.
  induction 1 as [|c t Hc Ht IH]; intros Hz; [by apply elem_of_nil in Hz|]. cbn [c_string].
  destruct (Z.eqb_spec c 0) as [->|Hne]; [by exists t|]. apply elem_of_cons in Hz as [|Hz]; [done|].
  destruct (IH Hz) as (rest & E & Hok). exists rest. split; [by rewrite E at 1|]. constructor; [unfold byte, char_ok in *; lia|done].
Qed.

Lemma bytes_read m a l : bytes m a l -> (fun i => default 0 (m !! (a + i))) <$> seqZ 0 (Z.of_nat (length l)) = l.
Proof.
  intros Hb. apply list_eq. intros i. rewrite list_lookup_fmap. destruct (l !! i) as [c|] eqn:E.
  - rewrite lookup_seqZ_lt by (apply lookup_lt_Some in E; lia). cbn. replace (a + (0 + Z.of_nat i)) with (a + Z.of_nat i) by lia.
    by rewrite (bytes_lookup _ _ _ _ _ Hb E).
  - rewrite lookup_seqZ_ge; [done|]. apply lookup_ge_None in E. lia.
Qed.

Lemma wp_read_text a t g (Q : list Z -> klog -> Prop) :
  text_ok t -> record_at (log_buf g) a t -> Q (c_string t) g -> wp (read_text (log_text a)) Q g.
Proof.
  intros [Hb Hz Hl] [_ Ht] HQ. destruct (c_string_split t Hb Hz) as (rest & E & Hc). unfold read_text, on_buf, log_text, printk_log_size.
  assert (Hs : str (log_buf g) (a + 8) (c_string t)).
  { split; [|done]. rewrite E in Ht. change (0 :: rest) with ([0] ++ rest) in Ht. rewrite app_assoc in Ht. by apply bytes_app in Ht as [Ht _]. }
  wp_simpl. eapply wp_strlen; [exact Hs|]. wp_simpl. cbn [log_buf set_log_buf]. rewrite bytes_read by (by apply bytes_app in Hs as [[Hs _]%bytes_app _] || by destruct Hs as [[Hs _]%bytes_app _]).
  by destruct g.
Qed.

Definition shown (g : klog) (l : list (list Z)) : klog :=
  mk_log (log_buf g) (log_first_seq g) (log_first_idx g) (log_next_seq g) (log_next_idx g) (uart g ++ concat (c_string <$> l)).

Lemma wp_kmsg_dump g ts (Q : unit -> klog -> Prop) : log_ok g ts -> Q tt (shown g (tail ts)) -> wp kmsg_dump Q g.
Proof.
  intros [Hmap Ht H0 Hn Hseq Hsr Hl] HQ. unfold kmsg_dump. wp_simpl.
  assert (Hg : shown g [] = g) by (destruct g; unfold shown; cbn; by rewrite app_nil_r).
  destruct (Z.eqb_spec (log_first_idx g) (log_next_idx g)) as [E|E].
  { wp_simpl. destruct ts as [|t ts]; [cbn in HQ; by rewrite Hg in HQ|]. by apply layout_ne in Hl. }
  wp_simpl. destruct ts as [|t0 ts]; [by apply layout_nil in Hl|]. cbn [tail] in HQ.
  apply (wp_loop_idx _ (fun n c g' => exists t r1 r2, ts = r1 ++ r2 /\ n = length r2 /\ g' = shown g r1 /\
    Forall text_ok (t :: r2) /\ layout (log_buf g) c (t :: r2) (log_next_idx g) /\ 0 <= c)) with (n := length ts).
  - intros n c g' (t & r1 & r2 & -> & -> & -> & Hr & Hlay & Hc). wp_simpl.
    eapply (wp_log_next (shown g r1)); [exact Hr|exact Hlay|done|lia|]. intros c' Hlay' Hc'. wp_simpl.
    apply Forall_cons in Hr as [_ Hr]. destruct (Z.eqb_spec c' (log_next_idx g)) as [Ec|Ec].
    { wp_simpl. destruct r2 as [|t2 r2]; [by rewrite app_nil_r in HQ|]. by apply layout_ne in Hlay'. }
    destruct r2 as [|t2 r2]; [by apply layout_nil in Hlay'|]. wp_simpl.
    eapply (wp_log_from_idx (shown g r1)); [exact Hr|exact Hlay'|]. intros a Ha. wp_simpl.
    apply wp_read_text with (t := t2); [by apply Forall_cons in Hr as [? _]|exact Ha|]. unfold puts. wp_simpl.
    exists (length r2). split; [cbn; lia|]. exists t2, (r1 ++ [t2]), r2. split_and!; try done.
    + by rewrite <- app_assoc.
    + unfold shown. cbn. rewrite fmap_app, concat_app. cbn. by rewrite app_nil_r, app_assoc.
  - exists t0, [], ts. rewrite Hg. done.
  - rewrite Hseq. cbn [length]. lia.
Qed.

(** ** Properties *)

(** [C19] [log_store] keeps the log: from a log that holds the texts [ts] it returns,
    with the new text behind them and the oldest dropped, none of them while there
    is room; the 1024 bytes of the buffer are all it writes to, wherever the
    record wraps. *)
Theorem log_store_appends level t g ts :
  log_ok g ts -> text_ok t -> log_next_seq g + 1 < 2 ^ 64 ->
  exists k g', log_store level t (Z.of_nat (length t)) g = Ok (tt, g') /\ log_ok g' (drop k ts ++ [t]) /\
    (size_of t + 8 < log_free g -> k = 0%nat) /\
    (forall x, ~ (0 <= x < 1024) -> log_buf g' !! x = log_buf g !! x).
Proof.
  intros Hok Ht Hs.
  assert (H : wp (log_store level t (Z.of_nat (length t))) (fun _ g' => exists k, log_ok g' (drop k ts ++ [t]) /\
    (size_of t + 8 < log_free g -> k = 0%nat) /\ (forall x, ~ (0 <= x < 1024) -> log_buf g' !! x = log_buf g !! x)) g).
  { eapply wp_log_store; [exact Hok|done|done|]. intros k g' Hg' _ _ Hsame Hk. exists k. split_and!; [done| |exact Hsame].
    intros Hf. destruct k as [|k]; [done|]. specialize (Hk ltac:(done)). lia. }
  apply wp_elim in H as ([] & g' & E & k & H1 & H2 & H3). by exists k, g'.
Qed.

(** The dump of the log prints the texts that it holds in order, except the
    first, and changes nothing. *)
Theorem kmsg_dump_prints g ts : log_ok g ts -> kmsg_dump g = Ok (tt, shown g (tail ts)).
Proof.
  intros Hok. assert (H : wp kmsg_dump (fun _ g' => g' = shown g (tail ts)) g) by (by eapply wp_kmsg_dump).
  by apply wp_elim in H as ([] & g' & E & ->).
Qed.

Lemma crit_set_set c b c' b' s : crit_set c' b' (crit_set c b s) = crit_set c' b' s.
Proof. by destruct s. Qed.

(** [printk] for its callers. *)
Lemma wp_printk fmt ap s g ts (Q : Z -> kst * klog -> Prop) :
  args_fit fmt false ap = true -> log_ok g ts -> log_next_seq g + 1 < 2 ^ 64 ->
  (forall out c b g' k, vsnprintf 256 fmt ap = Ok (out ++ [0], Z.of_nat (length out)) ->
     uart g' = uart g ++ c_string (out ++ [0]) -> log_next_seq g' <= log_next_seq g + 1 ->
     log_ok g' (if Z.of_nat (length out) =? 0 then ts else drop k ts ++ [out ++ [0]]) ->
     Q (Z.of_nat (length out)) (crit_set c b s, g')) ->
  wp (printk fmt ap) Q (s, g).
Proof.
  intros Hfit Hok Hseq HQ. destruct (vsnprintf_fits 256 fmt ap ltac:(lia) Hfit) as (out & E & Hlen & Hb).
  specialize (HQ out). unfold printk, _dvprintf, on_kst, on_log. wp_simpl. apply wp_enter_any. intros c b. rewrite E.
  destruct (Z.ltb_spec 0 (Z.of_nat (length out))) as [Hl|Hl].
  - assert (Ht : text_ok (out ++ [0])).
    { split; [apply Forall_app; by split; [|repeat constructor]|apply elem_of_app; right; by constructor|rewrite length_app; cbn; lia]. }
    rewrite u16_small by lia. replace (Z.of_nat (length out) + 1) with (Z.of_nat (length (out ++ [0]))) by (rewrite length_app; cbn; lia).
    wp_simpl. eapply wp_log_store; [exact Hok|done|done|]. intros k g' Hg' Hu Hs _ _. unfold puts. wp_simpl.
    apply wp_exit_any. intros c' b'. wp_simpl. cbn [fst snd]. rewrite crit_set_set. apply (HQ _ _ _ k); [done|cbn; by rewrite Hu|cbn in *; lia|].
    destruct (Z.eqb_spec (Z.of_nat (length out)) 0); [lia|]. destruct Hg'. by split.
  - assert (Hnil : out = []) by (destruct out; [done|cbn in Hl; lia]). subst out. wp_simpl.
    apply wp_exit_any. intros c' b'. wp_simpl. cbn [fst snd]. rewrite crit_set_set. apply (HQ _ _ _ 0%nat); [done|cbn; by rewrite app_nil_r|lia|done].
Qed.

(** [C20] [printk] with arguments that fit the format: what [vsnprintf] makes of them
    within 256 bytes goes to the serial port, and is the last message of the log. *)
Theorem printk_logs fmt ap s g ts :
  args_fit fmt false ap = true -> log_ok g ts -> log_next_seq g + 1 < 2 ^ 64 ->
  exists out r s' g', vsnprintf 256 fmt ap = Ok (out, r) /\ printk fmt ap (s, g) = Ok (r, (s', g')) /\
    uart g' = uart g ++ c_string out /\
    exists k, log_ok g' (if r =? 0 then ts else drop k ts ++ [out]).
Proof.
  intros Hfit Hok Hseq.
  assert (H : wp (printk fmt ap) (fun r sg => exists out, vsnprintf 256 fmt ap = Ok (out, r) /\ uart sg.2 = uart g ++ c_string out /\
    exists k, log_ok sg.2 (if r =? 0 then ts else drop k ts ++ [out])) (s, g)).
  { eapply wp_printk; [done|exact Hok|done|]. intros out c b g' k E Hu _ Hk. exists (out ++ [0]). split_and!; [done|done|by exists k]. }
  apply wp_elim in H as (r & [s' g'] & E' & out & E & Hu & k & Hk). exists out, r, s', g'. split_and!; [done|done|done|by exists k].
Qed.

(** ** Examples *)

Definition image (l : list Z) : mem := list_to_map (zip (seqZ 0 (Z.of_nat (length l))) l).

Lemma image_bytes l : bytes (image l) 0 l.
Proof.
  apply bytes_intro. intros i c Hi. apply elem_of_list_to_map_1.
  - rewrite fst_zip by (rewrite length_seqZ; lia). apply NoDup_seqZ.
  - apply list_elem_of_lookup. exists i. rewrite lookup_zip_with, Hi. cbn. rewrite lookup_seqZ_lt; [done|].
    apply lookup_lt_Some in Hi. lia.
Qed.
Lemma image_mapped l n : n = Z.of_nat (length l) -> mapped (image l) 0 n.
Proof.
  intros -> i Hi. destruct (lookup_lt_is_Some_2 l (Z.to_nat i) ltac:(lia)) as [c Hc].
  pose proof (bytes_lookup _ _ _ _ _ (image_bytes l) Hc) as H. rewrite Z2Nat.id in H by lia. by exists c.
Qed.

(** The log at the beginning: a buffer of zeros; and one with two messages. *)
Definition demo_text (c : Z) : list Z := [c; 0].
Lemma demo_text_ok c : byte c -> text_ok (demo_text c).
Proof. intros Hc. split; [repeat constructor; [apply Hc..|by unfold byte]|by right; left|cbn; lia]. Qed.

Definition demo_record (c : Z) : list Z := bytes32 12 ++ [2; 0; 0; 0] ++ demo_text c ++ [0; 0].
Definition demo_log : klog := mk_log (image (replicate 1024 0)) 0 0 0 0 [].
Definition demo_two : klog := mk_log (image (demo_record 97 ++ demo_record 98 ++ replicate 1000 0)) 5 0 7 24 [].

Lemma demo_log_ok : log_ok demo_log [].
Proof. split; try done; [by apply image_mapped|by left]. Qed.

Lemma demo_two_ok : log_ok demo_two [demo_text 97; demo_text 98].
Proof.
  split; try done; [by apply image_mapped|by repeat (constructor; [by apply demo_text_ok|])|]. left.
  pose proof (image_bytes (demo_record 97 ++ demo_record 98 ++ replicate 1000 0)) as H.
  change (log_buf demo_two) with (image (demo_record 97 ++ demo_record 98 ++ replicate 1000 0)).
  apply bytes_app in H as [H1 H]. apply bytes_app in H as [H2 _]. unfold demo_record in *.
  apply bytes_app in H1 as [H1 H3]. apply bytes_app in H3 as [_ H3]. apply bytes_app in H3 as [H3 _].
  apply bytes_app in H2 as [H2 H4]. apply bytes_app in H4 as [_ H4]. apply bytes_app in H4 as [H4 _].
  split; [exact (conj H1 H3)|]. split; [exact (conj H2 H4)|done].
Qed.

Lemma log_store_appends_witness :
  exists g', log_store 0 (demo_text 97) 2 demo_log = Ok (tt, g') /\ log_ok g' [demo_text 97].
Proof.
  destruct (log_store_appends 0 (demo_text 97) demo_log []) as (k & g' & E & Hg & _).
  - exact demo_log_ok.
  - by apply demo_text_ok.
  - done.
  - exists g'. rewrite drop_nil in Hg. exact (conj E Hg).
Defined.

Lemma kmsg_dump_prints_witness : exists g', kmsg_dump demo_two = Ok (tt, g') /\ uart g' = [98].
Proof.
  exists (shown demo_two [demo_text 98]).
  split; [exact (kmsg_dump_prints demo_two [demo_text 97; demo_text 98] demo_two_ok)|reflexivity].
Defined.

Definition demo_kern : kst :=
  mk_kst (mk_lheap ∅ ∅) ∅ [0] 0 NULL 0 true ∅ 0 true ∅ ∅ ∅ ∅ 0 [] no_mm ∅ ∅ 0.

(** ["n=%d"] with 7 *)
Lemma printk_logs_witness :
  exists r s' g', printk (chars "n=%d") [VNum 7] (demo_kern, demo_log) = Ok (r, (s', g')) /\ uart g' = chars "n=7".
Proof.
  destruct (printk_logs (chars "n=%d") [VNum 7] demo_kern demo_log []) as (out & r & s' & g' & E & Ep & Hu & _).
  - vm_compute. reflexivity.
  - exact demo_log_ok.
  - done.
  - assert (Ev : vsnprintf 256 (chars "n=%d") [VNum 7] = Ok (chars "n=7" ++ [0], 3)) by (vm_compute; reflexivity).
    rewrite Ev in E. injection E as <- <-. exists 3, s', g'. exact (conj Ep Hu).
Defined.
