(* ===== verification/Vfs.v ===== *)
(** * fs/vfsfs.c: the file system switch

    The registered file systems, the table of file descriptors and the current
    path.  The operations of a file system are reached through the pointer
    [vops] of a node; the class [Opvectors] says which operations lie behind
    which pointer, so that everything here is independent of the file system.
    A C string argument is the list of its characters.  The messages of
    [VFS_ASSERT] are left out; its [return -1] is not. *)

From S2P Require Import Prelude KList Str.

(** include/fs/vfsfs.h *)
Record vfs_node : Type := mk_node { vops : Z; priv : Z }.

#[export] Instance vfs_node_eq_dec : EqDecision vfs_node.
Proof. solve_decision. Defined.

(** [lookup] either fails or returns 0 with the node it stored; [read] takes the
    private data, the buffer and the count, and gives its result, the bytes it put
    in the buffer and what it stored in [*ready], if anything. *)
Record vfs_opvector (D : Type) : Type := mk_opvector {
  lookup : option (Z -> list Z -> M D (option vfs_node));
  read : option (Z -> Z -> Z -> M D (Z * list Z * option Z));
  close : option (Z -> M D Z);
  open : option (Z -> M D Z)
}.
Arguments mk_opvector {D}.
Arguments lookup {D}.
Arguments read {D}.
Arguments close {D}.
Arguments open {D}.

Record vfs_fs (D : Type) : Type := mk_fs {
  fs_name : list Z;
  fs_mount : option (Z -> M D (option vfs_node))
}.
Arguments mk_fs {D}.
Arguments fs_name {D}.
Arguments fs_mount {D}.

(** The operations behind a [vops] pointer. *)
Class Opvectors (D : Type) : Type := opvector_at : Z -> option (vfs_opvector D).

Definition FD_MAX_NUM : Z := 256.
Definition FD_ALLOCATED : Z := 1.

Record vfs_st (D : Type) : Type := mk_vfs {
  fs_root : list (vfs_fs D);   (** in the order of the list *)
  vfsroot : vfs_node;          (** [__vfsroot] *)
  desc : list Z;               (** 256 pointers to nodes *)
  nodes : gmap Z vfs_node;     (** the nodes that the callers allocated *)
  drv : D                      (** the state of the file systems *)
}.
Arguments mk_vfs {D}.
Arguments fs_root {D}.
Arguments vfsroot {D}.
Arguments desc {D}.
Arguments nodes {D}.
Arguments drv {D}.

Section Vfs.
Context {D : Type} `{Opvectors D}.
Implicit Types (s : vfs_st D).

Definition set_fs_root (v : list (vfs_fs D)) (s : vfs_st D) : vfs_st D :=
  mk_vfs v (vfsroot s) (desc s) (nodes s) (drv s).
Definition set_vfsroot (v : vfs_node) (s : vfs_st D) : vfs_st D :=
  mk_vfs (fs_root s) v (desc s) (nodes s) (drv s).
Definition set_desc (v : list Z) (s : vfs_st D) : vfs_st D :=
  mk_vfs (fs_root s) (vfsroot s) v (nodes s) (drv s).
Definition set_nodes (v : gmap Z vfs_node) (s : vfs_st D) : vfs_st D :=
  mk_vfs (fs_root s) (vfsroot s) (desc s) v (drv s).
Definition set_drv (v : D) (s : vfs_st D) : vfs_st D :=
  mk_vfs (fs_root s) (vfsroot s) (desc s) (nodes s) v.

Definition on_drv {A} (m : M D A) : M (vfs_st D) A := zoom drv set_drv m.

(** A call through a function pointer. *)
Definition op_of {F} (vp : Z) (f : vfs_opvector D -> option F) : M (vfs_st D) F :=
  v <- lift_opt (bad_ptr vp) (opvector_at vp) ;; lift_opt NullDeref (f v).

(** [desc[fd]], with the bounds of the array *)
Definition rd_desc (fd : Z) : M (vfs_st D) Z :=
  d <- gets desc ;;
  if fd <? 0 then fail (BadIndex fd) else lift_opt (BadIndex fd) (d !! Z.to_nat fd).
Definition wr_desc (fd v : Z) : M (vfs_st D) unit :=
  rd_desc fd ;;; modify (fun s => set_desc (<[Z.to_nat fd := v]> (desc s)) s).

Definition rd_node (p : Z) : M (vfs_st D) vfs_node :=
  n <- gets nodes ;; lift_opt (bad_ptr p) (n !! p).

(** ** The registered file systems *)

Fixpoint find_in (l : list (vfs_fs D)) (name : list Z) : option (vfs_fs D) :=
  match l with
  | [] => None
  | p :: l' => if strncmp_l (length name) (fs_name p) name =? 0 then Some p else find_in l' name
  end.
Definition find_filesystem (name : list Z) : M (vfs_st D) (option (vfs_fs D)) :=
  l <- gets fs_root ;; ret (find_in l name).

Definition register_filesystem (fs : vfs_fs D) : M (vfs_st D) Z :=
  p <- find_filesystem (fs_name fs) ;;
  match p with
  | Some _ => ret (-1)
  | None => modify (fun s => set_fs_root (fs_root s ++ [fs]) s) ;;; ret 0
  end.

(** The assertion [fs || fs->mount] looks at [fs->mount] only for a null [fs]. *)
Definition vfs_mount (image : Z) (name : list Z) : M (vfs_st D) Z :=
  fs <- find_filesystem name ;;
  match fs with
  | None => fail NullDeref
  | Some fs =>
      mount <- lift_opt NullDeref (fs_mount fs) ;;
      r <- on_drv (mount image) ;;
      match r with
      | Some root => modify (set_vfsroot root) ;;; ret 0
      | None => ret (-1)
      end
  end.

(** ** File descriptors *)

Definition fp_ucount_dec (fp : Z) : M (vfs_st D) Z :=
  n <- rd_node fp ;;
  f <- op_of (vops n) close ;;
  on_drv (f fp).

Definition fd_close (fd : Z) : M (vfs_st D) Z :=
  if (fd <? 0) || (FD_MAX_NUM <? fd) then ret (-1) else
  fp <- rd_desc fd ;;
  wr_desc fd FD_ALLOCATED ;;;
  if negb (fp =? FD_ALLOCATED) && negb (fp =? NULL) then fp_ucount_dec fp else ret 0.

Definition fd_alloc (low : Z) : M (vfs_st D) Z :=
  if (low <? 0) || (FD_MAX_NUM <? low) then ret (-1) else
  loop (S (Z.to_nat FD_MAX_NUM)) (fun fd =>
      if fd <? FD_MAX_NUM then
        p <- rd_desc fd ;;
        if p =? NULL then wr_desc fd FD_ALLOCATED ;;; ret (inr fd) else ret (inl (fd + 1))
      else ret (inr (-1))) low.

Definition fd_free (fd : Z) : M (vfs_st D) Z :=
  if (fd <? 0) || (FD_MAX_NUM <? fd) then ret (-1) else
  error <- fd_close fd ;;
  wr_desc fd NULL ;;;
  ret error.

Definition fd_assign (fd fp : Z) : M (vfs_st D) unit :=
  if (fd <? 0) || (FD_MAX_NUM <? fd) then ret tt else
  fd_close fd ;;;
  wr_desc fd fp.

Definition fp_get (fd : Z) : M (vfs_st D) Z :=
  if (fd <? 0) || (FD_MAX_NUM <? fd) then ret NULL else
  fp <- rd_desc fd ;;
  ret (if negb (fp =? FD_ALLOCATED) && negb (fp =? NULL) then fp else NULL).

Definition fp_free (fp : Z) : M (vfs_st D) unit := fp_ucount_dec fp ;;; ret tt.

(** ** Files *)

Definition vfs_lookup (dir : vfs_node) (name : list Z) : M (vfs_st D) (option vfs_node) :=
  f <- op_of (vops dir) lookup ;; on_drv (f (priv dir) name).

(** [char name[512]] *)
Definition __vfs_lookup (dir : vfs_node) (comp : list Z) : M (vfs_st D) (option vfs_node) :=
  let namelen := Z.of_nat (length comp) in
  if 0 <? namelen then
    if 512 <=? namelen then fail (BadIndex namelen) else vfs_lookup dir comp
  else ret (Some dir).

(** The walk over the path: [comp] is the component between [stp] and [p]. *)
Fixpoint open_walk (dir : vfs_node) (comp p : list Z) : M (vfs_st D) (option vfs_node) :=
  match p with
  | [] => __vfs_lookup dir comp
  | c :: p' =>
      if c =? 47 then
        r <- __vfs_lookup dir comp ;;
        match r with Some dir => open_walk dir [] p' | None => ret None end
      else open_walk dir (comp ++ [c]) p'
  end.

Definition vfs_open (path : list Z) (file : Z) : M (vfs_st D) Z :=
  dir <- gets vfsroot ;;
  if file =? NULL then ret (-1) else
  fd <- fd_alloc 0 ;;
  if fd <? 0 then ret (-1) else
  r <- match path with
       | [] => fail (BadIndex 1)
       | [_] => ret (Some dir)
       | _ => open_walk dir [] path
       end ;;
  match r with
  | None => ret (-1)
  | Some dir =>
      rd_node file ;;;
      modify (fun s => set_nodes (<[file := dir]> (nodes s)) s) ;;;
      f <- op_of (vops dir) open ;;
      e <- on_drv (f (priv dir)) ;;
      if e =? 0 then fd_assign fd file ;;; ret fd
      else fd_free fd ;;; ret (-1)
  end.

Definition vfs_read (fd buf count : Z) : M (vfs_st D) (Z * list Z * option Z) :=
  file <- fp_get fd ;;
  n <- rd_node file ;;
  if vops n =? NULL then ret (-1, [], None) else
  v <- lift_opt (bad_ptr (vops n)) (opvector_at (vops n)) ;;
  match read v with
  | None => ret (-1, [], None)
  | Some f => on_drv (f (priv n) buf count)
  end.

Definition vfs_close (fd : Z) : M (vfs_st D) Z :=
  file <- fp_get fd ;;
  n <- rd_node file ;;
  if vops n =? NULL then ret (-1) else
  v <- lift_opt (bad_ptr (vops n)) (opvector_at (vops n)) ;;
  match close v with
  | None => ret (-1)
  | Some f => fd_free fd ;;; n <- rd_node file ;; on_drv (f (priv n))
  end.

(** ** What a path means *)

(** The pieces between the slashes, from a piece already begun. *)
Fixpoint pieces (comp p : list Z) : list (list Z) :=
  match p with
  | [] => [comp]
  | c :: p' => if c =? 47 then comp :: pieces [] p' else pieces (comp ++ [c]) p'
  end.
Definition nonempty (l : list Z) : Prop := l <> [].
#[global] Instance nonempty_dec l : Decision (nonempty l).
Proof. destruct l; [right; intros H0; by apply H0|left; discriminate]. Defined.

Definition components (path : list Z) : list (list Z) := filter nonempty (pieces [] path).

(** What [vfs_open] looks up: it takes a path of one character for the root,
    whatever the character is. *)
Definition walked (path : list Z) : list (list Z) :=
  match path with _ :: _ :: _ => components path | _ => [] end.

(** One lookup after the other. *)
Fixpoint resolve (dir : vfs_node) (comps : list (list Z)) : M (vfs_st D) (option vfs_node) :=
  match comps with
  | [] => ret (Some dir)
  | c :: cs => r <- vfs_lookup dir c ;;
               match r with Some d => resolve d cs | None => ret None end
  end.

Definition short_names (path : list Z) : Prop :=
  Forall (fun c => Z.of_nat (length c) < 512) (pieces [] path).

Lemma __vfs_lookup_eq dir comp s :
  Z.of_nat (length comp) < 512 ->
  __vfs_lookup dir comp s = if decide (nonempty comp) then vfs_lookup dir comp s else Ok (Some dir, s).
Proof.
  intros Hl. unfold __vfs_lookup. destruct comp as [|c comp]; [done|].
  rewrite decide_True by discriminate. destruct (Z.ltb_spec 0 (Z.of_nat (length (c :: comp)))); [|cbn in *; lia].
  by destruct (Z.leb_spec 512 (Z.of_nat (length (c :: comp)))); [lia|].
Qed.

Lemma open_walk_resolve p : forall dir comp s,
  Forall (fun c => Z.of_nat (length c) < 512) (pieces comp p) ->
  open_walk dir comp p s = resolve dir (filter nonempty (pieces comp p)) s.
Proof.
  induction p as [|c p IH]; intros dir comp s Hs; cbn [open_walk pieces] in *.
  - apply Forall_cons in Hs as [Hc _]. rewrite __vfs_lookup_eq by done.
    rewrite filter_cons. case_decide; cbn; [|done]. unfold bind.
    by destruct (vfs_lookup dir comp s) as [[[d|] s']|].
  - destruct (c =? 47); [|by apply IH]. apply Forall_cons in Hs as [Hc Hs].
    unfold bind at 1. rewrite __vfs_lookup_eq by done. rewrite filter_cons. case_decide; cbn.
    + unfold bind. destruct (vfs_lookup dir comp s) as [[[d|] s']|]; [by apply IH|done|done].
    + by apply IH.
Qed.

(** Lookups change the state of the file system only. *)
Lemma vfs_lookup_frame dir c s r s' : vfs_lookup dir c s = Ok (r, s') -> s' = set_drv (drv s') s.
Proof.
  unfold vfs_lookup, op_of, on_drv, zoom, bind, lift_opt.
  destruct (opvector_at (vops dir)) as [v|]; [|done]. cbn. destruct (lookup v) as [f|]; [|done]. cbn.
  destruct (f (priv dir) c (drv s)) as [[a d]|]; [|done]. by intros [= <- <-].
Qed.

Lemma resolve_frame comps : forall dir s r s',
  resolve dir comps s = Ok (r, s') -> s' = set_drv (drv s') s.
Proof.
  induction comps as [|c comps IH]; intros dir s r s'; cbn [resolve].
  - intros [= <- <-]. by destruct s.
  - unfold bind. destruct (vfs_lookup dir c s) as [[[d|] s1]|] eqn:E; [| |done].
    + intros Hr. pose proof (vfs_lookup_frame _ _ _ _ _ E) as H1. apply IH in Hr.
      rewrite Hr, H1. done.
    + intros [= <- <-]. by eapply vfs_lookup_frame.
Qed.

(** ** The descriptor table *)

Lemma rd_desc_eq fd s v :
  0 <= fd -> desc s !! Z.to_nat fd = Some v -> rd_desc fd s = Ok (v, s).
Proof.
  intros Hf Hv. unfold rd_desc, bind, gets. destruct (Z.ltb_spec fd 0); [lia|]. by rewrite Hv.
Qed.

Lemma wr_desc_eq fd v s :
  0 <= fd < Z.of_nat (length (desc s)) ->
  wr_desc fd v s = Ok (tt, set_desc (<[Z.to_nat fd := v]> (desc s)) s).
Proof.
  intros Hf. destruct (lookup_lt_is_Some_2 (desc s) (Z.to_nat fd) ltac:(lia)) as [w Hw].
  unfold wr_desc, bind. by rewrite (rd_desc_eq fd s w) by (done || lia).
Qed.

(** [i] is the first free descriptor from [low] on. *)
Definition first_free (l : list Z) (low i : nat) : Prop :=
  (low <= i)%nat /\ l !! i = Some 0 /\ forall j v, (low <= j < i)%nat -> l !! j = Some v -> v <> 0.

Definition all_used (l : list Z) (low : nat) : Prop :=
  forall j v, (low <= j)%nat -> l !! j = Some v -> v <> 0.

Lemma fd_alloc_first (s : vfs_st D) (low i : nat) :
  length (desc s) = 256%nat -> first_free (desc s) low i ->
  fd_alloc (Z.of_nat low) s = Ok (Z.of_nat i, set_desc (<[i := FD_ALLOCATED]> (desc s)) s).
Proof.
  intros Hlen (Hlo & Hi & Hnz). pose proof (lookup_lt_Some _ _ _ Hi) as Hlt.
  destruct (wp_elim (fd_alloc (Z.of_nat low))
    (fun r s' => r = Z.of_nat i /\ s' = set_desc (<[i := FD_ALLOCATED]> (desc s)) s) s)
    as (r & s' & -> & -> & ->); [|done].
  unfold fd_alloc, FD_MAX_NUM.
  destruct (Z.ltb_spec (Z.of_nat low) 0); [lia|]. destruct (Z.ltb_spec 256 (Z.of_nat low)); [lia|]. cbn [orb].
  apply (wp_loop_idx _ (fun n fd s' => s' = s /\ Z.of_nat low <= fd <= Z.of_nat i /\
     n = Z.to_nat (Z.of_nat i - fd))) with (n := (i - low)%nat).
  - intros n fd s' (-> & Hfd & ->). destruct (Z.ltb_spec fd 256); [|lia]. wp_simpl.
    destruct (lookup_lt_is_Some_2 (desc s) (Z.to_nat fd) ltac:(lia)) as [v Hv].
    eapply wp_intro; [apply rd_desc_eq; [lia|exact Hv]|]. destruct (Z.eqb_spec v NULL) as [->|Hz].
    + assert (Z.to_nat fd = i) as E.
      { destruct (decide (Z.to_nat fd = i)); [done|]. by edestruct (Hnz (Z.to_nat fd)); [lia| |]. }
      wp_simpl. eapply wp_intro; [apply wr_desc_eq; lia|]. wp_simpl. split; [lia|]. by rewrite E.
    + wp_simpl. exists (Z.to_nat (Z.of_nat i - (fd + 1))).
      assert (fd <> Z.of_nat i) by (intros ->; rewrite Nat2Z.id, Hi in Hv; by injection Hv as <-).
      split; [lia|]. split_and!; try done; lia.
  - split_and!; try done; lia.
  - lia.
Qed.

Lemma fd_alloc_none (s : vfs_st D) (low : nat) :
  length (desc s) = 256%nat -> all_used (desc s) low -> fd_alloc (Z.of_nat low) s = Ok (-1, s).
Proof.
  intros Hlen Hu.
  destruct (wp_elim (fd_alloc (Z.of_nat low)) (fun r s' => r = -1 /\ s' = s) s) as (r & s' & -> & -> & ->); [|done].
  unfold fd_alloc, FD_MAX_NUM. destruct (Z.ltb_spec (Z.of_nat low) 0); [lia|].
  destruct (Z.ltb_spec 256 (Z.of_nat low)); [by wp_simpl|]. cbn [orb].
  apply (wp_loop_idx _ (fun n fd s' => s' = s /\ Z.of_nat low <= fd <= 256 /\
     n = Z.to_nat (256 - fd))) with (n := Z.to_nat (256 - Z.of_nat low)).
  - intros n fd s' (-> & Hfd & ->). destruct (Z.ltb_spec fd 256); [|by wp_simpl]. wp_simpl.
    destruct (lookup_lt_is_Some_2 (desc s) (Z.to_nat fd) ltac:(lia)) as [v Hv].
    eapply wp_intro; [apply rd_desc_eq; [lia|exact Hv]|]. destruct (Z.eqb_spec v NULL) as [->|Hz].
    + by edestruct (Hu (Z.to_nat fd)); [lia| |].
    + wp_simpl. exists (Z.to_nat (256 - (fd + 1))). split; [lia|]. split_and!; try done; lia.
  - split_and!; try done; lia.
  - lia.
Qed.

Lemma fd_close_reserved (s : vfs_st D) (i : nat) :
  length (desc s) = 256%nat -> desc s !! i = Some FD_ALLOCATED -> fd_close (Z.of_nat i) s = Ok (0, s).
Proof.
  intros Hlen Hi. pose proof (lookup_lt_Some _ _ _ Hi) as Hlt. unfold fd_close, FD_MAX_NUM.
  destruct (Z.ltb_spec (Z.of_nat i) 0); [lia|]. destruct (Z.ltb_spec 256 (Z.of_nat i)); [lia|]. cbn [orb].
  unfold bind. rewrite (rd_desc_eq _ _ FD_ALLOCATED) by (rewrite ?Nat2Z.id; done || lia).
  rewrite wr_desc_eq by lia. rewrite Nat2Z.id. cbn. rewrite list_insert_id by done. by destruct s.
Qed.

Lemma fd_assign_reserved (s : vfs_st D) (i : nat) fp :
  length (desc s) = 256%nat -> desc s !! i = Some FD_ALLOCATED ->
  fd_assign (Z.of_nat i) fp s = Ok (tt, set_desc (<[i := fp]> (desc s)) s).
Proof.
  intros Hlen Hi. pose proof (lookup_lt_Some _ _ _ Hi) as Hlt. unfold fd_assign, FD_MAX_NUM.
  destruct (Z.ltb_spec (Z.of_nat i) 0); [lia|]. destruct (Z.ltb_spec 256 (Z.of_nat i)); [lia|]. cbn [orb].
  unfold bind. rewrite fd_close_reserved by done. rewrite wr_desc_eq by lia. by rewrite Nat2Z.id.
Qed.

Lemma fd_free_reserved (s : vfs_st D) (i : nat) :
  length (desc s) = 256%nat -> desc s !! i = Some FD_ALLOCATED ->
  fd_free (Z.of_nat i) s = Ok (0, set_desc (<[i := 0]> (desc s)) s).
Proof.
  intros Hlen Hi. pose proof (lookup_lt_Some _ _ _ Hi) as Hlt. unfold fd_free, FD_MAX_NUM.
  destruct (Z.ltb_spec (Z.of_nat i) 0); [lia|]. destruct (Z.ltb_spec 256 (Z.of_nat i)); [lia|]. cbn [orb].
  unfold bind. rewrite fd_close_reserved by done. rewrite wr_desc_eq by lia. by rewrite Nat2Z.id.
Qed.

Lemma fp_get_node (s : vfs_st D) (i : nat) fp :
  length (desc s) = 256%nat -> desc s !! i = Some fp -> fp <> FD_ALLOCATED -> fp <> 0 ->
  fp_get (Z.of_nat i) s = Ok (fp, s).
Proof.
  intros Hlen Hi H1 H0. pose proof (lookup_lt_Some _ _ _ Hi) as Hlt. unfold fp_get, FD_MAX_NUM.
  destruct (Z.ltb_spec (Z.of_nat i) 0); [lia|]. destruct (Z.ltb_spec 256 (Z.of_nat i)); [lia|]. cbn [orb].
  unfold bind. rewrite (rd_desc_eq _ _ fp) by (rewrite ?Nat2Z.id; done || lia). cbn.
  unfold FD_ALLOCATED, NULL in *. destruct (Z.eqb_spec fp 1); [done|]. by destruct (Z.eqb_spec fp 0).
Qed.

(** ** Properties *)

(** What opening a path must do, from the meaning of the path: the descriptor
    [i] is reserved, the path is resolved from the root, one lookup for each
    component; a node that its file system opens is stored in [file] and bound
    to [i]; one that it refuses gives the descriptor back; a path that does not
    resolve leaves it reserved. *)
Definition open_spec (path : list Z) (file : Z) (i : nat) (s : vfs_st D) : outcome (Z * vfs_st D) :=
  match resolve (vfsroot s) (walked path) (set_desc (<[i := FD_ALLOCATED]> (desc s)) s) with
  | Err e => Err e
  | Ok (None, s2) => Ok (-1, s2)
  | Ok (Some n, s2) =>
      match op_of (vops n) open s2 with
      | Err e => Err e
      | Ok (f, _) =>
          match f (priv n) (drv s2) with
          | Err e => Err e
          | Ok (e, d) =>
              Ok (if e =? 0 then Z.of_nat i else -1,
                  mk_vfs (fs_root s) (vfsroot s) (if e =? 0 then <[i := file]> (desc s) else desc s)
                    (<[file := n]> (nodes s)) d)
          end
      end
  end.

Lemma open_eq s path file i :
  length (desc s) = 256%nat -> first_free (desc s) 0 i -> file <> 0 -> is_Some (nodes s !! file) ->
  path <> [] -> short_names path ->
  vfs_open path file s = open_spec path file i s.
Proof.
  intros Hlen Hff Hfile [n0 Hn0] Hpath Hshort. unfold vfs_open, open_spec, bind, gets.
  destruct (Z.eqb_spec file NULL) as [->|_]; [done|].
  change 0 with (Z.of_nat 0) at 1. rewrite (fd_alloc_first s 0 i) by done.
  destruct (Z.ltb_spec (Z.of_nat i) 0); [lia|]. set (s1 := set_desc _ s).
  assert (match path with [] => fail (BadIndex 1) | [_] => ret (Some (vfsroot s))
          | _ => open_walk (vfsroot s) [] path end s1 = resolve (vfsroot s) (walked path) s1) as E.
  { destruct path as [|c1 [|c2 path]]; [done|done|]. by apply open_walk_resolve. }
  rewrite E. destruct (resolve _ _ s1) as [[[n|] s2]|] eqn:Er; [|done|done].
  apply resolve_frame in Er. rewrite Er.
  unfold rd_node, bind, gets. cbn. rewrite Hn0. cbn. unfold modify, op_of, bind, lift_opt. cbn.
  destruct (opvector_at (vops n)) as [v|]; [|done]. cbn. destruct (open v) as [f|]; [|done]. cbn.
  unfold on_drv, zoom. cbn. destruct (f (priv n) (drv s2)) as [[e d]|]; [|done].
  destruct Hff as (_ & Hi & _). pose proof (lookup_lt_Some _ _ _ Hi) as Hlt.
  destruct (e =? 0).
  - rewrite fd_assign_reserved; cbn; [by rewrite list_insert_insert_eq|by rewrite length_insert|].
    by apply list_lookup_insert_eq.
  - rewrite fd_free_reserved; cbn; [|by rewrite length_insert|by apply list_lookup_insert_eq].
    rewrite list_insert_insert_eq, list_insert_id by done. done.
Qed.

(** The lowest descriptor that is free. *)
Fixpoint lowest_free (l : list Z) : option nat :=
  match l with
  | [] => None
  | v :: l' => if v =? 0 then Some O else S <$> lowest_free l'
  end.

Lemma lowest_free_some l i : lowest_free l = Some i -> first_free l 0 i.
Proof.
  revert i. induction l as [|v l IH]; intros i; cbn; [done|]. destruct (Z.eqb_spec v 0) as [->|Hv].
  - intros [= <-]. split; [lia|]. split; [done|]. lia.
  - destruct (lowest_free l) as [k|]; [|done]. intros [= <-]. destruct (IH k eq_refl) as (_ & H1 & H2).
    split; [lia|]. split; [done|]. intros [|j] w Hj; cbn; [by intros [= <-]|]. apply H2. lia.
Qed.

Lemma lowest_free_none l : lowest_free l = None -> all_used l 0.
Proof.
  induction l as [|v l IH]; cbn; [intros _ j w _ [=]|]. destruct (Z.eqb_spec v 0) as [->|Hv]; [done|].
  destruct (lowest_free l) as [k|]; [done|]. intros _ [|j] w Hj; cbn; [by intros [= <-]|]. apply IH; [done|lia].
Qed.

(** [C16] [vfs_open] of a path that is not empty, whose names fit the buffer of 512
    bytes: without a free descriptor it returns -1 and changes nothing.
    Otherwise it reserves the lowest one and resolves the path from the root,
    component by component, empty components skipped, followed by the [open] of
    the node it finds, as [open_spec] says; a path of one character, whatever
    it is, is the root. *)
Theorem vfs_open_resolves s path file :
  length (desc s) = 256%nat -> file <> 0 -> is_Some (nodes s !! file) -> path <> [] -> short_names path ->
  vfs_open path file s =
    match lowest_free (desc s) with Some i => open_spec path file i s | None => Ok (-1, s) end.
Proof.
  intros Hlen Hfile Hn Hpath Hshort. destruct (lowest_free (desc s)) as [i|] eqn:Hi.
  - apply lowest_free_some in Hi. by apply open_eq.
  - apply lowest_free_none in Hi. unfold vfs_open, bind, gets. destruct (Z.eqb_spec file NULL) as [->|_]; [done|].
    change 0 with (Z.of_nat 0) at 1. by rewrite fd_alloc_none.
Qed.

(** A name of one letter is never looked up: it opens the root. *)
Theorem vfs_open_one_letter c file s : vfs_open [c] file s = vfs_open [47] file s.
Proof. reflexivity. Qed.

Definition free_fds (l : list Z) : nat := length (filter (fun v => v = 0) l).

Lemma free_fds_reserve l i : l !! i = Some 0 -> S (free_fds (<[i := FD_ALLOCATED]> l)) = free_fds l.
Proof.
  revert i. induction l as [|x l IH]; intros [|i] Hi; cbn in Hi; try done; unfold free_fds in *.
  - injection Hi as ->. change (<[0%nat := FD_ALLOCATED]> (0 :: l)) with (FD_ALLOCATED :: l).
    by rewrite !filter_cons.
  - change (<[S i := FD_ALLOCATED]> (x :: l)) with (x :: <[i := FD_ALLOCATED]> l).
    rewrite !filter_cons. specialize (IH i Hi). case_decide; cbn [length]; lia.
Qed.

(** A descriptor is lost with every [vfs_open] of a path that does not
    resolve: the result is -1 and the number of free descriptors falls by one.
    Once none is left, every [vfs_open] returns -1. *)
Theorem vfs_open_leaks s path file i s2 :
  length (desc s) = 256%nat -> first_free (desc s) 0 i -> file <> 0 -> is_Some (nodes s !! file) ->
  path <> [] -> short_names path ->
  resolve (vfsroot s) (walked path) (set_desc (<[i := FD_ALLOCATED]> (desc s)) s) = Ok (None, s2) ->
  (vfs_open path file s = Ok (-1, s2) /\ S (free_fds (desc s2)) = free_fds (desc s)) /\
  forall s3 path3 file3, length (desc s3) = 256%nat -> free_fds (desc s3) = 0%nat ->
    vfs_open path3 file3 s3 = Ok (-1, s3).
Proof.
  intros Hlen Hff Hfile Hn Hpath Hshort Hr. split; [split|].
  - rewrite (open_eq s path file i) by done. unfold open_spec. by rewrite Hr.
  - apply resolve_frame in Hr. rewrite Hr. apply free_fds_reserve. by destruct Hff as (_ & ? & _).
  - intros s3 path3 file3 Hl3 H0. unfold vfs_open, bind, gets. destruct (file3 =? NULL); [done|].
    change 0 with (Z.of_nat 0) at 1. rewrite fd_alloc_none; [done|done|]. intros j v _ Hj ->.
    apply length_zero_iff_nil in H0. apply list_elem_of_lookup_2 in Hj.
    assert (Hin : 0 ∈ filter (fun v => v = 0) (desc s3)) by (by apply list_elem_of_filter).
    rewrite H0 in Hin. by apply not_elem_of_nil in Hin.
Qed.

Lemma vfs_close_eq s i fp n v f e1 d1 e2 d2 :
  length (desc s) = 256%nat -> desc s !! i = Some fp -> fp <> FD_ALLOCATED -> fp <> 0 ->
  nodes s !! fp = Some n -> vops n <> 0 -> opvector_at (vops n) = Some v -> close v = Some f ->
  f fp (drv s) = Ok (e1, d1) -> f (priv n) d1 = Ok (e2, d2) ->
  vfs_close (Z.of_nat i) s =
    Ok (e2, mk_vfs (fs_root s) (vfsroot s) (<[i := 0]> (desc s)) (nodes s) d2).
Proof.
  intros Hlen Hi H1 H0 Hn Hvp Hv Hf Hc1 Hc2. pose proof (lookup_lt_Some _ _ _ Hi) as Hlt.
  unfold vfs_close, bind. rewrite (fp_get_node s i fp) by done.
  unfold rd_node, bind, gets at 1. rewrite Hn. cbn. destruct (Z.eqb_spec (vops n) NULL); [done|].
  unfold lift_opt at 1. rewrite Hv. cbn. rewrite Hf.
  unfold fd_free, FD_MAX_NUM. destruct (Z.ltb_spec (Z.of_nat i) 0); [lia|].
  destruct (Z.ltb_spec 256 (Z.of_nat i)); [lia|]. cbn [orb]. unfold bind.
  unfold fd_close, FD_MAX_NUM. destruct (Z.ltb_spec (Z.of_nat i) 0); [lia|].
  destruct (Z.ltb_spec 256 (Z.of_nat i)); [lia|]. cbn [orb]. unfold bind.
  rewrite (rd_desc_eq _ _ fp) by (rewrite ?Nat2Z.id; done || lia). rewrite wr_desc_eq by lia.
  unfold FD_ALLOCATED, NULL in *. destruct (Z.eqb_spec fp 1); [done|]. destruct (Z.eqb_spec fp 0); [done|].
  cbn [negb andb]. unfold fp_ucount_dec, rd_node, op_of, on_drv, zoom, bind, gets, lift_opt. cbn.
  rewrite Hn. cbn. rewrite Hv. cbn. rewrite Hf. cbn. rewrite Hc1.
  rewrite wr_desc_eq by (cbn; rewrite length_insert; lia). cbn. rewrite Hn. cbn. rewrite Hc2.
  cbn. rewrite Nat2Z.id, list_insert_insert_eq. done.
Qed.

(** The life of a file: opening a path binds the lowest free descriptor to
    the node that the path resolves to, reads through the descriptor are the
    [read]s of that node, and closing it makes the table what it was.  The
    [close] of the node runs twice, the first time on the node's address in
    place of its private data. *)
Theorem vfs_file_lifecycle s path file i n s2 v fo fr fc d3 buf count r d4 e1 d5 e2 d6 :
  length (desc s) = 256%nat -> first_free (desc s) 0 i -> file <> 0 -> file <> FD_ALLOCATED ->
  is_Some (nodes s !! file) -> path <> [] -> short_names path ->
  resolve (vfsroot s) (walked path) (set_desc (<[i := FD_ALLOCATED]> (desc s)) s) = Ok (Some n, s2) ->
  vops n <> 0 -> opvector_at (vops n) = Some v ->
  open v = Some fo -> fo (priv n) (drv s2) = Ok (0, d3) ->
  read v = Some fr -> fr (priv n) buf count d3 = Ok (r, d4) ->
  close v = Some fc -> fc file d4 = Ok (e1, d5) -> fc (priv n) d5 = Ok (e2, d6) ->
  exists s3 s4 s5,
    vfs_open path file s = Ok (Z.of_nat i, s3) /\ nodes s3 !! file = Some n /\
    vfs_read (Z.of_nat i) buf count s3 = Ok (r, s4) /\
    vfs_close (Z.of_nat i) s4 = Ok (e2, s5) /\ desc s5 = desc s /\ drv s5 = d6.
Proof.
  intros Hlen Hff Hf0 Hf1 Hn Hpath Hshort Hr Hvp Hv Ho Ho' Hrd Hrd' Hc Hc1 Hc2.
  destruct (Hff) as (_ & Hi & _). pose proof (lookup_lt_Some _ _ _ Hi) as Hlt.
  pose (s3 := mk_vfs (fs_root s) (vfsroot s) (<[i := file]> (desc s)) (<[file := n]> (nodes s)) d3).
  assert (H3 : desc s3 !! i = Some file) by (by apply list_lookup_insert_eq).
  assert (L3 : length (desc s3) = 256%nat) by (cbn; by rewrite length_insert).
  assert (N3 : nodes s3 !! file = Some n) by (by apply lookup_insert_eq).
  eexists s3, (set_drv d4 s3), _. split_and!.
  - rewrite (open_eq s path file i) by done. unfold open_spec. rewrite Hr.
    unfold op_of, bind, lift_opt. rewrite Hv. cbn. rewrite Ho. cbn. by rewrite Ho'.
  - done.
  - unfold vfs_read, bind. rewrite (fp_get_node s3 i file) by done.
    unfold rd_node, bind, gets. rewrite N3. cbn [lift_opt ret]. destruct (Z.eqb_spec (vops n) NULL); [done|].
    unfold lift_opt. rewrite Hv. cbn [ret]. rewrite Hrd. unfold on_drv, zoom. cbn [s3 drv]. by rewrite Hrd'.
  - by eapply (vfs_close_eq (set_drv d4 s3) i file n v fc).
  - cbn. by rewrite list_insert_insert_eq, list_insert_id.
  - done.
Qed.

(** The descriptor checks let [FD_MAX_NUM] itself through, which is past the
    end of the table: every operation on it is an access out of bounds. *)
Theorem fd_max_out_of_bounds s fp :
  length (desc s) = 256%nat ->
  fp_get FD_MAX_NUM s = Err (BadIndex 256) /\ fd_free FD_MAX_NUM s = Err (BadIndex 256) /\
  fd_assign FD_MAX_NUM fp s = Err (BadIndex 256).
Proof.
  intros Hlen. assert (E : rd_desc 256 s = Err (BadIndex 256)).
  { unfold rd_desc, bind, gets. cbn. rewrite lookup_ge_None_2 by (rewrite Hlen; cbn; lia). done. }
  unfold fp_get, fd_free, fd_assign, fd_close, FD_MAX_NUM, bind.
  change ((256 <? 0) || (256 <? 256)) with false. cbn match beta.
  by rewrite E.
Qed.

End Vfs.

(** ** The current path

    [vfs_change_path] on strings in memory.  The loop over the input goes on only
    after a [..], with a shorter input. *)

Definition DOT : Z := 46.
Definition SLASH : Z := 47.

(** The last character of the string at [p]. *)
Definition last_char (p : Z) : M mem Z := n <- strlen p ;; rd8 (p + n - 1).

(** The loop that looks for the last slash: what [next] ends with. *)
Definition last_slash (cur_path : Z) : M mem Z :=
  fuel <- gets mem_fuel ;;
  loop fuel (fun this =>
      let next := this + 1 in
      this <- strchr next SLASH ;;
      if negb (this =? NULL) then ret (inl this) else ret (inr next)) cur_path.

(** [slash] is the address of the string constant ["/"]. *)
Definition change_path_turn (slash cur_path input_path : Z) : M mem (Z + unit) :=
  c0 <- rd8 input_path ;;
  if c0 =? SLASH then strcpy cur_path input_path ;;; ret (inr tt) else
  len <- strlen input_path ;;
  if (len =? 1) && (c0 =? DOT) then ret (inr tt) else
  c1 <- (if c0 =? DOT then rd8 (input_path + 1) else ret 0) ;;
  if (c0 =? DOT) && negb (c1 =? DOT) then
    l <- last_char cur_path ;;
    if l =? SLASH then strcat cur_path (input_path + 2) ;;; ret (inr tt)
    else if 1 <? len then strcat cur_path (input_path + 1) ;;; ret (inr tt) else ret (inr tt)
  else if (c0 =? DOT) && (c1 =? DOT) then
    n <- strlen cur_path ;;
    if 1 <? n then
      next <- last_slash cur_path ;;
      (if cur_path =? next - 1 then wr8 next 0 else wr8 (next - 1) 0) ;;;
      if 3 <? len then ret (inl (input_path + 3)) else ret (inr tt)
    else ret (inr tt)
  else
    l <- last_char cur_path ;;
    (if negb (l =? SLASH) then strcat cur_path slash ;;; ret tt else ret tt) ;;;
    strcat cur_path input_path ;;;
    ret (inr tt).

Definition vfs_change_path (slash cur_path input_path : Z) : M mem unit :=
  if (cur_path =? NULL) || (input_path =? NULL) then ret tt else
  fuel <- gets mem_fuel ;;
  loop fuel (change_path_turn slash cur_path) input_path.

(** The same on the characters. *)

(** The path up to the last slash, the first character of the path counting as
    one; the first character is kept. *)
Fixpoint last_slash_l (l : list Z) : option nat :=
  match l with
  | [] => None
  | c :: l' => match last_slash_l l' with
               | Some i => Some (S i)
               | None => if c =? SLASH then Some 0%nat else None
               end
  end.
Definition parent (c : list Z) : list Z :=
  match c with
  | [] => []
  | c0 :: c' => match last_slash_l c' with Some i => c0 :: take i c' | None => [c0] end
  end.

Fixpoint change_path (fuel : nat) (cur inp : list Z) : list Z :=
  match fuel with
  | O => cur
  | S fuel =>
      match inp with
      | [] => if default 0 (last cur) =? SLASH then cur else cur ++ [SLASH]
      | c0 :: rest =>
          if c0 =? SLASH then inp
          else if c0 =? DOT then
            match rest with
            | [] => cur
            | c1 :: _ =>
                if c1 =? DOT then
                  if (1 <? length cur)%nat then
                    if (3 <? length inp)%nat then change_path fuel (parent cur) (drop 3 inp)
                    else parent cur
                  else cur
                else if default 0 (last cur) =? SLASH then cur ++ drop 2 inp else cur ++ rest
            end
          else (if default 0 (last cur) =? SLASH then cur else cur ++ [SLASH]) ++ inp
      end
  end.

Lemma str_truncate m a l k :
  (k <= length l)%nat -> str m a l -> str (<[a + Z.of_nat k := 0]> m) a (take k l).
Proof.
  intros Hk [Hb Hc]. split; [|by apply Forall_take]. apply bytes_app. split.
  - apply bytes_intro. intros i c Hi. pose proof (lookup_lt_Some _ _ _ Hi) as Hl. rewrite length_take in Hl.
    rewrite lookup_insert_ne by lia. eapply bytes_lookup; [exact Hb|].
    rewrite lookup_take_lt in Hi by lia. by apply lookup_app_l_Some.
  - rewrite length_take_le by done. cbn. by rewrite lookup_insert_eq.
Qed.

Lemma last_slash_l_step t :
  last_slash_l t = match index_of SLASH t with
                   | None => None
                   | Some k => match last_slash_l (drop (S k) t) with
                               | Some i => Some (S k + i)%nat
                               | None => Some k
                               end
                   end.
Proof.
  induction t as [|c t IH]; [done|]. cbn [last_slash_l index_of]. destruct (Z.eqb_spec c SLASH).
  - cbn [skipn]. rewrite drop_0. by destruct (last_slash_l t).
  - rewrite IH. destruct (index_of SLASH t) as [k|]; [|done]. cbn [fmap option_fmap option_map].
    change (drop (S (S k)) (c :: t)) with (drop (S k) t). by destruct (last_slash_l (drop (S k) t)).
Qed.

Lemma index_of_lt c l k : index_of c l = Some k -> (k < length l)%nat.
Proof.
  revert k. induction l as [|x l IH]; intros k; cbn; [done|]. destruct (x =? c).
  - intros [= <-]. lia.
  - destruct (index_of c l) as [j|]; [|done]. intros [= <-]. specialize (IH j eq_refl). lia.
Qed.

Lemma wp_last_slash_loop m fuel : forall t this (Q : Z -> mem -> Prop),
  0 < this -> str m (this + 1) t -> (length t < fuel)%nat ->
  Q (match last_slash_l t with Some i => this + 1 + Z.of_nat i + 1 | None => this + 1 end) m ->
  wp (loop fuel (fun this =>
      let next := this + 1 in
      this <- strchr next SLASH ;;
      if negb (this =? NULL) then ret (inl this) else ret (inr next)) this) Q m.
Proof.
  induction fuel as [|fuel IH]; intros t this Q Hpos Hs Hf HQ; [lia|]. cbn [loop]. wp_simpl.
  eapply wp_strchr; [exact Hs|unfold char_ok, SLASH; lia|].
  rewrite last_slash_l_step in HQ. destruct (index_of SLASH t) as [k|] eqn:Ek; [|by wp_simpl].
  apply index_of_lt in Ek. unfold NULL. destruct (Z.eqb_spec (this + 1 + Z.of_nat k) 0); [lia|].
  cbn [negb]. wp_simpl. apply (IH (drop (S k) t)).
  - lia.
  - replace (this + 1 + Z.of_nat k + 1) with (this + 1 + Z.of_nat (S k)) by lia. by apply str_drop.
  - rewrite length_drop. lia.
  - destruct (last_slash_l (drop (S k) t)) as [i|].
    + by replace (this + 1 + Z.of_nat k + 1 + Z.of_nat i + 1) with (this + 1 + Z.of_nat (S k + i) + 1) by lia.
    + by replace (this + 1 + Z.of_nat k + 1) with (this + 1 + Z.of_nat k + 1) by lia.
Qed.

Lemma last_slash_l_lt l i : last_slash_l l = Some i -> (i < length l)%nat.
Proof.
  revert i. induction l as [|c l IH]; intros i; cbn; [done|]. destruct (last_slash_l l) as [j|].
  - intros [= <-]. specialize (IH j eq_refl). lia.
  - destruct (c =? SLASH); [|done]. intros [= <-]. lia.
Qed.

(** The room of the current path and the strings around it. *)
Section ChangePath.
Context (slash cur cap : Z).

Definition apart (p : Z) (l : list Z) : Prop := p + Z.of_nat (length l) < cur \/ cur + cap <= p.

(** The current path [c] in its room of [cap] bytes, the input [i] and the
    constant, apart from it. *)
Record path_mem (m : mem) (c : list Z) (inp : Z) (i : list Z) : Prop := {
  pm_cur : str m cur c;
  pm_room : mapped m cur cap;
  pm_fit : Z.of_nat (length c) < cap;
  pm_inp : str m inp i;
  pm_inp_apart : apart inp i;
  pm_slash : str m slash [SLASH];
  pm_slash_apart : apart slash [SLASH]
}.

(** A write of a new path keeps everything else. *)
Lemma path_mem_write m m' c inp i c' :
  path_mem m c inp i -> str m' cur c' -> Z.of_nat (length c') < cap ->
  (forall b, ~ (cur <= b < cur + cap) -> m' !! b = m !! b) ->
  (forall b, Z.of_nat (length c') < b -> m' !! (cur + b) = m !! (cur + b)) ->
  path_mem m' c' inp i.
Proof.
  intros [H1 H2 H3 H4 H5 H6 H7] Hs Hfit Hout Hin. split; try done.
  - intros j Hj. destruct (decide (Z.of_nat (length c') < j)) as [Hlt|Hge].
    + rewrite Hin by done. by apply H2.
    + destruct (decide (j = Z.of_nat (length c'))) as [->|Hne]; [by rewrite (str_end _ _ _ Hs)|].
      destruct (lookup_lt_is_Some_2 c' (Z.to_nat j) ltac:(lia)) as [x Hx].
      apply (str_lookup _ _ _ _ _ Hs) in Hx. by replace (cur + Z.of_nat (Z.to_nat j)) with (cur + j) in Hx by lia.
  - eapply str_ext; [|exact H4]. intros b Hb. apply Hout. unfold apart in H5. lia.
  - eapply str_ext; [|exact H6]. intros b Hb. apply Hout. unfold apart in H7. cbn in *. lia.
Qed.

Lemma wp_strcat_path m c inp i p l (Q : Z -> mem -> Prop) :
  path_mem m c inp i -> str m p l -> apart p l -> Z.of_nat (length c + length l) < cap ->
  (forall m', path_mem m' (c ++ l) inp i ->
     (forall b, ~ (cur <= b < cur + cap) -> m' !! b = m !! b) -> Q cur m') ->
  wp (strcat cur p) Q m.
Proof.
  intros Hm Hp Ha Hfit HQ. eapply wp_strcat; [exact (pm_cur _ _ _ _ Hm)|exact Hp| | |].
  - intros j Hj. apply (pm_room _ _ _ _ Hm). lia.
  - unfold apart in Ha. lia.
  - intros m' Hs Hout. apply HQ; [|intros b Hb; apply Hout; lia].
    eapply path_mem_write; [exact Hm|exact Hs|by rewrite length_app| |].
    + intros b Hb. apply Hout. lia.
    + rewrite length_app. intros b Hb. apply Hout. lia.
Qed.

Lemma wp_last_char m c inp i (Q : Z -> mem -> Prop) :
  path_mem m c inp i -> c <> [] -> Q (default 0 (last c)) m -> wp (last_char cur) Q m.
Proof.
  intros Hm Hc HQ. unfold last_char. wp_simpl. pose proof (pm_cur _ _ _ _ Hm) as Hs.
  eapply wp_strlen; [exact Hs|]. destruct (last c) as [x|] eqn:E; [|by apply last_None in E].
  rewrite last_lookup in E. eapply wp_rd8; [|exact HQ].
  apply (str_lookup _ _ _ _ _ Hs) in E. destruct c as [|c0 c]; [done|]. cbn [length Nat.pred] in *.
  by replace (cur + Z.of_nat (S (length c)) - 1) with (cur + Z.of_nat (length c)) by lia.
Qed.

(** [..]: the last component goes. *)
Lemma wp_parent m c inp i (Q : unit -> mem -> Prop) :
  0 < cur -> path_mem m c inp i -> (1 < length c)%nat ->
  (forall m', path_mem m' (parent c) inp i ->
     (forall b, ~ (cur <= b < cur + cap) -> m' !! b = m !! b) -> Q tt m') ->
  wp (next <- last_slash cur ;; if cur =? next - 1 then wr8 next 0 else wr8 (next - 1) 0) Q m.
Proof.
  intros Hpos Hm Hlen HQ. wp_simpl. unfold last_slash. wp_simpl. pose proof (pm_cur _ _ _ _ Hm) as Hs.
  pose proof (pm_fit _ _ _ _ Hm) as Hfit. destruct c as [|c0 c]; [cbn in Hlen; lia|]. cbn [length] in *.
  eapply (wp_last_slash_loop m _ c).
  - done.
  - apply (str_drop _ _ _ 1) in Hs; [done|cbn; lia].
  - apply str_size in Hs. cbn in Hs. unfold mem_fuel. lia.
  - assert (Hcut : forall k, (1 <= k <= length c)%nat -> parent (c0 :: c) = take k (c0 :: c) ->
              wp (wr8 (cur + Z.of_nat k) 0) Q m).
    { intros k Hk Hp. eapply wp_wr8; [apply (pm_room _ _ _ _ Hm); lia|]. change (u8 0) with 0. apply HQ.
      - assert (Hl : length (take k (c0 :: c)) = k) by (apply length_take_le; cbn; lia). rewrite Hp.
        eapply path_mem_write; [exact Hm|apply str_truncate; [cbn; lia|exact Hs]|lia| |].
        + intros b Hb. rewrite lookup_insert_ne by lia. done.
        + intros b Hb. rewrite lookup_insert_ne by lia. done.
      - intros b Hb. rewrite lookup_insert_ne by lia. done. }
    destruct (last_slash_l c) as [j|] eqn:Ej.
    + apply last_slash_l_lt in Ej as Hj. destruct (Z.eqb_spec cur (cur + 1 + Z.of_nat j + 1 - 1)); [lia|].
      replace (cur + 1 + Z.of_nat j + 1 - 1) with (cur + Z.of_nat (S j)) by lia.
      apply Hcut; [lia|]. cbn [parent]. by rewrite Ej.
    + destruct (Z.eqb_spec cur (cur + 1 - 1)); [|lia].
      replace (cur + 1) with (cur + Z.of_nat 1) by lia.
      apply Hcut; [lia|]. cbn [parent]. by rewrite Ej.
Qed.

Lemma apart_drop p l n : (n <= length l)%nat -> apart p l -> apart (p + Z.of_nat n) (drop n l).
Proof. unfold apart. rewrite length_drop. lia. Qed.

Lemma path_mem_drop m c inp i n :
  (n <= length i)%nat -> path_mem m c inp i -> path_mem m c (inp + Z.of_nat n) (drop n i).
Proof. intros Hn [? ? ? ? ? ? ?]. split; try done; [by apply str_drop|by apply apart_drop]. Qed.

Lemma wp_strcpy_path m c inp i (Q : Z -> mem -> Prop) :
  path_mem m c inp i -> Z.of_nat (length i) < cap ->
  (forall m', path_mem m' i inp i ->
     (forall b, ~ (cur <= b < cur + cap) -> m' !! b = m !! b) -> Q cur m') ->
  wp (strcpy cur inp) Q m.
Proof.
  intros Hm Hfit HQ. unfold strcpy. wp_simpl. eapply wp_strcpy_loop; [exact (pm_inp _ _ _ _ Hm)| | |].
  - intros j Hj. apply (pm_room _ _ _ _ Hm). lia.
  - pose proof (pm_inp_apart _ _ _ _ Hm) as Ha. unfold apart in Ha. lia.
  - intros m' [Hin Hout]. rewrite length_app in Hout. cbn in Hout. wp_simpl.
    apply HQ; [|intros b Hb; apply Hout; lia].
    eapply path_mem_write; [exact Hm| |done| |].
    + split; [exact Hin|exact (proj2 (pm_inp _ _ _ _ Hm))].
    + intros b Hb. apply Hout. lia.
    + intros b Hb. apply Hout. lia.
Qed.

(** Adding a plain name. *)
Lemma wp_append m c inp i (Q : Z + unit -> mem -> Prop) :
  path_mem m c inp i -> c <> [] ->
  Z.of_nat (length ((if default 0 (last c) =? SLASH then c else c ++ [SLASH]) ++ i)) < cap ->
  (forall m', path_mem m' ((if default 0 (last c) =? SLASH then c else c ++ [SLASH]) ++ i) inp i ->
     (forall b, ~ (cur <= b < cur + cap) -> m' !! b = m !! b) -> Q (inr tt) m') ->
  wp (l <- last_char cur ;;
      (if negb (l =? SLASH) then strcat cur slash ;;; ret tt else ret tt) ;;;
      strcat cur inp ;;; ret (inr tt)) Q m.
Proof.
  intros Hm Hc Hfit HQ. wp_simpl. eapply wp_last_char; [exact Hm|done|].
  destruct (default 0 (last c) =? SLASH); cbn [negb]; wp_simpl.
  - rewrite length_app in Hfit. eapply wp_strcat_path; [exact Hm|apply (pm_inp _ _ _ _ Hm)|apply (pm_inp_apart _ _ _ _ Hm)|done|].
    intros m' Hm' Hout. wp_simpl. by apply HQ.
  - rewrite !length_app in Hfit. cbn [length] in Hfit.
    eapply wp_strcat_path; [exact Hm|apply (pm_slash _ _ _ _ Hm)|apply (pm_slash_apart _ _ _ _ Hm)|cbn; lia|].
    intros m1 Hm1 Hout1. wp_simpl.
    eapply wp_strcat_path; [exact Hm1|apply (pm_inp _ _ _ _ Hm1)|apply (pm_inp_apart _ _ _ _ Hm1)|rewrite length_app; cbn; lia|].
    intros m2 Hm2 Hout2. wp_simpl. apply HQ; [done|]. intros b Hb. by rewrite Hout2, Hout1.
Qed.

(** One turn of the loop. *)
Lemma wp_change_path_turn m c inp i f (Q : Z + unit -> mem -> Prop) :
  0 < cur -> path_mem m c inp i -> c <> [] -> Z.of_nat (length (change_path (S f) c i)) < cap ->
  (forall m', path_mem m' (change_path (S f) c i) inp i ->
     (forall b, ~ (cur <= b < cur + cap) -> m' !! b = m !! b) -> Q (inr tt) m') ->
  (forall m', path_mem m' (parent c) inp i ->
     (forall b, ~ (cur <= b < cur + cap) -> m' !! b = m !! b) -> (3 < length i)%nat ->
     change_path (S f) c i = change_path f (parent c) (drop 3 i) -> Q (inl (inp + 3)) m') ->
  wp (change_path_turn slash cur inp) Q m.
Proof.
  intros Hpos Hm Hc Hfit HR HL. unfold change_path_turn. wp_simpl. pose proof (pm_inp _ _ _ _ Hm) as Hi.
  destruct i as [|c0 rest].
  - pose proof (str_end _ _ _ Hi) as H0. rewrite Z.add_0_r in H0. eapply wp_rd8; [exact H0|].
    change (0 =? SLASH) with false. cbn match. wp_simpl. eapply wp_strlen; [exact Hi|].
    change (0 =? DOT) with false. rewrite andb_false_r. cbn match. cbn [change_path] in Hfit, HR.
    rewrite <- (app_nil_r (if default 0 (last c) =? SLASH then c else c ++ [SLASH])) in Hfit, HR.
    pose proof (wp_append m c inp _ Q Hm Hc Hfit HR) as Hp. revert Hp. cbn [andb]. wp_simpl. exact (fun H => H).
  - pose proof (str_lookup _ _ _ 0 _ Hi eq_refl) as H0. rewrite Z.add_0_r in H0. eapply wp_rd8; [exact H0|].
    cbn [change_path] in Hfit, HR, HL. destruct (Z.eqb_spec c0 SLASH) as [->|Hs0].
    { wp_simpl. eapply wp_strcpy_path; [exact Hm|done|]. intros m' Hm' Hout. wp_simpl. by apply HR. }
    wp_simpl. eapply wp_strlen; [exact Hi|].
    destruct (Z.eqb_spec c0 DOT) as [->|Hd0]; cbn [andb]; rewrite ?andb_true_r, ?andb_false_r.
    2:{ pose proof (wp_append m c inp _ Q Hm Hc Hfit HR) as Hp. revert Hp. wp_simpl. exact (fun H => H). }
    destruct rest as [|c1 rest]; [cbn; wp_simpl; by apply HR|].
    destruct (Z.eqb_spec (Z.of_nat (length (DOT :: c1 :: rest))) 1); [cbn in *; lia|].
    pose proof (str_lookup _ _ _ 1 _ Hi eq_refl) as H1. wp_simpl. eapply wp_rd8; [exact H1|].
    destruct (Z.eqb_spec c1 DOT) as [->|Hd1]; cbn [negb].
    + wp_simpl. eapply wp_strlen; [exact (pm_cur _ _ _ _ Hm)|].
      destruct (Z.ltb_spec 1 (Z.of_nat (length c))), (Nat.ltb_spec 1 (length c)); try lia; [|wp_simpl; by apply HR].
      pose proof (wp_parent m c inp _ (fun _ m' => path_mem m' (parent c) inp (DOT :: DOT :: rest) /\
        (forall b, ~ (cur <= b < cur + cap) -> m' !! b = m !! b)) Hpos Hm ltac:(assumption) ltac:(done)) as Hp.
      rewrite wp_bind in Hp. wp_simpl. eapply wp_mono; [exact Hp|]. intros next m1 Hw. wp_simpl.
      eapply wp_mono; [exact Hw|]. intros _ m2 [Hm2 Hout].
      destruct (Z.ltb_spec 3 (Z.of_nat (length (DOT :: DOT :: rest)))),
        (Nat.ltb_spec 3 (length (DOT :: DOT :: rest))); try lia; wp_simpl.
      * by apply HL.
      * by apply HR.
    + wp_simpl. eapply wp_last_char; [exact Hm|done|]. destruct (default 0 (last c) =? SLASH).
      * rewrite length_app in Hfit. wp_simpl. eapply wp_strcat_path; [exact Hm| | |done|].
        -- apply (str_drop _ _ _ 2) in Hi; [exact Hi|cbn; lia].
        -- apply (apart_drop inp (DOT :: c1 :: rest) 2); [cbn; lia|exact (pm_inp_apart _ _ _ _ Hm)].
        -- intros m' Hm' Hout. wp_simpl. by apply HR.
      * destruct (Z.ltb_spec 1 (Z.of_nat (length (DOT :: c1 :: rest)))); [|cbn in *; lia].
        rewrite length_app in Hfit. wp_simpl. eapply wp_strcat_path; [exact Hm| | |done|].
        -- apply (str_drop _ _ _ 1) in Hi; [exact Hi|cbn; lia].
        -- apply (apart_drop inp (DOT :: c1 :: rest) 1); [cbn; lia|exact (pm_inp_apart _ _ _ _ Hm)].
        -- intros m' Hm' Hout. wp_simpl. by apply HR.
Qed.

Lemma parent_nonempty c : c <> [] -> parent c <> [].
Proof. destruct c as [|x c]; [done|]. cbn. by destruct (last_slash_l c). Qed.

Lemma wp_change_path f : forall fuel m c inp i (Q : unit -> mem -> Prop),
  0 < cur -> path_mem m c inp i -> c <> [] -> (length i < f)%nat -> (length i < fuel)%nat ->
  Z.of_nat (length (change_path f c i)) < cap ->
  (forall m', str m' cur (change_path f c i) -> mapped m' cur cap ->
     (forall b, ~ (cur <= b < cur + cap) -> m' !! b = m !! b) -> Q tt m') ->
  wp (loop fuel (change_path_turn slash cur) inp) Q m.
Proof.
  induction f as [|f IH]; intros fuel m c inp i Q Hpos Hm Hc Hf Hfuel Hfit HQ; [lia|].
  destruct fuel as [|fuel]; [lia|]. cbn [loop]. wp_simpl.
  eapply (wp_change_path_turn m c inp i f); [done|exact Hm|done|done| |].
  - intros m' Hm' Hout. wp_simpl. apply HQ; [exact (pm_cur _ _ _ _ Hm')|exact (pm_room _ _ _ _ Hm')|done].
  - intros m' Hm' Hout H3 E. rewrite E in *. wp_simpl.
    apply (IH fuel m' (parent c) _ (drop 3 i)); [done| |by apply parent_nonempty| | |done|].
    + apply (path_mem_drop _ _ _ _ 3); [lia|done].
    + rewrite length_drop. lia.
    + rewrite length_drop. lia.
    + intros m2 Hs Hroom Hout2. apply HQ; [done|done|]. intros b Hb. by rewrite Hout2, Hout.
Qed.

End ChangePath.

Lemma change_path_ok slash cur cap m c inp i :
  0 < cur -> inp <> 0 -> c <> [] -> path_mem slash cur cap m c inp i ->
  Z.of_nat (length (change_path (S (length i)) c i)) < cap ->
  exists m', vfs_change_path slash cur inp m = Ok (tt, m') /\
    str m' cur (change_path (S (length i)) c i) /\ mapped m' cur cap /\
    forall b, ~ (cur <= b < cur + cap) -> m' !! b = m !! b.
Proof.
  intros Hpos Hinp Hc Hm Hfit.
  destruct (wp_elim (vfs_change_path slash cur inp) (fun _ m' => str m' cur (change_path (S (length i)) c i) /\
    mapped m' cur cap /\ forall b, ~ (cur <= b < cur + cap) -> m' !! b = m !! b) m) as ([] & m' & E & H); [|eauto].
  unfold vfs_change_path, NULL. destruct (Z.eqb_spec cur 0); [lia|]. destruct (Z.eqb_spec inp 0); [lia|].
  cbn [orb]. wp_simpl. pose proof (str_size _ _ _ (pm_inp _ _ _ _ _ _ _ Hm)) as Hsz.
  eapply (wp_change_path slash cur cap (S (length i)) _ m c inp i); [done|exact Hm|done|lia| |exact Hfit|done].
  unfold mem_fuel. lia.
Qed.

(** A path from the root that does not end in a slash, unless it is the root. *)
Definition canonical (c : list Z) : Prop := c = [SLASH] \/ exists c', c = SLASH :: c' /\ last c' <> None /\ last c' <> Some SLASH.

(** A name of a file: not empty, without a slash, not beginning with a dot. *)
Definition plain_name (n : list Z) : Prop :=
  Forall (fun x => x <> SLASH) n /\ exists x n', n = x :: n' /\ x <> DOT.

Lemma last_slash_l_none n : Forall (fun x => x <> SLASH) n -> last_slash_l n = None.
Proof.
  induction 1 as [|x n Hx _ IH]; [done|]. cbn. rewrite IH. by destruct (Z.eqb_spec x SLASH).
Qed.

Lemma last_slash_l_app l n :
  Forall (fun x => x <> SLASH) n -> last_slash_l (l ++ SLASH :: n) = Some (length l).
Proof.
  intros Hn. induction l as [|x l IH]; cbn; [by rewrite (last_slash_l_none n)|]. by rewrite IH.
Qed.

Lemma cd_name c n f :
  canonical c -> plain_name n ->
  change_path (S f) c n = (if default 0 (last c) =? SLASH then c else c ++ [SLASH]) ++ n.
Proof.
  intros _ [Hn (x & n' & -> & Hx)]. apply Forall_cons in Hn as [Hs _]. cbn.
  destruct (Z.eqb_spec x SLASH); [done|]. by destruct (Z.eqb_spec x DOT).
Qed.

Lemma cd_up c n f :
  canonical c -> plain_name n -> change_path (S f) (change_path (S f) c n) [DOT; DOT] = c.
Proof.
  intros Hc Hn. rewrite (cd_name c n f) by done. pose proof Hn as [Hs (x & n' & E & _)].
  destruct Hc as [->|(c' & -> & Hl & Hl')].
  - change (default 0 (last [SLASH]) =? SLASH) with true. cbn match. cbn [app change_path].
    change (DOT =? SLASH) with false. change (DOT =? DOT) with true. cbn match.
    change (3 <? length [DOT; DOT])%nat with false. cbn match.
    destruct (Nat.ltb_spec 1 (length (SLASH :: n))); [|rewrite E in *; cbn in *; lia].
    cbn [parent]. by rewrite last_slash_l_none.
  - destruct c' as [|y c']; [done|]. change (last (SLASH :: y :: c')) with (last (y :: c')).
    destruct (last (y :: c')) as [z|]; [|done]. cbn [default from_option id].
    destruct (Z.eqb_spec z SLASH) as [->|]; [done|]. rewrite <- app_assoc.
    cbn [change_path]. change (DOT =? SLASH) with false. change (DOT =? DOT) with true. cbn match.
    destruct (Nat.ltb_spec 1 (length ((SLASH :: y :: c') ++ [SLASH] ++ n)));
      [|rewrite length_app in *; cbn in *; lia].
    change (3 <? length [DOT; DOT])%nat with false. cbn match.
    change ((SLASH :: y :: c') ++ [SLASH] ++ n) with (SLASH :: ((y :: c') ++ SLASH :: n)).
    cbn [parent]. rewrite last_slash_l_app by done. by rewrite take_app_length.
Qed.

(** [C29] [vfs_change_path] always returns, and makes the current path what the
    definition [change_path] on characters says, as long as it fits in its
    buffer; the rest of the memory does not change. *)
Theorem vfs_change_path_refines slash cur cap m c inp i :
  0 < cur -> inp <> 0 -> c <> [] -> path_mem slash cur cap m c inp i ->
  Z.of_nat (length (change_path (S (length i)) c i)) < cap ->
  exists m', vfs_change_path slash cur inp m = Ok (tt, m') /\
    str m' cur (change_path (S (length i)) c i) /\
    forall b, ~ (cur <= b < cur + cap) -> m' !! b = m !! b.
Proof.
  intros Hpos Hinp Hc Hm Hfit.
  destruct (change_path_ok slash cur cap m c inp i Hpos Hinp Hc Hm Hfit) as (m' & E & Hs & _ & Ho). eauto.
Qed.

(** Changing to a directory by its name and then to [..] leads back to the
    path before. *)
Theorem vfs_change_path_back slash cur cap m c inp n up :
  0 < cur -> inp <> 0 -> up <> 0 -> path_mem slash cur cap m c inp n -> canonical c -> plain_name n ->
  str m up [DOT; DOT] -> apart cur cap up [DOT; DOT] ->
  Z.of_nat (length c + 1 + length n) < cap ->
  exists m', (vfs_change_path slash cur inp ;;; vfs_change_path slash cur up) m = Ok (tt, m') /\ str m' cur c.
Proof.
  intros Hpos Hinp Hup Hm Hc Hn Hsup Hupa Hfit.
  assert (Hne : c <> []) by (by destruct Hc as [->|(? & -> & _)]).
  assert (Hlen : Z.of_nat (length (change_path (S (length n)) c n)) < cap).
  { rewrite cd_name by done. rewrite length_app. destruct (default 0 (last c) =? SLASH); rewrite ?length_app; cbn; lia. }
  destruct (change_path_ok slash cur cap m c inp n Hpos Hinp Hne Hm Hlen) as (m1 & E1 & Hs1 & Hroom & Hout).
  assert (Hm1 : path_mem slash cur cap m1 (change_path (S (length n)) c n) up [DOT; DOT]).
  { destruct Hm as [? ? ? ? ? Hsl Hsla]. split; try done.
    - eapply str_ext; [|exact Hsup]. intros b Hb. apply Hout. unfold apart in Hupa. cbn in *. lia.
    - eapply str_ext; [|exact Hsl]. intros b Hb. apply Hout. unfold apart in Hsla. cbn in *. lia. }
  assert (Eup : change_path (S (length [DOT; DOT])) (change_path (S (length n)) c n) [DOT; DOT] = c).
  { rewrite (cd_name c n (length n)) by done. rewrite <- (cd_name c n (length [DOT; DOT])) by done. by apply cd_up. }
  assert (Hne1 : change_path (S (length n)) c n <> []).
  { rewrite cd_name by done. destruct Hn as [_ (x & n' & -> & _)]. by destruct (default 0 (last c) =? SLASH), c. }
  destruct (change_path_ok slash cur cap m1 _ up [DOT; DOT] Hpos Hup Hne1 Hm1) as (m2 & E2 & Hs2 & _).
  { rewrite Eup. lia. }
  exists m2. split; [unfold bind; by rewrite E1|]. by rewrite Eup in Hs2.
Qed.

(** ** A small file system for the examples

    A root directory with one file [a]; the state is the log of [close]s. *)

Definition toy_ops : vfs_opvector (list Z) :=
  mk_opvector
    (Some (fun _ name => ret (if decide (name = [97]) then Some (mk_node 9 70) else None)))
    (Some (fun p buf count => ret (0, [p], Some 1)))
    (Some (fun p => modify (cons p) ;;; ret 0))
    (Some (fun _ => ret 0)).
Definition toy_opvectors : Opvectors (list Z) := fun p => if p =? 9 then Some toy_ops else None.
Definition toy : vfs_st (list Z) :=
  mk_vfs [] (mk_node 9 60) (replicate 256 0) (<[5000 := mk_node 0 0]> ∅) [].

Lemma toy_free : first_free (desc toy) 0 0.
Proof. repeat split; [lia|]. intros j v Hj. lia. Qed.

Lemma vfs_open_resolves_witness :
  @vfs_open _ toy_opvectors [47; 97] 5000 toy = @open_spec _ toy_opvectors [47; 97] 5000 0 toy.
Proof.
  apply (@vfs_open_resolves _ toy_opvectors toy [47; 97] 5000); [reflexivity|lia|
    eexists; reflexivity|discriminate|repeat constructor; cbn; lia].
Defined.

Lemma vfs_open_leaks_witness :
  exists s2, @vfs_open _ toy_opvectors [47; 98] 5000 toy = Ok (-1, s2) /\ S (free_fds (desc s2)) = 256%nat.
Proof.
  eexists. apply (@vfs_open_leaks _ toy_opvectors toy [47; 98] 5000 0%nat); [reflexivity|exact toy_free|lia|
    eexists; reflexivity|discriminate|repeat constructor; cbn; lia|reflexivity].
Defined.

Lemma vfs_file_lifecycle_witness :
  exists s3 s4 s5, @vfs_open _ toy_opvectors [47; 97] 5000 toy = Ok (0, s3) /\ nodes s3 !! 5000 = Some (mk_node 9 70) /\
    @vfs_read _ toy_opvectors 0 6000 10 s3 = Ok ((0, [70], Some 1), s4) /\
    @vfs_close _ toy_opvectors 0 s4 = Ok (0, s5) /\ desc s5 = desc toy /\ drv s5 = [70; 5000].
Proof.
  eapply (@vfs_file_lifecycle _ toy_opvectors toy [47; 97] 5000 0%nat (mk_node 9 70)); try reflexivity;
    [exact toy_free|lia|unfold FD_ALLOCATED; lia|eexists; reflexivity|discriminate|repeat constructor; cbn; lia|cbn; lia].
Defined.

Lemma fd_max_out_of_bounds_witness :
  @fp_get _ FD_MAX_NUM toy = Err (BadIndex 256) /\ @fd_free _ toy_opvectors FD_MAX_NUM toy = Err (BadIndex 256) /\
  @fd_assign _ toy_opvectors FD_MAX_NUM 5000 toy = Err (BadIndex 256).
Proof. apply (@fd_max_out_of_bounds _ toy_opvectors toy 5000). reflexivity. Defined.

(** The current path [/] at 1000, the inputs [ab] and [..], and the constant. *)
Definition demo_path : mem :=
  list_to_map (zip (seqZ 1000 8) [47; 0; 0; 0; 0; 0; 0; 0] ++ zip (seqZ 2000 3) [97; 98; 0] ++
               zip (seqZ 2010 3) [46; 46; 0] ++ zip (seqZ 2020 2) [47; 0]).

Lemma demo_path_mem : path_mem 2020 1000 8 demo_path [SLASH] 2000 [97; 98].
Proof.
  split; unfold apart; try (cbn; lia);
    try (split; [repeat split; vm_compute; reflexivity|repeat constructor; unfold SLASH; lia]).
  intros i Hi. assert (i = 0 \/ i = 1 \/ i = 2 \/ i = 3 \/ i = 4 \/ i = 5 \/ i = 6 \/ i = 7) as Hc by lia.
  repeat destruct Hc as [ -> | Hc ]; try subst; eexists; vm_compute; reflexivity.
Qed.

Lemma vfs_change_path_refines_witness :
  exists m', vfs_change_path 2020 1000 2000 demo_path = Ok (tt, m') /\ str m' 1000 [47; 97; 98] /\
    forall b, ~ (1000 <= b < 1000 + 8) -> m' !! b = demo_path !! b.
Proof.
  apply (vfs_change_path_refines 2020 1000 8 demo_path [SLASH] 2000 [97; 98]); [lia|lia|done|
    exact demo_path_mem|cbn; lia].
Defined.

Lemma vfs_change_path_back_witness :
  exists m', (vfs_change_path 2020 1000 2000 ;;; vfs_change_path 2020 1000 2010) demo_path = Ok (tt, m') /\
    str m' 1000 [SLASH].
Proof.
  apply (vfs_change_path_back 2020 1000 8 demo_path [SLASH] 2000 [97; 98] 2010); [lia|lia|lia|exact demo_path_mem|
    by left| | |right; cbn; lia|cbn; lia].
  - split; [repeat constructor; unfold SLASH; lia|]. exists 97, [98]. split; [done|unfold DOT; lia].
  - split; [repeat split; vm_compute; reflexivity|repeat constructor; unfold DOT; lia].
Defined.
