(* ===== verification/Fat.v ===== *)
(** * fs/vfsfat.c: the FAT file system

    The disk image is in memory.  Buffers that live for one call are the lists of
    their bytes; the objects that stay (the volumes and the directory entries)
    are kept by address.  The allocator is the interface [Allocator].  Sizes and sector numbers are 32 bits wide. *)

From S2P Require Import Prelude KList Alloc Str Bytes Vfs.

(** ** Data *)

(** [struct fat_opvector]: the three of them, by what they are for. *)
Inductive fat_opvector : Type := fat12fs_opvector | fat16fs_opvector | fat32fs_opvector.

Definition fat_max_cluster (v : fat_opvector) : Z :=
  match v with fat12fs_opvector => 0xFF0 | fat16fs_opvector => 0xFFF0 | fat32fs_opvector => 0xFFFFFFF0 end.
Definition fat_cluster_mask (v : fat_opvector) : Z :=
  match v with fat12fs_opvector => 0xFFF | fat16fs_opvector => 0xFFFF | fat32fs_opvector => 0xFFFFFFFF end.

Record fatfs_priv : Type := mk_priv {
  fimage : Z;
  bytes_per_sector : Z;
  sectors_per_cluster : Z;
  first_cluster_sector : Z;
  reserved_sector : Z;
  sectors_per_fat : Z;
  number_of_FAT : Z;
  root_entries : Z;
  opvector : fat_opvector
}.

Record fatfs_dirent : Type := mk_dirent {
  d_fs : Z;
  d_lseek : Z;
  d_cluster : Z;
  d_offset : Z;
  d_length : Z;
  d_entry : Z;
  d_flag : Z
}.

(** [struct fat_entry], 32 bytes *)
Record fat_entry : Type := mk_entry {
  e_name : list Z;
  e_fext : list Z;
  e_attribute : Z;
  e_cluster_high : Z;
  e_cluster_entry : Z;
  e_length : Z
}.

Definition IS_DIR (flag : Z) : bool := negb (Z.land flag 0x10 =? 0).
Definition DENTRY_IS_LONG_NAME (e : fat_entry) : bool := e_attribute e =? 0x0F.
Definition DENTRY_IS_DELETED (e : fat_entry) : bool := default 0 (e_name e !! 0%nat) =? 0xE5.
Definition DENTRY_IS_ZERO (e : fat_entry) : bool := default 0 (e_name e !! 0%nat) =? 0x00.

Record fat_st (H : Type) : Type := mk_fat {
  heap : H;
  ram : mem;
  privs : gmap Z fatfs_priv;
  dents : gmap Z fatfs_dirent
}.
Arguments mk_fat {H}.
Arguments heap {H}.
Arguments ram {H}.
Arguments privs {H}.
Arguments dents {H}.

(** ** Directory entries *)

(** The entry in the 32 bytes [l]. *)
Definition entry_of (l : list Z) : fat_entry :=
  mk_entry (take 8 l) (take 3 (drop 8 l)) (default 0 (l !! 11%nat)) (le16 l 20) (le16 l 26) (le32 l 28).

(** [dirents[j]] in a buffer *)
Definition dirent_at (buf : list Z) (j : nat) : fat_entry := entry_of (take 32 (drop (32 * j) buf)).

(** [while(p < end && *p && *p != ' ') p++] *)
Fixpoint trimmed (l : list Z) : list Z :=
  match l with
  | [] => []
  | c :: l' => if (c =? 0) || (c =? 32) then [] else c :: trimmed l'
  end.
Definition dirent_trim (l : list Z) (count : nat) : Z := Z.of_nat (length (trimmed (take count l))).

(** The name that is put together from an entry: at most 12 characters. *)
Definition dirent_name (e : fat_entry) : list Z :=
  let cpcnt := dirent_trim (e_name e) 8 in
  let cpcntext := dirent_trim (e_fext e) 3 in
  take (Z.to_nat cpcnt) (e_name e) ++
  (if negb (cpcntext =? 0) then [46] else []) ++ take (Z.to_nat cpcntext) (e_fext e).

Fixpoint fat_dirent_lookup (buf : list Z) (j : nat) (dpcnt : nat) (path : list Z) : option fat_entry :=
  match dpcnt with
  | O => None
  | S dpcnt =>
      let e := dirent_at buf j in
      if (0 <? dirent_trim (e_name e) 8) && (strcmp_l path (dirent_name e) =? 0) then Some e
      else fat_dirent_lookup buf (S j) dpcnt path
  end.

Section Fat.
Context {H : Type} `{Allocator H}.

(** The indeterminate contents of a field of a fresh object, what was in the
    caller's buffer before, and the addresses of [fatfs_vops] and
    [fatfs_dir_vops]. *)
Context (junk : Z) (stale : list Z) (fatfs_vops fatfs_dir_vops : Z).
Implicit Types (s : fat_st H).

Definition set_heap (v : H) (s : fat_st H) : fat_st H := mk_fat v (ram s) (privs s) (dents s).
Definition set_ram (v : mem) (s : fat_st H) : fat_st H := mk_fat (heap s) v (privs s) (dents s).
Definition set_privs (v : gmap Z fatfs_priv) (s : fat_st H) : fat_st H := mk_fat (heap s) (ram s) v (dents s).
Definition set_dents (v : gmap Z fatfs_dirent) (s : fat_st H) : fat_st H := mk_fat (heap s) (ram s) (privs s) v.

Definition on_heap {A} (m : M H A) : M (fat_st H) A := zoom heap set_heap m.
Definition on_ram {A} (m : M mem A) : M (fat_st H) A := zoom ram set_ram m.

Definition rd_priv (p : Z) : M (fat_st H) fatfs_priv := t <- gets privs ;; lift_opt (bad_ptr p) (t !! p).
Definition rd_dirent (p : Z) : M (fat_st H) fatfs_dirent := t <- gets dents ;; lift_opt (bad_ptr p) (t !! p).
Definition wr_dirent (p : Z) (f : fatfs_dirent -> fatfs_dirent) : M (fat_st H) unit :=
  d <- rd_dirent p ;; modify (fun s => set_dents (<[p := f d]> (dents s)) s).

Definition set_cursor (cluster offset : Z) (d : fatfs_dirent) : fatfs_dirent :=
  mk_dirent (d_fs d) (d_lseek d) cluster offset (d_length d) (d_entry d) (d_flag d).
Definition set_lseek (v : Z) (d : fatfs_dirent) : fatfs_dirent :=
  mk_dirent (d_fs d) v (d_cluster d) (d_offset d) (d_length d) (d_entry d) (d_flag d).

(** ** Sectors and clusters *)

(** The result and what is put in the buffer. *)
Definition fat_read_sector (fsop : fatfs_priv) (sector : Z) : M (fat_st H) (Z * list Z) :=
  if bytes_per_sector fsop <? 512 then ret (-1, []) else
  let target := u32 (fimage fsop + u32 (sector * bytes_per_sector fsop)) in
  l <- on_ram (read_bytes target (Z.to_nat (bytes_per_sector fsop))) ;;
  ret (s32 (bytes_per_sector fsop), l).

Fixpoint read_sectors (fsop : fatfs_priv) (n : nat) (sector : Z) : M (fat_st H) (Z * list Z) :=
  match n with
  | O => ret (0, [])
  | S n =>
      ' (e, l) <- fat_read_sector fsop sector ;;
      if e =? -1 then ret (-1, []) else
      ' (r, l') <- read_sectors fsop n (u32 (sector + 1)) ;;
      ret (r, l ++ l')
  end.

Definition fat_read_cluster (fsop : fatfs_priv) (cluster : Z) : M (fat_st H) (Z * list Z) :=
  let sector := u32 (first_cluster_sector fsop + u32 ((cluster - 2) * sectors_per_cluster fsop)) in
  if sectors_per_cluster fsop =? 0 then ret (-1, []) else
  read_sectors fsop (Z.to_nat (s32 (sectors_per_cluster fsop))) sector.

(** The next cluster of a chain; [None] is the result -1. *)
Definition fat_next_cluster32 (fsop : fatfs_priv) (cluster : Z) : M (fat_st H) (option Z) :=
  let fat_start := reserved_sector fsop in
  if bytes_per_sector fsop =? 0 then fail DivByZero else
  let sectorcnt := u32 (cluster * 4) / bytes_per_sector fsop in
  sector_buffer <- on_heap (kmalloc (bytes_per_sector fsop)) ;;
  if sector_buffer =? NULL then ret None else
  ' (e, buf) <- fat_read_sector fsop (u32 (fat_start + sectorcnt)) ;;
  if e =? -1 then on_heap (kfree sector_buffer) ;;; ret None else
  let bytecnt_in_sector := u32 (u32 (cluster * 4) - bytes_per_sector fsop * sectorcnt) in
  let i := Z.shiftr bytecnt_in_sector 2 in
  on_heap (kfree sector_buffer) ;;;
  ret (Some (le32 buf (Z.to_nat (4 * i)))).

Definition fat_next_cluster16 (fsop : fatfs_priv) (cluster : Z) : M (fat_st H) (option Z) :=
  let fat_start := reserved_sector fsop in
  if bytes_per_sector fsop =? 0 then fail DivByZero else
  let sectorcnt := u32 (cluster * 2) / bytes_per_sector fsop in
  sector_buffer <- on_heap (kmalloc (bytes_per_sector fsop)) ;;
  if sector_buffer =? NULL then ret None else
  ' (e, buf) <- fat_read_sector fsop (u32 (fat_start + sectorcnt)) ;;
  if e =? -1 then on_heap (kfree sector_buffer) ;;; ret None else
  let bytecnt_in_sector := u32 (u32 (cluster * 2) - bytes_per_sector fsop * sectorcnt) in
  let i := Z.shiftr bytecnt_in_sector 1 in
  on_heap (kfree sector_buffer) ;;;
  ret (Some (le16 buf (Z.to_nat (2 * i)))).

Definition fat_next_cluster12 (fsop : fatfs_priv) (cluster : Z) : M (fat_st H) (option Z) :=
  let fat_start := reserved_sector fsop in
  let bitcnt := u32 (cluster * 12) in
  if u32 (bytes_per_sector fsop * 8) =? 0 then fail DivByZero else
  let sectorcnt := bitcnt / u32 (bytes_per_sector fsop * 8) in
  sector_buffer <- on_heap (kmalloc (u32 (bytes_per_sector fsop * 2))) ;;
  if sector_buffer =? NULL then ret None else
  ' (e, buf) <- fat_read_sector fsop (u32 (fat_start + sectorcnt)) ;;
  if e =? -1 then on_heap (kfree sector_buffer) ;;; ret None else
  let bitcnt_in_sector := u32 (bitcnt - u32 (bytes_per_sector fsop * 8 * sectorcnt)) in
  let bytecnt_in_sector := bitcnt_in_sector / 8 in
  ' (e, buf2) <- (if u32 (bytecnt_in_sector + 1) =? bytes_per_sector fsop
                  then fat_read_sector fsop (u32 (fat_start + sectorcnt + 1))
                  else ret (0, [])) ;;
  if e =? -1 then on_heap (kfree sector_buffer) ;;; ret None else
  let retval := le16 (buf ++ buf2) (Z.to_nat bytecnt_in_sector) in
  on_heap (kfree sector_buffer) ;;;
  ret (Some (if negb (Z.land bitcnt_in_sector 0x7 =? 0) then Z.shiftr retval 4 else Z.land retval 0xFFF)).

Definition fat_next_cluster (v : fat_opvector) : fatfs_priv -> Z -> M (fat_st H) (option Z) :=
  match v with
  | fat12fs_opvector => fat_next_cluster12
  | fat16fs_opvector => fat_next_cluster16
  | fat32fs_opvector => fat_next_cluster32
  end.

(** ** Files *)

(** The loop of [fatfs_pread] that follows the chain; [Some r] is a [return r]. *)
Definition pread_seek (fuel : nat) (file : Z) (fs : fatfs_priv) (bytes_per_cluster cluster_count : Z) :
    M (fat_st H) (option Z) :=
  loop fuel (fun cluster_count =>
      if 0 <? cluster_count then
        f <- rd_dirent file ;;
        r <- fat_next_cluster (opvector fs) fs (d_cluster f) ;;
        match r with
        | None => ret (inr (Some (-1)))
        | Some cluster =>
            if fat_max_cluster (opvector fs) <=? cluster then ret (inr (Some 0)) else
            wr_dirent file (fun f => set_cursor cluster (u32 (d_offset f + bytes_per_cluster)) f) ;;;
            ret (inl (cluster_count - 1))
        end
      else ret (inr None)) cluster_count.

(** The rest of [fatfs_pread] once the cursor is not behind [off]; [call] is the
    recursive call.  The result and the bytes that are stored at [buf], in order. *)
Definition pread_from (call : Z -> Z -> Z -> M (fat_st H) (Z * list Z)) (fuel : nat) (file buf count off : Z) :
    M (fat_st H) (Z * list Z) :=
  f <- rd_dirent file ;;
  if d_fs f =? NULL then ret (-1, []) else
  fs <- rd_priv (d_fs f) ;;
  let bytes_per_cluster := u32 (bytes_per_sector fs * sectors_per_cluster fs) in
  if bytes_per_cluster =? 0 then fail DivByZero else
  let cluster_count := u32 (off - d_offset f) / bytes_per_cluster in
  r <- pread_seek (S (Z.to_nat cluster_count)) file fs bytes_per_cluster cluster_count ;;
  match r with
  | Some r => ret (r, [])
  | None =>
      cluster_buffer <- on_heap (kmalloc bytes_per_cluster) ;;
      if cluster_buffer =? NULL then ret (-1, []) else
      f <- rd_dirent file ;;
      ' (e, data) <- fat_read_cluster fs (d_cluster f) ;;
      if negb (e =? 0) then on_heap (kfree cluster_buffer) ;;; ret (-1, []) else
      let cluster_offset := u32 (off - d_offset f) in
      let cpcnt := if u32 (cluster_offset + count) <? bytes_per_cluster then count
                   else u32 (bytes_per_cluster - cluster_offset) in
      let chunk := take (Z.to_nat cpcnt) (drop (Z.to_nat cluster_offset) data) in
      on_heap (kfree cluster_buffer) ;;;
      loop fuel (fun '(cpcnt, off, count, acc) =>
          f <- rd_dirent file ;;
          if (off <? d_length f) && (0 <? count) then
            ' (hr, l) <- call (u32 (buf + cpcnt)) count off ;;
            if hr =? -1 then ret (inr (-1, acc ++ l))
            else if hr =? 0 then ret (inr (s32 cpcnt, acc ++ l))
            else ret (inl (u32 (cpcnt + hr), u32 (off + hr), u32 (count - hr), acc ++ l))
          else ret (inr (s32 cpcnt, acc))) (cpcnt, u32 (off + cpcnt), u32 (count - cpcnt), chunk)
  end.

Fixpoint fatfs_pread (fuel : nat) (file buf count off : Z) : M (fat_st H) (Z * list Z) :=
  match fuel with
  | O => fail OutOfFuel
  | S fuel =>
      if file =? NULL then ret (-1, []) else
      if buf =? NULL then ret (-1, []) else
      f <- rd_dirent file ;;
      if negb (IS_DIR (d_flag f)) && (d_length f <? off) then ret (-1, []) else
      let count := if negb (IS_DIR (d_flag f)) && (d_length f <? u32 (off + count))
                   then u32 (d_length f - off) else count in
      if count =? 0 then ret (0, []) else
      (if off <? d_offset f then wr_dirent file (fun f => set_cursor (d_entry f) 0 f) else ret tt) ;;;
      pread_from (fatfs_pread fuel file) fuel file buf count off
  end.

(** Every call but the last reads at least one byte, and a call is for fewer
    bytes than the one it is made from. *)
Definition pread (file buf count off : Z) : M (fat_st H) (Z * list Z) :=
  fatfs_pread (S (S (Z.to_nat count))) file buf count off.
(** ** Directories *)

Definition new_dirent (p fs length entry flag : Z) : M (fat_st H) unit :=
  modify (fun s => set_dents (<[p := mk_dirent fs junk junk junk length entry flag]> (dents s)) s).

Definition node_for (p flag : Z) : vfs_node :=
  mk_node (if IS_DIR flag then fatfs_dir_vops else fatfs_vops) p.

Definition dirent_size : Z := 32.
Definition priv_size : Z := 40.

(** The root directory of FAT12 and FAT16. *)
Definition fatfs_root (fsp : Z) (name : list Z) : M (fat_st H) (option vfs_node) :=
  if fsp =? NULL then ret None else
  fsop <- rd_priv fsp ;;
  let idx := s32 (reserved_sector fsop + sectors_per_fat fsop * number_of_FAT fsop) in
  dirent <- on_heap (kmalloc dirent_size) ;;
  if dirent =? NULL then ret None else
  sector_buffer <- on_heap (kmalloc (bytes_per_sector fsop)) ;;
  if sector_buffer =? NULL then ret None else
  loop (S (Z.to_nat (root_entries fsop))) (fun '(idx, count) =>
      if count <? s32 (root_entries fsop) then
        ' (e, buf) <- fat_read_sector fsop (u32 idx) ;;
        if e <=? 0 then
          on_heap (kfree sector_buffer) ;;; on_heap (kfree dirent) ;;; ret (inr None)
        else
        let dpcnt := bytes_per_sector fsop / 32 in
        let dpcnt := if root_entries fsop <? u32 (dpcnt + count) then u32 (root_entries fsop - count) else dpcnt in
        match fat_dirent_lookup buf 0 (Z.to_nat dpcnt) name with
        | Some entry =>
            new_dirent dirent fsp (e_length entry) (e_cluster_entry entry) (e_attribute entry) ;;;
            on_heap (kfree sector_buffer) ;;;
            ret (inr (Some (node_for dirent (e_attribute entry))))
        | None => ret (inl (s32 (idx + 1), s32 (count + dpcnt)))
        end
      else on_heap (kfree sector_buffer) ;;; on_heap (kfree dirent) ;;; ret (inr None)) (idx, 0).

(** A chain without a cycle has at most one cluster per byte of the image. *)
Definition chain_fuel (s : fat_st H) : nat := S (size (ram s)).

(** The body of the loop over the clusters of a directory. *)
Definition lookup_body (fsp : Z) (fsop : fatfs_priv) (cluster_buffer dpcnt : Z) (name : list Z)
    (valid_cluster : Z) : M (fat_st H) (Z + option vfs_node) :=
  let opv := opvector fsop in
  if valid_cluster <? fat_max_cluster opv then
    ' (e, buf) <- fat_read_cluster fsop valid_cluster ;;
    if e =? -1 then on_heap (kfree cluster_buffer) ;;; ret (inr None) else
    match fat_dirent_lookup buf 0 (Z.to_nat dpcnt) name with
    | Some entry =>
        q <- on_heap (kmalloc dirent_size) ;;
        if q =? NULL then ret (inr None) else
        new_dirent q fsp (e_length entry)
          (Z.land (Z.lor (e_cluster_entry entry) (Z.shiftl (e_cluster_high entry) 16)) (fat_cluster_mask opv))
          (e_attribute entry) ;;;
        on_heap (kfree cluster_buffer) ;;;
        ret (inr (Some (node_for q (e_attribute entry))))
    | None =>
        r <- fat_next_cluster opv fsop valid_cluster ;;
        match r with
        | None => on_heap (kfree cluster_buffer) ;;; ret (inr None)
        | Some cluster => ret (inl cluster)
        end
    end
  else on_heap (kfree cluster_buffer) ;;; ret (inr None).

Definition fatfs_lookup (p : Z) (name : list Z) : M (fat_st H) (option vfs_node) :=
  dirent <- rd_dirent p ;;
  if d_fs dirent =? NULL then ret None else
  fsop <- rd_priv (d_fs dirent) ;;
  let bytes_per_cluster := u32 (bytes_per_sector fsop * sectors_per_cluster fsop) in
  cluster_buffer <- on_heap (kmalloc bytes_per_cluster) ;;
  if cluster_buffer =? NULL then ret None else
  if negb (Z.land (d_flag dirent) 0xFF00 =? 0) then fatfs_root (d_fs dirent) name else
  if negb (IS_DIR (d_flag dirent)) then ret None else
  let dpcnt := bytes_per_cluster / 32 in
  fuel <- gets chain_fuel ;;
  loop fuel (lookup_body (d_fs dirent) fsop cluster_buffer dpcnt name) (d_entry dirent).

Definition fatfs_open (p : Z) : M (fat_st H) Z :=
  if p =? NULL then ret (-1) else
  wr_dirent p (fun d => set_lseek 0 (set_cursor (d_entry d) 0 d)) ;;;
  ret 0.

Definition fatfs_read (p buf count : Z) : M (fat_st H) (Z * list Z * option Z) :=
  if p =? NULL then ret (-1, [], None) else
  dirent <- rd_dirent p ;;
  ' (r, l) <- pread p buf count (d_lseek dirent) ;;
  if r =? -1 then ret (-1, l, Some 0) else
  wr_dirent p (fun d => set_lseek (u32 (d_lseek d + u32 r)) d) ;;;
  ret (0, l, Some (u32 r)).

Definition fatfs_close (p : Z) : M (fat_st H) Z := ret 0.

Definition fatfs_root_dir_read (p buf count : Z) : M (fat_st H) (Z * list Z * option Z) :=
  dirent <- rd_dirent p ;;
  if buf =? NULL then ret (-1, [], None) else
  fsop <- rd_priv (d_fs dirent) ;;
  let entry_cnt := d_lseek dirent / 32 in
  if root_entries fsop <=? entry_cnt then ret (-1, [], None) else
  (if u32 (u32 (d_offset dirent + 1) * bytes_per_sector fsop) <? d_lseek dirent
   then wr_dirent p (fun d => set_cursor (d_cluster d) (u32 (d_offset d + 1)) d) else ret tt) ;;;
  dirent <- rd_dirent p ;;
  let idx := s32 (reserved_sector fsop + sectors_per_fat fsop * number_of_FAT fsop + d_offset dirent) in
  sector_buffer <- on_heap (kmalloc (bytes_per_sector fsop)) ;;
  if sector_buffer =? NULL then ret (-1, [], None) else
  ' (e, data) <- fat_read_sector fsop (u32 idx) ;;
  if e <=? 0 then on_heap (kfree sector_buffer) ;;; ret (-1, [], None) else
  let dent := dirent_at data (Z.to_nat (entry_cnt mod (bytes_per_sector fsop / 32))) in
  if DENTRY_IS_ZERO dent then ret (-1, [], None)
  else if DENTRY_IS_DELETED dent || DENTRY_IS_LONG_NAME dent then
    wr_dirent p (fun d => set_lseek (u32 (d_lseek d + 32)) d) ;;; ret (0, [], Some (u32 (-1)))
  else if 0 <? dirent_trim (e_name dent) 8 then
    wr_dirent p (fun d => set_lseek (u32 (d_lseek d + 32)) d) ;;;
    ret (0, dirent_name dent ++ [0], Some (Z.of_nat (length (dirent_name dent)) + 1))
  else ret (-1, [], None).

(** [new] stored over the beginning of [old]. *)
Definition overlay (new old : list Z) : list Z := new ++ drop (length new) old.

Definition fatfs_dir_read (p buf count : Z) : M (fat_st H) (Z * list Z * option Z) :=
  if count =? 0 then ret (-1, [], None) else
  if p =? NULL then ret (-1, [], None) else
  dirent <- rd_dirent p ;;
  if negb (Z.land (d_flag dirent) 0xFF00 =? 0) then fatfs_root_dir_read p buf count else
  if negb (IS_DIR (d_flag dirent)) then ret (-1, [], None) else
  ' (r, l) <- pread p buf 32 (d_lseek dirent) ;;
  if r =? -1 then ret (-1, l, Some 0) else
  wr_dirent p (fun d => set_lseek (u32 (d_lseek d + u32 r)) d) ;;;
  let entry := entry_of (overlay l stale) in
  if 0 <? dirent_trim (e_name entry) 8 then
    ret (0, overlay (dirent_name entry ++ [0]) l, Some (Z.of_nat (length (dirent_name entry)) + 1))
  else ret (-1, l, Some (u32 r)).

(** ** Mounting *)

(** [memcmp(type, "FAT32   ", 8)] and its like, on the bytes of the boot sector *)
Definition fs_type_is (volume : list Z) (at_ : nat) (digits : list Z) : bool :=
  bool_decide (take 8 (drop at_ volume) = [70; 65; 84] ++ digits ++ [32; 32; 32]).

(** The volume that the BIOS parameter block at offset 11 describes: the fields
    of [struct fat_bpb] and [struct fat32_bpb] that are used, by their offsets. *)
Definition bpb_priv (image : Z) (volume : list Z) (spf : Z) (opv : fat_opvector) : outcome fatfs_priv :=
  let bps := le16 volume 11 in
  let spc := default 0 (volume !! 13%nat) in
  let reserved := le16 volume 14 in
  let nfat := default 0 (volume !! 16%nat) in
  let rootents := le16 volume 17 in
  if bps =? 0 then Err DivByZero else
  Ok (mk_priv image bps spc (u32 (reserved + nfat * spf + rootents * 32 / bps)) reserved spf nfat rootents opv).

Definition fatfs_mount (image : Z) : M (fat_st H) (option vfs_node) :=
  volume <- on_ram (read_bytes image 512) ;;
  fs <- on_heap (kmalloc priv_size) ;;
  let sixteen_12 := le16 volume 22 in
  let thirtytwo := le32 volume 36 in
  let is32 := fs_type_is volume 82 [51; 50] in
  let kind := if is32 then Some (thirtytwo, fat32fs_opvector)
              else if fs_type_is volume 54 [49; 54] then Some (sixteen_12, fat16fs_opvector)
              else if fs_type_is volume 54 [49; 50] then Some (sixteen_12, fat12fs_opvector)
              else None in
  match kind with
  | None => on_heap (kfree fs) ;;; ret None
  | Some (spf, opv) =>
      if fs =? NULL then fail NullDeref else
      match bpb_priv image volume spf opv with
      | Err e => fail e
      | Ok v =>
          modify (fun s => set_privs (<[fs := v]> (privs s)) s) ;;;
          if negb (Z.land (root_entries v) 0xF =? 0) then ret None else
          root <- on_heap (kmalloc dirent_size) ;;
          if root =? NULL then fail NullDeref else
          modify (fun s => set_dents (<[root :=
            if is32 then mk_dirent fs 0 0 0 0 (le32 volume 44) 0x10
            else mk_dirent fs 0 0 0 0 0 0xFF00]> (dents s)) s) ;;;
          ret (Some (mk_node fatfs_dir_vops root))
      end
  end.

Definition fat_opvectors : Opvectors (fat_st H) := fun vp =>
  if vp =? fatfs_vops then
    Some (mk_opvector (Some fatfs_lookup) (Some fatfs_read) (Some fatfs_close) (Some fatfs_open))
  else if vp =? fatfs_dir_vops then
    Some (mk_opvector (Some fatfs_lookup) (Some fatfs_dir_read) (Some fatfs_close) (Some fatfs_open))
  else None.

Definition fat_fs : vfs_fs (fat_st H) := mk_fs [70; 65; 84] (Some fatfs_mount).

End Fat.

(** ** The allocation table *)

(** The width of an entry of the allocation table, and the [n]th entry of the
    table as the number that its bits are. *)
Definition fat_width (v : fat_opvector) : Z :=
  match v with fat12fs_opvector => 12 | fat16fs_opvector => 16 | fat32fs_opvector => 32 end.
Definition fat_value (v : fat_opvector) (tbl : list Z) (n : Z) : Z :=
  (le tbl / 2 ^ (fat_width v * n)) mod 2 ^ fat_width v.

Lemma fat_value_16 tbl n :
  Forall byte tbl -> 0 <= n -> fat_value fat16fs_opvector tbl n = le16 tbl (Z.to_nat (2 * n)).
Proof.
  intros Hb Hn. rewrite le16_value by done. unfold fat_value. cbn [fat_width].
  by replace (8 * Z.of_nat (Z.to_nat (2 * n))) with (16 * n) by lia.
Qed.

Lemma fat_value_32 tbl n :
  Forall byte tbl -> 0 <= n -> fat_value fat32fs_opvector tbl n = le32 tbl (Z.to_nat (4 * n)).
Proof.
  intros Hb Hn. rewrite le32_value by done. unfold fat_value. cbn [fat_width].
  by replace (8 * Z.of_nat (Z.to_nat (4 * n))) with (32 * n) by lia.
Qed.

(** Twelve bits begin at a byte or in the middle of one. *)
Lemma fat_value_12 tbl n :
  Forall byte tbl -> 0 <= n ->
  fat_value fat12fs_opvector tbl n =
    (let w := le16 tbl (Z.to_nat (12 * n / 8)) in
     if negb (Z.land (12 * n) 7 =? 0) then Z.shiftr w 4 else Z.land w 0xFFF).
Proof.
  intros Hb Hn. cbn zeta. rewrite le16_value by done. unfold fat_value. cbn [fat_width].
  change 7 with (Z.ones 3). change 0xFFF with (Z.ones 12). rewrite !Z.land_ones, Z.shiftr_div_pow2 by lia.
  replace (Z.of_nat (Z.to_nat (12 * n / 8))) with (12 * n / 8)
    by (assert (0 <= 12 * n / 8) by (apply Z.div_pos; lia); lia).
  pose proof (Z.div_mod (12 * n) 8 ltac:(lia)) as Hd. change (2 ^ 3) with 8.
  destruct (Z.eqb_spec (12 * n mod 8) 0) as [E|E]; cbn [negb].
  - replace (8 * (12 * n / 8)) with (12 * n) by lia. set (x := le tbl / _).
    change (2 ^ 16) with (2 ^ 12 * 2 ^ 4). rewrite (Z.rem_mul_r x) by lia.
    rewrite Z.mul_comm, Z.mod_add by lia. by rewrite Z.mod_mod by lia.
  - assert (12 * n mod 8 = 4) as E4.
    { pose proof (Z.mod_pos_bound (12 * n) 8 ltac:(lia)).
      assert (12 * n mod 8 = 4 * (3 * n - 2 * (12 * n / 8))) by lia. lia. }
    replace (12 * n) with (8 * (12 * n / 8) + 4) at 1 by lia. rewrite Z.pow_add_r, <- Z.div_div by (try apply Z.mul_nonneg_nonneg; try apply Z.div_pos; lia).
    set (x := le tbl / _). change (2 ^ 16) with (2 ^ 4 * 2 ^ 12). rewrite (Z.rem_mul_r x) by lia.
    rewrite Z.mul_comm, Z.div_add by lia. rewrite (Z.div_small (x mod 2 ^ 4)) by (apply Z.mod_pos_bound; lia). lia.
Qed.

(** ** A volume in memory *)

Record volume_ok (m : mem) (fs : fatfs_priv) (tbl : list Z) : Prop := {
  v_bps : 512 <= bytes_per_sector fs < 65536;
  v_bps4 : (4 | bytes_per_sector fs);
  v_spc : 0 < sectors_per_cluster fs < 256;
  v_image : 0 <= fimage fs;
  v_reserved : 0 <= reserved_sector fs;
  v_first : 0 <= first_cluster_sector fs;
  v_spf : 0 <= sectors_per_fat fs;
  v_tbl : bytes m (fimage fs + reserved_sector fs * bytes_per_sector fs) tbl;
  v_tbl_bytes : Forall byte tbl;
  v_tbl_len : Z.of_nat (length tbl) = sectors_per_fat fs * bytes_per_sector fs;
  v_tbl_fit : fimage fs + (reserved_sector fs + sectors_per_fat fs) * bytes_per_sector fs < 2 ^ 32;
  v_tbl_bits : 8 * Z.of_nat (length tbl) < 2 ^ 32
}.

Definition cluster_bytes (fs : fatfs_priv) : Z := bytes_per_sector fs * sectors_per_cluster fs.

(** The contents of cluster [c] are [data]. *)
Record cluster_at (m : mem) (fs : fatfs_priv) (c : Z) (data : list Z) : Prop := {
  c_ge : 2 <= c;
  c_len : Z.of_nat (length data) = cluster_bytes fs;
  c_data : bytes m (fimage fs + (first_cluster_sector fs + (c - 2) * sectors_per_cluster fs) * bytes_per_sector fs) data;
  c_fit : fimage fs + (first_cluster_sector fs + (c - 1) * sectors_per_cluster fs) * bytes_per_sector fs < 2 ^ 32
}.

Section FatSpec.
Context {H : Type} `{HA : Allocator H} `{HS : !AllocatorSpec H}.
Implicit Types (s : fat_st H).

Lemma wp_kmalloc n s (Q : Z -> fat_st H -> Prop) :
  heap_ok (heap s) -> (forall p h, p <> 0 -> heap_ok h -> Q p (set_heap h s)) ->
  wp (on_heap (kmalloc n)) Q s.
Proof.
  intros Hh HQ. unfold on_heap. wp_simpl. eapply wp_mono; [by apply kmalloc_ok|].
  cbn. intros p h [Hp Hh']. by apply HQ.
Qed.

Lemma wp_kfree p s (Q : unit -> fat_st H -> Prop) :
  heap_ok (heap s) -> (forall h, heap_ok h -> Q tt (set_heap h s)) -> wp (on_heap (kfree p)) Q s.
Proof.
  intros Hh HQ. unfold on_heap. wp_simpl. eapply wp_mono; [by apply kfree_ok|].
  cbn. intros [] h Hh'. by apply HQ.
Qed.

Lemma wp_fat_read_sector fs sector l s (Q : Z * list Z -> fat_st H -> Prop) :
  512 <= bytes_per_sector fs < 65536 -> 0 <= fimage fs -> 0 <= sector ->
  fimage fs + sector * bytes_per_sector fs < 2 ^ 32 ->
  bytes (ram s) (fimage fs + sector * bytes_per_sector fs) l ->
  Z.of_nat (length l) = bytes_per_sector fs ->
  Q (bytes_per_sector fs, l) s -> wp (fat_read_sector fs sector) Q s.
Proof.
  intros Hb Hi Hs Hfit Hl Hlen HQ. unfold fat_read_sector.
  destruct (Z.ltb_spec (bytes_per_sector fs) 512); [lia|]. change (2 ^ 32) with 4294967296 in Hfit.
  assert (0 <= sector * bytes_per_sector fs) by (apply Z.mul_nonneg_nonneg; lia).
  rewrite (u32_small (sector * _)) by lia. rewrite u32_small by lia. rewrite s32_small by lia.
  replace (Z.to_nat (bytes_per_sector fs)) with (length l) by lia. wp_simpl. unfold on_ram. wp_simpl.
  eapply wp_intro; [by apply read_bytes_eq|]. wp_simpl. by destruct s.
Qed.

(** A sector of the allocation table. *)
Lemma wp_read_fat_sector fs tbl k s (Q : Z * list Z -> fat_st H -> Prop) :
  volume_ok (ram s) fs tbl -> 0 <= k < sectors_per_fat fs ->
  Q (bytes_per_sector fs, take (Z.to_nat (bytes_per_sector fs)) (drop (Z.to_nat (k * bytes_per_sector fs)) tbl)) s ->
  wp (fat_read_sector fs (u32 (reserved_sector fs + k))) Q s.
Proof.
  intros [Hb _ _ Hi Hr _ Hspf Ht _ Hlen Hfit _] Hk HQ. change (2 ^ 32) with 4294967296 in Hfit.
  set (bps := bytes_per_sector fs) in *. set (r := reserved_sector fs) in *.
  assert (Hkb : (k + 1) * bps <= sectors_per_fat fs * bps) by (apply Z.mul_le_mono_nonneg_r; lia).
  assert (0 <= r * bps) by (apply Z.mul_nonneg_nonneg; lia).
  assert (0 <= k * bps) by (apply Z.mul_nonneg_nonneg; lia).
  assert (Hm : (r + k) * bps = r * bps + k * bps) by lia.
  assert (r + k <= (r + k) * bps) by nia.
  rewrite u32_small by lia. eapply wp_fat_read_sector; [done|done|lia| | | |exact HQ]; fold bps.
  - change (2 ^ 32) with 4294967296. lia.
  - rewrite Hm. replace (fimage fs + (r * bps + k * bps)) with (fimage fs + r * bps + Z.of_nat (Z.to_nat (k * bps))) by lia.
    apply bytes_slice; [lia|done].
  - rewrite length_take, length_drop. lia.
Qed.

(** [n] is an entry of the table. *)
Definition in_table (fs : fatfs_priv) (tbl : list Z) (n : Z) : Prop :=
  0 <= n /\ fat_width (opvector fs) * (n + 1) <= 8 * Z.of_nat (length tbl).

Lemma wp_next32 fs tbl n s (Q : option Z -> fat_st H -> Prop) :
  opvector fs = fat32fs_opvector -> volume_ok (ram s) fs tbl -> in_table fs tbl n -> heap_ok (heap s) ->
  (forall h, heap_ok h -> Q (Some (fat_value (opvector fs) tbl n)) (set_heap h s)) ->
  wp (fat_next_cluster32 fs n) Q s.
Proof.
  intros Ev Hv [Hn Hin] Hh HQ. rewrite Ev in *. cbn [fat_width] in Hin. pose proof Hv as [Hb [q Hq] _ _ _ _ _ _ Htb Hlen _ Hbits].
  change (2 ^ 32) with 4294967296 in Hbits. unfold fat_next_cluster32. set (bps := bytes_per_sector fs) in *.
  destruct (Z.eqb_spec bps 0); [lia|]. rewrite (u32_small (n * 4)) by lia. set (k := n * 4 / bps).
  pose proof (Z.div_mod (n * 4) bps ltac:(lia)) as Hd. pose proof (Z.mod_pos_bound (n * 4) bps ltac:(lia)) as Hmod.
  fold k in Hd. assert (Hk : 0 <= k < sectors_per_fat fs).
  { split; [apply Z.div_pos; lia|]. apply Z.div_lt_upper_bound; lia. }
  assert (Hj : exists j, n * 4 - bps * k = 4 * j /\ 0 <= j /\ 4 * j + 4 <= bps).
  { exists (n - q * k). rewrite Hq in *. split; [lia|]. nia. }
  destruct Hj as (j & Hj & Hj0 & Hj4).
  wp_simpl. apply wp_kmalloc; [done|]. intros p h Hp Hh'. destruct (Z.eqb_spec p NULL); [done|]. wp_simpl.
  eapply (wp_read_fat_sector fs tbl k); [exact Hv|done|]. fold bps. destruct (Z.eqb_spec bps (-1)); [lia|].
  wp_simpl. apply wp_kfree; [done|]. intros h2 Hh2. wp_simpl. rewrite Hj, u32_small by lia.
  rewrite Z.shiftr_div_pow2 by lia. change (2 ^ 2) with 4.
  replace (4 * j / 4) with j by (rewrite Z.mul_comm, Z.div_mul; lia).
  rewrite le32_window by lia. replace (Z.to_nat (k * bps) + Z.to_nat (4 * j))%nat with (Z.to_nat (4 * n)) by lia.
  rewrite <- fat_value_32 by done. by apply HQ.
Qed.

Lemma wp_next16 fs tbl n s (Q : option Z -> fat_st H -> Prop) :
  opvector fs = fat16fs_opvector -> volume_ok (ram s) fs tbl -> in_table fs tbl n -> heap_ok (heap s) ->
  (forall h, heap_ok h -> Q (Some (fat_value (opvector fs) tbl n)) (set_heap h s)) ->
  wp (fat_next_cluster16 fs n) Q s.
Proof.
  intros Ev Hv [Hn Hin] Hh HQ. rewrite Ev in *. cbn [fat_width] in Hin. pose proof Hv as [Hb [q Hq] _ _ _ _ _ _ Htb Hlen _ Hbits].
  change (2 ^ 32) with 4294967296 in Hbits. unfold fat_next_cluster16. set (bps := bytes_per_sector fs) in *.
  destruct (Z.eqb_spec bps 0); [lia|]. rewrite (u32_small (n * 2)) by lia. set (k := n * 2 / bps).
  pose proof (Z.div_mod (n * 2) bps ltac:(lia)) as Hd. pose proof (Z.mod_pos_bound (n * 2) bps ltac:(lia)) as Hmod.
  fold k in Hd. assert (Hk : 0 <= k < sectors_per_fat fs).
  { split; [apply Z.div_pos; lia|]. apply Z.div_lt_upper_bound; lia. }
  assert (Hj : exists j, n * 2 - bps * k = 2 * j /\ 0 <= j /\ 2 * j + 2 <= bps).
  { exists (n - 2 * q * k). rewrite Hq in *. split; [lia|]. nia. }
  destruct Hj as (j & Hj & Hj0 & Hj4).
  wp_simpl. apply wp_kmalloc; [done|]. intros p h Hp Hh'. destruct (Z.eqb_spec p NULL); [done|]. wp_simpl.
  eapply (wp_read_fat_sector fs tbl k); [exact Hv|done|]. fold bps. destruct (Z.eqb_spec bps (-1)); [lia|].
  wp_simpl. apply wp_kfree; [done|]. intros h2 Hh2. wp_simpl. rewrite Hj, u32_small by lia.
  rewrite Z.shiftr_div_pow2 by lia. change (2 ^ 1) with 2.
  replace (2 * j / 2) with j by (rewrite Z.mul_comm, Z.div_mul; lia).
  rewrite le16_app_window by lia. replace (Z.to_nat (k * bps) + Z.to_nat (2 * j))%nat with (Z.to_nat (2 * n)) by lia.
  rewrite <- fat_value_16 by done. by apply HQ.
Qed.

Lemma wp_next12 fs tbl n s (Q : option Z -> fat_st H -> Prop) :
  opvector fs = fat12fs_opvector -> volume_ok (ram s) fs tbl -> in_table fs tbl n -> heap_ok (heap s) ->
  (forall h, heap_ok h -> Q (Some (fat_value (opvector fs) tbl n)) (set_heap h s)) ->
  wp (fat_next_cluster12 fs n) Q s.
Proof.
  intros Ev Hv [Hn Hin] Hh HQ. rewrite Ev in *. cbn [fat_width] in Hin. pose proof Hv as [Hb _ _ _ _ _ _ _ Htb Hlen _ Hbits].
  change (2 ^ 32) with 4294967296 in Hbits. unfold fat_next_cluster12. set (bps := bytes_per_sector fs) in *.
  rewrite (u32_small (bps * 8)) by lia. destruct (Z.eqb_spec (bps * 8) 0); [lia|].
  rewrite (u32_small (n * 12)) by lia. set (k := n * 12 / (bps * 8)).
  pose proof (Z.div_mod (n * 12) (bps * 8) ltac:(lia)) as Hd.
  pose proof (Z.mod_pos_bound (n * 12) (bps * 8) ltac:(lia)) as Hmod. fold k in Hd.
  assert (Hk : 0 <= k < sectors_per_fat fs).
  { split; [apply Z.div_pos; lia|]. apply Z.div_lt_upper_bound; lia. }
  assert (Hkk : 0 <= bps * 8 * k <= n * 12) by (split; [apply Z.mul_nonneg_nonneg; lia|lia]).
  rewrite (u32_small (bps * 8 * k)) by lia. rewrite (u32_small (n * 12 - bps * 8 * k)) by lia.
  set (r := n * 12 - bps * 8 * k) in *. assert (Hr : 0 <= r < bps * 8) by lia. set (j := r / 8).
  assert (Hj : 0 <= j < bps) by (split; [apply Z.div_pos; lia|apply Z.div_lt_upper_bound; lia]).
  assert (Hjn : 12 * n / 8 = k * bps + j).
  { replace (12 * n) with (r + k * bps * 8) by lia. rewrite Z.div_add by lia. lia. }
  assert (Hl7 : Z.land r 7 = Z.land (12 * n) 7).
  { change 7 with (Z.ones 3). rewrite !Z.land_ones by lia. replace (12 * n) with (r + k * bps * 2 ^ 3) by lia.
    by rewrite Z.mod_add by lia. }
  rewrite (u32_small (j + 1)) by lia.
  wp_simpl. apply wp_kmalloc; [done|]. intros p h Hp Hh'. destruct (Z.eqb_spec p NULL); [done|]. wp_simpl.
  eapply (wp_read_fat_sector fs tbl k); [exact Hv|done|]. fold bps. destruct (Z.eqb_spec bps (-1)); [lia|].
  assert (Hfin : forall buf, le16 buf (Z.to_nat j) = le16 tbl (Z.to_nat (12 * n / 8)) ->
    wp (on_heap (kfree p) ;;; ret (Some (if negb (Z.land r 7 =? 0) then Z.shiftr (le16 buf (Z.to_nat j)) 4
          else Z.land (le16 buf (Z.to_nat j)) 0xFFF))) Q (set_heap h s)).
  { intros buf E. wp_simpl. apply wp_kfree; [done|]. intros h2 Hh2. wp_simpl. rewrite E, Hl7.
    pose proof (fat_value_12 tbl n Htb Hn) as Hval. cbn zeta in Hval. rewrite <- Hval. by apply HQ. }
  rewrite wp_bind. destruct (Z.eqb_spec (j + 1) bps) as [Ecross|Hno].
  - assert (Hk1 : 0 <= k + 1 < sectors_per_fat fs).
    { split; [lia|]. destruct (Z.lt_ge_cases (k + 1) (sectors_per_fat fs)) as [|Hge]; [done|exfalso].
      pose proof (Z.mul_div_le r 8 ltac:(lia)) as Hr8. fold j in Hr8.
      assert (sectors_per_fat fs * bps <= (k + 1) * bps) by (apply Z.mul_le_mono_nonneg_r; lia). lia. }
    rewrite <- Z.add_assoc. eapply (wp_read_fat_sector fs tbl (k + 1)); [exact Hv|done|]. fold bps.
    destruct (Z.eqb_spec bps (-1)); [lia|]. apply Hfin. rewrite Hjn.
    replace (Z.to_nat ((k + 1) * bps)) with (Z.to_nat bps + Z.to_nat (k * bps))%nat
      by (assert (0 <= k * bps) by (apply Z.mul_nonneg_nonneg; lia); lia).
    rewrite Nat.add_comm, <- drop_drop. set (t := drop (Z.to_nat (k * bps)) tbl).
    rewrite take_take_drop. unfold t. rewrite le16_app_window by lia.
    f_equal. assert (0 <= k * bps) by (apply Z.mul_nonneg_nonneg; lia). lia.
  - wp_simpl. cbn [Z.eqb]. apply Hfin. rewrite app_nil_r, Hjn, le16_app_window by lia.
    f_equal. assert (0 <= k * bps) by (apply Z.mul_nonneg_nonneg; lia). lia.
Qed.

(** Following a chain: one entry of the table. *)
Lemma wp_fat_next_cluster fs tbl n s (Q : option Z -> fat_st H -> Prop) :
  volume_ok (ram s) fs tbl -> in_table fs tbl n -> heap_ok (heap s) ->
  (forall h, heap_ok h -> Q (Some (fat_value (opvector fs) tbl n)) (set_heap h s)) ->
  wp (fat_next_cluster (opvector fs) fs n) Q s.
Proof.
  intros. destruct (opvector fs) eqn:E; cbn [fat_next_cluster];
    [eapply wp_next12|eapply wp_next16|eapply wp_next32]; try done; by rewrite E.
Qed.
Lemma wp_read_sectors fs n : forall sector data s (Q : Z * list Z -> fat_st H -> Prop),
  512 <= bytes_per_sector fs < 65536 -> 0 <= fimage fs -> 0 <= sector ->
  Z.of_nat (length data) = Z.of_nat n * bytes_per_sector fs ->
  fimage fs + (sector + Z.of_nat n) * bytes_per_sector fs < 2 ^ 32 ->
  bytes (ram s) (fimage fs + sector * bytes_per_sector fs) data ->
  Q (0, data) s -> wp (read_sectors fs n sector) Q s.
Proof.
  induction n as [|n IH]; intros sector data s Q Hb Hi Hs Hlen Hfit Hd HQ; cbn [read_sectors].
  - destruct data; [|cbn in Hlen; lia]. by wp_simpl.
  - set (bps := bytes_per_sector fs) in *.
    assert (Hsb : (sector + 1) * bps <= (sector + Z.of_nat (S n)) * bps) by (apply Z.mul_le_mono_nonneg_r; lia).
    assert (sector + 1 <= (sector + 1) * bps) by nia. change (2 ^ 32) with 4294967296 in *.
    wp_simpl. eapply (wp_fat_read_sector fs sector (take (Z.to_nat bps) data)); [done|done|done| | | |].
    + fold bps. change (2 ^ 32) with 4294967296. lia.
    + fold bps. rewrite <- (take_drop (Z.to_nat bps) data) in Hd. by apply bytes_app in Hd as [Hd _].
    + fold bps. rewrite length_take. lia.
    + fold bps. destruct (Z.eqb_spec bps (-1)); [lia|]. wp_simpl. rewrite u32_small by lia.
      apply (IH (sector + 1) (drop (Z.to_nat bps) data)); try done; fold bps.
      * lia.
      * rewrite length_drop. lia.
      * lia.
      * rewrite <- (take_drop (Z.to_nat bps) data) in Hd. apply bytes_app in Hd as [_ Hd].
        rewrite length_take_le in Hd by lia.
        by replace (fimage fs + (sector + 1) * bps) with (fimage fs + sector * bps + Z.of_nat (Z.to_nat bps)) by lia.
      * wp_simpl. by rewrite take_drop.
Qed.

Lemma wp_fat_read_cluster fs tbl c data s (Q : Z * list Z -> fat_st H -> Prop) :
  volume_ok (ram s) fs tbl -> cluster_at (ram s) fs c data -> Q (0, data) s ->
  wp (fat_read_cluster fs c) Q s.
Proof.
  intros [Hb _ Hspc Hi _ Hfirst _ _ _ _ _ _] [Hc Hlen Hd Hfit] HQ. unfold fat_read_cluster.
  unfold cluster_bytes in Hlen. set (bps := bytes_per_sector fs) in *. set (spc := sectors_per_cluster fs) in *.
  set (first := first_cluster_sector fs) in *. change (2 ^ 32) with 4294967296 in Hfit.
  assert (0 <= (c - 2) * spc) by (apply Z.mul_nonneg_nonneg; lia).
  assert (Hm : (c - 1) * spc = (c - 2) * spc + spc) by lia.
  assert (first + (c - 1) * spc <= (first + (c - 1) * spc) * bps) by nia.
  rewrite (u32_small ((c - 2) * spc)) by lia. rewrite u32_small by lia. rewrite s32_small by lia.
  destruct (Z.eqb_spec spc 0); [lia|]. eapply (wp_read_sectors fs _ _ data); try done; fold bps.
  - lia.
  - lia.
  - change (2 ^ 32) with 4294967296. replace (first + (c - 2) * spc + Z.of_nat (Z.to_nat spc)) with (first + (c - 1) * spc) by lia. lia.
Qed.

End FatSpec.

(** ** The contents of a file *)

(** The clusters of a file in order, with their contents, linked by the table. *)
Record file_at (m : mem) (fs : fatfs_priv) (tbl : list Z) (chain : list Z) (datas : list (list Z)) : Prop := {
  f_volume : volume_ok m fs tbl;
  f_clusters : Forall2 (cluster_at m fs) chain datas;
  f_links : forall i c c', chain !! i = Some c -> chain !! S i = Some c' ->
    in_table fs tbl c /\ fat_value (opvector fs) tbl c = c' /\ c' < fat_max_cluster (opvector fs)
}.

(** The bytes [buf, buf + n) are not part of the table and of the clusters. *)
Definition apart_image (fs : fatfs_priv) (tbl chain : list Z) (buf n : Z) : Prop :=
  (let t := fimage fs + reserved_sector fs * bytes_per_sector fs in buf + n <= t \/ t + Z.of_nat (length tbl) <= buf) /\
  Forall (fun c =>
    let t := fimage fs + (first_cluster_sector fs + (c - 2) * sectors_per_cluster fs) * bytes_per_sector fs in
    buf + n <= t \/ t + cluster_bytes fs <= buf) chain.

(** Writing there changes no file. *)
Lemma file_at_ext m m' fs tbl chain datas buf n :
  apart_image fs tbl chain buf n -> (forall b, ~ (buf <= b < buf + n) -> m' !! b = m !! b) ->
  file_at m fs tbl chain datas -> file_at m' fs tbl chain datas.
Proof.
  intros [Ht Hc] Hm [[V1 V2 V3 V4 V5 V6 V7 V8 V9 V10 V11 V12] Hcl Hl]. split; [split; try done| |done].
  - eapply bytes_ext; [|exact V8]. intros b Hb. apply Hm. cbv zeta in Ht. lia.
  - clear -Hc Hm Hcl. induction Hcl as [|c data chain datas [C1 C2 C3 C4] Hcl IH]; [constructor|].
    apply Forall_cons in Hc as [Hc Hcs]. constructor; [|by apply IH]. split; try done.
    eapply bytes_ext; [|exact C3]. intros b Hb. apply Hm. cbv zeta in Hc. lia.
Qed.

Lemma concat_slice (b : nat) (datas : list (list Z)) k data co n :
  Forall (fun d => length d = b) datas -> datas !! k = Some data -> (co + n <= b)%nat ->
  take n (drop (k * b + co) (concat datas)) = take n (drop co data).
Proof.
  intros Hb. revert k. induction Hb as [|d datas Hd Hb IH]; intros k Hk Hn; [done|]. cbn [concat].
  destruct k as [|k]; cbn in Hk.
  - injection Hk as ->. cbn [Nat.mul Nat.add]. rewrite drop_app_le by lia.
    rewrite take_app_le by (rewrite length_drop; lia). done.
  - rewrite drop_app_ge by lia. rewrite <- (IH k Hk Hn). do 2 f_equal. lia.
Qed.

Lemma length_concat_const (b : nat) (datas : list (list Z)) :
  Forall (fun d => length d = b) datas -> length (concat datas) = (length datas * b)%nat.
Proof. induction 1 as [|d datas Hd _ IH]; cbn; [done|]. rewrite length_app. lia. Qed.

Section Pread.
Context {H : Type} `{HA : Allocator H} `{HS : !AllocatorSpec H}.
Context (m : mem) (fs : fatfs_priv) (tbl chain : list Z) (datas : list (list Z)).
Context (Hfile : file_at m fs tbl chain datas).
Context (P : gmap Z fatfs_priv) (D : gmap Z fatfs_dirent) (fsp file : Z) (d : fatfs_dirent).
Context (Hfsp : fsp <> 0) (HP : P !! fsp = Some fs).
Context (Hfile0 : file <> 0) (Hdfs : d_fs d = fsp) (Hentry : chain !! 0%nat = Some (d_entry d)).
Implicit Types (s : fat_st H).

Notation bpc := (cluster_bytes fs).
Notation content := (concat datas).

(** The state during the reads: the image, the volumes and the other entries as
    they were, the cursor of the file at cluster number [k] of the chain. *)
Definition at_cluster (k : nat) (s : fat_st H) : Prop :=
  heap_ok (heap s) /\ ram s = m /\ privs s = P /\
  exists c, chain !! k = Some c /\ dents s = <[file := set_cursor c (Z.of_nat k * bpc) d]> D.

Lemma bpc_range : 0 < bpc < 16777216.
Proof.
  destruct Hfile as [[Hb _ Hspc _ _ _ _ _ _ _ _ _] _ _]. unfold cluster_bytes. nia.
Qed.

Lemma data_lengths : Forall (fun l => length l = Z.to_nat bpc) datas.
Proof.
  apply Forall_lookup. intros i l Hi. destruct Hfile as [_ Hc _].
  destruct (Forall2_lookup_r _ _ _ _ _ Hc Hi) as (c & _ & [_ Hl _ _]). lia.
Qed.

Lemma chain_length : length chain = length datas.
Proof. destruct Hfile as [_ Hc _]. by eapply Forall2_length. Qed.

Lemma content_length : Z.of_nat (length content) = Z.of_nat (length chain) * bpc.
Proof. rewrite (length_concat_const (Z.to_nat bpc)) by apply data_lengths. rewrite chain_length. pose proof bpc_range. lia. Qed.

Lemma wp_rd_file k s (Q : fatfs_dirent -> fat_st H -> Prop) :
  at_cluster k s -> (forall c, chain !! k = Some c -> Q (set_cursor c (Z.of_nat k * bpc) d) s) ->
  wp (rd_dirent file) Q s.
Proof.
  intros (_ & _ & _ & c & Hc & Hd) HQ. unfold rd_dirent. wp_simpl. rewrite Hd, lookup_insert_eq. wp_simpl. by apply HQ.
Qed.

Lemma at_cluster_heap k s h : at_cluster k s -> heap_ok h -> at_cluster k (set_heap h s).
Proof. intros (_ & ? & ? & ?) Hh. by split. Qed.

Lemma wp_wr_cursor k k' c s (Q : unit -> fat_st H -> Prop) f :
  at_cluster k s -> chain !! k' = Some c ->
  (forall c0, f (set_cursor c0 (Z.of_nat k * bpc) d) = set_cursor c (Z.of_nat k' * bpc) d) ->
  (forall s', at_cluster k' s' -> Q tt s') -> wp (wr_dirent file f) Q s.
Proof.
  intros Ha Hc Hf HQ. unfold wr_dirent. wp_simpl. eapply wp_rd_file; [exact Ha|]. intros c0 Hc0. wp_simpl.
  apply HQ. destruct Ha as (Hh & Hr & Hp & c1 & Hc1 & Hd). split_and!; try done. exists c. split; [done|].
  cbn. by rewrite Hd, insert_insert_eq, Hf.
Qed.

(** Following the chain for [n] clusters. *)
Lemma wp_pread_seek n : forall fuel k s (Q : option Z -> fat_st H -> Prop),
  at_cluster k s -> (k + n < length chain)%nat -> (n < fuel)%nat -> Z.of_nat (length chain) * bpc < 4294967296 ->
  (forall s', at_cluster (k + n) s' -> Q None s') ->
  wp (pread_seek fuel file fs bpc (Z.of_nat n)) Q s.
Proof.
  unfold pread_seek. induction n as [|n IH]; intros fuel k s Q Ha Hk Hf Hfit HQ;
    (destruct fuel as [|fuel]; [lia|]); cbn [loop].
  - wp_simpl. cbn. wp_simpl. apply HQ. by rewrite Nat.add_0_r.
  - destruct (Z.ltb_spec 0 (Z.of_nat (S n))); [|lia]. wp_simpl. eapply wp_rd_file; [exact Ha|].
    intros c Hc. wp_simpl. cbn [d_cluster set_cursor].
    destruct (lookup_lt_is_Some_2 chain (S k) ltac:(lia)) as [c' Hc'].
    destruct (f_links _ _ _ _ _ Hfile k c c' Hc Hc') as (Hin & Hval & Hmax).
    destruct (Ha) as (Hh & Hr & _ & _). apply wp_fat_next_cluster with (tbl := tbl).
    + rewrite Hr. exact (f_volume _ _ _ _ _ Hfile).
    + done.
    + done.
    + intros h Hh'. rewrite Hval. destruct (Z.leb_spec (fat_max_cluster (opvector fs)) c'); [lia|]. wp_simpl.
      pose proof bpc_range as Hbr.
      assert (Z.of_nat (S k) * bpc <= Z.of_nat (length chain) * bpc) by (apply Z.mul_le_mono_nonneg_r; lia).
      assert (0 <= Z.of_nat k * bpc) by (apply Z.mul_nonneg_nonneg; lia).
      eapply (wp_wr_cursor k (S k) c'); [by apply at_cluster_heap|done| |].
      * intros c0. unfold set_cursor at 1. cbn [d_offset set_cursor d_fs d_lseek d_length d_entry d_flag].
        unfold set_cursor. f_equal. rewrite u32_small; lia.
      * intros s' Ha'. wp_simpl. replace (Z.of_nat (S n) - 1) with (Z.of_nat n) by lia.
        apply (IH fuel (S k)); [done|lia|lia|done|]. intros s2 Ha2. apply HQ. by rewrite Nat.add_succ_r.
Qed.

(** The bytes [off, off + n) of the file. *)
Definition slice (off n : Z) : list Z := take (Z.to_nat n) (drop (Z.to_nat off) content).

Lemma slice_app off a b : 0 <= off -> 0 <= a -> 0 <= b -> slice off a ++ slice (off + a) b = slice off (a + b).
Proof.
  intros Ho Ha Hb. unfold slice. replace (Z.to_nat (off + a)) with (Z.to_nat off + Z.to_nat a)%nat by lia.
  rewrite <- drop_drop, take_take_drop. f_equal. lia.
Qed.

(** One cluster of the file. *)
Lemma wp_read_at k s (Q : Z * list Z -> fat_st H -> Prop) c :
  at_cluster k s -> chain !! k = Some c ->
  (forall data, datas !! k = Some data -> Q (0, data) s) -> wp (fat_read_cluster fs c) Q s.
Proof.
  intros Ha Hc HQ. destruct Ha as (_ & Hr & _). destruct Hfile as [Hv Hcl _].
  destruct (Forall2_lookup_l _ _ _ _ _ Hcl Hc) as (data & Hd & Hat).
  eapply wp_fat_read_cluster; [by rewrite Hr|rewrite Hr; exact Hat|by apply HQ].
Qed.

(** The piece that lies in the cluster of [off]. *)
Lemma chunk_slice off n data :
  0 <= off -> 0 <= n -> off mod bpc + n <= bpc -> datas !! Z.to_nat (off / bpc) = Some data ->
  take (Z.to_nat n) (drop (Z.to_nat (off mod bpc)) data) = slice off n.
Proof.
  intros Ho Hn Hfit Hd. pose proof bpc_range as Hb. unfold slice.
  pose proof (Z.div_mod off bpc ltac:(lia)) as Hdm. pose proof (Z.mod_pos_bound off bpc ltac:(lia)) as Hm.
  assert (0 <= off / bpc) by (apply Z.div_pos; lia).
  rewrite <- (concat_slice (Z.to_nat bpc) datas (Z.to_nat (off / bpc)) data (Z.to_nat (off mod bpc)) (Z.to_nat n));
    [|apply data_lengths|done|lia].
  do 2 f_equal. lia.
Qed.

(** A directory has no length: an entry of 32 bytes that lies in one cluster of
    it is read in one piece. *)
Lemma wp_dir_pread_from call fuel k s buf off (Q : Z * list Z -> fat_st H -> Prop) :
  at_cluster k s -> Z.of_nat k * bpc <= off -> 0 <= off -> (32 | bpc) -> (32 | off) ->
  off + 32 <= Z.of_nat (length chain) * bpc -> Z.of_nat (length chain) * bpc < 4294967296 ->
  (forall k' s', at_cluster k' s' -> Q (32, slice off 32) s') ->
  wp (pread_from call (S fuel) file buf 32 off) Q s.
Proof.
  intros Ha Hk Hoff [a Ea] [b Eb] Hend Hfit HQ. pose proof bpc_range as Hb.
  pose proof (Z.div_mod off bpc ltac:(lia)) as Hdm. pose proof (Z.mod_pos_bound off bpc ltac:(lia)) as Hm.
  assert (Hq0 : 0 <= off / bpc) by (apply Z.div_pos; lia).
  assert (Hq : off / bpc < Z.of_nat (length chain)) by (apply Z.div_lt_upper_bound; lia).
  assert (Hpiece : off mod bpc + 32 <= bpc).
  { assert (off mod bpc = 32 * (b - a * (off / bpc))) by lia. lia. }
  assert (0 <= Z.of_nat k * bpc) by (apply Z.mul_nonneg_nonneg; lia).
  unfold pread_from. wp_simpl. eapply wp_rd_file; [exact Ha|]. intros c Hc. cbn [d_fs d_offset set_cursor].
  rewrite Hdfs. unfold NULL. destruct (Z.eqb_spec fsp 0); [done|]. wp_simpl. unfold rd_priv. wp_simpl.
  destruct (Ha) as (_ & _ & Hp & _). rewrite Hp, HP. wp_simpl. fold (cluster_bytes fs).
  rewrite (u32_small bpc) by lia. destruct (Z.eqb_spec bpc 0); [lia|].
  rewrite (u32_small (off - Z.of_nat k * bpc)) by lia.
  replace ((off - Z.of_nat k * bpc) / bpc) with (off / bpc - Z.of_nat k)
    by (replace (off - Z.of_nat k * bpc) with (off + (- Z.of_nat k) * bpc) by lia; rewrite Z.div_add by lia; lia).
  assert (Hkq : Z.of_nat k <= off / bpc) by (apply Z.div_le_lower_bound; lia).
  wp_simpl. replace (off / bpc - Z.of_nat k) with (Z.of_nat (Z.to_nat (off / bpc) - k)) by lia.
  apply (wp_pread_seek _ _ k); [exact Ha|lia|lia|done|].
  replace (k + (Z.to_nat (off / bpc) - k))%nat with (Z.to_nat (off / bpc)) by lia. intros s1 Ha1. wp_simpl.
  apply wp_kmalloc; [apply Ha1|]. intros p h Hp0 Hh. destruct (Z.eqb_spec p 0); [done|]. wp_simpl.
  pose proof (at_cluster_heap _ _ h Ha1 Hh) as Ha2. eapply wp_rd_file; [exact Ha2|]. intros c2 Hc2. wp_simpl.
  cbn [d_cluster d_offset set_cursor]. eapply wp_read_at; [exact Ha2|exact Hc2|]. intros data Hdata.
  cbn [negb Z.eqb]. wp_simpl. apply wp_kfree; [apply Ha2|]. intros h2 Hh2.
  replace (off - Z.of_nat (Z.to_nat (off / bpc)) * bpc) with (off mod bpc) by lia.
  rewrite (u32_small (off mod bpc)) by lia. rewrite (u32_small (off mod bpc + 32)) by lia.
  rewrite (u32_small (bpc - off mod bpc)) by lia.
  replace (if off mod bpc + 32 <? bpc then 32 else bpc - off mod bpc) with 32
    by (destruct (Z.ltb_spec (off mod bpc + 32) bpc); lia).
  rewrite (chunk_slice off 32 data) by (done || lia). cbn [loop]. wp_simpl.
  eapply wp_rd_file; [by apply at_cluster_heap|]. intros c3 Hc3. change (0 <? u32 (32 - 32)) with false.
  rewrite andb_false_r. wp_simpl. change (s32 32) with 32. by eapply HQ, at_cluster_heap.
Qed.

Lemma wp_dir_pread k s buf off (Q : Z * list Z -> fat_st H -> Prop) :
  IS_DIR (d_flag d) = true -> 0 < buf ->
  at_cluster k s -> 0 <= off -> (32 | bpc) -> (32 | off) ->
  off + 32 <= Z.of_nat (length chain) * bpc -> Z.of_nat (length chain) * bpc < 4294967296 ->
  (forall k' s', at_cluster k' s' -> Q (32, slice off 32) s') ->
  wp (pread file buf 32 off) Q s.
Proof.
  intros Hdir Hbuf Ha Hoff Hb32 H32 Hend Hfit HQ. unfold pread. cbn [fatfs_pread].
  unfold NULL. destruct (Z.eqb_spec file 0) as [|_]; [done|]. destruct (Z.eqb_spec buf 0) as [|_]; [lia|].
  wp_simpl. eapply wp_rd_file; [exact Ha|]. intros c Hc. cbn [d_flag d_length d_offset set_cursor].
  rewrite Hdir. cbn [negb andb Z.eqb]. wp_simpl. destruct (Z.ltb_spec off (Z.of_nat k * bpc)).
  - eapply (wp_wr_cursor k 0 (d_entry d)); [exact Ha|exact Hentry|done|]. intros s' Ha'.
    eapply (wp_dir_pread_from _ _ 0%nat); [exact Ha'|lia|done..].
  - wp_simpl. eapply (wp_dir_pread_from _ _ k); [exact Ha|done..].
Qed.

(** A file has a length, within its clusters. *)
Context (Hflag : IS_DIR (d_flag d) = false).
Context (Hlen : 0 <= d_length d <= Z.of_nat (length (concat datas))) (Hlen31 : d_length d < 2147483648).

(** What a call must do when [n] bytes are there to read. *)
Definition reads (call : M (fat_st H) (Z * list Z)) (off n : Z) : Prop :=
  forall k s (Q : Z * list Z -> fat_st H -> Prop), at_cluster k s ->
    (forall k' s', at_cluster k' s' -> Q (n, slice off n) s') -> wp call Q s.

(** The rest of the file, after a first piece of [cp] bytes. *)
Lemma wp_pread_rest (call : Z -> Z -> Z -> M (fat_st H) (Z * list Z)) fuel k s buf cp off rest
    (Q : Z * list Z -> fat_st H -> Prop) :
  at_cluster k s -> 0 < cp -> 0 <= off -> 0 <= rest -> off + cp + rest <= d_length d ->
  0 < buf -> buf + cp + rest < 4294967296 -> (2 <= fuel)%nat ->
  (0 < rest -> reads (call (buf + cp) rest (off + cp)) (off + cp) rest) ->
  (forall k' s', at_cluster k' s' -> Q (cp + rest, slice off (cp + rest)) s') ->
  wp (loop fuel (fun '(cpcnt, off, count, acc) =>
        f <- rd_dirent file ;;
        if (off <? d_length f) && (0 <? count) then
          ' (hr, l) <- call (u32 (buf + cpcnt)) count off ;;
          if hr =? -1 then ret (inr (-1, acc ++ l))
          else if hr =? 0 then ret (inr (s32 cpcnt, acc ++ l))
          else ret (inl (u32 (cpcnt + hr), u32 (off + hr), u32 (count - hr), acc ++ l))
        else ret (inr (s32 cpcnt, acc))) (cp, off + cp, rest, slice off cp)) Q s.
Proof.
  intros Ha Hcp Hoff Hrest Hle Hbuf Hbuf2 Hfuel Hrec HQ.
  destruct fuel as [|[|fuel]]; [lia|lia|]. cbn [loop]. wp_simpl. eapply wp_rd_file; [exact Ha|].
  intros c Hc. cbn [d_length set_cursor]. destruct (Z.ltb_spec 0 rest) as [Hr|Hr].
  - destruct (Z.ltb_spec (off + cp) (d_length d)); [|lia]. cbn [andb]. wp_simpl.
    rewrite (u32_small (buf + cp)) by lia. eapply (Hrec Hr); [exact Ha|]. intros k' s' Ha'.
    destruct (Z.eqb_spec rest (-1)); [lia|]. destruct (Z.eqb_spec rest 0); [lia|]. wp_simpl.
    rewrite Z.sub_diag, (u32_small (cp + rest)), (u32_small (off + cp + rest)) by lia. change (u32 0) with 0.
    eapply wp_rd_file; [exact Ha'|]. intros c' Hc'. rewrite Z.ltb_irrefl, andb_false_r. wp_simpl.
    rewrite s32_small by lia. rewrite slice_app by lia. by eapply HQ.
  - assert (rest = 0) as -> by lia. rewrite andb_false_r. wp_simpl. rewrite s32_small by lia.
    rewrite Z.add_0_r in HQ. by eapply HQ.
Qed.

Lemma wp_pread_from call fuel k s buf n off (Q : Z * list Z -> fat_st H -> Prop) :
  at_cluster k s -> Z.of_nat k * bpc <= off -> 0 <= off -> 0 < n -> off + n <= d_length d ->
  0 < buf -> buf + n < 4294967296 -> Z.of_nat (length chain) * bpc < 4294967296 -> (2 <= fuel)%nat ->
  (forall cp, 0 < cp < n -> reads (call (buf + cp) (n - cp) (off + cp)) (off + cp) (n - cp)) ->
  (forall k' s', at_cluster k' s' -> Q (n, slice off n) s') ->
  wp (pread_from call fuel file buf n off) Q s.
Proof.
  intros Ha Hk Hoff Hn Hend Hbuf Hbuf2 Hfit Hfuel Hrec HQ. pose proof bpc_range as Hb.
  pose proof (Z.div_mod off bpc ltac:(lia)) as Hdm. pose proof (Z.mod_pos_bound off bpc ltac:(lia)) as Hm.
  pose proof content_length as Hcl.
  assert (Hq0 : 0 <= off / bpc) by (apply Z.div_pos; lia).
  assert (Hq : off / bpc < Z.of_nat (length chain)) by (apply Z.div_lt_upper_bound; lia).
  assert (0 <= Z.of_nat k * bpc) by (apply Z.mul_nonneg_nonneg; lia).
  unfold pread_from. wp_simpl. eapply wp_rd_file; [exact Ha|]. intros c Hc. cbn [d_fs d_offset set_cursor].
  rewrite Hdfs. unfold NULL. destruct (Z.eqb_spec fsp 0); [done|]. wp_simpl. unfold rd_priv. wp_simpl.
  destruct (Ha) as (_ & _ & Hp & _). rewrite Hp, HP. wp_simpl. fold (cluster_bytes fs).
  rewrite (u32_small bpc) by lia. destruct (Z.eqb_spec bpc 0); [lia|].
  rewrite (u32_small (off - Z.of_nat k * bpc)) by lia.
  replace ((off - Z.of_nat k * bpc) / bpc) with (off / bpc - Z.of_nat k)
    by (replace (off - Z.of_nat k * bpc) with (off + (- Z.of_nat k) * bpc) by lia; rewrite Z.div_add by lia; lia).
  assert (Hkq : Z.of_nat k <= off / bpc) by (apply Z.div_le_lower_bound; lia).
  wp_simpl. replace (off / bpc - Z.of_nat k) with (Z.of_nat (Z.to_nat (off / bpc) - k)) by lia.
  apply (wp_pread_seek _ _ k); [exact Ha|lia|lia|done|].
  replace (k + (Z.to_nat (off / bpc) - k))%nat with (Z.to_nat (off / bpc)) by lia. intros s1 Ha1. wp_simpl.
  apply wp_kmalloc; [apply Ha1|]. intros p h Hp0 Hh. destruct (Z.eqb_spec p 0); [done|]. wp_simpl.
  pose proof (at_cluster_heap _ _ h Ha1 Hh) as Ha2. eapply wp_rd_file; [exact Ha2|]. intros c2 Hc2. wp_simpl.
  cbn [d_cluster d_offset set_cursor]. eapply wp_read_at; [exact Ha2|exact Hc2|]. intros data Hdata.
  cbn [negb Z.eqb]. wp_simpl. apply wp_kfree; [apply Ha2|]. intros h2 Hh2.
  replace (off - Z.of_nat (Z.to_nat (off / bpc)) * bpc) with (off mod bpc) by lia.
  rewrite (u32_small (off mod bpc)) by lia. rewrite (u32_small (off mod bpc + n)) by lia.
  rewrite (u32_small (bpc - off mod bpc)) by lia.
  set (cp := if off mod bpc + n <? bpc then n else bpc - off mod bpc).
  assert (Hcp : 0 < cp <= n /\ off mod bpc + cp <= bpc) by (unfold cp; destruct (Z.ltb_spec (off mod bpc + n) bpc); lia).
  rewrite (chunk_slice off cp data) by (done || lia). rewrite (u32_small (off + cp)), (u32_small (n - cp)) by lia.
  eapply wp_pread_rest; [by apply at_cluster_heap|lia|lia|lia|lia|lia|lia|lia| |].
  - intros Hr. apply Hrec. lia.
  - intros k' s' Ha'. replace (cp + (n - cp)) with n by lia. by eapply HQ.
Qed.

Lemma pread_reads fuel : forall buf count off,
  0 <= off <= d_length d -> 0 <= count -> off + count < 4294967296 ->
  0 < buf -> buf + count < 4294967296 -> Z.of_nat (length chain) * bpc < 4294967296 ->
  (Z.to_nat (Z.min count (d_length d - off)) + 2 <= fuel)%nat ->
  reads (fatfs_pread fuel file buf count off) off (Z.min count (d_length d - off)).
Proof.
  induction fuel as [|fuel IH]; intros buf count off Hoff Hcount Hsum Hbuf Hbuf2 Hfit Hfuel k s Q Ha HQ; [lia|].
  cbn [fatfs_pread]. unfold NULL. destruct (Z.eqb_spec file 0) as [|_]; [done|]. destruct (Z.eqb_spec buf 0) as [|_]; [lia|].
  wp_simpl. eapply wp_rd_file; [exact Ha|]. intros c Hc. cbn [d_flag d_length d_offset set_cursor].
  rewrite Hflag. cbn [negb andb]. destruct (Z.ltb_spec (d_length d) off); [lia|].
  rewrite (u32_small (off + count)) by lia.
  replace (if d_length d <? off + count then u32 (d_length d - off) else count) with (Z.min count (d_length d - off))
    by (destruct (Z.ltb_spec (d_length d) (off + count)); [rewrite u32_small by lia|]; lia).
  remember (Z.min count (d_length d - off)) as n eqn:Hn.
  destruct (Z.eqb_spec n 0) as [En|En].
  { wp_simpl. rewrite En in HQ. by eapply HQ. }
  assert (Hfrom : forall k0 s0, at_cluster k0 s0 -> Z.of_nat k0 * bpc <= off ->
    wp (pread_from (fatfs_pread fuel file) fuel file buf n off) Q s0).
  { intros k0 s0 Ha0 Hk0. eapply wp_pread_from; [exact Ha0|done|lia|lia|lia|done|lia|done|lia| |exact HQ].
    intros cp Hcp. replace (n - cp) with (Z.min (n - cp) (d_length d - (off + cp))) at 2 by lia.
    apply IH; lia. }
  wp_simpl. destruct (Z.ltb_spec off (Z.of_nat k * bpc)).
  - eapply (wp_wr_cursor k 0 (d_entry d)); [exact Ha|exact Hentry|done|]. intros s' Ha'. apply (Hfrom 0%nat s' Ha'). lia.
  - wp_simpl. apply (Hfrom k s Ha). lia.
Qed.

End Pread.

(** ** Directories *)

Section Dirs.
Context {H : Type} `{HA : Allocator H} `{HS : !AllocatorSpec H}.
Context (junk : Z) (stale : list Z) (fatfs_vops fatfs_dir_vops : Z).
Implicit Types (s : fat_st H).

(** An entry that is looked at, with the name [path]. *)
Definition named (path : list Z) (e : fat_entry) : Prop :=
  0 < dirent_trim (e_name e) 8 /\ dirent_name e = path.
#[global] Instance named_dec path e : Decision (named path e).
Proof. apply _. Defined.

Lemma dirent_lookup_find buf path n : forall j,
  fat_dirent_lookup buf j n path = snd <$> list_find (named path) (dirent_at buf <$> seq j n).
Proof.
  induction n as [|n IH]; intros j; [done|]. cbn [fat_dirent_lookup].
  change (dirent_at buf <$> seq j (S n)) with (dirent_at buf j :: (dirent_at buf <$> seq (S j) n)).
  set (e := dirent_at buf j). rewrite IH. cbn [list_find]. generalize (list_find (named path) (dirent_at buf <$> seq (S j) n)).
  intros o. destruct (Z.ltb_spec 0 (dirent_trim (e_name e) 8)); cbn [andb].
  - destruct (Z.eqb_spec (strcmp_l path (dirent_name e)) 0) as [E|E].
    + apply strcmp_l_zero in E. by rewrite decide_True by done.
    + rewrite decide_False; [by destruct o as [[]|]|]. intros [_ Hn]. apply E. rewrite Hn. apply strcmp_l_refl.
  - rewrite decide_False; [by destruct o as [[]|]|]. intros [Ht _]. lia.
Qed.

(** The entries of a directory, cluster after cluster. *)
Definition dir_entries (fs : fatfs_priv) (datas : list (list Z)) : list fat_entry :=
  datas ≫= fun data => dirent_at data <$> seq 0 (Z.to_nat (cluster_bytes fs / 32)).
Definition find_entry (fs : fatfs_priv) (datas : list (list Z)) (name : list Z) : option fat_entry :=
  snd <$> list_find (named name) (dir_entries fs datas).

Lemma find_entry_cons fs data datas name :
  find_entry fs (data :: datas) name =
    match fat_dirent_lookup data 0 (Z.to_nat (cluster_bytes fs / 32)) name with
    | Some e => Some e
    | None => find_entry fs datas name
    end.
Proof.
  rewrite dirent_lookup_find. unfold find_entry, dir_entries. cbn [mbind list_bind].
  destruct (list_find (named name) (dirent_at data <$> _)) as [[i e]|] eqn:E.
  - apply (list_find_app_l _ _ (datas ≫= fun data => dirent_at data <$> seq 0 (Z.to_nat (cluster_bytes fs / 32)))) in E. by rewrite E.
  - rewrite list_find_app_r by done. by destruct (list_find _ (mbind _ _)) as [[]|].
Qed.

(** The last entry of the chain in the table is an end mark. *)
Definition chain_ends (fs : fatfs_priv) (tbl chain : list Z) : Prop :=
  forall c, last chain = Some c -> in_table fs tbl c /\ fat_max_cluster (opvector fs) <= fat_value (opvector fs) tbl c.

(** The directory entry that a lookup makes, and the node for it. *)
Definition found (fsp : Z) (opv : fat_opvector) (e : fat_entry) (r : option vfs_node) (s : fat_st H) : Prop :=
  exists q, r = Some (mk_node (if IS_DIR (e_attribute e) then fatfs_dir_vops else fatfs_vops) q) /\
    dents s !! q = Some (mk_dirent fsp junk junk junk (e_length e)
      (Z.land (Z.lor (e_cluster_entry e) (Z.shiftl (e_cluster_high e) 16)) (fat_cluster_mask opv)) (e_attribute e)).

Lemma wp_lookup_chain fs tbl fsp cb name m chain : forall datas fuel s c (Q : option vfs_node -> fat_st H -> Prop),
  file_at m fs tbl (c :: chain) datas -> chain_ends fs tbl (c :: chain) -> c < fat_max_cluster (opvector fs) ->
  heap_ok (heap s) -> ram s = m -> (length chain + 1 < fuel)%nat ->
  (forall r s', match find_entry fs datas name with
                | None => r = None
                | Some e => found fsp (opvector fs) e r s'
                end -> Q r s') ->
  wp (loop fuel (lookup_body junk fatfs_vops fatfs_dir_vops fsp fs cb (cluster_bytes fs / 32) name) c) Q s.
Proof.
  induction chain as [|c' chain IH]; intros datas fuel s c Q Hf He Hc Hh Hr Hfuel HQ;
    pose proof Hf as [Hv Hcl Hl]; inversion Hcl as [|? data ? datas' Hd Hds]; subst datas;
    (destruct fuel as [|fuel]; [lia|]); cbn [loop]; unfold lookup_body at 1; wp_simpl;
    (destruct (Z.ltb_spec c (fat_max_cluster (opvector fs))); [|lia]); wp_simpl;
    (eapply wp_fat_read_cluster; [rewrite Hr; exact Hv|rewrite Hr; exact Hd|]);
    change (0 =? -1) with false; cbn match; rewrite find_entry_cons in HQ;
    (destruct (fat_dirent_lookup data 0 _ name) as [e|] eqn:Elook;
     [wp_simpl; apply wp_kmalloc; [exact Hh|]; intros q h Hq Hh'; (destruct (Z.eqb_spec q NULL); [done|]);
      unfold new_dirent; wp_simpl; apply wp_kfree; [exact Hh'|]; intros h2 Hh2; wp_simpl; apply HQ;
      exists q; (split; [done|]); cbn; apply lookup_insert_eq|]).
  - destruct (He c eq_refl) as [Hin Hmax]. wp_simpl. eapply wp_fat_next_cluster; [rewrite Hr; exact Hv|done|done|].
    intros h Hh'. wp_simpl. destruct fuel as [|fuel]; [cbn in Hfuel; lia|]. cbn [loop]. unfold lookup_body at 1. wp_simpl.
    destruct (Z.ltb_spec (fat_value (opvector fs) tbl c) (fat_max_cluster (opvector fs))); [lia|]. wp_simpl.
    apply wp_kfree; [done|]. intros h2 Hh2. wp_simpl. apply HQ. inversion Hds. done.
  - destruct (Hl 0%nat c c' eq_refl eq_refl) as (Hin & Hval & Hmax). wp_simpl.
    eapply wp_fat_next_cluster; [rewrite Hr; exact Hv|done|done|]. intros h Hh'. rewrite Hval. wp_simpl.
    apply (IH datas' fuel); try done; [|cbn in Hfuel; lia].
    split; [done|done|]. intros i a b Ha Hb. apply (Hl (S i) a b); done.
Qed.

(** ** Listing a directory other than the root *)

(** The names of the entries from the [i]th on, [n] at most, up to the first
    entry without a name. *)
Fixpoint listed (content : list Z) (n i : nat) : list (list Z) :=
  match n with
  | O => []
  | S n =>
      let e := dirent_at content i in
      if 0 <? dirent_trim (e_name e) 8 then dirent_name e :: listed content n (S i) else []
  end.

Lemma listed_lookup content n : forall i j name,
  listed content n i !! j = Some name ->
  (j < n)%nat /\ 0 < dirent_trim (e_name (dirent_at content (i + j))) 8 /\ name = dirent_name (dirent_at content (i + j)).
Proof.
  induction n as [|n IH]; intros i j name; [done|]. cbn [listed].
  destruct (Z.ltb_spec 0 (dirent_trim (e_name (dirent_at content i)) 8)); [|done]. destruct j as [|j]; cbn [lookup list_lookup].
  - intros [= <-]. rewrite Nat.add_0_r. split; [lia|done].
  - intros (Hj & Ht & ->)%IH. rewrite Nat.add_succ_r. split; [lia|done].
Qed.

Lemma listed_end content n : forall i,
  (length (listed content n i) < n)%nat ->
  dirent_trim (e_name (dirent_at content (i + length (listed content n i)))) 8 <= 0.
Proof.
  induction n as [|n IH]; intros i; [cbn; lia|]. cbn [listed].
  destruct (Z.ltb_spec 0 (dirent_trim (e_name (dirent_at content i)) 8)); cbn [length]; intros Hl.
  - rewrite Nat.add_succ_r. apply (IH (S i)). lia.
  - by rewrite Nat.add_0_r.
Qed.

(** The characters of a name. *)
Lemma take_trimmed l k : take (Z.to_nat (dirent_trim l k)) l = trimmed (take k l).
Proof.
  unfold dirent_trim. rewrite Nat2Z.id. revert k. induction l as [|c l IH]; intros [|k]; cbn; try done.
  destruct ((c =? 0) || (c =? 32)); [done|]. cbn. by rewrite IH.
Qed.

Lemma trimmed_chars l : Forall byte l -> Forall char_ok (trimmed l).
Proof.
  induction 1 as [|c l Hc Hl IH]; cbn; [constructor|]. destruct (Z.eqb_spec c 0), (Z.eqb_spec c 32); cbn; constructor; try done.
  unfold byte, char_ok in *. lia.
Qed.

Lemma trimmed_length l : (length (trimmed l) <= length l)%nat.
Proof. induction l as [|c l IH]; cbn; [lia|]. destruct ((c =? 0) || (c =? 32)); cbn; lia. Qed.

Lemma dirent_name_ok content i :
  Forall byte content -> 0 < dirent_trim (e_name (dirent_at content i)) 8 ->
  let name := dirent_name (dirent_at content i) in
  name <> [] /\ Forall char_ok name /\ (length name <= 12)%nat.
Proof.
  intros Hb Ht. cbv zeta. unfold dirent_name. rewrite !take_trimmed. set (e := dirent_at content i) in *.
  assert (H1 : Forall byte (e_name e)) by (by apply Forall_take, Forall_take, Forall_drop).
  assert (H2 : Forall byte (e_fext e)) by (by apply Forall_take, Forall_drop, Forall_take, Forall_drop).
  split_and!.
  - unfold dirent_trim in Ht. destruct (trimmed (take 8 (e_name e))); [cbn in Ht; lia|done].
  - apply Forall_app. split; [by apply trimmed_chars, Forall_take|]. apply Forall_app. split.
    + destruct (negb _); repeat constructor; unfold char_ok; lia.
    + by apply trimmed_chars, Forall_take.
  - rewrite !length_app. pose proof (trimmed_length (take 8 (e_name e))). pose proof (trimmed_length (take 3 (e_fext e))).
    rewrite !length_take in *. destruct (negb _); cbn [length]; lia.
Qed.

(** An open directory that is not a root directory, at its [i]th entry. *)
Record dir_open (fs : fatfs_priv) (tbl chain : list Z) (datas : list (list Z)) (s : fat_st H) (p : Z) (i : nat) : Prop := {
  do_heap : heap_ok (heap s);
  do_file : file_at (ram s) fs tbl chain datas;
  do_rows : (32 | cluster_bytes fs);
  do_size : Z.of_nat (length chain) * cluster_bytes fs < 4294967296;
  do_dirent : exists d k, dents s !! p = Some d /\ d_fs d <> 0 /\ privs s !! d_fs d = Some fs /\
    chain !! 0%nat = Some (d_entry d) /\ chain !! k = Some (d_cluster d) /\ d_offset d = Z.of_nat k * cluster_bytes fs /\
    IS_DIR (d_flag d) = true /\ Z.land (d_flag d) 0xFF00 = 0 /\ d_lseek d = 32 * Z.of_nat i
}.

(** The name of the entry in a buffer of 32 bytes or more. *)
Lemma entry_of_app l r : length l = 32%nat ->
  e_name (entry_of (l ++ r)) = e_name (entry_of l) /\ e_fext (entry_of (l ++ r)) = e_fext (entry_of l).
Proof.
  intros Hl. cbn. rewrite take_app_le by lia. rewrite drop_app_le by lia.
  rewrite take_app_le by (rewrite length_drop; lia). done.
Qed.

Lemma wp_fatfs_dir_read fs tbl chain datas s p i buf count (Q : Z * list Z * option Z -> fat_st H -> Prop) :
  dir_open fs tbl chain datas s p i -> p <> 0 -> 0 < buf -> count <> 0 ->
  32 * (Z.of_nat i + 1) <= Z.of_nat (length chain) * cluster_bytes fs ->
  (forall s', ram s' = ram s -> dir_open fs tbl chain datas s' p (S i) ->
     let e := dirent_at (concat datas) i in
     let l := slice datas (32 * Z.of_nat i) 32 in
     Q (if 0 <? dirent_trim (e_name e) 8
        then (0, overlay (dirent_name e ++ [0]) l, Some (Z.of_nat (length (dirent_name e)) + 1))
        else (-1, l, Some 32)) s') ->
  wp (fatfs_dir_read stale p buf count) Q s.
Proof.
  intros [Hh Hf Hrows Hsz (d & k & Hd & Hfs & Hp & He & Hk & Ho & Hdir & Hroot & Hls)] Hp0 Hbuf Hc Hend HQ.
  assert (Ha : at_cluster (ram s) fs chain (privs s) (dents s) p d k s).
  { split_and!; try done. exists (d_cluster d). split; [done|]. rewrite insert_id; [done|]. rewrite <- Ho. by destruct d. }
  unfold fatfs_dir_read. destruct (Z.eqb_spec count 0); [done|]. unfold NULL. destruct (Z.eqb_spec p 0); [done|].
  wp_simpl. unfold rd_dirent. wp_simpl. rewrite Hd. wp_simpl. rewrite Hroot, Hdir. cbn [negb Z.eqb]. wp_simpl.
  eapply (wp_dir_pread (ram s) fs tbl chain datas Hf (privs s) (dents s) (d_fs d) p d Hfs Hp Hp0 eq_refl He k);
    [done|done|exact Ha|lia|done|exists (Z.of_nat i); lia|lia|done|].
  rewrite Hls. set (l := slice datas (32 * Z.of_nat i) 32). intros k' s' (Hh' & Hr' & Hp' & c & Hc' & Hd').
  change (32 =? -1) with false. change (u32 32) with 32. wp_simpl.
  unfold wr_dirent, rd_dirent. wp_simpl. rewrite Hd', lookup_insert_eq. wp_simpl.
  pose proof (content_length (ram s) fs tbl chain datas Hf) as Hcl.
  assert (Hll : length l = 32%nat) by (unfold l, slice; rewrite length_take, length_drop; lia).
  assert (Hle : entry_of l = dirent_at (concat datas) i).
  { unfold l, slice, dirent_at. by replace (Z.to_nat (32 * Z.of_nat i)) with (32 * i)%nat by lia. }
  unfold overlay at 1 2 3 4. destruct (entry_of_app l (drop (length l) stale) Hll) as [E1 E2].
  assert (En : dirent_name (entry_of (l ++ drop (length l) stale)) = dirent_name (dirent_at (concat datas) i)).
  { unfold dirent_name. by rewrite E1, E2, Hle. }
  rewrite E1, Hle, En. set (s2 := set_dents _ _).
  assert (Hopen : dir_open fs tbl chain datas s2 p (S i)).
  { split; cbn; try done; [by rewrite Hr'|]. exists (set_lseek (32 * Z.of_nat (S i)) (set_cursor c (Z.of_nat k' * cluster_bytes fs) d)), k'.
    cbn. split_and!; try done.
    - rewrite lookup_insert_eq. do 2 f_equal. rewrite Hls, u32_small by lia. lia.
    - by rewrite Hp'. }
  specialize (HQ s2 Hr' Hopen). cbv zeta in HQ. fold l in HQ.
  destruct (0 <? dirent_trim (e_name (dirent_at (concat datas) i)) 8); by wp_simpl.
Qed.

End Dirs.

(** ** Properties *)

Section Properties.
Context {H : Type} `{HA : Allocator H} `{HS : !AllocatorSpec H}.
Context (junk : Z) (stale : list Z) (fatfs_vops fatfs_dir_vops : Z).
Implicit Types (s : fat_st H).

(** [C18] The cluster after [n] in a chain is the [n]th number of the allocation
    table, 12, 16 or 32 bits wide and packed from the lowest bit up, also when a
    12-bit number lies across two sectors; nothing but the heap changes. *)
Theorem fat_next_cluster_decodes fs tbl n s :
  volume_ok (ram s) fs tbl -> in_table fs tbl n -> heap_ok (heap s) ->
  exists h, fat_next_cluster (opvector fs) fs n s = Ok (Some (fat_value (opvector fs) tbl n), set_heap h s).
Proof.
  intros Hv Hn Hh. destruct (wp_elim (fat_next_cluster (opvector fs) fs n)
    (fun r s' => r = Some (fat_value (opvector fs) tbl n) /\ exists h, s' = set_heap h s) s)
    as (r & s' & E & -> & h & ->); [|eauto].
  eapply wp_fat_next_cluster; [exact Hv|done|done|]. intros h _. eauto.
Qed.

(** A file that was looked up: its directory entry [d] at [p], its clusters and
    contents. *)
Record file_found (fs : fatfs_priv) (tbl chain : list Z) (datas : list (list Z)) (s : fat_st H) (p : Z)
    (d : fatfs_dirent) : Prop := {
  fo_heap : heap_ok (heap s);
  fo_file : file_at (ram s) fs tbl chain datas;
  fo_fs : d_fs d <> 0 /\ privs s !! d_fs d = Some fs;
  fo_dirent : p <> 0 /\ dents s !! p = Some d;
  fo_entry : chain !! 0%nat = Some (d_entry d);
  fo_flag : IS_DIR (d_flag d) = false;
  fo_length : 0 <= d_length d <= Z.of_nat (length (concat datas)) /\ d_length d < 2147483648;
  fo_size : Z.of_nat (length chain) * cluster_bytes fs < 4294967296
}.

(** An open file: the cursor at one of the clusters, the position within the file. *)
Record file_open (fs : fatfs_priv) (tbl chain : list Z) (datas : list (list Z)) (s : fat_st H) (p : Z)
    (d : fatfs_dirent) : Prop := {
  fo_found : file_found fs tbl chain datas s p d;
  fo_cursor : exists k, chain !! k = Some (d_cluster d) /\ d_offset d = Z.of_nat k * cluster_bytes fs;
  fo_lseek : 0 <= d_lseek d <= d_length d
}.

(** [C10] Reading a file: [fatfs_read] returns exactly the bytes of the file from
    the current position on, as many as were asked for and are left, whichever
    clusters they lie in; the position moves on by that number, and the file stays
    open, so that consecutive reads give consecutive pieces. *)
Theorem fatfs_read_correct fs tbl chain datas s p d buf count :
  file_open fs tbl chain datas s p d -> 0 <= count -> d_lseek d + count < 4294967296 ->
  0 < buf -> buf + count < 4294967296 ->
  let n := Z.min count (d_length d - d_lseek d) in
  exists s' d', fatfs_read p buf count s = Ok ((0, slice datas (d_lseek d) n, Some n), s') /\
    file_open fs tbl chain datas s' p d' /\ d_lseek d' = d_lseek d + n /\ d_length d' = d_length d.
Proof.
  intros [[Hh Hf [Hfs Hp] [Hp0 Hd] He Hfl [Hl Hl31] Hsz] (k & Hk & Ho) Hls] Hc Hsum Hb Hb2 n.
  assert (Ha : at_cluster (ram s) fs chain (privs s) (dents s) p d k s).
  { split_and!; try done. exists (d_cluster d). split; [done|]. rewrite insert_id; [done|]. rewrite <- Ho. by destruct d. }
  set (Q := fun (r : Z * list Z * option Z) s' => r = (0, slice datas (d_lseek d) n, Some n) /\ exists d',
    file_open fs tbl chain datas s' p d' /\ d_lseek d' = d_lseek d + n /\ d_length d' = d_length d).
  destruct (wp_elim (fatfs_read p buf count) Q s) as (r & s' & E & -> & d' & Hd'); [|exists s', d'; done].
  unfold fatfs_read. unfold NULL. destruct (Z.eqb_spec p 0); [done|]. wp_simpl. unfold rd_dirent. wp_simpl.
  rewrite Hd. wp_simpl. unfold pread.
  eapply (pread_reads (ram s) fs tbl chain datas Hf (privs s) (dents s) (d_fs d) p d); try done; [lia|].
  intros k' s' Ha'. fold n. destruct (Z.eqb_spec n (-1)); [lia|]. rewrite u32_small by lia.
  destruct Ha' as (Hh' & Hr' & Hp' & c & Hc' & Hd'). unfold wr_dirent, rd_dirent. wp_simpl. rewrite Hd', lookup_insert_eq. wp_simpl.
  cbn [d_lseek set_cursor]. rewrite u32_small by lia. split; [done|].
  exists (set_lseek (d_lseek d + n) (set_cursor c (Z.of_nat k' * cluster_bytes fs) d)).
  split; [|split; [reflexivity|done]]. split; [split; cbn; try done| |].
  - by rewrite Hr'.
  - by rewrite Hp'.
  - rewrite lookup_insert_eq. done.
  - eauto.
  - cbn. lia.
Qed.

(** Opening a file that was looked up sets its cursor to its first cluster
    and its position to the beginning, whatever they were before. *)
Theorem fatfs_open_rewinds fs tbl chain datas s p d :
  file_found fs tbl chain datas s p d ->
  exists s' d', fatfs_open p s = Ok (0, s') /\ file_open fs tbl chain datas s' p d' /\ d_lseek d' = 0.
Proof.
  intros [Hh Hf Hfs [Hp0 Hd] He Hfl Hl Hsz]. unfold fatfs_open, NULL. destruct (Z.eqb_spec p 0); [done|].
  unfold wr_dirent, rd_dirent, bind, gets. rewrite Hd. cbn.
  eexists _, (set_lseek 0 (set_cursor (d_entry d) 0 d)). split; [reflexivity|].
  split; [|reflexivity]. split; [split; cbn; try done| |].
  - by rewrite lookup_insert_eq.
  - exists 0%nat. cbn. split; [done|lia].
  - cbn. lia.
Qed.

(** [C17] Looking a name up in a directory: the entries of all clusters of the
    directory are searched in order, and the first one with that name is the
    result, with its length, attribute and first cluster; without such an entry
    the lookup fails. *)
Theorem fatfs_lookup_first fs tbl c chain datas s p d name :
  file_at (ram s) fs tbl (c :: chain) datas -> chain_ends fs tbl (c :: chain) ->
  c < fat_max_cluster (opvector fs) -> heap_ok (heap s) -> (length chain + 1 < chain_fuel s)%nat ->
  dents s !! p = Some d -> d_fs d <> 0 -> privs s !! d_fs d = Some fs ->
  d_entry d = c -> Z.land (d_flag d) 0xFF00 = 0 -> IS_DIR (d_flag d) = true ->
  exists r s', fatfs_lookup junk fatfs_vops fatfs_dir_vops p name s = Ok (r, s') /\
    match find_entry fs datas name with
    | None => r = None
    | Some e => found junk fatfs_vops fatfs_dir_vops (d_fs d) (opvector fs) e r s'
    end.
Proof.
  intros Hf He Hc Hh Hfuel Hd Hfs Hp Hen Hfl Hdir. apply wp_elim. unfold fatfs_lookup.
  unfold rd_dirent. wp_simpl. rewrite Hd. wp_simpl. unfold NULL. destruct (Z.eqb_spec (d_fs d) 0); [done|].
  unfold rd_priv. wp_simpl. rewrite Hp. wp_simpl.
  assert (Hb : 0 < cluster_bytes fs < 16777216).
  { destruct Hf as [[Hb _ Hspc _ _ _ _ _ _ _ _ _] _ _]. unfold cluster_bytes. nia. }
  fold (cluster_bytes fs). rewrite (u32_small (cluster_bytes fs)) by lia.
  apply wp_kmalloc; [done|]. intros cb h Hcb Hh'. destruct (Z.eqb_spec cb 0); [done|].
  rewrite Hfl, Hdir. cbn [negb Z.eqb]. wp_simpl. rewrite Hen.
  eapply wp_lookup_chain; [exact Hf|done|done|done|done| |].
  - exact Hfuel.
  - intros r s' Hr. exact Hr.
Qed.

(** Listing a root directory goes wrong where a sector ends: with the
    position at the first entry of the next sector, the test for the end of the
    sector fails by one, so the first entry of the sector before is returned
    again in its place. *)
Theorem root_dir_read_repeats s p d fs buf count data :
  dents s !! p = Some d -> buf <> 0 -> heap_ok (heap s) -> privs s !! d_fs d = Some fs ->
  bytes_per_sector fs = 512 -> 0 <= fimage fs -> 0 <= d_offset d < 65536 -> 0 <= reserved_sector fs < 65536 ->
  0 <= sectors_per_fat fs * number_of_FAT fs < 1048576 ->
  d_lseek d = (d_offset d + 1) * 512 -> d_lseek d / 32 < root_entries fs ->
  let sector := reserved_sector fs + sectors_per_fat fs * number_of_FAT fs + d_offset d in
  bytes (ram s) (fimage fs + sector * 512) data -> length data = 512%nat -> fimage fs + sector * 512 < 2 ^ 32 ->
  let e := dirent_at data 0 in
  DENTRY_IS_ZERO e = false -> DENTRY_IS_DELETED e = false -> DENTRY_IS_LONG_NAME e = false ->
  0 < dirent_trim (e_name e) 8 ->
  exists s', fatfs_root_dir_read p buf count s =
    Ok ((0, dirent_name e ++ [0], Some (Z.of_nat (length (dirent_name e)) + 1)), s').
Proof.
  intros Hd Hb Hh Hp Hbps Hi Ho Hr Hf Hl Hrt sector Hdata Hlen Hfit e Hz Hdel Hln Ht.
  destruct (wp_elim (fatfs_root_dir_read p buf count) (fun r _ => r = (0, dirent_name e ++ [0],
    Some (Z.of_nat (length (dirent_name e)) + 1))) s) as (r & s' & E & ->); [|eauto].
  unfold fatfs_root_dir_read, rd_dirent, rd_priv. wp_simpl. rewrite Hd. wp_simpl. unfold NULL.
  destruct (Z.eqb_spec buf 0); [done|]. wp_simpl. rewrite Hp. wp_simpl.
  destruct (Z.leb_spec (root_entries fs) (d_lseek d / 32)); [lia|].
  rewrite Hbps, Hl, (u32_small (d_offset d + 1)), u32_small by lia. rewrite Z.ltb_irrefl. wp_simpl. rewrite Hd. wp_simpl.
  apply wp_kmalloc; [done|]. intros sb h Hsb Hh'. destruct (Z.eqb_spec sb 0); [done|]. wp_simpl.
  fold sector. change (2 ^ 32) with 4294967296 in Hfit. rewrite s32_small, u32_small by lia.
  eapply (wp_fat_read_sector fs sector data); rewrite ?Hbps; try done; try lia.
  change (512 <=? 0) with false. cbn match. change (512 / 32) with 16.
  replace (Z.to_nat (((d_offset d + 1) * 512 / 32) mod 16)) with 0%nat.
  2:{ replace ((d_offset d + 1) * 512) with ((d_offset d + 1) * 16 * 32) by lia. rewrite Z.div_mul by lia. by rewrite Z_mod_mult. }
  fold e. rewrite Hz, Hdel, Hln. cbn [orb]. destruct (Z.ltb_spec 0 (dirent_trim (e_name e) 8)); [|lia].
  unfold wr_dirent, rd_dirent. wp_simpl. cbn [dents set_heap]. rewrite Hd. by wp_simpl.
Qed.

End Properties.

(** ** Examples *)

(** A FAT16 image at 4096: a boot sector, one sector of table in which 2 links to
    3 and 3 and 4 are last, the clusters 2 and 3 of a file, and cluster 4, a
    directory with the entry [A], of 700 bytes from cluster 2 on. *)
Definition demo_tbl : list Z := [0; 0; 0; 0; 3; 0; 255; 255; 255; 255] ++ replicate 502 0.
Definition demo_dir : list Z :=
  [65; 32; 32; 32; 32; 32; 32; 32; 32; 32; 32; 32] ++ replicate 8 0 ++ [0; 0; 0; 0; 0; 0; 2; 0; 188; 2; 0; 0] ++
  replicate 480 0.
Definition demo_image : mem :=
  list_to_map (zip (seqZ 4096 2560) (replicate 512 0 ++ demo_tbl ++ replicate 512 11 ++ replicate 512 22 ++ demo_dir)).
Definition demo_fs : fatfs_priv := mk_priv 4096 512 1 2 1 1 1 0 fat16fs_opvector.
Definition demo_file : fatfs_dirent := mk_dirent 100 510 2 0 700 2 0x20.
Definition demo_dirent : fatfs_dirent := mk_dirent 100 0 0 0 0 4 0x10.
Definition demo_fat : fat_st Z :=
  mk_fat 5000 demo_image (<[100 := demo_fs]> ∅) (<[200 := demo_file]> (<[300 := demo_dirent]> ∅)).

Lemma demo_volume : volume_ok demo_image demo_fs demo_tbl.
Proof.
  split; cbn [demo_fs bytes_per_sector sectors_per_cluster fimage reserved_sector first_cluster_sector sectors_per_fat];
    first [lia | by exists 128 | apply bytes_check_sound; vm_compute; reflexivity
          | apply byte_check_sound; vm_compute; reflexivity | vm_compute; done].
Qed.

Lemma demo_cluster c data :
  2 <= c <= 4 -> length data = 512%nat -> bytes_check demo_image (4096 + (2 + (c - 2) * 1) * 512) data = true ->
  cluster_at demo_image demo_fs c data.
Proof.
  intros Hc Hl Hb. split; cbn; try lia.
  - rewrite Hl. done.
  - by apply bytes_check_sound.
Qed.

Lemma demo_file_at : file_at demo_image demo_fs demo_tbl [2; 3] [replicate 512 11; replicate 512 22].
Proof.
  split; [exact demo_volume| |].
  - constructor; [|constructor; [|constructor]];
      (apply demo_cluster; [lia|vm_compute; reflexivity|vm_compute; reflexivity]).
  - intros [|[|i]] c c' Hc Hc'; cbn in Hc, Hc'; try done. injection Hc as <-. injection Hc' as <-.
    split; [split; [lia|vm_compute; discriminate]|]. split; vm_compute; reflexivity.
Qed.

Lemma demo_file_found : file_found demo_fs demo_tbl [2; 3] [replicate 512 11; replicate 512 22] demo_fat 200 demo_file.
Proof.
  split.
  - vm_compute. done.
  - exact demo_file_at.
  - split; [discriminate|reflexivity].
  - split; [discriminate|reflexivity].
  - reflexivity.
  - reflexivity.
  - split; [|reflexivity]. vm_compute. split; discriminate.
  - reflexivity.
Qed.

Lemma demo_file_open : file_open demo_fs demo_tbl [2; 3] [replicate 512 11; replicate 512 22] demo_fat 200 demo_file.
Proof.
  split; [exact demo_file_found| |].
  - exists 0%nat. done.
  - cbn. lia.
Qed.

Lemma fat_next_cluster_decodes_witness :
  exists h, fat_next_cluster fat16fs_opvector demo_fs 2 demo_fat = Ok (Some 3, set_heap h demo_fat).
Proof.
  assert (V : fat_value (opvector demo_fs) demo_tbl 2 = 3) by (vm_compute; reflexivity).
  destruct (fat_next_cluster_decodes demo_fs demo_tbl 2 demo_fat demo_volume) as (h & E);
    [split; [lia|vm_compute; discriminate]|vm_compute; done|].
  rewrite V in E. exists h. exact E.
Defined.

(** Four bytes across the end of the first cluster. *)
Lemma fatfs_read_correct_witness :
  exists s', fatfs_read 200 9000 4 demo_fat = Ok ((0, [11; 11; 22; 22], Some 4), s').
Proof.
  destruct (fatfs_read_correct _ _ _ _ demo_fat 200 demo_file 9000 4 demo_file_open) as (s' & d' & E & _);
    [lia|cbn; lia|lia|lia|].
  assert (V : slice [replicate 512 11; replicate 512 22] 510 4 = [11; 11; 22; 22]) by (vm_compute; reflexivity).
  exists s'. change (d_lseek demo_file) with 510 in E. change (Z.min 4 (d_length demo_file - 510)) with 4 in E.
  rewrite V in E. exact E.
Defined.

Lemma fatfs_open_rewinds_witness :
  exists s' d', fatfs_open 200 demo_fat = Ok (0, s') /\
    file_open demo_fs demo_tbl [2; 3] [replicate 512 11; replicate 512 22] s' 200 d' /\ d_lseek d' = 0.
Proof. apply (fatfs_open_rewinds _ _ _ _ demo_fat 200 demo_file demo_file_found). Defined.

Lemma demo_dir_at : file_at demo_image demo_fs demo_tbl [4] [demo_dir].
Proof.
  split; [exact demo_volume| |].
  - constructor; [|constructor]. apply demo_cluster; [lia|vm_compute; reflexivity|vm_compute; reflexivity].
  - intros [|i] c c' Hc Hc'; cbn in Hc, Hc'; done.
Qed.

Lemma fatfs_lookup_first_witness :
  exists r s', fatfs_lookup 0 7 8 300 [65] demo_fat = Ok (r, s') /\
    found 0 7 8 100 fat16fs_opvector (dirent_at demo_dir 0) r s'.
Proof.
  pose proof demo_dir_at as Hf.
  assert (He : find_entry demo_fs [demo_dir] [65] = Some (dirent_at demo_dir 0)) by (vm_compute; reflexivity).
  pose proof (fatfs_lookup_first 0 7 8 demo_fs demo_tbl 4 [] [demo_dir] demo_fat 300 demo_dirent [65] Hf) as W.
  rewrite He in W. apply W; try reflexivity; try discriminate.
  - intros c [= <-]. split; [split; [lia|vm_compute; discriminate]|vm_compute; discriminate].
  - apply Nat.ltb_lt. vm_compute. reflexivity.
Defined.

(** A FAT32 image at 0x100000 whose directory is the one empty cluster 2, with the
    end mark 0x0FFFFFFF in the table; and the same directory in FAT16, with 0xFFFF. *)
Definition dir_image (mark : list Z) : mem :=
  list_to_map (zip (seqZ 0x100000 1536)
    (replicate 512 0 ++ (replicate (2 * length mark) 0 ++ mark ++ replicate (512 - 3 * length mark) 0) ++ replicate 512 0)).
Definition dir_volume (mark : list Z) (v : fat_opvector) : fat_st Z :=
  mk_fat 5000 (dir_image mark) (<[100 := mk_priv 0x100000 512 1 2 1 1 1 0 v]> ∅)
    (<[300 := mk_dirent 100 0 0 0 0 2 0x10]> ∅).
Definition lookup_x (st : fat_st Z) : outcome (option vfs_node) :=
  match fatfs_lookup 0 7 8 300 [88] st with Ok (r, _) => Ok r | Err e => Err e end.

(** FAT32 numbers have 28 bits and end a chain with 0x0FFFFFF8 or more, but
    the limit for FAT32 is 0xFFFFFFF0: the end mark is taken for a cluster, and a
    lookup of a name that is not there reads outside the image, where the same
    lookup in FAT16 fails as it should. *)
Theorem fat32_end_mark_missed :
  lookup_x (dir_volume [255; 255; 255; 15] fat32fs_opvector) = Err (BadAddr 0xFFE00) /\
  lookup_x (dir_volume [255; 255] fat16fs_opvector) = Ok None.
Proof. split; vm_compute; reflexivity. Qed.

(** A root directory whose first sector begins with the entry [A]. *)
Definition root_fs : fatfs_priv := mk_priv 4096 512 1 5 1 1 1 32 fat16fs_opvector.
Definition root_image : mem := list_to_map (zip (seqZ 4096 2048) (replicate 1024 0 ++ demo_dir ++ replicate 512 0)).
Definition root_state : fat_st Z :=
  mk_fat 5000 root_image (<[100 := root_fs]> ∅) (<[300 := mk_dirent 100 512 0 0 0 0 0xFF00]> ∅).

Lemma root_dir_read_repeats_witness :
  exists s', fatfs_root_dir_read 300 9000 64 root_state = Ok ((0, [65; 0], Some 2), s').
Proof.
  apply (root_dir_read_repeats root_state 300 (mk_dirent 100 512 0 0 0 0 0xFF00) root_fs 9000 64 demo_dir);
    try reflexivity; try discriminate; cbn [root_fs fimage d_offset reserved_sector sectors_per_fat number_of_FAT]; try lia.
  apply bytes_check_sound. vm_compute. reflexivity.
Defined.
