(* ===== verification/Reloc.v ===== *)
(** * arch/arm/kernel/module.c: the relocations of the module loader

    What [apply_relocate] computes for each kind of relocation, on 32-bit words:
    [word] is what is at the place before, [addr] the address of the symbol, [P]
    the address of the place.  The theorems say where the patched instructions
    lead, decoded as the processor does. *)

From S2P Require Import Prelude Bitops.

Definition R_ARM_PC24 : Z := 1.
Definition R_ARM_ABS32 : Z := 2.
Definition R_ARM_THM_CALL : Z := 10.
Definition R_ARM_CALL : Z := 28.
Definition R_ARM_JUMP24 : Z := 29.

(** An absolute word. *)
Definition reloc_abs32 (word addr : Z) : Z := u32 (addr + s32 word).

(** A branch with a 24-bit offset. *)
Definition reloc_branch (word addr P : Z) : Z :=
  let offset := Z.shiftl (Z.land word 0x00ffffff) 2 in
  let offset := s32 (offset + s32 (addr - P)) in
  let offset := Z.shiftr offset 2 in
  Z.lor (Z.land word 0xff000000) (Z.land offset 0x00ffffff).

(** A Thumb call: two halfwords.  [None] is [MODULE_UNHANDLED_RELOC], which there
    is only for an ARMv4T target. *)
Definition reloc_thm_call (arch_4t : bool) (i0 i1 addr base : Z) : option (Z * Z) :=
  let linked := Z.land i1 0xe800 =? 0xe800 in
  if linked && (Z.land addr 1 =? 0) && arch_4t then None else
  let i1 := if linked then
              if negb (Z.land addr 1 =? 0) then Z.lor i1 0x1800
              else Z.lor (Z.land i1 (Z.lnot 0x1800)) 0x0800
            else i1 in
  let addr := if Z.land i1 0x1800 =? 0x0800
              then Z.lor (Z.land addr 0xfffffffd) (Z.land base 0x00000002) else addr in
  let offset := s32 (addr - base) in
  Some (Z.lor (Z.land i0 0xf800) (Z.land (Z.shiftr offset 12) 0x07ff),
        Z.lor (Z.land i1 0xf800) (Z.land (Z.shiftr offset 1) 0x07ff)).

(** ** What the instructions mean *)

(** The displacement in a branch instruction, in bytes. *)
Definition branch_disp (word : Z) : Z := 4 * signed 24 (word mod 2 ^ 24).

(** The displacement in a pair of Thumb halfwords. *)
Definition thm_disp (i0 i1 : Z) : Z := 4096 * signed 11 (i0 mod 2 ^ 11) + 2 * (i1 mod 2 ^ 11).

(** ** Fields of words *)

(** The 24-bit field of a relocated branch. *)
Lemma reloc_branch_fields word addr P :
  0 <= word < 2 ^ 32 -> (addr - P) mod 4 = 0 ->
  reloc_branch word addr P =
    word / 2 ^ 24 * 2 ^ 24 + (word mod 2 ^ 24 + (addr - P) / 4) mod 2 ^ 24.
Proof.
  intros Hw Hd. unfold reloc_branch.
  change 0xff000000 with (Z.shiftl (Z.ones 8) 24). change 0x00ffffff with (Z.ones 24).
  rewrite (land_high word 24 8) by (done || lia). rewrite lor_fields by lia. rewrite Z.shiftr_div_pow2 by lia. f_equal.
  rewrite Z.land_ones, Z.shiftl_mul_pow2, Z.shiftr_div_pow2 by lia. set (f := word mod 2 ^ 24).
  pose proof (Z.div_mod (addr - P) 4 ltac:(lia)) as E. rewrite Hd in E. set (d := (addr - P) / 4) in *.
  assert (Hs : s32 (f * 2 ^ 2 + s32 (addr - P)) mod 2 ^ 32 = (4 * (f + d)) mod 2 ^ 32).
  { unfold s32. rewrite signed_mod by lia. rewrite <- Zplus_mod_idemp_r, signed_mod, Zplus_mod_idemp_r by lia. f_equal. lia. }
  set (o := s32 _) in *. assert (Hq : (o / 2 ^ 2) mod 2 ^ 24 = (o mod 2 ^ 32 / 2 ^ 2) mod 2 ^ 24).
  { rewrite <- (mod_pow2_split (o / 2 ^ 2) 24 6) by lia. rewrite <- (mod_pow2_split (o mod 2 ^ 32 / 2 ^ 2) 24 6) by lia. f_equal.
    change (2 ^ 32) with (2 ^ 2 * 2 ^ 30). rewrite Z.rem_mul_r by lia.
    rewrite (Z.add_comm (o mod 2 ^ 2)), Z.mul_comm, Z.div_add_l by lia.
    rewrite (Z.div_small (o mod 2 ^ 2)) by (apply Z.mod_pos_bound; lia). rewrite Z.add_0_r. by rewrite Z.mod_mod. }
  rewrite Hq, Hs. change (2 ^ 32) with (4 * 2 ^ 30). rewrite Z.mul_mod_distr_l by lia.
  change (2 ^ 2) with 4. rewrite (Z.mul_comm 4 (_ mod _)), Z.div_mul by lia.
  change (2 ^ 30) with (2 ^ (24 + 6)). by rewrite mod_pow2_split by lia.
Qed.

(** ** Properties *)

(** [C27] A relocated branch keeps its condition and opcode, and goes where it
    should: its displacement is the one it had plus the distance from the place to
    the symbol, so that at [P] it reaches [addr + A + 8] for the addend [A] that
    the instruction held.  This needs the distance to be in the reach of 24 bits,
    which the loader does not check. *)
Theorem branch_reloc_target word addr P :
  0 <= word < 2 ^ 32 -> (addr - P) mod 4 = 0 ->
  - 2 ^ 25 <= branch_disp word + (addr - P) < 2 ^ 25 ->
  let w := reloc_branch word addr P in
  0 <= w < 2 ^ 32 /\ w / 2 ^ 24 = word / 2 ^ 24 /\
  P + 8 + branch_disp w = addr + branch_disp word + 8.
Proof.
  intros Hw Hd Hr w. pose proof (reloc_branch_fields word addr P Hw Hd) as E. fold w in E.
  pose proof (Z.div_mod (addr - P) 4 ltac:(lia)) as Ed. rewrite Hd in Ed. set (d := (addr - P) / 4) in *.
  pose proof (Z.mod_pos_bound (word mod 2 ^ 24 + d) (2 ^ 24) ltac:(lia)) as Hf.
  assert (Hh : 0 <= word / 2 ^ 24 < 2 ^ 8) by (split; [apply Z.div_pos; lia|apply Z.div_lt_upper_bound; lia]).
  split; [rewrite E; lia|]. split.
  - rewrite E, Z.div_add_l by lia. rewrite (Z.div_small (_ mod _)) by done. lia.
  - unfold branch_disp in *. assert (signed 24 (w mod 2 ^ 24) = signed 24 (word mod 2 ^ 24) + d); [|lia].
    apply signed_unique; [lia| |change (2 ^ (24 - 1)) with 8388608; change (2 ^ 25) with 33554432 in Hr; lia].
    rewrite Z.mod_mod, E by lia. rewrite Z.add_comm, Z.mod_add, Z.mod_mod by lia.
    rewrite <- (Zplus_mod_idemp_l (signed 24 _)), signed_mod, Z.mod_mod by lia. done.
Qed.

(** A [bl] to 0x8000 with the usual addend of -8, at 0x9000. *)
Lemma branch_reloc_target_witness :
  let w := reloc_branch 0xebfffffe 0x8000 0x9000 in
  0 <= w < 2 ^ 32 /\ w / 2 ^ 24 = 0xebfffffe / 2 ^ 24 /\ 0x9000 + 8 + branch_disp w = 0x8000 + branch_disp 0xebfffffe + 8.
Proof.
  apply (branch_reloc_target 0xebfffffe 0x8000 0x9000); [lia|reflexivity|]. vm_compute. split; discriminate || reflexivity.
Defined.

(** ** Thumb calls *)

Lemma low_bits_range x n : 0 <= n -> Z.land x (Z.ones n) = x -> 0 <= x < 2 ^ n.
Proof. intros Hn E. rewrite <- E, Z.land_ones by done. apply Z.mod_pos_bound. lia. Qed.

Lemma low_bits_id x n : 0 <= x < 2 ^ n -> 0 <= n -> Z.land x (Z.ones n) = x.
Proof. intros Hx Hn. rewrite Z.land_ones by done. by apply Z.mod_small. Qed.

Lemma lor_range a b n : 0 <= n -> 0 <= a < 2 ^ n -> 0 <= b < 2 ^ n -> 0 <= Z.lor a b < 2 ^ n.
Proof. intros Hn Ha Hb. apply low_bits_range; [done|]. rewrite Z.land_lor_distr_l. by rewrite !low_bits_id. Qed.

Lemma land_range a b n : 0 <= n -> 0 <= a < 2 ^ n -> 0 <= Z.land a b < 2 ^ n.
Proof.
  intros Hn Ha. apply low_bits_range; [done|]. rewrite <- Z.land_assoc, (Z.land_comm b), Z.land_assoc.
  by rewrite low_bits_id.
Qed.

Lemma halfword_field i v : 0 <= i < 2 ^ 16 ->
  (Z.lor (Z.land i 0xf800) (Z.land v 0x07ff)) mod 2 ^ 11 = v mod 2 ^ 11.
Proof.
  intros Hi. change 0xf800 with (Z.shiftl (Z.ones 5) 11). change 0x07ff with (Z.ones 11).
  rewrite (land_high i 11 5), lor_fields by (done || lia).
  rewrite Z.add_comm, Z.mod_add, Z.mod_mod by lia. done.
Qed.

(** The halfwords hold the offset less its lowest bit. *)
Lemma thm_disp_fields i0 i1 o :
  0 <= i0 < 2 ^ 16 -> 0 <= i1 < 2 ^ 16 -> - 2 ^ 22 <= o < 2 ^ 22 ->
  thm_disp (Z.lor (Z.land i0 0xf800) (Z.land (Z.shiftr o 12) 0x07ff))
           (Z.lor (Z.land i1 0xf800) (Z.land (Z.shiftr o 1) 0x07ff)) = 2 * (o / 2).
Proof.
  intros H0 H1 Ho. change (2 ^ 22) with 4194304 in Ho. unfold thm_disp. rewrite !halfword_field by done.
  rewrite !Z.shiftr_div_pow2 by lia. change (2 ^ 12) with 4096. change (2 ^ 1) with 2.
  pose proof (Z.div_mod o 4096 ltac:(lia)) as E. pose proof (Z.mod_pos_bound o 4096 ltac:(lia)) as Hm.
  assert (Hs : signed 11 ((o / 4096) mod 2 ^ 11) = o / 4096).
  { apply signed_unique; [lia|by rewrite Z.mod_mod|]. change (2 ^ (11 - 1)) with 1024.
    split; [apply Z.div_le_lower_bound|apply Z.div_lt_upper_bound]; lia. }
  assert (Hl : (o / 2) mod 2 ^ 11 = o mod 4096 / 2).
  { change 4096 with (2 * 2 ^ 11). rewrite Z.rem_mul_r by lia.
    rewrite (Z.add_comm (o mod 2)), Z.mul_comm, Z.div_add_l by lia.
    rewrite (Z.div_small (o mod 2)) by (apply Z.mod_pos_bound; lia). lia. }
  rewrite Hs, Hl. assert (o / 2 = 2048 * (o / 4096) + o mod 4096 / 2); [|lia].
  rewrite E at 1. replace (4096 * (o / 4096) + o mod 4096) with (o mod 4096 + 2048 * (o / 4096) * 2) by lia.
  rewrite Z.div_add by lia. lia.
Qed.

Lemma halfword_kind i v : Z.land (Z.lor (Z.land i 0xf800) (Z.land v 0x07ff)) 0x1800 = Z.land i 0x1800.
Proof.
  rewrite Z.land_lor_distr_l, <- !Z.land_assoc. change (Z.land 0xf800 0x1800) with 0x1800.
  change (Z.land 0x07ff 0x1800) with 0. by rewrite Z.land_0_r, Z.lor_0_r.
Qed.

Lemma odd_land x : Z.land x 1 = x mod 2.
Proof. change 1 with (Z.ones 1) at 1. by rewrite Z.land_ones. Qed.

(** The address of an ARM function, with the second bit of the call's address. *)
Lemma blx_address addr base :
  0 <= addr < 2 ^ 32 -> addr mod 4 = 0 -> base mod 2 = 0 ->
  Z.lor (Z.land addr 0xfffffffd) (Z.land base 0x00000002) = addr + base mod 4.
Proof.
  intros Ha H4 Hb. pose proof (Z.div_mod addr 4 ltac:(lia)) as E4. rewrite H4, Z.add_0_r in E4.
  assert (H1 : Z.land addr 0xfffffffd = Z.shiftl (addr / 4) 2).
  { change 0xfffffffd with (Z.lor (Z.shiftl (Z.ones 30) 2) 1). rewrite Z.land_lor_distr_r, odd_land.
    rewrite (land_high addr 2 30), Z.shiftr_div_pow2 by (done || lia). replace (addr mod 2) with 0; [apply Z.lor_0_r|].
    rewrite E4. replace (4 * (addr / 4)) with (2 * (addr / 4) * 2) by lia. by rewrite Z_mod_mult. }
  assert (H2 : Z.land base 2 = Z.land base (Z.ones 2)).
  { change (Z.ones 2) with (Z.lor 2 1). rewrite Z.land_lor_distr_r, odd_land, Hb. by rewrite Z.lor_0_r. }
  rewrite H1, H2, lor_fields by lia. change (2 ^ 2) with 4. lia.
Qed.

(** A relocated Thumb call to a Thumb function (an odd address) becomes a
    [bl] to it; to an ARM function (a multiple of four) a [blx], whose target, cut
    to a multiple of four as the processor does, is the function.  [base] is the
    address behind the call.  The distance must be in the reach of 22 bits; for
    ARMv4T calls to ARM functions are refused. *)
Theorem thm_call_target i0 i1 addr base :
  0 <= i0 < 2 ^ 16 -> 0 <= i1 < 2 ^ 16 -> Z.land i1 0xe800 = 0xe800 ->
  0 <= addr < 2 ^ 32 -> 0 <= base < 2 ^ 32 -> base mod 2 = 0 -> - 2 ^ 22 <= addr - base < 2 ^ 22 - 2 ->
  (addr mod 2 = 1 -> forall arch, exists j0 j1, reloc_thm_call arch i0 i1 addr base = Some (j0, j1) /\
     Z.land j1 0x1800 = 0x1800 /\ base + thm_disp j0 j1 = addr - 1) /\
  (addr mod 4 = 0 -> reloc_thm_call true i0 i1 addr base = None /\
     exists j0 j1, reloc_thm_call false i0 i1 addr base = Some (j0, j1) /\
     Z.land j1 0x1800 = 0x0800 /\ 4 * ((base + thm_disp j0 j1) / 4) = addr).
Proof.
  intros H0 H1 Hl Ha Hb Hb2 Hr. change (2 ^ 22) with 4194304 in Hr. unfold reloc_thm_call. rewrite Hl, odd_land.
  change (0xe800 =? 0xe800) with true. split.
  - intros Ho arch. rewrite Ho. change (1 =? 0) with false. cbn [andb negb].
    assert (E : Z.land (Z.lor i1 0x1800) 0x1800 = 0x1800).
    { apply Z.bits_inj'. intros n _. rewrite Z.land_spec, Z.lor_spec. destruct (Z.testbit i1 n), (Z.testbit 0x1800 n); done. }
    rewrite E. change (0x1800 =? 0x0800) with false. cbn match. eexists _, _. split; [reflexivity|].
    rewrite halfword_kind. split; [done|]. rewrite thm_disp_fields; [|done|apply lor_range; lia|rewrite s32_small; lia].
    rewrite s32_small by lia. pose proof (Z.div_mod (addr - base) 2 ltac:(lia)) as Ed.
    replace ((addr - base) mod 2) with 1 in Ed; [lia|]. rewrite Zminus_mod, Ho, Hb2. done.
  - intros H4. assert (H2 : addr mod 2 = 0).
    { pose proof (Z.div_mod addr 4 ltac:(lia)) as E4. rewrite H4 in E4. rewrite E4. replace (4 * (addr / 4) + 0) with (2 * (addr / 4) * 2) by lia. apply Z_mod_mult. }
    rewrite H2. change (0 =? 0) with true. cbn [andb negb]. split; [done|].
    assert (E : Z.land (Z.lor (Z.land i1 (Z.lnot 0x1800)) 0x0800) 0x1800 = 0x0800).
    { rewrite Z.land_lor_distr_l, <- Z.land_assoc. change (Z.land (Z.lnot 0x1800) 0x1800) with 0. by rewrite Z.land_0_r. }
    rewrite E. change (0x0800 =? 0x0800) with true. cbn match.
    rewrite (blx_address addr base) by done. pose proof (Z.div_mod base 4 ltac:(lia)) as Eb.
    pose proof (Z.mod_pos_bound base 4 ltac:(lia)) as Hb4. pose proof (Z.div_mod addr 4 ltac:(lia)) as E4.
    eexists _, _. split; [reflexivity|]. rewrite halfword_kind. split; [done|].
    assert (Ho : s32 (addr + base mod 4 - base) = 2 * (2 * (addr / 4 - base / 4))) by (rewrite s32_small; lia).
    rewrite Ho, thm_disp_fields.
    + set (k := addr / 4 - base / 4). replace (2 * (2 * k) / 2) with (2 * k) by (rewrite (Z.mul_comm 2 (2 * k)), Z.div_mul; lia).
      replace (base + 2 * (2 * k)) with (base mod 4 + addr / 4 * 4) by lia.
      rewrite Z.div_add by lia. rewrite (Z.div_small (base mod 4)) by lia. lia.
    + done.
    + apply lor_range; [lia|apply land_range; lia|lia].
    + pose proof (Z.div_mod base 2 ltac:(lia)) as Eb2. change (2 ^ 22) with 4194304. lia.
Qed.

Lemma thm_call_target_witness :
  exists j0 j1, reloc_thm_call true 0xf000 0xf800 0x8001 0x9004 = Some (j0, j1) /\
    Z.land j1 0x1800 = 0x1800 /\ 0x9004 + thm_disp j0 j1 = 0x8000.
Proof.
  apply (thm_call_target 0xf000 0xf800 0x8001 0x9004); try lia; reflexivity.
Defined.
