(* ===== verification/Module.v ===== *)
(** * kernel/module.c: the loader of kernel modules

    A module is an ELF object in memory.  The loader reads its section headers,
    allocates its segments, copies each section into its segment while it applies
    the relocations, and looks for the symbol [mod_entry].  Structures of the image
    are decoded from their bytes; the [struct k_module] objects are kept by
    address.  Messages are left out. *)

From stdpp Require Import strings.
From S2P Require Import Prelude KList KState Env PageAlloc Slob Alloc Str Bytes Symtab Reloc.

Definition MODULE_OK : Z := 0.
Definition MODULE_BAD_ELF_HEADER : Z := 1.
Definition MODULE_NO_SYMTAB : Z := 2.
Definition MODULE_NO_STRTAB : Z := 3.
Definition MODULE_NO_TEXT : Z := 4.
Definition MODULE_SYMBOL_NOT_FOUND : Z := 5.
Definition MODULE_SEGMENT_NOT_FOUND : Z := 6.
Definition MODULE_NO_STARTPOINT : Z := 7.
Definition MODULE_UNHANDLED_RELOC : Z := 8.
Definition MODULE_OUTPUT_ERROR : Z := 12.

(** include/module/elf.h: the fields that are used, by their offsets *)
Record elf32_rela : Type := mk_rela { r_offset : Z; r_info : Z }.
Definition rela_of (l : list Z) : elf32_rela := mk_rela (le32 l 0) (le32 l 4).

Record elf32_sym : Type := mk_sym { st_name : Z; st_value : Z; st_shndx : Z }.
Definition sizeof_sym : Z := 16.
Definition sym_of (l : list Z) : elf32_sym := mk_sym (le32 l 0) (le32 l 4) (le16 l 14).

Record elf32_ehdr : Type := mk_ehdr {
  e_ident : list Z; e_shoff : Z; e_shentsize : Z; e_shnum : Z; e_shstrndx : Z
}.
Definition sizeof_ehdr : Z := 52.
Definition ehdr_of (l : list Z) : elf32_ehdr :=
  mk_ehdr (take 16 l) (le32 l 32) (le16 l 46) (le16 l 48) (le16 l 50).

Record elf32_shdr : Type := mk_shdr { sh_name : Z; sh_offset : Z; sh_size : Z }.
Definition sizeof_shdr : Z := 40.
Definition shdr_of (l : list Z) : elf32_shdr := mk_shdr (le32 l 0) (le32 l 16) (le32 l 20).

Definition ELF32_R_SYM (info : Z) : Z := Z.shiftr info 8.
Definition ELF32_R_TYPE (info : Z) : Z := u8 info.

Record sec_info : Type := mk_sec {
  s_offset : Z; s_size : Z; s_reloff : Z; s_relsize : Z; s_relas : Z; s_number : Z
}.
Definition zero_sec : sec_info := mk_sec 0 0 0 0 0 0.

(** [enum SEC_TYPE] *)
Definition SEC_TYPE_TEXT : nat := 0.
Definition SEC_TYPE_RODATA : nat := 1.
Definition SEC_TYPE_DATA : nat := 2.
Definition SEC_TYPE_SYMTAB : nat := 3.
Definition SEC_TYPE_STRTAB : nat := 4.
Definition SEC_TYPE_BSS : nat := 5.
Definition SEC_TYPE_MAX : nat := 6.

(** include/module/module.h *)
Definition MODULE_SEG_TEXT : Z := 1.
Definition MODULE_SEG_RODATA : Z := 2.
Definition MODULE_SEG_DATA : Z := 3.
Definition MODULE_SEG_BSS : Z := 4.

(** [struct relevant_section]; [number] is an [unsigned char]. *)
Record relevant_section : Type := mk_rsec { rs_number : Z; rs_offset : Z; rs_address : Z }.

(** [struct k_module], less its [list] (offset 0), its [ops], which are
    [mod_output_ops], and the two functions that are not used. *)
Record k_module : Type := mk_kmod {
  km_base : Z;
  km_offset : Z;
  km_text : relevant_section;
  km_rodata : relevant_section;
  km_data : relevant_section;
  km_bss : relevant_section;
  km_entry : Z
}.
Definition sizeof_kmod : Z := 80.
Definition zero_rsec : relevant_section := mk_rsec 0 0 0.
Definition zero_kmod : k_module := mk_kmod 0 0 zero_rsec zero_rsec zero_rsec zero_rsec 0.

Definition set_out (base offset : Z) (m : k_module) : k_module :=
  mk_kmod base offset (km_text m) (km_rodata m) (km_data m) (km_bss m) (km_entry m).
Definition set_segs (t r d b : relevant_section) (m : k_module) : k_module :=
  mk_kmod (km_base m) (km_offset m) t r d b (km_entry m).
Definition set_entry (e : Z) (m : k_module) : k_module :=
  mk_kmod (km_base m) (km_offset m) (km_text m) (km_rodata m) (km_data m) (km_bss m) e.
Definition at_address (a : Z) (r : relevant_section) : relevant_section := mk_rsec (rs_number r) (rs_offset r) a.

(** [struct elf_info] *)
Record elf_info : Type := mk_elf { input_addr : Z; ehdr : elf32_ehdr; secs : list sec_info }.
Definition sec (elf : elf_info) (i : nat) : sec_info := default zero_sec (secs elf !! i).

Record mst : Type := mk_mst {
  kern : kst;
  mram : mem;
  kmods : gmap Z k_module;
  module_unknown : list Z
}.
Definition set_kern (v : kst) (s : mst) : mst := mk_mst v (mram s) (kmods s) (module_unknown s).
Definition set_mram (v : mem) (s : mst) : mst := mk_mst (kern s) v (kmods s) (module_unknown s).
Definition set_kmods (v : gmap Z k_module) (s : mst) : mst := mk_mst (kern s) (mram s) v (module_unknown s).
Definition set_unknown (v : list Z) (s : mst) : mst := mk_mst (kern s) (mram s) (kmods s) v.

Definition on_kern {A} (m : M kst A) : M mst A := zoom kern set_kern m.
Definition on_mram {A} (m : M mem A) : M mst A := zoom mram set_mram m.
Definition rd_kmod (p : Z) : M mst k_module := t <- gets kmods ;; lift_opt (bad_ptr p) (t !! p).
Definition wr_kmod (p : Z) (f : k_module -> k_module) : M mst unit :=
  m <- rd_kmod p ;; modify (fun s => set_kmods (<[p := f m]> (kmods s)) s).

(** ** Writing a segment *)

Definition start_segment (output addr : Z) : M mst Z := wr_kmod output (set_out addr 0) ;;; ret MODULE_OK.
Definition end_segment (output : Z) : M mst Z := ret MODULE_OK.

Definition write_segment (output : Z) (buf : list Z) : M mst Z :=
  m <- rd_kmod output ;;
  on_mram (write_bytes (u32 (km_base m + km_offset m)) buf) ;;;
  wr_kmod output (fun m => set_out (km_base m) (u32 (km_offset m + Z.of_nat (length buf))) m) ;;;
  ret (Z.of_nat (length buf)).

Definition segment_offset (output : Z) : M mst Z := m <- rd_kmod output ;; ret (km_offset m).

(** [char buffer[16]] *)
Definition copy_segment_data (input offset output len : Z) : M mst Z :=
  loop (S (Z.to_nat len)) (fun '(addr, len) =>
      if 16 <? len then
        buf <- on_mram (read_bytes addr 16) ;;
        res <- write_segment output buf ;;
        if negb (res =? 16) then ret (inr MODULE_OUTPUT_ERROR) else ret (inl (u32 (addr + 16), len - 16))
      else
        buf <- on_mram (read_bytes addr (Z.to_nat len)) ;;
        res <- write_segment output buf ;;
        ret (inr (if negb (res =? len) then MODULE_OUTPUT_ERROR else MODULE_OK))) (u32 (input + offset), len).

Definition elf_seek_read (elf : elf_info) (offset : Z) (len : Z) : M mst (list Z) :=
  on_mram (read_bytes (u32 (input_addr elf + offset)) (Z.to_nat len)).

(** ** Symbols *)

Section Loader.
Context (E : env) {AL : Allocator kst}.
(** kernel/symtab.c: the table of the kernel's symbols, generated by the build *)
Context (table : list symbols) (symbols_nelts : Z).
(** whether the target is ARMv4T *)
Context (arch_4t : bool).
(** [kmod_sem] and [k_module_root] *)
Context (kmod_sem k_module_root : Z).

Definition sym_at (elf : elf_info) (a : Z) : M mst elf32_sym :=
  l <- elf_seek_read elf a sizeof_sym ;; ret (sym_of l).

(** [char name[30]] *)
Definition name_at (elf : elf_info) (st_name : Z) : M mst (list Z) :=
  elf_seek_read elf (u32 (s_offset (sec elf SEC_TYPE_STRTAB) + st_name)) 30.

(** The size of the symbol table is kept in 16 bits. *)
Definition find_local_symbol (elf : elf_info) (symbol : list Z) (this_module : Z) : M mst Z :=
  let symtab := s_offset (sec elf SEC_TYPE_SYMTAB) in
  let symtabsize := u16 (s_size (sec elf SEC_TYPE_SYMTAB)) in
  loop (S (Z.to_nat symtabsize)) (fun a =>
      if a <? u32 (symtab + symtabsize) then
        s <- sym_at elf a ;;
        if negb (st_name s =? 0) then
          name <- name_at elf (st_name s) ;;
          if strcmp_l (c_string name) symbol =? 0 then
            m <- rd_kmod this_module ;;
            let at_ r := ret (inr (u32 (rs_address r + st_value s))) in
            if st_shndx s =? rs_number (km_bss m) then at_ (km_bss m)
            else if st_shndx s =? rs_number (km_data m) then at_ (km_data m)
            else if st_shndx s =? rs_number (km_text m) then at_ (km_text m)
            else ret (inr NULL)
          else ret (inl (u32 (a + sizeof_sym)))
        else ret (inl (u32 (a + sizeof_sym)))
      else ret (inr NULL)) symtab.

(** The segment with a section number. *)
Definition segment_of (m : k_module) (shndx : Z) : option relevant_section :=
  if shndx =? rs_number (km_bss m) then Some (km_bss m)
  else if shndx =? rs_number (km_data m) then Some (km_data m)
  else if shndx =? rs_number (km_rodata m) then Some (km_rodata m)
  else if shndx =? rs_number (km_text m) then Some (km_text m)
  else None.

(** The address that a relocation refers to ([inl]), or the error ([inr]): a named
    symbol is looked up in the kernel, then in the module, then taken for its
    section.  A name without its zero in the buffer is read past the buffer. *)
Definition reloc_addr (elf : elf_info) (output : Z) (rela : elf32_rela) : M mst (Z + Z) :=
  s <- sym_at elf (u32 (s_offset (sec elf SEC_TYPE_SYMTAB) + sizeof_sym * ELF32_R_SYM (r_info rela))) ;;
  if negb (st_name s =? 0) then
    buf <- name_at elf (st_name s) ;;
    if negb (bool_decide (0 ∈ buf)) then fail (BadIndex 30) else
    let name := c_string buf in
    addr <- (fun st => match symtab_lookup table symbols_nelts name with
                       | Ok a => Ok (a, st) | Err e => Err e end) ;;
    addr <- (if addr =? NULL then find_local_symbol elf name output else ret addr) ;;
    if addr =? NULL then
      m <- rd_kmod output ;;
      match segment_of m (st_shndx s) with
      | Some sect => ret (inl (rs_address sect))
      | None => modify (set_unknown (take 29 buf ++ [0])) ;;; ret (inr MODULE_SYMBOL_NOT_FOUND)
      end
    else ret (inl addr)
  else
    m <- rd_kmod output ;;
    match segment_of m (st_shndx s) with
    | Some sect => ret (inl (rs_address sect))
    | None => ret (inr MODULE_SEGMENT_NOT_FOUND)
    end.

(** The four bytes that a relocation writes; [None] for a kind it does not know. *)
Definition reloc_bytes (type : Z) (old : list Z) (addr sectionaddr offset : Z) : option (list Z) :=
  if type =? R_ARM_ABS32 then Some (bytes32 (reloc_abs32 (le32 old 0) addr))
  else if (type =? R_ARM_PC24) || (type =? R_ARM_CALL) || (type =? R_ARM_JUMP24) then
    Some (bytes32 (reloc_branch (le32 old 0) addr (u32 (sectionaddr + offset))))
  else if type =? R_ARM_THM_CALL then
    match reloc_thm_call arch_4t (le16 old 0) (le16 old 2) addr (u32 (sectionaddr + (offset + 4))) with
    | Some (i0, i1) => Some (bytes16 i0 ++ bytes16 i1)
    | None => None
    end
  else None.

(** arch/arm/kernel/module.c *)
Definition apply_relocate (input output sectionoffset sectionaddr : Z) (rela : elf32_rela) (addr : Z) : M mst Z :=
  let type := ELF32_R_TYPE (r_info rela) in
  let elf_addr := u32 (input + sectionoffset + r_offset rela) in
  if (type =? R_ARM_ABS32) || (type =? R_ARM_PC24) || (type =? R_ARM_CALL) || (type =? R_ARM_JUMP24) ||
     (type =? R_ARM_THM_CALL) then
    old <- on_mram (read_bytes elf_addr 4) ;;
    match reloc_bytes type old addr sectionaddr (r_offset rela) with
    | Some l => write_segment output l ;;; ret MODULE_OK
    | None => ret MODULE_UNHANDLED_RELOC
    end
  else ret MODULE_UNHANDLED_RELOC.

(** The sizes of the entries come from [sec[sec_type]] with [sec] already advanced
    by [sec_type]. *)
Definition using_relas (elf : elf_info) (sec_type : nat) : bool :=
  negb (s_relas (sec elf (sec_type + sec_type)) =? 0).

Definition relocate_turn (elf : elf_info) (output sectionbase : Z) (sec_type : nat) (a : Z) : M mst (Z + Z) :=
  let sc := sec elf sec_type in
  let rel_size := if using_relas elf sec_type then 12 else 8 in
  if a <? u32 (s_reloff sc + s_relsize sc) then
    l <- elf_seek_read elf a rel_size ;;
    let rela := rela_of l in
    r <- reloc_addr elf output rela ;;
    match r with
    | inr e => ret (inr e)
    | inl addr =>
        offset <- segment_offset output ;;
        ret_ <- (if offset <? r_offset rela
                 then copy_segment_data (input_addr elf) (u32 (offset + s_offset sc)) output (r_offset rela - offset)
                 else ret MODULE_OK) ;;
        if negb (ret_ =? MODULE_OK) then ret (inr ret_) else
        ret_ <- apply_relocate (input_addr elf) output (s_offset sc) sectionbase rela addr ;;
        if negb (ret_ =? MODULE_OK) then ret (inr ret_) else ret (inl (u32 (a + rel_size)))
    end
  else ret (inr MODULE_OK).

Definition relocate_section (elf : elf_info) (output sectionbase : Z) (sec_type : nat) : M mst Z :=
  loop (S (Z.to_nat (s_relsize (sec elf sec_type)))) (relocate_turn elf output sectionbase sec_type)
    (s_reloff (sec elf sec_type)).

Definition find_module_entry (elf : elf_info) (this_module : Z) : M mst Z :=
  let symtab := s_offset (sec elf SEC_TYPE_SYMTAB) in
  let size := u16 (s_size (sec elf SEC_TYPE_SYMTAB)) in
  loop (S (Z.to_nat size)) (fun a =>
      if a <? u32 (symtab + size) then
        s <- sym_at elf a ;;
        if negb (st_name s =? 0) then
          name <- name_at elf (st_name s) ;;
          if strcmp_l (c_string name) (chars "mod") =? 0 then
            m <- rd_kmod this_module ;; ret (inr (u32 (rs_address (km_data m) + st_value s)))
          else ret (inl (u32 (a + sizeof_sym)))
        else ret (inl (u32 (a + sizeof_sym)))
      else ret (inr NULL)) symtab.

Definition copy_segment (elf : elf_info) (output sectionbase : Z) (sec_type : nat) : M mst Z :=
  start_segment output sectionbase ;;;
  r <- relocate_section elf output sectionbase sec_type ;;
  if negb (r =? MODULE_OK) then ret r else
  offset <- segment_offset output ;;
  r <- copy_segment_data (input_addr elf) (u32 (offset + s_offset (sec elf sec_type))) output
         (u32 (s_size (sec elf sec_type) - offset)) ;;
  if negb (r =? MODULE_OK) then ret r else end_segment output.
(** ** The headers *)

Definition elf_magic_header : list Z := [0x7f; 0x45; 0x4c; 0x46; 0x01; 0x01; 0x01].

(** The header, or the error. *)
Definition elf_header_check (input : Z) : M mst (elf32_ehdr + Z) :=
  l <- on_mram (read_bytes input (Z.to_nat sizeof_ehdr)) ;;
  let h := ehdr_of l in
  ret (if bool_decide (take 7 (e_ident h) = elf_magic_header) then inl h else inr MODULE_BAD_ELF_HEADER).

Definition upd_sec (i : nat) (f : sec_info -> sec_info) (l : list sec_info) : list sec_info := alter f i l.
Definition with_place (off size number : Z) (s : sec_info) : sec_info :=
  mk_sec off size (s_reloff s) (s_relsize s) (s_relas s) number.
Definition with_relocs (relas off size : Z) (s : sec_info) : sec_info :=
  mk_sec (s_offset s) (s_size s) off size relas (s_number s).

(** What the section [i] with this name says about the sections that matter; the
    names are compared as prefixes, in this order. *)
Definition note_section (name : list Z) (i : Z) (sh : elf32_shdr) (l : list sec_info) : list sec_info :=
  let starts c := strncmp_l (length (chars c)) name (chars c) =? 0 in
  let place k := upd_sec k (with_place (sh_offset sh) (sh_size sh) i) l in
  let relocs k relas := upd_sec k (with_relocs relas (sh_offset sh) (sh_size sh)) l in
  let table k := upd_sec k (fun s => with_place (sh_offset sh) (sh_size sh) (s_number s) s) l in
  if starts ".text" then place SEC_TYPE_TEXT
  else if starts ".rel.text" then relocs SEC_TYPE_TEXT 0
  else if starts ".rela.text" then relocs SEC_TYPE_TEXT 1
  else if starts ".rodata" then place SEC_TYPE_RODATA
  else if starts ".rel.rodata" then relocs SEC_TYPE_RODATA 1
  else if starts ".rela.rodata" then relocs SEC_TYPE_RODATA 1
  else if starts ".data" then place SEC_TYPE_DATA
  else if starts ".rel.data" then relocs SEC_TYPE_DATA 0
  else if starts ".rela.data" then relocs SEC_TYPE_DATA 1
  else if starts ".symtab" then table SEC_TYPE_SYMTAB
  else if starts ".strtab" then table SEC_TYPE_STRTAB
  else if starts ".bss" then upd_sec SEC_TYPE_BSS (with_place 0 (sh_size sh) i) l
  else l.

Fixpoint read_sections (input strs shdrsize : Z) (n : nat) (i shdrptr : Z) (l : list sec_info) : M mst (list sec_info) :=
  match n with
  | O => ret l
  | S n =>
      h <- on_mram (read_bytes (u32 (input + shdrptr)) (Z.to_nat sizeof_shdr)) ;;
      let sh := shdr_of h in
      name <- on_mram (read_bytes (u32 (input + u32 (strs + sh_name sh))) 12) ;;
      read_sections input strs shdrsize n (i + 1) (u32 (shdrptr + shdrsize)) (note_section (c_string name) i sh l)
  end.

(** The sections, or the error. *)
Definition elf_get_sec_info (input : Z) (h : elf32_ehdr) : M mst (list sec_info + Z) :=
  on_mram (read_bytes (u32 (input + e_shoff h)) (Z.to_nat sizeof_shdr)) ;;;
  t <- on_mram (read_bytes (u32 (input + u32 (e_shoff h + e_shentsize h * e_shstrndx h))) (Z.to_nat sizeof_shdr)) ;;
  l <- read_sections input (sh_offset (shdr_of t)) (e_shentsize h) (Z.to_nat (e_shnum h)) 0 (e_shoff h)
         (replicate SEC_TYPE_MAX zero_sec) ;;
  let size i := s_size (default zero_sec (l !! i)) in
  ret (if size SEC_TYPE_SYMTAB =? 0 then inr MODULE_NO_SYMTAB
       else if size SEC_TYPE_STRTAB =? 0 then inr MODULE_NO_STRTAB
       else if size SEC_TYPE_TEXT =? 0 then inr MODULE_NO_TEXT
       else inl l).

Definition get_elf_info (input : Z) : M mst (elf_info + Z) :=
  r <- elf_header_check input ;;
  match r with
  | inr e => ret (inr e)
  | inl h =>
      r <- elf_get_sec_info input h ;;
      match r with
      | inr e => ret (inr e)
      | inl l => ret (inl (mk_elf input h l))
      end
  end.

(** ** Segments *)

(** The segment of a type. *)
Definition seg_get (type : Z) (m : k_module) : relevant_section :=
  if type =? MODULE_SEG_TEXT then km_text m
  else if type =? MODULE_SEG_RODATA then km_rodata m
  else if type =? MODULE_SEG_DATA then km_data m
  else km_bss m.
Definition seg_set (type a : Z) (m : k_module) : k_module :=
  let up t r := if type =? t then at_address a r else r in
  set_segs (up MODULE_SEG_TEXT (km_text m)) (up MODULE_SEG_RODATA (km_rodata m))
    (up MODULE_SEG_DATA (km_data m)) (up MODULE_SEG_BSS (km_bss m)) m.

Definition is_segment (type : Z) : bool :=
  (type =? MODULE_SEG_TEXT) || (type =? MODULE_SEG_RODATA) || (type =? MODULE_SEG_DATA) || (type =? MODULE_SEG_BSS).

Definition allocate_segment (output type size : Z) : M mst Z :=
  block <- on_kern (kmalloc size) ;;
  if block =? NULL then ret NULL else
  if is_segment type then
    m <- rd_kmod output ;;
    (if negb (rs_address (seg_get type m) =? NULL) then on_kern (kfree (rs_address (seg_get type m))) else ret tt) ;;;
    wr_kmod output (seg_set type block) ;;;
    ret block
  else on_kern (kfree block) ;;; ret NULL.

Definition free_segment (output type : Z) : M mst unit :=
  if output =? NULL then ret tt else
  if is_segment type then
    m <- rd_kmod output ;;
    if negb (rs_address (seg_get type m) =? NULL) then on_kern (kfree (rs_address (seg_get type m))) else ret tt
  else ret tt.

(** The macro [alloc_segment] *)
Definition alloc_segment (output size type : Z) : M mst unit :=
  if negb (size =? 0) then allocate_segment output type size ;;; ret tt else ret tt.

Definition seg_place (s : sec_info) (r : relevant_section) : relevant_section :=
  mk_rsec (u8 (s_number s)) (s_offset s) (rs_address r).

Definition set_seg_info (elf : elf_info) (output : Z) : M mst unit :=
  wr_kmod output (fun m => set_segs
    (seg_place (sec elf SEC_TYPE_TEXT) (km_text m)) (seg_place (sec elf SEC_TYPE_RODATA) (km_rodata m))
    (seg_place (sec elf SEC_TYPE_DATA) (km_data m)) (seg_place (sec elf SEC_TYPE_BSS) (km_bss m)) m) ;;;
  alloc_segment output (s_size (sec elf SEC_TYPE_BSS)) MODULE_SEG_BSS ;;;
  alloc_segment output (s_size (sec elf SEC_TYPE_TEXT)) MODULE_SEG_TEXT ;;;
  alloc_segment output (s_size (sec elf SEC_TYPE_RODATA)) MODULE_SEG_RODATA ;;;
  alloc_segment output (s_size (sec elf SEC_TYPE_DATA)) MODULE_SEG_DATA.

(** The [i]th section of [output->seg_info] *)
Definition seg_nth (i : nat) (m : k_module) : relevant_section :=
  match i with O => km_text m | 1%nat => km_rodata m | 2%nat => km_data m | _ => km_bss m end.

Definition relocate_one (elf : elf_info) (output : Z) (i : nat) : M mst Z :=
  m <- rd_kmod output ;;
  let address := rs_address (seg_nth i m) in
  if 0 <? s_relsize (sec elf i) then copy_segment elf output address i
  else
    l <- on_mram (read_bytes (u32 (input_addr elf + s_offset (sec elf i))) (Z.to_nat (s_size (sec elf i)))) ;;
    on_mram (write_bytes address l) ;;;
    ret MODULE_OK.

(** The loop over the sections, from [i] on. *)
Fixpoint relocate_from (elf : elf_info) (output : Z) (i n : nat) : M mst Z :=
  match n with
  | O => ret MODULE_OK
  | S n => r <- relocate_one elf output i ;;
           if negb (r =? MODULE_OK) then ret r else relocate_from elf output (S i) n
  end.

(** The loop that clears the segment [bss]. *)
Definition clear_bss (output len : Z) : M mst Z :=
  loop (S (Z.to_nat len)) (fun len =>
      if 16 <? len then
        r <- write_segment output (replicate 16 0) ;;
        if negb (r =? 16) then ret (inr MODULE_OUTPUT_ERROR) else ret (inl (len - 16))
      else
        r <- write_segment output (replicate (Z.to_nat len) 0) ;;
        ret (inr (if negb (r =? s32 len) then MODULE_OUTPUT_ERROR else MODULE_OK))) len.

Definition relocate_segment (elf : elf_info) (output : Z) : M mst Z :=
  r <- relocate_from elf output SEC_TYPE_TEXT (SEC_TYPE_SYMTAB - SEC_TYPE_TEXT) ;;
  if negb (r =? MODULE_OK) then ret r else
  m <- rd_kmod output ;;
  start_segment output (rs_address (km_bss m)) ;;;
  clear_bss output (s_size (sec elf SEC_TYPE_BSS)).

Definition _load_module (input output : Z) : M mst Z :=
  modify (fun s => set_unknown (match module_unknown s with [] => [] | _ :: l => 0 :: l end) s) ;;;
  r <- get_elf_info input ;;
  match r with
  | inr e => ret e
  | inl elf =>
      set_seg_info elf output ;;;
      r <- relocate_segment elf output ;;
      if negb (r =? MODULE_OK) then ret r else
      module <- find_local_symbol elf (chars "mod_entry") output ;;
      if negb (module =? NULL) then wr_kmod output (set_entry module) ;;; ret MODULE_OK
      else find_module_entry elf output ;;; ret MODULE_NO_STARTPOINT
  end.

Definition load_kmodule (input mod_ : Z) : M mst Z :=
  if mod_ =? NULL then ret (-1) else _load_module input mod_.

(** ** The list of modules *)

Definition alloc_kmodule : M mst Z :=
  mod_ <- on_kern (kmalloc sizeof_kmod) ;;
  if mod_ =? NULL then ret NULL else
  on_kern (modify (fun s => set_links (mk_lheap (<[mod_ := 0]> (nx (links s))) (<[mod_ := 0]> (pv (links s)))) s)) ;;;
  modify (fun s => set_kmods (<[mod_ := zero_kmod]> (kmods s)) s) ;;;
  on_kern (down E kmod_sem) ;;;
  on_kern (on_links (list_add_tail mod_ k_module_root)) ;;;
  on_kern (up kmod_sem) ;;;
  ret mod_.

Definition free_kmodule (kmod : Z) : M mst unit :=
  if kmod =? NULL then ret tt else
  on_kern (down E kmod_sem) ;;;
  on_kern (on_links (list_del kmod)) ;;;
  on_kern (up kmod_sem) ;;;
  free_segment kmod MODULE_SEG_TEXT ;;;
  free_segment kmod MODULE_SEG_RODATA ;;;
  free_segment kmod MODULE_SEG_DATA ;;;
  free_segment kmod MODULE_SEG_BSS ;;;
  on_kern (kfree kmod).

(** [struct module_entry] begins with the name, of at most 60 characters. *)
Definition entry_name (m : k_module) : M mst (list Z) :=
  if km_entry m =? NULL then fail NullDeref else
  n <- on_mram (strlen (km_entry m)) ;; on_mram (read_bytes (km_entry m) (Z.to_nat n)).

Definition find_module_by_name (name : list Z) : M mst Z :=
  l <- on_kern (on_links (list_for_each_nodes k_module_root)) ;;
  (fix find (l : list Z) : M mst Z :=
     match l with
     | [] => ret NULL
     | kmod :: l' =>
         m <- rd_kmod kmod ;;
         n <- entry_name m ;;
         if strcmp_l n name =? 0 then ret kmod else find l'
     end) l.

End Loader.

(** ** Reading the image *)

(** [s2] has at least the memory of [s1], and the module [output] with the same
    segments; what reads the image cannot tell them apart. *)
Definition extends (output : Z) (s1 s2 : mst) : Prop :=
  mram s1 ⊆ mram s2 /\
  forall m, kmods s1 !! output = Some m -> exists b o, kmods s2 !! output = Some (set_out b o m).

(** A computation that only reads, and has the same result with more memory. *)
Definition reads_only (output : Z) {A} (c : M mst A) : Prop :=
  forall s1 s2 a t, extends output s1 s2 -> c s1 = Ok (a, t) -> t = s1 /\ c s2 = Ok (a, s2).
(** The same for the results that are addresses. *)
Definition finds_only (output : Z) {A B} (c : M mst (A + B)) : Prop :=
  forall s1 s2 a t, extends output s1 s2 -> c s1 = Ok (inl a, t) -> t = s1 /\ c s2 = Ok (inl a, s2).

Section ReadsOnly.
Context (output : Z).

Lemma ro_ret {A} (a : A) : reads_only output (ret a).
Proof. intros s1 s2 x t _ [= <- <-]. done. Qed.

Lemma ro_fail {A} e : reads_only output (fail (A := A) e).
Proof. intros s1 s2 x t _ [=]. Qed.

Lemma ro_bind {A B} (c : M mst A) (k : A -> M mst B) :
  reads_only output c -> (forall a, reads_only output (k a)) -> reads_only output (bind c k).
Proof.
  intros Hc Hk s1 s2 x t Hx. unfold bind. destruct (c s1) as [[a t1]|] eqn:E1; [|done]. intros E2.
  destruct (Hc s1 s2 a t1 Hx E1) as [-> ->]. by apply (Hk a s1 s2).
Qed.

Lemma fo_bind {A B C} (c : M mst A) (k : A -> M mst (B + C)) :
  reads_only output c -> (forall a, finds_only output (k a)) -> finds_only output (bind c k).
Proof.
  intros Hc Hk s1 s2 x t Hx. unfold bind. destruct (c s1) as [[a t1]|] eqn:E1; [|done]. intros E2.
  destruct (Hc s1 s2 a t1 Hx E1) as [-> ->]. by apply (Hk a s1 s2).
Qed.

Lemma fo_ro {A B} (c : M mst (A + B)) : reads_only output c -> finds_only output c.
Proof. intros Hc s1 s2 a t Hx E. by apply (Hc s1 s2). Qed.

Lemma fo_error {A B C} (c : M mst C) (b : B) : finds_only output (A := A) (c ;;; ret (inr b)).
Proof. intros s1 s2 a t _. unfold bind. by destruct (c s1) as [[]|]. Qed.

Lemma fo_inr {A B} (b : B) : finds_only output (A := A) (ret (inr b)).
Proof. intros s1 s2 a t _ [=]. Qed.

Lemma ro_loop {A B} n (body : A -> M mst (A + B)) :
  (forall a, reads_only output (body a)) -> forall a, reads_only output (loop n body a).
Proof.
  intros Hb. induction n as [|n IH]; intros a; cbn [loop]; [apply ro_fail|].
  apply ro_bind; [apply Hb|]. intros [a'|b]; [apply IH|apply ro_ret].
Qed.

Lemma read_bytes_mono n : forall a m1 m2 l t,
  m1 ⊆ m2 -> read_bytes a n m1 = Ok (l, t) -> t = m1 /\ read_bytes a n m2 = Ok (l, m2).
Proof.
  induction n as [|n IH]; intros a m1 m2 l t Hsub; cbn [read_bytes].
  - by intros [= <- <-].
  - unfold bind, rd8, bind, gets, id. destruct (m1 !! a) as [c|] eqn:Ec; [|done]. cbn [lift_opt ret].
    rewrite (lookup_weaken _ _ _ _ Ec Hsub). cbn [lift_opt ret].
    destruct (read_bytes (a + 1) n m1) as [[l' t']|] eqn:El; [|done]. cbn. intros [= <- <-].
    destruct (IH _ _ _ _ _ Hsub El) as [-> ->]. done.
Qed.

Lemma ro_seek_read elf off len : reads_only output (elf_seek_read elf off len).
Proof.
  intros s1 s2 l t [Hsub _]. unfold elf_seek_read, on_mram, zoom.
  destruct (read_bytes _ _ (mram s1)) as [[l' t']|] eqn:E; [|done]. intros [= <- <-].
  destruct (read_bytes_mono _ _ _ _ _ _ Hsub E) as [-> ->]. by destruct s1, s2.
Qed.

(** The module may be looked at, but not where it is being written. *)
Lemma ro_kmod {A} (k : k_module -> M mst A) :
  (forall m b o, k (set_out b o m) = k m) -> (forall m, reads_only output (k m)) ->
  reads_only output (m <- rd_kmod output ;; k m).
Proof.
  intros Hset Hk s1 s2 x t Hx. unfold rd_kmod, bind, gets. destruct (kmods s1 !! output) as [m|] eqn:E; [|done].
  cbn. intros Er. destruct (proj2 Hx m E) as (b & o & ->). cbn. rewrite Hset. by apply (Hk m s1 s2).
Qed.

Lemma fo_kmod {A B} (k : k_module -> M mst (A + B)) :
  (forall m b o, k (set_out b o m) = k m) -> (forall m, finds_only output (k m)) ->
  finds_only output (m <- rd_kmod output ;; k m).
Proof.
  intros Hset Hk s1 s2 x t Hx. unfold rd_kmod, bind, gets. destruct (kmods s1 !! output) as [m|] eqn:E; [|done].
  cbn. intros Er. destruct (proj2 Hx m E) as (b & o & ->). cbn. rewrite Hset. by apply (Hk m s1 s2).
Qed.

Lemma ro_find_local_symbol elf symbol : reads_only output (find_local_symbol elf symbol output).
Proof.
  apply ro_loop. intros a. destruct (a <? _); [|apply ro_ret].
  apply ro_bind; [apply ro_bind; [apply ro_seek_read|intros; apply ro_ret]|]. intros s.
  destruct (negb (st_name s =? 0)); [|apply ro_ret]. apply ro_bind; [apply ro_seek_read|]. intros name.
  destruct (strcmp_l (c_string name) symbol =? 0); [|apply ro_ret]. apply ro_kmod; [done|]. intros m.
  repeat (case_match; [apply ro_ret|]). apply ro_ret.
Qed.

Lemma fo_reloc_addr table nelts elf rela : finds_only output (reloc_addr table nelts elf output rela).
Proof.
  unfold reloc_addr. apply fo_bind; [apply ro_bind; [apply ro_seek_read|intros; apply ro_ret]|]. intros s.
  destruct (negb (st_name s =? 0)).
  - apply fo_bind; [apply ro_seek_read|]. intros buf.
    destruct (negb (bool_decide (0 ∈ buf))); [apply fo_ro, ro_fail|]. cbn zeta.
    apply fo_bind.
    { intros s1 s2 a t _. destruct (symtab_lookup table nelts (c_string buf)); [|done]. by intros [= <- <-]. }
    intros addr. apply fo_bind; [destruct (addr =? NULL); [apply ro_find_local_symbol|apply ro_ret]|]. intros addr'.
    destruct (addr' =? NULL); [|apply fo_ro, ro_ret]. apply fo_kmod; [done|]. intros m.
    destruct (segment_of m (st_shndx s)); [apply fo_ro, ro_ret|apply fo_error].
  - apply fo_kmod; [done|]. intros m. destruct (segment_of m (st_shndx s)); [apply fo_ro, ro_ret|apply fo_inr].
Qed.

End ReadsOnly.

Lemma stored_app m m1 m2 a l1 l2 :
  stored m m1 a l1 -> stored m1 m2 (a + Z.of_nat (length l1)) l2 -> stored m m2 a (l1 ++ l2).
Proof.
  intros [I1 O1] [I2 O2]. split.
  - apply bytes_app. split; [|done]. eapply bytes_ext; [|exact I1]. intros b Hb. apply O2. lia.
  - rewrite length_app. intros b Hb. rewrite O2, O1 by lia. done.
Qed.

Lemma stored_nil m a : stored m m a [].
Proof. by split. Qed.

Lemma bytes_mono m1 m2 l : forall a, m1 ⊆ m2 -> bytes m1 a l -> bytes m2 a l.
Proof.
  induction l as [|c l IH]; intros a Hs; [done|]. intros [Hc Hb]. split; [by eapply lookup_weaken|by apply IH].
Qed.

Lemma reloc_bytes_ok arch type old addr base off l :
  reloc_bytes arch type old addr base off = Some l -> length l = 4%nat /\ Forall byte l.
Proof.
  unfold reloc_bytes. intros H.
  repeat (case_match; simplify_eq; try (split; [done|apply bytes32_byte]);
    try (split; [done|apply Forall_app; split; apply bytes16_byte])).
Qed.

(** The four bytes of a relocation are read only for the kinds there are. *)
Lemma reloc_bytes_known arch type old addr base off l :
  reloc_bytes arch type old addr base off = Some l ->
  (type =? R_ARM_ABS32) || (type =? R_ARM_PC24) || (type =? R_ARM_CALL) || (type =? R_ARM_JUMP24) ||
     (type =? R_ARM_THM_CALL) = true.
Proof.
  unfold reloc_bytes. destruct (type =? R_ARM_ABS32), (type =? R_ARM_PC24), (type =? R_ARM_CALL),
    (type =? R_ARM_JUMP24), (type =? R_ARM_THM_CALL); try done.
Qed.

(** What a section becomes, from its bytes and its relocations with the addresses
    of their symbols: between the relocated words, which must not overlap and come
    in order, the bytes are as they are. *)
Fixpoint patch (arch : bool) (base : Z) (data : list Z) (o : Z) (items : list (elf32_rela * Z)) : option (list Z) :=
  match items with
  | [] => Some (drop (Z.to_nat o) data)
  | (r, addr) :: items' =>
      if (o <=? r_offset r) && (r_offset r + 4 <=? Z.of_nat (length data)) then
        match reloc_bytes arch (ELF32_R_TYPE (r_info r)) (take 4 (drop (Z.to_nat (r_offset r)) data)) addr base (r_offset r),
              patch arch base data (r_offset r + 4) items' with
        | Some l, Some t => Some (take (Z.to_nat (r_offset r - o)) (drop (Z.to_nat o) data) ++ l ++ t)
        | _, _ => None
        end
      else None
  end.

Lemma patch_length arch base data items : forall o l,
  0 <= o <= Z.of_nat (length data) -> patch arch base data o items = Some l ->
  Z.of_nat (length l) = Z.of_nat (length data) - o.
Proof.
  induction items as [|[r addr] items IH]; intros o l Ho; cbn [patch].
  - intros [= <-]. rewrite length_drop. lia.
  - destruct (Z.leb_spec o (r_offset r)); [|done]. destruct (Z.leb_spec (r_offset r + 4) (Z.of_nat (length data))); [|done].
    cbn [andb]. destruct (reloc_bytes _ _ _ _ _ _) as [b|] eqn:Eb; [|done].
    destruct (patch _ _ _ _ items) as [t|] eqn:Et; [|done]. intros [= <-].
    apply reloc_bytes_ok in Eb as [Eb _]. apply IH in Et; [|lia].
    rewrite !length_app, length_take, length_drop. lia.
Qed.

Section Copy.
Context (sI : mst) (img : mem) (output base size : Z) (m0 : k_module).
Context (Hout : kmods sI !! output = Some m0).
Context (Himg : img ⊆ mram sI).
Context (Hbase : 0 <= base) (Hfit : base + size < 4294967296).
Context (Hroom : mapped (mram sI) base size).
Context (Hdisj : forall a, is_Some (img !! a) -> ~ (base <= a < base + size)).

(** The state while the segment is being written: the bytes [out] so far. *)
Definition written (out : list Z) (s : mst) : Prop :=
  Z.of_nat (length out) <= size /\
  exists m', s = set_kmods (<[output := set_out base (Z.of_nat (length out)) m0]> (kmods sI)) (set_mram m' sI) /\
    stored (mram sI) m' base out.

Lemma written_img out s : written out s -> img ⊆ mram s.
Proof.
  intros (Hl & m' & -> & _ & Ho). cbn. apply map_subseteq_spec. intros a c Hc.
  rewrite Ho; [by eapply lookup_weaken|]. specialize (Hdisj a ltac:(by rewrite Hc)). lia.
Qed.

Lemma written_extends out s : written out s -> extends output (set_mram img sI) s.
Proof.
  intros Hw. split; [by eapply written_img|]. destruct Hw as (_ & m' & -> & _). cbn. intros m Hm.
  rewrite Hout in Hm. injection Hm as <-. eexists _, _. apply lookup_insert_eq.
Qed.

Lemma wp_write_segment out l s (Q : Z -> mst -> Prop) :
  written out s -> Forall byte l -> Z.of_nat (length out + length l) <= size ->
  (forall s', written (out ++ l) s' -> Q (Z.of_nat (length l)) s') -> wp (write_segment output l) Q s.
Proof.
  intros (Hl & m' & -> & Hst) Hb Hle HQ. unfold write_segment, rd_kmod, wr_kmod, rd_kmod, on_mram. wp_simpl. cbn [kmods set_kmods].
  rewrite lookup_insert_eq. wp_simpl. cbn [km_base km_offset set_out mram set_kmods set_mram].
  rewrite u32_small by lia. eapply wp_write_bytes; [done| |].
  - intros i Hi. destruct Hst as [Hin Ho].
    destruct (decide (base <= base + Z.of_nat (length out) + i < base + Z.of_nat (length out))); [lia|].
    rewrite Ho by done. rewrite <- Z.add_assoc. apply Hroom. lia.
  - intros m2 Hst2. wp_simpl. cbn [kmods set_kmods set_mram]. rewrite lookup_insert_eq. wp_simpl.
    cbn [km_base km_offset set_out]. rewrite u32_small by lia. apply HQ. split; [by rewrite length_app|]. exists m2.
    rewrite length_app, Nat2Z.inj_add. split; [|by eapply stored_app].
    cbn. unfold set_kmods, set_mram, set_out. cbn. by rewrite insert_insert_eq.
Qed.

Lemma wp_segment_offset out s (Q : Z -> mst -> Prop) :
  written out s -> Q (Z.of_nat (length out)) s -> wp (segment_offset output) Q s.
Proof.
  intros (Hl & m' & -> & Hst) HQ. unfold segment_offset, rd_kmod. wp_simpl. cbn [kmods set_kmods].
  rewrite lookup_insert_eq. by wp_simpl.
Qed.

Lemma wp_read_img a l out s (Q : list Z -> mst -> Prop) :
  written out s -> bytes img a l -> Q l s -> wp (on_mram (read_bytes a (length l))) Q s.
Proof.
  intros Hw Hb HQ. unfold on_mram. wp_simpl. eapply wp_intro; [apply read_bytes_eq|].
  - eapply bytes_mono; [by eapply written_img|done].
  - by destruct s.
Qed.

Lemma wp_copy_loop fuel : forall a l out s (Q : Z -> mst -> Prop),
  written out s -> Forall byte l -> Z.of_nat (length out + length l) <= size ->
  bytes img a l -> 0 <= a -> a + Z.of_nat (length l) < 4294967296 -> (length l < fuel)%nat ->
  (forall s', written (out ++ l) s' -> Q MODULE_OK s') ->
  wp (loop fuel (fun '(addr, len) =>
      if 16 <? len then
        buf <- on_mram (read_bytes addr 16) ;;
        res <- write_segment output buf ;;
        if negb (res =? 16) then ret (inr MODULE_OUTPUT_ERROR) else ret (inl (u32 (addr + 16), len - 16))
      else
        buf <- on_mram (read_bytes addr (Z.to_nat len)) ;;
        res <- write_segment output buf ;;
        ret (inr (if negb (res =? len) then MODULE_OUTPUT_ERROR else MODULE_OK))) (a, Z.of_nat (length l))) Q s.
Proof.
  induction fuel as [|fuel IH]; intros a l out s Q Hw Hb Hle Hi Ha Hal Hf HQ; [lia|]. cbn [loop]. wp_simpl.
  destruct (Z.ltb_spec 16 (Z.of_nat (length l))).
  - assert (Hlt : length (take 16 l) = 16%nat) by (apply length_take_le; lia).
    assert (Hbs := Hi). rewrite <- (take_drop 16 l) in Hbs. apply bytes_app in Hbs as [Hi1 Hi2]. rewrite Hlt in Hi2.
    wp_simpl. rewrite <- Hlt at 1. eapply wp_read_img; [exact Hw|exact Hi1|]. wp_simpl.
    eapply wp_write_segment; [exact Hw|by apply Forall_take|rewrite Hlt; lia|]. intros s' Hw'. rewrite Hlt.
    cbn [negb Z.eqb]. change (Z.of_nat 16 =? 16) with true. cbn [negb]. wp_simpl. rewrite u32_small by lia.
    replace (Z.of_nat (length l) - 16) with (Z.of_nat (length (drop 16 l))) by (rewrite length_drop; lia).
    eapply (IH (a + 16) (drop 16 l)); [exact Hw'|by apply Forall_drop| |exact Hi2|lia| | |].
    + rewrite !length_app, Hlt, length_drop. lia.
    + rewrite length_drop. lia.
    + rewrite length_drop. lia.
    + rewrite <- app_assoc, take_drop. done.
  - rewrite Nat2Z.id. wp_simpl. eapply wp_read_img; [exact Hw|exact Hi|]. wp_simpl.
    eapply wp_write_segment; [exact Hw|done|done|]. intros s' Hw'. rewrite Z.eqb_refl. cbn [negb]. wp_simpl. by apply HQ.
Qed.

Lemma wp_copy_segment_data input off l out s (Q : Z -> mst -> Prop) :
  written out s -> Forall byte l -> Z.of_nat (length out + length l) <= size ->
  bytes img (input + off) l -> 0 <= input + off -> input + off + Z.of_nat (length l) < 4294967296 ->
  (forall s', written (out ++ l) s' -> Q MODULE_OK s') ->
  wp (copy_segment_data input off output (Z.of_nat (length l))) Q s.
Proof.
  intros Hw Hb Hle Hi H0 Hal HQ. unfold copy_segment_data. rewrite u32_small by lia.
  eapply wp_copy_loop; [exact Hw|done|done|done|done|done|lia|done].
Qed.

(** ** Relocating a section *)

Context (table : list symbols) (nelts : Z) (arch : bool) (elf : elf_info) (sec_type : nat) (data : list Z).
Notation sc := (sec elf sec_type).
Notation rel_size := (if using_relas elf sec_type then 12 else 8).
Context (Hsize : s_size sc = size) (Hlen : Z.of_nat (length data) = size) (Hdata : Forall byte data).
Context (Hin : 0 <= input_addr elf) (Hoff : 0 <= s_offset sc).
Context (Hsec : bytes img (input_addr elf + s_offset sc) data).
Context (Hsecfit : input_addr elf + s_offset sc + size < 4294967296).
Context (Hrel : 0 <= s_reloff sc) (Hrelfit : s_reloff sc + s_relsize sc < 4294967280).

(** The relocations [items] are the entries from [a] on, and each one's symbol is
    found in the image, in the module or in the kernel. *)
Fixpoint relocs_at (a : Z) (items : list (elf32_rela * Z)) : Prop :=
  match items with
  | [] => a = s_reloff sc + s_relsize sc
  | (r, addr) :: items' =>
      a < s_reloff sc + s_relsize sc /\
      (exists l, elf_seek_read elf a rel_size (set_mram img sI) = Ok (l, set_mram img sI) /\ rela_of l = r) /\
      reloc_addr table nelts elf output r (set_mram img sI) = Ok (inl addr, set_mram img sI) /\
      relocs_at (a + rel_size) items'
  end.

Lemma relocs_at_le items : forall a, relocs_at a items -> a + Z.of_nat (length items) <= s_reloff sc + s_relsize sc.
Proof.
  induction items as [|[r addr] items IH]; intros a; cbn [relocs_at length]; [lia|]. intros (Ha & _ & _ & Hr).
  apply IH in Hr. destruct (using_relas elf sec_type); lia.
Qed.

Lemma wp_reads {A} (c : M mst A) out s a (Q : A -> mst -> Prop) :
  reads_only output c -> written out s -> c (set_mram img sI) = Ok (a, set_mram img sI) -> Q a s -> wp c Q s.
Proof.
  intros Hc Hw E HQ. eapply wp_intro; [|exact HQ]. eapply Hc; [by eapply written_extends|exact E].
Qed.

Lemma data_slice o n : 0 <= o -> 0 <= n -> o + n <= size ->
  bytes img (input_addr elf + (o + s_offset sc)) (take (Z.to_nat n) (drop (Z.to_nat o) data)).
Proof.
  intros Ho Hn Hle. replace (input_addr elf + (o + s_offset sc)) with (input_addr elf + s_offset sc + Z.of_nat (Z.to_nat o)) by lia.
  apply bytes_slice; [lia|done].
Qed.

(** The bytes from [o] on, [n] of them, copied behind the [o] that are written. *)
Lemma wp_copy_slice out s n (Q : Z -> mst -> Prop) :
  let o := Z.of_nat (length out) in
  written out s -> 0 <= n -> o + n <= size ->
  (forall s', written (out ++ take (Z.to_nat n) (drop (Z.to_nat o) data)) s' -> Q MODULE_OK s') ->
  wp (copy_segment_data (input_addr elf) (u32 (o + s_offset sc)) output n) Q s.
Proof.
  intros o Hw Hn Hle HQ. rewrite u32_small by lia.
  assert (Hl : length (take (Z.to_nat n) (drop (Z.to_nat o) data)) = Z.to_nat n) by (rewrite length_take, length_drop; lia).
  replace n with (Z.of_nat (length (take (Z.to_nat n) (drop (Z.to_nat o) data)))) at 1 by lia.
  eapply wp_copy_segment_data; [exact Hw| | | | | |exact HQ]; rewrite ?Hl; try lia.
  - by apply Forall_take, Forall_drop.
  - apply data_slice; lia.
Qed.

(** One relocation: the bytes before it, and the relocated word. *)
Lemma wp_relocate_turn a r addr items out t s (Q : Z + Z -> mst -> Prop) :
  relocs_at a ((r, addr) :: items) -> 0 <= a -> 0 <= r_offset r -> written out s ->
  patch arch base data (Z.of_nat (length out)) ((r, addr) :: items) = Some t ->
  (forall out' t' s', written out' s' -> patch arch base data (Z.of_nat (length out')) items = Some t' ->
     out ++ t = out' ++ t' -> Q (inl (a + rel_size)) s') ->
  wp (relocate_turn table nelts arch elf output base sec_type a) Q s.
Proof.
  intros (Ha & (l & Hl & Hr) & Haddr & Hrest) Ha0 Hro Hw Hp HQ. cbn [patch] in Hp. pose proof Hw as (Hwl & _).
  destruct (Z.leb_spec (Z.of_nat (length out)) (r_offset r)) as [Hor|]; [|done].
  destruct (Z.leb_spec (r_offset r + 4) (Z.of_nat (length data))) as [Hre|]; [|done]. cbn [andb] in Hp.
  destruct (reloc_bytes _ _ _ _ _ _) as [b|] eqn:Eb; [|done]. destruct (patch _ _ _ _ items) as [t'|] eqn:Et; [|done].
  injection Hp as <-. destruct (reloc_bytes_ok _ _ _ _ _ _ _ Eb) as [Hbl Hbb].
  unfold relocate_turn. rewrite (u32_small (s_reloff sc + _)) by (destruct (using_relas elf sec_type); lia).
  destruct (Z.ltb_spec a (s_reloff sc + s_relsize sc)); [|lia]. wp_simpl.
  eapply wp_reads; [apply ro_seek_read|exact Hw|exact Hl|]. wp_simpl. rewrite Hr.
  eapply wp_intro; [eapply fo_reloc_addr; [by eapply written_extends|exact Haddr]|].
  cbv beta iota. wp_simpl.
  eapply wp_segment_offset; [exact Hw|]. wp_simpl.
  set (pre := take (Z.to_nat (r_offset r - Z.of_nat (length out))) (drop (Z.to_nat (Z.of_nat (length out))) data)).
  assert (Hpre : length pre = Z.to_nat (r_offset r - Z.of_nat (length out))) by (unfold pre; rewrite length_take, length_drop; lia).
  assert (Happly : forall s', written (out ++ pre) s' -> wp (ret_ <- apply_relocate arch (input_addr elf) output (s_offset sc) base r addr ;;
    if negb (ret_ =? MODULE_OK) then ret (inr ret_) else ret (inl (u32 (a + rel_size)))) Q s').
  { intros s' Hw'. unfold apply_relocate. rewrite (reloc_bytes_known _ _ _ _ _ _ _ Eb). wp_simpl.
    rewrite u32_small by lia. set (old := take 4 (drop (Z.to_nat (r_offset r)) data)) in *.
    assert (Hold : length old = 4%nat) by (unfold old; rewrite length_take, length_drop; lia).
    rewrite <- Hold at 1. eapply wp_read_img; [exact Hw'| |].
    { replace (input_addr elf + s_offset sc + r_offset r) with (input_addr elf + (r_offset r + s_offset sc)) by lia.
      apply (data_slice (r_offset r) 4); lia. }
    rewrite Eb. wp_simpl. eapply wp_write_segment; [exact Hw'|done|rewrite length_app; lia|].
    intros s2 Hw2. wp_simpl. cbn [negb Z.eqb MODULE_OK]. wp_simpl. rewrite u32_small by (destruct (using_relas elf sec_type); lia).
    eapply (HQ ((out ++ pre) ++ b) t'); [exact Hw2| |by rewrite <- !app_assoc].
    rewrite !length_app. replace (Z.of_nat (length out + length pre + length b)) with (r_offset r + 4) by lia. done. }
  destruct (Z.ltb_spec (Z.of_nat (length out)) (r_offset r)).
  - eapply wp_copy_slice; [exact Hw|lia|lia|]. intros s' Hw'. cbn [negb Z.eqb MODULE_OK].
    pose proof (Happly s' Hw') as Hx. revert Hx. wp_simpl. exact (fun H => H).
  - assert (pre = []) as E0 by (apply length_zero_iff_nil; lia). wp_simpl. cbn [negb Z.eqb MODULE_OK].
    rewrite E0, app_nil_r in Happly. pose proof (Happly s Hw) as Hx. revert Hx. wp_simpl. exact (fun H => H).
Qed.

Lemma wp_relocate_loop items : forall fuel a out t s (Q : Z -> mst -> Prop),
  relocs_at a items -> 0 <= a -> Forall (fun p => 0 <= r_offset p.1) items -> written out s ->
  patch arch base data (Z.of_nat (length out)) items = Some t -> (length items < fuel)%nat ->
  (forall out' s', written out' s' -> out ++ t = out' ++ drop (length out') data -> Q MODULE_OK s') ->
  wp (loop fuel (relocate_turn table nelts arch elf output base sec_type) a) Q s.
Proof.
  induction items as [|[r addr] items IH]; intros fuel a out t s Q Hr Ha0 Hpos Hw Hp Hf HQ;
    (destruct fuel as [|fuel]; [lia|]); cbn [loop]; wp_simpl.
  - cbn in Hr. unfold relocate_turn. rewrite u32_small by lia. rewrite Hr, Z.ltb_irrefl. wp_simpl.
    eapply HQ; [exact Hw|]. cbn [patch] in Hp. injection Hp as <-. by rewrite Nat2Z.id.
  - apply Forall_cons in Hpos as [Hp0 Hpos]. eapply wp_relocate_turn; [exact Hr|done|done|exact Hw|exact Hp|].
    intros out' t' s' Hw' Hp' E. wp_simpl. destruct Hr as (_ & _ & _ & Hr).
    eapply (IH fuel _ out' t'); [exact Hr| |done|exact Hw'|exact Hp'|cbn in Hf; lia|].
    + destruct (using_relas elf sec_type); lia.
    + intros out2 s2 Hw2 E2. eapply HQ; [exact Hw2|]. by rewrite E.
Qed.

Lemma wp_copy_segment items l (Q : Z -> mst -> Prop) :
  relocs_at (s_reloff sc) items -> Forall (fun p => 0 <= r_offset p.1) items -> 0 <= size ->
  patch arch base data 0 items = Some l ->
  (forall s', written l s' -> Q MODULE_OK s') ->
  wp (copy_segment table nelts arch elf output base sec_type) Q sI.
Proof.
  intros Hr Hpos Hs0 Hp HQ. unfold copy_segment, start_segment, wr_kmod, rd_kmod. wp_simpl. rewrite Hout. wp_simpl.
  unfold relocate_section. eapply (wp_relocate_loop items _ _ [] l); [exact Hr|lia|done| |exact Hp| |].
  - split; [cbn; lia|]. exists (mram sI). split; [by destruct sI|apply stored_nil].
  - pose proof (relocs_at_le _ _ Hr). lia.
  - intros out' s' Hw E. cbn [negb Z.eqb MODULE_OK]. wp_simpl. eapply wp_segment_offset; [exact Hw|]. wp_simpl.
    pose proof Hw as (Hwl & _). rewrite Hsize, (u32_small (size - _)) by lia.
    eapply wp_copy_slice; [exact Hw|lia|lia|]. intros s2 Hw2. cbn [negb Z.eqb MODULE_OK]. unfold end_segment. wp_simpl.
    apply HQ. rewrite Nat2Z.id, take_ge in Hw2 by (rewrite length_drop; lia). cbn in E. by rewrite E.
Qed.

End Copy.

(** ** Properties *)

(** A section [sec_type] with the bytes [data] and the relocations [items] in the
    image [img], and room for it at [base], apart from the image. *)
Record loadable (table : list symbols) (nelts : Z) (elf : elf_info) (sec_type : nat) (img : mem) (data : list Z)
    (items : list (elf32_rela * Z)) (output base : Z) (s : mst) : Prop := {
  ld_module : is_Some (kmods s !! output);
  ld_img : img ⊆ mram s;
  ld_base : 0 <= base /\ base + s_size (sec elf sec_type) < 4294967296;
  ld_room : mapped (mram s) base (s_size (sec elf sec_type));
  ld_apart : forall a, is_Some (img !! a) -> ~ (base <= a < base + s_size (sec elf sec_type));
  ld_size : Z.of_nat (length data) = s_size (sec elf sec_type);
  ld_bytes : Forall byte data;
  ld_place : 0 <= input_addr elf /\ 0 <= s_offset (sec elf sec_type) /\
    input_addr elf + s_offset (sec elf sec_type) + s_size (sec elf sec_type) < 4294967296;
  ld_data : bytes img (input_addr elf + s_offset (sec elf sec_type)) data;
  ld_rel : 0 <= s_reloff (sec elf sec_type) /\ s_reloff (sec elf sec_type) + s_relsize (sec elf sec_type) < 4294967280;
  ld_offsets : Forall (fun p => 0 <= r_offset p.1) items;
  ld_relocs : relocs_at s img output table nelts elf sec_type (s_reloff (sec elf sec_type)) items
}.

(** [C11] Loading a section: for relocations in the order of their offsets that do
    not overlap and whose symbols are found, [copy_segment] returns [MODULE_OK] and
    leaves in the segment exactly the section with every relocated word replaced,
    and no other memory is touched.  The 16-byte pieces that the copy is made in do
    not show. *)
Theorem copy_segment_patches table nelts arch elf sec_type img data items output base s l :
  loadable table nelts elf sec_type img data items output base s ->
  patch arch base data 0 items = Some l ->
  exists s', copy_segment table nelts arch elf output base sec_type s = Ok (MODULE_OK, s') /\
    stored (mram s) (mram s') base l /\ Z.of_nat (length l) = s_size (sec elf sec_type) /\ kern s' = kern s.
Proof.
  intros [[m0 Hm] Hi [Hb Hbf] Hr Ha Hs Hd (Hp1 & Hp2 & Hp3) Hdt [Hr1 Hr2] Ho Hrel] Hp.
  destruct (wp_elim (copy_segment table nelts arch elf output base sec_type)
    (fun r s' => r = MODULE_OK /\ written s output base (s_size (sec elf sec_type)) m0 l s') s) as (r & s' & E & -> & Hw).
  { eapply (wp_copy_segment s img output base (s_size (sec elf sec_type)) m0 Hm Hi Hb Hbf Hr Ha); try done; lia. }
  destruct Hw as (_ & m' & Es & Hst). exists s'. rewrite Es at 2 3. cbn. split_and!; try done.
  rewrite (patch_length _ _ _ _ 0 l) by (done || lia). lia.
Qed.

(** A module at 0x200000 with 8 bytes of text: a call of [printk], which the kernel
    exports, and the address of the module's own [mod_entry], which is the second
    word. *)
Definition demo_sh (name offset size : Z) : list Z :=
  bytes32 name ++ replicate 12 0 ++ bytes32 offset ++ bytes32 size ++ replicate 16 0.
Definition demo_text : list Z := bytes32 0xebfffffe ++ bytes32 0.
Definition demo_elf (ident : list Z) (text_name : Z) : list Z :=
  ident ++ replicate 16 0 ++ bytes32 200 ++ replicate 10 0 ++ bytes16 40 ++ bytes16 6 ++ bytes16 5 ++
  demo_text ++
  (bytes32 0 ++ bytes32 (256 + R_ARM_CALL)) ++ (bytes32 4 ++ bytes32 (512 + R_ARM_ABS32)) ++
  replicate 16 0 ++ (bytes32 1 ++ replicate 12 0) ++ (bytes32 8 ++ bytes32 4 ++ replicate 6 0 ++ bytes16 1) ++
  (0 :: chars "printk" ++ 0 :: chars "mod_entry" ++ [0]) ++
  (0 :: chars ".text" ++ 0 :: chars ".rel.text" ++ 0 :: chars ".symtab" ++ 0 :: chars ".strtab" ++ 0 ::
   chars ".shstrtab" ++ [0]) ++ replicate 15 0 ++
  demo_sh 0 0 0 ++ demo_sh text_name 52 8 ++ demo_sh 7 60 16 ++ demo_sh 17 76 48 ++ demo_sh 25 124 18 ++ demo_sh 33 142 43.
Definition elf_ident : list Z := elf_magic_header ++ replicate 9 0.
Definition demo_img (l : list Z) : mem := list_to_map (zip (seqZ 0x200000 (Z.of_nat (length l))) l).
Definition demo_room (a n : Z) : mem := list_to_map ((fun i => (i, 0xa5)) <$> seqZ a n).
Definition demo_ksyms : list symbols := generated [(chars "printk", 0x00108000)].
Definition demo_info : elf_info :=
  mk_elf 0x200000 (ehdr_of (take 52 (demo_elf elf_ident 1)))
    [mk_sec 52 8 60 16 0 1; zero_sec; zero_sec; mk_sec 76 48 0 0 0 0; mk_sec 124 18 0 0 0 0; zero_sec].
Definition demo_kmod : k_module :=
  mk_kmod 0 0 (mk_rsec 1 52 0x300000) zero_rsec zero_rsec zero_rsec 0.
Definition demo_loading (k : kst) : mst :=
  mk_mst k (demo_room 0x300000 8 ∪ demo_img (demo_elf elf_ident 1)) {[ 500 := demo_kmod ]} [].

Lemma demo_img_dom l a : is_Some (demo_img l !! a) -> 0x200000 <= a < 0x200000 + Z.of_nat (length l).
Proof.
  intros [c Hc]. apply elem_of_list_to_map_2, elem_of_zip_l, elem_of_seqZ in Hc. lia.
Qed.

Lemma demo_room_mapped a n m : mapped (demo_room a n ∪ m) a n.
Proof.
  intros i Hi. apply lookup_union_is_Some. left. unfold demo_room.
  destruct (list_to_map _ !! (a + i)) eqn:E; [done|]. apply not_elem_of_list_to_map_2 in E. destruct E.
  apply list_elem_of_fmap. exists (a + i, 0xa5). split; [done|]. apply list_elem_of_fmap. exists (a + i).
  split; [done|]. apply elem_of_seqZ. lia.
Qed.

Lemma demo_img_room a n l :
  a + n <= 0x200000 \/ 0x200000 + Z.of_nat (length l) <= a -> demo_img l ⊆ demo_room a n ∪ demo_img l.
Proof.
  intros Ha. apply map_union_subseteq_r, map_disjoint_spec. intros b x y Hx Hy.
  assert (0x200000 <= b < 0x200000 + Z.of_nat (length l)) by (apply demo_img_dom; by eexists).
  apply elem_of_list_to_map_2, list_elem_of_fmap in Hx as (i & [= -> _] & Hi%elem_of_seqZ). lia.
Qed.

Definition demo_items : list (elf32_rela * Z) :=
  [(mk_rela 0 (256 + R_ARM_CALL), 0x00108000); (mk_rela 4 (512 + R_ARM_ABS32), 0x300004)].

Lemma demo_relocs k :
  relocs_at (demo_loading k) (demo_img (demo_elf elf_ident 1)) 500 demo_ksyms 2 demo_info 0 60 demo_items.
Proof.
  split; [reflexivity|]. split; [exists (bytes32 0 ++ bytes32 (256 + R_ARM_CALL)); split; vm_compute; reflexivity|].
  split; [vm_compute; reflexivity|]. split; [reflexivity|].
  split; [exists (bytes32 4 ++ bytes32 (512 + R_ARM_ABS32)); split; vm_compute; reflexivity|].
  split; vm_compute; reflexivity.
Qed.

Lemma demo_loadable k :
  loadable demo_ksyms 2 demo_info 0 (demo_img (demo_elf elf_ident 1)) demo_text demo_items 500 0x300000 (demo_loading k).
Proof.
  assert (Hl : length (demo_elf elf_ident 1) = 440%nat) by reflexivity.
  split.
  - by eexists.
  - apply demo_img_room. lia.
  - vm_compute. split; done.
  - apply demo_room_mapped.
  - intros a Ha%demo_img_dom. cbn. lia.
  - reflexivity.
  - apply byte_check_sound. vm_compute. reflexivity.
  - vm_compute. done.
  - apply bytes_check_sound. vm_compute. reflexivity.
  - vm_compute. done.
  - repeat constructor; cbn; lia.
  - apply demo_relocs.
Qed.

Lemma copy_segment_patches_witness :
  exists s', copy_segment demo_ksyms 2 false demo_info 500 0x300000 0 (demo_loading demo_heap) = Ok (MODULE_OK, s') /\
    bytes (mram s') 0x300000 (bytes32 0xebf81ffe ++ bytes32 0x300004).
Proof.
  destruct (copy_segment_patches demo_ksyms 2 false demo_info 0 (demo_img (demo_elf elf_ident 1)) demo_text demo_items
              500 0x300000 (demo_loading demo_heap) (bytes32 0xebf81ffe ++ bytes32 0x300004))
    as (s' & E & [H _] & _); [apply demo_loadable|vm_compute; reflexivity|]. exists s'. exact (conj E H).
Defined.

(** The whole loader on the same image, with the kernel's own allocator, on a page
    that the allocator hands out. *)
Definition demo_result (ident : list Z) (text_name : Z) : option (Z * Z * list Z) :=
  let ram := demo_room 1114112 4096 ∪ demo_img (demo_elf ident text_name) in
  match load_kmodule (AL := kernel_allocator demo_env) demo_ksyms 2 false 0x200000 500
          (mk_mst demo_heap ram {[ 500 := zero_kmod ]} []) with
  | Ok (r, s) =>
      match kmods s !! 500 with
      | Some m => match read_bytes (rs_address (km_text m)) 8 (mram s) with
                  | Ok (l, _) => Some (r, km_entry m, [rs_address (km_text m); le32 l 0; le32 l 4])
                  | Err _ => Some (r, km_entry m, [])
                  end
      | None => None
      end
  | Err _ => None
  end.

(** A module with one call into the kernel and one pointer to itself is loaded
    by the composition of the header reader, the allocator, the relocation and the
    symbol table: the call reaches [printk], the pointer and the entry point are the
    address of [mod_entry].  An image with a wrong header, and one without text, are
    refused with their codes and leave the module as it was. *)
Theorem load_kmodule_end_to_end :
  (exists text call, demo_result elf_ident 1 = Some (MODULE_OK, text + 4, [text; call; text + 4]) /\
     (text + 8 + branch_disp call = 0x00108000)%Z) /\
  demo_result (0 :: elf_ident) 1 = Some (MODULE_BAD_ELF_HEADER, 0, []) /\
  demo_result elf_ident 17 = Some (MODULE_NO_TEXT, 0, []).
Proof.
  split; [|split; vm_compute; reflexivity].
  exists 1114120, 0xebffdffc. split; vm_compute; reflexivity.
Qed.

(** ** The kind of the relocation entries *)

Lemma note_section_strtab name i sh l :
  s_relas (default zero_sec (l !! SEC_TYPE_STRTAB)) = 0 ->
  s_relas (default zero_sec (note_section name i sh l !! SEC_TYPE_STRTAB)) = 0.
Proof.
  intros H. unfold note_section, upd_sec. cbv beta zeta.
  repeat (case_match; [rewrite list_lookup_alter; case_decide; [|done]|]); try done.
  by destruct (l !! SEC_TYPE_STRTAB) as [x|].
Qed.

Lemma read_sections_strtab input strs size n : forall i a l s l' s',
  s_relas (default zero_sec (l !! SEC_TYPE_STRTAB)) = 0 ->
  read_sections input strs size n i a l s = Ok (l', s') ->
  s_relas (default zero_sec (l' !! SEC_TYPE_STRTAB)) = 0.
Proof.
  induction n as [|n IH]; intros i a l s l' s' H; cbn [read_sections].
  - by intros [= <- <-].
  - unfold bind. destruct (on_mram _ s) as [[h s1]|]; [|done].
    destruct (on_mram _ s1) as [[name s2]|]; [|done]. apply IH. by apply note_section_strtab.
Qed.

(** Whatever the image says, the relocations of [.data] are read as entries of
    8 bytes: [using_relas] looks at the entry of another section, which never has
    the mark.  A [.rela.data] section, whose entries have 12 bytes, is misread. *)
Theorem rela_data_misread input elf s s' :
  get_elf_info input s = Ok (inl elf, s') -> using_relas elf SEC_TYPE_DATA = false.
Proof.
  unfold get_elf_info, elf_get_sec_info, elf_header_check, bind, ret.
  destruct (on_mram _ s) as [[hl s1]|]; [|done]. destruct (bool_decide _); [|done].
  destruct (on_mram _ s1) as [[x s2]|]; [|done]. destruct (on_mram _ s2) as [[t s3]|]; [|done].
  destruct (read_sections _ _ _ _ _ _ _ s3) as [[l s4]|] eqn:E; [|done].
  intros H. repeat (case_match; simplify_eq; try done).
  unfold using_relas, sec. cbn [secs]. apply read_sections_strtab in E; [|reflexivity].
  change (SEC_TYPE_DATA + SEC_TYPE_DATA)%nat with SEC_TYPE_STRTAB. by rewrite E.
Qed.

Lemma rela_data_misread_witness : using_relas demo_info SEC_TYPE_DATA = false.
Proof.
  apply (rela_data_misread 0x200000 demo_info (mk_mst demo_heap (demo_img (demo_elf elf_ident 1)) ∅ [])
           (mk_mst demo_heap (demo_img (demo_elf elf_ident 1)) ∅ [])).
  generalize demo_heap. intros k. vm_compute. reflexivity.
Defined.
