(* ===== verification/Mmu.v ===== *)
(** * arch/arm/mmu.c: the page tables

    The processor's tables are words of memory, and the coprocessor registers are
    fields of the state.  [walk] is the translation that the ARM926 makes from the
    tables, and the TLB holds translations that it made before; both are what the
    architecture defines, and the routines of the source are judged by them. *)

From S2P Require Import Prelude KList Bitops Alloc.

(** include/arch/arm/mmu.h, include/arch/arm/memory.h and the board's memmap.h *)
Definition PAGE_SHIFT : Z := 12.
Definition PAGE_SIZE : Z := 0x1000.
Definition PAGE_MASK : Z := 0xfffff000.
Definition SECTION_SIZE : Z := 0x100000.
Definition SECTION_MASK : Z := 0xfff00000.
Definition PGDIR_SHIFT : Z := 20.
Definition ALIGN (p n : Z) : Z := Z.land p (u32 (Z.lnot (n - 1))).

Definition PAGE_OFFSET : Z := 0xc0000000.
Definition TEXT_OFFSET : Z := 0x00008000.
Definition MAINMEM_BASE : Z := 0xc0000000.
Definition MEMBANK_SIZE : Z := 128 * 1024 * 1024.
Definition PHYS_OFFSET : Z := MAINMEM_BASE.
Definition EXCEPTION_BASE : Z := 0xffff0000.
Definition REGISTER_BASE : Z := 0x10100000.
Definition REGISTER_SIZE : Z := 0x100000.

Definition __virt_to_phys (x : Z) : Z := u32 (x - PAGE_OFFSET + PHYS_OFFSET).
Definition __phys_to_virt (x : Z) : Z := u32 (x - PHYS_OFFSET + PAGE_OFFSET).

(** include/arch/arm/arm.h *)
Definition TTB_AP : Z := Z.shiftl 3 10.
Definition TTB_AP_WR : Z := Z.shiftl 3 10.
Definition TTB_CACHEABLE : Z := Z.shiftl 1 3.
Definition TTB_BUFFERABLE : Z := Z.shiftl 1 2.
Definition TTB_CPTD : Z := 1.
Definition TTB_SD : Z := 2.
Definition TTB_SPGTD_AP0_MASK : Z := Z.shiftl 3 4.
Definition TTB_SPGTD_AP1_MASK : Z := Z.shiftl 3 6.
Definition TTB_SPGTD_AP2_MASK : Z := Z.shiftl 3 8.
Definition TTB_SPGTD_AP3_MASK : Z := Z.shiftl 3 10.
Definition TTB_SPGTD_AP0_WR : Z := Z.shiftl 3 4.
Definition TTB_SPGTD_CACHEABLE : Z := Z.shiftl 1 3.
Definition TTB_SPGTD_BUFFERABLE : Z := Z.shiftl 1 2.
Definition TTB_SPGDT_SMALL_PAGE : Z := 2.
Definition DOMAIN_CLIENT : Z := 1.

(** [MAP_DESC_TYPE] *)
Definition MAP_DESC_TYPE_SECTION : Z := 0.
Definition MAP_DESC_TYPE_PAGE : Z := 1.

Record map_desc : Type := mk_map { paddr : Z; vaddr : Z; length_ : Z; attr : Z; type_ : Z }.

(** The words of memory by their address, the allocator, the registers c2, c3 and
    c1 of the coprocessor, and the TLB: for a page number, the page frame and the
    access permission. *)
Record mmu_st (H : Type) : Type := mk_mmu {
  words : gmap Z Z;
  heap : H;
  ttbr : Z;
  dacr : Z;
  cr1 : Z;
  tlb : gmap Z (Z * Z)
}.
Arguments mk_mmu {H}. Arguments words {H}. Arguments heap {H}. Arguments ttbr {H}. Arguments dacr {H}.
Arguments cr1 {H}. Arguments tlb {H}.

Section Mmu.
Context {H : Type} {AL : Allocator H}.
Notation St := (mmu_st H).

Definition set_words (w : gmap Z Z) (s : St) : St := mk_mmu w (heap s) (ttbr s) (dacr s) (cr1 s) (tlb s).
Definition set_heap (h : H) (s : St) : St := mk_mmu (words s) h (ttbr s) (dacr s) (cr1 s) (tlb s).
Definition set_tlb (t : gmap Z (Z * Z)) (s : St) : St := mk_mmu (words s) (heap s) (ttbr s) (dacr s) (cr1 s) t.
Definition set_regs (t d c : Z) (s : St) : St := mk_mmu (words s) (heap s) t d c (tlb s).

Definition rd32 (a : Z) : M St Z := w <- gets words ;; lift_opt (bad_ptr a) (w !! a).
Definition wr32 (a v : Z) : M St unit := rd32 a ;;; modify (fun s => set_words (<[a := v]> (words s)) s).
Definition on_heap {A} (m : M H A) : M St A := zoom heap set_heap m.

(** ** The coprocessor *)

Definition arm_read_cr1 : M St Z := gets cr1.
Definition arm_write_cr1 (v : Z) : M St unit := modify (fun s => set_regs (ttbr s) (dacr s) v s).
Definition arm_write_dacr (v : Z) : M St unit := modify (fun s => set_regs (ttbr s) v (cr1 s) s).
Definition arm_write_ttbr (v : Z) : M St unit := modify (fun s => set_regs v (dacr s) (cr1 s) s).
Definition arm_invalidate_tlb : M St unit := modify (set_tlb ∅).
Definition armv4_mmu_cache_off : M St unit :=
  c <- arm_read_cr1 ;; arm_write_cr1 (Z.land c (u32 (Z.lnot 0x000d))) ;;; arm_invalidate_tlb.
(** It cleans a line of the data cache, which is not part of the state. *)
Definition flush_pgd_entry (pgd : Z) : M St unit := ret tt.

(** ** Tables *)

Definition kernel_pgd : Z := PAGE_OFFSET.
Definition pgd_index (addr : Z) : Z := Z.shiftr addr PGDIR_SHIFT.
Definition pgd_offset (pgd addr : Z) : Z := u32 (pgd + 4 * pgd_index addr).

Definition arm_mmu_map_section (vaddr paddr flags : Z) : M St unit :=
  let pgd := pgd_offset kernel_pgd vaddr in
  let AP := Z.land flags TTB_AP in
  let CB := Z.lor (Z.land flags TTB_CACHEABLE) (Z.land flags TTB_BUFFERABLE) in
  wr32 pgd (Z.lor (Z.lor (Z.lor (Z.land paddr SECTION_MASK) AP) CB) TTB_SD) ;;;
  arm_invalidate_tlb.

Definition arm_mmu_unmap_section (vaddr : Z) : M St unit :=
  let pgd := pgd_offset kernel_pgd vaddr in
  wr32 pgd 0 ;;; flush_pgd_entry pgd.

Definition pte_offset (pt virtual : Z) : Z :=
  let index := Z.shiftr (Z.land virtual (u32 (Z.lnot SECTION_MASK))) PAGE_SHIFT in
  u32 (pt + 4 * index).

(** The four entries that [arm_mmu_map_page] points at the new tables. *)
Fixpoint set_coarse (pgd pt : Z) (i : Z) (n : nat) : M St unit :=
  match n with
  | O => ret tt
  | S n =>
      wr32 (u32 (pgd + 4 * i)) (Z.lor (u32 (__virt_to_phys pt + i * 256 * 4)) TTB_CPTD) ;;;
      flush_pgd_entry (u32 (pgd + 4 * i)) ;;;
      set_coarse pgd pt (i + 1) n
  end.

Definition arm_mmu_map_page (vaddr paddr flags : Z) : M St unit :=
  let AP := Z.lor (Z.lor (Z.lor (Z.land flags TTB_SPGTD_AP0_MASK) (Z.land flags TTB_SPGTD_AP1_MASK))
                    (Z.land flags TTB_SPGTD_AP2_MASK)) (Z.land flags TTB_SPGTD_AP3_MASK) in
  let CB := Z.lor (Z.land flags TTB_SPGTD_CACHEABLE) (Z.land flags TTB_SPGTD_BUFFERABLE) in
  let pgd := ALIGN (pgd_offset kernel_pgd vaddr) 4 in
  (if negb (pgd =? NULL) then
     block <- on_heap (kmalloc PAGE_SIZE) ;;
     set_coarse pgd (ALIGN block 1024) 0 4
   else ret tt) ;;;
  d <- rd32 pgd ;;
  let pt := ALIGN (__phys_to_virt d) 1024 in
  wr32 (pte_offset pt vaddr) (Z.lor (Z.lor (Z.lor (Z.land paddr PAGE_MASK) AP) CB) TTB_SPGDT_SMALL_PAGE).

(** The loops over a mapping, with the end at 32 bits. *)
Definition map_loop (map_one : Z -> Z -> Z -> M St unit) (size : Z) (md : map_desc) : M St unit :=
  loop (S (Z.to_nat (length_ md / size))) (fun '(v, p) =>
      if v <? u32 (vaddr md + length_ md)
      then map_one v p (attr md) ;;; ret (inl (u32 (v + size), u32 (p + size)))
      else ret (inr tt)) (vaddr md, paddr md).

Definition unaligned (mask : Z) (md : map_desc) : bool :=
  let low x := negb (Z.land x (u32 (Z.lnot mask)) =? 0) in
  low (paddr md) || low (vaddr md) || low (length_ md).

(** For a null pointer there is a message, and then an access through it. *)
Definition arm_mmu_create_mapping (md : option map_desc) : M St unit :=
  match md with
  | None => fail NullDeref
  | Some md =>
      if type_ md =? MAP_DESC_TYPE_SECTION then
        if unaligned SECTION_MASK md then ret tt else map_loop arm_mmu_map_section SECTION_SIZE md
      else if type_ md =? MAP_DESC_TYPE_PAGE then
        if unaligned PAGE_MASK md then ret tt else map_loop arm_mmu_map_page PAGE_SIZE md
      else ret tt
  end.

Definition arm_mmu_map_low_memory : M St unit :=
  arm_mmu_create_mapping (Some (mk_map PHYS_OFFSET PAGE_OFFSET MEMBANK_SIZE
    (Z.lor (Z.lor TTB_AP_WR TTB_CACHEABLE) TTB_BUFFERABLE) MAP_DESC_TYPE_SECTION)).
Definition arm_mmu_map_vector_memory : M St unit :=
  arm_mmu_create_mapping (Some (mk_map 0 0 SECTION_SIZE TTB_AP_WR MAP_DESC_TYPE_SECTION)).
Definition arm_mmu_map_register : M St unit :=
  arm_mmu_create_mapping (Some (mk_map REGISTER_BASE REGISTER_BASE REGISTER_SIZE TTB_AP_WR MAP_DESC_TYPE_SECTION)).

Definition arm_mmu_remap_evt : M St unit :=
  block <- on_heap (kmalloc (PAGE_SIZE * 2)) ;;
  arm_mmu_create_mapping (Some (mk_map
    (ALIGN (__virt_to_phys (u32 (block + (PAGE_SIZE - 1)))) PAGE_SIZE)
    EXCEPTION_BASE PAGE_SIZE TTB_SPGTD_AP0_WR MAP_DESC_TYPE_PAGE)).

Definition clean_user_space : M St unit :=
  loop (S (Z.to_nat (PAGE_OFFSET / SECTION_SIZE))) (fun virtual =>
      if virtual <? PAGE_OFFSET
      then wr32 (pgd_offset kernel_pgd virtual) 0 ;;; ret (inl (u32 (virtual + SECTION_SIZE)))
      else ret (inr tt)) 0.

Definition arm_mmu_init : M St unit :=
  armv4_mmu_cache_off ;;;
  arm_mmu_map_low_memory ;;;
  arm_mmu_map_vector_memory ;;;
  arm_mmu_map_register ;;;
  arm_write_ttbr PAGE_OFFSET ;;;
  arm_write_dacr DOMAIN_CLIENT ;;;
  c <- arm_read_cr1 ;;
  arm_write_cr1 (Z.lor (Z.lor c 0x1) (Z.shiftl 1 13)).

(** ** What the processor does with the tables (ARM926EJ-S) *)

(** The entry of the second level that an address goes through. *)
Definition second_level (d va : Z) : option Z :=
  if Z.land d 3 =? 1 then Some (Z.land d 0xfffffc00 + 4 * (va / 2 ^ 12 mod 2 ^ 8))
  else if Z.land d 3 =? 3 then Some (Z.land d 0xfffff000 + 4 * (va / 2 ^ 10 mod 2 ^ 10))
  else None.

(** An entry of the second level: large, small and, in a fine table, tiny pages;
    the access permission is the one of the quarter of the page. *)
Definition page_entry (fine : bool) (e va : Z) : option (Z * Z) :=
  if Z.land e 3 =? 1 then Some (Z.land e 0xffff0000 + va mod 2 ^ 16, Z.land (Z.shiftr e (4 + 2 * (va / 2 ^ 14 mod 4))) 3)
  else if Z.land e 3 =? 2 then Some (Z.land e 0xfffff000 + va mod 2 ^ 12, Z.land (Z.shiftr e (4 + 2 * (va / 2 ^ 10 mod 4))) 3)
  else if (Z.land e 3 =? 3) && fine then Some (Z.land e 0xfffffc00 + va mod 2 ^ 10, Z.land (Z.shiftr e 4) 3)
  else None.

(** The physical address and the access permission of a virtual address, with the
    first-level table at [tb]. *)
Definition walk (tb : Z) (w : gmap Z Z) (va : Z) : option (Z * Z) :=
  match w !! (tb + 4 * (va / 2 ^ 20)) with
  | None => None
  | Some d =>
      if Z.land d 3 =? 2 then Some (Z.land d 0xfff00000 + va mod 2 ^ 20, Z.land (Z.shiftr d 10) 3)
      else match second_level d va with
           | None => None
           | Some a => match w !! a with
                       | None => None
                       | Some e => page_entry (Z.land d 3 =? 3) e va
                       end
           end
  end.

(** A translation goes through the TLB first. *)
Definition translate (s : St) (va : Z) : option (Z * Z) :=
  match tlb s !! (va / 2 ^ 12) with
  | Some (frame, ap) => Some (frame + va mod 2 ^ 12, ap)
  | None => walk (ttbr s) (words s) va
  end.

End Mmu.

(** ** Descriptors *)

(** A mask of a disjunction of masked words: masks are joined and computed. *)
Ltac masks :=
  rewrite ?Z.shiftr_lor, ?Z.shiftr_land, ?Z.land_lor_distr_l, <- ?Z.land_assoc;
  repeat match goal with
  | |- context [Z.shiftr (Zpos ?a) ?n] =>
      let v := eval vm_compute in (Z.shiftr (Zpos a) n) in change (Z.shiftr (Zpos a) n) with v
  | |- context [Z.land (Zpos ?a) (Zpos ?b)] =>
      let v := eval vm_compute in (Z.land (Zpos a) (Zpos b)) in change (Z.land (Zpos a) (Zpos b)) with v
  end;
  rewrite ?Z.land_0_r, ?Z.land_0_l, ?Z.lor_0_r, ?Z.lor_0_l.

Definition section_desc (p f : Z) : Z :=
  Z.lor (Z.lor (Z.lor (Z.land p 0xfff00000) (Z.land f 0xc00)) (Z.lor (Z.land f 8) (Z.land f 4))) 2.
Definition section_ap (f : Z) : Z := Z.land (Z.shiftr f 10) 3.

Lemma section_desc_kind p f : Z.land (section_desc p f) 3 = 2.
Proof. unfold section_desc. by masks. Qed.
Lemma section_desc_base p f : Z.land (section_desc p f) 0xfff00000 = Z.land p 0xfff00000.
Proof. unfold section_desc. by masks. Qed.
Lemma section_desc_ap p f : Z.land (Z.shiftr (section_desc p f) 10) 3 = section_ap f.
Proof. unfold section_desc, section_ap. by masks. Qed.

(** A page of 4K with the permission of each quarter. *)
Definition page_desc (p f : Z) : Z :=
  Z.lor (Z.lor (Z.lor (Z.land p 0xfffff000)
    (Z.lor (Z.lor (Z.lor (Z.land f 0x30) (Z.land f 0xc0)) (Z.land f 0x300)) (Z.land f 0xc00)))
    (Z.lor (Z.land f 8) (Z.land f 4))) 2.
Definition page_ap (f va : Z) : Z := Z.land (Z.shiftr f (4 + 2 * (va / 2 ^ 10 mod 4))) 3.

Lemma page_desc_kind p f : Z.land (page_desc p f) 3 = 2.
Proof. unfold page_desc. by masks. Qed.
Lemma page_desc_base p f : Z.land (page_desc p f) 0xfffff000 = Z.land p 0xfffff000.
Proof. unfold page_desc. by masks. Qed.
Lemma page_desc_ap p f va : Z.land (Z.shiftr (page_desc p f) (4 + 2 * (va / 2 ^ 10 mod 4))) 3 = page_ap f va.
Proof.
  unfold page_ap. pose proof (Z.mod_pos_bound (va / 2 ^ 10) 4 ltac:(lia)) as Hq.
  set (q := va / 2 ^ 10 mod 4) in *. unfold page_desc.
  assert (q = 0 \/ q = 1 \/ q = 2 \/ q = 3) as [->|[->|[->| ->]]] by lia; cbn [Z.mul Z.add Pos.mul Pos.add Pos.succ];
    by masks.
Qed.

Lemma land_section x : 0 <= x < 2 ^ 32 -> x mod 2 ^ 20 = 0 -> Z.land x 0xfff00000 = x.
Proof.
  intros Hx Hm. change 0xfff00000 with (Z.shiftl (Z.ones 12) 20). rewrite land_high by lia.
  rewrite Z.shiftl_mul_pow2, Z.shiftr_div_pow2 by lia. pose proof (Z.div_mod x (2 ^ 20) ltac:(lia)). lia.
Qed.
Lemma land_page x : 0 <= x < 2 ^ 32 -> Z.land x 0xfffff000 = x - x mod 2 ^ 12.
Proof.
  intros Hx. change 0xfffff000 with (Z.shiftl (Z.ones 20) 12). rewrite land_high by lia.
  rewrite Z.shiftl_mul_pow2, Z.shiftr_div_pow2 by lia. pose proof (Z.div_mod x (2 ^ 12) ltac:(lia)). lia.
Qed.
Lemma align_1k x : 0 <= x < 2 ^ 32 -> ALIGN x 1024 = x - x mod 2 ^ 10.
Proof.
  intros Hx. unfold ALIGN. change (u32 (Z.lnot (1024 - 1))) with (Z.shiftl (Z.ones 22) 10). rewrite land_high by lia.
  rewrite Z.shiftl_mul_pow2, Z.shiftr_div_pow2 by lia. pose proof (Z.div_mod x (2 ^ 10) ltac:(lia)). lia.
Qed.
Lemma align_4 x : 0 <= x < 2 ^ 32 -> x mod 4 = 0 -> ALIGN x 4 = x.
Proof.
  intros Hx Hm. unfold ALIGN. change (u32 (Z.lnot (4 - 1))) with (Z.shiftl (Z.ones 30) 2). rewrite land_high by lia.
  rewrite Z.shiftl_mul_pow2, Z.shiftr_div_pow2 by lia. change (2 ^ 2) with 4.
  pose proof (Z.div_mod x 4 ltac:(lia)). lia.
Qed.

(** ** Mapping sections *)

Section MapSections.
Context {H : Type} {AL : Allocator H}.
Notation St := (mmu_st H).

(** The first-level table is there: 4096 words. *)
Definition has_pgd (w : gmap Z Z) : Prop := forall i, 0 <= i < 4096 -> is_Some (w !! (kernel_pgd + 4 * i)).

Lemma pgd_offset_eq va : 0 <= va < 2 ^ 32 -> pgd_offset kernel_pgd va = kernel_pgd + 4 * (va / 2 ^ 20).
Proof.
  intros Hv. unfold pgd_offset, pgd_index, kernel_pgd, PAGE_OFFSET. rewrite Z.shiftr_div_pow2 by (cbv; done).
  change PGDIR_SHIFT with 20. assert (0 <= va / 2 ^ 20 < 4096).
  { split; [apply Z.div_pos; lia|]. apply Z.div_lt_upper_bound; lia. }
  apply u32_small. lia.
Qed.

Lemma wp_wr32 a v (s : St) (Q : unit -> St -> Prop) :
  is_Some (words s !! a) -> Q tt (set_words (<[a := v]> (words s)) s) -> wp (wr32 a v) Q s.
Proof. intros [x Hx] HQ. unfold wr32, rd32. wp_simpl. rewrite Hx. by wp_simpl. Qed.

Lemma wp_map_section va p f (s : St) (Q : unit -> St -> Prop) :
  0 <= va < 2 ^ 32 -> has_pgd (words s) ->
  Q tt (set_tlb ∅ (set_words (<[kernel_pgd + 4 * (va / 2 ^ 20) := section_desc p f]> (words s)) s)) ->
  wp (arm_mmu_map_section va p f) Q s.
Proof.
  intros Hv Hp HQ. unfold arm_mmu_map_section, arm_invalidate_tlb. rewrite pgd_offset_eq by done. wp_simpl. apply wp_wr32.
  - apply Hp. split; [apply Z.div_pos; lia|apply Z.div_lt_upper_bound; lia].
  - wp_simpl. exact HQ.
Qed.

(** The words after [k] sections from [va] on were mapped to [p]. *)
Definition sections_mapped (w w' : gmap Z Z) (va p f k : Z) : Prop :=
  forall a, w' !! a =
    let j := (a - kernel_pgd) / 4 - va / 2 ^ 20 in
    if ((a - kernel_pgd) mod 4 =? 0) && (0 <=? j) && (j <? k) then Some (section_desc (u32 (p + j * 2 ^ 20)) f) else w !! a.

Lemma sections_mapped_0 w va p f : sections_mapped w w va p f 0.
Proof. intros a. cbn zeta. destruct (_ =? 0); [|done]. case_cmp; cbn; try done; lia. Qed.

Lemma sections_mapped_S w w' va p f k :
  0 <= k -> va mod 2 ^ 20 = 0 -> sections_mapped w w' va p f k ->
  sections_mapped w (<[kernel_pgd + 4 * ((va + k * 2 ^ 20) / 2 ^ 20) := section_desc (u32 (p + k * 2 ^ 20)) f]> w') va p f (k + 1).
Proof.
  intros Hk Hm Hs a. cbn zeta. rewrite Z.div_add by lia.
  rewrite lookup_insert. case_decide as Ea.
  - subst a. replace (kernel_pgd + 4 * (va / 2 ^ 20 + k) - kernel_pgd) with ((va / 2 ^ 20 + k) * 4) by lia.
    rewrite Z.mod_mul, Z.div_mul by lia. replace (va / 2 ^ 20 + k - va / 2 ^ 20) with k by lia.
    case_cmp; cbn; try lia. done.
  - rewrite Hs. cbn zeta. pose proof (Z.div_mod (a - kernel_pgd) 4 ltac:(lia)) as E.
    destruct (Z.eqb_spec ((a - kernel_pgd) mod 4) 0) as [E0|]; [|done]. cbn [andb]. case_cmp; cbn; try done; lia.
Qed.

Lemma has_pgd_mapped w w' va p f k : has_pgd w -> sections_mapped w w' va p f k -> has_pgd w'.
Proof. intros Hp Hs i Hi. rewrite Hs. cbn zeta. destruct (_ && _); [done|by apply Hp]. Qed.

(** The address range of an aligned mapping. *)
Record section_map (md : map_desc) : Prop := {
  sm_type : type_ md = MAP_DESC_TYPE_SECTION;
  sm_paddr : 0 <= paddr md < 2 ^ 32 /\ paddr md mod 2 ^ 20 = 0;
  sm_vaddr : 0 <= vaddr md /\ vaddr md mod 2 ^ 20 = 0;
  sm_length : 0 <= length_ md /\ length_ md mod 2 ^ 20 = 0;
  sm_end : vaddr md + length_ md < 2 ^ 32
}.

Lemma section_map_aligned md : section_map md -> unaligned SECTION_MASK md = false.
Proof.
  intros [_ [_ Hp] [_ Hv] [_ Hl] _]. unfold unaligned. change (u32 (Z.lnot SECTION_MASK)) with (Z.ones 20).
  rewrite !Z.land_ones by lia. rewrite Hp, Hv, Hl. done.
Qed.

(** Running the loop: as many sections as the length holds. *)
Lemma wp_map_sections md (s : St) (Q : unit -> St -> Prop) :
  section_map md -> has_pgd (words s) ->
  (forall w', sections_mapped (words s) w' (vaddr md) (paddr md) (attr md) (length_ md / 2 ^ 20) ->
     Q tt (set_tlb (if length_ md =? 0 then tlb s else ∅) (set_words w' s))) ->
  wp (arm_mmu_create_mapping (Some md)) Q s.
Proof.
  intros Hmd Hp HQ. pose proof (section_map_aligned md Hmd) as Hal. destruct Hmd as [Ht [Hp1 Hp2] [Hv1 Hv2] [Hl1 Hl2] He].
  unfold arm_mmu_create_mapping. rewrite Ht, Hal. cbn [Z.eqb MAP_DESC_TYPE_SECTION]. unfold map_loop.
  set (n := length_ md / 2 ^ 20) in *. assert (Hn : length_ md = n * 2 ^ 20).
  { pose proof (Z.div_mod (length_ md) (2 ^ 20) ltac:(lia)). lia. }
  change (length_ md / SECTION_SIZE) with n.
  pose (I := fun (m : nat) '(v, p) (s' : St) => exists k, 0 <= k <= n /\ m = Z.to_nat (n - k) /\
    v = vaddr md + k * 2 ^ 20 /\ p = u32 (paddr md + k * 2 ^ 20) /\
    exists w', s' = set_tlb (if k =? 0 then tlb s else ∅) (set_words w' s) /\
      sections_mapped (words s) w' (vaddr md) (paddr md) (attr md) k).
  eapply (wp_loop_idx _ I _) with (n := Z.to_nat n); [|exists 0|lia].
  - intros m [v p] s' (k & Hk & -> & -> & -> & w' & -> & Hw). rewrite u32_small by lia.
    destruct (Z.ltb_spec (vaddr md + k * 2 ^ 20) (vaddr md + length_ md)).
    + wp_simpl. apply wp_map_section; [lia|by eapply has_pgd_mapped|]. wp_simpl.
      exists (Z.to_nat (n - (k + 1))). split; [lia|]. exists (k + 1). split_and!; try lia.
      * rewrite u32_small; unfold SECTION_SIZE; lia.
      * rewrite u32_add_l. f_equal. unfold SECTION_SIZE. lia.
      * eexists. split; [|apply sections_mapped_S; [lia|done|exact Hw]].
        destruct (Z.eqb_spec (k + 1) 0); [lia|]. done.
    + wp_simpl. assert (k = n) as -> by lia. replace (n =? 0) with (length_ md =? 0) by (case_cmp; lia).
      by apply HQ.
  - split_and!; try lia. { rewrite u32_small; lia. }
    exists (words s). split; [by destruct s|apply sections_mapped_0].
Qed.

(** Tables of the second level are not in the first-level table. *)
Definition tables_apart (w : gmap Z Z) (va : Z) : Prop :=
  forall d a, w !! (kernel_pgd + 4 * (va / 2 ^ 20)) = Some d -> second_level d va = Some a ->
    ~ (kernel_pgd <= a < kernel_pgd + 16384).

(** What the processor sees of it. *)
Lemma walk_mapped w w' va0 p f k va :
  0 <= va0 -> va0 mod 2 ^ 20 = 0 -> 0 <= k -> va0 + k * 2 ^ 20 < 2 ^ 32 -> p mod 2 ^ 20 = 0 -> 0 <= va < 2 ^ 32 ->
  tables_apart w va -> sections_mapped w w' va0 p f k ->
  walk kernel_pgd w' va =
    if (va0 <=? va) && (va <? va0 + k * 2 ^ 20)
    then Some (u32 (p + (va - va0 - va mod 2 ^ 20)) + va mod 2 ^ 20, section_ap f) else walk kernel_pgd w va.
Proof.
  intros H0 Hm Hk He Hpm Hv Ha Hs. unfold walk. rewrite Hs. cbn zeta.
  replace (kernel_pgd + 4 * (va / 2 ^ 20) - kernel_pgd) with (va / 2 ^ 20 * 4) by lia.
  rewrite Z.mod_mul, Z.div_mul by lia. cbn [Z.eqb andb].
  pose proof (Z.div_mod va (2 ^ 20) ltac:(lia)) as Ev. pose proof (Z.mod_pos_bound va (2 ^ 20) ltac:(lia)) as Er.
  pose proof (Z.div_mod va0 (2 ^ 20) ltac:(lia)) as E0. rewrite Hm in E0.
  set (j := va / 2 ^ 20 - va0 / 2 ^ 20).
  replace ((0 <=? j) && (j <? k)) with ((va0 <=? va) && (va <? va0 + k * 2 ^ 20)) by (unfold j; case_cmp; cbn; lia).
  destruct ((va0 <=? va) && (va <? va0 + k * 2 ^ 20)) eqn:Eb.
  - apply andb_prop in Eb as [B1%Z.leb_le B2%Z.ltb_lt]. rewrite section_desc_kind. cbn [Z.eqb Pos.eqb].
    rewrite section_desc_base, section_desc_ap. replace (j * 2 ^ 20) with (va - va0 - va mod 2 ^ 20) by (unfold j; lia).
    rewrite land_section; [done|apply u32_range|]. unfold u32. change 32 with (20 + 12) at 1.
    rewrite mod_pow2_split by lia. replace (va - va0 - va mod 2 ^ 20) with (j * 2 ^ 20) by (unfold j; lia).
    by rewrite Z.mod_add by lia.
  - destruct (w !! (kernel_pgd + 4 * (va / 2 ^ 20))) as [d|] eqn:Ed; [|done].
    destruct (Z.land d 3 =? 2); [done|]. destruct (second_level d va) as [a|] eqn:Es; [|done].
    specialize (Ha d a Ed Es). rewrite Hs. cbn zeta.
    destruct (Z.eqb_spec ((a - kernel_pgd) mod 4) 0); [|done]. cbn [andb].
    pose proof (Z.div_mod (a - kernel_pgd) 4 ltac:(lia)).
    destruct (Z.leb_spec 0 ((a - kernel_pgd) / 4 - va0 / 2 ^ 20)); [|done].
    destruct (Z.ltb_spec ((a - kernel_pgd) / 4 - va0 / 2 ^ 20) k); [|done]. lia.
Qed.

Lemma tables_apart_mapped w w' va0 p f k va :
  0 <= va < 2 ^ 32 -> tables_apart w va -> sections_mapped w w' va0 p f k -> tables_apart w' va.
Proof.
  intros Hv Ha Hs d a. rewrite Hs. cbn zeta. destruct (_ && _); [|apply Ha].
  intros [= <-]. unfold second_level. by rewrite section_desc_kind.
Qed.

Lemma u32_add_aligned x o : x mod 2 ^ 20 = 0 -> 0 <= o < 2 ^ 20 -> u32 x + o = u32 (x + o).
Proof.
  intros Hx Ho. apply Z.mod_divide in Hx as [q ->]; [|lia]. unfold u32. change (2 ^ 32) with (2 ^ 20 * 2 ^ 12).
  rewrite !Z.rem_mul_r by lia. rewrite (Z.add_comm (q * 2 ^ 20) o), Z.mod_mul, Z.div_mul, Z.mod_add, Z.div_add by lia.
  rewrite (Z.mod_small o), (Z.div_small o) by lia. rewrite !Z.add_0_l. lia.
Qed.

(** A mapping as the processor sees it. *)
Definition mapped_to (md : map_desc) (old : Z -> option (Z * Z)) (va : Z) : option (Z * Z) :=
  if (vaddr md <=? va) && (va <? vaddr md + length_ md)
  then Some (u32 (paddr md + (va - vaddr md)), section_ap (attr md)) else old va.

Lemma wp_create_mapping md (s : St) (Q : unit -> St -> Prop) :
  section_map md -> 0 < length_ md -> has_pgd (words s) -> (forall va, 0 <= va < 2 ^ 32 -> tables_apart (words s) va) ->
  (forall w', has_pgd w' -> (forall va, 0 <= va < 2 ^ 32 -> tables_apart w' va) ->
     (forall va, 0 <= va < 2 ^ 32 -> walk kernel_pgd w' va = mapped_to md (walk kernel_pgd (words s)) va) ->
     Q tt (set_tlb ∅ (set_words w' s))) ->
  wp (arm_mmu_create_mapping (Some md)) Q s.
Proof.
  intros Hmd Hl Hp Ha HQ. apply wp_map_sections; [done|done|]. intros w' Hw.
  destruct (Z.eqb_spec (length_ md) 0); [lia|]. apply HQ.
  - by eapply has_pgd_mapped.
  - intros va Hv. eapply tables_apart_mapped; [done|by apply Ha|exact Hw].
  - intros va Hv. destruct Hmd as [_ [Hp1 Hp2] [Hv1 Hv2] [Hl1 Hl2] He].
    assert (En : length_ md / 2 ^ 20 * 2 ^ 20 = length_ md) by (pose proof (Z.div_mod (length_ md) (2 ^ 20) ltac:(lia)); lia).
    assert (0 <= length_ md / 2 ^ 20) by (apply Z.div_pos; lia).
    rewrite (walk_mapped (words s) w' (vaddr md) (paddr md) (attr md) (length_ md / 2 ^ 20) va) by (done || lia || by apply Ha).
    unfold mapped_to. rewrite En. destruct (_ && _); [|done]. f_equal. f_equal.
    pose proof (Z.mod_pos_bound va (2 ^ 20) ltac:(lia)).
    rewrite u32_add_aligned; [f_equal; lia| |lia].
    replace (paddr md + (va - vaddr md - va mod 2 ^ 20)) with (paddr md + (va - va mod 2 ^ 20) - vaddr md) by lia.
    pose proof (Z.div_mod va (2 ^ 20) ltac:(lia)). pose proof (Z.div_mod (vaddr md) (2 ^ 20) ltac:(lia)).
    replace (paddr md + (va - va mod 2 ^ 20) - vaddr md) with (paddr md + (va / 2 ^ 20 - vaddr md / 2 ^ 20) * 2 ^ 20) by lia.
    by rewrite Z.mod_add by lia.
Qed.

(** [C12] A mapping of type [MAP_DESC_TYPE_SECTION], in whole sections, not empty and
    ending below 4 GB (page mappings forget what [map_page_forgets] says, and
    [mapping_to_the_top] maps nothing): [arm_mmu_create_mapping] returns, and then every
    address of the range translates to its place behind [paddr], with the access
    permission of [attr], and every other address to what the tables said before;
    no translation from before is left in the TLB. *)
Theorem create_mapping_translates md (s : St) :
  section_map md -> 0 < length_ md -> has_pgd (words s) -> ttbr s = kernel_pgd ->
  (forall va, 0 <= va < 2 ^ 32 -> tables_apart (words s) va) ->
  exists s', arm_mmu_create_mapping (Some md) s = Ok (tt, s') /\ heap s' = heap s /\
    forall va, 0 <= va < 2 ^ 32 -> translate s' va = mapped_to md (walk kernel_pgd (words s)) va.
Proof.
  intros Hmd Hl Hp Ht Ha.
  destruct (wp_elim (arm_mmu_create_mapping (Some md)) (fun _ s' => heap s' = heap s /\
    forall va, 0 <= va < 2 ^ 32 -> translate s' va = mapped_to md (walk kernel_pgd (words s)) va) s) as ([] & s' & E & HQ).
  - apply wp_create_mapping; [done..|]. intros w' _ _ Hw. split; [done|]. intros va Hv.
    unfold translate. cbn [tlb set_tlb words set_words ttbr]. rewrite lookup_empty, Ht. by apply Hw.
  - by exists s'.
Qed.

(** The three mappings that the kernel starts with. *)
Definition low_memory : map_desc :=
  mk_map PHYS_OFFSET PAGE_OFFSET MEMBANK_SIZE (Z.lor (Z.lor TTB_AP_WR TTB_CACHEABLE) TTB_BUFFERABLE) MAP_DESC_TYPE_SECTION.
Definition vector_memory : map_desc := mk_map 0 0 SECTION_SIZE TTB_AP_WR MAP_DESC_TYPE_SECTION.
Definition register_memory : map_desc := mk_map REGISTER_BASE REGISTER_BASE REGISTER_SIZE TTB_AP_WR MAP_DESC_TYPE_SECTION.

(** The addresses that they hold. *)
Definition kernel_address (va : Z) : bool :=
  ((0xc0000000 <=? va) && (va <? 0xc8000000)) || ((0 <=? va) && (va <? 0x100000)) ||
  ((0x10100000 <=? va) && (va <? 0x10200000)).

(** [C26] [arm_mmu_init] turns the MMU on, with the high vectors and without the
    caches, on tables in which the memory, the first megabyte and the registers
    are where they are, with full access, and the rest is what the tables held. *)
Theorem arm_mmu_init_maps (s : St) :
  has_pgd (words s) -> (forall va, 0 <= va < 2 ^ 32 -> tables_apart (words s) va) ->
  exists s', arm_mmu_init s = Ok (tt, s') /\
    ttbr s' = kernel_pgd /\ dacr s' = DOMAIN_CLIENT /\
    Z.testbit (cr1 s') 0 = true /\ Z.testbit (cr1 s') 13 = true /\ Z.testbit (cr1 s') 2 = false /\
    forall va, 0 <= va < 2 ^ 32 ->
      translate s' va = if kernel_address va then Some (va, 3) else walk kernel_pgd (words s) va.
Proof.
  intros Hp Ha.
  destruct (wp_elim arm_mmu_init (fun _ s' =>
    ttbr s' = kernel_pgd /\ dacr s' = DOMAIN_CLIENT /\
    Z.testbit (cr1 s') 0 = true /\ Z.testbit (cr1 s') 13 = true /\ Z.testbit (cr1 s') 2 = false /\
    forall va, 0 <= va < 2 ^ 32 ->
      translate s' va = if kernel_address va then Some (va, 3) else walk kernel_pgd (words s) va) s)
    as ([] & s' & E & HQ); [|by exists s'].
  unfold arm_mmu_init, armv4_mmu_cache_off, arm_read_cr1, arm_write_cr1, arm_invalidate_tlb. wp_simpl.
  change arm_mmu_map_low_memory with (arm_mmu_create_mapping (H := H) (Some low_memory)).
  change arm_mmu_map_vector_memory with (arm_mmu_create_mapping (H := H) (Some vector_memory)).
  change arm_mmu_map_register with (arm_mmu_create_mapping (H := H) (Some register_memory)).
  apply (wp_create_mapping low_memory); [by split|done|exact Hp|exact Ha|]. intros w1 Hp1 Ha1 Hw1. cbv beta. wp_simpl.
  apply (wp_create_mapping vector_memory); [by split|done|exact Hp1|exact Ha1|]. intros w2 Hp2 Ha2 Hw2. cbv beta. wp_simpl.
  apply (wp_create_mapping register_memory); [by split|done|exact Hp2|exact Ha2|]. intros w3 Hp3 Ha3 Hw3.
  unfold arm_write_ttbr, arm_write_dacr. wp_simpl.
  cbn [cr1 set_tlb set_words set_regs ttbr dacr words tlb heap] in *. split; [done|]. split; [done|].
  rewrite !Z.lor_spec, !Z.land_spec. change (Z.testbit (u32 (Z.lnot 13)) 2) with false.
  split; [by rewrite orb_true_r|]. split; [by rewrite orb_true_r|]. split; [by rewrite andb_false_r|].
  intros va Hv. unfold translate. cbn [tlb set_tlb set_regs set_words words ttbr]. rewrite lookup_empty. change PAGE_OFFSET with kernel_pgd.
  rewrite Hw3 by done. unfold mapped_to at 1. rewrite Hw2 by done. unfold mapped_to at 1. rewrite Hw1 by done. unfold mapped_to.
  unfold kernel_address. cbn [vaddr paddr length_ attr low_memory vector_memory register_memory].
  unfold REGISTER_BASE, REGISTER_SIZE, SECTION_SIZE, PAGE_OFFSET, PHYS_OFFSET, MAINMEM_BASE, MEMBANK_SIZE.
  case_cmp; cbn [andb orb]; try lia; try done; rewrite u32_small by lia; f_equal; f_equal; lia.
Qed.

(** A mapping up to the end of the address space maps nothing: the end of the
    range is 0 at 32 bits. *)
Theorem mapping_to_the_top (md : map_desc) (s : St) :
  type_ md = MAP_DESC_TYPE_SECTION \/ type_ md = MAP_DESC_TYPE_PAGE -> 0 <= vaddr md -> vaddr md + length_ md = 2 ^ 32 ->
  arm_mmu_create_mapping (Some md) s = Ok (tt, s).
Proof.
  intros Ht Hv He. unfold arm_mmu_create_mapping, map_loop. rewrite He. change (u32 (2 ^ 32)) with 0.
  destruct Ht as [-> | ->]; cbn [Z.eqb MAP_DESC_TYPE_SECTION MAP_DESC_TYPE_PAGE]; destruct (unaligned _ md); try done;
    cbn [loop]; unfold bind; destruct (Z.ltb_spec (vaddr md) 0); (lia || done).
Qed.

(** Unmapping a section leaves its translations in the TLB: an address that
    was used before goes on being translated, though the tables have it no more. *)
Theorem unmap_section_stale va frame ap (s : St) :
  0 <= va < 2 ^ 32 -> has_pgd (words s) -> ttbr s = kernel_pgd -> tlb s !! (va / 2 ^ 12) = Some (frame, ap) ->
  exists s', arm_mmu_unmap_section va s = Ok (tt, s') /\
    walk (ttbr s') (words s') va = None /\ translate s' va = Some (frame + va mod 2 ^ 12, ap).
Proof.
  intros Hv Hp Ht Hl. unfold arm_mmu_unmap_section, flush_pgd_entry. rewrite pgd_offset_eq by done.
  destruct (Hp (va / 2 ^ 20)) as [x Hx]; [split; [apply Z.div_pos; lia|apply Z.div_lt_upper_bound; lia]|].
  unfold wr32, rd32, bind, gets. rewrite Hx. eexists. split; [reflexivity|]. split.
  - unfold walk. cbn [words set_words ttbr]. rewrite Ht, lookup_insert_eq. done.
  - unfold translate. cbn [tlb set_words]. by rewrite Hl.
Qed.

End MapSections.

(** ** Mapping pages *)

Section MapPages.
Context {H : Type} {AL : Allocator H}.
Notation St := (mmu_st H).

Lemma coarse_eq q : q mod 2 ^ 10 = 0 -> Z.lor q TTB_CPTD = q + 1.
Proof.
  intros Hq. apply Z.mod_divide in Hq as [h ->]; [|lia]. rewrite <- Z.shiftl_mul_pow2 by lia.
  change TTB_CPTD with (Z.land 1 (Z.ones 10)). rewrite lor_fields by lia. rewrite Z.shiftl_mul_pow2 by lia. done.
Qed.

Lemma coarse_second_level q va :
  0 <= q < 2 ^ 32 -> q mod 2 ^ 10 = 0 ->
  second_level (q + 1) va = Some (q + 4 * (va / 2 ^ 12 mod 2 ^ 8)) /\ Z.land (q + 1) 3 = 1.
Proof.
  intros Hq Hm. assert (E3 : Z.land (q + 1) 3 = 1).
  { change 3 with (Z.ones 2). rewrite Z.land_ones by lia. apply Z.mod_divide in Hm as [h ->]; [|lia].
    replace (h * 2 ^ 10 + 1) with (1 + h * 2 ^ 8 * 2 ^ 2) by lia. by rewrite Z.mod_add by lia. }
  split; [|done]. unfold second_level. rewrite E3. cbn [Z.eqb Pos.eqb]. f_equal. f_equal.
  change 0xfffffc00 with (u32 (Z.lnot (1024 - 1))). fold (ALIGN (q + 1) 1024).
  assert (q + 1 < 2 ^ 32). { apply Z.mod_divide in Hm as [h ->]; lia. }
  rewrite align_1k by lia. apply Z.mod_divide in Hm as [h ->]; [|lia].
  rewrite Z.add_comm, Z.mod_add by lia. rewrite Z.mod_small by lia. lia.
Qed.

(** The table of four coarse tables of 256 words each that a block gives: it
    begins where 1K begins, at or before the block. *)
Definition table_of (block : Z) : Z := block - block mod 2 ^ 10.

(** The words of the first level after [arm_mmu_map_page]. *)
Definition with_tables (g pt : Z) (w : gmap Z Z) : gmap Z Z :=
  <[g + 12 := pt + 3073]> (<[g + 8 := pt + 2049]> (<[g + 4 := pt + 1025]> (<[g := pt + 1]> w))).

(** A block for the tables of the section of [va], apart from the first level. *)
Record table_room (va block : Z) (w : gmap Z Z) : Prop := {
  tr_va : 0 <= va < 2 ^ 32;
  tr_block : 0 <= block < 2 ^ 32 - 4096;
  tr_words : forall i, 0 <= i < 1024 -> is_Some (w !! (table_of block + 4 * i));
  tr_apart : table_of block + 4096 <= kernel_pgd \/ kernel_pgd + 16384 + 12 <= table_of block;
  tr_pgd : forall i, 0 <= i < 4 -> is_Some (w !! (kernel_pgd + 4 * (va / 2 ^ 20 + i)))
}.

Lemma table_of_range block : 0 <= block -> 0 <= table_of block <= block /\ table_of block mod 2 ^ 10 = 0.
Proof.
  intros Hb. unfold table_of. pose proof (Z.div_mod block (2 ^ 10) ltac:(lia)) as E.
  pose proof (Z.mod_pos_bound block (2 ^ 10) ltac:(lia)). split; [lia|].
  replace (block - block mod 2 ^ 10) with (block / 2 ^ 10 * 2 ^ 10) by lia. apply Z.mod_mul. lia.
Qed.

Lemma wp_set_coarse g pt (s : St) (Q : unit -> St -> Prop) :
  0 <= g -> g + 12 < 2 ^ 32 -> 0 <= pt < 2 ^ 32 - 4096 -> pt mod 2 ^ 10 = 0 ->
  (forall i, 0 <= i < 4 -> is_Some (words s !! (g + 4 * i))) ->
  Q tt (set_words (with_tables g pt (words s)) s) -> wp (set_coarse g pt 0 4) Q s.
Proof.
  intros Hg1 Hg2 Hpt Hm Hw HQ. unfold set_coarse, flush_pgd_entry, __virt_to_phys, PAGE_OFFSET, PHYS_OFFSET, MAINMEM_BASE.
  cbv beta zeta. rewrite (u32_small (pt - _ + _)) by lia. replace (pt - 3221225472 + 3221225472) with pt by lia.
  assert (Hc : forall i, 0 <= i < 4 -> Z.lor (u32 (pt + i * 256 * 4)) TTB_CPTD = pt + i * 1024 + 1).
  { intros i Hi. rewrite u32_small by lia. rewrite coarse_eq; [lia|].
    replace (pt + i * 256 * 4) with (pt + i * 2 ^ 10) by lia. by rewrite Z.mod_add. }
  repeat (wp_simpl; apply wp_wr32; [rewrite u32_small by lia; cbn [words set_words];
    rewrite ?lookup_insert_ne by (rewrite ?u32_small by lia; lia); apply Hw; lia|]; wp_simpl).
  wp_simpl. rewrite !Hc, !u32_small by lia. unfold set_words in *. cbn [words heap ttbr dacr cr1 tlb]. revert HQ.
  unfold with_tables. rewrite !Z.mul_0_l, !Z.mul_0_r, !Z.add_0_r.
  replace (pt + (0 + 1) * 1024 + 1) with (pt + 1025) by lia. replace (pt + (0 + 1 + 1) * 1024 + 1) with (pt + 2049) by lia.
  replace (pt + (0 + 1 + 1 + 1) * 1024 + 1) with (pt + 3073) by lia. done.
Qed.

Lemma pte_offset_eq pt va :
  0 <= pt < 2 ^ 32 - 4096 -> pte_offset pt va = pt + 4 * (va / 2 ^ 12 mod 2 ^ 8).
Proof.
  intros Hp. unfold pte_offset. change (u32 (Z.lnot SECTION_MASK)) with (Z.ones 20). change PAGE_SHIFT with 12.
  rewrite Z.land_ones, Z.shiftr_div_pow2 by lia.
  replace (va mod 2 ^ 20 / 2 ^ 12) with (va / 2 ^ 12 mod 2 ^ 8).
  - pose proof (Z.mod_pos_bound (va / 2 ^ 12) (2 ^ 8) ltac:(lia)). apply u32_small. lia.
  - change (2 ^ 20) with (2 ^ 12 * 2 ^ 8). rewrite Z.rem_mul_r by lia.
    rewrite (Z.add_comm (va mod 2 ^ 12)), Z.mul_comm, Z.div_add_l by lia.
    rewrite (Z.div_small (va mod 2 ^ 12)) by (apply Z.mod_pos_bound; lia). lia.
Qed.

Lemma wp_map_page va p f block h' (s : St) (Q : unit -> St -> Prop) :
  kmalloc PAGE_SIZE (heap s) = Ok (block, h') -> table_room va block (words s) ->
  Q tt (set_words (<[table_of block + 4 * (va / 2 ^ 12 mod 2 ^ 8) := page_desc p f]>
          (with_tables (kernel_pgd + 4 * (va / 2 ^ 20)) (table_of block) (words s))) (set_heap h' s)) ->
  wp (arm_mmu_map_page va p f) Q s.
Proof.
  intros Hk [Hv Hb Hw Ha Hp] HQ. destruct (table_of_range block) as [Ht Hm]; [lia|].
  assert (Hi : 0 <= va / 2 ^ 20 < 4096).
  { split; [apply Z.div_pos; lia|apply Z.div_lt_upper_bound; lia]. }
  unfold arm_mmu_map_page. rewrite pgd_offset_eq by done.
  assert (Hg : 0 <= kernel_pgd + 4 * (va / 2 ^ 20) < 2 ^ 32 - 12) by (unfold kernel_pgd, PAGE_OFFSET; lia).
  rewrite align_4; [|lia|rewrite Z.add_comm, (Z.mul_comm 4), Z.add_comm, Z.mod_add by lia; done].
  set (g := kernel_pgd + 4 * (va / 2 ^ 20)) in *. destruct (Z.eqb_spec g NULL) as [E|]; [unfold NULL, g, kernel_pgd, PAGE_OFFSET in E; lia|].
  cbn [negb]. unfold on_heap. wp_simpl. eapply wp_intro; [exact Hk|]. cbv beta. wp_simpl. rewrite align_1k by lia. fold (table_of block).
  apply wp_set_coarse; [lia|lia|lia|done| |].
  { intros i Hi'. cbn. replace (g + 4 * i) with (kernel_pgd + 4 * (va / 2 ^ 20 + i)) by (unfold g; lia). by apply Hp. }
  unfold rd32. wp_simpl. cbn [words set_words]. unfold with_tables at 1. rewrite !lookup_insert_ne, lookup_insert_eq by lia. wp_simpl.
  unfold __phys_to_virt, PHYS_OFFSET, MAINMEM_BASE, PAGE_OFFSET. rewrite u32_small by lia.
  replace (table_of block + 1 - 3221225472 + 3221225472) with (table_of block + 1) by lia.
  replace (ALIGN (table_of block + 1) 1024) with (table_of block).
  - rewrite pte_offset_eq by lia. apply wp_wr32; [|exact HQ]. cbn [words set_words]. unfold with_tables.
    pose proof (Z.mod_pos_bound (va / 2 ^ 12) (2 ^ 8) ltac:(lia)).
    rewrite !lookup_insert_ne by (unfold g in *; lia). apply Hw. lia.
  - rewrite align_1k by lia. apply Z.mod_divide in Hm as [q Hq]; [|lia]. rewrite Hq.
    rewrite (Z.add_comm (q * 2 ^ 10) 1), Z.mod_add, (Z.mod_small 1) by lia. lia.
Qed.

(** The translations afterwards, in the four sections that share the tables. *)
Lemma walk_tables va p f block w x :
  table_room va block w -> 0 <= x / 2 ^ 20 - va / 2 ^ 20 < 4 ->
  let pt := table_of block in
  let pte := pt + 4 * (va / 2 ^ 12 mod 2 ^ 8) in
  let a := pt + 1024 * (x / 2 ^ 20 - va / 2 ^ 20) + 4 * (x / 2 ^ 12 mod 2 ^ 8) in
  exists e, w !! a = Some e /\
  walk kernel_pgd (<[pte := page_desc p f]> (with_tables (kernel_pgd + 4 * (va / 2 ^ 20)) pt w)) x =
    page_entry false (if decide (pte = a) then page_desc p f else e) x.
Proof.
  intros [Hv Hb Hw Ha Hp] Hj pt pte a. destruct (table_of_range block) as [Ht Hm]; [lia|]. fold pt in Ht, Hm, Ha, Hw.
  assert (Hi : 0 <= va / 2 ^ 20 < 4096).
  { split; [apply Z.div_pos; lia|apply Z.div_lt_upper_bound; lia]. }
  pose proof (Z.mod_pos_bound (va / 2 ^ 12) (2 ^ 8) ltac:(lia)) as H1.
  pose proof (Z.mod_pos_bound (x / 2 ^ 12) (2 ^ 8) ltac:(lia)) as H2.
  set (j := x / 2 ^ 20 - va / 2 ^ 20) in *.
  assert (He : is_Some (w !! a)).
  { replace a with (pt + 4 * (256 * j + x / 2 ^ 12 mod 2 ^ 8)) by (unfold a; lia). apply Hw. lia. }
  destruct He as [e He]. exists e. split; [done|]. unfold walk.
  replace (kernel_pgd + 4 * (x / 2 ^ 20)) with (kernel_pgd + 4 * (va / 2 ^ 20) + 4 * j) by (unfold j; lia).
  rewrite lookup_insert_ne by (unfold pte; lia).
  set (g := kernel_pgd + 4 * (va / 2 ^ 20)) in *.
  assert (El : with_tables g pt w !! (g + 4 * j) = Some (pt + 1024 * j + 1)).
  { unfold with_tables. assert (j = 0 \/ j = 1 \/ j = 2 \/ j = 3) as Hc by lia.
    destruct Hc as [E|[E|[E|E]]]; rewrite E; rewrite ?Z.add_0_r, ?lookup_insert_ne by lia;
      cbn [Z.mul Pos.mul]; rewrite ?Z.add_0_r, lookup_insert_eq; f_equal; lia. }
  rewrite El. destruct (coarse_second_level (pt + 1024 * j) x) as [E2 E3]; [lia| |].
  { replace (pt + 1024 * j) with (pt + j * 2 ^ 10) by lia. by rewrite Z.mod_add. }
  rewrite E2, E3. cbn [Z.eqb Pos.eqb]. fold a. rewrite lookup_insert. case_decide as Ec; [done|].
  unfold with_tables. rewrite !lookup_insert_ne by (unfold g, a in *; lia). by rewrite He.
Qed.

(** Apart from the new tables and the entries for them. *)
Definition tables_kept (va block : Z) (w : gmap Z Z) (x : Z) : Prop :=
  forall d a, w !! (kernel_pgd + 4 * (x / 2 ^ 20)) = Some d -> second_level d x = Some a ->
    ~ (kernel_pgd <= a < kernel_pgd + 16384 + 12) /\ ~ (table_of block <= a < table_of block + 4096).

Lemma walk_elsewhere va p f block w x :
  table_room va block w -> 0 <= x < 2 ^ 32 -> ~ (0 <= x / 2 ^ 20 - va / 2 ^ 20 < 4) -> tables_kept va block w x ->
  walk kernel_pgd (<[table_of block + 4 * (va / 2 ^ 12 mod 2 ^ 8) := page_desc p f]>
    (with_tables (kernel_pgd + 4 * (va / 2 ^ 20)) (table_of block) w)) x = walk kernel_pgd w x.
Proof.
  intros [Hv Hb Hw Ha Hp] Hx Hj Hk. assert (Hi : 0 <= va / 2 ^ 20 < 4096).
  { split; [apply Z.div_pos; lia|apply Z.div_lt_upper_bound; lia]. }
  assert (Hxi : 0 <= x / 2 ^ 20 < 4096).
  { split; [apply Z.div_pos; lia|apply Z.div_lt_upper_bound; lia]. }
  pose proof (Z.mod_pos_bound (va / 2 ^ 12) (2 ^ 8) ltac:(lia)) as H1.
  assert (Hl : forall a, a <> table_of block + 4 * (va / 2 ^ 12 mod 2 ^ 8) ->
    ~ (kernel_pgd + 4 * (va / 2 ^ 20) <= a < kernel_pgd + 4 * (va / 2 ^ 20) + 16) ->
    (<[table_of block + 4 * (va / 2 ^ 12 mod 2 ^ 8) := page_desc p f]>
      (with_tables (kernel_pgd + 4 * (va / 2 ^ 20)) (table_of block) w)) !! a = w !! a).
  { intros a H2 H3. unfold with_tables. by rewrite !lookup_insert_ne by lia. }
  unfold walk. rewrite Hl by lia. destruct (w !! (kernel_pgd + 4 * (x / 2 ^ 20))) as [d|] eqn:Ed; [|done].
  destruct (Z.land d 3 =? 2); [done|]. destruct (second_level d x) as [a|] eqn:Es; [|done].
  destruct (Hk d a Ed Es). by rewrite Hl by lia.
Qed.

(** Mapping one page: [arm_mmu_map_page] returns with new tables for four
    sections from the one of [va] on; the page then translates to [p], with the
    permission of each quarter from the flags, and the addresses outside those
    sections as before. *)
Theorem map_page_translates va p f block h' (s : St) :
  kmalloc PAGE_SIZE (heap s) = Ok (block, h') -> table_room va block (words s) -> 0 <= p < 2 ^ 32 ->
  exists s', arm_mmu_map_page va p f s = Ok (tt, s') /\ heap s' = h' /\
    (forall x, x / 2 ^ 12 = va / 2 ^ 12 -> walk kernel_pgd (words s') x = Some (p - p mod 2 ^ 12 + x mod 2 ^ 12, page_ap f x)) /\
    (forall x, 0 <= x < 2 ^ 32 -> ~ (0 <= x / 2 ^ 20 - va / 2 ^ 20 < 4) -> tables_kept va block (words s) x ->
       walk kernel_pgd (words s') x = walk kernel_pgd (words s) x).
Proof.
  intros Hk Hr Hp. destruct (wp_elim _ _ _ (wp_map_page va p f block h' s (fun _ s' => s' = _) Hk Hr eq_refl)) as ([] & s' & E & ->).
  eexists. split; [exact E|]. split; [done|]. cbn [words set_words]. split.
  - intros x Hx. assert (Hx2 : x / 2 ^ 20 = va / 2 ^ 20).
    { change (2 ^ 20) with (2 ^ 12 * 2 ^ 8). rewrite <- !Z.div_div by lia. by rewrite Hx. }
    destruct (walk_tables va p f block (words s) x Hr ltac:(lia)) as (e & _ & ->).
    rewrite Hx, Hx2, decide_True by lia. unfold page_entry. rewrite page_desc_kind. cbn [Z.eqb Pos.eqb].
    by rewrite page_desc_base, land_page, page_desc_ap by done.
  - intros x Hx Hj Hkp. by apply walk_elsewhere.
Qed.

(** It forgets what was mapped there: every other address of the four sections,
    mapped before or not, translates by the words that happened to be in the new
    block, which nothing has cleared. *)
Theorem map_page_forgets va p f block h' (s : St) x :
  kmalloc PAGE_SIZE (heap s) = Ok (block, h') -> table_room va block (words s) ->
  0 <= x / 2 ^ 20 - va / 2 ^ 20 < 4 -> x / 2 ^ 12 <> va / 2 ^ 12 ->
  exists s' e, arm_mmu_map_page va p f s = Ok (tt, s') /\
    words s !! (table_of block + 1024 * (x / 2 ^ 20 - va / 2 ^ 20) + 4 * (x / 2 ^ 12 mod 2 ^ 8)) = Some e /\
    walk kernel_pgd (words s') x = page_entry false e x.
Proof.
  intros Hk Hr Hj Hne. destruct (wp_elim _ _ _ (wp_map_page va p f block h' s (fun _ s' => s' = _) Hk Hr eq_refl)) as ([] & s' & E & ->).
  destruct (walk_tables va p f block (words s) x Hr Hj) as (e & He & Ew). eexists _, e. split; [exact E|]. split; [exact He|].
  cbn [words set_words]. rewrite Ew. case_decide as Ec; [|done]. exfalso. apply Hne.
  pose proof (Z.mod_pos_bound (va / 2 ^ 12) (2 ^ 8) ltac:(lia)). pose proof (Z.mod_pos_bound (x / 2 ^ 12) (2 ^ 8) ltac:(lia)).
  assert (x / 2 ^ 20 = va / 2 ^ 20 /\ x / 2 ^ 12 mod 2 ^ 8 = va / 2 ^ 12 mod 2 ^ 8) as [E1 E2] by lia.
  pose proof (Z.div_mod (x / 2 ^ 12) (2 ^ 8) ltac:(lia)) as D1. pose proof (Z.div_mod (va / 2 ^ 12) (2 ^ 8) ltac:(lia)) as D2.
  rewrite Z.div_div in D1, D2 by lia. change (2 ^ 12 * 2 ^ 8) with (2 ^ 20) in *. lia.
Qed.

End MapPages.

(** ** Examples: cleared tables and a cleared block behind them *)

Definition zeros (n : Z) : gmap Z Z := list_to_map ((fun i => (kernel_pgd + 4 * i, 0)) <$> seqZ 0 n).

Lemma zeros_in n i : 0 <= i < n -> zeros n !! (kernel_pgd + 4 * i) = Some 0.
Proof.
  intros Hi. apply elem_of_list_to_map_1.
  - rewrite <- list_fmap_compose. apply NoDup_fmap_2; [|apply NoDup_seqZ]. intros a b. cbn. lia.
  - apply list_elem_of_fmap. exists i. split; [done|]. apply elem_of_seqZ. lia.
Qed.
Lemma zeros_0 n a d : zeros n !! a = Some d -> d = 0.
Proof. intros Hd. apply elem_of_list_to_map_2, list_elem_of_fmap in Hd as (i & [= _ ->] & _). done. Qed.
#[local] Opaque zeros.

Definition demo_words : gmap Z Z := zeros 6144.
Definition demo_mmu (t : gmap Z (Z * Z)) : mmu_st Z := mk_mmu demo_words (kernel_pgd + 0x5000) kernel_pgd 0 0x1005 t.

Lemma demo_has_pgd : has_pgd demo_words.
Proof. intros i Hi. unfold demo_words. rewrite zeros_in by lia. done. Qed.

Lemma demo_apart va : tables_apart demo_words va.
Proof. intros d a Hd. apply zeros_0 in Hd as ->. done. Qed.

Lemma demo_table_room : table_room 0xc0123000 (kernel_pgd + 0x5000) demo_words.
Proof.
  split.
  - lia.
  - unfold kernel_pgd, PAGE_OFFSET. lia.
  - intros i Hi. assert (E : table_of (kernel_pgd + 0x5000) = kernel_pgd + 4 * 5120) by reflexivity. rewrite E.
    replace (kernel_pgd + 4 * 5120 + 4 * i) with (kernel_pgd + 4 * (5120 + i)) by lia.
    unfold demo_words. by rewrite zeros_in by lia.
  - right. vm_compute. discriminate.
  - intros i Hi. assert (E : 0xc0123000 / 2 ^ 20 = 3073) by reflexivity. unfold demo_words. rewrite E, zeros_in by lia. done.
Qed.

Lemma create_mapping_translates_witness :
  exists s', arm_mmu_create_mapping (Some low_memory) (demo_mmu ∅) = Ok (tt, s') /\
    translate s' 0xc0123456 = Some (0xc0123456, 3) /\ translate s' 0x1000 = None.
Proof.
  destruct (create_mapping_translates low_memory (demo_mmu ∅)) as (s' & E & _ & Ht);
    [by split|reflexivity|exact demo_has_pgd|reflexivity|intros va _; apply demo_apart|].
  exists s'. split; [exact E|]. rewrite !Ht by lia. split; [reflexivity|].
  unfold mapped_to, walk. cbn [andb Z.leb]. change (kernel_pgd + 4 * (0x1000 / 2 ^ 20)) with (kernel_pgd + 4 * 0).
  change (words (demo_mmu ∅)) with (zeros 6144). rewrite zeros_in by lia. reflexivity.
Defined.

Lemma arm_mmu_init_maps_witness :
  exists s', arm_mmu_init (demo_mmu ∅) = Ok (tt, s') /\ translate s' 0x10190000 = Some (0x10190000, 3).
Proof.
  destruct (arm_mmu_init_maps (demo_mmu ∅)) as (s' & E & _ & _ & _ & _ & _ & Ht);
    [exact demo_has_pgd|intros va _; apply demo_apart|].
  exists s'. split; [exact E|]. rewrite Ht by lia. reflexivity.
Defined.

Lemma mapping_to_the_top_witness :
  arm_mmu_create_mapping (Some (mk_map 0xc0100000 0xffff0000 0x10000 0 MAP_DESC_TYPE_PAGE)) (demo_mmu ∅) = Ok (tt, demo_mmu ∅).
Proof. apply mapping_to_the_top; [right; reflexivity|cbn; lia|reflexivity]. Defined.

Lemma unmap_section_stale_witness :
  exists s', arm_mmu_unmap_section 0xd0000004 (demo_mmu {[ 0xd0000 := (0xc0000000, 3) ]}) = Ok (tt, s') /\
    walk (ttbr s') (words s') 0xd0000004 = None /\ translate s' 0xd0000004 = Some (0xc0000004, 3).
Proof.
  apply (unmap_section_stale 0xd0000004 0xc0000000 3); [lia|exact demo_has_pgd|reflexivity|].
  cbn [tlb demo_mmu]. apply lookup_singleton_eq.
Defined.

Lemma map_page_translates_witness :
  exists s', arm_mmu_map_page 0xc0123000 0xc0456000 TTB_SPGTD_AP0_WR (demo_mmu ∅) = Ok (tt, s') /\
    walk kernel_pgd (words s') 0xc0123010 = Some (0xc0456010, 3) /\
    walk kernel_pgd (words s') 0xc0123410 = Some (0xc0456410, 0).
Proof.
  destruct (map_page_translates 0xc0123000 0xc0456000 TTB_SPGTD_AP0_WR (kernel_pgd + 0x5000) (kernel_pgd + 0x6000)
              (demo_mmu ∅)) as (s' & E & _ & Hw & _); [reflexivity|exact demo_table_room|lia|].
  exists s'. split; [exact E|]. split; rewrite Hw; reflexivity.
Defined.

(** The page before is lost. *)
Lemma map_page_forgets_witness :
  exists s', arm_mmu_map_page 0xc0123000 0xc0456000 TTB_SPGTD_AP0_WR (demo_mmu ∅) = Ok (tt, s') /\
    walk kernel_pgd (words s') 0xc0122000 = None.
Proof.
  destruct (map_page_forgets 0xc0123000 0xc0456000 TTB_SPGTD_AP0_WR (kernel_pgd + 0x5000) (kernel_pgd + 0x6000) (demo_mmu ∅) 0xc0122000)
    as (s' & e & E & He & Hw); [reflexivity|exact demo_table_room|split; [discriminate|reflexivity]|discriminate|].
  assert (e = 0) as -> by exact (zeros_0 _ _ _ He). exists s'. exact (conj E Hw).
Defined.
