(* ===== verification/Board.v ===== *)
(** * arch/arm/boards/Hi3560: interrupts, the timer and the serial port

    Device registers are volatile: the values that successive reads give are
    inputs ([reads]), and the writes are recorded ([writes], the last one first).
    A read with no input left is a wait for the device.  Strings are their
    characters without the zero. *)

From S2P Require Import Prelude KList KState Sched Timer Semaphore Env PageAlloc.

(** include/arch/arm/boards/Hi3560/chip_regs.h *)
Definition REG_BASE_INTC : Z := 0x10190000.
Definition REG_BASE_SC : Z := 0x101E0000.
Definition REG_BASE_TIMER_01 : Z := 0x101E2000.
Definition REG_BASE_UART0 : Z := 0x101EA000.
Definition REG_SC_APLLCFGSTAT1 : Z := 0x018.
Definition REG_INTC_IRQSTATUS : Z := 0x000.
Definition REG_INTC_RAWSTATUS : Z := 0x008.
Definition REG_INTC_INTSELECT : Z := 0x00C.
Definition REG_INTC_INTENABLE : Z := 0x010.
Definition REG_INTC_INTENCLEAR : Z := 0x014.
Definition REG_INTC_SOFTINTCLEAR : Z := 0x01C.
Definition REG_INTC_SUPERPRIV_PROT : Z := 0x020.
Definition INTNR_IRQ_START : Z := 0.
Definition INTNR_IRQ_END : Z := 31.
Definition INTNR_TIMER_0 : Z := 2.
Definition INTNR_UART0 : Z := 10.
Definition REG_TIMER_RELOAD : Z := 0x000.
Definition REG_TIMER_VALUE : Z := 0x004.
Definition REG_TIMER_CONTROL : Z := 0x008.
Definition REG_TIMER_INTCLR : Z := 0x00C.
Definition ioaddr_intc (x : Z) : Z := REG_BASE_INTC + x.

(** timer.h *)
Definition MHZ : Z := 1000 * 1000.
Definition HZ : Z := 100.
Definition CFG_TIMER_VABASE : Z := REG_BASE_TIMER_01.
Definition CFG_TIMER_CONTROL : Z := 0xe2.
Definition CFG_TIMER_PRESCALE : Z := 1.
Definition CFG_TIMER_INTNR : Z := INTNR_TIMER_0.
Definition BUSCLK_TO_TIMER_RELOAD (busclk : Z) : Z := busclk / CFG_TIMER_PRESCALE / HZ.
Definition DEFAULT_MPLLIN : Z := 12000000.
Definition DEFAULT_BUSCLK : Z := 110000000.

(** text.h *)
Definition UART_DR : Z := REG_BASE_UART0 + 0x000.
Definition UART_RSR : Z := REG_BASE_UART0 + 0x004.
Definition UART_FR : Z := REG_BASE_UART0 + 0x018.
Definition UART_IBRD : Z := REG_BASE_UART0 + 0x024.
Definition UART_FBRD : Z := REG_BASE_UART0 + 0x028.
Definition UART_LCR_H : Z := REG_BASE_UART0 + 0x02C.
Definition UART_CR : Z := REG_BASE_UART0 + 0x030.
Definition UART_IMSC : Z := REG_BASE_UART0 + 0x038.
Definition UART_MIS : Z := REG_BASE_UART0 + 0x040.
Definition UART_ICR : Z := REG_BASE_UART0 + 0x044.
Definition UART_FR_TXFF : Z := 0x20.
Definition UART_FR_RXFE : Z := 0x10.
Definition UART_FR_BUSY : Z := 0x08.
Definition UART_LCRH_WLEN_8 : Z := Z.shiftl 3 5.
Definition UART_CR_RXE : Z := Z.shiftl 1 9.
Definition UART_CR_TXE : Z := Z.shiftl 1 8.
Definition UART_CR_UARTEN : Z := 1.
Definition UART_IMSC_TXIM : Z := Z.shiftl 1 5.
Definition UART_IMSC_RXIM : Z := Z.shiftl 1 4.
Definition UART_BAUD_115200 : Z := 115200.
Definition CONFIG_CLOCK : Z := 54000000.
Definition UART_FIFO_SIZE : Z := 1024.

Record UART_FIFO : Type := mk_fifo { fmem : list Z; fwp : Z; frp : Z }.

(** [uart.puts] and [uart.getchar]: the early ones or the ones with the queues. *)
Record SERIAL_PORT : Type := mk_serial { fifo_out : UART_FIFO; fifo_in : UART_FIFO; early : bool }.

Record board : Type := mk_board {
  kern : kst;
  reads : list Z;
  writes : list (Z * Z);
  int_handler_table : list (Z * Z);   (** handler, [NULL] = 0, and argument *)
  t_callback : Z;
  timer_reload : Z;
  uart : SERIAL_PORT
}.
Definition set_kern (v : kst) (s : board) : board :=
  mk_board v (reads s) (writes s) (int_handler_table s) (t_callback s) (timer_reload s) (uart s).
Definition set_reads (v : list Z) (s : board) : board :=
  mk_board (kern s) v (writes s) (int_handler_table s) (t_callback s) (timer_reload s) (uart s).
Definition set_writes (v : list (Z * Z)) (s : board) : board :=
  mk_board (kern s) (reads s) v (int_handler_table s) (t_callback s) (timer_reload s) (uart s).
Definition set_table (v : list (Z * Z)) (s : board) : board :=
  mk_board (kern s) (reads s) (writes s) v (t_callback s) (timer_reload s) (uart s).
Definition set_timer (c r : Z) (s : board) : board :=
  mk_board (kern s) (reads s) (writes s) (int_handler_table s) c r (uart s).
Definition set_uart (v : SERIAL_PORT) (s : board) : board :=
  mk_board (kern s) (reads s) (writes s) (int_handler_table s) (t_callback s) (timer_reload s) v.

Definition on_kern {A} (m : M kst A) : M board A := zoom kern set_kern m.

(** include/kernel/reg.h *)
Definition readl (a : Z) : M board Z :=
  l <- gets reads ;;
  match l with
  | [] => fail Blocked
  | v :: l' => modify (set_reads l') ;;; ret v
  end.
Definition writel (v a : Z) : M board unit := modify (fun s => set_writes ((a, v) :: writes s) s).

(** [while (reg & bits);] *)
Definition wait_clear (a bits : Z) : M board unit :=
  n <- gets (fun s => length (reads s)) ;;
  loop (S n) (fun _ : unit => v <- readl a ;; ret (if negb (Z.land v bits =? 0) then inl tt else inr tt)) tt.

(** ** interrupts.c *)

Definition platform_init_interrupts : M board unit :=
  writel 0xffffffff (ioaddr_intc REG_INTC_INTENCLEAR) ;;;
  writel 0 (ioaddr_intc REG_INTC_INTSELECT) ;;;
  writel 0xffffffff (ioaddr_intc REG_INTC_SOFTINTCLEAR) ;;;
  writel 1 (ioaddr_intc REG_INTC_SUPERPRIV_PROT).

Definition mask_interrupt (vector : Z) : M board Z :=
  if INTNR_IRQ_END <? vector then ret (-1) else
  let vector := u32 (vector - INTNR_IRQ_START) in
  on_kern enter_critical_section ;;;
  writel (u32 (Z.shiftl 1 vector)) (ioaddr_intc REG_INTC_INTENCLEAR) ;;;
  on_kern exit_critical_section ;;;
  ret 0.

Definition unmask_interrupt (vector : Z) : M board Z :=
  if INTNR_IRQ_END <? vector then ret (-1) else
  let vector := u32 (vector - INTNR_IRQ_START) in
  on_kern enter_critical_section ;;;
  writel (u32 (Z.shiftl 1 vector)) (ioaddr_intc REG_INTC_INTENABLE) ;;;
  on_kern exit_critical_section ;;;
  ret 0.

(** [int_handler_table[i]] *)
Definition rd_handler (i : Z) : M board (Z * Z) :=
  t <- gets int_handler_table ;; lift_opt (BadIndex i) (if 0 <=? i then t !! Z.to_nat i else None).

(** A vector out of range is only reported. *)
Definition register_int_handler (vector handler arg : Z) : M board unit :=
  on_kern enter_critical_section ;;;
  rd_handler vector ;;;
  modify (fun s => set_table (<[Z.to_nat vector := (handler, arg)]> (int_handler_table s)) s) ;;;
  on_kern exit_critical_section.

Section Irq.
(** the handlers, by their code address *)
Context (handler_code : Z -> Z -> M board handler_return).

Definition irq_turn (p : Z * Z * handler_return) : M board (Z * Z * handler_return + handler_return) :=
  let '(irq_status, irq_num, r) := p in
  if irq_status =? 0 then ret (inr r) else
  let irq_status := Z.shiftr irq_status 1 in
  let irq_num := irq_num + 1 in
  h <- rd_handler irq_num ;;
  r <- (if negb (fst h =? NULL) then handler_code (fst h) (snd h) else ret r) ;;
  ret (inl (irq_status, irq_num, r)).

Definition platform_irq : M board handler_return :=
  irq_status <- readl (ioaddr_intc REG_INTC_IRQSTATUS) ;;
  loop 33 irq_turn (irq_status, 0, INT_NO_RESCHEDULE).
End Irq.

(** ** timer.c *)

Definition REFDIV (pllc : Z) : Z := Z.land (Z.shiftr pllc 12) 0x3F.
Definition FBDIV (pllc : Z) : Z := Z.land pllc 0xFFF.
(** [fxin/REFDIV*FBDIV] *)
Definition pll_value (pllc fxin : Z) : M board Z :=
  if REFDIV pllc =? 0 then fail DivByZero else ret (u32 (fxin / REFDIV pllc * FBDIV pllc)).

Definition pllc_to_busclk (pllc fxin : Z) : M board Z := v <- pll_value pllc fxin ;; ret (v / 12).
Definition is_pllc_invalid (pllc fxin : Z) : M board bool :=
  v <- pll_value pllc fxin ;; ret ((2400 * MHZ <? v) || (v <=? 800 * MHZ)).

Definition platform_set_periodic_timer (callback arg interval : Z) : M board Z :=
  on_kern enter_critical_section ;;;
  modify (fun s => set_timer callback (timer_reload s) s) ;;;
  writel 0 (CFG_TIMER_VABASE + REG_TIMER_CONTROL) ;;;
  pllc <- readl (REG_BASE_SC + REG_SC_APLLCFGSTAT1) ;;
  invalid <- is_pllc_invalid pllc DEFAULT_MPLLIN ;;
  (if negb invalid then
     busclock <- pllc_to_busclk pllc DEFAULT_MPLLIN ;;
     modify (fun s => set_timer (t_callback s) (BUSCLK_TO_TIMER_RELOAD busclock) s)
   else modify (fun s => set_timer (t_callback s) (BUSCLK_TO_TIMER_RELOAD DEFAULT_BUSCLK) s)) ;;;
  modify (fun s => set_timer (t_callback s) 6800000 s) ;;;
  reload <- gets timer_reload ;;
  writel reload (CFG_TIMER_VABASE + REG_TIMER_RELOAD) ;;;
  writel CFG_TIMER_CONTROL (CFG_TIMER_VABASE + REG_TIMER_CONTROL) ;;;
  unmask_interrupt CFG_TIMER_INTNR ;;;
  on_kern exit_critical_section ;;;
  ret 0.

Definition ticks2ms (reload t : Z) : M board Z :=
  if Z.shiftr reload 2 =? 0 then fail DivByZero
  else ret (u32 (t * Z.shiftr (1000 / HZ) 2) / Z.shiftr reload 2).

Definition gettimeoffset : M board Z :=
  n <- gets (fun s => length (reads s)) ;;
  ticks2 <- readl (CFG_TIMER_VABASE + REG_TIMER_VALUE) ;;
  r <- loop (S n) (fun ticks2 =>
      let ticks1 := ticks2 in
      status <- readl (ioaddr_intc REG_INTC_RAWSTATUS) ;;
      ticks2 <- readl (CFG_TIMER_VABASE + REG_TIMER_VALUE) ;;
      ret (if (ticks1 <? ticks2) || (ticks2 =? 0) then inl ticks2 else inr (ticks2, status))) ticks2 ;;
  let '(ticks2, status) := r in
  reload <- gets timer_reload ;;
  let ticks1 := u32 (reload - ticks2) in
  let ticks1 := if negb (Z.land status (Z.shiftl 1 CFG_TIMER_INTNR) =? 0) then u32 (ticks1 + reload) else ticks1 in
  ticks2ms reload ticks1.

Section Tick.
(** [t_callback], by its code address; the time it gets has 32 bits *)
Context (callback_code : Z -> Z -> Z -> M board handler_return).

Definition platform_tick (arg : Z) : M board handler_return :=
  ms <- gettimeoffset ;;
  on_kern (modify (fun s => set_ticks (u64 (ticks s + ms)) s)) ;;;
  writel 0xffffffff (CFG_TIMER_VABASE + REG_TIMER_INTCLR) ;;;
  cb <- gets t_callback ;;
  if negb (cb =? NULL) then now <- on_kern current_time ;; callback_code cb arg (u32 now)
  else ret INT_NO_RESCHEDULE.
End Tick.

Definition platform_init_timer (platform_tick_addr : Z) : M board unit :=
  register_int_handler CFG_TIMER_INTNR platform_tick_addr 0.

(** ** serial.c *)

(** [f.mem[f.wp] = c; f.wp = (f.wp + 1) % UART_FIFO_SIZE;] *)
Definition fifo_put (c : Z) (f : UART_FIFO) : UART_FIFO :=
  mk_fifo (<[Z.to_nat (fwp f) := u8 c]> (fmem f)) ((fwp f + 1) mod UART_FIFO_SIZE) (frp f).
(** [f.mem[f.rp]], and the next place to read *)
Definition fifo_front (f : UART_FIFO) : Z := default 0 (fmem f !! Z.to_nat (frp f)).
Definition fifo_next (f : UART_FIFO) : UART_FIFO := mk_fifo (fmem f) (fwp f) ((frp f + 1) mod UART_FIFO_SIZE).

Definition upd_out (g : UART_FIFO -> UART_FIFO) (s : board) : board :=
  set_uart (mk_serial (g (fifo_out (uart s))) (fifo_in (uart s)) (early (uart s))) s.
Definition upd_in (g : UART_FIFO -> UART_FIFO) (s : board) : board :=
  set_uart (mk_serial (fifo_out (uart s)) (g (fifo_in (uart s))) (early (uart s))) s.

Fixpoint __puts_early_chars (str : list Z) : M board unit :=
  match str with
  | [] => ret tt
  | c :: str' =>
      wait_clear UART_FR UART_FR_TXFF ;;;
      writel c UART_DR ;;;
      (if c =? 10 then wait_clear UART_FR UART_FR_TXFF ;;; writel 13 UART_DR else ret tt) ;;;
      __puts_early_chars str'
  end.
Definition __puts_early (str : list Z) : M board unit :=
  __puts_early_chars str ;;; wait_clear UART_FR UART_FR_BUSY.

(** The queue of what is to be sent, filled with a string. *)
Fixpoint fill_out (str : list Z) : M board unit :=
  match str with
  | [] => ret tt
  | c :: str' =>
      modify (upd_out (fifo_put c)) ;;;
      (if c =? 10 then modify (upd_out (fifo_put 13)) else ret tt) ;;;
      fill_out str'
  end.

(** Sending from the queue while the device takes characters. *)
Definition drain_turn (_ : unit) : M board (unit + unit) :=
  v <- readl UART_FR ;;
  if Z.land v UART_FR_TXFF =? 0 then
    f <- gets (fun s => fifo_out (uart s)) ;;
    if negb (frp f =? fwp f) then
      writel (fifo_front f) UART_DR ;;; modify (upd_out fifo_next) ;;; ret (inl tt)
    else ret (inr tt)
  else ret (inr tt).
Definition drain_out : M board unit :=
  n <- gets (fun s => length (reads s)) ;; loop (S n) drain_turn tt.

Section Serial.
Context (E : env) (serial_sem : Z).

Definition __puts (str : list Z) : M board unit :=
  on_kern (down E serial_sem) ;;; fill_out str ;;; drain_out ;;; on_kern (up serial_sem).

Definition putchar (c : Z) : M board unit :=
  wait_clear UART_FR UART_FR_TXFF ;;; writel (u8 c) UART_DR ;;; wait_clear UART_FR UART_FR_BUSY.

Definition __getchar_early : M board Z :=
  wait_clear UART_FR UART_FR_RXFE ;;;
  data <- readl UART_DR ;;
  if negb (Z.land data 0xFFFFFF00 =? 0) then writel 0xFFFFFFFF UART_RSR ;;; ret (u8 (-1))
  else ret (Z.land data 0xFF).

(** With an empty queue it waits for the interrupt. *)
Definition __getchar : M board Z :=
  f <- gets (fun s => fifo_in (uart s)) ;;
  if frp f =? fwp f then fail Blocked else
  on_kern (down E serial_sem) ;;;
  f <- gets (fun s => fifo_in (uart s)) ;;
  modify (upd_in fifo_next) ;;;
  on_kern (up serial_sem) ;;;
  ret (fifo_front f).

(** Receiving into the queue while the device has characters. *)
Definition receive_turn (_ : unit) : M board (unit + unit) :=
  v <- readl UART_FR ;;
  if Z.land v UART_FR_RXFE =? 0 then
    data <- readl UART_DR ;;
    (if negb (Z.land data 0xFFFFFF00 =? 0)
     then writel 0xFFFFFFFF UART_RSR ;;; modify (upd_in (fifo_put (-1)))
     else modify (upd_in (fifo_put (Z.land data 0xFF)))) ;;;
    ret (inl tt)
  else ret (inr tt).

Definition platform_uart (arg : Z) : M board handler_return :=
  reg <- readl UART_MIS ;;
  (if negb (Z.land reg UART_IMSC_TXIM =? 0) then drain_out ;;; writel UART_IMSC_TXIM UART_ICR else ret tt) ;;;
  (if negb (Z.land reg UART_IMSC_RXIM =? 0) then
     n <- gets (fun s => length (reads s)) ;;
     loop (S n) receive_turn tt ;;;
     writel UART_IMSC_RXIM UART_ICR
   else ret tt) ;;;
  unmask_interrupt INTNR_UART0 ;;;
  ret INT_NO_RESCHEDULE.
End Serial.

Definition serial_init : M board unit :=
  writel 0 UART_CR ;;;
  let temp := 16 * UART_BAUD_115200 in
  let divider := CONFIG_CLOCK / temp in
  let remainder := CONFIG_CLOCK mod temp in
  let temp := u32 (8 * remainder) / UART_BAUD_115200 in
  let fraction := Z.shiftr temp 1 + Z.land temp 1 in
  writel divider UART_IBRD ;;;
  writel fraction UART_FBRD ;;;
  writel UART_LCRH_WLEN_8 UART_LCR_H ;;;
  writel (Z.lor UART_IMSC_RXIM UART_IMSC_TXIM) UART_IMSC ;;;
  writel (Z.lor (Z.lor UART_CR_UARTEN UART_CR_TXE) UART_CR_RXE) UART_CR.

Definition _console_init (platform_uart_addr : Z) : M board unit :=
  on_kern enter_critical_section ;;;
  modify (fun s => set_uart (mk_serial (fifo_out (uart s)) (fifo_in (uart s)) false) s) ;;;
  register_int_handler INTNR_UART0 platform_uart_addr 0 ;;;
  unmask_interrupt INTNR_UART0 ;;;
  serial_init ;;;
  on_kern exit_critical_section.

(** ** platform.c *)

Definition platform_init (platform_uart_addr platform_tick_addr : Z) : M board unit :=
  platform_init_interrupts ;;;
  _console_init platform_uart_addr ;;;
  platform_init_timer platform_tick_addr.

(** ** The ring buffer as a queue *)

Record fifo_ok (f : UART_FIFO) : Prop := {
  fo_len : length (fmem f) = 1024%nat;
  fo_wp : 0 <= fwp f < 1024;
  fo_rp : 0 <= frp f < 1024
}.

Definition queued (f : UART_FIFO) : Z := (fwp f - frp f) mod 1024.
Definition slot (f : UART_FIFO) (i : Z) : Z := default 0 (fmem f !! Z.to_nat ((frp f + i) mod 1024)).
(** The characters from the place to read to the place to write. *)
Definition contents (f : UART_FIFO) : list Z := slot f <$> seqZ 0 (queued f).

Lemma queued_cases f : fifo_ok f ->
  (frp f <= fwp f /\ queued f = fwp f - frp f) \/ (fwp f < frp f /\ queued f = fwp f - frp f + 1024).
Proof.
  intros [_ Hw Hr]. unfold queued. destruct (Z.le_gt_cases (frp f) (fwp f)); [left|right]; split; try lia.
  - apply Z.mod_small. lia.
  - rewrite <- (Z.mod_add _ 1) by lia. apply Z.mod_small. lia.
Qed.

Lemma slot_cases a i : 0 <= a < 1024 -> 0 <= i < 1024 ->
  (a + i < 1024 /\ (a + i) mod 1024 = a + i) \/ (1024 <= a + i /\ (a + i) mod 1024 = a + i - 1024).
Proof.
  intros Ha Hi. destruct (Z.lt_ge_cases (a + i) 1024); [left|right]; split; try lia.
  - apply Z.mod_small. lia.
  - rewrite <- (Z.mod_add _ (-1)) by lia. apply Z.mod_small. lia.
Qed.

Lemma contents_length f : fifo_ok f -> Z.of_nat (length (contents f)) = queued f.
Proof.
  intros Hf. unfold contents. rewrite length_fmap, length_seqZ. destruct Hf as [_ Hw Hr].
  pose proof (Z.mod_pos_bound (fwp f - frp f) 1024 ltac:(lia)). unfold queued. lia.
Qed.

Lemma fifo_put_ok c f : fifo_ok f -> fifo_ok (fifo_put c f).
Proof.
  intros [Hl Hw Hr]. split; cbn; [by rewrite length_insert| |done]. unfold UART_FIFO_SIZE. apply Z.mod_pos_bound. lia.
Qed.
Lemma fifo_next_ok f : fifo_ok f -> fifo_ok (fifo_next f).
Proof. intros [Hl Hw Hr]. split; cbn; [done|done|]. unfold UART_FIFO_SIZE. apply Z.mod_pos_bound. lia. Qed.

Lemma fifo_put_queued c f : fifo_ok f -> queued (fifo_put c f) = (queued f + 1) mod 1024.
Proof.
  intros Hf. unfold queued. cbn. unfold UART_FIFO_SIZE. rewrite Zminus_mod_idemp_l, Zplus_mod_idemp_l. f_equal. lia.
Qed.

(** A character is put at the end, while there are fewer than 1023. *)
Lemma fifo_put_contents c f : fifo_ok f -> queued f < 1023 -> contents (fifo_put c f) = contents f ++ [u8 c].
Proof.
  intros Hf Hq. pose proof (queued_cases f Hf) as Hc. pose proof Hf as [Hl Hw Hr].
  assert (0 <= queued f) by (destruct Hc; lia).
  unfold contents. rewrite fifo_put_queued, Z.mod_small by (done || lia).
  replace (queued f + 1) with (queued f + Z.succ 0) by lia. rewrite seqZ_app by lia. rewrite fmap_app. cbn [seqZ]. f_equal.
  - apply list_fmap_ext. intros k i Hi. apply lookup_seqZ in Hi as [-> Hi]. unfold slot. cbn [fmem frp fifo_put].
    rewrite list_lookup_insert_ne; [done|].
    destruct (slot_cases (frp f) (0 + Z.of_nat k)) as [[? ->]|[? ->]]; [lia|lia|lia|]. destruct Hc; lia.
  - change (Z.succ 0) with 1. rewrite Z.add_0_l, (seqZ_cons _ 1) by lia. cbn [fmap list_fmap Z.pred]. f_equal.
    unfold slot. cbn [fmem frp fifo_put]. replace ((frp f + queued f) mod 1024) with (fwp f).
    + rewrite list_lookup_insert_eq by lia. done.
    + destruct (slot_cases (frp f) (queued f)) as [[? ->]|[? ->]]; destruct Hc; lia.
Qed.

Lemma fifo_empty f : fifo_ok f -> frp f = fwp f -> contents f = [].
Proof. intros Hf E. unfold contents, queued. rewrite E, Z.sub_diag. done. Qed.

(** The front is read and dropped. *)
Lemma fifo_next_contents f : fifo_ok f -> frp f <> fwp f -> contents f = fifo_front f :: contents (fifo_next f).
Proof.
  intros Hf Hne. pose proof (queued_cases f Hf) as Hc. pose proof (queued_cases _ (fifo_next_ok f Hf)) as Hc'.
  pose proof Hf as [Hl Hw Hr]. cbn [fwp frp fifo_next] in Hc'. unfold UART_FIFO_SIZE in Hc'.
  assert (Hn : queued (fifo_next f) = queued f - 1).
  { destruct (slot_cases (frp f) 1) as [[? E]|[? E]]; [lia|lia| |]; rewrite E in Hc'; destruct Hc, Hc'; lia. }
  unfold contents. rewrite Hn, seqZ_cons by (destruct Hc; lia). cbn [fmap list_fmap]. rewrite <- Z.sub_1_r. f_equal.
  - unfold slot, fifo_front. rewrite Z.add_0_r, Z.mod_small by lia. done.
  - change (Z.succ 0) with (1 + 0). rewrite <- (fmap_add_seqZ 1 0), <- list_fmap_compose. apply list_fmap_ext.
    intros k i Hi. cbn. unfold slot, UART_FIFO_SIZE. cbn. rewrite Zplus_mod_idemp_l, Z.add_assoc. done.
Qed.

(** The characters given to the device, in order. *)
Definition sent (s : board) : list Z :=
  reverse ((fun p => snd p) <$> filter (fun p : Z * Z => fst p = UART_DR) (writes s)).

(** What a string becomes on the line. *)
Fixpoint crlf (str : list Z) : list Z :=
  match str with
  | [] => []
  | c :: str' => u8 c :: (if c =? 10 then [13] else []) ++ crlf str'
  end.

Lemma sent_dr v s : sent (set_writes ((UART_DR, v) :: writes s) s) = sent s ++ [v].
Proof. unfold sent. cbn [writes set_writes]. rewrite filter_cons_True by done. rewrite fmap_cons, reverse_cons. done. Qed.

Lemma wp_readl a v l s (Q : Z -> board -> Prop) :
  reads s = v :: l -> Q v (set_reads l s) -> wp (readl a) Q s.
Proof. intros Hr HQ. unfold readl. wp_simpl. rewrite Hr. by wp_simpl. Qed.

(** What the routines of the serial port leave alone. *)
Record same_but_out (s s' : board) : Prop := {
  sb_kern : kern s' = kern s;
  sb_table : int_handler_table s' = int_handler_table s;
  sb_timer : t_callback s' = t_callback s /\ timer_reload s' = timer_reload s;
  sb_in : fifo_in (uart s') = fifo_in (uart s);
  sb_early : early (uart s') = early (uart s)
}.
Lemma same_but_out_refl s : same_but_out s s.
Proof. by split. Qed.
Lemma same_but_out_trans s1 s2 s3 : same_but_out s1 s2 -> same_but_out s2 s3 -> same_but_out s1 s3.
Proof. intros [?? [? ?] ??] [?? [? ?] ??]. split; [congruence|congruence|split; congruence|congruence|congruence]. Qed.

Lemma wp_fill_out str : forall s (Q : unit -> board -> Prop),
  fifo_ok (fifo_out (uart s)) -> queued (fifo_out (uart s)) + Z.of_nat (length (crlf str)) < 1024 ->
  (forall s', same_but_out s s' -> reads s' = reads s -> writes s' = writes s -> fifo_ok (fifo_out (uart s')) ->
     contents (fifo_out (uart s')) = contents (fifo_out (uart s)) ++ crlf str -> Q tt s') ->
  wp (fill_out str) Q s.
Proof.
  induction str as [|c str IH]; intros s Q Hf Hq HQ; cbn [fill_out].
  - wp_simpl. apply HQ; [apply same_but_out_refl|done|done|done|by rewrite app_nil_r].
  - cbn [crlf length] in Hq. rewrite length_app in Hq. wp_simpl.
    assert (H1 : fifo_ok (fifo_out (uart (upd_out (fifo_put c) s)))) by (by apply fifo_put_ok).
    assert (Hq1 : queued (fifo_put c (fifo_out (uart s))) = queued (fifo_out (uart s)) + 1).
    { rewrite fifo_put_queued by done. apply Z.mod_small. pose proof (contents_length _ Hf). lia. }
    assert (Hc1 := fifo_put_contents c _ Hf ltac:(lia)).
    destruct (Z.eqb_spec c 10) as [E|E]; wp_simpl.
    + apply IH.
      * by apply fifo_put_ok.
      * cbn [uart upd_out set_uart fifo_out]. rewrite fifo_put_queued by done. rewrite Hq1. cbn [length] in Hq.
        pose proof (contents_length _ Hf). rewrite Z.mod_small by lia. lia.
      * intros s' Hs Hr Hw Ho Hc. apply HQ; [by eapply same_but_out_trans; [|exact Hs]; split|done|done|done|].
        rewrite Hc. cbn [uart upd_out set_uart fifo_out crlf]. cbn [length] in Hq.
        rewrite fifo_put_contents by (done || lia). rewrite Hc1, (proj2 (Z.eqb_eq c 10) E), <- !app_assoc. done.
    + apply IH; [done| |].
      * cbn [uart upd_out set_uart fifo_out]. rewrite Hq1. cbn [length] in Hq. lia.
      * intros s' Hs Hr Hw Ho Hc. apply HQ; [by eapply same_but_out_trans; [|exact Hs]; split|done|done|done|].
        rewrite Hc. cbn [uart upd_out set_uart fifo_out crlf]. rewrite Hc1, (proj2 (Z.eqb_neq c 10) E), <- !app_assoc. done.
Qed.

(** The device may take any number of characters, or none: what it has been given
    and what is queued stay the same together. *)
Lemma wp_drain_loop : forall l fuel s (Q : unit -> board -> Prop),
  reads s = l -> fifo_ok (fifo_out (uart s)) -> (length (contents (fifo_out (uart s))) < length l < fuel)%nat ->
  (forall s', same_but_out s s' -> fifo_ok (fifo_out (uart s')) ->
     sent s' ++ contents (fifo_out (uart s')) = sent s ++ contents (fifo_out (uart s)) -> Q tt s') ->
  wp (loop fuel drain_turn tt) Q s.
Proof.
  induction l as [|v l IH]; intros fuel s Q Hr Hf Hl HQ; [cbn in Hl; lia|]. destruct fuel as [|fuel]; [cbn in Hl; lia|].
  cbn [loop]. unfold drain_turn at 1. wp_simpl. eapply wp_readl; [exact Hr|].
  destruct (Z.land v UART_FR_TXFF =? 0).
  - wp_simpl. cbn [uart set_reads]. destruct (Z.eqb_spec (frp (fifo_out (uart s))) (fwp (fifo_out (uart s)))) as [E|E]; cbn [negb].
    + wp_simpl. apply HQ; [by split|done|done].
    + unfold writel. wp_simpl. pose proof (fifo_next_contents _ Hf E) as Hn.
      apply (IH fuel); [done|by apply fifo_next_ok| |].
      * cbn [uart upd_out set_uart set_writes set_reads fifo_out]. rewrite Hn in Hl. cbn [length] in Hl. lia.
      * intros s' Hs Ho Hc. apply HQ; [eapply same_but_out_trans; [|exact Hs]; by split|done|].
        rewrite Hc. cbn [uart upd_out set_uart set_writes set_reads fifo_out].
        transitivity ((sent s ++ [fifo_front (fifo_out (uart s))]) ++ contents (fifo_next (fifo_out (uart s)))).
        { f_equal. exact (sent_dr _ s). }
        rewrite Hn, <- app_assoc. done.
  - wp_simpl. apply HQ; [by split|done|done].
Qed.

(** ** Properties of the serial port *)

(** The semaphore is free and nobody waits for it. *)
Definition sem_free (sem : Z) (k : kst) : Prop :=
  sems k !! sem = Some 1 /\ exists f, lists (links k) f /\ f !! wait_list sem = Some [].

Lemma sem_free_after sem k n b n' b' :
  sem_free sem k ->
  sem_free sem (crit_set n b (set_sems (<[sem := 1]> (sems (crit_set n' b' (set_sems (<[sem := 0]> (sems k)) k))))
    (crit_set n' b' (set_sems (<[sem := 0]> (sems k)) k)))).
Proof. intros (Hs & f & Hl & Hf). split; [apply lookup_insert_eq|]. by exists f. Qed.

(** The lock around a piece of work that leaves the kernel alone. *)
Lemma wp_locked {A} E sem (m : M board A) (s : board) (Q : A -> board -> Prop) :
  sem_free sem (kern s) ->
  (forall k, wp m (fun a s' => kern s' = k /\ forall k', sem_free sem k' -> Q a (set_kern k' s')) (set_kern k s)) ->
  wp (on_kern (down E sem) ;;; a <- m ;; on_kern (up sem) ;;; ret a) Q s.
Proof.
  intros Hf Hm. pose proof Hf as (Hs & f & Hl & Hw). unfold on_kern. wp_simpl.
  eapply (wp_down E sem 1); [exact Hs|lia|]. intros n b. wp_simpl. eapply wp_mono; [apply Hm|]. cbv beta. intros a s' [Hk HQ].
  wp_simpl. rewrite Hk. eapply (wp_up f sem 0); [exact Hl|exact Hw|apply lookup_insert_eq|lia|].
  intros n' b'. wp_simpl. apply HQ. by apply sem_free_after.
Qed.

(** [C25] [__puts]: with room in the queue, what the device has been given followed
    by what is queued becomes the same followed by the string, with a carriage
    return behind every newline; nothing is lost, repeated or reordered, however
    many characters the device takes.  The lock is free again. *)
Theorem puts_in_order E serial_sem str (s : board) :
  sem_free serial_sem (kern s) -> fifo_ok (fifo_out (uart s)) ->
  Z.of_nat (length (contents (fifo_out (uart s)) ++ crlf str)) < 1024 ->
  (length (contents (fifo_out (uart s)) ++ crlf str) < length (reads s))%nat ->
  exists s', __puts E serial_sem str s = Ok (tt, s') /\
    sent s' ++ contents (fifo_out (uart s')) = sent s ++ contents (fifo_out (uart s)) ++ crlf str /\
    fifo_ok (fifo_out (uart s')) /\ fifo_in (uart s') = fifo_in (uart s) /\ sem_free serial_sem (kern s').
Proof.
  intros Hs Hf Hq Hr. rewrite length_app in Hq, Hr.
  set (Q := fun (_ : unit) (s' : board) =>
    sent s' ++ contents (fifo_out (uart s')) = sent s ++ contents (fifo_out (uart s)) ++ crlf str /\
    fifo_ok (fifo_out (uart s')) /\ fifo_in (uart s') = fifo_in (uart s) /\ sem_free serial_sem (kern s')).
  assert (Hwp : wp (on_kern (down E serial_sem) ;;; a <- (fill_out str ;;; drain_out) ;; on_kern (up serial_sem) ;;; ret a) Q s).
  { apply wp_locked; [done|]. intros k. wp_simpl. apply wp_fill_out; [done|cbn; rewrite <- contents_length by done; lia|].
    intros s1 Hb Hr1 Hw1 Hf1 Hc1. unfold drain_out. wp_simpl. eapply wp_drain_loop; [reflexivity|done| |].
    { rewrite Hc1, length_app, Hr1. cbn. lia. }
    intros s2 Hb2 Hf2 Hc2. pose proof (same_but_out_trans _ _ _ Hb Hb2) as [Hk _ _ Hi _]. split; [exact Hk|].
    intros k' Hk'. unfold Q. cbn [uart set_kern kern]. split; [|by rewrite Hi].
    change (sent (set_kern k' s2)) with (sent s2). rewrite Hc2, Hc1. f_equal. unfold sent. by rewrite Hw1. }
  destruct (wp_elim _ _ _ Hwp) as ([] & s' & E1 & HQ). exists s'. split; [|exact HQ]. revert E1.
  unfold __puts, bind. destruct (on_kern (down E serial_sem) s) as [[[] s1]|]; [|done].
  destruct (fill_out str s1) as [[[] s2]|]; [|done]. destruct (drain_out s2) as [[[] s3]|]; [|done].
  destruct (on_kern (up serial_sem) s3) as [[[] s4]|]; done.
Qed.

(** [__getchar] takes the first character that was received. *)
Theorem getchar_takes_first E serial_sem c l (s : board) :
  sem_free serial_sem (kern s) -> fifo_ok (fifo_in (uart s)) -> contents (fifo_in (uart s)) = c :: l ->
  exists s', __getchar E serial_sem s = Ok (c, s') /\ contents (fifo_in (uart s')) = l /\
    fifo_ok (fifo_in (uart s')) /\ fifo_out (uart s') = fifo_out (uart s) /\ sem_free serial_sem (kern s').
Proof.
  intros Hs Hf Hc.
  set (Q := fun (r : Z) (s' : board) => r = c /\ contents (fifo_in (uart s')) = l /\
    fifo_ok (fifo_in (uart s')) /\ fifo_out (uart s') = fifo_out (uart s) /\ sem_free serial_sem (kern s')).
  assert (Hne : frp (fifo_in (uart s)) <> fwp (fifo_in (uart s))).
  { intros E0. rewrite fifo_empty in Hc by done. done. }
  pose proof (fifo_next_contents _ Hf Hne) as Hn. rewrite Hc in Hn. injection Hn as -> ->.
  assert (Hwp : wp (on_kern (down E serial_sem) ;;;
    a <- (f <- gets (fun s => fifo_in (uart s)) ;; modify (upd_in fifo_next) ;;; ret (fifo_front f)) ;;
    on_kern (up serial_sem) ;;; ret a) Q s).
  { apply wp_locked; [done|]. intros k. wp_simpl. split; [done|]. intros k' Hk'. split_and!; try done. by apply fifo_next_ok. }
  destruct (wp_elim _ _ _ Hwp) as (r & s' & E1 & -> & HQ). exists s'. split; [|exact HQ]. revert E1.
  unfold __getchar, bind, gets, modify, ret. destruct (Z.eqb_spec (frp (fifo_in (uart s))) (fwp (fifo_in (uart s)))); [done|].
  destruct (on_kern (down E serial_sem) s) as [[[] s1]|]; [|done].
  destruct (on_kern (up serial_sem) _) as [[[] s2]|]; done.
Qed.

Lemma fill_out_queued str : forall s,
  fifo_ok (fifo_out (uart s)) ->
  exists s', fill_out str s = Ok (tt, s') /\ fifo_ok (fifo_out (uart s')) /\
    queued (fifo_out (uart s')) = (queued (fifo_out (uart s)) + Z.of_nat (length (crlf str))) mod 1024.
Proof.
  induction str as [|c str IH]; intros s Hf; cbn [fill_out].
  - exists s. split; [done|]. split; [done|]. cbn. rewrite Z.add_0_r. unfold queued. by rewrite Z.mod_mod.
  - unfold bind, modify, ret. destruct (Z.eqb_spec c 10) as [E|E].
    + destruct (IH (upd_out (fifo_put 13) (upd_out (fifo_put c) s))) as (s' & E1 & Hf' & Hq).
      { by apply fifo_put_ok, fifo_put_ok. }
      exists s'. split; [exact E1|]. split; [done|]. rewrite Hq. cbn [uart upd_out set_uart fifo_out crlf].
      rewrite (proj2 (Z.eqb_eq c 10) E). rewrite !fifo_put_queued by (try apply fifo_put_ok; done).
      rewrite Zplus_mod_idemp_l, <- Z.add_assoc, Zplus_mod_idemp_l. f_equal.
      rewrite length_cons, length_app. cbn [length]. lia.
    + destruct (IH (upd_out (fifo_put c) s)) as (s' & E1 & Hf' & Hq); [by apply fifo_put_ok|].
      exists s'. split; [exact E1|]. split; [done|]. rewrite Hq. cbn [uart upd_out set_uart fifo_out crlf].
      rewrite (proj2 (Z.eqb_neq c 10) E), fifo_put_queued by done. rewrite Zplus_mod_idemp_l. f_equal.
      rewrite length_cons, length_app. cbn [length]. lia.
Qed.

(** The queue of 1024 places holds 1023 characters: the one that fills the
    last place makes it look empty, and everything that was queued is lost. *)
Theorem puts_overrun str (s : board) :
  fifo_ok (fifo_out (uart s)) ->
  Z.of_nat (length (contents (fifo_out (uart s)) ++ crlf str)) = 1024 ->
  exists s', fill_out str s = Ok (tt, s') /\ contents (fifo_out (uart s')) = [].
Proof.
  intros Hf Hl. rewrite length_app, Nat2Z.inj_add, contents_length in Hl by done.
  destruct (fill_out_queued str s Hf) as (s' & E & Hf' & Hq). exists s'. split; [done|].
  unfold contents. rewrite Hq, Hl. done.
Qed.

(** A received word: the errors are in the bits above the character. *)
Definition rx_byte (d : Z) : Z := if negb (Z.land d 0xFFFFFF00 =? 0) then 255 else u8 (Z.land d 0xFF).

(** What the device says while it has the words [ds]. *)
Fixpoint rx_reads (ds : list (Z * Z)) (rest : list Z) : list Z :=
  match ds with
  | [] => rest
  | (fr, d) :: ds' => fr :: d :: rx_reads ds' rest
  end.

Lemma wp_receive_loop ds last rest : forall fuel s (Q : unit -> board -> Prop),
  reads s = rx_reads ds (last :: rest) -> Forall (fun p => Z.land (fst p) UART_FR_RXFE = 0) ds ->
  Z.land last UART_FR_RXFE <> 0 -> fifo_ok (fifo_in (uart s)) ->
  queued (fifo_in (uart s)) + Z.of_nat (length ds) < 1024 -> (length ds < fuel)%nat ->
  (forall s', kern s' = kern s -> reads s' = rest -> fifo_out (uart s') = fifo_out (uart s) ->
     sent s' = sent s -> fifo_ok (fifo_in (uart s')) ->
     contents (fifo_in (uart s')) = contents (fifo_in (uart s)) ++ (rx_byte ∘ snd <$> ds) -> Q tt s') ->
  wp (loop fuel receive_turn tt) Q s.
Proof.
  induction ds as [|[fr d] ds IH]; intros fuel s Q Hr Hds Hl Hf Hq Hfu HQ; (destruct fuel as [|fuel]; [lia|]);
    cbn [loop]; unfold receive_turn at 1; wp_simpl; (eapply wp_readl; [exact Hr|]).
  - destruct (Z.eqb_spec (Z.land last UART_FR_RXFE) 0); [done|]. wp_simpl. apply HQ; [done..|]. by rewrite app_nil_r.
  - apply Forall_cons in Hds as [H0 Hds]. cbn in H0. rewrite H0. cbn [Z.eqb]. wp_simpl. eapply wp_readl; [reflexivity|].
    cbn [length] in Hq, Hfu. set (s0 := set_reads _ _).
    assert (Hput : forall c, u8 c = rx_byte d -> forall s1, uart s1 = uart s0 -> kern s1 = kern s0 -> reads s1 = reads s0 -> sent s1 = sent s0 ->
      wp (loop fuel receive_turn tt) Q (upd_in (fifo_put c) s1)).
    { intros c Hc s1 Hu Hk1 Hr1 Hs1. apply (IH fuel).
      - cbn [upd_in set_uart reads]. by rewrite Hr1.
      - done.
      - done.
      - cbn. rewrite Hu. by apply fifo_put_ok.
      - cbn. rewrite Hu. cbn. rewrite fifo_put_queued by done. pose proof (contents_length _ Hf). rewrite Z.mod_small by lia. lia.
      - lia.
      - intros s' Hk' Hr' Ho' Hs' Hf' Hc'. apply HQ; [by rewrite Hk'|done| | |done|].
        + rewrite Ho'. cbn. by rewrite Hu.
        + rewrite Hs'. exact Hs1.
        + rewrite Hc'. cbn. rewrite Hu. cbn. rewrite fifo_put_contents by (done || lia). by rewrite Hc, <- app_assoc. }
    destruct (negb (Z.land d 0xFFFFFF00 =? 0)) eqn:Ed; unfold writel; wp_simpl.
    + apply Hput; [unfold rx_byte; by rewrite Ed|done..].
    + apply Hput; [unfold rx_byte; by rewrite Ed|done..].
Qed.

Lemma wp_unmask vector s (Q : Z -> board -> Prop) :
  (forall k n b n' b', Q 0 (set_kern (crit_set n b k) (set_writes ((ioaddr_intc REG_INTC_INTENABLE, u32 (Z.shiftl 1 vector)) :: writes s)
     (set_kern (crit_set n' b' (kern s)) s)))) -> 0 <= vector <= 31 -> wp (unmask_interrupt vector) Q s.
Proof.
  intros HQ Hv. unfold unmask_interrupt. destruct (Z.ltb_spec INTNR_IRQ_END vector); [unfold INTNR_IRQ_END in *; lia|].
  unfold on_kern, writel. wp_simpl. apply wp_enter_any. intros n b. wp_simpl. apply wp_exit_any. intros n' b'. wp_simpl.
  unfold INTNR_IRQ_START. rewrite Z.sub_0_r, (u32_small vector) by lia. apply HQ.
Qed.

(** The interrupt of the serial port with received characters: all that the
    device has are appended to the queue of received characters, in order, those
    with an error as 255, and the interrupt is enabled again. *)
Theorem uart_receives arg mis ds last rest (s : board) :
  reads s = mis :: rx_reads ds (last :: rest) ->
  Z.land mis UART_IMSC_TXIM = 0 -> Z.land mis UART_IMSC_RXIM <> 0 ->
  Forall (fun p => Z.land (fst p) UART_FR_RXFE = 0) ds -> Z.land last UART_FR_RXFE <> 0 ->
  fifo_ok (fifo_in (uart s)) -> Z.of_nat (length (contents (fifo_in (uart s))) + length ds) < 1024 ->
  exists s', platform_uart arg s = Ok (INT_NO_RESCHEDULE, s') /\
    contents (fifo_in (uart s')) = contents (fifo_in (uart s)) ++ (rx_byte ∘ snd <$> ds) /\
    fifo_ok (fifo_in (uart s')) /\ fifo_out (uart s') = fifo_out (uart s) /\ reads s' = rest /\
    head (writes s') = Some (ioaddr_intc REG_INTC_INTENABLE, 1024).
Proof.
  intros Hr Ht Hx Hds Hl Hf Hq.
  set (Q := fun (r : handler_return) (s' : board) => r = INT_NO_RESCHEDULE /\
    contents (fifo_in (uart s')) = contents (fifo_in (uart s)) ++ (rx_byte ∘ snd <$> ds) /\
    fifo_ok (fifo_in (uart s')) /\ fifo_out (uart s') = fifo_out (uart s) /\ reads s' = rest /\
    head (writes s') = Some (ioaddr_intc REG_INTC_INTENABLE, 1024)).
  destruct (wp_elim (platform_uart arg) Q s) as (r & s' & E & -> & HQ); [|by exists s'].
  unfold platform_uart. wp_simpl. eapply wp_readl; [exact Hr|]. rewrite Ht. cbn [Z.eqb negb]. wp_simpl.
  destruct (Z.eqb_spec (Z.land mis UART_IMSC_RXIM) 0); [done|]. cbn [negb]. wp_simpl.
  eapply (wp_receive_loop ds last rest); [reflexivity|done|done|done| | |].
  - cbn. rewrite <- contents_length by done. lia.
  - cbn. clear. induction ds as [|[fr d] ds IH]; cbn; lia.
  - intros s1 Hk Hr1 Ho Hs1 Hf1 Hc1. unfold writel. wp_simpl. apply wp_unmask; [|unfold INTNR_UART0; lia].
    intros k n1 b1 n2 b2. cbv beta. wp_simpl. unfold Q. cbn in *. split_and!; done.
Qed.

(** ** Properties of the interrupts *)

Section IrqSpec.
Context (handler_code : Z -> Z -> M board handler_return).

(** The handlers [num + 1], ..., [num + n], one after the other; the result is the
    one of the last that there is. *)
Fixpoint call_from (num : Z) (n : nat) (r : handler_return) : M board handler_return :=
  match n with
  | O => ret r
  | S n =>
      h <- rd_handler (num + 1) ;;
      r' <- (if fst h =? NULL then ret r else handler_code (fst h) (snd h)) ;;
      call_from (num + 1) n r'
  end.

(** The number of bits of a status. *)
Definition bits (st : Z) : nat := if st =? 0 then O else S (Z.to_nat (Z.log2 st)).

Lemma bits_half st : 0 < st -> bits st = S (bits (Z.shiftr st 1)).
Proof.
  intros H. unfold bits. destruct (Z.eqb_spec st 0); [lia|]. rewrite Z.shiftr_div_pow2 by lia. change (2 ^ 1) with 2. f_equal.
  destruct (Z.eqb_spec (st / 2) 0) as [E|E].
  - assert (st = 1) as -> by (pose proof (Z.div_mod st 2 ltac:(lia)); pose proof (Z.mod_pos_bound st 2 ltac:(lia)); lia). done.
  - rewrite <- Z.div2_div. rewrite <- Z.div2_div in E. pose proof (Z.log2_nonneg (Z.div2 st)).
    assert (Hl : Z.log2 st = Z.succ (Z.log2 (Z.div2 st))).
    { assert (0 < Z.div2 st) by (rewrite Z.div2_div in *; pose proof (Z.div_pos st 2); lia).
      rewrite (Z.div2_odd st) at 1. destruct (Z.odd st); cbn [Z.b2z].
      - by rewrite Z.log2_succ_double.
      - by rewrite Z.add_0_r, Z.log2_double. }
    rewrite Hl. lia.
Qed.

Lemma irq_loop fuel : forall st num r s, 0 <= st -> (bits st < fuel)%nat ->
  loop fuel (irq_turn handler_code) (st, num, r) s = call_from num (bits st) r s.
Proof.
  induction fuel as [|fuel IH]; intros st num r s Hst Hf; [lia|]. cbn [loop]. unfold irq_turn at 1.
  destruct (Z.eqb_spec st 0) as [->|Hne]; [done|]. rewrite bits_half in * by lia.
  cbn [call_from]. unfold bind. destruct (rd_handler (num + 1) s) as [[h s1]|]; [|done].
  assert (Hs : 0 <= Z.shiftr st 1) by (by apply Z.shiftr_nonneg).
  destruct (fst h =? NULL); cbn [negb].
  - cbn. apply IH; [done|lia].
  - destruct (handler_code (fst h) (snd h) s1) as [[r' s2]|]; [|done]. cbn. apply IH; [done|lia].
Qed.

(** What an interrupt calls: for a status with the highest bit [n], the handlers
    with the numbers 1 to [n + 1], in this order, whether their own bits are set or
    not; handler 0 never. *)
Theorem platform_irq_calls st rest (s : board) :
  reads s = st :: rest -> 0 <= st < 2 ^ 32 ->
  platform_irq handler_code s = call_from 0 (bits st) INT_NO_RESCHEDULE (set_reads rest s).
Proof.
  intros Hr Hst. unfold platform_irq, readl, bind, gets. rewrite Hr. cbn [modify ret].
  apply irq_loop; [lia|]. unfold bits. destruct (Z.eqb_spec st 0); [lia|].
  assert (Z.log2 st < 32) by (apply Z.log2_lt_pow2; lia). lia.
Qed.

Lemma call_from_empty n : forall num r s,
  int_handler_table s = replicate 31 (NULL, 0) -> 0 <= num <= 30 -> 31 <= num + Z.of_nat n ->
  call_from num n r s = Err (BadIndex 31).
Proof.
  induction n as [|n IH]; intros num r s Ht Hn Hb; [lia|]. cbn [call_from].
  unfold bind at 1. unfold rd_handler, bind, gets. rewrite Ht. destruct (Z.leb_spec 0 (num + 1)); [|lia].
  destruct (Z.eq_dec num 30) as [->|Hne]; [done|].
  rewrite lookup_replicate_2 by lia. cbn. apply IH; [done|lia|lia].
Qed.

(** A status with bit 30 or 31 reads the table past its end. *)
Theorem platform_irq_past_table st rest (s : board) :
  reads s = st :: rest -> 2 ^ 30 <= st < 2 ^ 32 -> int_handler_table s = replicate 31 (NULL, 0) ->
  platform_irq handler_code s = Err (BadIndex 31).
Proof.
  intros Hr Hst Ht. unfold platform_irq, readl, bind, gets. rewrite Hr. cbn [modify ret].
  rewrite irq_loop; [|lia|].
  - assert (Hb : exists k, bits st = (31 + k)%nat).
    { unfold bits. destruct (Z.eqb_spec st 0); [lia|].
      assert (30 <= Z.log2 st) by (apply Z.log2_le_pow2; lia). exists (Z.to_nat (Z.log2 st) - 30)%nat. lia. }
    destruct Hb as [k ->]. apply call_from_empty; [done|lia|lia].
  - unfold bits. destruct (Z.eqb_spec st 0); [lia|]. assert (Z.log2 st < 32) by (apply Z.log2_lt_pow2; lia). lia.
Qed.

End IrqSpec.

(** ** Properties of the timer *)

(** The time that a tick adds: between two reloads of the counter, with the
    interrupt pending, a period counts as 8 ms (the multiplication by 2 stands for
    2.5), up to 15 when the interrupt is late, though [HZ] is 100; nothing
    overflows. *)
Theorem gettimeoffset_value v0 status v rest (s : board) :
  reads s = v0 :: status :: v :: rest -> timer_reload s = 6800000 -> 0 < v <= v0 -> v <= 6800000 ->
  let pending := negb (Z.land status 4 =? 0) in
  exists s', gettimeoffset s = Ok ((6800000 - v + (if pending then 6800000 else 0)) / 850000, s') /\
    reads s' = rest /\ kern s' = kern s /\
    (if pending then 8 else 0) <= (6800000 - v + (if pending then 6800000 else 0)) / 850000 <= (if pending then 15 else 7).
Proof.
  intros Hr Ht Hv Hv2 pending. exists (set_reads rest (set_reads (v :: rest) (set_reads (status :: v :: rest) s))).
  split.
  - unfold gettimeoffset, readl, bind, gets. rewrite Hr. cbn [modify ret loop reads set_reads length].
    unfold bind. cbn [reads set_reads modify ret].
    destruct (Z.ltb_spec v0 v); [lia|]. destruct (Z.eqb_spec v 0); [lia|]. cbn [orb]. cbn [timer_reload set_reads].
    cbn [ret timer_reload set_reads]. rewrite Ht. rewrite (u32_small (6800000 - v)) by lia. change (Z.shiftl 1 CFG_TIMER_INTNR) with 4. fold pending.
    unfold ticks2ms. change (Z.shiftr 6800000 2) with 1700000. change (Z.shiftr (1000 / HZ) 2) with 2. cbn [Z.eqb].
    unfold ret. f_equal. f_equal. destruct pending; rewrite ?(u32_small (6800000 - v + 6800000)) by lia; rewrite u32_small by lia;
      (change 1700000 with (850000 * 2); rewrite Z.div_mul_cancel_r by lia; f_equal; lia).
  - split_and!; [done|done| |]; destruct pending.
    + apply Z.div_le_lower_bound; lia.
    + apply Z.div_le_lower_bound; lia.
    + apply Z.lt_succ_r. apply Z.div_lt_upper_bound; lia.
    + apply Z.lt_succ_r. apply Z.div_lt_upper_bound; lia.
Qed.

(** A clock register with a divider of zero stops the kernel at the start of
    the periodic timer. *)
Theorem set_periodic_timer_div_zero callback arg interval pllc rest (s : board) :
  reads s = pllc :: rest -> REFDIV pllc = 0 -> platform_set_periodic_timer callback arg interval s = Err DivByZero.
Proof.
  intros Hr Hd. unfold platform_set_periodic_timer, bind, on_kern, zoom.
  destruct (enter_critical_section (kern s)) as [[[] k]|e] eqn:E.
  - unfold readl, bind, gets, modify, writel, modify. cbn [reads set_writes set_timer set_kern]. rewrite Hr. cbn [ret].
    unfold is_pllc_invalid, pll_value, bind. rewrite Hd. done.
  - exfalso. revert E. unfold enter_critical_section, bind, gets, modify. destruct (_ =? 0); done.
Qed.

(** ** Examples *)

Definition demo_fifo (l : list Z) : UART_FIFO :=
  mk_fifo (replicate 1020 0 ++ take 4 l ++ replicate (4 - length l) 0) ((1020 + Z.of_nat (length l)) mod 1024) 1020.
Definition demo_board (rs : list Z) (out inp : UART_FIFO) : board :=
  mk_board (demo_sem 1) rs [] (replicate 31 (NULL, 0)) NULL 6800000 (mk_serial out inp false).

Lemma demo_sem_free : sem_free 3000 (demo_sem 1).
Proof.
  split; [vm_compute; reflexivity|]. exists (list_to_map [(3004, [])]).
  split; [apply lists_b_sound; vm_compute; reflexivity|reflexivity].
Qed.

Lemma demo_fifo_ok l : (length l <= 4)%nat -> fifo_ok (demo_fifo l).
Proof.
  intros Hl. split; cbn [fmem fwp frp demo_fifo].
  - rewrite !length_app, !length_replicate, length_take. lia.
  - apply Z.mod_pos_bound. lia.
  - lia.
Qed.

(** "!" behind "ok" that is still queued, while the device takes two characters. *)
Lemma puts_in_order_witness :
  exists s', __puts demo_env 3000 [33; 10] (demo_board [0; 0; 0x20; 0; 0; 0] (demo_fifo [111; 107]) (demo_fifo [])) = Ok (tt, s') /\
    sent s' ++ contents (fifo_out (uart s')) = [111; 107; 33; 10; 13].
Proof.
  destruct (puts_in_order demo_env 3000 [33; 10] (demo_board [0; 0; 0x20; 0; 0; 0] (demo_fifo [111; 107]) (demo_fifo [])))
    as (s' & E & Hc & _).
  - exact demo_sem_free.
  - apply demo_fifo_ok. cbn. lia.
  - vm_compute. reflexivity.
  - apply Nat.ltb_lt. vm_compute. reflexivity.
  - exists s'. split; [exact E|]. rewrite Hc. vm_compute. reflexivity.
Defined.

Lemma getchar_takes_first_witness :
  exists s', __getchar demo_env 3000 (demo_board [] (demo_fifo []) (demo_fifo [111; 107])) = Ok (111, s') /\
    contents (fifo_in (uart s')) = [107].
Proof.
  destruct (getchar_takes_first demo_env 3000 111 [107] (demo_board [] (demo_fifo []) (demo_fifo [111; 107])))
    as (s' & E & Hc & _).
  - exact demo_sem_free.
  - apply demo_fifo_ok. cbn. lia.
  - vm_compute. reflexivity.
  - exists s'. exact (conj E Hc).
Defined.

Lemma puts_overrun_witness :
  exists s', fill_out (replicate 1022 65) (demo_board [] (demo_fifo [111; 107]) (demo_fifo [])) = Ok (tt, s') /\
    contents (fifo_out (uart s')) = [].
Proof.
  apply (puts_overrun (replicate 1022 65) (demo_board [] (demo_fifo [111; 107]) (demo_fifo []))).
  - apply demo_fifo_ok. cbn. lia.
  - vm_compute. reflexivity.
Defined.

(** Two words, the second with a framing error. *)
Lemma uart_receives_witness :
  exists s', platform_uart 0 (demo_board [0x10; 0; 97; 0; 0x141; 0x10] (demo_fifo []) (demo_fifo [111])) = Ok (INT_NO_RESCHEDULE, s') /\
    contents (fifo_in (uart s')) = [111; 97; 255].
Proof.
  destruct (uart_receives 0 0x10 [(0, 97); (0, 0x141)] 0x10 [] (demo_board [0x10; 0; 97; 0; 0x141; 0x10] (demo_fifo []) (demo_fifo [111])))
    as (s' & E & Hc & _).
  - reflexivity.
  - reflexivity.
  - vm_compute. discriminate.
  - repeat constructor.
  - vm_compute. discriminate.
  - apply demo_fifo_ok. cbn. lia.
  - vm_compute. reflexivity.
  - exists s'. split; [exact E|]. rewrite Hc. vm_compute. reflexivity.
Defined.

(** The serial port's interrupt calls the timer's handler. *)
Definition demo_handlers (h a : Z) : M board handler_return := writel a h ;;; ret INT_RESCHEDULE.
Definition demo_irq (st : Z) : board :=
  set_table (<[2%nat := (500, 7)]> (replicate 31 (NULL, 0))) (demo_board [st] (demo_fifo []) (demo_fifo [])).

Lemma platform_irq_calls_witness :
  exists s', platform_irq demo_handlers (demo_irq (Z.shiftl 1 INTNR_UART0)) = Ok (INT_RESCHEDULE, s') /\ writes s' = [(500, 7)].
Proof.
  pose proof (platform_irq_calls demo_handlers 1024 [] (demo_irq 1024) eq_refl ltac:(lia)) as E.
  destruct (call_from _ _ _ _ _) as [[r s']|] eqn:Er in E; [|vm_compute in Er; discriminate].
  assert (Hr : call_from demo_handlers 0 (bits 1024) INT_NO_RESCHEDULE (set_reads [] (demo_irq 1024)) =
    Ok (INT_RESCHEDULE, set_writes [(500, 7)] (set_reads [] (demo_irq 1024)))) by (vm_compute; reflexivity).
  rewrite Hr in Er. injection Er as <- <-. eexists. split; [exact E|reflexivity].
Defined.

Lemma platform_irq_past_table_witness :
  platform_irq demo_handlers (demo_board [2 ^ 31] (demo_fifo []) (demo_fifo [])) = Err (BadIndex 31).
Proof. apply (platform_irq_past_table demo_handlers (2 ^ 31) []); [reflexivity|lia|reflexivity]. Defined.

Lemma gettimeoffset_value_witness :
  exists s', gettimeoffset (demo_board [6800000; 4; 6800000] (demo_fifo []) (demo_fifo [])) = Ok (8, s').
Proof.
  destruct (gettimeoffset_value 6800000 4 6800000 [] (demo_board [6800000; 4; 6800000] (demo_fifo []) (demo_fifo [])))
    as (s' & E & _); [reflexivity|reflexivity|lia|lia|].
  exists s'. exact E.
Defined.

Lemma set_periodic_timer_div_zero_witness :
  platform_set_periodic_timer 0 0 10 (demo_board [0xFFF] (demo_fifo []) (demo_fifo [])) = Err DivByZero.
Proof. apply (set_periodic_timer_div_zero 0 0 10 0xFFF []); reflexivity. Defined.
