(* ===== verification/Driver.v ===== *)
(** * drivers/base: kernel objects, buses, devices and drivers

    The structures are kept by address; their list nodes are in the kernel's heap
    of lists and their semaphores with the kernel's semaphores, at the offsets that
    the structures give them. *)

From stdpp Require Import strings.
From S2P Require Import Prelude KList KState Sched Semaphore Env PageAlloc Slob Alloc Str Bytes.

(** ** Data *)

(** [struct kobject], less its list node [entry]; a name is a string or null. *)
Record kobject : Type := mk_kobj { k_name : option (list Z); k_parent : Z; k_kset : Z }.
Definition kobj_entry (kobj : Z) : Z := kobj + 4.
Definition sizeof_kobject : Z := 20.

(** [struct kset]: [list], [list_lock] and [kobj] *)
Definition kset_list (kset : Z) : Z := kset.
Definition list_lock (kset : Z) : Z := kset + 8.
Definition kset_kobj (kset : Z) : Z := kset + 20.
Definition sizeof_kset : Z := 40.

(** [struct device] *)
Record device : Type := mk_dev { dev_bus : Z }.
Definition dev_kobj (dev : Z) : Z := dev + 4.
Definition driver_entry (dev : Z) : Z := dev + 28.
Definition kobj_to_dev (kobj : Z) : Z := kobj - 4.

(** [struct device_driver]; the two functions by their code addresses *)
Record device_driver : Type := mk_drv { drv_bus : Z; drv_probe : Z; drv_remove : Z }.
Definition drv_kobj (drv : Z) : Z := drv + 8.
Definition list_devices (drv : Z) : Z := drv + 28.
Definition kobj_to_drv (kobj : Z) : Z := kobj - 8.

(** [struct bus_type]; its functions are not used *)
Record bus_type : Type := mk_bus { devices_kset : Z; drivers_kset : Z }.
Definition bus_kobj (bus : Z) : Z := bus + 4.
Definition bus_lock (bus : Z) : Z := bus + 32.

Record dst : Type := mk_dst {
  kern : kst;
  kobjs : gmap Z kobject;
  devs : gmap Z device;
  drvs : gmap Z device_driver;
  buses : gmap Z bus_type;
  bus_kset : Z   (** drivers/base/bus.c *)
}.
Definition set_kern (v : kst) (s : dst) : dst := mk_dst v (kobjs s) (devs s) (drvs s) (buses s) (bus_kset s).
Definition set_kobjs (v : gmap Z kobject) (s : dst) : dst := mk_dst (kern s) v (devs s) (drvs s) (buses s) (bus_kset s).
Definition set_buses (v : gmap Z bus_type) (s : dst) : dst := mk_dst (kern s) (kobjs s) (devs s) (drvs s) v (bus_kset s).
Definition set_bus_kset (v : Z) (s : dst) : dst := mk_dst (kern s) (kobjs s) (devs s) (drvs s) (buses s) v.

Definition on_kern {A} (m : M kst A) : M dst A := zoom kern set_kern m.
Definition rd_at {A} (f : dst -> gmap Z A) (p : Z) : M dst A := t <- gets f ;; lift_opt (bad_ptr p) (t !! p).
Definition rd_kobj (p : Z) : M dst kobject := rd_at kobjs p.
Definition wr_kobj (p : Z) (f : kobject -> kobject) : M dst unit :=
  k <- rd_kobj p ;; modify (fun s => set_kobjs (<[p := f k]> (kobjs s)) s).
Definition wr_bus (p : Z) (f : bus_type -> bus_type) : M dst unit :=
  b <- rd_at buses p ;; modify (fun s => set_buses (<[p := f b]> (buses s)) s).

Definition with_kset (v : Z) (k : kobject) : kobject := mk_kobj (k_name k) (k_parent k) v.
Definition with_parent (v : Z) (k : kobject) : kobject := mk_kobj (k_name k) v (k_kset k).

(** [strcmp(kobject_name(k), name) == 0], for a name that is not null *)
Definition kobj_named (name : list Z) (k : kobject) : bool :=
  match k_name k with Some n => strcmp_l n name =? 0 | None => false end.

(** [list_for_each_entry], with a body that may leave the loop *)
Definition for_each_entry {R} (head : Z) (body : Z -> M dst (unit + R)) (done : R) : M dst R :=
  fuel <- gets (fun s => walk_fuel (links (kern s))) ;;
  first <- on_kern (on_links (rd_next head)) ;;
  loop fuel (fun pos =>
      if pos =? head then ret (inr done) else
      r <- body pos ;;
      match r with
      | inr x => ret (inr x)
      | inl _ => next <- on_kern (on_links (rd_next pos)) ;; ret (inl next)
      end) first.

(** The list nodes of memory that is new: they are there, with nothing in them. *)
Definition new_nodes (l : list Z) : M dst unit :=
  on_kern (modify (fun s => set_links (mk_lheap (list_to_map ((fun a => (a, 0)) <$> l) ∪ nx (links s))
    (list_to_map ((fun a => (a, 0)) <$> l) ∪ pv (links s))) s)).

Section Driver.
Context (E : env) {AL : Allocator kst}.
(** [probe] and [remove] functions, by their code address *)
Context (driver_code : Z -> Z -> M dst Z).

(** ** kobject.c *)

Definition kobject_init (kobj : Z) : M dst unit :=
  if kobj =? NULL then ret tt else on_kern (on_links (INIT_LIST_HEAD (kobj_entry kobj))).

Definition kobj_kset_join (kobj : Z) : M dst unit :=
  k <- rd_kobj kobj ;;
  if k_kset k =? NULL then ret tt else
  on_kern (down E (list_lock (k_kset k))) ;;;
  on_kern (on_links (list_add_tail (kobj_entry kobj) (kset_list (k_kset k)))) ;;;
  on_kern (up (list_lock (k_kset k))).

Definition kobj_kset_leave (kobj : Z) : M dst unit :=
  k <- rd_kobj kobj ;;
  if k_kset k =? NULL then ret tt else
  on_kern (down E (list_lock (k_kset k))) ;;;
  on_kern (on_links (list_del_init (kobj_entry kobj))) ;;;
  on_kern (up (list_lock (k_kset k))).

Definition kobject_add (kobj : Z) : M dst Z :=
  if kobj =? NULL then ret (-1) else
  k <- rd_kobj kobj ;;
  (if negb (k_kset k =? NULL) then
     let parent := if k_parent k =? NULL then kset_kobj (k_kset k) else k_parent k in
     kobj_kset_join kobj ;;; wr_kobj kobj (with_parent parent)
   else ret tt) ;;;
  ret 0.

Definition kobject_del (kobj : Z) : M dst unit :=
  if kobj =? NULL then ret tt else kobj_kset_leave kobj ;;; wr_kobj kobj (with_parent NULL).

Definition kobject_create : M dst Z :=
  kobj <- on_kern (kmalloc sizeof_kobject) ;;
  if kobj =? NULL then ret NULL else
  new_nodes [kobj_entry kobj] ;;;
  modify (fun s => set_kobjs (<[kobj := mk_kobj None NULL NULL]> (kobjs s)) s) ;;;
  kobject_init kobj ;;;
  ret kobj.

Definition kobject_create_and_add (name : option (list Z)) (parent : Z) : M dst Z :=
  kobj <- kobject_create ;;
  if kobj =? NULL then ret NULL else
  wr_kobj kobj (fun k => mk_kobj name parent (k_kset k)) ;;;
  retval <- kobject_add kobj ;;
  if negb (retval =? 0) then ret NULL else ret kobj.

Definition kset_init (k : Z) : M dst unit :=
  kobject_init (kset_kobj k) ;;;
  on_kern (on_links (INIT_LIST_HEAD (kset_list k))) ;;;
  on_kern (sema_init (list_lock k) 1).

Definition kset_register (k : Z) : M dst Z :=
  if k =? NULL then ret (-1) else
  kset_init k ;;;
  err <- kobject_add (kset_kobj k) ;;
  if negb (err =? 0) then ret err else ret 0.

Definition kset_unregister (k : Z) : M dst unit :=
  if k =? NULL then ret tt else kobject_del (kset_kobj k).

Definition kset_find_obj (kset : Z) (name : list Z) : M dst Z :=
  on_kern (down E (list_lock kset)) ;;;
  r <- for_each_entry (kset_list kset) (fun pos =>
         k <- rd_kobj (pos - 4) ;; ret (if kobj_named name k then inr (pos - 4) else inl tt)) NULL ;;
  on_kern (up (list_lock kset)) ;;;
  ret r.

Definition kset_release (kobj : Z) : M dst unit := on_kern (kfree (kobj - 20)).

(** Only the object of the set is filled in. *)
Definition kset_create (name : option (list Z)) (parent_kobj : Z) : M dst Z :=
  kset <- on_kern (kmalloc sizeof_kset) ;;
  if kset =? NULL then ret NULL else
  new_nodes [kset_list kset; wait_list (list_lock kset); kobj_entry (kset_kobj kset)] ;;;
  modify (fun s => set_kobjs (<[kset_kobj kset := mk_kobj name parent_kobj NULL]> (kobjs s)) s) ;;;
  ret kset.

Definition kset_create_and_add (name : option (list Z)) (parent_kobj : Z) : M dst Z :=
  kset <- kset_create name parent_kobj ;;
  if kset =? NULL then ret NULL else
  error <- kset_register kset ;;
  if negb (error =? 0) then on_kern (kfree kset) ;;; ret NULL else ret kset.

(** ** bus.c *)

(** The labels behind the successful path are its continuation. *)
Definition bus_register (bus : Z) : M dst Z :=
  bk <- gets bus_kset ;;
  wr_kobj (bus_kobj bus) (with_kset bk) ;;;
  retval <- kobject_add (bus_kobj bus) ;;
  if negb (retval =? 0) then ret retval else
  dk <- kset_create_and_add (Some (chars "devices")) (bus_kobj bus) ;;
  wr_bus bus (fun b => mk_bus dk (drivers_kset b)) ;;;
  if dk =? NULL then kobject_del (bus_kobj bus) ;;; ret (-1) else
  rk <- kset_create_and_add (Some (chars "drivers")) (bus_kobj bus) ;;
  wr_bus bus (fun b => mk_bus (devices_kset b) rk) ;;;
  (if rk =? NULL then ret tt else on_kern (sema_init (bus_lock bus) 1)) ;;;
  let retval := if rk =? NULL then -1 else retval in
  kset_unregister dk ;;;
  kset_release (kset_kobj dk) ;;;
  kobject_del (bus_kobj bus) ;;;
  ret retval.

Definition bus_unregister (bus : Z) : M dst unit :=
  b <- rd_at buses bus ;;
  kset_unregister (drivers_kset b) ;;;
  kset_release (kset_kobj (drivers_kset b)) ;;;
  kset_unregister (devices_kset b) ;;;
  kset_release (kset_kobj (drivers_kset b)) ;;;
  kobject_del (bus_kobj bus).

Definition bus_for_each_dev (bus : Z) (fn : Z -> M dst Z) : M dst Z :=
  b <- rd_at buses bus ;;
  if bus =? NULL then ret (-1) else
  on_kern (down E (bus_lock bus)) ;;;
  for_each_entry (kset_list (devices_kset b)) (fun pos => fn (kobj_to_dev (pos - 4)) ;;; ret (inl tt)) tt ;;;
  on_kern (up (bus_lock bus)) ;;;
  ret 0.

(** [dev] is set in the loop only; without a device it has no value, for which there
    is a fault here. *)
Definition bus_find_device (bus : Z) (match_ : Z -> M dst bool) : M dst Z :=
  b <- rd_at buses bus ;;
  if bus =? NULL then ret NULL else
  on_kern (down E (bus_lock bus)) ;;;
  first <- on_kern (on_links (rd_next (kset_list (devices_kset b)))) ;;
  r <- for_each_entry (kset_list (devices_kset b)) (fun pos =>
         let dev := kobj_to_dev (pos - 4) in
         m <- match_ dev ;; ret (if (m : bool) then inr dev else inl tt)) NULL ;;
  on_kern (up (bus_lock bus)) ;;;
  if first =? kset_list (devices_kset b) then fail (BadIndex 0) else ret r.

(** The two names up to a newline at the end of one of them; [at_ l i] is the
    character at [i], with the zero behind the last one. *)
Fixpoint streq (s1 s2 : list Z) : bool :=
  match s1, s2 with
  | c1 :: s1', c2 :: s2' =>
      if c1 =? c2 then streq s1' s2'
      else false
  | [], [] => true
  | [], c2 :: s2' => (c2 =? 10) && bool_decide (s2' = [])
  | c1 :: s1', [] => (c1 =? 10) && bool_decide (s1' = [])
  end.

Definition match_name (name : list Z) (dev : Z) : M dst bool :=
  k <- rd_kobj (dev_kobj dev) ;;
  match k_name k with None => fail NullDeref | Some n => ret (streq name n) end.

Definition bus_find_device_by_name (bus : Z) (name : list Z) : M dst Z := bus_find_device bus (match_name name).

Definition bus_for_each_drv (bus : Z) (fn : Z -> M dst Z) : M dst Z :=
  b <- rd_at buses bus ;;
  if bus =? NULL then ret (-1) else
  on_kern (down E (bus_lock bus)) ;;;
  for_each_entry (kset_list (drivers_kset b)) (fun pos => fn (kobj_to_drv (pos - 4)) ;;; ret (inl tt)) tt ;;;
  on_kern (up (bus_lock bus)) ;;;
  ret 0.

Definition bus_add_device (dev : Z) : M dst Z :=
  d <- rd_at devs dev ;;
  if negb (dev_bus d =? NULL) then
    b <- rd_at buses (dev_bus d) ;;
    wr_kobj (dev_kobj dev) (with_kset (devices_kset b)) ;;;
    kobject_add (dev_kobj dev) ;;;
    ret 0
  else ret (-1).

(** [add_dev] and [add_drv] *)
Definition probe_dev (drv dev : Z) : M dst Z :=
  d <- rd_at drvs drv ;;
  if negb (drv_probe d =? NULL) then
    r <- driver_code (drv_probe d) dev ;;
    (if r =? 0 then on_kern (on_links (list_add_tail (driver_entry dev) (list_devices drv))) else ret tt) ;;;
    ret r
  else ret 0.
Definition add_dev (dev drv : Z) : M dst Z := probe_dev drv dev.
Definition add_drv (drv dev : Z) : M dst Z := probe_dev drv dev.

Definition bus_probe_device (dev : Z) : M dst unit :=
  d <- rd_at devs dev ;;
  if dev_bus d =? NULL then ret tt else
  on_kern (down E (bus_lock (dev_bus d))) ;;;
  bus_for_each_drv (dev_bus d) (add_dev dev) ;;;
  on_kern (up (bus_lock (dev_bus d))).

Definition remove_dev (dev drv : Z) : M dst Z :=
  d <- rd_at drvs drv ;;
  if negb (drv_remove d =? NULL) then
    r <- driver_code (drv_remove d) dev ;;
    (if r =? 0 then on_kern (on_links (list_del (driver_entry dev))) else ret tt) ;;;
    ret r
  else ret 0.

Definition bus_remove_device (dev : Z) : M dst unit :=
  d <- rd_at devs dev ;;
  if dev_bus d =? NULL then ret tt else
  on_kern (down E (bus_lock (dev_bus d))) ;;;
  bus_for_each_drv (dev_bus d) (remove_dev dev) ;;;
  kobject_del (dev_kobj dev) ;;;
  on_kern (up (bus_lock (dev_bus d))).

Definition bus_add_driver (drv : Z) : M dst Z :=
  d <- rd_at drvs drv ;;
  if drv_bus d =? NULL then ret (-1) else
  on_kern (down E (bus_lock (drv_bus d))) ;;;
  b <- rd_at buses (drv_bus d) ;;
  wr_kobj (drv_kobj drv) (with_kset (drivers_kset b)) ;;;
  kobject_add (drv_kobj drv) ;;;
  r <- bus_for_each_dev (drv_bus d) (add_drv drv) ;;
  on_kern (up (bus_lock (drv_bus d))) ;;;
  ret r.

Definition bus_remove_driver (drv : Z) : M dst unit :=
  d <- rd_at drvs drv ;;
  on_kern (down E (bus_lock (drv_bus d))) ;;;
  kobject_del (drv_kobj drv) ;;;
  for_each_entry (list_devices drv) (fun pos =>
      let dev := pos - 28 in
      (if negb (drv_remove d =? NULL) then
         r <- driver_code (drv_remove d) dev ;;
         if r =? 0 then on_kern (on_links (list_del (driver_entry dev))) else ret tt
       else ret tt) ;;;
      ret (inl tt)) tt ;;;
  on_kern (up (bus_lock (drv_bus d))).

Definition buses_init : M dst Z :=
  k <- kset_create_and_add (Some (chars "bus")) NULL ;;
  modify (set_bus_kset k) ;;;
  if k =? NULL then ret (-1) else ret 0.

End Driver.

(** ** Traversals *)

(** The first result of [g] in a list, or [d]. *)
Fixpoint first_of {R} (g : Z -> unit + R) (l : list Z) (d : R) : R :=
  match l with
  | [] => d
  | x :: l' => match g x with inr r => r | inl _ => first_of g l' d end
  end.

Lemma next_node pos v (s : dst) :
  nx (links (kern s)) !! pos = Some v -> on_kern (on_links (rd_next pos)) s = Ok (v, s).
Proof.
  intros H. unfold on_kern, on_links, zoom, rd_next, bind, gets, id. rewrite H. cbn. by destruct s as [[] ? ? ? ? ?].
Qed.

(** A loop whose body only looks: the first result. *)
Lemma for_each_first {R} hd l (body : Z -> M dst (unit + R)) (g : Z -> unit + R) d (s : dst) :
  dlist (links (kern s)) hd l -> (forall pos, pos ∈ l -> body pos s = Ok (g pos, s)) ->
  for_each_entry hd body d s = Ok (first_of g l d, s).
Proof.
  intros Hd Hb.
  assert (Hgo : forall l2 l1 n, l = l1 ++ l2 -> (length l2 < n)%nat ->
    loop n (fun pos => if pos =? hd then ret (inr d) else
      r <- body pos ;; match r with inr x => ret (inr x) | inl _ =>
        next <- on_kern (on_links (rd_next pos)) ;; ret (inl next) end) (heado hd l2) s = Ok (first_of g l2 d, s)).
  { induction l2 as [|x l2 IH]; intros l1 n El Hn; (destruct n as [|n]; [lia|]); cbn [loop].
    - unfold bind. cbn. by rewrite Z.eqb_refl.
    - rewrite El in Hd. destruct (Z.eqb_spec (heado hd (x :: l2)) hd) as [E|_].
      { apply (dlist_cursor _ _ _ _ Hd) in E. done. }
      change (heado hd (x :: l2)) with x. cbn [first_of]. unfold bind at 1 2. rewrite (Hb x) by (rewrite El; set_solver).
      destruct (g x) as [u|r]; [|done]. unfold bind at 1. rewrite (next_node _ _ _ (proj1 (dlist_links _ _ _ _ _ Hd))).
      apply (IH (l1 ++ [x])); [by rewrite <- app_assoc|cbn in Hn; lia]. }
  unfold for_each_entry, bind at 1, gets. unfold bind at 1. rewrite (next_node _ _ _ (dlist_first _ _ _ Hd)).
  apply (Hgo l []); [done|]. pose proof (dlist_length _ _ _ Hd). unfold walk_fuel. lia.
Qed.

(** ** Properties *)

(** [streq] is equality up to one newline at the end of either name. *)
Theorem streq_spec s1 s2 : streq s1 s2 = true <-> s1 = s2 \/ s2 = s1 ++ [10] \/ s1 = s2 ++ [10].
Proof.
  revert s2. induction s1 as [|c1 s1 IH]; intros [|c2 s2]; cbn.
  - tauto.
  - rewrite andb_true_iff, Z.eqb_eq, bool_decide_eq_true. naive_solver.
  - rewrite andb_true_iff, Z.eqb_eq, bool_decide_eq_true. naive_solver.
  - destruct (Z.eqb_spec c1 c2) as [->|Hne].
    + rewrite IH. naive_solver.
    + naive_solver.
Qed.

Section Objects.
Context (E : env).

(** A set of objects in a state: its list, with the lock free. *)
Record kset_ready (f : gmap Z (list Z)) (kset : Z) (l : list Z) (s : dst) : Prop := {
  kr_lists : lists (links (kern s)) f;
  kr_members : f !! kset_list kset = Some l;
  kr_waiters : f !! wait_list (list_lock kset) = Some [];
  kr_lock : sems (kern s) !! list_lock kset = Some 1
}.

(** What an operation on the set leaves of the rest. *)
Definition rest_same (s s' : dst) : Prop :=
  devs s' = devs s /\ drvs s' = drvs s /\ buses s' = buses s /\ bus_kset s' = bus_kset s.

(** A piece of work on the list of a set, under its lock. *)
Lemma wp_kset_locked f kset l l' (m : M lheap unit) (s : dst) (Q : unit -> dst -> Prop) :
  kset_ready f kset l s ->
  (forall R : unit -> lheap -> Prop, (forall h', lists h' (<[kset_list kset := l']> f) -> R tt h') -> wp m R (links (kern s))) ->
  (forall s', kset_ready (<[kset_list kset := l']> f) kset l' s' -> kobjs s' = kobjs s -> rest_same s s' -> Q tt s') ->
  wp (on_kern (down E (list_lock kset)) ;;; on_kern (on_links m) ;;; on_kern (up (list_lock kset))) Q s.
Proof.
  intros [Hl Hm Hw Hs] Hop HQ. unfold on_kern. wp_simpl. eapply (wp_down E _ 1); [exact Hs|lia|]. intros n b. wp_simpl.
  apply wp_on_links. apply Hop. intros h' Hl'. wp_simpl.
  assert (Hne : kset_list kset <> wait_list (list_lock kset)) by (unfold kset_list, wait_list, list_lock; lia).
  eapply (wp_up (<[kset_list kset := l']> f) _ 0); [exact Hl'| |apply lookup_insert_eq|lia|].
  { by rewrite lookup_insert_ne. }
  intros n' b'. apply HQ; [|done|done]. split; cbn.
  - exact Hl'.
  - apply lookup_insert_eq.
  - by rewrite lookup_insert_ne.
  - apply lookup_insert_eq.
Qed.

(** [kobject_add] puts an object of a set at the end of the set's list, under
    the lock, and gives it the set for a parent if it has none. *)
Theorem kobject_add_joins f kobj k l (s : dst) :
  kobj <> NULL -> kobjs s !! kobj = Some k -> k_kset k <> NULL -> kset_ready f (k_kset k) l s ->
  loose (links (kern s)) f (kobj_entry kobj) ->
  exists s', kobject_add E kobj s = Ok (0, s') /\
    kset_ready (<[kset_list (k_kset k) := l ++ [kobj_entry kobj]]> f) (k_kset k) (l ++ [kobj_entry kobj]) s' /\
    kobjs s' = <[kobj := with_parent (if k_parent k =? NULL then kset_kobj (k_kset k) else k_parent k) k]> (kobjs s) /\
    rest_same s s'.
Proof.
  intros Hn Hk Hks Hr Hlo. set (Q := fun (r : Z) (s' : dst) => r = 0 /\
    kset_ready (<[kset_list (k_kset k) := l ++ [kobj_entry kobj]]> f) (k_kset k) (l ++ [kobj_entry kobj]) s' /\
    kobjs s' = <[kobj := with_parent (if k_parent k =? NULL then kset_kobj (k_kset k) else k_parent k) k]> (kobjs s) /\
    rest_same s s').
  destruct (wp_elim (kobject_add E kobj) Q s) as (r & s' & Er & -> & HQ); [|by exists s'].
  unfold kobject_add, kobj_kset_join, wr_kobj, rd_kobj, rd_at.
  destruct (Z.eqb_spec kobj NULL); [done|]. wp_simpl. rewrite Hk. wp_simpl.
  destruct (Z.eqb_spec (k_kset k) NULL); [done|]. cbn [negb]. wp_simpl. rewrite Hk. wp_simpl.
  destruct (Z.eqb_spec (k_kset k) NULL); [done|].
  apply (wp_kset_locked f (k_kset k) l (l ++ [kobj_entry kobj])); [done| |].
  - intros R HR. eapply fam_list_add_tail; [apply Hr|apply Hr|done|]. intros h' Hl' _. by apply HR.
  - intros s' Hr' Ho Hrest. wp_simpl. rewrite Ho, Hk. wp_simpl. unfold Q. split_and!; try done.
    + destruct Hr'. by split.
    + cbn. by rewrite Ho.
Qed.

(** [kobject_del] undoes it: the object leaves the list, whatever was added
    behind it, and the others keep their order. *)
Theorem kobject_del_leaves f kobj k l1 l2 (s : dst) :
  kobj <> NULL -> kobjs s !! kobj = Some k -> k_kset k <> NULL ->
  kset_ready f (k_kset k) (l1 ++ kobj_entry kobj :: l2) s ->
  exists s', kobject_del E kobj s = Ok (tt, s') /\
    kset_ready (<[kset_list (k_kset k) := l1 ++ l2]> f) (k_kset k) (l1 ++ l2) s' /\
    kobjs s' = <[kobj := with_parent NULL k]> (kobjs s) /\ rest_same s s'.
Proof.
  intros Hn Hk Hks Hr. set (Q := fun (r : unit) (s' : dst) =>
    kset_ready (<[kset_list (k_kset k) := l1 ++ l2]> f) (k_kset k) (l1 ++ l2) s' /\
    kobjs s' = <[kobj := with_parent NULL k]> (kobjs s) /\ rest_same s s').
  destruct (wp_elim (kobject_del E kobj) Q s) as ([] & s' & Er & HQ); [|by exists s'].
  unfold kobject_del, kobj_kset_leave, wr_kobj, rd_kobj, rd_at.
  destruct (Z.eqb_spec kobj NULL); [done|]. wp_simpl. rewrite Hk. wp_simpl.
  destruct (Z.eqb_spec (k_kset k) NULL); [done|].
  apply (wp_kset_locked f (k_kset k) (l1 ++ kobj_entry kobj :: l2) (l1 ++ l2)); [done| |].
  - intros R HR. eapply fam_list_del_init; [apply Hr|apply Hr|]. intros h' Hl' _ _. by apply HR.
  - intros s' Hr' Ho Hrest. wp_simpl. rewrite Ho, Hk. wp_simpl. unfold Q. split_and!; try done.
    + destruct Hr'. by split.
    + cbn. by rewrite Ho.
Qed.

(** The first object of a list with a name. *)
Definition find_named (ks : gmap Z kobject) (name : list Z) (l : list Z) : Z :=
  first_of (fun pos => match ks !! (pos - 4) with
                       | Some k => if kobj_named name k then inr (pos - 4) else inl tt
                       | None => inl tt end) l NULL.

(** [kset_find_obj] finds the first object of the set with the name, or NULL,
    and leaves the set as it is, with the lock free. *)
Theorem kset_find_obj_first f kset name l (s : dst) :
  kset_ready f kset l s -> (forall pos, pos ∈ l -> is_Some (kobjs s !! (pos - 4))) ->
  exists s', kset_find_obj E kset name s = Ok (find_named (kobjs s) name l, s') /\ kset_ready f kset l s' /\
    kobjs s' = kobjs s /\ rest_same s s'.
Proof.
  intros Hr Hk. pose proof Hr as [Hl Hm Hw Hs].
  set (Q := fun (r : Z) (s' : dst) => r = find_named (kobjs s) name l /\ kset_ready f kset l s' /\
    kobjs s' = kobjs s /\ rest_same s s').
  destruct (wp_elim (kset_find_obj E kset name) Q s) as (r & s' & Er & -> & HQ); [|by exists s'].
  unfold kset_find_obj, on_kern. wp_simpl. eapply (wp_down E _ 1); [exact Hs|lia|]. intros n b. wp_simpl.
  eapply wp_intro.
  { apply for_each_first with (l := l); [by apply (lists_ring _ _ Hl)|]. intros pos Hp. destruct (Hk pos Hp) as [k Ek].
    unfold rd_kobj, rd_at, bind, gets. cbn [kobjs set_kern]. rewrite Ek. cbn [lift_opt ret].
    instantiate (1 := fun pos => match kobjs s !! (pos - 4) with
                       | Some k => if kobj_named name k then inr (pos - 4) else inl tt
                       | None => inl tt end). cbv beta. by rewrite Ek. }
  cbv beta. wp_simpl. eapply (wp_up f _ 0); [exact Hl|exact Hw|apply lookup_insert_eq|lia|].
  intros n' b'. wp_simpl. unfold Q. split_and!; try done. split; cbn; [done|done|done|apply lookup_insert_eq].
Qed.

(** A device is never probed: [bus_probe_device] takes the lock of the bus and
    then calls [bus_for_each_drv], which takes it again; as long as no other task
    gives it the token that it holds itself, it does not return. *)
Theorem bus_probe_device_stuck driver_code dev d b (s : dst) :
  devs s !! dev = Some d -> dev_bus d <> NULL -> buses s !! dev_bus d = Some b ->
  sems (kern s) !! bus_lock (dev_bus d) = Some 1 ->
  (forall w x y, keeps (not_up w) (resume E x y)) ->
  exists e, bus_probe_device E driver_code dev s = Err e.
Proof.
  intros Hd Hb Hbb Hs Hr. unfold bus_probe_device, rd_at, bind, gets. rewrite Hd. cbn [lift_opt ret].
  destruct (Z.eqb_spec (dev_bus d) NULL); [done|]. unfold on_kern at 1. unfold zoom.
  destruct (wp_elim (down E (bus_lock (dev_bus d))) (fun _ k => sems k !! bus_lock (dev_bus d) = Some 0) (kern s))
    as ([] & k' & Ek & Hk').
  { eapply (wp_down E _ 1); [exact Hs|lia|]. intros n0 b0. apply lookup_insert_eq. }
  rewrite Ek. unfold bus_for_each_drv, rd_at, bind, gets. cbn [buses set_kern]. rewrite Hbb. cbn [lift_opt ret].
  destruct (Z.eqb_spec (dev_bus d) NULL); [done|]. unfold on_kern at 1, zoom. cbn [kern set_kern].
  destruct (down_stuck E (bus_lock (dev_bus d)) k' Hk' Hr) as [e ->]. by exists e.
Qed.

End Objects.

(** ** Examples *)

(** A bus at 600 whose object is not in a set yet, on the kernel's own allocator. *)
Definition demo_drivers : dst :=
  match new_nodes [608; 636] (mk_dst demo_heap {[ 604 := mk_kobj (Some (chars "soc")) NULL NULL ]} ∅ ∅
          {[ 600 := mk_bus NULL NULL ]} NULL) with
  | Ok (_, s) => s
  | Err _ => mk_dst demo_heap ∅ ∅ ∅ ∅ NULL
  end.
Definition demo_register : M dst (Z * Z * list Z * Z * Z) :=
  r1 <- buses_init demo_env (AL := kernel_allocator demo_env) ;;
  r2 <- bus_register demo_env (AL := kernel_allocator demo_env) 600 ;;
  k <- gets bus_kset ;;
  l <- on_kern (on_links (list_for_each_nodes (kset_list k))) ;;
  b <- rd_at buses 600 ;;
  again <- on_kern (kmalloc (Allocator := kernel_allocator demo_env) sizeof_kset) ;;
  ret (r1, r2, l, devices_kset b, again).

(** Registering a bus undoes itself: [bus_register] returns 0, but its
    successful path runs into the labels for the errors.  The bus is not in the set
    of buses, and the set of its devices, which it still points to, is free memory
    that the next allocation hands out. *)
Theorem bus_register_undone :
  exists kset s', demo_register demo_drivers = Ok ((0, 0, [], kset, kset), s').
Proof.
  destruct (demo_register demo_drivers) as [[x s']|e] eqn:E.
  - exists 1114168, s'.
    assert (Hx : match demo_register demo_drivers with Ok (x, _) => Some x | Err _ => None end = Some (0, 0, [], 1114168, 1114168))
      by (vm_compute; reflexivity).
    rewrite E in Hx. injection Hx as ->. reflexivity.
  - exfalso. assert (Hx : match demo_register demo_drivers with Ok _ => true | Err _ => false end = true) by (vm_compute; reflexivity).
    rewrite E in Hx. discriminate.
Qed.

(** The state behind [buses_init], with the set of buses at 1114120 and the object
    of the bus in it or not. *)
Definition after {A} (m : M dst A) (s : dst) : dst := match m s with Ok (_, s') => s' | Err _ => s end.
Definition demo_set : dst :=
  after (buses_init demo_env (AL := kernel_allocator demo_env) ;;; wr_kobj 604 (with_kset 1114120)) demo_drivers.
Definition demo_members (l : list Z) : gmap Z (list Z) := list_to_map [(1114120, l); (1114132, [])].

Lemma demo_set_ready : kset_ready (demo_members []) 1114120 [] demo_set.
Proof. split; [apply lists_b_sound; vm_compute; reflexivity|vm_compute; reflexivity..]. Qed.

Lemma demo_set_kobj : kobjs demo_set !! 604 = Some (mk_kobj (Some (chars "soc")) NULL 1114120).
Proof. vm_compute. reflexivity. Qed.

Lemma demo_loose : loose (links (kern demo_set)) (demo_members []) 608.
Proof.
  split; [split; eexists; vm_compute; reflexivity|].
  intros hd l Hl. unfold demo_members in Hl. apply elem_of_list_to_map_2 in Hl.
  apply list_elem_of_In in Hl. destruct Hl as [[= <- <-]|[[= <- <-]|[]]]; set_solver by lia.
Qed.

Lemma kobject_add_joins_witness :
  exists s', kobject_add demo_env 604 demo_set = Ok (0, s') /\
    kset_ready (<[1114120 := [608]]> (demo_members [])) 1114120 [608] s'.
Proof.
  destruct (kobject_add_joins demo_env (demo_members []) 604 _ [] demo_set ltac:(discriminate) demo_set_kobj
    ltac:(discriminate) demo_set_ready demo_loose) as (s' & E & Hr & _).
  exists s'. exact (conj E Hr).
Defined.

Definition demo_added : dst := after (kobject_add demo_env 604) demo_set.

Lemma demo_added_ready : kset_ready (demo_members [608]) 1114120 [608] demo_added.
Proof. split; [apply lists_b_sound; vm_compute; reflexivity|vm_compute; reflexivity..]. Qed.

Lemma demo_added_kobj : kobjs demo_added !! 604 = Some (mk_kobj (Some (chars "soc")) 1114140 1114120).
Proof. vm_compute. reflexivity. Qed.

Lemma kobject_del_leaves_witness :
  exists s', kobject_del demo_env 604 demo_added = Ok (tt, s') /\
    kset_ready (<[1114120 := []]> (demo_members [608])) 1114120 [] s'.
Proof.
  destruct (kobject_del_leaves demo_env (demo_members [608]) 604 _ [] [] demo_added ltac:(discriminate) demo_added_kobj
    ltac:(discriminate) demo_added_ready) as (s' & E & Hr & _).
  exists s'. exact (conj E Hr).
Defined.

Lemma kset_find_obj_first_witness :
  exists s', kset_find_obj demo_env 1114120 (chars "soc") demo_added = Ok (604, s').
Proof.
  destruct (kset_find_obj_first demo_env (demo_members [608]) 1114120 (chars "soc") [608] demo_added demo_added_ready)
    as (s' & E & _).
  - intros pos ->%list_elem_of_singleton. change (608 - 4) with 604. rewrite demo_added_kobj. done.
  - assert (Hf : find_named (kobjs demo_added) (chars "soc") [608] = 604) by (vm_compute; reflexivity).
    rewrite Hf in E. exists s'. exact E.
Defined.

(** A device at 700 of that bus, on a machine where nobody else runs. *)
Definition demo_device : dst :=
  mk_dst (KState.set_sems {[ 632 := 1 ]} demo_heap) ∅ {[ 700 := mk_dev 600 ]} ∅ {[ 600 := mk_bus NULL NULL ]} NULL.
Definition alone : env :=
  mk_env 1000 4000 5000 6000 6100 6200 6300 0 (fun t => t + 50) (fun t => t + 80) (fun _ _ => fail Blocked)
    (fun _ _ => fail Blocked) (fun _ _ => fail Blocked) (fun _ _ _ _ => fail Blocked) (fun _ _ => fail Blocked) 10.

Lemma bus_probe_device_stuck_witness :
  exists e, bus_probe_device alone (fun _ _ => ret 0) 700 demo_device = Err e.
Proof.
  apply (bus_probe_device_stuck alone (fun _ _ => ret 0) 700 (mk_dev 600) (mk_bus NULL NULL)).
  - reflexivity.
  - discriminate.
  - reflexivity.
  - reflexivity.
  - intros w x y. apply keep_fail.
Defined.
