(* ===== verification/Shell.v ===== *)
(** * init/init_shell.c: the shell's line editor, numbers and commands

    The characters that [getchar] gives are an input ([input]); what [printk] puts
    on the console is collected ([screen]).  The commands are in the kernel's heap
    of lists; the functions behind them are given by their code addresses.  Strings
    that are only read are lists of characters without the zero. *)

From stdpp Require Import strings sorting.
From S2P Require Import Prelude KList KState Str Bytes Printk.

Definition CONSOLE_BUFFER_SIZE : Z := 256.

(** [struct shell_command], less its list node, which is at the object's address *)
Record shell_command : Type := mk_cmd { command : list Z; description : list Z; func : Z }.

Record shell : Type := mk_shell {
  kern : kst;
  input : list Z;
  screen : list Z;
  console_buffer : list Z;
  cmds : gmap Z shell_command
}.
Definition set_kern (v : kst) (s : shell) : shell := mk_shell v (input s) (screen s) (console_buffer s) (cmds s).
Definition set_input (v : list Z) (s : shell) : shell := mk_shell (kern s) v (screen s) (console_buffer s) (cmds s).
Definition set_screen (v : list Z) (s : shell) : shell := mk_shell (kern s) (input s) v (console_buffer s) (cmds s).
Definition set_buffer (v : list Z) (s : shell) : shell := mk_shell (kern s) (input s) (screen s) v (cmds s).

Definition on_links {A} (m : M lheap A) : M shell A := zoom kern set_kern (KState.on_links m).
Definition getchar : M shell Z :=
  l <- gets input ;;
  match l with [] => fail Blocked | c :: l' => modify (set_input l') ;;; ret c end.
Definition print (l : list Z) : M shell unit := modify (fun s => set_screen (screen s ++ l) s).

Definition rd_buf (i : Z) : M shell Z :=
  b <- gets console_buffer ;; lift_opt (BadIndex i) (if 0 <=? i then b !! Z.to_nat i else None).
Definition wr_buf (i v : Z) : M shell unit :=
  rd_buf i ;;; modify (fun s => set_buffer (<[Z.to_nat i := u8 v]> (console_buffer s)) s).

(** ** The line editor *)

Definition erase_seq : list Z := [8; 32; 8].
Definition tab_seq : list Z := replicate 8 32.
Definition TAB : Z := 9.

(** [while (col > plen) { printk("%s", erase_seq); col--; }] *)
Definition erase_to (plen col : Z) : M shell Z :=
  loop (S (Z.to_nat (col - plen))) (fun col =>
      if plen <? col then print erase_seq ;;; ret (inl (col - 1)) else ret (inr col)) col.

(** The rest of the line is typed again. *)
Fixpoint retype (l : list Z) (col : Z) : M shell Z :=
  match l with
  | [] => ret col
  | c :: l' =>
      if c =? TAB then print (drop (Z.to_nat (Z.land col 7)) tab_seq) ;;; retype l' (col + (8 - Z.land col 7))
      else print [c] ;;; retype l' (col + 1)
  end.

(** The place, the column and the number of characters afterwards; the place is an
    index into the buffer. *)
Definition delete_char (p col n plen : Z) : M shell (Z * Z * Z) :=
  if n =? 0 then ret (p, col, n) else
  let p := p - 1 in
  c <- rd_buf p ;;
  col <- (if c =? TAB then
            col <- erase_to plen col ;;
            b <- gets console_buffer ;;
            retype (take (Z.to_nat p) b) col
          else print erase_seq ;;; ret (col - 1)) ;;
  ret (p, col, n - 1).

(** [^W] *)
Definition delete_word (p col n plen : Z) : M shell (Z * Z * Z) :=
  r <- delete_char p col n plen ;;
  loop (S (Z.to_nat n)) (fun '(p, col, n) =>
      if 0 <? n then
        c <- rd_buf p ;;
        if negb (c =? 32) then r <- delete_char p col n plen ;; ret (inl r) else ret (inr (p, col, n))
      else ret (inr (p, col, n))) r.

Definition readline_turn (plen : Z) (st : Z * Z * Z) : M shell (Z * Z * Z + Z) :=
  let '(p, col, n) := st in
  c <- getchar ;;
  if (c =? 13) || (c =? 10) then wr_buf p 0 ;;; print [13; 10] ;;; ret (inr p)
  else if c =? 0 then ret (inl (p, col, n))
  else if c =? 0x03 then wr_buf 0 0 ;;; ret (inr (-1))
  else if c =? 0x15 then col <- erase_to plen col ;; ret (inl (0, col, 0))
  else if c =? 0x17 then r <- delete_word p col n plen ;; ret (inl r)
  else if (c =? 0x08) || (c =? 0x7F) then r <- delete_char p col n plen ;; ret (inl r)
  else if n <? CONSOLE_BUFFER_SIZE - 2 then
    col <- (if c =? TAB
            then print (drop (Z.to_nat (Z.land col 7)) tab_seq) ;;; ret (col + (8 - Z.land col 7))
            else print [c] ;;; ret (col + 1)) ;;
    wr_buf p c ;;; ret (inl (p + 1, col, n + 1))
  else print [7] ;;; ret (inl (p, col, n)).

Definition readline (prompt : option (list Z)) : M shell Z :=
  let plen := match prompt with Some l => Z.of_nat (length l) | None => 0 end in
  print (default [] prompt) ;;;
  fuel <- gets (fun s => length (input s)) ;;
  loop (S fuel) (readline_turn plen) (0, plen, 0).

(** ** Characters and numbers *)

Definition TOLOWER (x : Z) : Z := Z.lor x 0x20.
Definition isxdigit (c : Z) : bool :=
  ((48 <=? c) && (c <=? 57)) || ((97 <=? c) && (c <=? 102)) || ((65 <=? c) && (c <=? 70)).

Definition simple_str2up (str : list Z) : list Z := (fun c => if islower c then c - (97 - 65) else c) <$> str.
Definition simple_str2lo (str : list Z) : list Z := (fun c => if isupper c then c - (65 - 97) else c) <$> str.

(** The character at [i]; behind the last one is the zero. *)
Definition at_ (l : list Z) (i : nat) : Z := default 0 (l !! i).

Definition simple_guess_base (cp : list Z) : Z :=
  if at_ cp 0 =? 48 then
    if (TOLOWER (at_ cp 1) =? 120) && isxdigit (at_ cp 2) then 16 else 8
  else 10.

Fixpoint strtoul_digits (cp : list Z) (base result : Z) : Z * list Z :=
  match cp with
  | [] => (result, [])
  | c :: cp' =>
      if isxdigit c then
        let value := if isdigit c then c - 48 else TOLOWER c - 97 + 10 in
        if base <=? value then (result, cp) else strtoul_digits cp' base (u32 (result * base + value))
      else (result, cp)
  end.

(** The number, and the rest of the string. *)
Definition simple_strtoul (cp : list Z) (base : Z) : Z * list Z :=
  let base := if base =? 0 then simple_guess_base cp else base in
  let cp := if (base =? 16) && (at_ cp 0 =? 48) && (TOLOWER (at_ cp 1) =? 120) then drop 2 cp else cp in
  strtoul_digits cp base 0.

(** ** Commands *)

Section Commands.
(** [commands] *)
Context (commands : Z).
(** the functions of the commands, by their code address, on their arguments *)
Context (command_code : Z -> option (list Z) -> M shell Z).

Definition rd_cmd (p : Z) : M shell shell_command := t <- gets cmds ;; lift_opt (bad_ptr p) (t !! p).

Definition shell_unregister_command (cmd : Z) : M shell unit := on_links (list_del cmd).

(** [list_for_each_entry] up to the first command that comes behind the new one *)
Definition shell_register_command (cmd : Z) : M shell unit :=
  if cmd =? NULL then ret tt else
  e <- on_links (list_empty commands) ;;
  if (e : bool) then on_links (list_add_tail cmd commands) else
  fuel <- gets (fun s => walk_fuel (links (kern s))) ;;
  first <- on_links (rd_next commands) ;;
  loop fuel (fun pos =>
      if pos =? commands then on_links (list_add_tail cmd commands) ;;; ret (inr tt) else
      a <- rd_cmd pos ;; b <- rd_cmd cmd ;;
      if 0 <? strcmp_l (command a) (command b) then on_links (list_add_tail cmd pos) ;;; ret (inr tt)
      else n <- on_links (rd_next pos) ;; ret (inl n)) first.

(** Past the spaces. *)
Fixpoint skip_spaces (l : list Z) : list Z :=
  match l with c :: l' => if c =? 32 then skip_spaces l' else l | [] => [] end.

(** What [strchr(str, ' ')] finds, behind the spaces. *)
Fixpoint arguments (str : list Z) : option (list Z) :=
  match str with
  | [] => None
  | c :: str' => if c =? 32 then Some (skip_spaces str') else arguments str'
  end.

(** [char cmdbuf[CONSOLE_BUFFER_SIZE]] takes the command, or is overrun. *)
Definition run_command (cmd : option (list Z)) : M shell Z :=
  match cmd with
  | None | Some [] => ret (-1)
  | Some cmd =>
      let str := skip_spaces cmd in
      if CONSOLE_BUFFER_SIZE <=? Z.of_nat (length str) then fail (BadIndex CONSOLE_BUFFER_SIZE) else
      fuel <- gets (fun s => walk_fuel (links (kern s))) ;;
      first <- on_links (rd_next commands) ;;
      loop fuel (fun pos =>
          if pos =? commands then print (chars "unknown command" ++ [10]) ;;; ret (inr 0) else
          c <- rd_cmd pos ;;
          if strncmp_l (length (command c)) (command c) str =? 0 then
            let args := arguments str in
            (if match args with
                | Some a => (strcmp_l (chars "--help") a =? 0) || (strcmp_l (chars "-h") a =? 0)
                | None => false end
             then print (description c ++ [10])
             else command_code (func c) args ;;; ret tt) ;;;
            ret (inr 0)
          else n <- on_links (rd_next pos) ;; ret (inl n)) first
  end.

(** One turn of the loop of [init_shell]; the current path is the file system's. *)
Definition shell_turn (cur_path : list Z) : M shell unit :=
  print (cur_path ++ chars " # ") ;;;
  len <- readline (Some []) ;;
  if 0 <? len then
    lastcommand <- gets (fun s => c_string (console_buffer s)) ;;
    run_command (Some lastcommand) ;;; ret tt
  else ret tt.

Fixpoint register_all (l : list Z) : M shell unit :=
  match l with [] => ret tt | cmd :: l' => shell_register_command cmd ;;; register_all l' end.

(** The seven built-in commands, and the loop for a number of turns. *)
Definition init_shell (builtin : list Z) (cur_path : shell -> list Z) (turns : nat) : M shell unit :=
  register_all builtin ;;;
  Nat.iter turns (fun rest => path <- gets cur_path ;; shell_turn path ;;; rest) (ret tt).

Definition help : M shell unit :=
  print (chars "All Supported Commands:" ++ [10]) ;;;
  print (replicate 80 45) ;;; print [10] ;;;
  l <- on_links (list_for_each_nodes commands) ;;
  (fix go (l : list Z) : M shell unit :=
     match l with
     | [] => ret tt
     | p :: l' =>
         c <- rd_cmd p ;;
         print (chars "--> " ++ command c ++ [58; 10]) ;;;
         print (TAB :: description c ++ [46; 10]) ;;;
         go l'
     end) l ;;;
  print (replicate 80 45) ;;; print [10; 10].

End Commands.

(** ** What the line editor does *)

(** A character typed behind column [col], and a line typed behind the prompt. *)
Definition next_col (col c : Z) : Z := if c =? TAB then col + (8 - Z.land col 7) else col + 1.
Definition width (plen : Z) (l : list Z) : Z := fold_left next_col l plen.

Lemma next_col_gt col c : col < next_col col c.
Proof.
  unfold next_col. destruct (c =? TAB); [|lia]. change 7 with (Z.ones 3). rewrite Z.land_ones by lia.
  pose proof (Z.mod_pos_bound col (2 ^ 3) ltac:(lia)). lia.
Qed.
Lemma width_snoc plen l c : width plen (l ++ [c]) = next_col (width plen l) c.
Proof. unfold width. by rewrite fold_left_app. Qed.
Lemma width_ge l : forall plen, plen <= width plen l.
Proof.
  induction l as [|c l IH]; intros plen; cbn; [lia|]. pose proof (next_col_gt plen c). specialize (IH (next_col plen c)).
  unfold width in IH. lia.
Qed.

(** [^W] takes the characters up to and with the next space. *)
Fixpoint kill_word (r : list Z) : list Z :=
  match r with [] => [] | c :: r' => if c =? 32 then r' else kill_word r' end.

(** The line that an input gives, and the input behind it: [Some None] for a line
    that was broken off, [None] when the input ends first. *)
Fixpoint edit (inp line : list Z) : option (list Z * option (list Z)) :=
  match inp with
  | [] => None
  | c :: inp' =>
      if (c =? 13) || (c =? 10) then Some (inp', Some line)
      else if c =? 0 then edit inp' line
      else if c =? 0x03 then Some (inp', None)
      else if c =? 0x15 then edit inp' []
      else if c =? 0x17 then edit inp' (rev (kill_word (rev line)))
      else if (c =? 0x08) || (c =? 0x7F) then edit inp' (removelast line)
      else if Z.of_nat (length line) <? 254 then edit inp' (line ++ [c])
      else edit inp' line
  end.

(** Only the screen changes. *)
Record only_screen (s s' : shell) : Prop := {
  os_kern : kern s' = kern s;
  os_input : input s' = input s;
  os_buffer : console_buffer s' = console_buffer s;
  os_cmds : cmds s' = cmds s
}.
Lemma only_screen_refl s : only_screen s s.
Proof. by split. Qed.
Lemma only_screen_trans s1 s2 s3 : only_screen s1 s2 -> only_screen s2 s3 -> only_screen s1 s3.
Proof. intros [] []. split; congruence. Qed.
Lemma only_screen_print l s : only_screen s (set_screen (screen s ++ l) s).
Proof. by split. Qed.

Lemma wp_erase_to plen col s (Q : Z -> shell -> Prop) :
  plen <= col -> (forall s', only_screen s s' -> Q plen s') -> wp (erase_to plen col) Q s.
Proof.
  intros Hc HQ. unfold erase_to. assert (Hf : (Z.to_nat (col - plen) < S (Z.to_nat (col - plen)))%nat) by lia.
  revert Hf. generalize (S (Z.to_nat (col - plen))). intros fuel. revert col s Hc HQ.
  induction fuel as [|fuel IH]; intros col s Hc HQ Hf; [lia|]. cbn [loop]. wp_simpl.
  destruct (Z.ltb_spec plen col).
  - unfold print. wp_simpl. apply IH; [lia| |lia]. intros s' Hs. apply HQ. eapply only_screen_trans; [apply only_screen_print|exact Hs].
  - wp_simpl. replace col with plen by lia. apply HQ, only_screen_refl.
Qed.

Lemma wp_retype l : forall col s (Q : Z -> shell -> Prop),
  (forall s', only_screen s s' -> Q (width col l) s') -> wp (retype l col) Q s.
Proof.
  induction l as [|c l IH]; intros col s Q HQ; cbn [retype].
  - wp_simpl. apply HQ, only_screen_refl.
  - unfold width in *. cbn [fold_left] in HQ. unfold next_col at 2 in HQ. unfold print.
    destruct (c =? TAB); wp_simpl; apply IH; intros s' Hs; apply HQ; (eapply only_screen_trans; [apply only_screen_print|exact Hs]).
Qed.

(** The variables of [readline] for a line, and the buffer that holds it. *)
Definition place (plen : Z) (line : list Z) : Z * Z * Z :=
  (Z.of_nat (length line), width plen line, Z.of_nat (length line)).
Record holds (line : list Z) (s : shell) : Prop := {
  ho_buffer : length (console_buffer s) = 256%nat;
  ho_line : take (length line) (console_buffer s) = line;
  ho_room : (length line <= 254)%nat
}.

Lemma holds_same line s s' : holds line s -> only_screen s s' -> holds line s'.
Proof. intros [H1 H2 H3] [_ _ Hb _]. split; by rewrite ?Hb. Qed.

Lemma holds_take line l l2 s : holds line s -> line = l ++ l2 -> holds l s.
Proof.
  intros [H1 H2 H3] ->. rewrite length_app in *. split; [done| |lia].
  apply (f_equal (take (length l))) in H2. rewrite take_take, take_app_length in H2. by rewrite Nat.min_l in H2 by lia.
Qed.

Lemma holds_lookup line i c s : holds line s -> line !! i = Some c -> console_buffer s !! i = Some c.
Proof.
  intros [H1 H2 H3] Hi. rewrite <- H2 in Hi. by apply lookup_take_Some in Hi as [Hi _].
Qed.

Lemma wp_rd_buf line i c s (Q : Z -> shell -> Prop) :
  holds line s -> line !! i = Some c -> Q c s -> wp (rd_buf (Z.of_nat i)) Q s.
Proof.
  intros Hh Hi HQ. unfold rd_buf. wp_simpl. destruct (Z.leb_spec 0 (Z.of_nat i)); [|lia].
  rewrite Nat2Z.id, (holds_lookup _ _ _ _ Hh Hi). by wp_simpl.
Qed.

(** One deletion: the last character goes, the column is right again. *)
Lemma wp_delete_char plen line s (Q : Z * Z * Z -> shell -> Prop) :
  holds line s ->
  (forall s', only_screen s s' -> Q (place plen (removelast line)) s') ->
  wp (let '(p, col, n) := place plen line in delete_char p col n plen) Q s.
Proof.
  intros Hh HQ. cbn [place]. unfold delete_char.
  destruct line as [|c l _] using rev_ind.
  - cbn. wp_simpl. apply HQ, only_screen_refl.
  - rewrite removelast_last in HQ. rewrite length_app in *. cbn [length].
    destruct (Z.eqb_spec (Z.of_nat (length l + 1)) 0); [lia|].
    replace (Z.of_nat (length l + 1) - 1) with (Z.of_nat (length l)) by lia. wp_simpl.
    eapply wp_rd_buf; [exact Hh|apply list_lookup_middle; done|]. rewrite width_snoc. unfold next_col.
    destruct (c =? TAB) eqn:Ec.
    + wp_simpl. apply wp_erase_to.
      { pose proof (width_ge l plen). pose proof (next_col_gt (width plen l) c) as Hn. unfold next_col in Hn. rewrite Ec in Hn. lia. }
      intros s1 Hs1. wp_simpl. rewrite Nat2Z.id.
      assert (Ht : take (length l) (console_buffer s1) = l).
      { rewrite (os_buffer _ _ Hs1). apply (ho_line l s). by eapply holds_take. }
      rewrite Ht. apply wp_retype. intros s2 Hs2. wp_simpl. apply HQ. by eapply only_screen_trans.
    + unfold print. wp_simpl. replace (width plen l + 1 - 1) with (width plen l) by lia. apply HQ, only_screen_print.
Qed.

(** The rest of [^W]: [c] was deleted behind [l], and [goal] is what is to stay. *)
Lemma wp_word_loop plen line s0 fuel : forall l c l2 s (Q : Z * Z * Z -> shell -> Prop),
  holds line s0 -> line = l ++ c :: l2 -> only_screen s0 s -> (length l < fuel)%nat ->
  (forall s', only_screen s0 s' -> Q (place plen (rev (kill_word (c :: rev l)))) s') ->
  wp (loop fuel (fun '(p, col, n) =>
      if 0 <? n then
        c <- rd_buf p ;;
        if negb (c =? 32) then r <- delete_char p col n plen ;; ret (inl r) else ret (inr (p, col, n))
      else ret (inr (p, col, n))) (place plen l)) Q s.
Proof.
  induction fuel as [|fuel IH]; intros l c l2 s Q Hh El Hs Hf HQ; [lia|]. cbn [loop place]. wp_simpl.
  destruct l as [|b l _] using rev_ind.
  - cbn. wp_simpl. replace (rev (kill_word (c :: rev []))) with (@nil Z) in HQ by (cbn; by destruct (c =? 32)).
    by apply HQ.
  - rewrite length_app in *. cbn [length] in *. destruct (Z.ltb_spec 0 (Z.of_nat (length l + 1))); [|lia]. wp_simpl.
    eapply wp_rd_buf; [by eapply holds_same| |].
    { rewrite El. rewrite lookup_app_r by (rewrite length_app; cbn; lia).
      rewrite length_app. cbn [length]. by rewrite Nat.sub_diag. }
    cbn [kill_word] in HQ. destruct (c =? 32) eqn:Ec; cbn [negb].
    + wp_simpl. rewrite rev_involutive in HQ. specialize (HQ s Hs). unfold place in HQ. rewrite length_app in HQ. exact HQ.
    + wp_simpl. pose proof (wp_delete_char plen (l ++ [b]) s
        (fun r s' => wp (loop fuel (fun '(p, col, n) =>
      if 0 <? n then
        c <- rd_buf p ;;
        if negb (c =? 32) then r <- delete_char p col n plen ;; ret (inl r) else ret (inr (p, col, n))
      else ret (inr (p, col, n))) r) Q s')) as Hd.
      unfold place in Hd. rewrite length_app in Hd. cbn [length] in Hd. apply Hd.
      { eapply holds_same; [|exact Hs]. by eapply holds_take. }
      intros s' Hs'. rewrite removelast_last. fold (place plen l).
      apply (IH l b (c :: l2)); [done|by rewrite El, <- app_assoc|by eapply only_screen_trans|lia|].
      rewrite rev_app_distr in HQ. exact HQ.
Qed.

Lemma wp_delete_word plen line s (Q : Z * Z * Z -> shell -> Prop) :
  holds line s ->
  (forall s', only_screen s s' -> Q (place plen (rev (kill_word (rev line)))) s') ->
  wp (let '(p, col, n) := place plen line in delete_word p col n plen) Q s.
Proof.
  intros Hh HQ. cbn [place]. unfold delete_word. wp_simpl.
  apply (wp_delete_char plen line s); [done|]. intros s1 Hs1. rewrite Nat2Z.id.
  destruct line as [|c l _] using rev_ind.
  - cbn. wp_simpl. by apply HQ.
  - rewrite removelast_last. eapply (wp_word_loop plen (l ++ [c]) s _ l c []); [done|done|done|rewrite length_app; cbn; lia|].
    intros s' Hs'. rewrite rev_app_distr in HQ. by apply HQ.
Qed.

(** What [readline] leaves. *)
Definition line_read (r : option (list Z * option (list Z))) (s : shell) (o : outcome (Z * shell)) : Prop :=
  match r with
  | None => o = Err Blocked
  | Some (rest, Some line) => exists s', o = Ok (Z.of_nat (length line), s') /\ input s' = rest /\
      take (S (length line)) (console_buffer s') = line ++ [0] /\ kern s' = kern s /\ cmds s' = cmds s
  | Some (rest, None) => exists s', o = Ok (-1, s') /\ input s' = rest /\
      take 1 (console_buffer s') = [0] /\ kern s' = kern s /\ cmds s' = cmds s
  end.

Lemma line_read_same r s s1 o : kern s1 = kern s -> cmds s1 = cmds s -> line_read r s1 o -> line_read r s o.
Proof. intros Hk Hc. unfold line_read. destruct r as [[rest [line|]]|]; rewrite ?Hk, ?Hc; done. Qed.

(** From a step that returns to the loop. *)
Lemma loop_after {B} fuel (body : Z * Z * Z -> M shell (Z * Z * Z + B)) (m : M shell (Z * Z * Z)) a s (R : outcome (B * shell) -> Prop) :
  wp m (fun r s' => R (loop fuel body r s')) s -> body a s = (r <- m ;; ret (inl r)) s -> R (loop (S fuel) body a s).
Proof.
  intros Hm Hb. cbn [loop]. unfold bind at 1. rewrite Hb. unfold wp in Hm. unfold bind. destruct (m s) as [[r s']|]; done.
Qed.

Lemma take_insert_snoc (l : list Z) k v : (k < length l)%nat -> take (S k) (<[k := v]> l) = take k l ++ [v].
Proof.
  intros Hk. rewrite (take_S_r _ k v) by (by apply list_lookup_insert_eq). by rewrite take_insert_ge by lia.
Qed.

Lemma wr_buf_ok i v s : (i < length (console_buffer s))%nat -> 0 <= v < 256 ->
  wr_buf (Z.of_nat i) v s = Ok (tt, set_buffer (<[i := v]> (console_buffer s)) s).
Proof.
  intros Hi Hv. unfold wr_buf, rd_buf, bind, gets. destruct (Z.leb_spec 0 (Z.of_nat i)); [|lia]. rewrite Nat2Z.id.
  destruct (lookup_lt_is_Some_2 _ _ Hi) as [x ->]. cbn. by rewrite u8_small.
Qed.

Lemma kill_word_prefix r : exists x, r = x ++ kill_word r.
Proof.
  induction r as [|c r IH]; cbn; [by exists []|]. destruct (c =? 32); [by exists [c]|].
  destruct IH as [x Hx]. exists (c :: x). cbn. by rewrite <- Hx.
Qed.

Lemma getchar_ok c l s : input s = c :: l -> getchar s = Ok (c, set_input l s).
Proof. intros H. unfold getchar, bind, gets. by rewrite H. Qed.

Lemma readline_loop plen : forall inp line s fuel,
  input s = inp -> Forall byte inp -> holds line s -> (length inp < fuel)%nat ->
  line_read (edit inp line) s (loop fuel (readline_turn plen) (place plen line) s).
Proof.
  induction inp as [|c inp IH]; intros line s fuel Hi Hb Hh Hf; (destruct fuel as [|fuel]; [cbn in Hf; lia|]).
  { cbn. unfold readline_turn, place, getchar, bind, gets. by rewrite Hi. }
  apply Forall_cons in Hb as [Hc Hb]. cbn [length] in Hf.
  set (s1 := set_input inp s). assert (H1 : holds line s1) by (destruct Hh; by split).
  assert (Hgo : forall line' s', only_screen s1 s' -> holds line' s' ->
    line_read (edit inp line') s (loop fuel (readline_turn plen) (place plen line') s')).
  { intros line' s' Hs Hl. eapply (line_read_same _ s s'); [apply Hs|apply Hs|]. apply IH; [apply Hs|done|done|lia]. }
  assert (Hturn : forall (m : M shell (Z * Z * Z)) (line' : list Z),
    edit (c :: inp) line = edit inp line' -> holds line' s1 ->
    wp m (fun r s' => r = place plen line' /\ only_screen s1 s') s1 ->
    readline_turn plen (place plen line) s = (r <- m ;; ret (inl r)) s1 ->
    line_read (edit (c :: inp) line) s (loop (S fuel) (readline_turn plen) (place plen line) s)).
  { intros m line' -> Hl Hm Ht. cbn [loop]. unfold bind at 1. rewrite Ht. apply wp_elim in Hm as (r & s' & Em & -> & Hs).
    unfold bind. rewrite Em. apply Hgo; [done|]. by eapply holds_same. }
  assert (Hget : readline_turn plen (place plen line) s =
    (if (c =? 13) || (c =? 10) then wr_buf (Z.of_nat (length line)) 0 ;;; print [13; 10] ;;; ret (inr (Z.of_nat (length line)))
  else if c =? 0 then ret (inl (place plen line))
  else if c =? 0x03 then wr_buf 0 0 ;;; ret (inr (-1))
  else if c =? 0x15 then col <- erase_to plen (width plen line) ;; ret (inl (0, col, 0))
  else if c =? 0x17 then r <- (let '(p, col, n) := place plen line in delete_word p col n plen) ;; ret (inl r)
  else if (c =? 0x08) || (c =? 0x7F) then r <- (let '(p, col, n) := place plen line in delete_char p col n plen) ;; ret (inl r)
  else if Z.of_nat (length line) <? CONSOLE_BUFFER_SIZE - 2 then
    col <- (if c =? TAB
            then print (drop (Z.to_nat (Z.land (width plen line) 7)) tab_seq) ;;; ret (width plen line + (8 - Z.land (width plen line) 7))
            else print [c] ;;; ret (width plen line + 1)) ;;
    wr_buf (Z.of_nat (length line)) c ;;; ret (inl (Z.of_nat (length line) + 1, col, Z.of_nat (length line) + 1))
  else print [7] ;;; ret (inl (place plen line))) s1).
  { unfold readline_turn, place. unfold bind at 1. by rewrite (getchar_ok _ _ _ Hi). }
  pose proof (ho_buffer _ _ H1) as Hbl. pose proof (ho_buffer _ _ Hh) as Hbl0. pose proof (ho_room _ _ H1) as Hr.
  remember (edit (c :: inp) line) as r eqn:He. cbn [edit] in He. revert Hget He.
  destruct ((c =? 13) || (c =? 10)); intros Hget He.
  { rewrite He. cbn [loop]. unfold bind at 1. rewrite Hget. unfold bind. rewrite wr_buf_ok by lia. cbn.
    eexists. split; [reflexivity|]. cbn. split; [done|]. split; [|done].
    rewrite take_insert_snoc by lia. f_equal. apply H1. }
  revert Hget He. destruct (c =? 0); intros Hget He.
  { apply (Hturn (ret (place plen line)) line); [exact He|done| |exact Hget]. wp_simpl. split; [done|apply only_screen_refl]. }
  revert Hget He. destruct (c =? 3); intros Hget He.
  { rewrite He. cbn [loop]. unfold bind at 1. rewrite Hget. unfold bind.
    assert (E0 : wr_buf 0 0 s1 = Ok (tt, set_buffer (<[0%nat := 0]> (console_buffer s1)) s1)) by (apply (wr_buf_ok 0 0 s1); lia).
    rewrite E0. cbn.
    eexists. split; [reflexivity|]. cbn. split; [done|]. split; [|done]. rewrite take_insert_snoc by lia. done. }
  revert Hget He. destruct (c =? 0x15); intros Hget He.
  { apply (Hturn (col <- erase_to plen (width plen line) ;; ret (0, col, 0)) []); [exact He| | |].
    - split; [done|done|cbn; lia].
    - wp_simpl. apply wp_erase_to; [apply width_ge|]. intros s' Hs. wp_simpl. done.
    - rewrite Hget. unfold bind. by destruct (erase_to plen (width plen line) s1) as [[? ?]|]. }
  revert Hget He. destruct (c =? 0x17); intros Hget He.
  { apply (Hturn (let '(p, col, n) := place plen line in delete_word p col n plen) (rev (kill_word (rev line)))); [exact He| | |exact Hget].
    - destruct (kill_word_prefix (rev line)) as [x Hx]. eapply (holds_take line _ (rev x)); [done|].
      rewrite <- rev_app_distr, <- Hx. by rewrite rev_involutive.
    - apply wp_delete_word; [done|]. intros s' Hs. done. }
  revert Hget He. destruct ((c =? 0x08) || (c =? 0x7F)); intros Hget He.
  { apply (Hturn (let '(p, col, n) := place plen line in delete_char p col n plen) (removelast line)); [exact He| | |exact Hget].
    - destruct line as [|x l _] using rev_ind; [done|]. rewrite removelast_last. by eapply holds_take.
    - apply wp_delete_char; [done|]. intros s' Hs. done. }
  change (CONSOLE_BUFFER_SIZE - 2) with 254 in Hget.
  revert Hget He. destruct (Z.ltb_spec (Z.of_nat (length line)) 254) as [Hlt|Hge]; intros Hget He.
  - rewrite He. cbn [loop]. unfold bind at 1. rewrite Hget. unfold bind at 1.
    set (pr := if c =? TAB then _ else _).
    assert (Hpr : exists l, pr s1 = Ok (next_col (width plen line) c, set_screen (screen s1 ++ l) s1)).
    { unfold pr, next_col. destruct (c =? TAB); eexists; reflexivity. }
    destruct Hpr as [l Hl]. rewrite Hl. unfold bind. rewrite wr_buf_ok by (unfold byte in Hc; cbn; lia). unfold ret at 1.
    cbn [console_buffer set_screen]. rewrite <- width_snoc.
    set (s2 := set_buffer _ _).
    assert (H2 : holds (line ++ [c]) s2).
    { split; [cbn; by rewrite length_insert| |rewrite length_app; cbn; lia].
      rewrite length_app, Nat.add_1_r. cbn. rewrite take_insert_snoc by lia. f_equal. apply H1. }
    eapply (line_read_same _ s s2); [done|done|].
    replace (Z.of_nat (length line) + 1) with (Z.of_nat (length (line ++ [c]))) by (rewrite length_app; cbn; lia).
    apply IH; [done|done|done|lia].
  - apply (Hturn (print [7] ;;; ret (place plen line)) line); [exact He|done| |exact Hget].
    unfold print. wp_simpl. split; [done|apply only_screen_print].
Qed.

(** [readline] is a line editor: with backspace, [^W] and [^U], with ignored
    zeros and with characters dropped when the line is full, it returns the length
    of the line and leaves it in the buffer, with its zero and within the 256
    places; [^C] gives -1 and an empty line; it reads no more than it needs, and
    only waits when the input has no end of a line. *)
Theorem readline_edits prompt (s : shell) :
  length (console_buffer s) = 256%nat -> Forall byte (input s) ->
  line_read (edit (input s) []) s (readline prompt s).
Proof.
  intros Hb Hi. unfold readline, print, bind, gets, modify.
  eapply (line_read_same _ s (set_screen _ s)); [done|done|]. cbn [input set_screen].
  set (plen := match prompt with Some l => _ | None => _ end).
  change (0, plen, 0) with (place plen []). apply readline_loop; [done|done| |cbn; lia].
  split; [done|done|cbn; lia].
Qed.

(** ** Numbers *)

Definition hex_digit (c : Z) : Prop := isxdigit c = true.

Lemma hex_digit_value c : isxdigit c = true ->
  (if isdigit c then c - 48 else TOLOWER c - 97 + 10) = hex_char c /\ 0 <= hex_char c < 16 /\ c <> 120 /\ c <> 88.
Proof.
  intros Hc. assert (Hr : (48 <= c <= 57) \/ (97 <= c <= 102) \/ (65 <= c <= 70)).
  { unfold isxdigit in Hc. revert Hc. case_cmp; cbn; intros; try done; lia. }
  assert (Hall : forall d, d ∈ [48;49;50;51;52;53;54;55;56;57;97;98;99;100;101;102;65;66;67;68;69;70] ->
    (if isdigit d then d - 48 else TOLOWER d - 97 + 10) = hex_char d /\ 0 <= hex_char d < 16 /\ d <> 120 /\ d <> 88).
  { intros d Hd. apply list_elem_of_In in Hd. repeat (destruct Hd as [<-|Hd]; [vm_compute; repeat split; discriminate|]). destruct Hd. }
  apply Hall. apply list_elem_of_In. cbn. lia.
Qed.

Lemma strtoul_hex l : forall r, Forall hex_digit l ->
  strtoul_digits l 16 (u32 r) = (u32 (fold_left (fun a c => 16 * a + hex_char c) l r), []).
Proof.
  induction l as [|c l IH]; intros r Hl; [done|]. apply Forall_cons in Hl as [Hc Hl]. cbn [strtoul_digits fold_left].
  rewrite Hc. destruct (hex_digit_value c Hc) as (-> & Hr & _). destruct (Z.leb_spec 16 (hex_char c)); [lia|].
  replace (u32 (u32 r * 16 + hex_char c)) with (u32 (16 * r + hex_char c)); [by apply IH|].
  unfold u32. rewrite (Zplus_mod (r mod _ * 16)), Zmult_mod_idemp_l, <- Zplus_mod. f_equal. lia.
Qed.

Lemma hex_digits_hex fuel caps : forall u, 0 <= u -> Forall hex_digit (hex_digits fuel caps u).
Proof.
  induction fuel as [|fuel IH]; intros u Hu; cbn [hex_digits]; constructor.
  - pose proof (Z.mod_pos_bound u 16 ltac:(lia)) as Hm. unfold hex_digit, hextable, isxdigit.
    destruct (Z.ltb_spec (u mod 16) 10); [|destruct caps]; case_cmp; cbn; try done; lia.
  - destruct (u / 16 =? 0); [constructor|]. apply IH. by apply Z.div_pos.
Qed.

(** What the kernel prints as a hexadecimal number the shell reads back: for
    every 32-bit number, in either case, with base 16 and without a prefix, or with
    the prefix and a base that is guessed. *)
Theorem strtoul_reads_hex u flag :
  0 <= u < 2 ^ 32 ->
  simple_strtoul (longlong_to_hexstring u flag) 16 = (u, []) /\
  simple_strtoul (48 :: 120 :: longlong_to_hexstring u flag) 0 = (u, []).
Proof.
  intros Hu. set (l := longlong_to_hexstring u flag).
  assert (Hl : Forall hex_digit l) by (apply Forall_rev, hex_digits_hex; lia).
  assert (Hv : hex_value l = u).
  { unfold l, longlong_to_hexstring. apply hex_digits_value; [|lia]. split; [lia|]. etransitivity; [apply Hu|vm_compute; reflexivity]. }
  assert (Hd : strtoul_digits l 16 0 = (u, [])).
  { change 0 with (u32 0) at 1. rewrite strtoul_hex by done. change (fold_left _ l 0) with (hex_value l).
    rewrite Hv, u32_small by lia. done. }
  split.
  - unfold simple_strtoul. cbn [Z.eqb Pos.eqb andb]. destruct (Z.eqb_spec (at_ l 0) 48); [|done]. cbn [andb].
    destruct l as [|c0 [|c1 l']]; [done|done|]. cbn [at_ lookup list_lookup]. apply Forall_cons in Hl as [_ Hl].
    apply Forall_cons in Hl as [Hc1 _]. unfold at_. cbn. destruct (Z.eqb_spec (TOLOWER c1) 120) as [E|]; [|done].
    destruct (hex_digit_value c1 Hc1) as (Hval & Hr & H1 & H2). exfalso.
    unfold hex_digit, isxdigit in Hc1. unfold TOLOWER in *.
    assert (isdigit c1 = true \/ isdigit c1 = false) as [Hi|Hi] by (destruct (isdigit c1); auto).
    + assert (48 <= c1 <= 57) by (unfold isdigit in Hi; revert Hi; case_cmp; cbn; intros; try done; lia).
      assert (Hall : forall d, d ∈ [48;49;50;51;52;53;54;55;56;57] -> Z.lor d 32 <> 120).
      { intros d Hd'. apply list_elem_of_In in Hd'. repeat (destruct Hd' as [<-|Hd']; [vm_compute; discriminate|]). destruct Hd'. }
      apply (Hall c1); [apply list_elem_of_In; cbn; lia|done].
    + rewrite Hi in Hval. lia.
  - unfold simple_strtoul. cbn [Z.eqb]. unfold simple_guess_base, at_. cbn [lookup list_lookup default].
    destruct l as [|c0 l'] eqn:El.
    { exfalso. unfold l, longlong_to_hexstring in El. apply (f_equal (@length Z)) in El. rewrite length_rev in El. done. }
    cbn. apply Forall_cons in Hl as [Hc0 _]. unfold hex_digit in Hc0. rewrite Hc0. cbn. exact Hd.
Qed.

Lemma strtoul_reads_hex_witness : simple_strtoul (chars "0xdeadbeef") 0 = (0xdeadbeef, []).
Proof. exact (proj2 (strtoul_reads_hex 0xdeadbeef 0 ltac:(lia))). Defined.

(** ** The list of commands *)

Section CommandList.
Context (commands : Z).

Definition name_of (cs : gmap Z shell_command) (p : Z) : list Z :=
  match cs !! p with Some c => command c | None => [] end.
(** In the order of their names. *)
Definition in_order (cs : gmap Z shell_command) (a b : Z) : Prop := strcmp_l (name_of cs a) (name_of cs b) <= 0.

(** In front of the first command that comes behind it. *)
Fixpoint insert_cmd (cs : gmap Z shell_command) (x : Z) (l : list Z) : list Z :=
  match l with
  | [] => [x]
  | y :: l' => if 0 <? strcmp_l (name_of cs y) (name_of cs x) then x :: l else y :: insert_cmd cs x l'
  end.

Lemma insert_cmd_sorted cs x l : Sorted (in_order cs) l -> Sorted (in_order cs) (insert_cmd cs x l).
Proof.
  induction 1 as [|y l Hs IH Hh]; cbn; [repeat constructor|].
  destruct (Z.ltb_spec 0 (strcmp_l (name_of cs y) (name_of cs x))).
  - constructor; [by constructor|]. constructor. unfold in_order. rewrite strcmp_l_anti. lia.
  - constructor; [done|]. destruct l as [|z l]; cbn; [constructor; unfold in_order; lia|].
    destruct (0 <? _); constructor; [unfold in_order; lia|]. by inversion Hh.
Qed.

Lemma wp_links {A} (m : M lheap A) (Q : A -> shell -> Prop) s :
  wp m (fun a h => Q a (set_kern (set_links h (kern s)) s)) (links (kern s)) -> wp (on_links m) Q s.
Proof. intros H. unfold on_links. rewrite wp_zoom. by apply wp_on_links. Qed.

Lemma same_links (s : shell) : set_kern (set_links (links (kern s)) (kern s)) s = s.
Proof. by destruct s as [[] ? ? ? ?]. Qed.

Lemma wp_rd_cmd p (Q : shell_command -> shell -> Prop) s c :
  cmds s !! p = Some c -> Q c s -> wp (rd_cmd p) Q s.
Proof. intros H HQ. unfold rd_cmd. wp_simpl. by rewrite H. Qed.

(** Commands are kept in the order of their names: [shell_register_command] puts
    the new one in front of the first that comes behind it, so that a list in order
    stays in order, and commands with the same name stay in the order in which they
    came. *)
Theorem shell_register_in_order f cmd l (s : shell) :
  cmd <> NULL -> lists (links (kern s)) f -> f !! commands = Some l -> loose (links (kern s)) f cmd ->
  Forall (fun p => is_Some (cmds s !! p)) (cmd :: l) -> Sorted (in_order (cmds s)) l ->
  exists s', shell_register_command commands cmd s = Ok (tt, s') /\
    lists (links (kern s')) (<[commands := insert_cmd (cmds s) cmd l]> f) /\ cmds s' = cmds s /\
    Sorted (in_order (cmds s)) (insert_cmd (cmds s) cmd l).
Proof.
  intros Hn Hl Hf Hlo Hc Hs. set (Q := fun (_ : unit) (s' : shell) =>
    lists (links (kern s')) (<[commands := insert_cmd (cmds s) cmd l]> f) /\ cmds s' = cmds s /\
    Sorted (in_order (cmds s)) (insert_cmd (cmds s) cmd l)).
  destruct (wp_elim (shell_register_command commands cmd) Q s) as ([] & s' & E & HQ); [|by exists s'].
  pose proof (insert_cmd_sorted _ cmd _ Hs) as Hi. unfold shell_register_command.
  destruct (Z.eqb_spec cmd NULL); [done|]. wp_simpl. apply wp_links.
  eapply fam_list_empty; [done|done|]. rewrite same_links. case_bool_decide as El.
  - subst l. apply wp_links. eapply fam_list_add_tail; [done|done|done|]. intros h' Hl' _. unfold Q. cbn in *. done.
  - wp_simpl. apply wp_links. eapply wp_rd_next; [by apply dlist_first, (lists_ring _ _ Hl)|]. rewrite same_links. wp_simpl.
    apply Forall_cons in Hc as [[x Hx] Hc].
    assert (Hgo : forall l2 l1 n, l = l1 ++ l2 -> (length l2 < n)%nat ->
      insert_cmd (cmds s) cmd l = l1 ++ insert_cmd (cmds s) cmd l2 ->
      wp (loop n (fun pos =>
      if pos =? commands then on_links (list_add_tail cmd commands) ;;; ret (inr tt) else
      a <- rd_cmd pos ;; b <- rd_cmd cmd ;;
      if 0 <? strcmp_l (command a) (command b) then on_links (list_add_tail cmd pos) ;;; ret (inr tt)
      else n <- on_links (rd_next pos) ;; ret (inl n)) (heado commands l2)) Q s).
    { induction l2 as [|y l2 IH]; intros l1 k Ek Hk Ei; (destruct k as [|k]; [lia|]); cbn [loop]; wp_simpl.
      - cbn. rewrite Z.eqb_refl. wp_simpl. apply wp_links. rewrite app_nil_r in Ek. subst l1.
        eapply fam_list_add_tail; [done|done|done|]. intros h' Hl' _. wp_simpl. split; [rewrite Ei; exact Hl'|done].
      - pose proof (lists_ring _ _ Hl _ _ Hf) as Hd. rewrite Ek in Hd.
        destruct (Z.eqb_spec (heado commands (y :: l2)) commands) as [E|_].
        { apply (dlist_cursor _ _ _ _ Hd) in E. done. }
        change (heado commands (y :: l2)) with y. rewrite Ek in Hc. apply Forall_app in Hc as [_ Hc].
        apply Forall_cons in Hc as [[b Hb] _]. wp_simpl. eapply wp_rd_cmd; [exact Hb|]. wp_simpl. eapply wp_rd_cmd; [exact Hx|].
        cbn [insert_cmd] in Ei. unfold name_of in Ei at 1 2. rewrite Hb, Hx in Ei.
        destruct (0 <? strcmp_l (command b) (command x)).
        + wp_simpl. apply wp_links. eapply fam_list_add_before; [exact Hl|by rewrite <- Ek|done|].
          intros h' Hl' _. wp_simpl. split; [rewrite Ei; exact Hl'|done].
        + wp_simpl. apply wp_links. eapply wp_rd_next; [apply (dlist_links _ _ _ _ _ Hd)|]. rewrite same_links. wp_simpl.
          apply (IH (l1 ++ [y])); [by rewrite <- app_assoc|cbn in Hk; lia|by rewrite <- app_assoc]. }
    apply (Hgo l []); [done| |done].
    pose proof (dlist_length _ _ _ (lists_ring _ _ Hl _ _ Hf)). unfold walk_fuel. lia.
Qed.

(** The first command of the list whose name the line begins with. *)
Fixpoint find_cmd (cs : gmap Z shell_command) (str : list Z) (l : list Z) : option shell_command :=
  match l with
  | [] => None
  | p :: l' => match cs !! p with
               | Some c => if decide (command c `prefix_of` str) then Some c else find_cmd cs str l'
               | None => None
               end
  end.

(** What is done with it. *)
Definition dispatch (code : Z -> option (list Z) -> M shell Z) (c : option shell_command) (str : list Z) : M shell Z :=
  match c with
  | None => print (chars "unknown command" ++ [10]) ;;; ret 0
  | Some c =>
      let args := arguments str in
      (if match args with Some a => bool_decide (a = chars "--help") || bool_decide (a = chars "-h") | None => false end
       then print (description c ++ [10]) else code (func c) args ;;; ret tt) ;;;
      ret 0
  end.

Lemma strncmp_l_self l1 l2 : strncmp_l (length l1) l1 l2 = 0 <-> l1 `prefix_of` l2.
Proof.
  revert l2. induction l1 as [|a l1 IH]; intros l2; cbn; [split; [intros _; apply prefix_nil|done]|].
  destruct l2 as [|b l2]; [split; [done|intros H; by apply prefix_nil_inv in H]|].
  destruct (Z.eqb_spec a b) as [->|Hne].
  - rewrite IH. split; [apply prefix_cons|apply prefix_cons_inv_2].
  - split; [by destruct (a <? b)|]. intros H. apply prefix_cons_inv_1 in H. congruence.
Qed.

Lemma strcmp_is (a b : list Z) : (strcmp_l a b =? 0) = bool_decide (b = a).
Proof.
  destruct (Z.eqb_spec (strcmp_l a b) 0) as [E|E]; symmetry.
  - apply strcmp_l_zero in E. by apply bool_decide_eq_true.
  - apply bool_decide_eq_false. intros ->. by rewrite strcmp_l_refl in E.
Qed.

(** [run_command] runs the first command of the list whose name the line begins
    with, on what follows the first spaces, or shows its description for "--help"
    and "-h"; a line that begins with no name is unknown.  The name need not end
    where the first word ends: "lsmod" runs "ls". *)
Theorem run_command_first code f cmd l (s : shell) :
  lists (links (kern s)) f -> f !! commands = Some l -> Forall (fun p => is_Some (cmds s !! p)) l ->
  cmd <> [] -> Z.of_nat (length (skip_spaces cmd)) < 256 ->
  run_command commands code (Some cmd) s =
    dispatch code (find_cmd (cmds s) (skip_spaces cmd) l) (skip_spaces cmd) s.
Proof.
  intros Hl Hf Hc Hne Hlen. unfold run_command. destruct cmd as [|c0 cmd0]; [done|].
  set (str := skip_spaces (c0 :: cmd0)) in *. destruct (Z.leb_spec CONSOLE_BUFFER_SIZE (Z.of_nat (length str))) as [H|_].
  { unfold CONSOLE_BUFFER_SIZE in H. lia. }
  assert (Hnext : forall p v, nx (links (kern s)) !! p = Some v -> on_links (rd_next p) s = Ok (v, s)).
  { intros p v Hp. unfold on_links, KState.on_links, zoom, rd_next, bind, gets, id. rewrite Hp. cbn. by rewrite same_links. }
  set (body := fun pos : Z => if pos =? commands then _ else _).
  assert (Hgo : forall l2 l1 n, l = l1 ++ l2 -> (length l2 < n)%nat ->
    loop n body (heado commands l2) s = dispatch code (find_cmd (cmds s) str l2) str s).
  { induction l2 as [|y l2 IH]; intros l1 n Ek Hk; (destruct n as [|n]; [lia|]); cbn [loop]; unfold bind at 1.
    - unfold body at 1. cbn [heado head default]. change (heado commands []) with commands. rewrite Z.eqb_refl. done.
    - pose proof (lists_ring _ _ Hl _ _ Hf) as Hd. rewrite Ek in Hd. unfold body at 1.
      destruct (Z.eqb_spec (heado commands (y :: l2)) commands) as [E|_].
      { apply (dlist_cursor _ _ _ _ Hd) in E. done. }
      change (heado commands (y :: l2)) with y. pose proof Hc as Hc0. rewrite Ek in Hc0. apply Forall_app in Hc0 as [_ Hc0].
      apply Forall_cons in Hc0 as [[c Hy] _]. unfold bind at 1. unfold rd_cmd, bind at 1, gets. rewrite Hy. cbn [lift_opt ret].
      cbn [find_cmd]. rewrite Hy. destruct (decide (command c `prefix_of` str)) as [Hpre|Hpre].
      + apply strncmp_l_self in Hpre. rewrite Hpre. cbn [Z.eqb]. unfold dispatch. unfold bind.
        destruct (arguments str) as [a|]; rewrite ?strcmp_is.
        * repeat case_bool_decide; cbn [orb]; try done; by destruct (code (func c) (Some a) s) as [[]|].
        * by destruct (code (func c) None s) as [[]|].
      + destruct (Z.eqb_spec (strncmp_l (length (command c)) (command c) str) 0) as [E|_].
        { by apply strncmp_l_self in E. }
        unfold bind at 1. rewrite (Hnext _ _ (proj1 (dlist_links _ _ _ _ _ Hd))). unfold ret at 1.
        apply (IH (l1 ++ [y])); [by rewrite <- app_assoc|cbn in Hk; lia]. }
  unfold bind at 1, gets. unfold bind at 1. rewrite (Hnext _ _ (dlist_first _ _ _ (lists_ring _ _ Hl _ _ Hf))).
  apply (Hgo l []); [done|]. pose proof (dlist_length _ _ _ (lists_ring _ _ Hl _ _ Hf)). unfold walk_fuel. lia.
Qed.

Lemma edit_no_zero inp : forall line rest l, 0 ∉ line -> edit inp line = Some (rest, Some l) -> 0 ∉ l.
Proof.
  induction inp as [|c inp IH]; intros line rest l Hz; cbn [edit]; [done|].
  destruct ((c =? 13) || (c =? 10)); [by intros [= _ <-]|].
  destruct (Z.eqb_spec c 0) as [|Hc]; [by apply IH|]. destruct (c =? 3); [done|].
  destruct (c =? 0x15); [apply IH, not_elem_of_nil|].
  destruct (c =? 0x17).
  { apply IH. intros Hi. apply Hz. destruct (kill_word_prefix (rev line)) as [x Hx].
    apply list_elem_of_In, in_rev, list_elem_of_In. rewrite Hx. apply elem_of_app. right.
    by apply list_elem_of_In, in_rev, list_elem_of_In. }
  destruct ((c =? 8) || (c =? 0x7F)).
  { apply IH. intros Hi. apply Hz. destruct line as [|x l0 _] using rev_ind; [done|].
    rewrite removelast_last in Hi. apply elem_of_app. by left. }
  destruct (_ <? 254); apply IH; [|done]. rewrite elem_of_app, list_elem_of_singleton. naive_solver.
Qed.

Lemma edit_length inp : forall line rest l,
  (length line <= 254)%nat -> edit inp line = Some (rest, Some l) -> (length l <= 254)%nat.
Proof.
  induction inp as [|c inp IH]; intros line rest l Hz; cbn [edit]; [done|].
  destruct ((c =? 13) || (c =? 10)); [by intros [= _ <-]|].
  destruct (c =? 0); [by apply IH|]. destruct (c =? 3); [done|].
  destruct (c =? 0x15); [apply IH; cbn; lia|].
  destruct (c =? 0x17).
  { apply IH. destruct (kill_word_prefix (rev line)) as [x Hx]. apply (f_equal length) in Hx.
    rewrite length_app, !length_rev in *. lia. }
  destruct ((c =? 8) || (c =? 0x7F)).
  { apply IH. destruct line as [|x l0 _] using rev_ind; [done|]. rewrite removelast_last. rewrite length_app in Hz. lia. }
  destruct (Z.ltb_spec (Z.of_nat (length line)) 254); apply IH; [rewrite length_app; cbn; lia|done].
Qed.

Lemma skip_spaces_length l : (length (skip_spaces l) <= length l)%nat.
Proof. induction l as [|c l IH]; cbn; [done|]. destruct (c =? 32); cbn; lia. Qed.

Lemma c_string_take b line : 0 ∉ line -> take (S (length line)) b = line ++ [0] -> c_string b = line.
Proof.
  revert b. induction line as [|c line IH]; intros b Hz Hb; destruct b as [|x b]; try done; cbn in Hb.
  - injection Hb as ->. done.
  - injection Hb as -> Hb. rewrite not_elem_of_cons in Hz. cbn [c_string].
    destruct (Z.eqb_spec c 0); [naive_solver|]. f_equal. apply IH; naive_solver.
Qed.

(** [C13] A turn of the shell reads a line and runs it as a command: what is typed up
    to the end of the line, edited, is dispatched to the first command whose name
    it begins with; an empty or broken off line runs nothing. *)
Theorem shell_turn_runs code f l cur_path rest (typed : option (list Z)) (s : shell) :
  lists (links (kern s)) f -> f !! commands = Some l -> Forall (fun p => is_Some (cmds s !! p)) l ->
  length (console_buffer s) = 256%nat -> Forall byte (input s) ->
  edit (input s) [] = Some (rest, typed) ->
  exists s', kern s' = kern s /\ cmds s' = cmds s /\ input s' = rest /\
    shell_turn commands code cur_path s =
      match typed with
      | Some (c :: line) =>
          let str := skip_spaces (c :: line) in
          (dispatch code (find_cmd (cmds s) str l) str ;;; ret tt) s'
      | _ => Ok (tt, s')
      end.
Proof.
  intros Hl Hf Hc Hb Hi He. set (s1 := set_screen (screen s ++ cur_path ++ chars " # ") s).
  assert (Hr : line_read (Some (rest, typed)) s1 (readline (Some []) s1)) by (rewrite <- He; exact (readline_edits (Some []) s1 Hb Hi)).
  assert (Hturn : shell_turn commands code cur_path s = (len <- readline (Some []) ;;
    if 0 <? len then
      lastcommand <- gets (fun s => c_string (console_buffer s)) ;;
      run_command commands code (Some lastcommand) ;;; ret tt
    else ret tt) s1) by done.
  rewrite Hturn. unfold bind at 1. destruct typed as [line|]; destruct Hr as (s' & -> & Hrest & Hbuf & Hk & Hcm).
  2:{ exists s'. done. }
  exists s'. split_and!; [by rewrite Hk|by rewrite Hcm|done|]. destruct line as [|c line]; [done|].
  destruct (Z.ltb_spec 0 (Z.of_nat (length (c :: line)))) as [_|H]; [|cbn in H; lia].
  unfold bind at 1, gets at 1. rewrite (c_string_take _ (c :: line)); [|eapply edit_no_zero, He; apply not_elem_of_nil|done].
  unfold bind. rewrite (run_command_first code f (c :: line) l s'); rewrite ?Hk, ?Hcm; try done.
  eapply edit_length in He; [|cbn; lia]. pose proof (skip_spaces_length (c :: line)). lia.
Qed.

End CommandList.

(** ** Examples *)

Definition demo_links (l : list Z) : lheap :=
  mk_lheap (list_to_map ((fun a => (a, 0)) <$> l)) (list_to_map ((fun a => (a, 0)) <$> l)).
Definition demo_cmds : gmap Z shell_command :=
  {[ 100 := mk_cmd (chars "ls") (chars "help: list") 1; 200 := mk_cmd (chars "cd") (chars "help: change") 2;
     300 := mk_cmd (chars "help") (chars "help: all") 3 ]}.
Definition demo_kern (l : list Z) : kst :=
  mk_kst (demo_links l) ∅ [0] 0 NULL 0 true ∅ 0 true ∅ ∅ ∅ ∅ 0 [] no_mm ∅ ∅ 0.
Definition demo_run {A} (m : M shell A) (s : shell) : shell := match m s with Ok (_, s') => s' | Err _ => s end.
Definition demo_shell (inp : list Z) : shell :=
  demo_run (on_links (INIT_LIST_HEAD 50) ;;; shell_register_command 50 100)
    (mk_shell (demo_kern [50; 100; 200; 300]) inp [] (replicate 256 0) demo_cmds).

(** "lx", a backspace, "s dir", a deleted word, and the end of the line. *)
Lemma readline_edits_witness :
  exists s', readline None (demo_shell [108; 120; 8; 115; 32; 100; 105; 114; 0x17; 13; 65]) = Ok (2, s') /\
    input s' = [65] /\ take 3 (console_buffer s') = [108; 115; 0].
Proof.
  assert (Hi : input (demo_shell [108; 120; 8; 115; 32; 100; 105; 114; 0x17; 13; 65]) = [108; 120; 8; 115; 32; 100; 105; 114; 0x17; 13; 65])
    by (vm_compute; reflexivity).
  pose proof (readline_edits None (demo_shell [108; 120; 8; 115; 32; 100; 105; 114; 0x17; 13; 65])) as H.
  rewrite Hi in H. destruct H as (s' & E & Hr & Hb & _).
  - vm_compute. reflexivity.
  - apply byte_check_sound. vm_compute. reflexivity.
  - exists s'. split; [exact E|]. split; [exact Hr|exact Hb].
Defined.

Lemma demo_shell_lists : lists (links (kern (demo_shell []))) (list_to_map [(50, [100])]).
Proof. apply lists_b_sound. vm_compute. reflexivity. Qed.

Lemma shell_register_in_order_witness :
  exists s', shell_register_command 50 200 (demo_shell []) = Ok (tt, s') /\
    lists (links (kern s')) (<[50 := [200; 100]]> (list_to_map [(50, [100])])).
Proof.
  destruct (shell_register_in_order 50 (list_to_map [(50, [100])]) 200 [100] (demo_shell [])) as (s' & E & Hl & _).
  - discriminate.
  - exact demo_shell_lists.
  - reflexivity.
  - split; [split; eexists; vm_compute; reflexivity|]. intros hd l Hl.
    apply elem_of_list_to_map_2, list_elem_of_singleton in Hl as [= -> ->]. set_solver by lia.
  - repeat constructor; eexists; vm_compute; reflexivity.
  - repeat constructor.
  - exists s'. split; [exact E|]. assert (Hi : insert_cmd (cmds (demo_shell [])) 200 [100] = [200; 100]) by (vm_compute; reflexivity).
    rewrite Hi in Hl. exact Hl.
Defined.

(** "lsmod /" runs "ls". *)
Lemma run_command_first_witness :
  run_command 50 (fun _ _ => ret 7) (Some (chars " lsmod /")) (demo_shell []) =
    dispatch (fun _ _ => ret 7) (Some (mk_cmd (chars "ls") (chars "help: list") 1)) (chars "lsmod /") (demo_shell []).
Proof.
  rewrite (run_command_first 50 (fun _ _ => ret 7) (list_to_map [(50, [100])]) (chars " lsmod /") [100] (demo_shell [])).
  - assert (Hf : find_cmd (cmds (demo_shell [])) (skip_spaces (chars " lsmod /")) [100] =
      Some (mk_cmd (chars "ls") (chars "help: list") 1)) by (vm_compute; reflexivity).
    rewrite Hf. reflexivity.
  - exact demo_shell_lists.
  - reflexivity.
  - repeat constructor. eexists. vm_compute. reflexivity.
  - discriminate.
  - reflexivity.
Defined.

(** "ls /" is typed, with a character taken back. *)
Lemma shell_turn_runs_witness :
  exists s', input s' = [] /\
    shell_turn 50 (fun f args => print [f] ;;; print (default [] args) ;;; ret 0) (chars "/")
      (demo_shell (chars "ls /x" ++ [8; 13])) =
    (dispatch (fun f args => print [f] ;;; print (default [] args) ;;; ret 0)
       (Some (mk_cmd (chars "ls") (chars "help: list") 1)) (chars "ls /") ;;; ret tt) s'.
Proof.
  destruct (shell_turn_runs 50 (fun f args => print [f] ;;; print (default [] args) ;;; ret 0)
    (list_to_map [(50, [100])]) [100] (chars "/") [] (Some (chars "ls /")) (demo_shell (chars "ls /x" ++ [8; 13])))
    as (s' & _ & Hc & Hi & E).
  - apply lists_b_sound. vm_compute. reflexivity.
  - reflexivity.
  - repeat constructor. eexists. vm_compute. reflexivity.
  - vm_compute. reflexivity.
  - apply byte_check_sound. vm_compute. reflexivity.
  - vm_compute. reflexivity.
  - exists s'. split; [exact Hi|]. rewrite E. cbn [chars map String.list_ascii_of_string].
    assert (Hf : find_cmd (cmds (demo_shell (chars "ls /x" ++ [8; 13]))) (chars "ls /") [100] =
      Some (mk_cmd (chars "ls") (chars "help: list") 1)) by (vm_compute; reflexivity).
    rewrite <- Hf. reflexivity.
Defined.
