(* ===== verification/Commands.v ===== *)
(** * init/init_shell.c, init/cmd_pwd.c: the commands of the shell

    The functions behind the commands put the file system, the module loader and
    the kernel log together.  They share one memory and one heap: the class
    [Machine] is where a file system keeps them, so that the buffers it fills are
    the memory the loader reads.  Strings are in that memory; [args] is an address
    or NULL.  What the commands print goes through [printk] into the log. *)

From stdpp Require Import strings.
From S2P Require Import Prelude KList KState Semaphore Env PageAlloc Slob Alloc Str Bytes Symtab Printk Klog Vfs Fat Module Shell.

(** The kernel's state and the memory, inside the state of the file systems. *)
Class Machine (D : Type) : Type := {
  d_kern : D -> kst;
  with_kern : kst -> D -> D;
  d_mem : D -> mem;
  with_mem : mem -> D -> D
}.
Class MachineLaws (D : Type) `{Machine D} : Prop := {
  kern_get : forall k d, d_kern (with_kern k d) = k;
  kern_set : forall d, with_kern (d_kern d) d = d;
  mem_get : forall m d, d_mem (with_mem m d) = m;
  mem_set : forall d, with_mem (d_mem d) d = d;
  mem_put : forall m m' d, with_mem m' (with_mem m d) = with_mem m' d;
  mem_kern : forall k d, d_mem (with_kern k d) = d_mem d;
  kern_mem : forall m d, d_kern (with_mem m d) = d_kern d
}.

(** The FAT file system on the kernel's heap. *)
#[export] Instance fat_machine : Machine (fat_st kst) := {
  d_kern := Fat.heap;
  with_kern := Fat.set_heap;
  d_mem := Fat.ram;
  with_mem := Fat.set_ram
}.
#[export] Instance fat_machine_laws : MachineLaws (fat_st kst).
Proof. by split; intros; try destruct d. Qed.

Record sys (D : Type) : Type := mk_sys {
  fsys : vfs_st D;
  klogs : klog;
  loaded : gmap Z k_module;    (** the modules *)
  unknown : list Z             (** [module_unknown] *)
}.
Arguments mk_sys {D}.
Arguments fsys {D}.
Arguments klogs {D}.
Arguments loaded {D}.
Arguments unknown {D}.

Section Commands.
Context {D : Type} `{Machine D} `{Opvectors D} (E : env).
(** the string constant ["/"] and the [cur_path] of fs/vfsfs.c *)
Context (slash cur_path : Z).
(** [char new_path[128]] and [struct vfs_node file], on the stack *)
Context (new_path file : Z).
(** what [count] on the stack holds before it is set *)
Context (junk : Z).
(** the module loader's: its table of symbols, its list and lock *)
Context (table : list symbols) (symbols_nelts : Z) (arch_4t : bool) (kmod_sem k_module_root : Z).
(** the functions that a module exports, by their address *)
Context (module_code : Z -> M (sys D) unit).
(** a bound on the number of reads of one file *)
Context (reads : nat).

Notation Sys := (M (sys D)).

Definition set_fsys (v : vfs_st D) (s : sys D) : sys D := mk_sys v (klogs s) (loaded s) (unknown s).
Definition set_klogs (v : klog) (s : sys D) : sys D := mk_sys (fsys s) v (loaded s) (unknown s).

Definition on_vfs {A} (m : M (vfs_st D) A) : Sys A := zoom fsys set_fsys m.
Definition on_mem {A} (m : M mem A) : Sys A := on_vfs (Vfs.on_drv (zoom d_mem with_mem m)).
Definition on_heap {A} (m : M kst A) : Sys A := on_vfs (Vfs.on_drv (zoom d_kern with_kern m)).
Definition on_log {A} (m : M (kst * klog) A) : Sys A :=
  zoom (fun s => (d_kern (drv (fsys s)), klogs s))
       (fun p s => set_klogs p.2 (set_fsys (Vfs.set_drv (with_kern p.1 (drv (fsys s))) (fsys s)) s)) m.
Definition on_loader {A} (m : M mst A) : Sys A :=
  zoom (fun s => mk_mst (d_kern (drv (fsys s))) (d_mem (drv (fsys s))) (loaded s) (unknown s))
       (fun t s => mk_sys (Vfs.set_drv (with_mem (mram t) (with_kern (Module.kern t) (drv (fsys s)))) (fsys s))
                     (klogs s) (kmods t) (module_unknown t)) m.

Definition say (fmt : list Z) (ap : list varg) : Sys unit := on_log (printk fmt ap) ;;; ret tt.
Definition read_str (p : Z) : M mem (list Z) := n <- strlen p ;; read_bytes p (Z.to_nat n).

(** [simple_str2up] and [simple_str2lo] in memory *)
Definition str_change (change : Z -> bool) (d : Z) (p : Z) : M mem unit :=
  if p =? NULL then ret tt else
  fuel <- gets mem_fuel ;;
  loop fuel (fun p =>
      c <- rd8 p ;;
      if negb (c =? 0) then (if change c then wr8 p (c - d) else ret tt) ;;; ret (inl (p + 1)) else ret (inr tt)) p.
Definition simple_str2up (p : Z) : M mem unit := str_change islower (97 - 65) p.
Definition simple_str2lo (p : Z) : M mem unit := str_change isupper (65 - 97) p.

(** The path that a command works on: the current one, changed by [path]. *)
Definition make_path (path : Z) : M mem unit :=
  strcpy new_path cur_path ;;;
  n <- (if path =? NULL then ret 0 else strlen path) ;;
  (if 0 <? n then vfs_change_path slash new_path path else ret tt) ;;;
  simple_str2up new_path.

(** A read through the descriptor into [buf]; [*count] is set, or keeps its value. *)
Definition read_into (fd buf size count : Z) : Sys (Z * Z) :=
  ' (r, l, n) <- on_vfs (vfs_read fd buf size) ;;
  on_mem (write_bytes buf l) ;;;
  ret (r, default count n).

Definition do_command_pwd (args : Z) : Sys Z :=
  path <- on_mem (read_str cur_path) ;;
  say (chars "%s" ++ [10]) [VStr (Some path)] ;;; ret 0.

Definition do_command_cd (args : Z) : Sys Z :=
  if args =? NULL then ret (-1) else
  on_mem (simple_str2lo args) ;;;
  on_mem (vfs_change_path slash cur_path args) ;;;
  ret 0.

(** The loop of [ls]: one name after the other, through the buffer. *)
Definition print_entries (fd buf : Z) : Sys unit :=
  loop reads (fun count =>
      ' (r, count) <- read_into fd buf 1024 count ;;
      if negb (r =? -1) && negb (count =? 0) then
        n <- on_mem (strlen buf) ;;
        (if 0 <? n then
           on_mem (simple_str2lo buf) ;;;
           name <- on_mem (read_str buf) ;;
           say (chars "%s" ++ [10]) [VStr (Some name)]
         else ret tt) ;;;
        on_mem (memset buf 0 1024) ;;;
        ret (inl count)
      else ret (inr tt)) junk.

Definition do_command_ls (args : Z) : Sys Z :=
  buf <- on_heap (Slob.kmalloc E 1024) ;;
  if buf =? NULL then ret (-1) else
  on_mem (make_path args) ;;;
  path <- on_mem (read_str new_path) ;;
  fd <- on_vfs (vfs_open path file) ;;
  if fd =? -1 then say (chars "vfs_open failed" ++ [10]) [] ;;; ret (-1) else
  print_entries fd buf ;;;
  e <- on_vfs (vfs_close fd) ;;
  if negb (e =? 0) then say (chars "vfs_close failed" ++ [10]) [] ;;; ret (-1) else
  on_heap (Slob.kfree E buf) ;;;
  ret 0.

(** [simple_strtoul] on the argument, as an address; [args] behind the number is
    not used any more. *)
Definition do_command_mount (args : Z) : Sys Z :=
  if args =? NULL then ret (-1) else
  str <- on_mem (read_str args) ;;
  let fimage_addr := fst (simple_strtoul str 16) in
  if fimage_addr =? 0 then say (chars "Please give a correct address!") [] ;;; ret (-1) else
  e <- on_vfs (vfs_mount fimage_addr (chars "FAT")) ;;
  if negb (e =? 0) then say (chars "FAT FS Mount Failed!" ++ [10]) [] ;;; ret (-1) else ret 0.

(** [mod->entry->syms[i].value]; [struct module_entry] has 60 bytes of name and
    the number of symbols in front of [syms]. *)
Definition entry_sym (kmod : Z) (i : Z) : Sys Z :=
  m <- on_loader (rd_kmod kmod) ;;
  if km_entry m =? NULL then fail NullDeref else
  l <- on_mem (read_bytes (km_entry m + 64 + 8 * i + 4) 4) ;; ret (le32 l 0).

Definition do_command_insmod (args : Z) : Sys Z :=
  if args =? NULL then say (chars "Please give a correct path!" ++ [10]) [] ;;; ret (-1) else
  on_mem (make_path args) ;;;
  kmod <- on_loader (alloc_kmodule (AL := kernel_allocator E) E kmod_sem k_module_root) ;;
  if kmod =? NULL then say (chars "kmodule alloc failed!" ++ [10]) [] ;;; ret (-1) else
  file_buf <- on_heap (Slob.kmalloc E 4096) ;;
  if file_buf =? NULL then say (chars "file buffer alloc failed!" ++ [10]) [] ;;; ret (-1) else
  path <- on_mem (read_str new_path) ;;
  fd <- on_vfs (vfs_open path file) ;;
  if fd =? -1 then say (chars "vfs_open failed" ++ [10]) [] ;;; ret (-1) else
  loop reads (fun '(buf, size, count) =>
      ' (r, count) <- read_into fd buf size count ;;
      if negb (r =? -1) && negb (count =? 0)
      then ret (inl (u32 (buf + count), u32 (4096 - count), count))
      else ret (inr tt)) (file_buf, 4096, junk) ;;;
  e <- on_vfs (vfs_close fd) ;;
  if negb (e =? 0) then say (chars "vfs_close failed" ++ [10]) [] ;;; ret (-1) else
  on_loader (load_kmodule (AL := kernel_allocator E) table symbols_nelts arch_4t file_buf kmod) ;;;
  on_heap (Slob.kfree E file_buf) ;;;
  f <- entry_sym kmod 0 ;;
  module_code f ;;;
  ret 0.

Definition do_command_rmmod (args : Z) : Sys Z :=
  if args =? NULL then say (chars "Please give a correct module name!" ++ [10]) [] ;;; ret (-1) else
  name <- on_mem (read_str args) ;;
  kmod <- on_loader (find_module_by_name k_module_root name) ;;
  if kmod =? NULL then say (chars "Cann't find the module!" ++ [10]) [] ;;; ret (-1) else
  f <- entry_sym kmod 1 ;;
  module_code f ;;;
  on_loader (free_kmodule (AL := kernel_allocator E) E kmod_sem kmod) ;;;
  ret 0.

Definition do_command_kmsg (args : Z) : Sys Z := zoom klogs set_klogs kmsg_dump ;;; ret 0.

End Commands.

(** ** Strings in memory *)

Definition changed (change : Z -> bool) (d : Z) (c : Z) : Z := if change c then c - d else c.

Lemma wp_str_change change d m p l (Q : unit -> mem -> Prop) :
  p <> 0 -> str m p l -> Forall (fun c => 0 < changed change d c < 256) l ->
  (forall m', str m' p (changed change d <$> l) ->
     (forall b, ~ (p <= b < p + Z.of_nat (length l)) -> m' !! b = m !! b) ->
     (forall b, is_Some (m !! b) -> is_Some (m' !! b)) -> Q tt m') ->
  wp (str_change change d p) Q m.
Proof.
  intros Hp Hs Hd HQ. unfold str_change. destruct (Z.eqb_spec p NULL); [done|]. wp_simpl.
  pose proof (str_size _ _ _ Hs) as Hsz. assert (Hf : (length l < mem_fuel m)%nat) by (unfold mem_fuel; lia).
  clear Hsz Hp n. revert Hf. generalize (mem_fuel m). intros fuel. revert fuel m p Hs Hd HQ.
  induction l as [|c l IH]; intros fuel m p [Hb Hc] Hd HQ Hf; (destruct fuel as [|fuel]; [cbn in Hf; lia|]); cbn [loop]; wp_simpl.
  - destruct Hb as [Hb _]. eapply wp_rd8; [exact Hb|]. cbn [Z.eqb negb]. wp_simpl. apply HQ; [by repeat split|done|done].
  - destruct Hb as [Hb Hb']. apply Forall_cons in Hc as [Hc Hc']. apply Forall_cons in Hd as [Hd Hd']. unfold char_ok in Hc.
    eapply wp_rd8; [exact Hb|]. destruct (Z.eqb_spec c 0); [lia|]. cbn [negb]. wp_simpl.
    assert (Hgo : forall m1, m1 !! p = Some (changed change d c) -> (forall b, b <> p -> m1 !! b = m !! b) ->
      wp (loop fuel (fun p => c <- rd8 p ;;
        if negb (c =? 0) then (if change c then wr8 p (c - d) else ret tt) ;;; ret (inl (p + 1)) else ret (inr tt)) (p + 1)) Q m1).
    { intros m1 H1 Hsame. apply IH; [|done| |cbn in Hf; lia].
      - split; [|done]. eapply bytes_ext; [|exact Hb']. intros b Hb2. apply Hsame. lia.
      - intros m' [Hs1 Hs2] Ho Hm. apply HQ.
        + split; [|by constructor]. cbn [fmap list_fmap app bytes]. split; [|exact Hs1]. rewrite Ho by lia. done.
        + intros b Hb2. cbn [length] in Hb2. rewrite Ho by lia. apply Hsame. lia.
        + intros b Hb2. apply Hm. destruct (decide (b = p)) as [->|Hne]; [by eexists|by rewrite Hsame]. }
    unfold changed in Hd, Hgo. destruct (change c).
    + eapply wp_wr8; [by eexists|]. wp_simpl. apply Hgo; [by rewrite lookup_insert_eq, u8_small by lia|].
      intros b Hne. by rewrite lookup_insert_ne.
    + wp_simpl. by apply Hgo.
Qed.

Definition lower : list Z -> list Z := fmap (changed isupper (65 - 97)).
Definition upper : list Z -> list Z := fmap (changed islower (97 - 65)).

(** The functions on memory are those on characters. *)
Lemma upper_is l : upper l = Shell.simple_str2up l.
Proof. done. Qed.
Lemma lower_is l : lower l = Shell.simple_str2lo l.
Proof. done. Qed.

Lemma lower_range l : Forall char_ok l -> Forall (fun c => 0 < changed isupper (65 - 97) c < 256) l.
Proof.
  intros H. eapply Forall_impl; [exact H|]. intros c Hc. unfold char_ok, changed, isupper in *.
  destruct ((65 <=? c) && (c <=? 90)) eqn:E; [|lia]. apply andb_prop in E as [E1%Z.leb_le E2%Z.leb_le]. lia.
Qed.
Lemma upper_range l : Forall char_ok l -> Forall (fun c => 0 < changed islower (97 - 65) c < 256) l.
Proof.
  intros H. eapply Forall_impl; [exact H|]. intros c Hc. unfold char_ok, changed, islower in *.
  destruct ((97 <=? c) && (c <=? 122)) eqn:E; [|lia]. apply andb_prop in E as [E1%Z.leb_le E2%Z.leb_le]. lia.
Qed.

Lemma wp_simple_str2lo m p l (Q : unit -> mem -> Prop) :
  p <> 0 -> str m p l ->
  (forall m', str m' p (lower l) -> (forall b, ~ (p <= b < p + Z.of_nat (length l)) -> m' !! b = m !! b) ->
     (forall b, is_Some (m !! b) -> is_Some (m' !! b)) -> Q tt m') ->
  wp (simple_str2lo p) Q m.
Proof. intros Hp Hs HQ. eapply wp_str_change; [done|exact Hs|apply lower_range, Hs|exact HQ]. Qed.

Lemma wp_read_str m p l (Q : list Z -> mem -> Prop) : str m p l -> Q l m -> wp (read_str p) Q m.
Proof.
  intros Hs HQ. unfold read_str. wp_simpl. eapply wp_strlen; [exact Hs|]. rewrite Nat2Z.id. unfold wp.
  destruct Hs as [Hb _]. apply bytes_app in Hb as [Hb _]. by rewrite (read_bytes_eq _ _ _ Hb).
Qed.

(** ** Running the parts *)

Section CommandSpec.
Context {D : Type} `{HM : Machine D} `{HL : !MachineLaws D} `{HO : Opvectors D}.
Implicit Types (s : sys D).

Definition memory s : mem := d_mem (drv (fsys s)).
Definition put_memory (m : mem) s : sys D := set_fsys (Vfs.set_drv (with_mem m (drv (fsys s))) (fsys s)) s.
(** [s] after something was printed. *)
Definition printed (c : Z) (b : bool) (g : klog) s : sys D :=
  set_klogs g (set_fsys (Vfs.set_drv (with_kern (crit_set c b (d_kern (drv (fsys s)))) (drv (fsys s))) (fsys s)) s).

Lemma wp_on_mem {A} (m : M mem A) s (Q : A -> sys D -> Prop) :
  wp m (fun a t => Q a (put_memory t s)) (memory s) -> wp (on_mem m) Q s.
Proof. intros H. unfold on_mem, on_vfs, Vfs.on_drv. rewrite !wp_zoom. exact H. Qed.

Lemma put_same s : put_memory (memory s) s = s.
Proof. unfold put_memory, memory. rewrite mem_set. by destruct s as [[] ? ? ?]. Qed.
Lemma memory_put m s : memory (put_memory m s) = m.
Proof. unfold memory, put_memory. cbn. apply mem_get. Qed.
Lemma memory_printed c b g s : memory (printed c b g s) = memory s.
Proof. unfold memory, printed. cbn. apply mem_kern. Qed.

Lemma put_put m1 m2 s : put_memory m2 (put_memory m1 s) = put_memory m2 s.
Proof. unfold put_memory. cbn. by rewrite mem_put. Qed.

(** The log, with room in its sequence numbers for [n] more messages. *)
Definition log_room (n : Z) s : Prop := exists ts, log_ok (klogs s) ts /\ log_next_seq (klogs s) + n < 2 ^ 64.

(** A line goes to the console. *)
Lemma wp_say_line l n s (Q : unit -> sys D -> Prop) :
  Forall char_ok l -> Z.of_nat (length l) < 254 -> log_room n s -> 1 <= n ->
  (forall c b g, uart g = uart (klogs s) ++ l ++ [10] -> log_room (n - 1) (printed c b g s) -> Q tt (printed c b g s)) ->
  wp (say (chars "%s" ++ [10]) [VStr (Some l)]) Q s.
Proof.
  intros Hc Hl (ts & Hok & Hseq) Hn HQ. unfold say, on_log. change (2 ^ 64) with 18446744073709551616 in Hseq. wp_simpl.
  assert (Hb : Forall byte l) by (eapply Forall_impl; [exact Hc|]; unfold byte, char_ok; lia).
  eapply wp_printk; [reflexivity|exact Hok|change (2 ^ 64) with 18446744073709551616; lia|].
  intros out c b g' k E Hu Hs Hk. wp_simpl. rewrite vsnprintf_line in E by (done || lia). injection E as E1 E2.
  assert (Eo : out = l ++ [10]).
  { change [10; 0] with ([10] ++ [0]) in E1. rewrite app_assoc in E1. by apply app_inj_tail in E1 as [-> _]. }
  subst out. apply (HQ c b g').
  - rewrite Hu. f_equal. clear -Hc. unfold char_ok in Hc. rewrite <- app_assoc. cbn [app].
    induction Hc as [|x l Hx Hc IH]; [done|]. cbn [app c_string]. destruct (Z.eqb_spec x 0); [lia|]. by rewrite IH.
  - eexists. split; [exact Hk|]. change (2 ^ 64) with 18446744073709551616. cbn in *. lia.
Qed.

(** ** cd and pwd *)

Context (slash cur_path : Z).

(** [C14] [cd] and then [pwd]: the console shows the current path changed by the
    argument in lower case, as [change_path] says, and that is what the buffer
    of the path holds. *)
Theorem cd_then_pwd args any c i s :
  0 < cur_path -> args <> 0 -> c <> [] -> path_mem slash cur_path 128 (memory s) c args i ->
  slash + 1 < args \/ args + Z.of_nat (length i) <= slash ->
  Z.of_nat (length (change_path (S (length i)) c (lower i))) < 128 -> log_room 1 s ->
  exists s', (do_command_cd slash cur_path args ;;; do_command_pwd cur_path any) s = Ok (0, s') /\
    uart (klogs s') = uart (klogs s) ++ change_path (S (length i)) c (lower i) ++ [10] /\
    str (memory s') cur_path (change_path (S (length i)) c (lower i)).
Proof.
  intros Hpos Hargs Hc Hm Hap Hfit Hroom. set (c' := change_path _ _ _) in *.
  assert (H : wp (do_command_cd slash cur_path args ;;; do_command_pwd cur_path any) (fun r s' => r = 0 /\
    uart (klogs s') = uart (klogs s) ++ c' ++ [10] /\ str (memory s') cur_path c') s).
  { unfold do_command_cd, do_command_pwd. destruct (Z.eqb_spec args NULL); [done|]. wp_simpl. apply wp_on_mem.
    eapply wp_simple_str2lo; [done|apply Hm|]. intros m1 H1 Ho1 Hm1. wp_simpl. apply wp_on_mem. rewrite memory_put.
    assert (Hp1 : path_mem slash cur_path 128 m1 c args (lower i)).
    { destruct Hm as [P1 P2 P3 P4 P5 P6 P7]. unfold apart in *. split; unfold apart; try done.
      - eapply str_ext; [|exact P1]. intros b Hb. apply Ho1. lia.
      - intros j Hj. by apply Hm1, P2.
      - unfold lower. by rewrite length_fmap.
      - eapply str_ext; [|exact P6]. intros b Hb. apply Ho1. cbn in Hb. lia. }
    destruct (change_path_ok slash cur_path 128 m1 c args (lower i)) as (m2 & E2 & Hs2 & _); try done.
    { unfold lower at 1. by rewrite length_fmap. }
    eapply wp_intro; [exact E2|]. wp_simpl. apply wp_on_mem. rewrite memory_put.
    unfold lower at 1 in Hs2. rewrite length_fmap in Hs2. fold c' in Hs2.
    eapply wp_read_str; [exact Hs2|]. rewrite put_put, put_put. wp_simpl.
    eapply (wp_say_line c' 1); [apply Hs2|lia|exact Hroom|lia|]. intros k b g Hu _. wp_simpl.
    rewrite memory_printed, memory_put. by split_and!. }
  apply wp_elim in H as (r & s' & E & -> & Hu & Hs). by exists s'.
Qed.

(** ** ls *)

(** A descriptor through which the names of a directory are read, one by one: in
    the state [P i] the first [i] have been read.  A read stores the name with its
    zero, and more behind it.  What is in the buffer and the printing in between
    do not matter. *)
Record dir_reads (fd buf : Z) (names : list (list Z)) (P : nat -> vfs_st D -> Prop) : Prop := {
  dr_next : forall i name v, names !! i = Some name -> P i v -> exists v' rest n,
    vfs_read fd buf 1024 v = Ok ((0, name ++ 0 :: rest, Some n), v') /\ n <> 0 /\
    Z.of_nat (length (name ++ 0 :: rest)) <= 1024 /\ Forall byte rest /\ P (S i) v' /\ d_mem (drv v') = d_mem (drv v);
  dr_end : forall v, P (length names) v -> exists v' l n,
    vfs_read fd buf 1024 v = Ok ((-1, l, n), v') /\ Z.of_nat (length l) <= 1024 /\ Forall byte l /\
    d_mem (drv v') = d_mem (drv v);
  dr_buffer : forall i v m, P i v -> (forall b, ~ (buf <= b < buf + 1024) -> m !! b = d_mem (drv v) !! b) ->
    P i (Vfs.set_drv (with_mem m (drv v)) v);
  dr_printing : forall i v c b, P i v -> P i (Vfs.set_drv (with_kern (crit_set c b (d_kern (drv v))) (drv v)) v)
}.

Definition name_ok (name : list Z) : Prop := name <> [] /\ Forall char_ok name /\ Z.of_nat (length name) < 254.
Definition line (name : list Z) : list Z := lower name ++ [10].

Context (junk : Z).

(** One name: it is read, made lower case, printed, and the buffer is cleared. *)
Lemma wp_print_entry fd buf names P i name s count n (Q : Z + unit -> sys D -> Prop) :
  dir_reads fd buf names P -> names !! i = Some name -> name_ok name -> buf <> 0 -> P i (fsys s) ->
  mapped (memory s) buf 1024 -> log_room n s -> 1 <= n ->
  (forall s', P (S i) (fsys s') -> mapped (memory s') buf 1024 -> log_room (n - 1) s' ->
     uart (klogs s') = uart (klogs s) ++ line name -> forall count', Q (inl count') s') ->
  wp (' (r, count) <- read_into fd buf 1024 count ;;
      if negb (r =? -1) && negb (count =? 0) then
        n <- on_mem (strlen buf) ;;
        (if 0 <? n then
           on_mem (simple_str2lo buf) ;;;
           name <- on_mem (read_str buf) ;;
           say (chars "%s" ++ [10]) [VStr (Some name)]
         else ret tt) ;;;
        on_mem (memset buf 0 1024) ;;;
        ret (inl count)
      else ret (inr tt)) Q s.
Proof.
  intros Hd Hname (Hne & Hc & Hlen) Hbuf HP Hmap Hlog Hn HQ. pose proof (lower_range _ Hc) as Hlr.
  destruct (dr_next _ _ _ _ Hd i name (fsys s) Hname HP) as (v1 & rest & k & E1 & Hk & Hfit & Hrest & HP1 & Hm1).
  assert (Hb : Forall byte (name ++ 0 :: rest)).
  { apply Forall_app. split; [eapply Forall_impl; [exact Hc|]; unfold byte, char_ok; lia|by repeat constructor]. }
  unfold read_into, on_vfs. wp_simpl. eapply wp_intro; [exact E1|]. cbv beta iota. wp_simpl. apply wp_on_mem.
  assert (Emem : memory (set_fsys v1 s) = memory s) by exact Hm1. rewrite Emem.
  apply wp_write_bytes; [exact Hb| |]. { intros j Hj. apply Hmap. lia. }
  intros m2 S2. pose proof (fun x => stored_mapped _ _ _ _ x S2) as M2. destruct S2 as [I2 O2].
  change (0 :: rest) with ([0] ++ rest) in I2. rewrite app_assoc in I2. apply bytes_app in I2 as [I2 _].
  rewrite length_app in O2, Hfit. cbn [length] in O2, Hfit.
  wp_simpl. cbn [default from_option id]. change (0 =? -1) with false.
  destruct (Z.eqb_spec k 0); [lia|]. cbn [negb andb]. wp_simpl.
  apply wp_on_mem. rewrite memory_put. eapply wp_strlen; [by split|]. rewrite put_put.
  destruct (Z.ltb_spec 0 (Z.of_nat (length name))); [|destruct name; [done|cbn in *; lia]]. wp_simpl.
  apply wp_on_mem. rewrite memory_put. eapply wp_simple_str2lo; [done|by split|]. intros m3 H3 O3 M3. rewrite put_put. wp_simpl.
  apply wp_on_mem. rewrite memory_put. eapply wp_read_str; [exact H3|]. rewrite put_put. wp_simpl.
  eapply (wp_say_line (lower name) n); [apply H3|unfold lower; rewrite length_fmap; lia|exact Hlog|done|].
  intros c b g Hu Hlog'. wp_simpl. apply wp_on_mem. rewrite memory_printed, memory_put.
  apply wp_memset; [lia|intros j Hj; apply M3, M2, Hmap, Hj|]. intros m4 S4. wp_simpl.
  pose proof (fun x => stored_mapped _ _ _ _ x S4) as M4. destruct S4 as [I4 O4]. rewrite length_replicate in O4.
  change (Z.of_nat (Z.to_nat 1024)) with 1024 in O4.
  apply HQ.
  - apply (dr_buffer _ _ _ _ Hd).
    + apply (dr_printing _ _ _ _ Hd). apply (dr_buffer _ _ _ _ Hd); [exact HP1|].
      intros x Hx. rewrite O3, O2 by lia. change (memory s !! x = d_mem (drv v1) !! x). by rewrite Hm1.
    + intros x Hx. cbn. rewrite mem_kern, mem_get. apply O4. lia.
  - rewrite memory_put. intros j Hj. by apply M4, M3, M2, Hmap.
  - exact Hlog'.
  - exact Hu.
Qed.

(** The loop of [ls], on any descriptor through which names are read. *)
Lemma print_entries_reads fd buf names P reads s :
  dir_reads fd buf names P -> Forall name_ok names -> buf <> 0 -> P 0%nat (fsys s) ->
  mapped (memory s) buf 1024 -> log_room (Z.of_nat (length names)) s -> (length names < reads)%nat ->
  exists s', print_entries junk reads fd buf s = Ok (tt, s') /\
    uart (klogs s') = uart (klogs s) ++ concat (line <$> names).
Proof.
  intros Hd Hnames Hbuf HP Hmap Hlog Hreads.
  assert (H : wp (print_entries junk reads fd buf) (fun _ s' => uart (klogs s') = uart (klogs s) ++ concat (line <$> names)) s).
  { unfold print_entries.
    apply (wp_loop_idx _ (fun n _ s' => exists i, (i <= length names)%nat /\ n = (length names - i)%nat /\ P i (fsys s') /\
      mapped (memory s') buf 1024 /\ log_room (Z.of_nat (length names - i)) s' /\
      uart (klogs s') = uart (klogs s) ++ concat (line <$> take i names))) with (n := length names); [|exists 0%nat|done].
    - intros n count s' (i & Hi & -> & HPi & Hm & Hl & Hu). destruct (decide (i = length names)) as [->|Hne].
      + destruct (dr_end _ _ _ _ Hd _ HPi) as (v' & l' & n' & E & Hfit & Hb & Hm'). unfold read_into, on_vfs. wp_simpl.
        eapply wp_intro; [exact E|]. cbv beta iota. wp_simpl. apply wp_on_mem.
        apply wp_write_bytes; [exact Hb|intros j Hj; unfold memory, set_fsys; cbn; rewrite Hm'; apply Hm; lia|].
        intros m2 _. wp_simpl. change (-1 =? -1) with true. cbn [negb andb]. wp_simpl. cbn. by rewrite take_ge in Hu.
      + destruct (lookup_lt_is_Some_2 names i ltac:(lia)) as [name Hname].
        eapply (wp_print_entry fd buf names P i name s' count); [done..|by eapply Forall_lookup_1|done|done|done|exact Hl|lia|].
        intros s2 HP2 Hm2 Hl2 Hu2 count'. exists (length names - S i)%nat. split; [lia|]. exists (S i). split_and!; try done; [lia| |].
        * by replace (Z.of_nat (length names - S i)) with (Z.of_nat (length names - i) - 1) by lia.
        * rewrite Hu2, Hu, (take_S_r _ _ _ Hname), fmap_app, concat_app, <- app_assoc. cbn. by rewrite app_nil_r.
    - split_and!; [lia|lia|done|done|by rewrite Nat.sub_0_r|]. cbn. by rewrite app_nil_r. }
  apply wp_elim in H as ([] & s' & E & Hu). by exists s'.
Qed.
End CommandSpec.

(** ** The names in a directory of the FAT file system *)

Section FatListing.
Context {HA : Allocator kst} {HS : AllocatorSpec kst}.
(** The allocator's invariant does not depend on the critical section. *)
Context (Hcrit : forall h c b, heap_ok h -> heap_ok (crit_set c b h)).
Context (junk : Z) (stale : list Z) (fatfs_vops fatfs_dir_vops : Z).
Context (Hvops : fatfs_dir_vops <> fatfs_vops /\ fatfs_dir_vops <> 0).
Context (fs : fatfs_priv) (tbl chain : list Z) (datas : list (list Z)).
Notation content := (concat datas).
Notation total := (Z.to_nat (Z.of_nat (length chain) * cluster_bytes fs / 32)).
#[local] Instance fat_ops : Opvectors (fat_st kst) := fat_opvectors junk stale fatfs_vops fatfs_dir_vops.

(** Descriptor [fd] is that of the directory at [p], at its [i]th entry. *)
Definition listing (fd : nat) (fp p : Z) (i : nat) (v : vfs_st (fat_st kst)) : Prop :=
  length (desc v) = 256%nat /\ desc v !! fd = Some fp /\ nodes v !! fp = Some (mk_node fatfs_dir_vops p) /\
  dir_open fs tbl chain datas (drv v) p i.

(** A read of the directory through the descriptor. *)
Lemma vfs_read_dir fd fp p i buf v :
  listing fd fp p i v -> fp <> FD_ALLOCATED -> fp <> 0 -> p <> 0 -> 0 < buf -> (i < total)%nat ->
  exists v', d_mem (drv v') = d_mem (drv v) /\ listing fd fp p (S i) v' /\
    let e := dirent_at content i in
    let l := slice datas (32 * Z.of_nat i) 32 in
    vfs_read (Z.of_nat fd) buf 1024 v =
      Ok (if 0 <? dirent_trim (e_name e) 8
          then (0, overlay (dirent_name e ++ [0]) l, Some (Z.of_nat (length (dirent_name e)) + 1))
          else (-1, l, Some 32), v').
Proof.
  intros (Hlen & Hfd & Hfp & Hopen) Hf1 Hf0 Hp Hbuf Hi. destruct Hvops as [Hv1 Hv2].
  assert (Hend : 32 * (Z.of_nat i + 1) <= Z.of_nat (length chain) * cluster_bytes fs).
  { pose proof (Z.mul_div_le (Z.of_nat (length chain) * cluster_bytes fs) 32 ltac:(lia)). lia. }
  pose proof (wp_fatfs_dir_read stale fs tbl chain datas (drv v) p i buf 1024 (fun r d' =>
    ram d' = ram (drv v) /\ dir_open fs tbl chain datas d' p (S i) /\
    r = if 0 <? dirent_trim (e_name (dirent_at content i)) 8
        then (0, overlay (dirent_name (dirent_at content i) ++ [0]) (slice datas (32 * Z.of_nat i) 32),
              Some (Z.of_nat (length (dirent_name (dirent_at content i))) + 1))
        else (-1, slice datas (32 * Z.of_nat i) 32, Some 32)) Hopen Hp Hbuf ltac:(done) Hend
    ltac:(intros d' Hr Ho; by split_and!)) as W.
  apply wp_elim in W as (r & d' & E & Hr & Ho & ->). exists (Vfs.set_drv d' v). split; [exact Hr|]. split; [by split_and!|].
  cbv zeta. unfold vfs_read. unfold bind at 1. rewrite (fp_get_node v fd fp) by done.
  unfold rd_node, bind, gets. rewrite Hfp. cbn [lift_opt ret vops priv]. destruct (Z.eqb_spec fatfs_dir_vops NULL); [done|].
  unfold lift_opt, opvector_at, fat_ops, fat_opvectors. destruct (Z.eqb_spec fatfs_dir_vops fatfs_vops); [done|].
  rewrite Z.eqb_refl. cbn [ret read]. unfold Vfs.on_drv, zoom. by rewrite E.
Qed.

Lemma fat_dir_reads fd fp p buf :
  fp <> FD_ALLOCATED -> fp <> 0 -> p <> 0 -> 0 < buf -> apart_image fs tbl chain buf 1024 -> Forall byte content ->
  Z.of_nat (length content) = Z.of_nat (length chain) * cluster_bytes fs ->
  (length (listed content total 0) < total)%nat ->
  dir_reads (Z.of_nat fd) buf (listed content total 0) (listing fd fp p).
Proof.
  intros Hf1 Hf0 Hp Hbuf Hap Hb Hc Htot.
  assert (Hsl : forall i, Forall byte (slice datas (32 * Z.of_nat i) 32)) by (intros; by apply Forall_take, Forall_drop).
  assert (Hlen : forall i, (length (slice datas (32 * Z.of_nat i) 32) <= 32)%nat) by (intros; unfold slice; rewrite length_take; lia).
  split.
  - intros i name v Hname Hv. apply listed_lookup in Hname as (Hi & Ht & ->). cbn [Nat.add] in *.
    destruct (dirent_name_ok content i Hb Ht) as (_ & _ & Hn).
    destruct (vfs_read_dir fd fp p i buf v) as (v' & Hm & Hv' & E); try done. cbv zeta in E.
    destruct (Z.ltb_spec 0 (dirent_trim (e_name (dirent_at content i)) 8)); [|lia].
    exists v', (drop (S (length (dirent_name (dirent_at content i)))) (slice datas (32 * Z.of_nat i) 32)),
      (Z.of_nat (length (dirent_name (dirent_at content i))) + 1).
    assert (Eo : overlay (dirent_name (dirent_at content i) ++ [0]) (slice datas (32 * Z.of_nat i) 32) =
      dirent_name (dirent_at content i) ++ 0 :: drop (S (length (dirent_name (dirent_at content i)))) (slice datas (32 * Z.of_nat i) 32)).
    { unfold overlay. rewrite length_app, Nat.add_1_r, <- app_assoc. done. }
    rewrite <- Eo. split; [exact E|]. split_and!; try done; [lia| |by apply Forall_drop].
    unfold overlay. rewrite !length_app, length_drop. specialize (Hlen i). cbn [length]. lia.
  - intros v Hv. pose proof (listed_end content total 0 Htot) as He. cbn [Nat.add] in He.
    destruct (vfs_read_dir fd fp p _ buf v Hv) as (v' & Hm & _ & E); try done. cbv zeta in E.
    destruct (Z.ltb_spec 0 (dirent_trim (e_name (dirent_at content (length (listed content total 0)))) 8)); [lia|].
    eexists v', _, _. split; [exact E|]. split_and!; try done. specialize (Hlen (length (listed content total 0))). lia.
  - intros i v m (H1 & H2 & H3 & [D1 D2 D3 D4 D5]) Hm. split_and!; try done. split; try done.
    eapply file_at_ext; [exact Hap|exact Hm|exact D2].
  - intros i v c b (H1 & H2 & H3 & [D1 D2 D3 D4 D5]). split_and!; try done. split; try done. cbn. by apply Hcrit.
Qed.

(** [C15] The loop of [ls] on the descriptor of an open directory of the FAT file
    system, other than a root directory, whose list of entries has an end: it
    ends, and it has printed the name of every entry up to the first one without
    a name, in order and in lower case, each on a line.  The buffer is apart from
    the image, and there is room in the log. *)
Theorem print_entries_lists fd fp p buf reads s :
  dir_open fs tbl chain datas (drv (fsys s)) p 0 -> p <> 0 -> Forall byte content ->
  (length (listed content total 0) < total)%nat ->
  length (desc (fsys s)) = 256%nat -> desc (fsys s) !! fd = Some fp -> fp <> FD_ALLOCATED -> fp <> 0 ->
  nodes (fsys s) !! fp = Some (mk_node fatfs_dir_vops p) ->
  0 < buf -> apart_image fs tbl chain buf 1024 -> mapped (memory s) buf 1024 ->
  log_room (Z.of_nat (length (listed content total 0))) s -> (length (listed content total 0) < reads)%nat ->
  exists s', print_entries junk reads (Z.of_nat fd) buf s = Ok (tt, s') /\
    uart (klogs s') = uart (klogs s) ++ concat (line <$> listed content total 0).
Proof.
  intros Hopen Hp Hb Htot Hlen Hfd Hf1 Hf0 Hnode Hbuf Hap Hmap Hroom Hreads.
  pose proof (content_length _ _ _ _ _ (do_file _ _ _ _ _ _ _ Hopen)) as Hc.
  eapply (print_entries_reads junk (Z.of_nat fd) buf _ (listing fd fp p)); try done; [by apply fat_dir_reads| |lia].
  apply Forall_lookup. intros i name Hname. apply listed_lookup in Hname as (_ & Ht & ->).
  destruct (dirent_name_ok content _ Hb Ht) as (H1 & H2 & H3). split_and!; [done|done|lia].
Qed.
End FatListing.

(** ** Examples *)

(** The path "/" in 128 bytes, the argument "Ab" and the constant, one behind the
    other from address 1 on. *)
Definition demo_ram : mem := image ([0] ++ ([47] ++ replicate 127 0) ++ [65; 98; 0] ++ [47; 0]).

Lemma demo_ram_path : path_mem 132 1 128 demo_ram [47] 129 [65; 98].
Proof.
  pose proof (image_bytes ([0] ++ ([47] ++ replicate 127 0) ++ [65; 98; 0] ++ [47; 0])) as H. fold demo_ram in H.
  apply bytes_app in H as [_ H]. apply bytes_app in H as [H1 H]. apply bytes_app in H as [H2 H3].
  rewrite length_app, length_replicate in *. cbn [length] in *. cbn [Z.add Z.of_nat] in *. split; unfold apart; try (cbn; lia).
  - split; [|by repeat constructor]. change ([47] ++ replicate 127 0) with (([47] ++ [0]) ++ replicate 126 0) in H1.
    by apply bytes_app in H1 as [H1 _].
  - intros i Hi. destruct (lookup_lt_is_Some_2 ([47] ++ replicate 127 0) (Z.to_nat i)) as [x Hx].
    { rewrite length_app, length_replicate. cbn. lia. }
    pose proof (bytes_lookup _ _ _ _ _ H1 Hx) as Hl. rewrite Z2Nat.id in Hl by lia. by exists x.
  - split; [exact H2|]. by repeat constructor.
  - split; [exact H3|]. by repeat constructor.
Qed.

Definition demo_kst : kst := Klog.demo_kern.
Definition demo_sys {D} (d : D) (desc : list Z) : sys D :=
  mk_sys (mk_vfs [] (mk_node 0 0) desc {[ 5000 := mk_node 9 0 ]} d) demo_log ∅ [].
Lemma demo_log_room {D} (d : D) desc n : n < 1000 -> log_room n (demo_sys d desc).
Proof. intros Hn. exists []. split; [exact demo_log_ok|]. cbn. change (2 ^ 64) with 18446744073709551616. lia. Qed.

Lemma cd_then_pwd_witness :
  exists s', (do_command_cd 132 1 129 ;;; do_command_pwd 1 0) (demo_sys (Fat.mk_fat demo_kst demo_ram ∅ ∅) []) = Ok (0, s') /\
    uart (klogs s') = chars "/ab" ++ [10].
Proof.
  destruct (cd_then_pwd 132 1 129 0 [47] [65; 98] (demo_sys (Fat.mk_fat demo_kst demo_ram ∅ ∅) [])) as (s' & E & Hu & _).
  - lia.
  - lia.
  - discriminate.
  - exact demo_ram_path.
  - right. cbn. lia.
  - vm_compute. reflexivity.
  - apply demo_log_room. lia.
  - exists s'. exact (conj E Hu).
Defined.

(** The directory of the FAT16 image of Fat.v, open on descriptor 3, with the
    buffer at 1 and the shared heap that always gives the same block. *)
#[local] Instance demo_alloc_kst : Allocator kst := { kmalloc := fun _ => ret 5000; kfree := fun _ => ret tt }.
Lemma demo_kmalloc_ok n h : True -> wp (A := Z) (kmalloc (Allocator := demo_alloc_kst) n) (fun p h' => p <> 0 /\ True) h.
Proof. intros _. cbn. by wp_simpl. Qed.
Lemma demo_kfree_ok p h : True -> wp (A := unit) (kfree (Allocator := demo_alloc_kst) p) (fun _ h' => True) h.
Proof. intros _. cbn. by wp_simpl. Qed.
#[local] Instance demo_alloc_ok : AllocatorSpec kst := {
  heap_ok := fun _ => True; kmalloc_ok := demo_kmalloc_ok; kfree_ok := demo_kfree_ok }.

Definition demo_listing_mem : mem := image ([0] ++ replicate 1024 7) ∪ demo_image.
Definition demo_open_dir : fatfs_dirent := mk_dirent 100 0 4 0 0 4 0x10.
Definition demo_listing : sys (fat_st kst) :=
  mk_sys (mk_vfs [] (mk_node 0 0) (replicate 3 0 ++ [6000] ++ replicate 252 0) {[ 6000 := mk_node 8 300 ]}
    (mk_fat demo_kst demo_listing_mem (<[100 := demo_fs]> ∅) (<[300 := demo_open_dir]> ∅))) demo_log ∅ [].

Lemma demo_listing_mapped : mapped demo_listing_mem 1 1024.
Proof.
  pose proof (image_mapped ([0] ++ replicate 1024 7) 1025 eq_refl) as H. intros i Hi.
  specialize (H (1 + i) ltac:(lia)). rewrite Z.add_0_l in H. destruct H as [x Hx]. exists x.
  by apply lookup_union_Some_l.
Qed.

Lemma demo_listing_file : file_at demo_listing_mem demo_fs demo_tbl [4] [demo_dir].
Proof.
  eapply (file_at_ext demo_image _ _ _ _ _ 0 1025); [|intros b Hb|exact demo_dir_at].
  - split; [cbv zeta; cbn; lia|]. constructor; [cbn; lia|constructor].
  - unfold demo_listing_mem. apply lookup_union_r. apply not_elem_of_list_to_map_1. rewrite fst_zip by (rewrite length_seqZ; done).
    rewrite elem_of_seqZ. cbn. lia.
Qed.

Lemma print_entries_lists_witness :
  exists s', print_entries (H0 := fat_opvectors 77 [] 7 8) 77 3 3 1 demo_listing = Ok (tt, s') /\
    uart (klogs s') = chars "a" ++ [10].
Proof.
  destruct (print_entries_lists (HA := demo_alloc_kst) (HS := demo_alloc_ok) (fun _ _ _ _ => I) 77 [] 7 8 ltac:(lia) demo_fs demo_tbl [4] [demo_dir] 3 6000 300 1 3 demo_listing)
    as (s' & E & Hu).
  - split; [done|exact demo_listing_file|by exists 16|done|]. exists demo_open_dir, 0%nat. by split_and!.
  - discriminate.
  - apply byte_check_sound. vm_compute. reflexivity.
  - apply Nat.ltb_lt. vm_compute. reflexivity.
  - reflexivity.
  - reflexivity.
  - discriminate.
  - discriminate.
  - reflexivity.
  - lia.
  - split; [cbv zeta; cbn; lia|]. constructor; [cbn; lia|constructor].
  - exact demo_listing_mapped.
  - exists []. split; [exact demo_log_ok|]. vm_compute. reflexivity.
  - apply Nat.ltb_lt. vm_compute. reflexivity.
  - exists s'. split; [exact E|]. rewrite Hu. vm_compute. reflexivity.
Defined.
