(* ===== verification/Debug.v ===== *)
(** * kernel/debug.c, arch/arm/faults.c: dumps and the end after a fault

    The dumps read memory and print; an assertion or an exception prints and
    stops the machine ([Halted]).  The banked registers that the assembler saves
    are a parameter. *)

From stdpp Require Import strings.
From S2P Require Import Prelude KList KState Semaphore Env Str Bytes Printk Klog Vfs Fat Shell Commands.

(** include/arch/arm/arm.h: the modes, and the words saved at an exception *)
Definition MODE_MASK : Z := 0x1f.
Definition MODE_FIQ : Z := 0x11.
Definition MODE_IRQ : Z := 0x12.
Definition MODE_SVC : Z := 0x13.
Definition MODE_UND : Z := 0x1b.
Definition MODE_SYS : Z := 0x1f.

Record arm_fault_frame : Type := mk_frame { spsr : Z; usp : Z; ulr : Z; fr_r : list Z; fr_pc : Z }.

Record arm_mode_regs : Type := mk_regs {
  fiq_r13 : Z; fiq_r14 : Z;
  irq_r13 : Z; irq_r14 : Z;
  svc_r13 : Z; svc_r14 : Z;
  abt_r13 : Z; abt_r14 : Z;
  und_r13 : Z; und_r14 : Z;
  sys_r13 : Z; sys_r14 : Z
}.

Section Debug.
Context {D : Type} `{Machine D}.
Notation Sys := (M (sys D)).

Definition _assert (assertion file : list Z) (line : Z) (function : list Z) : Sys unit :=
  say (chars "YakOS failed assertion '%s' at %s:%u in function %s" ++ [10])
    [VStr (Some assertion); VStr (Some file); VNum line; VStr (Some function)] ;;;
  fail Halted.

Definition peek32 (a : Z) : Sys Z := on_mem (rd32 a).
Definition peek8 (a : Z) : Sys Z := on_mem (rd8 a).

(** A row of [hexdump]: four words, and the letters among the bytes. *)
Definition hexdump_row (address : Z) : Sys unit :=
  say (chars "0x%08lx: ") [VNum address] ;;;
  w0 <- peek32 address ;; w1 <- peek32 (address + 4) ;; w2 <- peek32 (address + 8) ;; w3 <- peek32 (address + 12) ;;
  say (chars "%08x %08x %08x %08x |") [VNum w0; VNum w1; VNum w2; VNum w3] ;;;
  loop 17 (fun i =>
      if i <? 16 then
        c <- peek8 (address + i) ;;
        (if isalpha c then say (chars "%c") [VNum c] else say (chars ".") []) ;;;
        ret (inl (i + 1))
      else ret (inr tt)) 0 ;;;
  say (chars "|" ++ [10]) [].

Definition hexdump8_row (address : Z) : Sys unit :=
  say (chars "0x%08lx: ") [VNum address] ;;;
  loop 17 (fun i =>
      if i <? 16 then
        c <- peek8 (address + i) ;;
        say (chars "0x%02hhx ") [VNum c] ;;;
        ret (inl (i + 1))
      else ret (inr tt)) 0 ;;;
  say [10] [].

(** The rows of both dumps, 16 bytes each. *)
Definition dump_rows (row : Z -> Sys unit) (ptr len : Z) : Sys unit :=
  loop (S (S (Z.to_nat (len / 16)))) (fun '(address, count) =>
      if count <? len then row address ;;; ret (inl (u32 (address + 16), u32 (count + 16)))
      else ret (inr tt)) (ptr, 0).

Definition hexdump (ptr len : Z) : Sys unit := dump_rows hexdump_row ptr len.
Definition hexdump8 (ptr len : Z) : Sys unit := dump_rows hexdump8_row ptr len.

(** ** arch/arm/faults.c *)

(** what [arm_save_mode_regs] stores *)
Context (regs : arm_mode_regs).

Definition reg (frame : arm_fault_frame) (i : nat) : varg := VNum (default 0 (fr_r frame !! i)).

(** One line for the registers of a mode, with a star for the mode that was
    interrupted. *)
Definition dump_mode (frame : arm_fault_frame) (mode : Z) (name : list Z) (r13 r14 : Z) : Sys unit :=
  say (chars "%c%s r13 0x%08x r14 0x%08x" ++ [10])
    [VNum (if Z.land (spsr frame) MODE_MASK =? mode then 42 else 32); VStr (Some name); VNum r13; VNum r14].

(** The stack pointer of the mode that was interrupted, 0 for the others. *)
Definition fault_stack (frame : arm_fault_frame) : Z :=
  let mode := Z.land (spsr frame) MODE_MASK in
  if mode =? MODE_FIQ then fiq_r13 regs
  else if mode =? MODE_IRQ then irq_r13 regs
  else if mode =? MODE_SVC then svc_r13 regs
  else if mode =? MODE_UND then und_r13 regs
  else if mode =? MODE_SYS then sys_r13 regs
  else 0.

Definition dump_fault_frame (frame : arm_fault_frame) : Sys unit :=
  say (chars "r0  0x%08x r1  0x%08x r2  0x%08x r3  0x%08x" ++ [10]) [reg frame 0; reg frame 1; reg frame 2; reg frame 3] ;;;
  say (chars "r4  0x%08x r5  0x%08x r6  0x%08x r7  0x%08x" ++ [10]) [reg frame 4; reg frame 5; reg frame 6; reg frame 7] ;;;
  say (chars "r8  0x%08x r9  0x%08x r10 0x%08x r11 0x%08x" ++ [10]) [reg frame 8; reg frame 9; reg frame 10; reg frame 11] ;;;
  say (chars "r12 0x%08x usp 0x%08x ulr 0x%08x pc  0x%08x" ++ [10])
    [reg frame 12; VNum (usp frame); VNum (ulr frame); VNum (fr_pc frame)] ;;;
  say (chars "spsr 0x%08x" ++ [10]) [VNum (spsr frame)] ;;;
  dump_mode frame MODE_FIQ (chars "fiq") (fiq_r13 regs) (fiq_r14 regs) ;;;
  dump_mode frame MODE_IRQ (chars "irq") (irq_r13 regs) (irq_r14 regs) ;;;
  dump_mode frame MODE_SVC (chars "svc") (svc_r13 regs) (svc_r14 regs) ;;;
  dump_mode frame MODE_UND (chars "und") (und_r13 regs) (und_r14 regs) ;;;
  dump_mode frame MODE_SYS (chars "sys") (sys_r13 regs) (sys_r14 regs) ;;;
  let stack := fault_stack frame in
  if negb (stack =? 0) then say (chars "bottom of stack at 0x%08x:" ++ [10]) [VNum stack] ;;; hexdump stack 128
  else ret tt.

Definition exception_die (frame : arm_fault_frame) (pc_off : Z) (msg : list Z) : Sys unit :=
  let frame := mk_frame (spsr frame) (usp frame) (ulr frame) (fr_r frame) (u32 (fr_pc frame + pc_off)) in
  say msg [] ;;; dump_fault_frame frame ;;; fail Halted.

Definition arm_syscall_handler (frame : arm_fault_frame) : Sys unit :=
  exception_die frame (-4) (chars "Unhandled syscall" ++ [10]).
Definition arm_undefined_handler (frame : arm_fault_frame) : Sys unit :=
  exception_die frame (-4) (chars "Undefined abort!" ++ [10]).
Definition arm_data_abort_handler (frame : arm_fault_frame) : Sys unit :=
  exception_die frame (-8) (chars "Data abort!" ++ [10]).
Definition arm_prefetch_abort_handler (frame : arm_fault_frame) : Sys unit :=
  exception_die frame (-4) (chars "Prefetch abort!" ++ [10]).
End Debug.

(** ** What the dumps print *)

(** The characters that reach the console. *)
Definition shows (fmt : list Z) (ap : list varg) : list Z :=
  match vsnprintf 256 fmt ap with Ok (l, _) => c_string l | Err _ => [] end.

Definition hexdump8_line (a : Z) (l : list Z) : list Z :=
  shows (chars "0x%08lx: ") [VNum a] ++ concat ((fun c => shows (chars "0x%02hhx ") [VNum c]) <$> l) ++ shows [10] [].

(** [k] lines of 16 bytes each, for the bytes [l] at [a]. *)
Fixpoint hexdump8_lines (k : nat) (a : Z) (l : list Z) : list Z :=
  match k with
  | O => []
  | S k => hexdump8_line a (take 16 l) ++ hexdump8_lines k (a + 16) (drop 16 l)
  end.

Section DebugSpec.
Context {D : Type} `{HM : Machine D} `{HL : !MachineLaws D}.
Implicit Types (s : sys D).

(** [s'] is [s] with [l] on the console and room for [n] messages in the log. *)
Definition after (s s' : sys D) (l : list Z) (n : Z) : Prop :=
  memory s' = memory s /\ uart (klogs s') = uart (klogs s) ++ l /\ log_room n s'.

Lemma after_refl s n : log_room n s -> after s s [] n.
Proof. intros H. split_and!; [done|by rewrite app_nil_r|done]. Qed.

Lemma after_trans s1 s2 s3 l1 l2 n1 n2 : after s1 s2 l1 n1 -> after s2 s3 l2 n2 -> after s1 s3 (l1 ++ l2) n2.
Proof. intros (A1 & A2 & A3) (B1 & B2 & B3). split_and!; [congruence|by rewrite B2, A2, app_assoc|done]. Qed.

Lemma wp_say fmt ap s n (Q : unit -> sys D -> Prop) :
  args_fit fmt false ap = true -> log_room n s -> 1 <= n ->
  (forall s', after s s' (shows fmt ap) (n - 1) -> Q tt s') -> wp (say fmt ap) Q s.
Proof.
  intros Hfit (ts & Hok & Hseq) Hn HQ. unfold say, on_log. change (2 ^ 64) with 18446744073709551616 in Hseq. wp_simpl.
  eapply wp_printk; [exact Hfit|exact Hok|change (2 ^ 64) with 18446744073709551616; lia|].
  intros out c b g' k E Hu Hs Hk. wp_simpl. apply HQ. unfold shows. rewrite E. split_and!.
  - apply (memory_printed c b g' s).
  - exact Hu.
  - eexists. split; [exact Hk|]. change (2 ^ 64) with 18446744073709551616. cbn in *. lia.
Qed.

Lemma wp_peek8 s a c (Q : Z -> sys D -> Prop) : memory s !! a = Some c -> Q c s -> wp (peek8 a) Q s.
Proof. intros Hc HQ. unfold peek8. apply wp_on_mem. eapply wp_rd8; [exact Hc|]. by rewrite put_same. Qed.

Lemma wp_hexdump8_row s a l n (Q : unit -> sys D -> Prop) :
  bytes (memory s) a l -> length l = 16%nat -> log_room n s -> 18 <= n ->
  (forall s', after s s' (hexdump8_line a l) (n - 18) -> Q tt s') -> wp (hexdump8_row a) Q s.
Proof.
  intros Hb Hl Hr Hn HQ. unfold hexdump8_row. wp_simpl.
  apply (wp_say _ _ _ n); [reflexivity|done|lia|]. intros s0 A0. wp_simpl.
  apply (wp_loop_idx _ (fun k i s' => 0 <= i <= 16 /\ k = Z.to_nat (16 - i) /\
    after s s' (shows (chars "0x%08lx: ") [VNum a] ++
      concat ((fun c => shows (chars "0x%02hhx ") [VNum c]) <$> take (Z.to_nat i) l)) (n - 1 - i))) with (n := 16%nat).
  - intros k i s1 (Hi & -> & A1). destruct (Z.ltb_spec i 16) as [Hlt|Hge].
    + destruct (lookup_lt_is_Some_2 l (Z.to_nat i) ltac:(lia)) as [c Hc]. wp_simpl.
      apply (wp_peek8 s1 _ c).
      { rewrite (proj1 A1). replace i with (Z.of_nat (Z.to_nat i)) by lia. by eapply bytes_lookup. }
      wp_simpl. apply (wp_say _ _ _ (n - 1 - i)); [reflexivity|apply A1|lia|]. intros s2 A2. wp_simpl.
      exists (Z.to_nat (16 - (i + 1))). split; [lia|]. split_and!; [lia|lia|lia|].
      replace (Z.to_nat (i + 1)) with (S (Z.to_nat i)) by lia. rewrite (take_S_r _ _ c Hc), fmap_app, concat_app, app_assoc.
      cbn [fmap list_fmap concat]. rewrite app_nil_r. replace (n - 1 - (i + 1)) with (n - 1 - i - 1) by lia.
      by eapply after_trans.
    + wp_simpl. apply (wp_say _ _ _ (n - 1 - i)); [reflexivity|apply A1|lia|]. intros s2 A2. apply HQ.
      rewrite take_ge in A1 by lia. unfold hexdump8_line. rewrite app_assoc.
      replace (n - 18) with (n - 1 - i - 1) by lia. by eapply after_trans.
  - split_and!; [lia|lia|done|]. rewrite take_0. cbn. rewrite app_nil_r, Z.sub_0_r. exact A0.
  - lia.
Qed.

(** [hexdump8] prints the bytes from [ptr] on, 16 in a line behind their address,
    and changes no memory.  It ends, and reads and prints whole lines: past
    [len], up to the next multiple of 16. *)
Theorem hexdump8_prints ptr len k l s :
  bytes (memory s) ptr l -> Z.of_nat (length l) = 16 * Z.of_nat k -> Z.of_nat k = (len + 15) / 16 -> 0 <= len ->
  0 <= ptr -> ptr + 16 * Z.of_nat k < 2 ^ 32 -> log_room (18 * Z.of_nat k) s ->
  wp (hexdump8 ptr len) (fun _ s' => memory s' = memory s /\
    uart (klogs s') = uart (klogs s) ++ hexdump8_lines k ptr l) s.
Proof.
  intros Hb Hl Hk Hlen Hp Htop Hr. pose proof (Z.div_mod (len + 15) 16 ltac:(lia)). pose proof (Z.mod_pos_bound (len + 15) 16 ltac:(lia)).
  pose proof (Z.div_mod len 16 ltac:(lia)). pose proof (Z.mod_pos_bound len 16 ltac:(lia)). change (2 ^ 32) with 4294967296 in Htop.
  unfold hexdump8, dump_rows.
  apply (wp_loop_idx _ (fun j '(a, count) s' => exists i l1 l2, (i + j = k)%nat /\ a = ptr + 16 * Z.of_nat i /\ count = 16 * Z.of_nat i /\
    bytes (memory s') a l2 /\ Z.of_nat (length l2) = 16 * Z.of_nat j /\
    hexdump8_lines k ptr l = l1 ++ hexdump8_lines j a l2 /\ after s s' l1 (18 * Z.of_nat j))) with (n := k).
  - intros j [a count] s1 (i & l1 & l2 & Hij & -> & -> & B & L & E & A). cbv beta iota.
    destruct (Z.ltb_spec (16 * Z.of_nat i) len) as [Hlt|Hge].
    + destruct j as [|j]; [lia|]. rewrite <- (take_drop 16 l2) in B. apply bytes_app in B as [B1 B2].
      assert (L1 : length (take 16 l2) = 16%nat) by (rewrite length_take; lia). rewrite L1 in B2.
      wp_simpl. apply (wp_hexdump8_row s1 _ (take 16 l2) (18 * Z.of_nat (S j))); [done|done|apply A|lia|]. intros s2 A2. wp_simpl.
      exists j. split; [lia|]. exists (S i), (l1 ++ hexdump8_line (ptr + 16 * Z.of_nat i) (take 16 l2)), (drop 16 l2).
      rewrite !u32_small by lia. split_and!; [lia|lia|lia| | | |].
      * rewrite (proj1 A2). exact B2.
      * rewrite length_drop. lia.
      * rewrite E, <- app_assoc. done.
      * replace (18 * Z.of_nat j) with (18 * Z.of_nat (S j) - 18) by lia. by eapply after_trans.
    + destruct j as [|j]; [|lia]. wp_simpl. rewrite E. cbn. rewrite app_nil_r. by destruct A as (? & ? & _).
  - exists O, [], l. cbn [Z.of_nat]. rewrite Z.mul_0_r, Z.add_0_r. split_and!; [done|done|done|done|done|done|by apply after_refl].
  - lia.
Qed.
End DebugSpec.

Definition demo_bytes : list Z := [72; 105; 0; 255] ++ replicate 12 7.
Definition demo_dump : sys (Fat.fat_st kst) := demo_sys (Fat.mk_fat demo_kst (image demo_bytes) ∅ ∅) [].

Lemma hexdump8_prints_witness :
  wp (hexdump8 0 3) (fun _ s' => uart (klogs s') =
    chars "0x00000000: 0x48 0x69 0x00 0xff 0x07 0x07 0x07 0x07 0x07 0x07 0x07 0x07 0x07 0x07 0x07 0x07 " ++ [10]) demo_dump.
Proof.
  eapply wp_mono; [apply (hexdump8_prints 0 3 1 demo_bytes demo_dump)|].
  - exact (image_bytes demo_bytes).
  - done.
  - done.
  - lia.
  - lia.
  - done.
  - apply demo_log_room. lia.
  - intros u s' (_ & ->). vm_compute. reflexivity.
Defined.
