(* ===== verification/Boot.v ===== *)
(** * init/main.c, arch/arm/arch.c: from the first instructions to the idle loop

    [machine] puts the components together; the state of the kernel that they
    share is the one of [m_sys], and the others work on it.  The loop of [kmain]
    does not end: [kmain] has the number of its turns as an argument. *)

From stdpp Require Import strings.
From S2P Require Import Prelude KList KState Sched Timer Semaphore Env PageAlloc Slob Alloc Task Workqueue Str Bytes Printk Klog Vfs Fat Mmu Board Driver Shell Commands.

Definition HEAP_SIZE : Z := 0x100000.

Record machine : Type := mk_machine {
  m_sys : sys (fat_st kst);
  m_mmu : mmu_st kst;
  m_board : board;
  m_dev : dst
}.
Definition set_sys (v : sys (fat_st kst)) (s : machine) : machine := mk_machine v (m_mmu s) (m_board s) (m_dev s).
Definition set_mmu (v : mmu_st kst) (s : machine) : machine := mk_machine (m_sys s) v (m_board s) (m_dev s).
Definition set_board (v : board) (s : machine) : machine := mk_machine (m_sys s) (m_mmu s) v (m_dev s).
Definition set_dev (v : dst) (s : machine) : machine := mk_machine (m_sys s) (m_mmu s) (m_board s) v.

Definition kernel (s : machine) : kst := d_kern (drv (fsys (m_sys s))).
Definition put_kernel (k : kst) (s : machine) : machine :=
  set_sys (set_fsys (Vfs.set_drv (with_kern k (drv (fsys (m_sys s)))) (fsys (m_sys s))) (m_sys s)) s.

Definition on_sys {A} (m : M (sys (fat_st kst)) A) : M machine A := zoom m_sys set_sys m.
Definition on_kernel {A} (m : M kst A) : M machine A := zoom kernel put_kernel m.
Definition on_mmu {A} (m : M (mmu_st kst) A) : M machine A :=
  zoom (fun s => Mmu.set_heap (kernel s) (m_mmu s)) (fun t s => set_mmu t (put_kernel (Mmu.heap t) s)) m.
Definition on_board {A} (m : M board A) : M machine A :=
  zoom (fun s => Board.set_kern (kernel s) (m_board s)) (fun t s => set_board t (put_kernel (Board.kern t) s)) m.
Definition on_dev {A} (m : M dst A) : M machine A :=
  zoom (fun s => Driver.set_kern (kernel s) (m_dev s)) (fun t s => set_dev t (put_kernel (Driver.kern t) s)) m.

Section Boot.
Context (E : env) {AL : Allocator kst}.
(** the [__heap] of the linker script, [sem] of init/main.c, and the addresses of functions *)
Context (heap_start sem init_shell platform_uart_addr platform_tick_addr : Z).
(** the operations behind [fat_fs], and the workqueues' turns, thread function and locals *)
Context (fatfs_dir_vops : Z) (wq_fuel : nat) (DEBUG : bool) (worker_code : Z) (startup_of : Z -> Z).
(** the processor's wait for an interrupt *)
Context (cpu_do_idle : M machine Z).

(** ** arch.c *)

Definition exception_init : M machine unit :=
  on_sys (on_mem (memcpy EXCEPTION_BASE (PAGE_OFFSET + TEXT_OFFSET) 64)) ;;; ret tt.

Definition show_arch_info : M machine unit :=
  on_sys (say ([10] ++ chars "YakOS version 0.0.1" ++ [10]) [] ;;; say (chars "CPU: ARM926EJ-S." ++ [10]) []).

Definition arch_early_init : M machine unit :=
  on_mmu arm_mmu_init ;;;
  on_kernel (kmalloc_init E heap_start HEAP_SIZE) ;;;
  on_mmu arm_mmu_remap_evt ;;;
  exception_init ;;;
  show_arch_info.

(** ** main.c *)

Definition show_logo : M machine unit :=
  on_sys (say [10] [] ;;;
    say (chars "__   __    _     ___  ____  " ++ [10]) [] ;;;
    say (chars "\ \ / /_ _| | __/ _ \/ ___| " ++ [10]) [] ;;;
    say (chars " \ V / _` | |/ / | | \___ \ " ++ [10]) [] ;;;
    say (chars "  | | (_| |   <| |_| |___) |" ++ [10]) [] ;;;
    say (chars "  |_|\__,_|_|\_\\___/|____/ " ++ [10]) [] ;;;
    say [10] []).

(** The initialisations, up to the first task of its own. *)
Definition kmain_init : M machine unit :=
  arch_early_init ;;;
  show_logo ;;;
  on_board (platform_init platform_uart_addr platform_tick_addr) ;;;
  on_kernel (timer_init (timer_list E)) ;;;
  on_dev (buses_init E) ;;;
  on_kernel (task_init E) ;;;
  on_kernel (task_create_init E) ;;;
  on_kernel (init_workqueues E wq_fuel DEBUG worker_code startup_of) ;;;
  on_sys (on_vfs (register_filesystem (fat_fs fatfs_dir_vops))) ;;;
  ret tt.

Definition kmain_shell (task_shell : Z) : M machine unit :=
  r <- on_kernel (task_create E task_shell init_shell 0) ;;
  (if negb (r =? 0) then on_sys (say (chars "Create init shell task failed" ++ [10]) []) else ret tt) ;;;
  on_kernel (sema_init sem 1) ;;;
  on_kernel arch_enable_ints.

(** arch/arm/boards/Hi3560/platform.c *)
Definition arch_idle : M machine unit := cpu_do_idle ;;; ret tt.

(** A turn of [while(1)]. *)
Definition kmain_turn : M machine unit :=
  on_kernel enter_critical_section ;;;
  arch_idle ;;;
  on_kernel (task_schedule E) ;;;
  on_kernel exit_critical_section.

Fixpoint kmain_turns (n : nat) : M machine unit :=
  match n with O => ret tt | S n => kmain_turn ;;; kmain_turns n end.

Definition kmain (turns : nat) : M machine unit :=
  kmain_init ;;;
  task_shell <- on_kernel (task_alloc E (Some (chars "shell")) 0x2000 5) ;;
  if NULL =? task_shell then ret tt else
  kmain_shell task_shell ;;;
  kmain_turns turns.
End Boot.

(** ** The idle loop hands the processor over *)

Lemma kernel_put k s : kernel (put_kernel k s) = k.
Proof. apply (kern_get (D := fat_st kst)). Qed.

Lemma wp_on_kernel {A} (m : M kst A) s (Q : A -> machine -> Prop) :
  wp m (fun a k => Q a (put_kernel k s)) (kernel s) -> wp (on_kernel m) Q s.
Proof. intros H. unfold on_kernel. by rewrite wp_zoom. Qed.

Lemma wp_enter_outer s (Q : unit -> kst -> Prop) :
  critical_section_count s = 0 -> Q tt (crit_set 1 false s) -> wp enter_critical_section Q s.
Proof.
  intros Hc HQ. unfold enter_critical_section. wp_simpl. rewrite Hc. unfold arch_disable_ints. wp_simpl.
  cbn. rewrite Hc. exact HQ.
Qed.

Lemma wp_exit_outer s (Q : unit -> kst -> Prop) :
  critical_section_count s = 1 -> Q tt (crit_set 0 true s) -> wp exit_critical_section Q s.
Proof.
  intros Hc HQ. unfold exit_critical_section. wp_simpl. cbn. rewrite Hc. cbn.
  unfold arch_enable_ints. wp_simpl. exact HQ.
Qed.

(** The task that [task_create] makes of [t]. *)
Definition created (stack entry args : Z) (t : task) : task :=
  mk_task (u32 (Z.land (u32 (stack + t_stack_size t)) (u32 (Z.lnot (8 - 1))) - 36)) (t_priority t) CREATING stack
    (t_stack_size t) (t_pgd t) (t_pid t) entry args (t_ret t) (t_name t).

Lemma sched_inv_links a f s h : sched_inv a f s -> lists h f -> sched_inv a f (set_links h s).
Proof. intros [A1 A2 A3 A4 A5 A6] Hl. by split. Qed.

Lemma sched_inv_ints a f s b : sched_inv a f s -> sched_inv a f (set_ints_on b s).
Proof. intros H. by eapply sched_inv_ext. Qed.

Section Create.
Context (E : env) {AL : Allocator kst}.
Notation qh i := (queue_head (all_task E) i).

(** [task_create], when there is memory for the stack: the task is the last of
    the queue of its priority. *)
Lemma wp_task_create f s s1 t tk stack entry args q (Q : Z -> kst -> Prop) :
  tasks s !! t = Some tk -> t_stack_size tk <> 0 ->
  kmalloc (u32 (t_stack_size tk)) s = Ok (stack, s1) -> stack <> NULL ->
  tasks s1 !! t = Some tk -> sched_inv (all_task E) f s1 -> 0 <= t_priority tk < 8 ->
  f !! qh (t_priority tk) = Some q -> loose (links s1) f t ->
  (forall h' b', let f' := <[qh (t_priority tk) := q ++ [t]]> f in
     let s' := set_task_bitmap b' (set_links h' (set_tasks (<[t := created stack entry args tk]> (tasks s1)) s1)) in
     sched_inv (all_task E) f' s' -> (forall x, loose (links s1) f x -> x <> t -> loose h' f' x) -> Q 0 s') ->
  wp (task_create E t entry args) Q s.
Proof.
  intros Ht Hsz Hk Hstack Ht1 Hinv Hp Hq Hl HQ. unfold task_create. wp_simpl.
  eapply wp_rd_task; [exact Ht|]. destruct (Z.eqb_spec 0 (t_stack_size tk)); [congruence|]. wp_simpl.
  eapply wp_rd_task; [exact Ht|]. wp_simpl. eapply wp_intro; [exact Hk|].
  destruct (Z.eqb_spec stack NULL); [done|]. wp_simpl. eapply wp_wr_task; [exact Ht1|].
  unfold arch_task_initialize. wp_simpl. eapply wp_rd_task; [cbn; apply lookup_insert_eq|]. wp_simpl.
  eapply wp_wr_task; [cbn; apply lookup_insert_eq|]. cbn [tasks set_tasks]. rewrite insert_insert_eq.
  set (s2 := set_tasks _ (set_tasks _ s1)).
  change s2 with (set_tasks (<[t := created stack entry args tk]> (tasks s1)) s1) in *. clear s2.
  assert (Hinv2 : sched_inv (all_task E) f (set_tasks (<[t := created stack entry args tk]> (tasks s1)) s1))
    by (by eapply sched_inv_task).
  wp_simpl. apply wp_on_links. apply wp_INIT_LIST_HEAD; [apply Hl|]. intros h1 _ Hs1. wp_simpl.
  set (s2 := set_links h1 _).
  assert (Hinv3 : sched_inv (all_task E) f s2).
  { apply (sched_inv_links _ _ _ h1 Hinv2). eapply lists_same_out; [apply Hinv|exact Hs1|set_solver]. }
  unfold enqueue_task. eapply (wp_enqueue _ f s2 Hinv3 t (created stack entry args tk) q);
    [cbn; apply lookup_insert_eq|exact Hp|exact Hq|by eapply loose_same_out|].
  intros h' b' s' Hinv' Hs'. wp_simpl. apply HQ; [exact Hinv'|].
  intros x Hx Hxt. assert (Hin : x ∉ q) by (intros ?; apply (proj2 Hx _ _ Hq); set_solver).
  eapply loose_other; [by eapply loose_same_out|exact Hs'| |set_solver].
  intros ->. apply (proj2 Hx _ _ Hq). set_solver.
Qed.
End Create.

(** A new empty ring beside the queues. *)
Lemma sched_inv_ring a f s hd h :
  sched_inv a f s -> loose (links s) f hd -> lists h (<[hd := []]> f) ->
  sched_inv a (<[hd := []]> f) (set_links h s).
Proof.
  intros [A1 A2 A3 A4 A5 A6] Hl Hh.
  assert (Hne : forall i, 0 <= i < 8 -> hd <> queue_head a i).
  { intros i Hi ->. destruct (A2 i Hi) as [q Hq]. apply (proj2 Hl _ _ Hq). set_solver. }
  split; cbn; try done.
  - intros i Hi. rewrite lookup_insert_ne by (by apply Hne). by apply A2.
  - intros i q p Hi. rewrite lookup_insert_ne by (by apply Hne). by apply A3.
  - intros i q Hi. rewrite lookup_insert_ne by (by apply Hne). by apply A6.
Qed.


(** The choice does not see the critical sections. *)
Lemma first_ready_crit s c b l : first_ready (crit_set c b s) l = first_ready s l.
Proof. induction l as [|x l IH]; [done|]. cbn [first_ready]. rewrite IH. done. Qed.

Lemma candidate_crit a f s c b ct i : candidate a f (crit_set c b s) ct i = candidate a f s ct i.
Proof. unfold candidate. destruct (f !! _); [|done]. by rewrite !first_ready_crit. Qed.

Lemma pick_spec_crit a f s c b ct : pick_spec a f (crit_set c b s) ct = pick_spec a f s ct.
Proof.
  unfold pick_spec. generalize 8%nat, 0. intros n. induction n as [|n IH]; intros i; [done|].
  cbn [pick_from]. by rewrite candidate_crit, IH.
Qed.

(** The first task that can run in the queues of [n] priorities from [i] on. *)
Fixpoint first_runnable (a : Z) (f : gmap Z (list Z)) (s : kst) (n : nat) (i : Z) : option Z :=
  match n with
  | O => None
  | S n =>
      match first_ready s (default [] (f !! queue_head a i)) with
      | Some p => Some p
      | None => first_runnable a f s n (i + 1)
      end
  end.

(** There is none exactly when the tasks of these queues are all blocked. *)
Lemma first_runnable_none a f s n i :
  first_runnable a f s n i = None <->
  forall j q p, i <= j < i + Z.of_nat n -> f !! queue_head a j = Some q -> p ∈ q -> not_blocked s p = false.
Proof.
  revert i. induction n as [|n IH]; intros i; cbn [first_runnable]; [split; [lia|done]|].
  destruct (first_ready s (default [] (f !! queue_head a i))) as [x|] eqn:Ex.
  - split; [done|]. intros H. apply first_ready_elem in Ex as [Hin Hx].
    destruct (f !! queue_head a i) as [q|] eqn:Hq; [|by apply elem_of_nil in Hin].
    rewrite (H i q x) in Hx by (done || lia). done.
  - rewrite IH. split; intros H j q p Hj Hq Hp; [|by apply (H j q p); [lia|..]].
    destruct (decide (j = i)) as [->|]; [|by apply (H j q p); [lia|..]].
    rewrite Hq in Ex. by apply (proj1 (first_ready_none s q) Ex).
Qed.

(** A task [t] that is put at the end of the queue of priority [pr], above that
    of the running task, is picked after those that could run before it. *)
Lemma pick_after_enqueue a f f' s s' ct pr q t n m i :
  t_priority ct > pr -> pr < 8 -> f !! queue_head a pr = Some q -> f' !! queue_head a pr = Some (q ++ [t]) ->
  (forall j, 0 <= j < pr -> f' !! queue_head a j = f !! queue_head a j) ->
  (forall p, p <> t -> not_blocked s' p = not_blocked s p) -> not_blocked s' t = true ->
  (forall j l, f !! queue_head a j = Some l -> t ∉ l) ->
  0 <= i -> i + Z.of_nat n = pr ->
  exists j, i <= j <= pr /\ pick_from a f' s' ct (S n + m) i = Some (j, default t (first_runnable a f s (S n) i)).
Proof.
  intros Hct Hpr Hq Hq' Hsame Hnb Ht Hnin. revert i.
  assert (Hfr : forall l, t ∉ l -> first_ready s' l = first_ready s l).
  { induction l as [|x l IH]; intros Hl; [done|]. apply not_elem_of_cons in Hl as [Hx Hl].
    cbn [first_ready]. by rewrite Hnb, IH. }
  induction n as [|n IH]; intros i Hi Hn; cbn [Nat.add pick_from first_runnable].
  - replace i with pr by lia. exists pr. split; [lia|]. unfold candidate at 1.
    rewrite Hq', Hq, bool_decide_false by (by destruct q). destruct (Z.eqb_spec pr (t_priority ct)); [lia|].
    change (default [] (Some q)) with q. cbn [negb]. rewrite first_ready_app, Hfr by (by eapply Hnin). destruct (first_ready s q); [done|]. cbn. by rewrite Ht.
  - assert (Hc : candidate a f' s' ct i = first_ready s (default [] (f !! queue_head a i))).
    { unfold candidate. rewrite Hsame by lia. destruct (f !! queue_head a i) as [l|] eqn:Hl; [|reflexivity].
      change (default [] (Some l)) with l. case_bool_decide; [by subst|]. destruct (Z.eqb_spec i (t_priority ct)); [lia|]. cbn [negb].
      apply Hfr. by eapply Hnin. }
    rewrite Hc. destruct (first_ready s (default [] (f !! queue_head a i))) as [x|]; [exists i; split; [lia|done]|].
    destruct (IH (i + 1)) as (j & Hj & E); [lia|lia|]. exists j. split; [lia|exact E].
Qed.

Section Turn.
Context (E : env) (cpu_do_idle : M machine Z).
Context (Hresume : resume E = (fun _ _ => ret tt)).
(** Waiting for an interrupt changes nothing. *)
Context (Hidle : forall s, exists r, cpu_do_idle s = Ok (r, s)).

Lemma wp_kmain_turn f s ct i p t :
  let k := kernel s in
  sched_inv (all_task E) f k -> cur_ok (all_task E) f k ct ->
  pick_spec (all_task E) f k ct = Some (i, p) -> p <> current_task k ->
  tasks k !! p = Some t -> t_priority t = i -> critical_section_count k = 0 ->
  wp (kmain_turn E cpu_do_idle) (fun _ s' => let k' := kernel s' in
    sched_inv (all_task E) f k' /\ current_task k' = p /\ tasks k' = <[p := with_state RUNNING t]> (tasks k) /\
    switches k' = (current_task k, p) :: switches k /\ sems k' = sems k /\
    critical_section_count k' = 0 /\ ints_on k' = true) s.
Proof.
  intros k Hinv Hcur Hpick Hne Ht Hi Hc. unfold kmain_turn. wp_simpl.
  apply wp_on_kernel, wp_enter_outer; [exact Hc|]. fold k. wp_simpl.
  unfold arch_idle. wp_simpl.
  destruct (Hidle (put_kernel (crit_set 1 false k) s)) as [r Hr]. eapply wp_intro; [exact Hr|]. wp_simpl.
  apply wp_on_kernel. rewrite kernel_put.
  eapply wp_task_schedule; [by apply sched_inv_crit|exact Hcur|].
  rewrite pick_spec_crit, Hpick.
  intros t0 Ht0 _. change (tasks k !! p = Some t0) in Ht0. assert (t0 = t) as -> by congruence.
  change (current_task (crit_set 1 false k)) with (current_task k).
  destruct (Z.eqb_spec p (current_task k)); [done|]. rewrite Hresume. wp_simpl.
  set (k1 := set_switches _ _).
  assert (Hinv1 : sched_inv (all_task E) f k1).
  { eapply sched_inv_ext; [by apply (sched_inv_switch _ _ (crit_set 1 false k) ct i p t); [apply sched_inv_crit|]|done..]. }
  apply wp_on_kernel, wp_exit_outer; rewrite kernel_put.
  { unfold k1. cbn. by destruct (departed ct && (i =? t_priority ct)). }
  rewrite kernel_put. cbv zeta.
  split; [by apply sched_inv_crit|]. unfold k1. cbn. destruct (departed ct && (i =? t_priority ct)); done.
Qed.
End Turn.

Section Starts.
Context (E : env) {AL : Allocator kst} (sem init_shell : Z) (cpu_do_idle : M machine Z).
Notation qh i := (queue_head (all_task E) i).

Lemma wp_sema_init f s v (Q : unit -> kst -> Prop) :
  sched_inv (all_task E) f s -> loose (links s) f (wait_list sem) ->
  (forall h', sched_inv (all_task E) (<[wait_list sem := []]> f) (set_links h' (set_sems (<[sem := u32 v]> (sems s)) s)) ->
     Q tt (set_links h' (set_sems (<[sem := u32 v]> (sems s)) s))) ->
  wp (sema_init sem v) Q s.
Proof.
  intros Hinv Hl HQ. unfold sema_init. wp_simpl. apply wp_on_links.
  eapply fam_INIT_LIST_HEAD; [apply Hinv|exact Hl|]. intros h' Hh' _. apply HQ.
  apply sched_inv_ring; [by eapply sched_inv_ext|exact Hl|exact Hh'].
Qed.

(** [C28] [kmain] after it has the task of the shell, and the first turn of its loop,
    in a state that keeps the scheduler's invariant, where the idle task runs at
    a lower priority than the shell's and there is memory for the stack: the
    shell becomes the last of its queue, its frame of nine words is at the top
    of its stack, its function is [init_shell]; the semaphore has its token; the
    idle task hands the processor to the first task that could run at the
    shell's priority or above, and to the shell when there is none; the
    interrupts are on.  Nothing is printed. *)
Theorem kmain_starts_shell f s k1 ct t tk stack q :
  let k := kernel s in
  resume E = (fun _ _ => ret tt) -> (forall m, exists r, cpu_do_idle m = Ok (r, m)) ->
  tasks k !! t = Some tk -> t_priority tk = 5 -> t_stack_size tk = 0x2000 ->
  kmalloc 0x2000 k = Ok (stack, k1) -> stack <> NULL -> tasks k1 !! t = Some tk ->
  sched_inv (all_task E) f k1 -> cur_ok (all_task E) f k1 ct -> 5 < t_priority ct -> t <> current_task k1 ->
  f !! qh 5 = Some q -> loose (links k1) f t -> loose (links k1) f (wait_list sem) -> wait_list sem <> t ->
  critical_section_count k1 = 0 ->
  exists s' tp, (kmain_shell E sem init_shell t ;;; kmain_turn E cpu_do_idle) s = Ok (tt, s') /\
    let k' := kernel s' in
    let p := default t (first_runnable (all_task E) f k1 6 0) in
    sched_inv (all_task E) (<[wait_list sem := []]> (<[qh 5 := q ++ [t]]> f)) k' /\
    current_task k' = p /\ <[t := created stack init_shell 0 tk]> (tasks k1) !! p = Some tp /\
    tasks k' = <[p := with_state RUNNING tp]> (<[t := created stack init_shell 0 tk]> (tasks k1)) /\
    switches k' = (current_task k1, p) :: switches k1 /\ sems k' !! sem = Some 1 /\
    critical_section_count k' = 0 /\ ints_on k' = true.
Proof.
  intros k Hres Hidle Ht Hp Hsz Hk Hst Ht1 Hinv Hcur Hct Hne Hq Hl Hlw Hwt Hc.
  set (f1 := <[qh 5 := q ++ [t]]> f). set (f2 := <[wait_list sem := []]> f1).
  set (ts := <[t := created stack init_shell 0 tk]> (tasks k1)). set (p := default t _).
  enough (Hwp : wp (kmain_shell E sem init_shell t ;;; kmain_turn E cpu_do_idle) (fun _ s' => let k' := kernel s' in exists tp,
    sched_inv (all_task E) f2 k' /\ current_task k' = p /\ ts !! p = Some tp /\
    tasks k' = <[p := with_state RUNNING tp]> ts /\
    switches k' = (current_task k1, p) :: switches k1 /\ sems k' !! sem = Some 1 /\
    critical_section_count k' = 0 /\ ints_on k' = true) s).
  { apply wp_elim in Hwp as ([] & s' & Hrun & tp & H). by exists s', tp. }
  unfold kmain_shell. wp_simpl. apply wp_on_kernel. fold k.
  eapply (wp_task_create E f k k1 t tk stack init_shell 0 q); try done; rewrite ?Hp, ?Hsz; try done.
  intros h' b'. fold f1. intros f' s2 Hinv2 Hlo. change f' with f1 in *. clear f'.
  cbn [negb Z.eqb]. wp_simpl. apply wp_on_kernel. rewrite kernel_put.
  apply (wp_sema_init f1 s2 1); [done|by apply Hlo|]. intros h2 Hinv3. fold f2 in Hinv3. wp_simpl.
  apply wp_on_kernel. rewrite kernel_put. unfold arch_enable_ints. wp_simpl.
  set (k3 := set_ints_on true _). set (s3 := put_kernel k3 _).
  assert (Ek : kernel s3 = k3) by apply kernel_put.
  assert (Hsub : forall i, 0 <= i < 8 -> f2 !! qh i = f1 !! qh i).
  { intros i Hi. unfold f2. apply lookup_insert_ne. intros Ew. destruct (si_queue _ _ _ Hinv2 i Hi) as [l Hf].
    apply (proj2 (Hlo _ Hlw Hwt) _ _ Hf). rewrite Ew. set_solver. }
  assert (Hold : forall i, 0 <= i < 8 -> i <> 5 -> f2 !! qh i = f !! qh i).
  { intros i Hi Hi5. rewrite Hsub by done. apply lookup_insert_ne. unfold queue_head. lia. }
  assert (Hnew : f2 !! qh 5 = Some (q ++ [t])) by (rewrite Hsub by lia; apply lookup_insert_eq).
  assert (Hcur3 : cur_ok (all_task E) f2 k3 ct).
  { destruct Hcur as (Hcur & Hcp & qc & Hqc & Hin). split; [cbn; by rewrite lookup_insert_ne|]. split; [done|].
    exists qc. rewrite Hold by lia. split; [done|exact Hin]. }
  destruct (pick_after_enqueue (all_task E) f f2 k1 k3 ct 5 q t 5 2 0) as (j & Hj & Hpick); try done; try lia.
  { intros j Hj. apply Hold; lia. }
  { intros x Hx. unfold not_blocked. cbn. by rewrite lookup_insert_ne. }
  { unfold not_blocked. cbn. by rewrite lookup_insert_eq. }
  { intros j l Hjl Hin. apply (proj2 Hl _ _ Hjl). set_solver. }
  fold p in Hpick. change (pick_spec (all_task E) f2 k3 ct = Some (j, p)) in Hpick.
  assert (Hcand : candidate (all_task E) f2 k3 ct j = Some p) by (by apply pick_from_some in Hpick as (_ & ? & _)).
  apply (candidate_elem _ _ _ (sched_inv_ints _ _ _ true Hinv3) ct Hcur3) in Hcand as (qj & Hqj & Hpj); [|lia].
  destruct (si_task _ _ _ Hinv3 j qj p ltac:(lia) Hqj Hpj) as (tp & Htp & Hprio).
  eapply wp_mono; [eapply (wp_kmain_turn E cpu_do_idle Hres Hidle f2 s3 ct j p tp); rewrite ?Ek; try done|].
  - by apply sched_inv_ints.
  - intros E0. rewrite E0 in Htp. destruct Hcur3 as (Hcur3 & _). change (tasks k3 !! current_task k3 = Some tp) in Htp.
    rewrite Hcur3 in Htp. injection Htp as ->. lia.
  - intros u s' (A1 & A2 & A3 & A4 & A5 & A6 & A7). rewrite Ek in *. exists tp. split_and!; try done.
    rewrite A5. cbn. apply lookup_insert_eq.
Qed.
End Starts.

(** ** An example: the idle task 2200, a blocked task 2100 and the shell's task 2300 *)
#[local] Instance demo_alloc : Allocator kst := { kmalloc := fun _ => ret 9000; kfree := fun _ => ret tt }.

Definition demo_shell_task : task := mk_task 0 5 RUNNING 0 0x2000 0 1 0 0 0 (chars "shell").
Definition demo_idle : kst :=
  let nodes := demo_nodes ([2100; 2200; 2300; wait_list 3000] ++ (queue_head 1000 <$> seqZ 0 8)) in
  run (sched_fifo_init 1000 ;;; sched_fifo_enqueue_task 1000 2100 ;;; sched_fifo_enqueue_task 1000 2200)
    (mk_kst (mk_lheap nodes nodes)
      (list_to_map [(2100, demo_task 5 BLOCKED); (2200, demo_task 7 RUNNING); (2300, demo_shell_task)])
      [0] 2200 NULL 0 false ∅ 0 true ∅ ∅ ∅ ∅ 2 [] no_mm ∅ ∅ 0).
Definition demo_idle_queues : list (Z * list Z) :=
  (fun i => (queue_head 1000 i, if i =? 5 then [2100] else if i =? 7 then [2200] else [])) <$> seqZ 0 8.
Definition demo_machine : machine :=
  mk_machine (demo_sys (Fat.mk_fat demo_idle ∅ ∅ ∅) []) (mk_mmu ∅ demo_idle 0 0 0 ∅)
    (mk_board demo_idle [] [] [] 0 0 (mk_serial (mk_fifo [] 0 0) (mk_fifo [] 0 0) true))
    (mk_dst demo_idle ∅ ∅ ∅ ∅ NULL).

(** Who is in a queue of the example. *)
Lemma demo_idle_lookup hd l : (list_to_map demo_idle_queues : gmap Z (list Z)) !! hd = Some l ->
  exists i, 0 <= i < 8 /\ hd = queue_head 1000 i /\ l = if i =? 5 then [2100] else if i =? 7 then [2200] else [].
Proof.
  intros Hl%elem_of_list_to_map_2. apply list_elem_of_fmap in Hl as (i & [= -> ->] & Hi%elem_of_seqZ).
  exists i. split; [lia|done].
Qed.
Lemma demo_idle_loose p : p ∈ [2300; wait_list 3000] -> loose (links demo_idle) (list_to_map demo_idle_queues) p.
Proof.
  intros Hp. apply elem_of_cons in Hp as [->|Hp%list_elem_of_singleton]; [|subst p]. all: split; [split; eexists; vm_compute; reflexivity|].
  all: intros hd l (i & Hi & -> & ->)%demo_idle_lookup; unfold queue_head, wait_list.
  all: destruct (i =? 5); [|destruct (i =? 7)]; set_solver by lia.
Qed.

Lemma kmain_starts_shell_witness :
  exists s', (kmain_shell demo_env 3000 0xc0010000 2300 ;;; kmain_turn demo_env (ret 0)) demo_machine = Ok (tt, s') /\
    current_task (kernel s') = 2300 /\ switches (kernel s') = [(2200, 2300)] /\ ints_on (kernel s') = true.
Proof.
  destruct (kmain_starts_shell demo_env 3000 0xc0010000 (ret 0) (list_to_map demo_idle_queues) demo_machine demo_idle
    (demo_task 7 RUNNING) 2300 demo_shell_task 9000 [2100]) as (s' & tp & Hrun & _ & E1 & _ & _ & E2 & _ & _ & E3).
  - reflexivity.
  - intros m. by exists 0.
  - vm_compute. reflexivity.
  - reflexivity.
  - reflexivity.
  - reflexivity.
  - discriminate.
  - vm_compute. reflexivity.
  - apply sched_inv_b_sound. vm_compute. reflexivity.
  - split; [vm_compute; reflexivity|]. split; [cbn; lia|].
    exists [2200]. split; [vm_compute; reflexivity|]. change (2200 ∈ [2200]). set_solver.
  - cbn. lia.
  - vm_compute. congruence.
  - vm_compute. reflexivity.
  - apply demo_idle_loose. set_solver.
  - apply demo_idle_loose. set_solver.
  - vm_compute. congruence.
  - vm_compute. reflexivity.
  - assert (Ep : default 2300 (first_runnable 1000 (list_to_map demo_idle_queues) demo_idle 6 0) = 2300) by (vm_compute; reflexivity).
    exists s'. split_and!; [exact Hrun|by rewrite <- Ep|rewrite E2; do 2 f_equal; exact Ep|exact E3].
Defined.
