(* ===== verification/Kexpr.v ===== *)
(** * scripts/kconfig/expr.c: the dependency expressions of the configuration

    Expressions are trees over the configuration symbols; the routines that change
    an expression in place are functions from the tree to the new tree.  The
    counter [trans_count] is the state.  [value tri_not] gives an expression its
    value, with the program's negation; [≃] relates expressions that have the
    same value whatever the symbols are under [neg3], the negation for which the
    rewriting rules hold one by one. *)

From stdpp Require Import strings.
From S2P Require Import Prelude Str Bytes Printk.

(** ** Data *)

(** A [struct symbol *]: one of the constants of symbol.c, or an address. *)
Inductive symbol : Type :=
| symbol_yes | symbol_mod | symbol_metapack | symbol_no | symbol_empty
| sym_at (p : Z).
#[export] Instance symbol_eq_dec : EqDecision symbol.
Proof. solve_decision. Defined.

Inductive symbol_type : Type := S_UNKNOWN | S_BOOLEAN | S_TRISTATE | S_INT | S_HEX | S_STRING | S_OTHER.
#[export] Instance symbol_type_eq_dec : EqDecision symbol_type.
Proof. solve_decision. Defined.

Definition SYMBOL_YES : Z := 0x0001.
Definition SYMBOL_MOD : Z := 0x0002.
Definition SYMBOL_NO : Z := 0x0004.
Definition SYMBOL_CONST : Z := 0x000f.
Definition SYMBOL_METAPACK : Z := 0x0008.
Definition SYMBOL_VALID : Z := 0x0080.

(** [enum tristate], in its order *)
Definition tri_no : Z := 0.
Definition tri_mod : Z := 1.
Definition tri_metapack : Z := 2.
Definition tri_yes : Z := 3.

Inductive expr_type : Type := E_NONE | E_OR | E_AND | E_NOT | E_EQUAL | E_UNEQUAL | E_CHOICE | E_SYMBOL | E_RANGE.
#[export] Instance expr_type_eq_dec : EqDecision expr_type.
Proof. solve_decision. Defined.

(** [struct expr]: the operands of a type are of the member of [union expr_data]
    that the code uses for it.  No expression is made with the type [E_NONE]. *)
Inductive expr : Type :=
| Sym (sym : symbol)
| Not (e : expr)
| Equal (s1 s2 : symbol)
| Unequal (s1 s2 : symbol)
| And (e1 e2 : expr)
| Or (e1 e2 : expr)
| Choice (e : option expr) (sym : symbol)
| Range (s1 s2 : symbol).

Definition type (e : expr) : expr_type :=
  match e with
  | Sym _ => E_SYMBOL | Not _ => E_NOT | Equal _ _ => E_EQUAL | Unequal _ _ => E_UNEQUAL
  | And _ _ => E_AND | Or _ _ => E_OR | Choice _ _ => E_CHOICE | Range _ _ => E_RANGE
  end.

(** The macros [E_OR], [E_AND], [E_NOT] on values; [tristate] is unsigned. *)
Definition tri_or (x y : Z) : Z := if y <? x then x else y.
Definition tri_and (x y : Z) : Z := if x <? y then x else y.
Definition tri_not (x : Z) : Z := u32 (2 - x).

(** ** Making, copying *)

Definition expr_alloc_symbol (sym : symbol) : expr := Sym sym.
(** The second operand of a node of type [t], which is [E_AND] or [E_OR]. *)
Definition expr_alloc_two (t : expr_type) (e1 e2 : expr) : expr :=
  match t with E_AND => And e1 e2 | _ => Or e1 e2 end.
Definition expr_alloc_comp (t : expr_type) (s1 s2 : symbol) : expr :=
  match t with E_EQUAL => Equal s1 s2 | _ => Unequal s1 s2 end.
Definition expr_alloc_one (e : expr) : expr := Not e.

Definition expr_alloc_and (e1 e2 : option expr) : option expr :=
  match e1, e2 with
  | None, _ => e2
  | Some _, None => e1
  | Some e1, Some e2 => Some (expr_alloc_two E_AND e1 e2)
  end.
Definition expr_alloc_or (e1 e2 : option expr) : option expr :=
  match e1, e2 with
  | None, _ => e2
  | Some _, None => e1
  | Some e1, Some e2 => Some (expr_alloc_two E_OR e1 e2)
  end.

(** The operands of a node of type [t]. *)
Definition parts (t : expr_type) (e : expr) : option (expr * expr) :=
  match t, e with
  | E_OR, Or a b => Some (a, b)
  | E_AND, And a b => Some (a, b)
  | _, _ => None
  end.

(** A choice is copied by way of its symbol, read as an expression; for a range
    there is a message, and no copy for the operator above. *)
Fixpoint expr_copy {S} (org : expr) : M S expr :=
  match org with
  | Sym s => ret (Sym s)
  | Not a => a' <- expr_copy a ;; ret (Not a')
  | Equal l r => ret (Equal l r)
  | Unequal l r => ret (Unequal l r)
  | And a b => a' <- expr_copy a ;; b' <- expr_copy b ;; ret (And a' b')
  | Or a b => a' <- expr_copy a ;; b' <- expr_copy b ;; ret (Or a' b')
  | Choice _ _ => fail (BadAddr 0)
  | Range _ _ => fail NullDeref
  end.

(** How many nodes [expr_free] frees: a negation returns before the [free]. *)
Fixpoint expr_free (e : expr) : nat :=
  match e with
  | Not a => expr_free a
  | And a b | Or a b => S (expr_free a + expr_free b)
  | Sym _ | Equal _ _ | Unequal _ _ | Choice _ _ | Range _ _ => 1
  end.

(** ** Constants *)

(** [expr_eliminate_yn] on an expression that is there *)
Fixpoint eliminate_yn (e : expr) : expr :=
  match e with
  | And a b =>
      match eliminate_yn a, eliminate_yn b with
      | Sym symbol_no, _ => Sym symbol_no
      | Sym symbol_yes, b' => b'
      | _, Sym symbol_no => Sym symbol_no
      | a', Sym symbol_yes => a'
      | a', b' => And a' b'
      end
  | Or a b =>
      match eliminate_yn a, eliminate_yn b with
      | Sym symbol_no, b' => b'
      | Sym symbol_yes, _ => Sym symbol_yes
      | a', Sym symbol_no => a'
      | _, Sym symbol_yes => Sym symbol_yes
      | a', b' => Or a' b'
      end
  | _ => e
  end.
Definition expr_eliminate_yn (e : option expr) : option expr := eliminate_yn <$> e.

Definition expr_is_yes (e : option expr) : bool :=
  match e with None | Some (Sym symbol_yes) => true | _ => false end.
Definition expr_is_no (e : option expr) : bool :=
  match e with Some (Sym symbol_no) => true | _ => false end.

Fixpoint expr_contains_symbol (dep : expr) (sym : symbol) : bool :=
  match dep with
  | And a b | Or a b => expr_contains_symbol a sym || expr_contains_symbol b sym
  | Sym s => bool_decide (s = sym)
  | Equal l r | Unequal l r => bool_decide (l = sym) || bool_decide (r = sym)
  | Not a => expr_contains_symbol a sym
  | Choice _ _ | Range _ _ => false
  end.

Fixpoint expr_depends_symbol (dep : expr) (sym : symbol) : bool :=
  match dep with
  | And a b => expr_depends_symbol a sym || expr_depends_symbol b sym
  | Sym s => bool_decide (s = sym)
  | Equal l r => bool_decide (l = sym) && (bool_decide (r = symbol_yes) || bool_decide (r = symbol_mod))
  | Unequal l r => bool_decide (l = sym) && bool_decide (r = symbol_no)
  | _ => false
  end.

(** [NULL] for a comparison with another symbol than [y], [m] and [n]; as an operand
    it is not used. *)
Fixpoint trans_compare (t : expr_type) (sym : symbol) (e : expr) : M Z (option expr) :=
  let negated r := if bool_decide (t = E_UNEQUAL) then Not r else r in
  match e with
  | And a b =>
      e1 <- trans_compare E_EQUAL sym a ;; e2 <- trans_compare E_EQUAL sym b ;;
      match sym with
      | symbol_yes => e1 <- lift_opt NullDeref e1 ;; e2 <- lift_opt NullDeref e2 ;; ret (Some (negated (And e1 e2)))
      | symbol_no => e1 <- lift_opt NullDeref e1 ;; e2 <- lift_opt NullDeref e2 ;; ret (Some (negated (Or e1 e2)))
      | _ => ret (Some (negated e))
      end
  | Or a b =>
      e1 <- trans_compare E_EQUAL sym a ;; e2 <- trans_compare E_EQUAL sym b ;;
      match sym with
      | symbol_yes => e1 <- lift_opt NullDeref e1 ;; e2 <- lift_opt NullDeref e2 ;; ret (Some (negated (Or e1 e2)))
      | symbol_no => e1 <- lift_opt NullDeref e1 ;; e2 <- lift_opt NullDeref e2 ;; ret (Some (negated (And e1 e2)))
      | _ => ret (Some (negated e))
      end
  | Not a => trans_compare (if bool_decide (t = E_EQUAL) then E_UNEQUAL else E_EQUAL) sym a
  | Equal _ _ | Unequal _ _ =>
      match sym with
      | symbol_yes => c <- expr_copy e ;; ret (Some (if bool_decide (t = E_EQUAL) then c else Not c))
      | symbol_mod => ret (Some (Sym (if bool_decide (t = E_EQUAL) then symbol_no else symbol_yes)))
      | symbol_no => c <- expr_copy e ;; ret (Some (if bool_decide (t = E_EQUAL) then Not c else c))
      | _ => ret None
      end
  | Sym s => ret (Some (expr_alloc_comp t s sym))
  | Choice _ _ | Range _ _ => ret None
  end.
Definition expr_trans_compare (e : option expr) (t : expr_type) (sym : symbol) : M Z (option expr) :=
  match e with
  | None => ret (Some (if bool_decide (t = E_UNEQUAL) then Not (Sym sym) else Sym sym))
  | Some e => trans_compare t sym e
  end.

(** ** Printing *)

(** From the case of [t1] on, the cases fall through. *)
Definition expr_compare_type (t1 t2 : expr_type) : Z :=
  let after_choice := if bool_decide (t2 = E_NONE) then 1 else -1 in
  let after_or := if bool_decide (t2 = E_CHOICE) then 1 else after_choice in
  let after_and := if bool_decide (t2 = E_OR) then 1 else after_or in
  let after_not := if bool_decide (t2 = E_AND) then 1 else after_and in
  if bool_decide (t1 = t2) then 0 else
  match t1 with
  | E_EQUAL | E_UNEQUAL => if bool_decide (t2 = E_NOT) then 1 else after_not
  | E_NOT => after_not
  | E_AND => after_and
  | E_OR => after_or
  | E_CHOICE => after_choice
  | E_NONE | E_SYMBOL | E_RANGE => -1
  end.

(** What [fn] is called with, one after the other; a symbol of a comparison has a name. *)
Fixpoint print (name : symbol -> option (list Z)) (e : expr) (prevtoken : expr_type) : list (list Z) :=
  let named s := [default [] (name s)] in
  let text := match e with
  | Sym s => [default (chars "<choice>") (name s)]
  | Not a => chars "!" :: print name a E_NOT
  | Equal l r => named l ++ [chars "="] ++ named r
  | Unequal l r => named l ++ [chars "!="] ++ named r
  | Or a b => print name a E_OR ++ [chars " || "] ++ print name b E_OR
  | And a b => print name a E_AND ++ [chars " && "] ++ print name b E_AND
  | Choice None s => named s
  | Choice (Some a) s => named s ++ [chars " ^ "] ++ print name a E_CHOICE
  | Range l r => [chars "["] ++ named l ++ [chars " "] ++ named r ++ [chars "]"]
  end in
  if 0 <? expr_compare_type prevtoken (type e) then [chars "("] ++ text ++ [chars ")"] else text.
Definition expr_print (name : symbol -> option (list Z)) (e : option expr) (prevtoken : expr_type) : list (list Z) :=
  match e with None => [chars "y"] | Some e => print name e prevtoken end.

(** ** Operations that look at the symbols *)

Section Symbols.
(** [type] and [flags] of the symbols that are not constants *)
Context (types : Z -> symbol_type) (flags : Z -> Z).

Definition sym_type (s : symbol) : symbol_type := match s with sym_at p => types p | _ => S_UNKNOWN end.
Definition sym_flags (s : symbol) : Z :=
  match s with
  | symbol_yes => Z.lor SYMBOL_YES SYMBOL_VALID
  | symbol_mod => Z.lor SYMBOL_MOD SYMBOL_VALID
  | symbol_metapack => Z.lor SYMBOL_METAPACK SYMBOL_VALID
  | symbol_no => Z.lor SYMBOL_NO SYMBOL_VALID
  | symbol_empty => SYMBOL_VALID
  | sym_at p => flags p
  end.
Definition has_flag (s : symbol) (m : Z) : bool := negb (Z.land (sym_flags s) m =? 0).

(** [left.expr] of a comparison is a symbol read as an expression: [expr_trans_bool]
    goes below [E_AND], [E_OR] and [E_NOT] only. *)
Fixpoint trans_bool (e : expr) : expr :=
  match e with
  | And a b => And (trans_bool a) (trans_bool b)
  | Or a b => Or (trans_bool a) (trans_bool b)
  | Not a => Not (trans_bool a)
  | Unequal l r =>
      if bool_decide (sym_type l = S_TRISTATE) && bool_decide (r = symbol_no) then Sym l else e
  | _ => e
  end.
Definition expr_trans_bool (e : option expr) : option expr := trans_bool <$> e.

(** *** [expr_transform] *)

(** What is done at a node whose operands are done; [again] is the call of
    [expr_transform] on what the node became. *)
Definition transform_node (again : expr -> M Z expr) (e : expr) : M Z expr :=
  match e with
  | Equal l r =>
      if negb (bool_decide (sym_type l = S_BOOLEAN)) then ret e
      else if bool_decide (r = symbol_no) then ret (Not (Sym l))
      else if bool_decide (r = symbol_mod) then ret (Sym symbol_no)
      else if bool_decide (r = symbol_yes) then ret (Sym l)
      else ret e
  | Unequal l r =>
      if negb (bool_decide (sym_type l = S_BOOLEAN)) then ret e
      else if bool_decide (r = symbol_no) then ret (Sym l)
      else if bool_decide (r = symbol_mod) then ret (Sym symbol_yes)
      else if bool_decide (r = symbol_yes) then ret (Not (Sym l))
      else ret e
  | Not (Not a) => again a
  | Not (Equal l r) => ret (Unequal l r)
  | Not (Unequal l r) => ret (Equal l r)
  | Not (Or a b) => again (And (Not a) (Not b))
  | Not (And a b) => again (Or (Not a) (Not b))
  | Not (Sym symbol_yes) => ret (Sym symbol_no)
  | Not (Sym symbol_mod) => ret (Sym symbol_mod)
  | Not (Sym symbol_no) => ret (Sym symbol_yes)
  | _ => ret e
  end.

(** The operands of a range are symbols, which the code reads as expressions. *)
Fixpoint transform (n : nat) (e : expr) : M Z expr :=
  match n with
  | O => fail OutOfFuel
  | S n =>
      e' <- (match e with
             | Not a => a' <- transform n a ;; ret (Not a')
             | And a b => a' <- transform n a ;; b' <- transform n b ;; ret (And a' b')
             | Or a b => a' <- transform n a ;; b' <- transform n b ;; ret (Or a' b')
             | Range _ _ => fail (BadAddr 0)
             | Equal _ _ | Unequal _ _ | Sym _ | Choice _ _ => ret e
             end) ;;
      transform_node (transform n) e'
  end.

(** The fuel: moving a negation inwards makes an expression longer, but not
    heavier. *)
Fixpoint weight (e : expr) : nat :=
  match e with
  | Not a => 2 * weight a
  | And a b | Or a b => 1 + weight a + weight b
  | Equal _ _ | Unequal _ _ => 2
  | _ => 1
  end.
Definition expr_transform (e : expr) : M Z expr := transform (S (weight e)) e.

(** *** [expr_eq] and the elimination of common operands *)

(** [n] or [y], by the type of the operator *)
Definition neutral (t : expr_type) : expr := Sym (match t with E_OR => symbol_no | _ => symbol_yes end).

Fixpoint eq_n (n : nat) (e1 e2 : expr) {struct n} : M Z bool :=
  match n with
  | O => fail OutOfFuel
  | S n =>
      match e1, e2 with
      | Equal l r, Equal l' r' | Unequal l r, Unequal l' r' => ret (bool_decide (l = l') && bool_decide (r = r'))
      | Sym s, Sym s' => ret (bool_decide (s = s'))
      | Not a, Not b => eq_n n a b
      | And _ _, And _ _ | Or _ _, Or _ _ =>
          c1 <- expr_copy e1 ;; c2 <- expr_copy e2 ;;
          old_count <- gets id ;;
          ' (c1, c2) <- eliminate_eq_n n c1 c2 ;;
          modify (fun _ => old_count) ;;;
          ret (match c1, c2 with Sym s, Sym s' => bool_decide (s = s') | _, _ => false end)
      | _, _ => ret false
      end
  end
with eliminate_eq1 (n : nat) (t : expr_type) (e1 e2 : expr) {struct n} : M Z (expr * expr) :=
  match n with
  | O => fail OutOfFuel
  | S n =>
      match parts t e1, parts t e2 with
      | Some (a, b), _ =>
          ' (a, e2) <- eliminate_eq1 n t a e2 ;;
          ' (b, e2) <- eliminate_eq1 n t b e2 ;;
          ret (expr_alloc_two t a b, e2)
      | None, Some (a, b) =>
          ' (e1, a) <- eliminate_eq1 n t e1 a ;;
          ' (e1, b) <- eliminate_eq1 n t e1 b ;;
          ret (e1, expr_alloc_two t a b)
      | None, None =>
          if match e1, e2 with
             | Sym s, Sym s' => bool_decide (s = s') && has_flag s (Z.lor SYMBOL_YES SYMBOL_NO)
             | _, _ => false
             end then ret (e1, e2) else
          r <- eq_n n e1 e2 ;;
          if r : bool then modify (fun c => s32 (c + 1)) ;;; ret (neutral t, neutral t) else ret (e1, e2)
      end
  end
with eliminate_eq_n (n : nat) (e1 e2 : expr) {struct n} : M Z (expr * expr) :=
  match n with
  | O => fail OutOfFuel
  | S n =>
      ' (e1, e2) <- (match e1 with Or _ _ | And _ _ => eliminate_eq1 n (type e1) e1 e2 | _ => ret (e1, e2) end) ;;
      ' (e1, e2) <- (if bool_decide (type e1 = type e2) then ret (e1, e2) else
                     match e2 with Or _ _ | And _ _ => eliminate_eq1 n (type e2) e1 e2 | _ => ret (e1, e2) end) ;;
      ret (eliminate_yn e1, eliminate_yn e2)
  end.

Fixpoint size (e : expr) : nat :=
  match e with
  | Not a => S (size a)
  | And a b | Or a b => S (size a + size b)
  | _ => 1
  end.
(** Every fourth call is on smaller expressions. *)
Definition eq_fuel (e1 e2 : expr) : nat := 4 * (size e1 + size e2) + 4.
Definition expr_eq (e1 e2 : expr) : M Z bool := eq_n (eq_fuel e1 e2) e1 e2.
Definition __expr_eliminate_eq (t : expr_type) (e1 e2 : expr) : M Z (expr * expr) :=
  eliminate_eq1 (eq_fuel e1 e2) t e1 e2.
Definition expr_eliminate_eq (e1 e2 : option expr) : M Z (option expr * option expr) :=
  match e1, e2 with
  | Some e1, Some e2 => ' (e1, e2) <- eliminate_eq_n (eq_fuel e1 e2) e1 e2 ;; ret (Some e1, Some e2)
  | _, _ => ret (e1, e2)
  end.
End Symbols.

(** ** What an expression is worth

    A valuation has the value of every symbol ([curr.tri]), and its string
    ([curr.val], for the types that have one). *)
Record valuation : Type := mk_val { tri : symbol -> Z; val : symbol -> list Z }.

Definition tri_string (x : Z) : option (list Z) :=
  if x =? tri_no then Some (chars "n") else if x =? tri_mod then Some (chars "m")
  else if x =? tri_yes then Some (chars "y") else if x =? tri_metapack then Some (chars "p") else None.

(** The negation that the rules of [expr_transform] are written for: it swaps [n]
    and [y] and keeps [m].  It is not the program's: [E_NOT] is [tri_not]. *)
Definition neg3 (x : Z) : Z := if x =? tri_mod then tri_mod else 3 - x.

Definition three (x : Z) : Prop := x = tri_no \/ x = tri_mod \/ x = tri_yes.

(** By cases on values among three *)
Ltac tri3 := repeat match goal with H : three ?x |- _ => destruct H as [H|[H|H]]; rewrite ?H in *; clear H end; first [done|congruence|unfold three; vm_compute; tauto].

Section Value.
Context (types : Z -> symbol_type) (flags : Z -> Z).

(** [sym_get_string_value] of symbol.c *)
Definition sym_get_string_value (v : valuation) (s : symbol) : list Z :=
  match sym_type types s with
  | S_BOOLEAN | S_TRISTATE => default (val v s) (tri_string (tri v s))
  | _ => val v s
  end.

Definition compare (v : valuation) (l r : symbol) : bool :=
  bool_decide (sym_get_string_value v l = sym_get_string_value v r).

(** [expr_calc_value], for symbols whose values are there.  The negation is an
    argument: with [tri_not] it is the program's [expr_calc_value]; with [neg3]
    it is what the rewriting rules mean, and serves the lemmas on single rules. *)
Fixpoint value (neg : Z -> Z) (v : valuation) (e : expr) : Z :=
  match e with
  | Sym s => tri v s
  | And a b => tri_and (value neg v a) (value neg v b)
  | Or a b => tri_or (value neg v a) (value neg v b)
  | Not a => neg (value neg v a)
  | Equal l r => if compare v l r then tri_yes else tri_no
  | Unequal l r => if compare v l r then tri_no else tri_yes
  | Choice _ _ | Range _ _ => tri_no
  end.

(** Values as the other routines leave them: the constants are what they are, the
    values are [n], [m] or [y], and [n] or [y] for a boolean symbol; symbols that
    are constants differ in their strings. *)
Record val_ok (v : valuation) : Prop := {
  vo_tri : forall s, three (tri v s);
  vo_bool : forall s, sym_type types s = S_BOOLEAN -> tri v s <> tri_mod;
  vo_yes : tri v symbol_yes = tri_yes /\ val v symbol_yes = chars "y";
  vo_mod : tri v symbol_mod = tri_mod /\ val v symbol_mod = chars "m";
  vo_no : tri v symbol_no = tri_no /\ val v symbol_no = chars "n";
  vo_const : forall s s', has_flag flags s SYMBOL_CONST = true -> has_flag flags s' SYMBOL_CONST = true ->
    sym_get_string_value v s = sym_get_string_value v s' -> s = s'
}.

(** The same value for all symbols *)
Definition equiv (e e' : expr) : Prop := forall v, val_ok v -> value neg3 v e = value neg3 v e'.
#[local] Infix "≃" := equiv (at level 70).

#[export] Instance equiv_equivalence : Equivalence equiv.
Proof.
  split; [by intros e v _|intros a b H v Hv; by rewrite H|intros a b c H1 H2 v Hv; by rewrite H1, H2].
Qed.
#[export] Instance And_proper : Proper (equiv ==> equiv ==> equiv) And.
Proof. intros a a' Ha b b' Hb v Hv. cbn. by rewrite Ha, Hb. Qed.
#[export] Instance Or_proper : Proper (equiv ==> equiv ==> equiv) Or.
Proof. intros a a' Ha b b' Hb v Hv. cbn. by rewrite Ha, Hb. Qed.
#[export] Instance Not_proper : Proper (equiv ==> equiv) Not.
Proof. intros a a' Ha v Hv. cbn. by rewrite Ha. Qed.

(** *** Three values *)

Lemma three_or x y : three x -> three y -> three (tri_or x y). Proof. intros Hx Hy. tri3. Qed.
Lemma three_and x y : three x -> three y -> three (tri_and x y). Proof. intros Hx Hy. tri3. Qed.
Lemma three_neg x : three x -> three (neg3 x). Proof. intros Hx. tri3. Qed.
#[local] Hint Resolve three_or three_and three_neg : kexpr.

Lemma value_three v e : val_ok v -> three (value neg3 v e).
Proof.
  intros Hv. induction e; cbn [value]; auto with kexpr.
  - apply (vo_tri v Hv).
  - destruct (compare v s1 s2); [right; by right|by left].
  - destruct (compare v s1 s2); [by left|right; by right].
  - by left.
  - by left.
Qed.

Lemma not_not e : Not (Not e) ≃ e.
Proof. intros v Hv. cbn. pose proof (value_three v e Hv). tri3. Qed.
Lemma not_or a b : Not (Or a b) ≃ And (Not a) (Not b).
Proof. intros v Hv. cbn. pose proof (value_three v a Hv). pose proof (value_three v b Hv). tri3. Qed.
Lemma not_and a b : Not (And a b) ≃ Or (Not a) (Not b).
Proof. intros v Hv. cbn. pose proof (value_three v a Hv). pose proof (value_three v b Hv). tri3. Qed.
Lemma not_equal l r : Not (Equal l r) ≃ Unequal l r.
Proof. intros v Hv. cbn. by destruct (compare v l r). Qed.
Lemma not_unequal l r : Not (Unequal l r) ≃ Equal l r.
Proof. intros v Hv. cbn. by destruct (compare v l r). Qed.

(** The constants in the four places where they can stand. *)
Lemma or_no_l a : Or (Sym symbol_no) a ≃ a.
Proof. intros v Hv. cbn. rewrite (proj1 (vo_no v Hv)). pose proof (value_three v a Hv). tri3. Qed.
Lemma or_no_r a : Or a (Sym symbol_no) ≃ a.
Proof. intros v Hv. cbn. rewrite (proj1 (vo_no v Hv)). pose proof (value_three v a Hv). tri3. Qed.
Lemma or_yes_l a : Or (Sym symbol_yes) a ≃ Sym symbol_yes.
Proof. intros v Hv. cbn. rewrite (proj1 (vo_yes v Hv)). pose proof (value_three v a Hv). tri3. Qed.
Lemma or_yes_r a : Or a (Sym symbol_yes) ≃ Sym symbol_yes.
Proof. intros v Hv. cbn. rewrite (proj1 (vo_yes v Hv)). pose proof (value_three v a Hv). tri3. Qed.
Lemma and_no_l a : And (Sym symbol_no) a ≃ Sym symbol_no.
Proof. intros v Hv. cbn. rewrite (proj1 (vo_no v Hv)). pose proof (value_three v a Hv). tri3. Qed.
Lemma and_no_r a : And a (Sym symbol_no) ≃ Sym symbol_no.
Proof. intros v Hv. cbn. rewrite (proj1 (vo_no v Hv)). pose proof (value_three v a Hv). tri3. Qed.
Lemma and_yes_l a : And (Sym symbol_yes) a ≃ a.
Proof. intros v Hv. cbn. rewrite (proj1 (vo_yes v Hv)). pose proof (value_three v a Hv). tri3. Qed.
Lemma and_yes_r a : And a (Sym symbol_yes) ≃ a.
Proof. intros v Hv. cbn. rewrite (proj1 (vo_yes v Hv)). pose proof (value_three v a Hv). tri3. Qed.

(** [expr_eliminate_yn] keeps the value. *)
Lemma eliminate_yn_equiv e : eliminate_yn e ≃ e.
Proof.
  induction e as [| | | |a IHa b IHb|a IHa b IHb| |]; cbn [eliminate_yn]; try done.
  - transitivity (And (eliminate_yn a) (eliminate_yn b)); [|by rewrite IHa, IHb].
    destruct (eliminate_yn a) as [[]| | | | | | |], (eliminate_yn b) as [[]| | | | | | |];
      rewrite ?and_no_l, ?and_no_r, ?and_yes_l, ?and_yes_r; done.
  - transitivity (Or (eliminate_yn a) (eliminate_yn b)); [|by rewrite IHa, IHb].
    destruct (eliminate_yn a) as [[]| | | | | | |], (eliminate_yn b) as [[]| | | | | | |];
      rewrite ?or_no_l, ?or_no_r, ?or_yes_l, ?or_yes_r; done.
Qed.

(** ** [expr_transform] *)

(** An expression of dependencies, without a choice, a range and the constant
    [metapack] in it *)
Fixpoint plain (e : expr) : bool :=
  match e with
  | Sym symbol_metapack => false
  | Not a => plain a
  | And a b | Or a b => plain a && plain b
  | Choice _ _ | Range _ _ => false
  | _ => true
  end.

Lemma wp_expr_copy {S} e (s : S) (Q : expr -> S -> Prop) : plain e = true -> Q e s -> wp (expr_copy e) Q s.
Proof.
  revert Q s. induction e as [x|a IHa|l r|l r|a IHa b IHb|a IHa b IHb|o x|l r]; intros Q s; cbn [plain expr_copy]; try done.
  - intros Hp HQ. wp_simpl. by apply IHa.
  - intros [Ha Hb]%andb_true_iff HQ. wp_simpl. apply IHa; [done|]. wp_simpl. by apply IHb.
  - intros [Ha Hb]%andb_true_iff HQ. wp_simpl. apply IHa; [done|]. wp_simpl. by apply IHb.
Qed.

(** The symbols with which a boolean symbol is not compared in the end *)
Definition logical (s : symbol) : bool :=
  match s with symbol_yes | symbol_mod | symbol_no => true | _ => false end.

(** Negations stand before symbols only, and no boolean symbol is compared with
    [n], [m] or [y]. *)
Fixpoint normal (e : expr) : bool :=
  match e with
  | Sym _ => true
  | Not (Sym s) => negb (logical s)
  | Not _ => false
  | Equal l r | Unequal l r => negb (bool_decide (sym_type types l = S_BOOLEAN) && logical r)
  | And a b | Or a b => normal a && normal b
  | Choice _ _ | Range _ _ => true
  end.

Lemma bool_string v s : val_ok v -> sym_type types s = S_BOOLEAN ->
  (tri v s = tri_yes /\ sym_get_string_value v s = chars "y") \/ (tri v s = tri_no /\ sym_get_string_value v s = chars "n").
Proof.
  intros Hv Hs. unfold sym_get_string_value. rewrite Hs. pose proof (vo_bool v Hv s Hs) as Hm.
  destruct (vo_tri v Hv s) as [E|[E|E]]; rewrite E in *; [by right|congruence|by left].
Qed.
Lemma const_string v : val_ok v -> sym_get_string_value v symbol_yes = chars "y" /\
  sym_get_string_value v symbol_mod = chars "m" /\ sym_get_string_value v symbol_no = chars "n".
Proof. intros Hv. unfold sym_get_string_value. cbn [sym_type]. by destruct Hv as [_ _ [_ ->] [_ ->] [_ ->] _]. Qed.

(** A boolean symbol compared with a constant *)
Lemma bool_equal v s r : val_ok v -> sym_type types s = S_BOOLEAN -> logical r = true ->
  compare v s r = (match r with symbol_yes => tri v s =? tri_yes | symbol_no => tri v s =? tri_no | _ => false end).
Proof.
  intros Hv Hs Hr. unfold compare. destruct (const_string v Hv) as (E1 & E2 & E3).
  destruct (bool_string v s Hv Hs) as [[Et Es]|[Et Es]]; rewrite Es, Et; destruct r; try done; by rewrite ?E1, ?E2, ?E3.
Qed.

(** The comparisons that become something else *)
Lemma equal_bool l : sym_type types l = S_BOOLEAN ->
  Equal l symbol_no ≃ Not (Sym l) /\ Equal l symbol_mod ≃ Sym symbol_no /\ Equal l symbol_yes ≃ Sym l /\
  Unequal l symbol_no ≃ Sym l /\ Unequal l symbol_mod ≃ Sym symbol_yes /\ Unequal l symbol_yes ≃ Not (Sym l).
Proof.
  intros Hl. split_and!; intros v Hv; cbn; rewrite bool_equal by done;
    rewrite ?(proj1 (vo_no v Hv)), ?(proj1 (vo_yes v Hv)); try done;
    destruct (bool_string v l Hv Hl) as [[E _]|[E _]]; rewrite ?E; done.
Qed.

Lemma not_const : Not (Sym symbol_yes) ≃ Sym symbol_no /\ Not (Sym symbol_mod) ≃ Sym symbol_mod /\
  Not (Sym symbol_no) ≃ Sym symbol_yes.
Proof.
  split_and!; intros v Hv; cbn; by rewrite ?(proj1 (vo_no v Hv)), ?(proj1 (vo_mod v Hv)), ?(proj1 (vo_yes v Hv)).
Qed.

Definition transformed (e e' : expr) : Prop :=
  e ≃ e' /\ (weight e' <= weight e)%nat /\ plain e' = true /\ normal e' = true.

Lemma transformed_from e1 e2 e' : e1 ≃ e2 -> (weight e2 <= weight e1)%nat -> transformed e2 e' -> transformed e1 e'.
Proof. intros E W (A1 & A2 & A3 & A4). split_and!; [by rewrite E|lia|done|done]. Qed.

Lemma weight_pos e : (1 <= weight e)%nat.
Proof. induction e; cbn; lia. Qed.

(** A node whose operands are done. *)
Lemma wp_transform_node again e c :
  plain e = true ->
  match e with Not a => normal a = true | And a b | Or a b => normal a = true /\ normal b = true | _ => True end ->
  (forall e2, plain e2 = true -> (weight e2 < weight e)%nat -> wp (again e2) (fun e' c' => c' = c /\ transformed e2 e') c) ->
  wp (transform_node types again e) (fun e' c' => c' = c /\ transformed e e') c.
Proof.
  intros Hp Hn Hagain. destruct e as [x|a|l r|l r|a b|a b|o x|l r]; cbn [transform_node]; try done.
  - destruct a as [x|a|l r|l r|a b|a b|o x|l r]; try done.
    + destruct not_const as (N1 & N2 & N3). destruct x; try done; wp_simpl; (split; [done|]); (split_and!; [done|cbn; lia|done|done]).
    + eapply wp_mono; [apply Hagain; [done|cbn; pose proof (weight_pos a); lia]|]. intros e' c' [-> T]. split; [done|].
      eapply transformed_from; [apply not_not|cbn; lia|done].
    + wp_simpl. split; [done|]. split_and!; [apply not_equal|cbn; lia|done|done].
    + wp_simpl. split; [done|]. split_and!; [apply not_unequal|cbn; lia|done|done].
    + eapply wp_mono; [apply Hagain; [done|cbn; lia]|]. intros e' c' [-> T]. split; [done|].
      eapply transformed_from; [apply not_and|cbn; lia|done].
    + eapply wp_mono; [apply Hagain; [done|cbn; lia]|]. intros e' c' [-> T]. split; [done|].
      eapply transformed_from; [apply not_or|cbn; lia|done].
  - destruct (decide (sym_type types l = S_BOOLEAN)) as [Hl|Hl].
    + rewrite bool_decide_true by done. cbn [negb]. destruct (equal_bool l Hl) as (E1 & E2 & E3 & _).
      repeat case_bool_decide; subst; wp_simpl; (split; [done|]); (split_and!; [done|cbn; lia|by destruct l|]); try done.
      all: cbn; first [by destruct l|rewrite bool_decide_true by done; by destruct r].
    + rewrite bool_decide_false by done. wp_simpl. split; [done|]. split_and!; [done|done|done|].
      cbn. by rewrite bool_decide_false.
  - destruct (decide (sym_type types l = S_BOOLEAN)) as [Hl|Hl].
    + rewrite bool_decide_true by done. cbn [negb]. destruct (equal_bool l Hl) as (_ & _ & _ & E1 & E2 & E3).
      repeat case_bool_decide; subst; wp_simpl; (split; [done|]); (split_and!; [done|cbn; lia|by destruct l|]); try done.
      all: cbn; first [by destruct l|rewrite bool_decide_true by done; by destruct r].
    + rewrite bool_decide_false by done. wp_simpl. split; [done|]. split_and!; [done|done|done|].
      cbn. by rewrite bool_decide_false.
  - wp_simpl. split; [done|]. split_and!; [done|done|done|]. cbn. by rewrite (proj1 Hn), (proj2 Hn).
  - wp_simpl. split; [done|]. split_and!; [done|done|done|]. cbn. by rewrite (proj1 Hn), (proj2 Hn).
Qed.

Lemma wp_transform n e c : plain e = true -> (weight e < n)%nat ->
  wp (transform types n e) (fun e' c' => c' = c /\ transformed e e') c.
Proof.
  revert e. induction n as [|n IH]; intros e Hp Hn; [lia|]. cbn [transform]. wp_simpl.
  assert (Hnode : forall e', e ≃ e' -> (weight e' <= weight e)%nat -> plain e' = true ->
    match e' with Not a => normal a = true | And a b | Or a b => normal a = true /\ normal b = true | _ => True end ->
    wp (transform_node types (transform types n) e') (fun e' c' => c' = c /\ transformed e e') c).
  { intros e' E W P N. eapply wp_mono; [apply wp_transform_node; [done|done|]|].
    - intros e2 Hp2 Hw2. apply IH; [done|lia].
    - intros e'' c' [-> T]. split; [done|]. by eapply transformed_from. }
  destruct e as [x|a|l r|l r|a b|a b|o x|l r]; try done; wp_simpl; try (by apply Hnode).
  - cbn in Hn, Hp. pose proof (weight_pos a). eapply wp_mono; [apply IH; [done|lia]|]. intros a' c' (-> & E & W & P & N). wp_simpl.
    apply Hnode; [by rewrite E|cbn; lia|done|done].
  - cbn in Hn, Hp. apply andb_true_iff in Hp as [Hpa Hpb].
    eapply wp_mono; [apply IH; [done|lia]|]. intros a' c' (-> & E & W & P & N). wp_simpl.
    eapply wp_mono; [apply IH; [done|lia]|]. intros b' c' (-> & E2 & W2 & P2 & N2). wp_simpl.
    apply Hnode; [by rewrite E, E2|cbn; lia|cbn; by rewrite P, P2|done].
  - cbn in Hn, Hp. apply andb_true_iff in Hp as [Hpa Hpb].
    eapply wp_mono; [apply IH; [done|lia]|]. intros a' c' (-> & E & W & P & N). wp_simpl.
    eapply wp_mono; [apply IH; [done|lia]|]. intros b' c' (-> & E2 & W2 & P2 & N2). wp_simpl.
    apply Hnode; [by rewrite E, E2|cbn; lia|cbn; by rewrite P, P2|done].
Qed.

(** ** [expr_eq] *)

Definition oper (t : expr_type) : Prop := t = E_OR \/ t = E_AND.
Notation N := expr_alloc_two.

#[export] Instance N_proper t : Proper (equiv ==> equiv ==> equiv) (N t).
Proof. destruct t; cbn; solve_proper. Qed.
Lemma N_assoc t a b c : N t a (N t b c) ≃ N t (N t a b) c.
Proof.
  intros v Hv. pose proof (value_three v a Hv). pose proof (value_three v b Hv). pose proof (value_three v c Hv).
  destruct t; cbn; tri3.
Qed.
Lemma N_comm t a b : N t a b ≃ N t b a.
Proof. intros v Hv. pose proof (value_three v a Hv). pose proof (value_three v b Hv). destruct t; cbn; tri3. Qed.
Lemma N_idem t a : N t a a ≃ a.
Proof. intros v Hv. pose proof (value_three v a Hv). destruct t; cbn; tri3. Qed.
Lemma N_neutral t a : oper t -> N t a (neutral t) ≃ a.
Proof. intros [->| ->]; cbn; [apply or_no_r|apply and_yes_r]. Qed.
Lemma N_neutral_l t a : oper t -> N t (neutral t) a ≃ a.
Proof. intros [->| ->]; cbn; [apply or_no_l|apply and_yes_l]. Qed.

Lemma parts_some t e a b : parts t e = Some (a, b) ->
  e = N t a b /\ oper t /\ size e = S (size a + size b) /\ (plain e = plain a && plain b).
Proof. unfold oper. destruct t, e; try done; intros [= -> ->]; cbn; tauto. Qed.
Lemma size_N t a b : size (N t a b) = S (size a + size b).
Proof. by destruct t. Qed.
Lemma plain_N t a b : plain (N t a b) = plain a && plain b.
Proof. by destruct t. Qed.
Lemma size_neutral t : size (neutral t) = 1%nat /\ plain (neutral t) = true.
Proof. by destruct t. Qed.
Lemma size_pos e : (1 <= size e)%nat.
Proof. induction e; cbn; lia. Qed.
Lemma plain_yn e : plain e = true -> plain (eliminate_yn e) = true.
Proof.
  induction e as [| | | |a IHa b IHb|a IHa b IHb| |]; cbn [plain eliminate_yn]; try done.
  - intros [Ha Hb]%andb_true_iff. specialize (IHa Ha). specialize (IHb Hb).
    destruct (eliminate_yn a) as [[]| | | | | | |], (eliminate_yn b) as [[]| | | | | | |]; cbn in *; by rewrite ?IHa, ?IHb.
  - intros [Ha Hb]%andb_true_iff. specialize (IHa Ha). specialize (IHb Hb).
    destruct (eliminate_yn a) as [[]| | | | | | |], (eliminate_yn b) as [[]| | | | | | |]; cbn in *; by rewrite ?IHa, ?IHb.
Qed.

(** What the elimination of common operands does: there is a common operand [x]
    that it takes from both. *)
Definition taken (t : expr_type) (e1 e2 e1' e2' : expr) : Prop :=
  (exists x, e1 ≃ N t x e1' /\ e2 ≃ N t x e2') /\
  (size e1' <= size e1)%nat /\ (size e2' <= size e2)%nat /\ plain e1' = true /\ plain e2' = true.

(** Values that are equal after it were equal before. *)
Definition shared (e1 e2 e1' e2' : expr) : Prop :=
  forall v, val_ok v -> exists f : Z -> Z,
    value neg3 v e1 = f (value neg3 v e1') /\ value neg3 v e2 = f (value neg3 v e2').

Lemma shared_refl e1 e2 : shared e1 e2 e1 e2.
Proof. intros v Hv. by exists id. Qed.
Lemma shared_trans e1 e2 e1' e2' e1'' e2'' : shared e1 e2 e1' e2' -> shared e1' e2' e1'' e2'' -> shared e1 e2 e1'' e2''.
Proof.
  intros A B v Hv. destruct (A v Hv) as (f & F1 & F2), (B v Hv) as (g & G1 & G2).
  exists (f ∘ g). by rewrite F1, F2, G1, G2.
Qed.
Lemma taken_shared t e1 e2 e1' e2' : taken t e1 e2 e1' e2' -> shared e1 e2 e1' e2'.
Proof.
  intros [(x & X1 & X2) _] v Hv. exists (match t with E_AND => tri_and | _ => tri_or end (value neg3 v x)).
  rewrite (X1 v Hv), (X2 v Hv). by destruct t.
Qed.
Lemma taken_none t e1 e2 : oper t -> plain e1 = true -> plain e2 = true -> taken t e1 e2 e1 e2.
Proof. intros Ht P1 P2. split_and!; try done. exists (neutral t). split; by rewrite N_neutral_l. Qed.

(** Two steps on the operands of the first expression, and of the second. *)
Lemma taken_left t a b e2 a' b' e2' e2'' :
  taken t a e2 a' e2' -> taken t b e2' b' e2'' -> taken t (N t a b) e2 (N t a' b') e2''.
Proof.
  intros [(x & X1 & X2) (S1 & S2 & P1 & P2)] [(y & Y1 & Y2) (S3 & S4 & P3 & P4)].
  split_and!; rewrite ?size_N, ?plain_N, ?P1, ?P3; try done; try lia.
  exists (N t x y). split.
  - rewrite X1, Y1. rewrite <- !N_assoc. rewrite (N_assoc t a'), (N_comm t a' y), <- N_assoc. done.
  - rewrite X2, Y2. by rewrite N_assoc.
Qed.
Lemma taken_swap t e1 e2 e1' e2' : taken t e1 e2 e1' e2' -> taken t e2 e1 e2' e1'.
Proof. intros [(x & X1 & X2) (S1 & S2 & P1 & P2)]. split_and!; try done. by exists x. Qed.

Lemma eq_specs n :
  (forall e1 e2 c, plain e1 = true -> plain e2 = true -> (4 * (size e1 + size e2) + 3 <= n)%nat ->
     wp (eq_n flags n e1 e2) (fun r c' => c' = c /\ (r = true -> e1 ≃ e2)) c) /\
  (forall t e1 e2 c, oper t -> plain e1 = true -> plain e2 = true ->
     (4 * (size e1 + size e2) + 4 <= n \/ (is_Some (parts t e1) \/ is_Some (parts t e2)) /\ 4 * (size e1 + size e2) + 1 <= n)%nat ->
     wp (eliminate_eq1 flags n t e1 e2) (fun '(e1', e2') c' => taken t e1 e2 e1' e2') c) /\
  (forall e1 e2 c, plain e1 = true -> plain e2 = true -> (4 * (size e1 + size e2) + 2 <= n)%nat ->
     wp (eliminate_eq_n flags n e1 e2) (fun '(e1', e2') c' => shared e1 e2 e1' e2' /\ plain e1' = true /\ plain e2' = true) c).
Proof.
  induction n as [|n (IHeq & IH1 & IHn)]; [split_and!; intros; [lia|destruct H2; lia|lia]|]. split_and!.
  - intros e1 e2 c P1 P2 Hn. cbn [eq_n].
    destruct e1, e2; wp_simpl; try (by split); cbn in Hn, P1, P2.
    5-6: apply wp_expr_copy; [exact P1|]; wp_simpl; apply wp_expr_copy; [exact P2|]; wp_simpl;
      (eapply wp_mono; [apply IHn; [exact P1|exact P2|cbn; lia]|]);
      intros [c1 c2] c' [Hs _]; wp_simpl; split; [done|];
      destruct c1, c2; try done; intros Hd%bool_decide_eq_true v Hv; destruct (Hs v Hv) as (f & -> & ->); by rewrite Hd.
    + split; [done|]. intros Hd%bool_decide_eq_true. by rewrite Hd.
    + eapply wp_mono; [apply IHeq; [done|done|lia]|]. intros r c' [-> Hr]. split; [done|]. intros Ht. by rewrite (Hr Ht).
    + split; [done|]. intros [-> %bool_decide_eq_true ->%bool_decide_eq_true]%andb_true_iff. done.
    + split; [done|]. intros [-> %bool_decide_eq_true ->%bool_decide_eq_true]%andb_true_iff. done.
  - intros t e1 e2 c Ht P1 P2 Hn. cbn [eliminate_eq1].
    destruct (parts t e1) as [[a b]|] eqn:E1; [|destruct (parts t e2) as [[a b]|] eqn:E2].
    + apply parts_some in E1 as (-> & _ & Hs & Hp). rewrite Hp in P1. apply andb_true_iff in P1 as [Pa Pb].
      rewrite Hs in Hn. wp_simpl. eapply wp_mono; [apply IH1; [done|done|done|left; lia]|].
      intros [a' e2'] c' T1. wp_simpl. destruct (T1) as (_ & S1 & S2 & Pa' & P2').
      eapply wp_mono; [apply IH1; [done|done|done|left; lia]|].
      intros [b' e2''] c'' T2. wp_simpl. by eapply taken_left.
    + apply parts_some in E2 as (-> & _ & Hs & Hp). rewrite Hp in P2. apply andb_true_iff in P2 as [Pa Pb].
      rewrite Hs in Hn. wp_simpl. eapply wp_mono; [apply IH1; [done|done|done|left; lia]|].
      intros [e1' a'] c' T1. wp_simpl. destruct (T1) as (_ & S1 & S2 & P1' & Pa').
      eapply wp_mono; [apply IH1; [done|done|done|left; lia]|].
      intros [e1'' b'] c'' T2. wp_simpl. apply taken_swap. eapply taken_left; by apply taken_swap.
    + assert (Hn' : (4 * (size e1 + size e2) + 4 <= S n)%nat) by (destruct Hn as [Hn|[[[? ?]|[? ?]] _]]; congruence || lia).
      destruct (match e1, e2 with Sym _, Sym _ => _ | _, _ => _ end); [wp_simpl; by apply taken_none|].
      wp_simpl. eapply wp_mono; [apply IHeq; [done|done|lia]|]. intros [] c' [-> He]; wp_simpl; [|by apply taken_none].
      destruct (size_neutral t) as [S1 S2]. pose proof (size_pos e1). pose proof (size_pos e2).
      split_and!; rewrite ?S1; try done; try lia. exists e1. rewrite N_neutral by done. split; [done|]. by rewrite He.
  - intros e1 e2 c P1 P2 Hn. cbn [eliminate_eq_n]. wp_simpl.
    apply (wp_mono _ (fun '(e1', e2') _ => shared e1 e2 e1' e2' /\ plain e1' = true /\ plain e2' = true /\
      (size e1' <= size e1)%nat /\ (size e2' <= size e2)%nat)).
    { destruct e1; try (wp_simpl; split_and!; [apply shared_refl|done..]).
      all: eapply wp_mono; [apply IH1; [first [by left|by right]|done|done|right; split; [left; cbn; eauto|lia]]|].
      all: intros [e1' e2'] c' T; split; [by eapply taken_shared|]; destruct T as (_ & ? & ? & ? & ?); tauto. }
    intros [e1' e2'] c1 (Hs1 & P1' & P2' & S1 & S2). wp_simpl.
    apply (wp_mono _ (fun '(e1'', e2'') _ => shared e1' e2' e1'' e2'' /\ plain e1'' = true /\ plain e2'' = true)).
    { case_bool_decide; [wp_simpl; by split; [apply shared_refl|]|]. destruct e2'; try (wp_simpl; by split; [apply shared_refl|]).
      all: eapply wp_mono; [apply IH1; [first [by left|by right]|done|done|right; split; [right; cbn; eauto|lia]]|].
      all: intros [e1'' e2''] c' T; (split; [by eapply taken_shared|]); destruct T as (_ & _ & _ & T); exact T. }
    intros [e1'' e2''] c2 (Hs2 & P1'' & P2''). wp_simpl. split; [|by split; apply plain_yn]. eapply shared_trans; [exact Hs1|]. eapply shared_trans; [exact Hs2|].
    intros v Hv. exists id. by rewrite !(eliminate_yn_equiv _ v Hv).
Qed.
End Value.

(** ** Symbols as they are

    The rules know three values.  The constant [metapack] has a fourth: it is put
    aside here, and [plain] expressions do not contain it. *)

Definition no_metapack (v : valuation) : valuation :=
  mk_val (fun s => match s with symbol_metapack => tri_no | _ => tri v s end) (val v).
Definition symbols_ok (types : Z -> symbol_type) (flags : Z -> Z) (v : valuation) : Prop :=
  val_ok types flags (no_metapack v).

Lemma value_no_metapack types neg v e : plain e = true -> value types neg (no_metapack v) e = value types neg v e.
Proof.
  assert (Hc : forall l r, compare types (no_metapack v) l r = compare types v l r).
  { intros l r. unfold compare, sym_get_string_value. by destruct l, r. }
  induction e as [x|a IHa|l r|l r|a IHa b IHb|a IHa b IHb|o x|l r]; cbn; rewrite ?Hc; try done.
  - by destruct x.
  - intros Ha. by rewrite IHa.
  - intros [Ha Hb]%andb_true_iff. by rewrite IHa, IHb.
  - intros [Ha Hb]%andb_true_iff. by rewrite IHa, IHb.
Qed.

(** The same value, whatever the symbols are *)
Definition same_value (types : Z -> symbol_type) (flags : Z -> Z) (e e' : expr) : Prop :=
  forall v, symbols_ok types flags v -> value types neg3 v e = value types neg3 v e'.
Lemma equiv_same types flags e e' : plain e = true -> plain e' = true -> equiv types flags e e' -> same_value types flags e e'.
Proof. intros P P' E v Hv. rewrite <- !(value_no_metapack types neg3 v) by done. by apply E. Qed.

(** ** Properties *)

(** [expr_transform] ends, and keeps the value for all values of the symbols under
    the negation that its rules are written for, which swaps [n] and [y] and keeps
    [m]; this is not the program's [E_NOT], see [expr_not_out_of_range]. *)
Theorem expr_transform_equiv types flags e c : plain e = true ->
  wp (expr_transform types e) (fun e' c' => c' = c /\ same_value types flags e e') c.
Proof.
  intros P. eapply wp_mono; [apply (wp_transform types flags); [done|lia]|]. intros e' c' (-> & E & _ & P' & _).
  split; [done|]. by apply equiv_same.
Qed.

(** Without a negation the value does not depend on it. *)
Fixpoint not_free (e : expr) : bool :=
  match e with Not _ => false | And a b | Or a b => not_free a && not_free b | _ => true end.
Lemma value_not_free types neg v e : not_free e = true -> value types neg v e = value types neg3 v e.
Proof.
  induction e as [| | | |a IHa b IHb|a IHa b IHb| |]; cbn; try done; intros [Ha Hb]%andb_true_iff; by rewrite IHa, IHb.
Qed.

(** What is in normal form stays as it is. *)
Lemma transform_normal types n e c : plain e = true -> normal types e = true -> (weight e < n)%nat ->
  transform types n e c = Ok (e, c).
Proof.
  revert e. induction n as [|n IH]; intros e P N Hn; [lia|]. cbn [transform].
  destruct e as [x|a|l r|l r|a b|a b|o x|l r]; try done; cbn [plain normal weight] in *.
  - destruct a as [x| | | | | | |]; try done. unfold bind at 1 2. rewrite (IH (Sym x)) by (done || cbn in *; lia).
    cbn. by destruct x.
  - cbn. destruct (bool_decide_reflect (sym_type types l = S_BOOLEAN)); [|done]. cbn [negb]. by destruct r.
  - cbn. destruct (bool_decide_reflect (sym_type types l = S_BOOLEAN)); [|done]. cbn [negb]. by destruct r.
  - apply andb_true_iff in P as [Pa Pb], N as [Na Nb]. unfold bind at 1 2 3.
    by rewrite (IH a), (IH b) by (done || lia).
  - apply andb_true_iff in P as [Pa Pb], N as [Na Nb]. unfold bind at 1 2 3.
    by rewrite (IH a), (IH b) by (done || lia).
Qed.

(** Symbols without comparisons and constants, and no symbol is [y]: there the
    program's own negation is an involution, and turns [||] into [&&]. *)
Fixpoint below_yes (v : valuation) (e : expr) : Prop :=
  match e with
  | Sym (sym_at p) => tri_no <= tri v (sym_at p) < tri_yes
  | Not a => below_yes v a
  | And a b | Or a b => below_yes v a /\ below_yes v b
  | _ => False
  end.
Lemma tri_not_small x : tri_no <= x < tri_yes -> tri_not x = 2 - x.
Proof. unfold tri_no, tri_yes, tri_not, u32. intros ?. rewrite Z.mod_small; lia. Qed.
Lemma below_yes_range types v e : below_yes v e -> tri_no <= value types tri_not v e < tri_yes.
Proof.
  induction e as [x|a IHa|l r|l r|a IHa b IHb|a IHa b IHb|o x|l r]; cbn [below_yes value]; try done.
  - by destruct x.
  - intros Ha%IHa. rewrite tri_not_small by done. unfold tri_no, tri_yes in *. lia.
  - intros [Ha%IHa Hb%IHb]. unfold tri_or, tri_and. by case_match.
  - intros [Ha%IHa Hb%IHb]. unfold tri_or, tri_and. by case_match.
Qed.
Lemma tri_not_twice x : tri_no <= x < tri_yes -> tri_not (tri_not x) = x.
Proof. intros Hx. unfold tri_no, tri_yes in *. rewrite (tri_not_small x), tri_not_small; unfold tri_no, tri_yes; lia. Qed.
Lemma tri_not_or x y : tri_no <= x < tri_yes -> tri_no <= y < tri_yes -> tri_not (tri_or x y) = tri_and (tri_not x) (tri_not y).
Proof.
  intros Hx Hy. rewrite (tri_not_small x), (tri_not_small y) by done. unfold tri_or, tri_and.
  destruct (Z.ltb_spec y x), (Z.ltb_spec (2 - x) (2 - y)); rewrite tri_not_small by done; lia.
Qed.
Lemma tri_not_and x y : tri_no <= x < tri_yes -> tri_no <= y < tri_yes -> tri_not (tri_and x y) = tri_or (tri_not x) (tri_not y).
Proof.
  intros Hx Hy. rewrite (tri_not_small x), (tri_not_small y) by done. unfold tri_or, tri_and.
  destruct (Z.ltb_spec x y), (Z.ltb_spec (2 - y) (2 - x)); rewrite tri_not_small by done; lia.
Qed.

Lemma transform_below_yes types v n : forall e c e' c', transform types n e c = Ok (e', c') -> below_yes v e ->
  below_yes v e' /\ value types tri_not v e' = value types tri_not v e.
Proof.
  induction n as [|n IH]; [done|]. intros e c e' c' H B. cbn [transform] in H. unfold bind at 1 in H.
  destruct e as [x|a|l r|l r|a b|a b|o x|l r]; cbn [below_yes] in B; try done.
  - destruct x; try done. by injection H as <- <-.
  - unfold bind in H. destruct (transform types n a c) as [[a' c1]|] eqn:Ea; [|done]. cbn [ret] in H.
    apply (IH _ _ _ _ Ea) in B as [B V]. cbn [value]. rewrite <- V. clear V Ea.
    destruct a' as [x|d|l r|l r|d1 d2|d1 d2|o x|l r]; cbn [below_yes] in B; try done; cbn [transform_node] in H.
    + destruct x; try done. by injection H as <- <-.
    + apply IH in H as [B' ->]; [|done]. cbn [value]. by rewrite tri_not_twice by by apply below_yes_range.
    + apply IH in H as [B' ->]; [|done]. cbn [value]. destruct B. by rewrite ?tri_not_or, ?tri_not_and by by apply below_yes_range.
    + apply IH in H as [B' ->]; [|done]. cbn [value]. destruct B. by rewrite ?tri_not_or, ?tri_not_and by by apply below_yes_range.
  - unfold bind in H. destruct (transform types n a c) as [[a' c1]|] eqn:Ea; [|done].
    destruct (transform types n b c1) as [[b' c2]|] eqn:Eb; [|done]. injection H as <- <-. destruct B as [Ba Bb].
    apply (IH _ _ _ _ Ea) in Ba as [Ba V]. apply (IH _ _ _ _ Eb) in Bb as [Bb V']. cbn. by rewrite V, V'.
  - unfold bind in H. destruct (transform types n a c) as [[a' c1]|] eqn:Ea; [|done].
    destruct (transform types n b c1) as [[b' c2]|] eqn:Eb; [|done]. injection H as <- <-. destruct B as [Ba Bb].
    apply (IH _ _ _ _ Ea) in Ba as [Ba V]. apply (IH _ _ _ _ Eb) in Bb as [Bb V']. cbn. by rewrite V, V'.
Qed.

(** [C34] [expr_transform] of an expression without choices and ranges ends within its
    fuel, in normal form: a negation stands before a symbol only, which is not
    [n], [m] or [y], and no boolean symbol is compared with one of these.  A
    normal form is a fixed point: transforming the result again changes nothing.
    The counter is not touched.  The value, with the program's own negation, is
    the same for all values of the symbols where neither the expression nor the
    result has a negation; and for expressions of symbols, [&&], [||] and [!] the
    value is the same as long as no symbol is [y].  With a negation and a [y] it
    may change: [expr_not_out_of_range]. *)
Theorem expr_transform_normal types e c : plain e = true ->
  wp (expr_transform types e) (fun e' c' => c' = c /\ normal types e' = true /\ plain e' = true /\
    expr_transform types e' c = Ok (e', c) /\
    (not_free e = true -> not_free e' = true -> forall flags v, symbols_ok types flags v ->
       value types tri_not v e' = value types tri_not v e) /\
    (forall v, below_yes v e -> value types tri_not v e' = value types tri_not v e)) c.
Proof.
  intros P. pose proof (wp_transform types (fun _ => 0) (S (weight e)) e c P ltac:(lia)) as H.
  apply wp_elim in H as (e' & c' & Hrun & -> & _ & _ & P' & N'). eapply wp_intro; [exact Hrun|].
  split_and!; try done; [by apply transform_normal; [..|lia]| |intros v Hv; by eapply transform_below_yes]. intros F F' flags v Hv.
  rewrite (value_not_free _ _ _ e' F'), (value_not_free _ _ _ e F).
  pose proof (expr_transform_equiv types flags e c P) as H. unfold wp, expr_transform in H. rewrite Hrun in H.
  symmetry. by apply H.
Qed.

(** [expr_eq] ends, leaves the counter as it was, and two expressions that it takes
    for equal have the same value for all values of the symbols. *)
Theorem expr_eq_sound types flags e1 e2 c : plain e1 = true -> plain e2 = true ->
  wp (expr_eq flags e1 e2) (fun r c' => c' = c /\ (r = true -> same_value types flags e1 e2)) c.
Proof.
  intros P1 P2. unfold expr_eq. eapply wp_mono; [apply (eq_specs types flags); [done|done|unfold eq_fuel; lia]|].
  intros r c' [-> E]. split; [done|]. intros Hr. by apply equiv_same, E.
Qed.

(** [expr_eliminate_eq] ends, and takes the same from both: whenever what is left has
    equal values, the expressions had. *)
Theorem expr_eliminate_eq_shared types flags e1 e2 c : plain e1 = true -> plain e2 = true ->
  wp (expr_eliminate_eq flags (Some e1) (Some e2)) (fun r _ => exists e1' e2', r = (Some e1', Some e2') /\
    plain e1' = true /\ plain e2' = true /\
    forall v, symbols_ok types flags v -> value types neg3 v e1' = value types neg3 v e2' ->
      value types neg3 v e1 = value types neg3 v e2) c.
Proof.
  intros P1 P2. unfold expr_eliminate_eq. wp_simpl.
  eapply wp_mono; [apply (eq_specs types flags); [done|done|unfold eq_fuel; lia]|].
  intros [e1' e2'] c' (S & P1' & P2'). wp_simpl. exists e1', e2'. split_and!; [done..|]. intros v Hv E.
  rewrite <- !(value_no_metapack types neg3 v) in * by done. destruct (S _ Hv) as (f & -> & ->). by rewrite E.
Qed.

(** The nodes that [expr_free] does not free: the negations. *)
Fixpoint negations (e : expr) : nat :=
  match e with
  | Not a => S (negations a)
  | And a b | Or a b => negations a + negations b
  | _ => 0
  end.
Theorem expr_free_leaks (e : expr) : size e = (expr_free e + negations e)%nat.
Proof. induction e as [x|a IHa|l r|l r|a IHa b IHb|a IHa b IHb|o x|l r]; cbn; lia. Qed.

(** The code's own negation is [2 - x] for values from 0 to 3: of [y] it is the
    largest unsigned number, above all values, and of [n] it is [metapack]; so a
    transformed expression can have another value than the expression. *)
Theorem expr_not_out_of_range types v e :
  (value types tri_not v e = tri_yes -> value types tri_not v (Not e) = 2 ^ 32 - 1) /\
  (value types tri_not v e = tri_no -> value types tri_not v (Not e) = tri_metapack) /\
  (tri v symbol_no = tri_no -> tri v symbol_yes = tri_yes ->
    exists e', expr_transform types (Not (Sym symbol_no)) 0 = Ok (e', 0) /\
      value types tri_not v e' <> value types tri_not v (Not (Sym symbol_no))).
Proof.
  cbn [value]. split_and!; [by intros ->|by intros ->|]. intros E1 E2. exists (Sym symbol_yes). split; [done|].
  cbn. by rewrite E1, E2.
Qed.

(** [expr_trans_bool] keeps whether an expression without negation is [n]; [m] may
    become [y]. *)
Lemma trans_bool_truth types flags v e : val_ok types flags v -> not_free e = true ->
  value types neg3 v (trans_bool types e) = tri_no <-> value types neg3 v e = tri_no.
Proof.
  intros Hv. induction e as [x|a IHa|l r|l r|a IHa b IHb|a IHa b IHb|o x|l r]; cbn [trans_bool not_free]; try done.
  - intros _. repeat case_bool_decide; subst; cbn; try done. unfold compare, sym_get_string_value. rewrite H.
    destruct (vo_no _ _ v Hv) as [_ E]. cbn. rewrite E. by destruct (vo_tri _ _ v Hv l) as [->|[->| ->]].
  - intros [Ha%IHa Hb%IHb]%andb_true_iff. cbn.
    pose proof (value_three types flags v (trans_bool types a) Hv) as [X|[X|X]]; rewrite X in *;
    pose proof (value_three types flags v (trans_bool types b) Hv) as [Y|[Y|Y]]; rewrite Y in *;
    pose proof (value_three types flags v a Hv) as [Z|[Z|Z]]; rewrite Z in *;
    pose proof (value_three types flags v b Hv) as [W|[W|W]]; rewrite W in *;
    cbv in Ha, Hb |- *; intuition congruence.
  - intros [Ha%IHa Hb%IHb]%andb_true_iff. cbn.
    pose proof (value_three types flags v (trans_bool types a) Hv) as [X|[X|X]]; rewrite X in *;
    pose proof (value_three types flags v (trans_bool types b) Hv) as [Y|[Y|Y]]; rewrite Y in *;
    pose proof (value_three types flags v a Hv) as [Z|[Z|Z]]; rewrite Z in *;
    pose proof (value_three types flags v b Hv) as [W|[W|W]]; rewrite W in *;
    cbv in Ha, Hb |- *; intuition congruence.
Qed.

(** ** An example: the symbols 1 and 2 are tristate, 3 and 4 are boolean *)
Definition demo_types (p : Z) : symbol_type :=
  if (p =? 1) || (p =? 2) then S_TRISTATE else if (p =? 3) || (p =? 4) then S_BOOLEAN else S_UNKNOWN.
Definition demo_val : valuation :=
  mk_val (fun s => match s with
                   | symbol_yes => tri_yes | symbol_mod => tri_mod | symbol_metapack => tri_metapack
                   | sym_at p => if p =? 1 then tri_mod else if (p =? 2) || (p =? 3) then tri_yes else tri_no
                   | _ => tri_no
                   end)
         (fun s => match s with
                   | symbol_yes => chars "y" | symbol_mod => chars "m" | symbol_metapack => chars "p" | symbol_no => chars "n"
                   | _ => []
                   end).
Lemma demo_ok : symbols_ok demo_types (fun _ => 0) demo_val.
Proof.
  split; try done.
  - intros []; cbn; unfold three; try tauto. repeat (destruct (_ =? _)); tauto.
  - intros [| | | | |p] Hp; try done. cbn [sym_type] in Hp. unfold demo_types in Hp. cbn.
    destruct (Z.eqb_spec p 1) as [E|E]; [by rewrite E in Hp|]. by destruct ((p =? 2) || (p =? 3)).
  - by intros [] [].
Qed.

Definition a1 : expr := Sym (sym_at 1).
Definition a2 : expr := Sym (sym_at 2).
Definition a3 : expr := Sym (sym_at 3).

Lemma expr_transform_equiv_witness :
  wp (expr_transform demo_types (Not (Or a1 (Not (Equal (sym_at 3) symbol_no))))) (fun e' _ =>
    value demo_types neg3 demo_val e' = tri_no) 0.
Proof.
  eapply wp_mono; [apply (expr_transform_equiv demo_types (fun _ => 0) (Not (Or a1 (Not (Equal (sym_at 3) symbol_no)))) 0)|].
  - reflexivity.
  - intros e' c' [_ E]. rewrite <- (E demo_val demo_ok). reflexivity.
Defined.

Lemma expr_transform_normal_witness :
  let e := And (Unequal (sym_at 3) symbol_no) (Or a1 (Equal (sym_at 4) symbol_yes)) in
  let e' := And a3 (Or a1 (Sym (sym_at 4))) in
  expr_transform demo_types e 0 = Ok (e', 0) /\ expr_transform demo_types e' 0 = Ok (e', 0) /\
  value demo_types tri_not demo_val e' = value demo_types tri_not demo_val e /\
  wp (expr_transform demo_types (Not (Or a1 (Not (Sym (sym_at 5)))))) (fun d _ => value demo_types tri_not demo_val d = tri_no) 0.
Proof.
  intros e e'. assert (Hrun : expr_transform demo_types e 0 = Ok (e', 0)) by reflexivity. split; [exact Hrun|].
  pose proof (expr_transform_normal demo_types e 0 eq_refl) as W. unfold wp in W. rewrite Hrun in W.
  destruct W as (_ & _ & _ & E & V). split; [exact E|]. destruct V as [V _]. split; [exact (V eq_refl eq_refl (fun _ => 0) demo_val demo_ok)|].
  eapply wp_mono; [apply (expr_transform_normal demo_types (Not (Or a1 (Not (Sym (sym_at 5))))) 0); reflexivity|].
  intros d c' (_ & _ & _ & _ & _ & B). rewrite B; [reflexivity|]. cbn. unfold tri_mod, tri_no, tri_yes. lia.
Defined.

Lemma expr_eq_sound_witness : same_value demo_types (fun _ => 0) (And a1 (And a2 a3)) (And (And a3 a1) a2).
Proof.
  assert (H : wp (expr_eq (fun _ => 0) (And a1 (And a2 a3)) (And (And a3 a1) a2)) (fun r c' => c' = 0 /\
    (r = true -> same_value demo_types (fun _ => 0) (And a1 (And a2 a3)) (And (And a3 a1) a2))) 0).
  { apply (expr_eq_sound demo_types (fun _ => 0) (And a1 (And a2 a3)) (And (And a3 a1) a2) 0); reflexivity. }
  apply (proj2 H). reflexivity.
Defined.

Lemma expr_eliminate_eq_shared_witness :
  wp (expr_eliminate_eq (fun _ => 0) (Some (Or a1 a2)) (Some (Or a2 a3))) (fun r _ => exists e1' e2', r = (Some e1', Some e2')) 0.
Proof.
  eapply wp_mono; [apply (expr_eliminate_eq_shared demo_types (fun _ => 0) (Or a1 a2) (Or a2 a3) 0); reflexivity|].
  intros r c' (e1' & e2' & -> & _). by exists e1', e2'.
Defined.

Lemma expr_not_out_of_range_witness : value demo_types tri_not demo_val (Not a2) = 4294967295.
Proof. apply (proj1 (expr_not_out_of_range demo_types demo_val a2)). reflexivity. Defined.
