(* ===== verification/Kdups.v ===== *)
(** * scripts/kconfig/expr.c: joining operands and removing duplicates

    [expr_eliminate_dups1] and [expr_eliminate_dups2] get two pointers into one
    tree, which may be the same or one above the other: here they are two paths
    in the tree.  Nodes are not shared, so that the pointers are equal exactly if
    the paths are. *)

From stdpp Require Import strings.
From S2P Require Import Prelude Str Bytes Printk Kexpr.

Section Dups.
Context (types : Z -> symbol_type) (flags : Z -> Z).
Notation sym_type := (sym_type types).
Notation has_flag := (has_flag flags).
Notation expr_eq := (expr_eq flags).

(** ** Joining two operands *)

(** [sym1] and [sym2] of [expr_join_or] and [expr_join_and]; [None] returns
    [NULL].  The second operand may be the negation of a symbol only. *)
Definition join_sym1 (e1 : expr) : option symbol :=
  match e1 with
  | Sym s | Equal s _ | Unequal s _ => Some s
  | Not (Sym s) | Not (Equal s _) | Not (Unequal s _) => Some s
  | _ => None
  end.
Definition join_sym2 (e2 : expr) : option symbol :=
  match e2 with
  | Sym s | Equal s _ | Unequal s _ => Some s
  | Not (Sym s) => Some s
  | _ => None
  end.
Definition join_sym (e1 e2 : expr) : option symbol :=
  match join_sym1 e1, join_sym2 e2 with
  | Some s1, Some s2 =>
      if bool_decide (s1 = s2) && (bool_decide (sym_type s1 = S_BOOLEAN) || bool_decide (sym_type s1 = S_TRISTATE))
      then Some s1 else None
  | _, _ => None
  end.

(** One of the two is [x] and the other [y]. *)
Definition pair_is (l r x y : symbol) : bool :=
  (bool_decide (l = x) && bool_decide (r = y)) || (bool_decide (l = y) && bool_decide (r = x)).

Definition join_or_rules (s : symbol) (e1 e2 : expr) : option expr :=
  match sym_type s, e1, e2 with
  | S_TRISTATE, Equal _ r1, Equal _ r2 =>
      if pair_is r1 r2 symbol_yes symbol_mod then Some (Unequal s symbol_no)
      else if pair_is r1 r2 symbol_yes symbol_no then Some (Unequal s symbol_mod)
      else if pair_is r1 r2 symbol_mod symbol_no then Some (Unequal s symbol_yes)
      else None
  | S_BOOLEAN, Not (Sym _), Sym _ | S_BOOLEAN, Sym _, Not (Sym _) => Some (Sym symbol_yes)
  | _, _, _ => None
  end.

Definition expr_join_or (e1 e2 : expr) : M Z (option expr) :=
  r <- expr_eq e1 e2 ;;
  if r : bool then c <- expr_copy e1 ;; ret (Some c) else
  ret (match join_sym e1 e2 with None => None | Some s => join_or_rules s e1 e2 end).

(** [(a='b') && (a!='c')], in both orders: [b] and [c] *)
Definition join_and_const (s b c : symbol) : option expr :=
  if has_flag c SYMBOL_CONST && has_flag b SYMBOL_CONST
  then Some (if bool_decide (b <> c) then Equal s b else Sym symbol_no) else None.

Definition join_and_tristate (s : symbol) (e1 e2 : expr) : option expr :=
  match e1, e2 with
  | Equal _ b, Unequal _ c => join_and_const s b c
  | Unequal _ c, Equal _ b => join_and_const s b c
  | Unequal _ r1, Unequal _ r2 =>
      if pair_is r1 r2 symbol_yes symbol_no then Some (Equal s symbol_mod)
      else if pair_is r1 r2 symbol_yes symbol_mod then Some (Equal s symbol_no)
      else if pair_is r1 r2 symbol_mod symbol_no then Some (Equal s symbol_yes)
      else None
  | _, _ => None
  end.

Definition join_and_rules (s : symbol) (e1 e2 : expr) : option expr :=
  match e1, e2 with
  | Sym _, Equal _ symbol_yes | Equal _ symbol_yes, Sym _ => Some (Equal s symbol_yes)
  | Sym _, Unequal _ symbol_no | Unequal _ symbol_no, Sym _ => Some (Sym s)
  | Sym _, Unequal _ symbol_mod | Unequal _ symbol_mod, Sym _ => Some (Equal s symbol_yes)
  | _, _ => if bool_decide (sym_type s = S_TRISTATE) then join_and_tristate s e1 e2 else None
  end.

Definition expr_join_and (e1 e2 : expr) : M Z (option expr) :=
  r <- expr_eq e1 e2 ;;
  if r : bool then c <- expr_copy e1 ;; ret (Some c) else
  ret (match join_sym e1 e2 with None => None | Some s => join_and_rules s e1 e2 end).

(** ** Extracting common operands *)

(** [ep] is what was extracted before. *)
Fixpoint extract_eq (n : nat) (t : expr_type) (ep : option expr) (e1 e2 : expr) : M Z (option expr * expr * expr) :=
  match n with
  | O => fail OutOfFuel
  | S n =>
      match parts t e1, parts t e2 with
      | Some (a, b), _ =>
          ' (ep, a, e2) <- extract_eq n t ep a e2 ;;
          ' (ep, b, e2) <- extract_eq n t ep b e2 ;;
          ret (ep, expr_alloc_two t a b, e2)
      | None, Some (a, b) =>
          ' (ep, e1, a) <- extract_eq n t ep e1 a ;;
          ' (ep, e1, b) <- extract_eq n t ep e1 b ;;
          ret (ep, e1, expr_alloc_two t a b)
      | None, None =>
          r <- expr_eq e1 e2 ;;
          if r : bool
          then ret (Some (match ep with Some e => expr_alloc_two t e e1 | None => e1 end), neutral t, neutral t)
          else ret (ep, e1, e2)
      end
  end.
Definition expr_extract_eq (t : expr_type) (ep : option expr) (e1 e2 : expr) : M Z (option expr * expr * expr) :=
  extract_eq (size e1 + size e2) t ep e1 e2.

Definition expr_extract_eq_and (e1 e2 : expr) : M Z (option expr * expr * expr) :=
  ' (tmp, e1, e2) <- expr_extract_eq E_AND None e1 e2 ;;
  ret (match tmp with Some _ => (tmp, eliminate_yn e1, eliminate_yn e2) | None => (tmp, e1, e2) end).
Definition expr_extract_eq_or (e1 e2 : expr) : M Z (option expr * expr * expr) :=
  ' (tmp, e1, e2) <- expr_extract_eq E_OR None e1 e2 ;;
  ret (match tmp with Some _ => (tmp, eliminate_yn e1, eliminate_yn e2) | None => (tmp, e1, e2) end).

(** ** The tree as a store *)

(** A pointer to the node that a path leads to: [true] is [left], [false] is
    [right]. *)
Fixpoint at_path (e : expr) (p : list bool) {struct p} : option expr :=
  match p, e with
  | [], _ => Some e
  | b :: p, And l r | b :: p, Or l r => at_path (if b : bool then l else r) p
  | _, _ => None
  end.
Fixpoint put_path (e : expr) (p : list bool) (x : expr) {struct p} : expr :=
  match p, e with
  | [], _ => x
  | b :: p, And l r => if b : bool then And (put_path l p x) r else And l (put_path r p x)
  | b :: p, Or l r => if b : bool then Or (put_path l p x) r else Or l (put_path r p x)
  | _, _ => e
  end.

(** The state: the tree that both pointers lead into, and [trans_count]. *)
Definition dst : Type := expr * Z.
Definition rd_path (p : list bool) : M dst expr := s <- gets fst ;; lift_opt NullDeref (at_path s p).
Definition wr_path (p : list bool) (x : expr) : M dst unit := modify (fun s => (put_path s.1 p x, s.2)).
Definition counting {A} (m : M Z A) : M dst A := zoom snd (fun c s => (s.1, c)) m.
Definition count_up : M dst unit := counting (modify (fun c => s32 (c + 1))).
(** A routine on the tree below a path *)
Definition below {A} (p : list bool) (m : M dst A) : M dst A :=
  e <- rd_path p ;;
  c <- gets snd ;;
  match m (e, c) with
  | Ok (a, (e', c')) => wr_path p e' ;;; modify (fun s => (s.1, c')) ;;; ret a
  | Err f => fail f
  end.

Definition is_oper (e : expr) : bool := match e with Or _ _ | And _ _ => true | _ => false end.

(** ** Duplicates *)

Fixpoint eliminate_dups1 (n : nat) (t : expr_type) (p1 p2 : list bool) : M dst unit :=
  match n with
  | O => fail OutOfFuel
  | S n =>
      e1 <- rd_path p1 ;; e2 <- rd_path p2 ;;
      if bool_decide (type e1 = t) then
        eliminate_dups1 n t (p1 ++ [true]) p2 ;;; eliminate_dups1 n t (p1 ++ [false]) p2
      else if bool_decide (type e2 = t) then
        eliminate_dups1 n t p1 (p2 ++ [true]) ;;; eliminate_dups1 n t p1 (p2 ++ [false])
      else if bool_decide (p1 = p2) then ret tt else
      (if is_oper e1 then below p1 (eliminate_dups1 n (type e1) [] []) else ret tt) ;;;
      e1 <- rd_path p1 ;; e2 <- rd_path p2 ;;
      tmp <- counting (if bool_decide (t = E_OR) then expr_join_or e1 e2 else expr_join_and e1 e2) ;;
      match tmp with
      | Some tmp => wr_path p1 (neutral t) ;;; wr_path p2 tmp ;;; count_up
      | None => ret tt
      end
  end.

(** Whether the negation of [e1], all of its operands found in [e2], leaves a
    constant: then [e1] becomes one. *)
Definition negation_in (t : expr_type) (e1 e2 : expr) : M Z bool :=
  c1 <- expr_copy e1 ;;
  tmp1 <- expr_transform types (Not c1) ;;
  tmp2 <- expr_copy e2 ;;
  match t with
  | E_OR => ' (_, tmp1, _) <- expr_extract_eq_and tmp1 tmp2 ;; ret (expr_is_yes (Some tmp1))
  | _ => ' (_, tmp1, _) <- expr_extract_eq_or tmp1 tmp2 ;; ret (expr_is_no (Some tmp1))
  end.

Fixpoint eliminate_dups2 (n : nat) (t : expr_type) (p1 p2 : list bool) : M dst unit :=
  match n with
  | O => fail OutOfFuel
  | S n =>
      e1 <- rd_path p1 ;; e2 <- rd_path p2 ;;
      if bool_decide (type e1 = t) then
        eliminate_dups2 n t (p1 ++ [true]) p2 ;;; eliminate_dups2 n t (p1 ++ [false]) p2
      else
      (if bool_decide (type e2 = t) then
         eliminate_dups2 n t p1 (p2 ++ [true]) ;;; eliminate_dups2 n t p1 (p2 ++ [false])
       else ret tt) ;;;
      if bool_decide (p1 = p2) then ret tt else
      e1 <- rd_path p1 ;;
      let t1 := type e1 in
      if is_oper e1 then
        below p1 (eliminate_dups2 n t1 [] []) ;;;
        e1 <- rd_path p1 ;; e2 <- rd_path p2 ;;
        r <- counting (negation_in t1 e1 e2) ;;
        if r : bool then
          wr_path p1 (match t1 with E_OR => Sym symbol_no | _ => Sym symbol_yes end) ;;; count_up
        else ret tt
      else ret tt
  end.

(** Below every operator there are at most twice the nodes of the tree to go
    through. *)
Definition dups_fuel (e : expr) : nat := (2 * size e + 2) * (size e + 1).

Definition dups_passes (e : expr) : M dst unit :=
  eliminate_dups1 (dups_fuel e) (type e) [] [] ;;;
  t <- gets (fun s => type s.1) ;; s <- gets fst ;;
  eliminate_dups2 (dups_fuel s) t [] [].

(** A turn of [while (1)]: [inr] leaves it. *)
Definition dups_turn (e : expr) : M Z (expr + expr) :=
  modify (fun _ => 0) ;;;
  e' <- (if is_oper e then
           c <- gets id ;;
           match dups_passes e (e, c) with
           | Ok (_, (e', c')) => modify (fun _ => c') ;;; ret e'
           | Err f => fail f
           end
         else ret e) ;;
  c <- gets id ;;
  if c =? 0 then ret (inr e') else ret (inl (eliminate_yn e')).

(** Every turn but the last makes the expression smaller. *)
Definition expr_eliminate_dups (e : option expr) : M Z (option expr) :=
  match e with
  | None => ret None
  | Some e =>
      oldcount <- gets id ;;
      e <- loop (S (size e)) dups_turn e ;;
      modify (fun _ => oldcount) ;;;
      ret (Some e)
  end.
End Dups.

(** ** Joining keeps the value *)

Section JoinSpec.
Context (types : Z -> symbol_type) (flags : Z -> Z).
Notation val_ok := (val_ok types flags).
Notation "e ≃ e'" := (equiv types flags e e') (at level 70).

(** A boolean or tristate symbol compared with [n], [m] or [y] *)
Lemma log_equal v s r : val_ok v -> sym_type types s = S_BOOLEAN \/ sym_type types s = S_TRISTATE -> logical r = true ->
  compare types v s r = (tri v s =? tri v r).
Proof.
  intros Hv Hs Hr. unfold compare. destruct (const_string types flags v Hv) as (E1 & E2 & E3).
  assert (E : sym_get_string_value types v s = default (val v s) (tri_string (tri v s))).
  { unfold sym_get_string_value. by destruct Hs as [-> | ->]. }
  rewrite E. destruct (vo_yes _ _ v Hv) as [T1 _], (vo_mod _ _ v Hv) as [T2 _], (vo_no _ _ v Hv) as [T3 _].
  destruct (vo_tri _ _ v Hv s) as [H|[H|H]]; rewrite H; destruct r; try done; rewrite ?E1, ?E2, ?E3, ?T1, ?T2, ?T3; done.
Qed.

Lemma join_sym_some e1 e2 s : join_sym types e1 e2 = Some s ->
  join_sym1 e1 = Some s /\ join_sym2 e2 = Some s /\ (sym_type types s = S_BOOLEAN \/ sym_type types s = S_TRISTATE).
Proof.
  unfold join_sym. destruct (join_sym1 e1) as [s1|]; [|done]. destruct (join_sym2 e2) as [s2|]; [|done].
  repeat case_bool_decide; cbn; try done; intros [= <-]; subst; tauto.
Qed.

(** One part of the value of two comparisons of one symbol *)
Ltac by_values v Hv s :=
  intros v Hv; cbn; rewrite ?(log_equal v s) by (done || tauto);
  destruct (vo_yes _ _ v Hv) as [T1 _], (vo_mod _ _ v Hv) as [T2 _], (vo_no _ _ v Hv) as [T3 _];
  rewrite ?T1, ?T2, ?T3; pose proof (vo_bool _ _ v Hv s) as Hb;
  destruct (vo_tri _ _ v Hv s) as [Ht|[Ht|Ht]]; rewrite ?Ht in *; first [done|exfalso; tauto].

Lemma pair_is_true l r x y : pair_is l r x y = true -> (l = x /\ r = y) \/ (l = y /\ r = x).
Proof. unfold pair_is. repeat case_bool_decide; cbn; try done; tauto. Qed.

Lemma join_or_rules_equiv s e1 e2 tmp :
  join_sym types e1 e2 = Some s -> join_or_rules types s e1 e2 = Some tmp -> Or e1 e2 ≃ tmp.
Proof.
  intros (J1 & J2 & Hs)%join_sym_some. unfold join_or_rules.
  destruct (sym_type types s) eqn:Es; try done.
  - destruct e1 as [x1|[]| | | | | |]; try done; destruct e2 as [x2|[]| | | | | |]; try done;
      cbn in J1, J2; intros [= <-]; simplify_eq; by_values v Hv s.
  - destruct e1 as [| |l1 r1| | | | |]; try done; destruct e2 as [| |l2 r2| | | | |]; try done.
    cbn in J1, J2. simplify_eq.
    destruct (pair_is r1 r2 symbol_yes symbol_mod) eqn:P1; [|destruct (pair_is r1 r2 symbol_yes symbol_no) eqn:P2;
      [|destruct (pair_is r1 r2 symbol_mod symbol_no) eqn:P3; [|done]]]; intros [= <-].
    + apply pair_is_true in P1 as [[-> ->]|[-> ->]]; by_values v Hv s.
    + apply pair_is_true in P2 as [[-> ->]|[-> ->]]; by_values v Hv s.
    + apply pair_is_true in P3 as [[-> ->]|[-> ->]]; by_values v Hv s.
Qed.

Lemma join_and_const_equiv s b c tmp : join_and_const flags s b c = Some tmp -> And (Equal s b) (Unequal s c) ≃ tmp.
Proof.
  unfold join_and_const. destruct (_ && _) eqn:E; [|done]. apply andb_true_iff in E as [Fc Fb]. intros [= <-] v Hv.
  cbn. case_bool_decide as Hbc; cbn; unfold compare.
  - destruct (decide (sym_get_string_value types v s = sym_get_string_value types v b)) as [E1|E1].
    + rewrite !(bool_decide_true _ E1). rewrite bool_decide_false; [done|]. intros E2. apply Hbc.
      apply (vo_const _ _ v Hv); [done|done|congruence].
    + rewrite !(bool_decide_false _ E1). by destruct (bool_decide _).
  - rewrite (proj1 (vo_no _ _ v Hv)). assert (b = c) as -> by (destruct (decide (b = c)); tauto). by destruct (bool_decide _).
Qed.

Lemma join_and_tristate_equiv s e1 e2 tmp :
  join_sym types e1 e2 = Some s -> join_and_tristate flags s e1 e2 = Some tmp -> And e1 e2 ≃ tmp.
Proof.
  intros (J1 & J2 & Hs)%join_sym_some. unfold join_and_tristate.
  destruct e1 as [| |l1 r1|l1 r1| | | |]; try done; destruct e2 as [| |l2 r2|l2 r2| | | |]; try done;
    cbn in J1, J2; simplify_eq.
  - by apply join_and_const_equiv.
  - intros Hc%join_and_const_equiv. rewrite <- Hc. apply (N_comm _ _ E_AND).
  - destruct (pair_is r1 r2 symbol_yes symbol_no) eqn:P1; [|destruct (pair_is r1 r2 symbol_yes symbol_mod) eqn:P2;
      [|destruct (pair_is r1 r2 symbol_mod symbol_no) eqn:P3; [|done]]]; intros [= <-].
    + apply pair_is_true in P1 as [[-> ->]|[-> ->]]; by_values v Hv s.
    + apply pair_is_true in P2 as [[-> ->]|[-> ->]]; by_values v Hv s.
    + apply pair_is_true in P3 as [[-> ->]|[-> ->]]; by_values v Hv s.
Qed.

(** The six rules on a symbol and a comparison of it *)
Lemma join_and_symbol s : sym_type types s = S_BOOLEAN \/ sym_type types s = S_TRISTATE ->
  And (Sym s) (Equal s symbol_yes) ≃ Equal s symbol_yes /\ And (Sym s) (Unequal s symbol_no) ≃ Sym s /\
  And (Sym s) (Unequal s symbol_mod) ≃ Equal s symbol_yes.
Proof. intros Hs. split_and!; by_values v Hv s. Qed.

Lemma join_and_rules_equiv s e1 e2 tmp :
  join_sym types e1 e2 = Some s -> join_and_rules types flags s e1 e2 = Some tmp -> And e1 e2 ≃ tmp.
Proof.
  intros J. pose proof J as (J1 & J2 & Hs)%join_sym_some. destruct (join_and_symbol s Hs) as (A1 & A2 & A3).
  assert (Htri : (if bool_decide (sym_type types s = S_TRISTATE) then join_and_tristate flags s e1 e2 else None) = Some tmp ->
    And e1 e2 ≃ tmp).
  { case_bool_decide; [|done]. by apply join_and_tristate_equiv. }
  unfold join_and_rules.
  destruct e1 as [x1| |l1 r1|l1 r1| | | |]; try exact Htri; destruct e2 as [x2| |l2 r2|l2 r2| | | |]; try exact Htri;
    try (destruct r1; exact Htri); cbn in J1, J2; simplify_eq.
  - destruct r2; try exact Htri. intros [= <-]. exact A1.
  - destruct r2; try exact Htri; intros [= <-]; [exact A3|exact A2].
  - destruct r1; try exact Htri. intros [= <-]. etransitivity; [apply (N_comm _ _ E_AND)|exact A1].
  - destruct r1; try exact Htri; intros [= <-]; (etransitivity; [apply (N_comm _ _ E_AND)|]); first [exact A3|exact A2].
Qed.

(** No symbol in it is [m]; when [pos] is set there is no negation in it either. *)
Fixpoint two (pos : bool) (v : valuation) (e : expr) : Prop :=
  match e with
  | Sym s => tri v s <> tri_mod
  | Not a => pos = false /\ two pos v a
  | And a b | Or a b => two pos v a /\ two pos v b
  | _ => True
  end.

(** What joining gives *)
Definition joined (t : expr_type) (e1 e2 tmp : expr) : Prop :=
  expr_alloc_two t e1 e2 ≃ tmp /\ (size tmp <= size e1)%nat /\ plain tmp = true /\
  (tmp = e1 \/ is_oper tmp = false) /\ (forall pos v, val_ok v -> two pos v e1 -> two pos v e2 -> two pos v tmp).

Lemma wp_expr_eq e1 e2 c : plain e1 = true -> plain e2 = true ->
  wp (expr_eq flags e1 e2) (fun r c' => c' = c /\ (r = true -> e1 ≃ e2)) c.
Proof. intros P1 P2. unfold expr_eq. apply eq_specs; [done|done|unfold eq_fuel; lia]. Qed.

Lemma join_or_rules_small s e1 e2 tmp : join_sym types e1 e2 = Some s -> join_or_rules types s e1 e2 = Some tmp ->
  size tmp = 1%nat /\ plain tmp = true /\ is_oper tmp = false /\ (forall pos v, val_ok v -> two pos v tmp).
Proof.
  intros _. unfold join_or_rules. destruct (sym_type types s); try done.
  - destruct e1 as [x1|[]| | | | | |]; try done; destruct e2 as [x2|[]| | | | | |]; try done; intros [= <-];
      (split_and!; [done..|]); intros pos v Hv; cbn; by rewrite (proj1 (vo_yes _ _ v Hv)).
  - destruct e1; try done; destruct e2; try done. repeat (destruct (pair_is _ _ _ _)); intros [= <-]; by split_and!.
Qed.

Lemma join_and_tristate_small s e1 e2 tmp : join_and_tristate flags s e1 e2 = Some tmp ->
  size tmp = 1%nat /\ plain tmp = true /\ is_oper tmp = false /\ (forall pos v, val_ok v -> two pos v tmp).
Proof.
  unfold join_and_tristate, join_and_const. destruct e1; try done; destruct e2; try done.
  1-2: destruct (_ && _); [|done]; case_bool_decide; intros [= <-]; (split_and!; [done..|]); intros pos v Hv; cbn; try done;
    by rewrite (proj1 (vo_no _ _ v Hv)).
  repeat (destruct (pair_is _ _ _ _)); intros [= <-]; by split_and!.
Qed.

Lemma join_and_rules_small s e1 e2 tmp : join_sym types e1 e2 = Some s -> join_and_rules types flags s e1 e2 = Some tmp ->
  size tmp = 1%nat /\ plain tmp = true /\ is_oper tmp = false /\
  (forall pos v, val_ok v -> two pos v e1 -> two pos v e2 -> two pos v tmp).
Proof.
  intros (J1 & J2 & Hs)%join_sym_some. unfold join_and_rules.
  assert (Pl : plain (Sym s) = true) by (destruct s; try done; by destruct Hs).
  assert (Htri : (if bool_decide (sym_type types s = S_TRISTATE) then join_and_tristate flags s e1 e2 else None) = Some tmp ->
    size tmp = 1%nat /\ plain tmp = true /\ is_oper tmp = false /\
    (forall pos v, val_ok v -> two pos v e1 -> two pos v e2 -> two pos v tmp)).
  { case_bool_decide; [|done]. intros (A & B & C & D)%join_and_tristate_small. split_and!; auto. }
  destruct e1 as [x1| |l1 r1|l1 r1| | | |]; try exact Htri; destruct e2 as [x2| |l2 r2|l2 r2| | | |]; try exact Htri;
    try (destruct r1; exact Htri); cbn in J1, J2; simplify_eq.
  - destruct r2; try exact Htri. intros [= <-]. by split_and!.
  - destruct r2; try exact Htri; intros [= <-]; by split_and!.
  - destruct r1; try exact Htri. intros [= <-]. by split_and!.
  - destruct r1; try exact Htri; intros [= <-]; by split_and!.
Qed.

Lemma wp_join_expr t e1 e2 c : oper t -> plain e1 = true -> plain e2 = true ->
  wp (if bool_decide (t = E_OR) then expr_join_or types flags e1 e2 else expr_join_and types flags e1 e2)
    (fun r c' => c' = c /\ match r with Some tmp => joined t e1 e2 tmp | None => True end) c.
Proof.
  intros Ht P1 P2.
  assert (Hcopy : forall k, (e1 ≃ e2 -> joined t e1 e2 e1) -> (forall c', c' = c -> wp (ret k) (fun r c' => c' = c /\ match r with Some tmp => joined t e1 e2 tmp | None => True end) c') ->
    wp (r <- expr_eq flags e1 e2 ;; if r : bool then c <- expr_copy e1 ;; ret (Some c) else ret k)
      (fun r c' => c' = c /\ match r with Some tmp => joined t e1 e2 tmp | None => True end) c).
  { intros k Hj Hk. wp_simpl. eapply wp_mono; [by apply wp_expr_eq|]. intros [] c' [-> He]; [|by apply Hk].
    wp_simpl. apply wp_expr_copy; [done|]. wp_simpl. split; [done|]. by apply Hj, He. }
  assert (Hj : e1 ≃ e2 -> joined t e1 e2 e1).
  { intros E. split_and!; [|done|done|by left|done]. rewrite <- E. apply N_idem. }
  pose proof (size_pos e1) as Hpos.
  destruct Ht as [->| ->]; [rewrite bool_decide_true by done|rewrite bool_decide_false by done];
    (apply Hcopy; [done|]); intros c' ->; wp_simpl; (split; [done|]); destruct (join_sym types e1 e2) as [s|] eqn:J; try done.
  - destruct (join_or_rules types s e1 e2) as [tmp|] eqn:R; [|done]. destruct (join_or_rules_small _ _ _ _ J R) as (S1 & S2 & S3 & S4).
    split_and!; [by eapply join_or_rules_equiv|lia|done|by right|auto].
  - destruct (join_and_rules types flags s e1 e2) as [tmp|] eqn:R; [|done]. destruct (join_and_rules_small _ _ _ _ J R) as (S1 & S2 & S3 & S4).
    split_and!; [by eapply join_and_rules_equiv|lia|done|by right|auto].
Qed.

(** ** Extraction *)

(** [x] was taken from both and put behind what was extracted before. *)
Definition extracted (t : expr_type) (ep : option expr) (e1 e2 : expr) (ep' : option expr) (e1' e2' : expr) : Prop :=
  (exists x, default (neutral t) ep' ≃ expr_alloc_two t (default (neutral t) ep) x /\
     e1 ≃ expr_alloc_two t x e1' /\ e2 ≃ expr_alloc_two t x e2') /\
  (size e1' <= size e1)%nat /\ (size e2' <= size e2)%nat /\ plain e1' = true /\ plain e2' = true.

Lemma extracted_swap t ep e1 e2 ep' e1' e2' : extracted t ep e1 e2 ep' e1' e2' -> extracted t ep e2 e1 ep' e2' e1'.
Proof. intros [(x & X0 & X1 & X2) (S1 & S2 & P1 & P2)]. split_and!; try done. by exists x. Qed.
Lemma extracted_taken t ep e1 e2 ep' e1' e2' : extracted t ep e1 e2 ep' e1' e2' -> taken types flags t e1 e2 e1' e2'.
Proof. intros [(x & X0 & X1 & X2) H]. split; [by exists x|done]. Qed.

Lemma extracted_left t ep a b e2 ep' ep'' a' b' e2' e2'' :
  extracted t ep a e2 ep' a' e2' -> extracted t ep' b e2' ep'' b' e2'' ->
  extracted t ep (expr_alloc_two t a b) e2 ep'' (expr_alloc_two t a' b') e2''.
Proof.
  intros [(x & X0 & X1 & X2) (S1 & S2 & P1 & P2)] [(y & Y0 & Y1 & Y2) (S3 & S4 & P3 & P4)].
  split_and!; rewrite ?size_N, ?plain_N, ?P1, ?P3; try done; try lia.
  exists (expr_alloc_two t x y). split_and!.
  - by rewrite Y0, X0, N_assoc.
  - rewrite X1, Y1. rewrite <- !N_assoc. rewrite (N_assoc _ _ t a'), (N_comm _ _ t a' y), <- N_assoc. done.
  - rewrite X2, Y2. by rewrite N_assoc.
Qed.

Lemma wp_extract_eq n t ep e1 e2 c : oper t -> plain e1 = true -> plain e2 = true -> (size e1 + size e2 <= n)%nat ->
  wp (extract_eq flags n t ep e1 e2) (fun '(ep', e1', e2') c' => c' = c /\ extracted t ep e1 e2 ep' e1' e2') c.
Proof.
  intros Ht. revert ep e1 e2. induction n as [|n IH]; intros ep e1 e2 P1 P2 Hn; [pose proof (size_pos e1); lia|].
  cbn [extract_eq]. destruct (parts t e1) as [[a b]|] eqn:E1; [|destruct (parts t e2) as [[a b]|] eqn:E2].
  - apply parts_some in E1 as (-> & _ & Hs & Hp). rewrite Hp in P1. apply andb_true_iff in P1 as [Pa Pb].
    rewrite Hs in Hn. wp_simpl. eapply wp_mono; [apply IH; [done|done|lia]|]. intros [[ep' a'] e2'] c' [-> T1]. wp_simpl.
    pose proof T1 as (_ & S1 & S2 & P1' & P2'). eapply wp_mono; [apply IH; [done|done|lia]|].
    intros [[ep'' b'] e2''] c' [-> T2]. wp_simpl. split; [done|]. by eapply extracted_left.
  - apply parts_some in E2 as (-> & _ & Hs & Hp). rewrite Hp in P2. apply andb_true_iff in P2 as [Pa Pb].
    rewrite Hs in Hn. wp_simpl. eapply wp_mono; [apply IH; [done|done|lia]|]. intros [[ep' e1'] a'] c' [-> T1]. wp_simpl.
    pose proof T1 as (_ & S1 & S2 & P1' & P2'). eapply wp_mono; [apply IH; [done|done|lia]|].
    intros [[ep'' e1''] b'] c' [-> T2]. wp_simpl. split; [done|]. apply extracted_swap.
    eapply extracted_left; by apply extracted_swap.
  - wp_simpl. eapply wp_mono; [by apply wp_expr_eq|]. intros [] c' [-> He]; wp_simpl; (split; [done|]).
    + destruct (size_neutral t) as [S1 S2]. pose proof (size_pos e1). pose proof (size_pos e2).
      split_and!; rewrite ?S1; try done. exists e1. rewrite !N_neutral by done. split_and!; [|done|by rewrite He].
      destruct ep; cbn; [done|by rewrite N_neutral_l].
    + split_and!; try done. exists (neutral t). rewrite !N_neutral_l, N_neutral by done. done.
Qed.

(** The operator that a negation turns [t] into *)
Definition dual (t : expr_type) : expr_type := match t with E_OR => E_AND | _ => E_OR end.

Lemma wp_negation_in t e1 e2 c : oper t -> plain e1 = true -> plain e2 = true ->
  wp (negation_in types flags t e1 e2) (fun r c' => c' = c /\
    (r = true -> exists r, e2 ≃ expr_alloc_two (dual t) (Not e1) r)) c.
Proof.
  intros Ht P1 P2. unfold negation_in. wp_simpl. apply wp_expr_copy; [done|]. wp_simpl.
  unfold expr_transform. eapply wp_mono; [apply (wp_transform types flags); [done|lia]|].
  intros tmp1 c' (-> & E & _ & Pt & _). wp_simpl. apply wp_expr_copy; [done|]. wp_simpl.
  assert (Hd : forall t' tmp e1' e2', oper t' -> extracted t' None tmp1 e2 tmp e1' e2' -> eliminate_yn e1' = neutral t' ->
    exists r, e2 ≃ expr_alloc_two t' (Not e1) r).
  { intros t' tmp e1' e2' Ht' [(x & _ & X1 & X2) _] Hy. exists e2'. rewrite X2.
    assert (Hx : Not e1 ≃ x); [|by rewrite Hx].
    rewrite E, X1. rewrite <- (eliminate_yn_equiv _ _ e1'), Hy. by apply N_neutral. }
  destruct Ht as [->| ->]; cbn [dual]; [unfold expr_extract_eq_and|unfold expr_extract_eq_or]; unfold expr_extract_eq; wp_simpl.
  - eapply wp_mono; [apply wp_extract_eq; [by right|done|done|lia]|]. intros [[tmp e1'] e2'] c' [-> X]. wp_simpl.
    destruct tmp as [x|]; (split; [done|]); intros Hy; (eapply Hd; [by right|exact X|]).
    + cbn in Hy. by destruct (eliminate_yn e1') as [[]| | | | | | |].
    + cbn in Hy. assert (e1' = neutral E_AND) as -> by (by destruct e1' as [[]| | | | | | |]). done.
  - eapply wp_mono; [apply wp_extract_eq; [by left|done|done|lia]|]. intros [[tmp e1'] e2'] c' [-> X]. wp_simpl.
    destruct tmp as [x|]; (split; [done|]); intros Hy; (eapply Hd; [by left|exact X|]).
    + cbn in Hy. by destruct (eliminate_yn e1') as [[]| | | | | | |].
    + cbn in Hy. assert (e1' = neutral E_OR) as -> by (by destruct e1' as [[]| | | | | | |]). done.
Qed.
End JoinSpec.

(** ** Paths within the operands of one operator *)

(** The tree of the nodes of one type, from the top *)
Inductive shp : Type := Lf | Nd (l r : shp).
Fixpoint shape (t : expr_type) (e : expr) : shp :=
  match t, e with
  | E_AND, And l r | E_OR, Or l r => Nd (shape t l) (shape t r)
  | _, _ => Lf
  end.
Fixpoint sub (sh : shp) (p : list bool) {struct p} : option shp :=
  match p, sh with
  | [], _ => Some sh
  | b :: p, Nd l r => sub (if b : bool then l else r) p
  | _, Lf => None
  end.
Fixpoint shsize (sh : shp) : nat := match sh with Lf => 1 | Nd l r => S (shsize l + shsize r) end.

Lemma sub_app sh p b l r : sub sh p = Some (Nd l r) -> sub sh (p ++ [b]) = Some (if b : bool then l else r).
Proof.
  revert sh. induction p as [|x p IH]; intros sh; cbn; [by intros [= ->]|]. destruct sh; [done|]. apply IH.
Qed.

(** A node of the region of [t], or one below it *)
Lemma shape_cases t e : oper t ->
  (shape t e = Lf /\ type e <> t) \/
  (exists l r, e = expr_alloc_two t l r /\ type e = t /\ shape t e = Nd (shape t l) (shape t r)).
Proof. intros [->| ->]; destruct e; cbn; try (by left); right; eauto. Qed.

Lemma shape_N t l r : oper t -> shape t (expr_alloc_two t l r) = Nd (shape t l) (shape t r).
Proof. by intros [->| ->]. Qed.
Lemma at_N t l r b p : at_path (expr_alloc_two t l r) (b :: p) = at_path (if b : bool then l else r) p.
Proof. by destruct t. Qed.
Lemma put_N t l r b p x : put_path (expr_alloc_two t l r) (b :: p) x =
  if b : bool then expr_alloc_two t (put_path l p x) r else expr_alloc_two t l (put_path r p x).
Proof. by destruct t. Qed.

(** Induction along a path through the region of [t] *)
Lemma region_ind (t : expr_type) (P : expr -> list bool -> shp -> Prop) : oper t ->
  (forall e, P e [] (shape t e)) ->
  (forall l r p sh, sub (shape t l) p = Some sh -> P l p sh -> P (expr_alloc_two t l r) (true :: p) sh) ->
  (forall l r p sh, sub (shape t r) p = Some sh -> P r p sh -> P (expr_alloc_two t l r) (false :: p) sh) ->
  forall e p sh, sub (shape t e) p = Some sh -> P e p sh.
Proof.
  intros Ht H0 Hl Hr e p. revert e. induction p as [|b p IH]; intros e sh; [intros [= <-]; apply H0|].
  destruct (shape_cases t e Ht) as [[-> _]|(l & r & -> & _ & ->)]; [done|]. cbn. destruct b; intros Hs; auto.
Qed.

Lemma sub_at t e p sh : oper t -> sub (shape t e) p = Some sh -> exists x, at_path e p = Some x /\ shape t x = sh.
Proof.
  intros Ht. revert e p sh. apply region_ind; [done|by eexists| |]; intros l r p sh _ (x & Hx & Hsh); exists x; by rewrite at_N.
Qed.

Lemma shape_put t e p sh x : oper t -> sub (shape t e) p = Some sh -> shape t x = sh -> shape t (put_path e p x) = shape t e.
Proof.
  intros Ht Hs. revert e p sh Hs. apply (region_ind t (fun e p sh => shape t x = sh -> shape t (put_path e p x) = shape t e)); [done|done| |];
    intros l r p sh _ IH Hx; rewrite put_N, !shape_N by done; by rewrite IH.
Qed.

Lemma put_path_same e p x : at_path e p = Some x -> put_path e p x = e.
Proof.
  revert e. induction p as [|b p IH]; intros e; cbn; [by intros [= ->]|].
  destruct e; try done; destruct b; intros H; by rewrite IH.
Qed.
Lemma put_size e p x y : at_path e p = Some x -> (size (put_path e p y) + size x = size e + size y)%nat.
Proof.
  revert e. induction p as [|b p IH]; intros e; cbn; [intros [= ->]; lia|].
  destruct e; try done; destruct b; intros H%IH; cbn; lia.
Qed.
Lemma at_size e p x : at_path e p = Some x -> p <> [] -> (size x < size e)%nat.
Proof.
  revert e. induction p as [|b p IH]; intros e; [done|]. intros H _. assert (Hle : forall e', at_path e' p = Some x -> (size x <= size e')%nat).
  { intros e' He'. destruct p as [|b' p]; [cbn in He'; injection He' as ->; lia|]. apply Nat.lt_le_incl, IH; [exact He'|done]. }
  cbn in H. destruct e; try done; destruct b; apply Hle in H; cbn; lia.
Qed.
Lemma at_plain e p x : at_path e p = Some x -> plain e = true -> plain x = true.
Proof.
  revert e. induction p as [|b p IH]; intros e; cbn; [by intros [= ->]|].
  destruct e; try done; cbn; intros H [A B]%andb_true_iff; destruct b; eauto.
Qed.
Lemma put_plain e p x : plain e = true -> plain x = true -> plain (put_path e p x) = true.
Proof.
  intros He Hx. revert e He. induction p as [|b p IH]; intros e; cbn; [done|].
  destruct e; try done; cbn; intros [A B]%andb_true_iff; destruct b; cbn; apply andb_true_iff; eauto.
Qed.
Lemma at_two pos v e p x : at_path e p = Some x -> two pos v e -> two pos v x.
Proof.
  revert e. induction p as [|b p IH]; intros e; cbn; [by intros [= ->]|].
  destruct e; try done; cbn; intros H [A B]; destruct b; eauto.
Qed.
Lemma put_two pos v e p x : two pos v e -> two pos v x -> two pos v (put_path e p x).
Proof.
  intros He Hx. revert e He. induction p as [|b p IH]; intros e; cbn; [done|].
  destruct e; try done; cbn; intros [A B]; destruct b; cbn; eauto.
Qed.

(** *** Constants that [eliminate_yn] takes away *)

Definition constant (e : expr) : bool := match e with Sym symbol_yes | Sym symbol_no => true | _ => false end.
Fixpoint has_const (e : expr) : bool :=
  match e with
  | And a b | Or a b => constant a || constant b || has_const a || has_const b
  | _ => false
  end.

Lemma put_has_const e p x y : at_path e p = Some y -> has_const x = true \/ (p <> [] /\ constant x = true) ->
  has_const (put_path e p x) = true.
Proof.
  revert e. induction p as [|b p IH]; intros e; [cbn; intros _ [?|[? _]]; done|].
  intros H Hx. assert (Hn : forall e', at_path e' p = Some y -> constant (put_path e' p x) || has_const (put_path e' p x) = true).
  { intros e' He'. destruct p as [|b' p].
    - cbn. destruct Hx as [->|[_ ->]]; [by rewrite orb_true_r|done].
    - rewrite (IH e' He'); [by rewrite orb_true_r|]. destruct Hx as [Hx|[_ Hx]]; [by left|by right]. }
  cbn in H. destruct e; try done; destruct b; apply Hn in H; cbn;
    apply orb_true_iff in H as [->| ->]; rewrite ?orb_true_r; done.
Qed.

Lemma size_yn e : (size (eliminate_yn e) <= size e)%nat.
Proof.
  induction e as [| | | |a IHa b IHb|a IHa b IHb| |]; cbn [eliminate_yn]; try done.
  all: destruct (eliminate_yn a) as [[]| | | | | | |], (eliminate_yn b) as [[]| | | | | | |]; cbn in *; lia.
Qed.
Lemma constant_yn e : constant e = true -> eliminate_yn e = e.
Proof. by destruct e. Qed.
Lemma size_yn_const e : has_const e = true -> (size (eliminate_yn e) < size e)%nat.
Proof.
  induction e as [| | | |a IHa b IHb|a IHa b IHb| |]; cbn [has_const]; try done.
  all: pose proof (size_yn a) as Sa; pose proof (size_yn b) as Sb; pose proof (size_pos a); pose proof (size_pos b).
  all: destruct (constant a) eqn:Ca; [apply constant_yn in Ca as Ea; rewrite Ea in *|].
  1,3: intros _; cbn [eliminate_yn]; rewrite Ea; destruct a as [[]| | | | | | |]; try done;
    destruct (eliminate_yn b) as [[]| | | | | | |]; cbn in *; lia.
  all: destruct (constant b) eqn:Cb; [apply constant_yn in Cb as Eb|].
  1,3: intros _; cbn [eliminate_yn]; rewrite Eb in *; destruct b as [[]| | | | | | |]; try done;
    destruct (eliminate_yn a) as [[]| | | | | | |]; cbn in *; lia.
  all: cbn; intros [Hc|Hc]%orb_true_iff; [apply IHa in Hc|apply IHb in Hc]; cbn [eliminate_yn];
    destruct (eliminate_yn a) as [[]| | | | | | |], (eliminate_yn b) as [[]| | | | | | |]; cbn in *; lia.
Qed.

Lemma two_yn pos v e : two pos v e -> two pos v (eliminate_yn e).
Proof.
  induction e as [| | | |a IHa b IHb|a IHa b IHb| |]; cbn [two eliminate_yn]; try done.
  all: intros [Ha%IHa Hb%IHb]; destruct (eliminate_yn a) as [[]| | | | | | |], (eliminate_yn b) as [[]| | | | | | |]; cbn in *; tauto.
Qed.

Section DupsSpec.
Context (types : Z -> symbol_type) (flags : Z -> Z).
Notation val_ok := (val_ok types flags).
Notation "e ≃ e'" := (equiv types flags e e') (at level 70).
Notation N := expr_alloc_two.

(** A node of the region is one operand, whatever stands there. *)
Lemma region_one t e p sh : oper t -> sub (shape t e) p = Some sh ->
  exists r, forall x, put_path e p x ≃ N t x r.
Proof.
  intros Ht. revert e p sh. apply (region_ind t (fun e p sh => exists r, forall x, put_path e p x ≃ N t x r) Ht).
  - intros e. exists (neutral t). intros x. by rewrite N_neutral.
  - intros l r p sh _ (q & Hq). exists (N t q r). intros x. rewrite put_N, Hq. by rewrite N_assoc.
  - intros l r p sh _ (q & Hq). exists (N t l q). intros x. rewrite put_N, Hq. by rewrite N_assoc, (N_comm _ _ t l x), N_assoc.
Qed.

(** Two of its leaves are two operands. *)
Lemma region_two t e p q : oper t -> sub (shape t e) p = Some Lf -> sub (shape t e) q = Some Lf -> p <> q ->
  (exists r, forall x y, put_path (put_path e p x) q y ≃ N t (N t x y) r) /\
  (forall x y, put_path (put_path e p x) q y = put_path (put_path e q y) p x) /\
  (forall x, at_path (put_path e p x) q = at_path e q).
Proof.
  intros Ht. revert e q. induction p as [|b p IH]; intros e q Hp Hq Hne.
  { cbn in Hp. injection Hp as Hp. rewrite Hp in Hq. by destruct q. }
  destruct q as [|b' q]; [cbn in Hq; injection Hq as Hq; by rewrite Hq in Hp|].
  destruct (shape_cases t e Ht) as [[E _]|(l & r & -> & _ & E)]; rewrite E in Hp, Hq; [done|]. cbn in Hp, Hq.
  destruct (decide (b = b')) as [<-|Hb].
  - assert (Hpq : p <> q) by congruence. destruct b.
    + destruct (IH l q Hp Hq Hpq) as ((z & Hz) & Hc & Ha).
      split; [|split; [intros x y; rewrite !put_N; by rewrite Hc|intros x; by rewrite put_N, !at_N]].
      exists (N t z r). intros x y. rewrite !put_N, Hz. by rewrite !N_assoc.
    + destruct (IH r q Hp Hq Hpq) as ((z & Hz) & Hc & Ha).
      split; [|split; [intros x y; rewrite !put_N; by rewrite Hc|intros x; by rewrite put_N, !at_N]].
      exists (N t l z). intros x y. rewrite !put_N, Hz. by rewrite N_assoc, (N_comm _ _ t l), <- N_assoc.
  - split; [|split; [intros x y; destruct b, b'; try done; by rewrite !put_N|intros x; destruct b, b'; try done; by rewrite put_N, !at_N]].
    destruct b, b'; try done.
    + destruct (region_one t l p Lf Ht Hp) as (z & Hz), (region_one t r q Lf Ht Hq) as (w & Hw). exists (N t z w).
      intros x y. rewrite !put_N, Hz, Hw. rewrite <- !N_assoc. by rewrite (N_assoc _ _ t z y w), (N_comm _ _ t z y), <- !N_assoc.
    + destruct (region_one t r p Lf Ht Hp) as (z & Hz), (region_one t l q Lf Ht Hq) as (w & Hw). exists (N t z w).
      intros x y. rewrite !put_N, Hz, Hw. rewrite (N_comm _ _ t (N t y w)). rewrite <- !N_assoc.
      by rewrite (N_assoc _ _ t z y w), (N_comm _ _ t z y), <- !N_assoc.
Qed.

(** Any node of the region is absorbed. *)
Lemma region_absorb t e p sh x : oper t -> sub (shape t e) p = Some sh -> at_path e p = Some x -> N t x e ≃ e.
Proof.
  intros Ht Hs Hx. destruct (region_one t e p sh Ht Hs) as (r & Hr). specialize (Hr x). rewrite put_path_same in Hr by done.
  rewrite Hr. by rewrite N_assoc, N_idem.
Qed.

(** ** What a pass leaves as it was *)

Context (pos : bool) (v : valuation) (Hv : val_ok v).
Notation value := (value types neg3 v).

Record step (t : expr_type) (s s' : dst) : Prop := {
  st_value : value s'.1 = value s.1;
  st_shape : shape t s'.1 = shape t s.1;
  st_size : (size s'.1 <= size s.1)%nat;
  st_plain : plain s'.1 = true;
  st_two : two pos v s'.1;
  st_const : s' = s \/ has_const s'.1 = true
}.
(** The states on which the passes run *)
Definition good (s : dst) : Prop := plain s.1 = true /\ two pos v s.1.

Lemma step_refl t s : good s -> step t s s.
Proof. intros [P T]. split; try done. by left. Qed.
Lemma step_good t s s' : step t s s' -> good s'.
Proof. intros H. split; [by eapply st_plain|by eapply st_two]. Qed.
Lemma step_trans t s1 s2 s3 : step t s1 s2 -> step t s2 s3 -> step t s1 s3.
Proof.
  intros [A1 A2 A3 A4 A5 A6] [B1 B2 B3 B4 B5 B6]. split; try done; try congruence; try lia.
  destruct B6 as [->|?]; [done|by right].
Qed.

Lemma wp_rd_path s p x (Q : expr -> dst -> Prop) : at_path s.1 p = Some x -> Q x s -> wp (rd_path p) Q s.
Proof. intros H HQ. unfold rd_path. wp_simpl. rewrite H. by wp_simpl. Qed.
Lemma wp_counting {A} (m : M Z A) s (Q : A -> dst -> Prop) :
  wp m (fun a c => Q a (s.1, c)) s.2 -> wp (counting m) Q s.
Proof. intros H. unfold counting. by rewrite wp_zoom. Qed.
Lemma wp_below {A} p (m : M dst A) s x (Q : A -> dst -> Prop) : at_path s.1 p = Some x ->
  wp m (fun a t => Q a (put_path s.1 p t.1, t.2)) (x, s.2) -> wp (below p m) Q s.
Proof.
  intros Hx Hm. apply wp_elim in Hm as (a & [e' c'] & Hrun & HQ). unfold below. wp_simpl.
  eapply wp_rd_path; [exact Hx|]. wp_simpl. rewrite Hrun. unfold wr_path. wp_simpl. exact HQ.
Qed.

(** A pass over the operands of a node below: the region above it does not
    change. *)
Lemma step_below t t1 p s x s1 : oper t -> good s -> sub (shape t s.1) p = Some Lf -> at_path s.1 p = Some x ->
  type x = t1 -> oper t1 -> step t1 (x, s.2) s1 -> step t s (put_path s.1 p s1.1, s1.2).
Proof.
  intros Ht [P T] Hs Hx Hx1 Ht1 [A1 A2 A3 A4 A5 A6]. cbn in *.
  assert (Hlf : shape t s1.1 = Lf).
  { destruct (sub_at t _ p _ Ht Hs) as (x' & Hx' & Hsh). assert (x' = x) as -> by congruence.
    destruct (shape_cases t x Ht) as [[_ Hne]|(? & ? & _ & _ & E)]; [|congruence].
    destruct (shape_cases t1 x Ht1) as [[_ ?]|(l & r & _ & _ & E)]; [done|]. rewrite E in A2.
    destruct (shape_cases t1 s1.1 Ht1) as [[E' _]|(l' & r' & _ & Ety & _)]; [congruence|].
    destruct (shape_cases t s1.1 Ht) as [[E' _]|(l'' & r'' & _ & Ety' & _)]; [done|congruence]. }
  split; cbn.
  - destruct (region_one t s.1 p Lf Ht Hs) as (r & Hr). rewrite (Hr s1.1 v Hv).
    transitivity (value (put_path s.1 p x)); [|by rewrite put_path_same]. rewrite (Hr x v Hv). by destruct t; cbn; rewrite A1.
  - by eapply shape_put.
  - pose proof (put_size s.1 p x s1.1 Hx). lia.
  - by apply put_plain.
  - by apply put_two.
  - destruct A6 as [->|Hc]; [left; cbn; rewrite put_path_same by done; by destruct s|right].
    eapply put_has_const; [exact Hx|by left].
Qed.

(** ** [expr_eliminate_dups1] *)

Definition depth_fuel (k : nat) : nat := (2 * k + 2) * k.
Lemma depth_fuel_step x k : (1 <= x <= k)%nat -> (2 * x + depth_fuel (x - 1) <= depth_fuel k)%nat.
Proof. unfold depth_fuel. intros [H1 H2]. destruct x as [|x]; [lia|]. replace (S x - 1)%nat with x by lia. nia. Qed.
Lemma depth_fuel_mono x k : (x <= k)%nat -> (depth_fuel x <= depth_fuel k)%nat.
Proof. unfold depth_fuel. nia. Qed.
Lemma shsize_size t e : (shsize (shape t e) <= size e)%nat.
Proof. induction e; destruct t; cbn in *; lia. Qed.
Lemma shsize_pos sh : (1 <= shsize sh)%nat.
Proof. destruct sh; cbn; lia. Qed.
Lemma is_oper_type e : is_oper e = true -> oper (type e).
Proof. destruct e; try done; [by right|by left]. Qed.

(** The two operands become the neutral constant and what they are together. *)
Lemma step_joined t s p q x y tmp : oper t -> good s ->
  sub (shape t s.1) p = Some Lf -> sub (shape t s.1) q = Some Lf -> p <> q ->
  at_path s.1 p = Some x -> at_path s.1 q = Some y -> joined types flags t x y tmp ->
  forall c, step t s (put_path (put_path s.1 p (neutral t)) q tmp, c).
Proof.
  intros Ht [P T] Hp Hq Hne Hx Hy (J & Sz & Pt & Sh & Tw) c.
  destruct (region_two t s.1 p q Ht Hp Hq Hne) as ((r & Hr) & Hc & Ha).
  destruct (region_two t s.1 q p Ht Hq Hp (not_eq_sym Hne)) as (_ & _ & Ha').
  assert (Ln : shape t (neutral t) = Lf) by (by destruct Ht as [->| ->]).
  assert (Lx : shape t x = Lf).
  { destruct (sub_at t _ p _ Ht Hp) as (x' & Hx' & L). by assert (x = x') as -> by congruence. }
  assert (Lt : shape t tmp = Lf).
  { destruct Sh as [->|Sh]; [done|]. destruct (shape_cases t tmp Ht) as [[E _]|(l & r' & -> & _ & _)]; [done|].
    by destruct Ht as [->| ->]. }
  assert (H1 : shape t (put_path s.1 p (neutral t)) = shape t s.1) by (by eapply shape_put).
  assert (Hq1 : at_path (put_path s.1 p (neutral t)) q = Some y) by (by rewrite Ha).
  pose proof (at_plain _ _ _ Hx P). pose proof (size_neutral t) as [Sn Pn].
  split; cbn.
  - rewrite (Hr _ _ v Hv). transitivity (value (put_path (put_path s.1 p x) q y)).
    + rewrite (Hr x y v Hv). apply (N_proper types flags t); [|done|done]. rewrite N_neutral_l by done. by rewrite J.
    + by rewrite (put_path_same _ p x), (put_path_same _ q y).
  - transitivity (shape t (put_path s.1 p (neutral t))); [|done]. eapply shape_put; [done|by rewrite H1|done].
  - pose proof (put_size _ p x (neutral t) Hx). pose proof (put_size _ q y tmp Hq1). pose proof (size_pos y). lia.
  - by repeat apply put_plain.
  - apply put_two; [apply put_two; [done|]|].
    + destruct Ht as [->| ->]; cbn; [by rewrite (proj1 (vo_no _ _ v Hv))|by rewrite (proj1 (vo_yes _ _ v Hv))].
    + apply Tw; [done|exact (at_two _ _ _ _ _ Hx T)|exact (at_two _ _ _ _ _ Hy T)].
  - right. rewrite Hc. eapply put_has_const; [by rewrite Ha'|]. right. split.
    + intros ->. destruct q; [done|]. cbn in Hp. injection Hp as Hp. by rewrite Hp in Hq.
    + by destruct Ht as [->| ->].
Qed.

Lemma wp_eliminate_dups1 n t p1 p2 s sh1 sh2 : oper t -> good s ->
  sub (shape t s.1) p1 = Some sh1 -> sub (shape t s.1) p2 = Some sh2 ->
  (shsize sh1 + shsize sh2 + depth_fuel (size s.1 - 1) <= n)%nat ->
  wp (eliminate_dups1 types flags n t p1 p2) (fun _ s' => step t s s') s.
Proof.
  revert t p1 p2 s sh1 sh2. induction n as [|n IH]; intros t p1 p2 s sh1 sh2 Ht G H1 H2 Hn.
  { pose proof (shsize_pos sh1). lia. }
  cbn [eliminate_dups1]. destruct (sub_at t _ p1 _ Ht H1) as (x & Hx & Sx), (sub_at t _ p2 _ Ht H2) as (y & Hy & Sy).
  wp_simpl. eapply wp_rd_path; [exact Hx|]. wp_simpl. eapply wp_rd_path; [exact Hy|].
  destruct (shape_cases t x Ht) as [[Lx Tx]|(l & r & -> & Tx & Nx)].
  2: { rewrite bool_decide_true by done. rewrite Sx in Nx. clear Sx. subst sh1. cbn [shsize] in Hn. wp_simpl.
    eapply wp_mono; [apply (IH t (p1 ++ [true]) p2 s (shape t l) sh2); [done|done|by rewrite (sub_app _ _ true _ _ H1)|done|lia]|].
    intros [] s1 S1. pose proof S1 as [_ E1 Z1 _ _ _]. eapply wp_mono; [apply (IH t (p1 ++ [false]) p2 s1 (shape t r) sh2);
      [done|by eapply step_good|by rewrite E1, (sub_app _ _ false _ _ H1)|by rewrite E1|]|].
    - pose proof (depth_fuel_mono (size s1.1 - 1) (size s.1 - 1)). lia.
    - intros [] s2 S2. by eapply step_trans. }
  rewrite bool_decide_false by done.
  destruct (shape_cases t y Ht) as [[Ly Ty]|(l & r & -> & Ty & Ny)].
  2: { rewrite bool_decide_true by done. rewrite Sy in Ny. clear Sy. subst sh2. cbn [shsize] in Hn. wp_simpl.
    eapply wp_mono; [apply (IH t p1 (p2 ++ [true]) s sh1 (shape t l)); [done|done|done|by rewrite (sub_app _ _ true _ _ H2)|lia]|].
    intros [] s1 S1. pose proof S1 as [_ E1 Z1 _ _ _]. eapply wp_mono; [apply (IH t p1 (p2 ++ [false]) s1 sh1 (shape t r));
      [done|by eapply step_good|by rewrite E1|by rewrite E1, (sub_app _ _ false _ _ H2)|]|].
    - pose proof (depth_fuel_mono (size s1.1 - 1) (size s.1 - 1)). lia.
    - intros [] s2 S2. by eapply step_trans. }
  rewrite bool_decide_false by done. rewrite Sx in Lx. rewrite Sy in Ly. clear Sx Sy. subst sh1 sh2. cbn [shsize] in Hn.
  case_bool_decide as Hp; [wp_simpl; by apply step_refl|]. wp_simpl.
  assert (Hp1 : p1 <> []).
  { intros ->. cbn in H1. injection H1 as H1. rewrite H1 in H2. destruct p2; done. }
  apply (wp_mono _ (fun _ s1 => step t s s1)).
  { destruct (is_oper x) eqn:Ox; [|wp_simpl; by apply step_refl]. pose proof (is_oper_type x Ox) as Htx.
    apply (wp_below _ _ s x); [done|]. pose proof (at_size _ _ _ Hx Hp1). pose proof (size_pos x).
    eapply wp_mono; [apply (IH (type x) [] [] (x, s.2) (shape (type x) x) (shape (type x) x)); [done| |done|done|]|].
    - destruct G as [P T]. split; [by eapply at_plain|by eapply at_two].
    - cbn [fst]. pose proof (shsize_size (type x) x). pose proof (depth_fuel_step (size x) (size s.1 - 1)). lia.
    - intros [] s1 S1. by eapply step_below. }
  intros [] s1 S1. pose proof S1 as [_ E1 _ Pl _ _]. rewrite <- E1 in H1, H2.
  destruct (sub_at t _ p1 _ Ht H1) as (x1 & Hx1 & _), (sub_at t _ p2 _ Ht H2) as (y1 & Hy1 & _).
  wp_simpl. eapply wp_rd_path; [exact Hx1|]. wp_simpl. eapply wp_rd_path; [exact Hy1|]. wp_simpl. apply wp_counting.
  eapply wp_mono; [apply (wp_join_expr types flags); [done|by eapply at_plain|by eapply at_plain]|].
  intros tmp c [-> J]. destruct tmp as [tmp|]; [|wp_simpl; by destruct s1].
  unfold wr_path, count_up. wp_simpl. apply wp_counting. wp_simpl. cbn [fst snd].
  eapply step_trans; [exact S1|]. eapply (step_joined t s1 p1 p2); try done. by eapply step_good.
Qed.

(** ** [expr_eliminate_dups2] *)

Lemma value_two e : two pos v e -> value e <> tri_mod.
Proof.
  induction e as [x|a IHa|l r|l r|a IHa b IHb|a IHa b IHb|o x|l r]; cbn; try done.
  - intros [_ H%IHa]. pose proof (value_three types flags v a Hv). tri3.
  - by destruct (compare types v l r).
  - by destruct (compare types v l r).
  - intros [Ha%IHa Hb%IHb]. pose proof (value_three types flags v a Hv). pose proof (value_three types flags v b Hv). tri3.
  - intros [Ha%IHa Hb%IHb]. pose proof (value_three types flags v a Hv). pose proof (value_three types flags v b Hv). tri3.
Qed.

(** The constant that decides a node of the type *)
Lemma decided t a r : oper t -> value (N t (neutral (dual t)) a) = value (neutral (dual t)) /\
  (value a <> tri_mod -> value (N t a (N t (Not a) r)) = value (neutral (dual t))).
Proof.
  intros Ht. pose proof (value_three types flags v a Hv). pose proof (value_three types flags v r Hv).
  destruct Ht as [->| ->]; cbn; rewrite ?(proj1 (vo_yes _ _ v Hv)), ?(proj1 (vo_no _ _ v Hv)); split; try intros Hm; tri3.
Qed.

(** An operand whose negation is among the operands of another node of the region *)
Lemma step_negated t s p q sh x y r : oper t -> good s ->
  sub (shape t s.1) p = Some Lf -> sub (shape t s.1) q = Some sh -> p <> [] ->
  at_path s.1 p = Some x -> at_path s.1 q = Some y -> y ≃ N t (Not x) r ->
  forall c, step t s (put_path s.1 p (neutral (dual t)), c).
Proof.
  intros Ht [P T] Hp Hq Hne Hx Hy E c. set (K := neutral (dual t)).
  assert (HK : shape t K = Lf /\ size K = 1%nat /\ plain K = true /\ two pos v K /\ constant K = true).
  { unfold K. destruct Ht as [->| ->]; (split_and!; [done..| |done]); cbn.
    - by rewrite (proj1 (vo_yes _ _ v Hv)).
    - by rewrite (proj1 (vo_no _ _ v Hv)). }
  destruct HK as (K1 & K2 & K3 & K4 & K5). destruct (region_one t s.1 p Lf Ht Hp) as (z & Hz).
  pose proof (value_two x (at_two _ _ _ _ _ Hx T)) as Hm.
  split; cbn.
  - pose proof (proj1 (decided t z r Ht)) as D1. pose proof (proj1 (decided t s.1 r Ht)) as D2.
    pose proof (proj2 (decided t x r Ht) Hm) as D3. fold K in D1, D2, D3. rewrite (Hz K v Hv), D1.
    assert (Hroot : s.1 ≃ N t (N t x (N t (Not x) r)) s.1).
    { rewrite <- E. rewrite <- N_assoc. rewrite (region_absorb t s.1 q sh y), (region_absorb t s.1 p Lf x); done. }
    rewrite (Hroot v Hv). rewrite <- D2 at 1. clear - D3 Ht. by destruct Ht as [->| ->]; cbn in *; rewrite D3.
  - by eapply shape_put.
  - pose proof (put_size s.1 p x K Hx). pose proof (size_pos x). lia.
  - by apply put_plain.
  - by apply put_two.
  - right. eapply put_has_const; [exact Hx|]. by right.
Qed.

Lemma dual_other t t1 : oper t -> oper t1 -> t1 <> t -> t = dual t1 /\ t1 = dual t.
Proof. by intros [->| ->] [->| ->]. Qed.

Lemma wp_eliminate_dups2 n t p1 p2 s sh1 sh2 : oper t -> good s ->
  sub (shape t s.1) p1 = Some sh1 -> sub (shape t s.1) p2 = Some sh2 ->
  (shsize sh1 + shsize sh2 + depth_fuel (size s.1 - 1) <= n)%nat ->
  wp (eliminate_dups2 types flags n t p1 p2) (fun _ s' => step t s s') s.
Proof.
  revert t p1 p2 s sh1 sh2. induction n as [|n IH]; intros t p1 p2 s sh1 sh2 Ht G H1 H2 Hn.
  { pose proof (shsize_pos sh1). lia. }
  cbn [eliminate_dups2]. destruct (sub_at t _ p1 _ Ht H1) as (x & Hx & Sx), (sub_at t _ p2 _ Ht H2) as (y & Hy & Sy).
  wp_simpl. eapply wp_rd_path; [exact Hx|]. wp_simpl. eapply wp_rd_path; [exact Hy|].
  destruct (shape_cases t x Ht) as [[Lx Tx]|(l & r & -> & Tx & Nx)].
  2: { rewrite bool_decide_true by done. rewrite Sx in Nx. clear Sx. subst sh1. cbn [shsize] in Hn. wp_simpl.
    eapply wp_mono; [apply (IH t (p1 ++ [true]) p2 s (shape t l) sh2); [done|done|by rewrite (sub_app _ _ true _ _ H1)|done|lia]|].
    intros [] s1 S1. pose proof S1 as [_ E1 Z1 _ _ _]. eapply wp_mono; [apply (IH t (p1 ++ [false]) p2 s1 (shape t r) sh2);
      [done|by eapply step_good|by rewrite E1, (sub_app _ _ false _ _ H1)|by rewrite E1|]|].
    - pose proof (depth_fuel_mono (size s1.1 - 1) (size s.1 - 1)). lia.
    - intros [] s2 S2. by eapply step_trans. }
  rewrite bool_decide_false by done. rewrite Sx in Lx. clear Sx. subst sh1. cbn [shsize] in Hn. wp_simpl.
  pose proof (shsize_pos sh2) as Hsh2.
  apply (wp_mono _ (fun _ s1 => step t s s1)).
  { destruct (shape_cases t y Ht) as [[Ly Ty]|(l & r & -> & Ty & Ny)].
    { rewrite bool_decide_false by done. wp_simpl. by apply step_refl. }
    rewrite bool_decide_true by done. rewrite Sy in Ny. clear Sy. subst sh2. cbn [shsize] in Hn. wp_simpl.
    eapply wp_mono; [apply (IH t p1 (p2 ++ [true]) s Lf (shape t l)); [done|done|done|by rewrite (sub_app _ _ true _ _ H2)|cbn [shsize]; lia]|].
    intros [] s1 S1. pose proof S1 as [_ E1 Z1 _ _ _]. eapply wp_mono; [apply (IH t p1 (p2 ++ [false]) s1 Lf (shape t r));
      [done|by eapply step_good|by rewrite E1|by rewrite E1, (sub_app _ _ false _ _ H2)|]|].
    - pose proof (depth_fuel_mono (size s1.1 - 1) (size s.1 - 1)). cbn [shsize]. lia.
    - intros [] s2 S2. by eapply step_trans. }
  intros [] s1 S1. pose proof S1 as [_ E1 Z1 _ _ _]. pose proof (step_good _ _ _ S1) as G1. rewrite <- E1 in H1, H2.
  case_bool_decide as Hp; [by wp_simpl|]. wp_simpl.
  assert (Hp1 : p1 <> []).
  { intros ->. cbn in H1. injection H1 as H1. rewrite H1 in H2. destruct p2; done. }
  clear x y Hx Hy Sy Tx. destruct (sub_at t _ p1 _ Ht H1) as (x & Hx & Sx). eapply wp_rd_path; [exact Hx|].
  destruct (is_oper x) eqn:Ox; [|by wp_simpl]. pose proof (is_oper_type x Ox) as Htx.
  assert (Hne : type x <> t).
  { destruct (shape_cases t x Ht) as [[_ ?]|(? & ? & _ & _ & E)]; [done|congruence]. }
  destruct (dual_other t (type x) Ht Htx Hne) as [D1 D2]. wp_simpl.
  apply (wp_mono _ (fun _ s2 => step t s1 s2)).
  { apply (wp_below _ _ s1 x); [done|]. pose proof (at_size _ _ _ Hx Hp1). pose proof (size_pos x).
    eapply wp_mono; [apply (IH (type x) [] [] (x, s1.2) (shape (type x) x) (shape (type x) x)); [done| |done|done|]|].
    - destruct G1 as [P T]. split; [by eapply at_plain|by eapply at_two].
    - cbn [fst]. pose proof (shsize_size (type x) x). pose proof (depth_fuel_step (size x) (size s1.1 - 1)).
      pose proof (depth_fuel_mono (size s1.1 - 1) (size s.1 - 1)). lia.
    - intros [] s2 S2. by apply (step_below t (type x) p1 s1 x). }
  intros [] s2 S2. pose proof S2 as [_ E2 _ P2 _ _]. rewrite <- E2 in H1, H2. wp_simpl.
  destruct (sub_at t _ p1 _ Ht H1) as (x2 & Hx2 & _), (sub_at t _ p2 _ Ht H2) as (y2 & Hy2 & _).
  eapply wp_rd_path; [exact Hx2|]. wp_simpl. eapply wp_rd_path; [exact Hy2|]. wp_simpl. apply wp_counting.
  eapply wp_mono; [apply (wp_negation_in types flags); [done|by eapply at_plain|by eapply at_plain]|].
  intros [] c [-> J]; [|wp_simpl; destruct s2; by eapply step_trans].
  destruct (J eq_refl) as (r & Er). rewrite <- D1 in Er. unfold wr_path, count_up. wp_simpl. apply wp_counting. wp_simpl. cbn [fst snd].
  eapply step_trans; [exact S1|]. eapply step_trans; [exact S2|].
  assert (EK : match type x with E_OR => Sym symbol_no | _ => Sym symbol_yes end = neutral (dual t)).
  { rewrite <- D2. by destruct Htx as [->| ->]. }
  rewrite EK. eapply (step_negated t s2 p1 p2); try done. by eapply step_good.
Qed.

(** ** The loop *)

Lemma dups_fuel_enough t e : (shsize (shape t e) + shsize (shape t e) + depth_fuel (size e - 1) <= dups_fuel e)%nat.
Proof.
  pose proof (shsize_size t e). pose proof (depth_fuel_step (size e) (size e)) as H1. pose proof (size_pos e).
  unfold dups_fuel. unfold depth_fuel in *. nia.
Qed.

Lemma wp_passes e c : is_oper e = true -> good (e, c) ->
  wp (dups_passes types flags e) (fun _ s' => step (type e) (e, c) s') (e, c).
Proof.
  intros Ho G. unfold dups_passes. pose proof (is_oper_type e Ho) as Ht. wp_simpl.
  eapply wp_mono; [apply (wp_eliminate_dups1 _ _ _ _ (e, c) (shape (type e) e) (shape (type e) e)); try done; apply dups_fuel_enough|].
  intros [] s1 S1. wp_simpl. pose proof S1 as [_ E1 _ _ _ _]. cbn in E1.
  assert (Ety : type s1.1 = type e).
  { destruct (shape_cases (type e) e Ht) as [[_ ?]|(l & r & _ & _ & E)]; [done|]. rewrite E in E1.
    by destruct (shape_cases (type e) s1.1 Ht) as [[E' _]|(? & ? & _ & ? & _)]; [congruence|]. }
  rewrite Ety. eapply wp_mono; [apply (wp_eliminate_dups2 _ _ _ _ s1 (shape (type e) s1.1) (shape (type e) s1.1)); try done|].
  - by eapply step_good.
  - apply dups_fuel_enough.
  - intros [] s2 S2. by eapply step_trans.
Qed.

Lemma wp_dups_turn e c : plain e = true -> two pos v e ->
  wp (dups_turn types flags e) (fun r _ => match r with
    | inr e' => value e' = value e /\ plain e' = true /\ two pos v e' /\ (size e' <= size e)%nat
    | inl e' => value e' = value e /\ plain e' = true /\ two pos v e' /\ (size e' < size e)%nat
    end) c.
Proof.
  intros P T. unfold dups_turn. wp_simpl.
  apply (wp_mono _ (fun e' c' => step (type e) (e, 0) (e', c'))).
  { destruct (is_oper e) eqn:Ho; wp_simpl; [unfold id|by apply step_refl].
    destruct (wp_elim _ _ _ (wp_passes e 0 Ho (conj P T))) as ([] & [e' c'] & -> & S). by wp_simpl. }
  intros e' c' [A1 A2 A3 A4 A5 A6]. cbn in *. wp_simpl. unfold id.
  destruct (Z.eqb_spec c' 0) as [->|Hc]; wp_simpl; [done|].
  destruct A6 as [[= -> ->]|A6]; [done|]. split_and!.
  - rewrite <- A1. exact (eliminate_yn_equiv types flags e' v Hv).
  - by apply plain_yn.
  - by apply two_yn.
  - pose proof (size_yn_const e' A6). lia.
Qed.
End DupsSpec.

Lemma two_no_metapack pos v e : plain e = true -> two pos v e -> two pos (no_metapack v) e.
Proof.
  induction e as [x|a IHa|l r|l r|a IHa b IHb|a IHa b IHb|o x|l r]; cbn; try done.
  - by destruct x.
  - intros Ha [Hp Ta]. auto.
  - intros [Ha Hb]%andb_true_iff [Ta Tb]. auto.
  - intros [Ha Hb]%andb_true_iff [Ta Tb]. auto.
Qed.

(** An expression without negation keeps being one. *)
Lemma two_not_free v e : two false v e -> two (not_free e) v e.
Proof.
  assert (H : forall e, not_free e = true -> two false v e -> two true v e).
  { clear e. induction e; cbn; try done; intros [A B]%andb_true_iff [C D]; auto. }
  destruct (not_free e) eqn:F; [by apply H|done].
Qed.
Lemma two_free v e : two true v e -> not_free e = true.
Proof. induction e; cbn; try done; [by intros [? _]|..]; intros [A B]; by rewrite IHe1, IHe2. Qed.

(** [C36] [expr_eliminate_dups] of an expression without choices and ranges, with
    symbols that are [n] or [y], ends in as many turns as the expression has
    nodes; the expression does not become longer, and the counter is as before.
    An expression without negation keeps being one, and keeps its value. *)
Theorem expr_eliminate_dups_correct types flags v e c :
  symbols_ok types flags v -> plain e = true -> two false v e ->
  wp (expr_eliminate_dups types flags (Some e)) (fun r c' => c' = c /\
    exists e', r = Some e' /\ plain e' = true /\ (size e' <= size e)%nat /\
      (not_free e = true -> not_free e' = true /\ value types tri_not v e' = value types tri_not v e)) c.
Proof.
  intros Hv P T. pose proof (two_no_metapack _ v e P (two_not_free v e T)) as T0. set (pos := not_free e) in T0.
  unfold expr_eliminate_dups. wp_simpl. unfold id.
  apply (wp_loop_idx _ (fun k e1 _ => k = size e1 /\ plain e1 = true /\ two pos (no_metapack v) e1 /\ (size e1 <= size e)%nat /\
    value types neg3 (no_metapack v) e1 = value types neg3 (no_metapack v) e)) with (n := size e).
  - intros k e1 c1 (-> & P1 & T1 & Z1 & E1). eapply wp_mono; [by apply (wp_dups_turn types flags pos (no_metapack v))|].
    intros [e2|e2] c2.
    + intros (E2 & P2 & T2 & Z2). exists (size e2). split; [lia|]. split_and!; try done; [lia|congruence].
    + intros (E2 & P2 & T2 & Z2). wp_simpl. split; [done|]. exists e2. split_and!; [done|done|lia|].
      intros F. unfold pos in T2. rewrite F in T2. pose proof (two_free _ _ T2) as F2. split; [done|].
      rewrite (value_not_free types tri_not v e2 F2), (value_not_free types tri_not v e F).
      rewrite <- !(value_no_metapack types neg3 v) by done. congruence.
  - by split_and!.
  - lia.
Qed.

Lemma expr_eliminate_dups_correct_witness :
  wp (expr_eliminate_dups demo_types (fun _ => 0) (Some (Or (And a2 a3) (Or (Equal (sym_at 1) symbol_yes) (And a3 a2))))) (fun r c' => c' = 7 /\
    exists e', r = Some e' /\ not_free e' = true /\ value demo_types tri_not demo_val e' = tri_yes) 7.
Proof.
  eapply wp_mono; [apply (expr_eliminate_dups_correct demo_types (fun _ => 0) demo_val
    (Or (And a2 a3) (Or (Equal (sym_at 1) symbol_yes) (And a3 a2))) 7)|].
  - exact demo_ok.
  - reflexivity.
  - cbn. unfold tri_mod, tri_yes. split_and!; discriminate || exact I.
  - intros r c' (-> & e' & -> & _ & _ & E). split; [reflexivity|]. exists e'. split; [reflexivity|].
    destruct (E eq_refl) as [F V]. split; [exact F|]. rewrite V. reflexivity.
Defined.

(** With a negation it is another matter.  Under the program's own negation [a || !a]
    of a boolean symbol that is [n] is [metapack], and becomes [y]. *)
Theorem expr_eliminate_dups_negation : exists types flags v e,
  symbols_ok types flags v /\ plain e = true /\ value types tri_not v e = tri_metapack /\
  expr_eliminate_dups types flags (Some e) 0 = Ok (Some (Sym symbol_yes), 0).
Proof.
  exists demo_types, (fun _ => 0), demo_val, (Or (Sym (sym_at 4)) (Not (Sym (sym_at 4)))).
  split_and!; [exact demo_ok|done|done|]. vm_compute. reflexivity.
Qed.

(** A symbol that is [m] is changed: [(a && b!=n) || (!a || b=n)] is [m] when [a] is
    [m] and [b] is [y], and [expr_eliminate_dups] makes it [y]. *)
Theorem expr_eliminate_dups_mod : exists types flags v e,
  symbols_ok types flags v /\ plain e = true /\ value types tri_not v e = tri_mod /\
  expr_eliminate_dups types flags (Some e) 0 = Ok (Some (Sym symbol_yes), 0).
Proof.
  exists demo_types, (fun _ => 0), demo_val,
    (Or (And a1 (Unequal (sym_at 2) symbol_no)) (Or (Not a1) (Equal (sym_at 2) symbol_no))).
  split_and!; [exact demo_ok|done|done|]. vm_compute. reflexivity.
Qed.
