(* ===== verification/Ksym.v ===== *)
(** * scripts/kconfig/symbol.c: the values of the configuration symbols

    The symbols are kept by pointer; a pointer to a string carries the string and
    an identity, because the code compares such pointers.  [sym_calc_value] and
    [expr_calc_value] call each other: the fuel counts the symbols that have no
    value yet. *)

From stdpp Require Import strings.
From S2P Require Import Prelude Str Bytes Symtab Printk Kexpr.

#[export] Instance symbol_countable : Countable symbol.
Proof.
  apply (inj_countable'
    (fun s => match s with symbol_yes => (0, 0) | symbol_mod => (1, 0) | symbol_metapack => (2, 0) | symbol_no => (3, 0)
              | symbol_empty => (4, 0) | sym_at p => (5, p) end)
    (fun '(k, p) => if k =? 0 then symbol_yes else if k =? 1 then symbol_mod else if k =? 2 then symbol_metapack
                    else if k =? 3 then symbol_no else if k =? 4 then symbol_empty else sym_at p)).
  by intros [].
Defined.

(** ** Data *)

Definition SYMBOL_CHECK : Z := 0x0008.
Definition SYMBOL_CHOICE : Z := 0x0010.
Definition SYMBOL_CHOICEVAL : Z := 0x0020.
Definition SYMBOL_WRITE : Z := 0x0200.
Definition SYMBOL_CHANGED : Z := 0x0400.
Definition SYMBOL_NEW : Z := 0x0800.
Definition SYMBOL_CHECKED : Z := 0x2000.
Definition MENU_CHANGED : Z := 0x0001.

(** What a [void *val] points to: a string with its identity, or a symbol *)
Inductive vptr : Type := VNull | VStr (id : Z) (l : list Z) | VSym (s : symbol).
#[export] Instance vptr_eq_dec : EqDecision vptr.
Proof. solve_decision. Defined.

Inductive prop_type : Type := P_UNKNOWN | P_PROMPT | P_COMMENT | P_MENU | P_DEFAULT | P_CHOICE | P_SELECT | P_RANGE.
#[export] Instance prop_type_eq_dec : EqDecision prop_type.
Proof. solve_decision. Defined.

(** [struct property]; [p_text]: there is a prompt; [p_menu]: its menu entry *)
Record property : Type := mk_prop {
  p_type : prop_type; p_text : bool; p_visible : option expr; p_tri : Z; p_expr : option expr; p_menu : option Z
}.

(** [struct symbol]; [curr], [user] and [rev_dep] in parts *)
Record sym : Type := mk_sym {
  s_name : option vptr; s_type : symbol_type;
  curr_val : vptr; curr_tri : Z; user_val : vptr; user_tri : Z;
  s_visible : Z; s_flags : Z; s_prop : list property;
  rev_expr : option expr; rev_tri : Z
}.

Record kconf : Type := mk_kconf {
  tab : gmap symbol sym;
  menus : gmap Z Z;               (** the [flags] of the menu entries *)
  symbol_hash : list (list symbol);
  modules_sym : option symbol;
  modules_val : Z;
  sym_change_count : Z;
  next_id : Z                     (** the identity of the next new string *)
}.
Definition set_tab (t : gmap symbol sym) (k : kconf) : kconf :=
  mk_kconf t (menus k) (symbol_hash k) (modules_sym k) (modules_val k) (sym_change_count k) (next_id k).
Definition set_menus (m : gmap Z Z) (k : kconf) : kconf :=
  mk_kconf (tab k) m (symbol_hash k) (modules_sym k) (modules_val k) (sym_change_count k) (next_id k).
Definition set_modules_val (v : Z) (k : kconf) : kconf :=
  mk_kconf (tab k) (menus k) (symbol_hash k) (modules_sym k) v (sym_change_count k) (next_id k).
Definition set_change_count (v : Z) (k : kconf) : kconf :=
  mk_kconf (tab k) (menus k) (symbol_hash k) (modules_sym k) (modules_val k) v (next_id k).
Definition set_next_id (v : Z) (k : kconf) : kconf :=
  mk_kconf (tab k) (menus k) (symbol_hash k) (modules_sym k) (modules_val k) (sym_change_count k) v.

Notation K := (M kconf).

Definition rd_sym (s : symbol) : K sym := t <- gets tab ;; lift_opt (BadAddr 0) (t !! s).
Definition wr_sym (s : symbol) (f : sym -> sym) : K unit :=
  x <- rd_sym s ;; modify (fun k => set_tab (<[s := f x]> (tab k)) k).

Definition with_flags (g : Z -> Z) (x : sym) : sym :=
  mk_sym (s_name x) (s_type x) (curr_val x) (curr_tri x) (user_val x) (user_tri x) (s_visible x) (g (s_flags x)) (s_prop x) (rev_expr x) (rev_tri x).
Definition with_curr (v : vptr) (t : Z) (x : sym) : sym :=
  mk_sym (s_name x) (s_type x) v t (user_val x) (user_tri x) (s_visible x) (s_flags x) (s_prop x) (rev_expr x) (rev_tri x).
Definition with_user (v : vptr) (t : Z) (x : sym) : sym :=
  mk_sym (s_name x) (s_type x) (curr_val x) (curr_tri x) v t (s_visible x) (s_flags x) (s_prop x) (rev_expr x) (rev_tri x).
Definition with_visible (v : Z) (x : sym) : sym :=
  mk_sym (s_name x) (s_type x) (curr_val x) (curr_tri x) (user_val x) (user_tri x) v (s_flags x) (s_prop x) (rev_expr x) (rev_tri x).
Definition with_prop (l : list property) (x : sym) : sym :=
  mk_sym (s_name x) (s_type x) (curr_val x) (curr_tri x) (user_val x) (user_tri x) (s_visible x) (s_flags x) l (rev_expr x) (rev_tri x).
Definition with_rev (v : Z) (x : sym) : sym :=
  mk_sym (s_name x) (s_type x) (curr_val x) (curr_tri x) (user_val x) (user_tri x) (s_visible x) (s_flags x) (s_prop x) (rev_expr x) v.

Definition flag (x : sym) (m : Z) : bool := negb (Z.land (s_flags x) m =? 0).
Definition add_flag (s : symbol) (m : Z) : K unit := wr_sym s (with_flags (fun f => Z.lor f m)).
Definition drop_flag (s : symbol) (m : Z) : K unit := wr_sym s (with_flags (fun f => Z.ldiff f m)).
Definition sym_is_choice (x : sym) : bool := flag x SYMBOL_CHOICE.
Definition sym_is_choice_value (x : sym) : bool := flag x SYMBOL_CHOICEVAL.
Definition sym_has_value (x : sym) : bool := negb (flag x SYMBOL_NEW).

(** The static symbols of symbol.c; their strings have identities of their own. *)
Definition str_y : vptr := VStr (-1) (chars "y").
Definition str_m : vptr := VStr (-2) (chars "m").
Definition str_p : vptr := VStr (-3) (chars "p").
Definition str_n : vptr := VStr (-4) (chars "n").
Definition str_empty : vptr := VStr (-5) [].
Definition static_sym (name : vptr) (t f : Z) : sym := mk_sym (Some name) S_UNKNOWN name t VNull 0 0 f [] None 0.
Definition static_syms : gmap symbol sym := list_to_map
  [(symbol_yes, static_sym str_y tri_yes (Z.lor SYMBOL_YES SYMBOL_VALID));
   (symbol_mod, static_sym str_m tri_mod (Z.lor SYMBOL_MOD SYMBOL_VALID));
   (symbol_metapack, static_sym str_p tri_metapack (Z.lor SYMBOL_METAPACK SYMBOL_VALID));
   (symbol_no, static_sym str_n tri_no (Z.lor SYMBOL_NO SYMBOL_VALID));
   (symbol_empty, static_sym str_empty tri_no SYMBOL_VALID)].

(** ** Types, properties, changes *)

Definition sym_get_type (s : symbol) : K symbol_type :=
  x <- rd_sym s ;;
  m <- gets modules_val ;;
  ret (if bool_decide (s_type x = S_TRISTATE) then
         if sym_is_choice_value x && (s_visible x =? tri_yes) then S_BOOLEAN
         else if m =? tri_no then S_BOOLEAN else S_TRISTATE
       else s_type x).

Definition prop_get_symbol (p : property) : K (option symbol) :=
  match p_expr p with
  | Some (Sym s) => ret (Some s)
  | Some (Choice None _) => ret None
  | Some (Choice (Some _) _) => fail (BadAddr 0)   (* an expression read as a symbol *)
  | _ => ret None
  end.

(** The first property of a type, and its place *)
Definition first_prop (t : prop_type) (x : sym) : option property :=
  snd <$> list_find (fun p => p_type p = t) (s_prop x).
Definition sym_get_choice_prop (s : symbol) : K (option property) := x <- rd_sym s ;; ret (first_prop P_CHOICE x).

Definition set_prop_tri (s : symbol) (i : nat) (v : Z) : K unit :=
  wr_sym s (fun x => with_prop (alter (fun p => mk_prop (p_type p) (p_text p) (p_visible p) v (p_expr p) (p_menu p)) i (s_prop x)) x).

Definition menu_changed (m : Z) : K unit :=
  ms <- gets menus ;;
  f <- lift_opt (BadAddr m) (ms !! m) ;;
  modify (fun k => set_menus (<[m := Z.lor f MENU_CHANGED]> (menus k)) k).
Fixpoint props_changed (l : list property) : K unit :=
  match l with
  | [] => ret tt
  | p :: l => (match p_menu p with Some m => menu_changed m | None => ret tt end) ;;; props_changed l
  end.
Definition sym_set_changed (s : symbol) : K unit :=
  add_flag s SYMBOL_CHANGED ;;;
  x <- rd_sym s ;; props_changed (s_prop x).

Fixpoint each (f : symbol -> K unit) (l : list symbol) : K unit :=
  match l with [] => ret tt | s :: l => f s ;;; each f l end.
(** [for_all_symbols] *)
Definition for_all_symbols (f : symbol -> K unit) : K unit :=
  h <- gets symbol_hash ;;
  each (fun s => x <- rd_sym s ;; if bool_decide (s_type x <> S_OTHER) then f s else ret tt) (concat h).
Definition sym_set_all_changed : K unit := for_all_symbols sym_set_changed.

(** The symbols of a choice, from [prop->expr] on *)
Fixpoint choice_symbols (e : expr) : list symbol :=
  match e with
  | Choice None s => [s]
  | Choice (Some e) s => s :: choice_symbols e
  | _ => []
  end.

(** ** Numbers in strings (the standard library) *)

Definition xdigit_of (c : Z) : option Z :=
  if (48 <=? c) && (c <=? 57) then Some (c - 48)
  else if (97 <=? c) && (c <=? 102) then Some (c - 87)
  else if (65 <=? c) && (c <=? 70) then Some (c - 55) else None.
Fixpoint digits_value (base : Z) (l : list Z) (acc : Z) : Z :=
  match l with
  | [] => acc
  | c :: l => match xdigit_of c with
              | Some d => if d <? base then digits_value base l (acc * base + d) else acc
              | None => acc
              end
  end.
Fixpoint skip_space (l : list Z) : list Z :=
  match l with
  | c :: l' => if (c =? 32) || ((9 <=? c) && (c <=? 13)) then skip_space l' else l
  | [] => []
  end.
(** [strtol], for base 10 and 16 and 64-bit numbers, as an [int] *)
Definition strtol (l : list Z) (base : Z) : Z :=
  let l := skip_space l in
  let '(neg, l) := match l with 45 :: l => (true, l) | 43 :: l => (false, l) | _ => (false, l) end in
  let l := match l with
           | 48 :: x :: c :: _ as l0 =>
               if (base =? 16) && ((x =? 120) || (x =? 88)) && bool_decide (is_Some (xdigit_of c)) then drop 2 l0 else l0
           | _ => l
           end in
  let v := digits_value base l 0 in
  s32 (if neg : bool then Z.max (- 2 ^ 63) (- v) else Z.min (2 ^ 63 - 1) v).

(** The digits of a number that is not negative: ["%d"] and ["%x"] *)
Fixpoint print_digits (n : nat) (base v : Z) (acc : list Z) : list Z :=
  match n with
  | O => acc
  | S n =>
      let d := v mod base in
      let acc := (if d <? 10 then 48 + d else 87 + d) :: acc in
      if v / base =? 0 then acc else print_digits n base (v / base) acc
  end.
Definition print_d (v : Z) : list Z := if v <? 0 then 45 :: print_digits 10 10 (- v) [] else print_digits 10 10 v [].
Definition print_x (v : Z) : list Z := print_digits 8 16 (u32 v) [].

(** A [char *] that is read *)
Definition str_of (v : vptr) : K (list Z) :=
  match v with VStr _ l => ret l | VNull => fail NullDeref | VSym _ => fail (BadAddr 0) end.
Definition new_string (l : list Z) : K vptr :=
  id <- gets next_id ;; modify (fun k => set_next_id (id + 1) k) ;;; ret (VStr id l).

(** ** [sym_calc_value] and what it calls; [calc] is the call of it inside *)

Definition sym_get_string_value (s : symbol) : K vptr :=
  x <- rd_sym s ;;
  ret (match s_type x with
       | S_BOOLEAN | S_TRISTATE =>
           if curr_tri x =? tri_no then str_n else if curr_tri x =? tri_mod then str_m
           else if curr_tri x =? tri_yes then str_y else if curr_tri x =? tri_metapack then str_p else curr_val x
       | _ => curr_val x
       end).

Section Calc.
Context (calc : symbol -> K unit).

(** [strcmp] of the strings of two symbols *)
Definition same_string (l r : symbol) : K bool :=
  calc l ;;; calc r ;;;
  v1 <- sym_get_string_value l ;; v2 <- sym_get_string_value r ;;
  a <- str_of v1 ;; b <- str_of v2 ;; ret (strcmp_l a b =? 0).

Fixpoint calc_expr (e : expr) : K Z :=
  match e with
  | Sym s => calc s ;;; x <- rd_sym s ;; ret (curr_tri x)
  | And a b => v1 <- calc_expr a ;; v2 <- calc_expr b ;; ret (tri_and v1 v2)
  | Or a b => v1 <- calc_expr a ;; v2 <- calc_expr b ;; ret (tri_or v1 v2)
  | Not a => v1 <- calc_expr a ;; ret (tri_not v1)
  | Equal l r => b <- same_string l r ;; ret (if b : bool then tri_yes else tri_no)
  | Unequal l r => b <- same_string l r ;; ret (if b : bool then tri_no else tri_yes)
  | Choice _ _ | Range _ _ => ret tri_no
  end.
Definition calc_expr_opt (e : option expr) : K Z := match e with None => ret tri_yes | Some e => calc_expr e end.

(** [for_all_properties] with [prop->visible.tri = expr_calc_value(...)]: the first
    property of the type that is not [n].  What kind the properties of a symbol
    are and their expressions do not change meanwhile. *)
Fixpoint visible_prop (t : prop_type) (s : symbol) (i : nat) (l : list property) : K (option property) :=
  match l with
  | [] => ret None
  | p :: l =>
      if bool_decide (p_type p = t) then
        v <- calc_expr_opt (p_visible p) ;;
        set_prop_tri s i v ;;;
        if negb (v =? tri_no) then ret (Some p) else visible_prop t s (S i) l
      else visible_prop t s (S i) l
  end.
Definition sym_get_default_prop (s : symbol) : K (option property) := x <- rd_sym s ;; visible_prop P_DEFAULT s 0 (s_prop x).
Definition sym_get_range_prop (s : symbol) : K (option property) := x <- rd_sym s ;; visible_prop P_RANGE s 0 (s_prop x).

Definition sym_get_range_val (s : symbol) (base : Z) : K Z :=
  calc s ;;;
  x <- rd_sym s ;;
  l <- str_of (curr_val x) ;;
  ret (strtol l (match s_type x with S_INT => 10 | S_HEX => 16 | _ => base end)).

Definition sym_validate_range (s : symbol) : K unit :=
  x <- rd_sym s ;;
  match (match s_type x with S_INT => Some 10 | S_HEX => Some 16 | _ => None end) with
  | None => ret tt
  | Some base =>
      p <- sym_get_range_prop s ;;
      match p with
      | None => ret tt
      | Some p =>
          x <- rd_sym s ;; l <- str_of (curr_val x) ;;
          let val := strtol l base in
          ' (lo, hi) <- lift_opt (BadAddr 0) (match p_expr p with Some (Range lo hi) => Some (lo, hi) | _ => None end) ;;
          val2 <- sym_get_range_val lo base ;;
          r <- (if val2 <=? val then
                  val2 <- sym_get_range_val hi base ;; ret (if val <=? val2 then None else Some val2)
                else ret (Some val2)) ;;
          match r with
          | None => ret tt
          | Some val2 =>
              str <- new_string (match s_type x with S_INT => print_d val2 | _ => chars "0x" ++ print_x val2 end) ;;
              wr_sym s (fun x => with_curr str (curr_tri x) x)
          end
      end
  end.

(** The loop over the prompts *)
Fixpoint prompts_value (s : symbol) (i : nat) (l : list property) (tri : Z) : K Z :=
  match l with
  | [] => ret tri
  | p :: l =>
      if p_text p then
        v <- calc_expr_opt (p_visible p) ;; set_prop_tri s i v ;;; prompts_value s (S i) l (tri_or tri v)
      else prompts_value s (S i) l tri
  end.

Definition sym_calc_visibility (s : symbol) : K unit :=
  x <- rd_sym s ;;
  tri <- prompts_value s 0 (s_prop x) tri_no ;;
  m <- gets modules_val ;;
  let tri := if (tri =? tri_mod) && (bool_decide (s_type x <> S_TRISTATE) || (m =? tri_no)) then tri_yes else tri in
  x <- rd_sym s ;;
  (if negb (s_visible x =? tri) then wr_sym s (with_visible tri) ;;; sym_set_changed s else ret tt) ;;;
  x <- rd_sym s ;;
  if sym_is_choice_value x then ret tt else
  tri <- (match rev_expr x with Some e => calc_expr e | None => ret tri_no end) ;;
  t <- sym_get_type s ;;
  let tri := if (tri =? tri_mod) && bool_decide (t = S_BOOLEAN) then tri_yes else tri in
  x <- rd_sym s ;;
  if negb (rev_tri x =? tri) then wr_sym s (with_rev tri) ;;; sym_set_changed s else ret tt.

(** [sym_calc_visibility(def_sym); if (def_sym->visible != no) return def_sym;] *)
Definition visible_now (s : symbol) : K bool :=
  sym_calc_visibility s ;;; x <- rd_sym s ;; ret (negb (s_visible x =? tri_no)).

(** The first default that is visible and whose symbol is *)
Fixpoint default_choice (s : symbol) (i : nat) (l : list property) : K (option symbol) :=
  match l with
  | [] => ret None
  | p :: l =>
      if bool_decide (p_type p = P_DEFAULT) then
        v <- calc_expr_opt (p_visible p) ;;
        set_prop_tri s i v ;;;
        if v =? tri_no then default_choice s (S i) l else
        d <- prop_get_symbol p ;;
        d <- lift_opt NullDeref d ;;
        b <- visible_now d ;;
        if b : bool then ret (Some d) else default_choice s (S i) l
      else default_choice s (S i) l
  end.
Fixpoint first_visible (l : list symbol) : K (option symbol) :=
  match l with
  | [] => ret None
  | d :: l => b <- visible_now d ;; if b : bool then ret (Some d) else first_visible l
  end.

Definition sym_calc_choice (s : symbol) : K vptr :=
  x <- rd_sym s ;;
  r <- (match user_val x with
        | VNull => ret None
        | VSym d => b <- visible_now d ;; ret (if b : bool then Some d else None)
        | VStr _ _ => fail (BadAddr 0)
        end) ;;
  match r with
  | Some d => ret (VSym d)
  | None =>
      x <- rd_sym s ;;
      r <- default_choice s 0 (s_prop x) ;;
      match r with
      | Some d => ret (VSym d)
      | None =>
          p <- sym_get_choice_prop s ;;
          p <- lift_opt NullDeref p ;;
          r <- first_visible (match p_expr p with Some e => choice_symbols e | None => [] end) ;;
          match r with
          | Some d => ret (VSym d)
          | None => wr_sym s (fun x => with_curr (curr_val x) tri_no x) ;;; ret VNull
          end
      end
  end.

(** The new value of a boolean or tristate symbol, before [m] is ruled out *)
Definition calc_tristate (s : symbol) : K Z :=
  x <- rd_sym s ;;
  if sym_is_choice_value x && (s_visible x =? tri_yes) then
    p <- sym_get_choice_prop s ;;
    p <- lift_opt NullDeref p ;;
    c <- prop_get_symbol p ;;
    c <- lift_opt NullDeref c ;;
    y <- rd_sym c ;;
    ret (if bool_decide (curr_val y = VSym s) then tri_yes else tri_no)
  else if negb (tri_or (s_visible x) (rev_tri x) =? tri_no) then
    add_flag s SYMBOL_WRITE ;;;
    x <- rd_sym s ;;
    tri <- (if sym_has_value x then ret (user_tri x)
            else if sym_is_choice x then ret tri_no else
            p <- sym_get_default_prop s ;;
            match p with Some p => calc_expr_opt (p_expr p) | None => ret tri_no end) ;;
    x <- rd_sym s ;;
    ret (tri_or (tri_and tri (s_visible x)) (rev_tri x))
  else if sym_is_choice x then ret tri_no else
    p <- sym_get_default_prop s ;;
    match p with
    | Some p => add_flag s SYMBOL_WRITE ;;; calc_expr_opt (p_expr p)
    | None => ret tri_no
    end.

(** The new value of a string or number *)
Definition calc_string (s : symbol) : K vptr :=
  x <- rd_sym s ;;
  r <- (if negb (s_visible x =? tri_no) then
          add_flag s SYMBOL_WRITE ;;; ret (if sym_has_value x then Some (user_val x) else None)
        else ret None) ;;
  match r with
  | Some v => ret v
  | None =>
      p <- sym_get_default_prop s ;;
      match p with
      | None => ret str_empty
      | Some p =>
          d <- prop_get_symbol p ;;
          match d with
          | None => ret str_empty
          | Some d => add_flag s SYMBOL_WRITE ;;; calc d ;;; y <- rd_sym d ;; ret (curr_val y)
          end
      end
  end.

(** The flags of a choice are passed on to its symbols. *)
Fixpoint pass_flags (flags : Z) (l : list symbol) : K unit :=
  match l with
  | [] => ret tt
  | d :: l =>
      add_flag d flags ;;;
      (if negb (Z.land flags SYMBOL_CHANGED =? 0) then sym_set_changed d else ret tt) ;;;
      pass_flags flags l
  end.

(** What follows the new value *)
Definition after_value (s : symbol) (old_val : vptr) (old_tri tri : Z) : K unit :=
  x <- rd_sym s ;;
  (if sym_is_choice x && (tri =? tri_yes) then
     v <- sym_calc_choice s ;; wr_sym s (fun x => with_curr v (curr_tri x) x)
   else ret tt) ;;;
  sym_validate_range s ;;;
  x <- rd_sym s ;;
  (if bool_decide (curr_val x = old_val) && (curr_tri x =? old_tri) then ret tt else sym_set_changed s) ;;;
  m <- gets modules_sym ;;
  (if bool_decide (m = Some s) then modify (set_modules_val (curr_tri x)) else ret tt) ;;;
  x <- rd_sym s ;;
  if sym_is_choice x then
    p <- sym_get_choice_prop s ;;
    p <- lift_opt NullDeref p ;;
    pass_flags (Z.land (s_flags x) (Z.lor SYMBOL_CHANGED SYMBOL_WRITE))
      (match p_expr p with Some e => choice_symbols e | None => [] end)
  else ret tt.
Definition calc_end (s : symbol) (old_val : vptr) (old_tri : Z) (val : vptr) (tri : Z) : K unit :=
  wr_sym s (with_curr val tri) ;;; after_value s old_val old_tri tri.

(** [sym_calc_value] on a symbol that is not valid *)
Definition calc_rest (s : symbol) : K unit :=
  x <- rd_sym s ;;
  match (match s_type x with
         | S_INT | S_HEX | S_STRING => Some str_empty
         | S_BOOLEAN | S_TRISTATE => Some str_n
         | _ => None
         end) with
  | None => wr_sym s (with_curr (default VNull (s_name x)) tri_no)
  | Some newval =>
      (if negb (sym_is_choice_value x) then drop_flag s SYMBOL_WRITE else ret tt) ;;;
      sym_calc_visibility s ;;;
      wr_sym s (with_curr newval tri_no) ;;;
      t <- sym_get_type s ;;
      match t with
      | S_BOOLEAN | S_TRISTATE =>
          tri <- calc_tristate s ;;
          t <- sym_get_type s ;;
          let tri := if ((tri =? tri_mod) || (tri =? tri_metapack)) && bool_decide (t = S_BOOLEAN) then tri_no else tri in
          calc_end s (curr_val x) (curr_tri x) newval tri
      | S_STRING | S_HEX | S_INT =>
          v <- calc_string s ;; calc_end s (curr_val x) (curr_tri x) v tri_no
      | _ => calc_end s (curr_val x) (curr_tri x) newval tri_no
      end
  end.
Definition calc_body (s : symbol) : K unit := add_flag s SYMBOL_VALID ;;; calc_rest s.
End Calc.

Fixpoint sym_calc (n : nat) (s : symbol) : K unit :=
  x <- rd_sym s ;;
  if flag x SYMBOL_VALID then ret tt else
  match n with O => fail OutOfFuel | S n => calc_body (sym_calc n) s end.

(** As much fuel as there are symbols *)
Definition calc_fuel (k : kconf) : nat := base.size (tab k).
Definition sym_calc_value (s : option symbol) : K unit :=
  match s with None => ret tt | Some s => n <- gets calc_fuel ;; sym_calc n s end.
Definition expr_calc_value (e : option expr) : K Z :=
  n <- gets calc_fuel ;; calc_expr_opt (sym_calc n) e.

Definition sym_clear_all_valid : K unit :=
  for_all_symbols (fun s => drop_flag s SYMBOL_VALID) ;;;
  modify (fun k => set_change_count (s32 (sym_change_count k + 1)) k) ;;;
  m <- gets modules_sym ;; sym_calc_value m.

(** ** Setting a value *)

Definition sym_tristate_within_range (s : symbol) (val : Z) : K bool :=
  t <- sym_get_type s ;;
  x <- rd_sym s ;;
  ret (if s_visible x =? tri_no then false
       else if bool_decide (t <> S_BOOLEAN) && bool_decide (t <> S_TRISTATE) then false
       else if bool_decide (t = S_BOOLEAN) && (val =? tri_mod) then false
       else if s_visible x <=? rev_tri x then false
       else if sym_is_choice_value x && (s_visible x =? tri_yes) then val =? tri_yes
       else (rev_tri x <=? val) && (val <=? 3)).

(** A new choice: the flag [SYMBOL_NEW] of the visible symbols goes. *)
Fixpoint not_new (l : list symbol) : K unit :=
  match l with
  | [] => ret tt
  | d :: l => x <- rd_sym d ;; (if negb (s_visible x =? tri_no) then drop_flag d SYMBOL_NEW else ret tt) ;;; not_new l
  end.

Definition sym_set_tristate_value (s : symbol) (val : Z) : K bool :=
  x <- rd_sym s ;;
  let oldval := curr_tri x in
  b <- (if oldval =? val then ret true else sym_tristate_within_range s val) ;;
  if negb b then ret false else
  (if flag x SYMBOL_NEW then drop_flag s SYMBOL_NEW ;;; sym_set_changed s else ret tt) ;;;
  (if sym_is_choice_value x && (val =? tri_yes) then
     p <- sym_get_choice_prop s ;;
     p <- lift_opt NullDeref p ;;
     cs <- prop_get_symbol p ;;
     cs <- lift_opt NullDeref cs ;;
     wr_sym cs (fun y => with_user (VSym s) (user_tri y) y) ;;;
     drop_flag cs SYMBOL_NEW ;;;
     p <- sym_get_choice_prop cs ;;
     p <- lift_opt NullDeref p ;;
     not_new (match p_expr p with Some e => choice_symbols e | None => [] end)
   else ret tt) ;;;
  wr_sym s (fun y => with_user (user_val y) val y) ;;;
  (if oldval =? val then ret tt else
     sym_clear_all_valid ;;;
     m <- gets modules_sym ;;
     if bool_decide (m = Some s) then sym_set_all_changed else ret tt) ;;;
  ret true.

(** The next value to try; another value than the four stays. *)
Definition toggled (v : Z) : Z :=
  if v =? tri_yes then tri_mod else if v =? tri_mod then tri_metapack
  else if v =? tri_metapack then tri_no else if v =? tri_no then tri_yes else v.
Definition sym_toggle_tristate_value (s : symbol) : K Z :=
  x <- rd_sym s ;;
  let oldval := curr_tri x in
  loop 5 (fun newval =>
      let newval := toggled newval in
      b <- sym_set_tristate_value s newval ;;
      ret (if (b : bool) || (oldval =? newval) then inr newval else inl newval)) oldval.

(** ** Strings *)

(** A string ends with a zero, which is not a digit. *)
Definition char_at (l : list Z) (i : nat) : Z := default 0 (l !! i).
Definition isxdigit (c : Z) : bool := bool_decide (is_Some (xdigit_of c)).

Definition sym_string_valid (t : symbol_type) (str : list Z) : bool :=
  match t with
  | S_STRING => true
  | S_INT =>
      let str := if char_at str 0 =? 45 then drop 1 str else str in
      isdigit (char_at str 0) && negb ((char_at str 0 =? 48) && negb (char_at str 1 =? 0)) && forallb isdigit (drop 1 str)
  | S_HEX =>
      let str := if (char_at str 0 =? 48) && ((char_at str 1 =? 120) || (char_at str 1 =? 88)) then drop 2 str else str in
      isxdigit (char_at str 0) && forallb isxdigit (drop 1 str)
  | S_BOOLEAN | S_TRISTATE =>
      bool_decide (char_at str 0 ∈ chars "yYmMnNpP")
  | S_UNKNOWN | S_OTHER => false
  end.

(** The value that the first letter of a string names *)
Definition letter_value (str : list Z) : option Z :=
  let c := char_at str 0 in
  if bool_decide (c ∈ chars "yY") then Some tri_yes else if bool_decide (c ∈ chars "mM") then Some tri_mod
  else if bool_decide (c ∈ chars "pP") then Some tri_metapack else if bool_decide (c ∈ chars "nN") then Some tri_no
  else None.

Definition within (s : symbol) (str : list Z) (base : Z) : K bool :=
  n <- gets calc_fuel ;;
  p <- sym_get_range_prop (sym_calc n) s ;;
  match p with
  | None => ret true
  | Some p =>
      let val := strtol str base in
      ' (lo, hi) <- lift_opt (BadAddr 0) (match p_expr p with Some (Range lo hi) => Some (lo, hi) | _ => None end) ;;
      v1 <- sym_get_range_val (sym_calc n) lo base ;;
      if v1 <=? val then v2 <- sym_get_range_val (sym_calc n) hi base ;; ret (val <=? v2) else ret false
  end.

Definition sym_string_within_range (s : symbol) (str : list Z) : K bool :=
  x <- rd_sym s ;;
  match s_type x with
  | S_STRING => ret (sym_string_valid S_STRING str)
  | S_INT => if sym_string_valid S_INT str then within s str 10 else ret false
  | S_HEX => if sym_string_valid S_HEX str then within s str 16 else ret false
  | S_BOOLEAN | S_TRISTATE =>
      match letter_value str with Some v => sym_tristate_within_range s v | None => ret false end
  | S_UNKNOWN | S_OTHER => ret false
  end.

Definition sym_set_string_value (s : symbol) (newval : list Z) : K bool :=
  x <- rd_sym s ;;
  match s_type x with
  | S_BOOLEAN | S_TRISTATE =>
      match letter_value newval with Some v => sym_set_tristate_value s v | None => ret false end
  | _ =>
      b <- sym_string_within_range s newval ;;
      if negb b then ret false else
      x <- rd_sym s ;;
      (if flag x SYMBOL_NEW then drop_flag s SYMBOL_NEW ;;; sym_set_changed s else ret tt) ;;;
      let prefixed := (char_at newval 0 =? 48) && ((char_at newval 1 =? 120) || (char_at newval 1 =? 88)) in
      new <- (if bool_decide (s_type x = S_HEX) && negb prefixed then ret (Some (chars "0x" ++ newval)) else
              match user_val x with
              | VNull => ret (Some newval)
              | v => old <- str_of v ;; ret (if strcmp_l old newval =? 0 then None else Some newval)
              end) ;;
      match new with
      | None => ret true
      | Some l =>
          v <- new_string l ;; wr_sym s (fun y => with_user v (user_tri y) y) ;;;
          sym_clear_all_valid ;;; ret true
      end
  end.

Definition sym_is_changable (s : symbol) : K bool := x <- rd_sym s ;; ret (rev_tri x <? s_visible x).
Definition sym_get_choice_value (s : symbol) : K vptr := x <- rd_sym s ;; ret (curr_val x).
Definition sym_set_choice_value (ch chval : symbol) : K bool := sym_set_tristate_value chval tri_yes.
Definition sym_type_name (t : symbol_type) : list Z :=
  match t with
  | S_BOOLEAN => chars "boolean" | S_TRISTATE => chars "tristate" | S_INT => chars "integer" | S_HEX => chars "hex"
  | S_STRING => chars "string" | S_UNKNOWN => chars "unknown" | S_OTHER => chars "???"
  end.
Definition prop_get_type_name (t : prop_type) : list Z :=
  match t with
  | P_PROMPT => chars "prompt" | P_COMMENT => chars "comment" | P_MENU => chars "menu" | P_DEFAULT => chars "default"
  | P_CHOICE => chars "choice" | P_SELECT => chars "select" | P_RANGE => chars "range" | P_UNKNOWN => chars "unknown"
  end.

(** ** Finding a symbol by its name *)

(** [hash &= 0xff] of the sum of the characters, which are signed *)
Definition name_hash (name : list Z) : Z := Z.land (s32 (foldl (fun h c => h + s8 c) 0 name)) 0xff.
Definition one_letter (name : list Z) : option symbol :=
  match name with
  | [c] => if c =? 121 then Some symbol_yes else if c =? 109 then Some symbol_mod
           else if c =? 112 then Some symbol_metapack else if c =? 110 then Some symbol_no else None
  | _ => None
  end.
(** The first of a chain with the name, and [SYMBOL_CONST] set or not *)
Fixpoint in_chain (l : list symbol) (name : list Z) (isconst : bool) : K (option symbol) :=
  match l with
  | [] => ret None
  | s :: l =>
      x <- rd_sym s ;;
      n <- str_of (default VNull (s_name x)) ;;
      if (strcmp_l n name =? 0) && eqb (flag x SYMBOL_CONST) isconst then ret (Some s) else in_chain l name isconst
  end.
Definition chain (h : Z) : K (list symbol) := t <- gets symbol_hash ;; lift_opt (BadIndex h) (t !! Z.to_nat h).

Definition sym_find (name : list Z) : K (option symbol) :=
  match one_letter name with
  | Some s => ret (Some s)
  | None => l <- chain (name_hash name) ;; in_chain l name false
  end.

(** [new] is where [malloc] puts a new symbol. *)
Definition sym_lookup (new : Z) (name : option (list Z)) (isconst : bool) : K symbol :=
  let h := match name with Some n => name_hash n | None => 256 end in
  found <- (match name with
            | None => ret None
            | Some n => match one_letter n with
                        | Some s => ret (Some s)
                        | None => l <- chain h ;; in_chain l n isconst
                        end
            end) ;;
  match found with
  | Some s => ret s
  | None =>
      v <- (match name with Some n => v <- new_string n ;; ret (Some v) | None => ret None end) ;;
      let s := sym_at new in
      modify (fun k => set_tab (<[s := mk_sym v S_UNKNOWN VNull 0 VNull 0 0
        (Z.lor SYMBOL_NEW (if isconst then SYMBOL_CONST else 0)) [] None 0]> (tab k)) k) ;;;
      l <- chain h ;;
      modify (fun k => mk_kconf (tab k) (menus k) (<[Z.to_nat h := s :: l]> (symbol_hash k)) (modules_sym k) (modules_val k)
        (sym_change_count k) (next_id k)) ;;;
      ret s
  end.

(** [matches] is [regexec] for the compiled pattern, [None] if [regcomp] refuses it. *)
Fixpoint re_matches (matches : list Z -> bool) (l : list symbol) : K (list symbol) :=
  match l with
  | [] => ret []
  | s :: l =>
      x <- rd_sym s ;;
      if bool_decide (s_type x = S_OTHER) || flag x SYMBOL_CONST then re_matches matches l else
      match s_name x with
      | None => re_matches matches l
      | Some v => n <- str_of v ;; r <- re_matches matches l ;; ret (if matches n then s :: r else r)
      end
  end.
Definition sym_re_search (regcomp : list Z -> option (list Z -> bool)) (pattern : list Z) : K (option (list symbol)) :=
  match pattern, regcomp pattern with
  | _ :: _, Some matches =>
      h <- gets symbol_hash ;;
      r <- re_matches matches (concat h) ;;
      ret (match r with [] => None | _ => Some r end)
  | _, _ => ret None
  end.

(** ** Recursive dependencies; [check] is the call of [sym_check_deps] inside *)

Section Check.
Context (check : symbol -> K (option symbol)).

Fixpoint check_expr_deps (e : expr) : K (option symbol) :=
  match e with
  | Or a b | And a b => r <- check_expr_deps a ;; match r with Some s => ret (Some s) | None => check_expr_deps b end
  | Not a => check_expr_deps a
  | Equal l r | Unequal l r => x <- check l ;; match x with Some s => ret (Some s) | None => check r end
  | Sym s => check s
  | Choice _ _ | Range _ _ => ret None   (* a message *)
  end.
Definition sym_check_expr_deps (e : option expr) : K (option symbol) :=
  match e with None => ret None | Some e => check_expr_deps e end.

(** The loop over the properties *)
Fixpoint check_props (choice : bool) (l : list property) : K (option symbol) :=
  match l with
  | [] => ret None
  | p :: l =>
      if bool_decide (p_type p = P_CHOICE) || bool_decide (p_type p = P_SELECT) then check_props choice l else
      r <- sym_check_expr_deps (p_visible p) ;;
      match r with
      | Some s => ret (Some s)
      | None =>
          if bool_decide (p_type p <> P_DEFAULT) || choice then check_props choice l else
          r <- sym_check_expr_deps (p_expr p) ;;
          match r with Some s => ret (Some s) | None => check_props choice l end
      end
  end.
End Check.

(** The messages are left out. *)
Fixpoint check_deps (n : nat) (s : symbol) : K (option symbol) :=
  x <- rd_sym s ;;
  if flag x SYMBOL_CHECK then ret (Some s) else
  if flag x SYMBOL_CHECKED then ret None else
  match n with
  | O => fail OutOfFuel
  | S n =>
      add_flag s (Z.lor SYMBOL_CHECK SYMBOL_CHECKED) ;;;
      r <- sym_check_expr_deps (check_deps n) (rev_expr x) ;;
      r <- (match r with Some s2 => ret (Some s2) | None => check_props (check_deps n) (sym_is_choice x) (s_prop x) end) ;;
      drop_flag s SYMBOL_CHECK ;;;
      ret (if bool_decide (r = Some s) then None else r)
  end.
Definition sym_check_deps (s : symbol) : K (option symbol) := n <- gets calc_fuel ;; check_deps n s.

(** ** Making symbols and properties *)

(** The new property is the last of its symbol; its place in the file is left out. *)
Definition prop_alloc (t : prop_type) (s : symbol) : K unit :=
  wr_sym s (fun x => with_prop (s_prop x ++ [mk_prop t false None tri_no None None]) x).
Definition set_last_expr (e : expr) (l : list property) : list property :=
  match last l with
  | Some p => take (length l - 1) l ++ [mk_prop (p_type p) (p_text p) (p_visible p) (p_tri p) (Some e) (p_menu p)]
  | None => l
  end.
Definition sym_add_default (new : Z) (s : symbol) (def : list Z) : K unit :=
  prop_alloc P_DEFAULT s ;;;
  d <- sym_lookup new (Some def) true ;;
  wr_sym s (fun x => with_prop (set_last_expr (Sym d) (s_prop x)) x).

Definition set_type (t : symbol_type) (x : sym) : sym :=
  mk_sym (s_name x) t (curr_val x) (curr_tri x) (user_val x) (user_tri x) (s_visible x) (s_flags x) (s_prop x) (rev_expr x) (rev_tri x).
(** [SYMBOL_AUTO] *)
Definition SYMBOL_AUTO : Z := 0x1000.
(** A symbol of [sym_init], with its default if there is one; [new] and [new + 1] are
    where new symbols are put. *)
Definition auto_symbol (new : Z) (name : list Z) (t : symbol_type) (def : option (list Z)) : K unit :=
  s <- sym_lookup new (Some name) false ;;
  wr_sym s (set_type t) ;;; add_flag s SYMBOL_AUTO ;;;
  match def with Some d => sym_add_default (new + 1) s d | None => ret tt end.
(** The first call; what the environment gives is an argument. *)
Definition sym_init (new : Z) (arch kernelversion : option (list Z)) (release : list Z) : K unit :=
  auto_symbol new (chars "ARCH") S_STRING arch ;;;
  auto_symbol (new + 2) (chars "KERNELVERSION") S_STRING kernelversion ;;;
  auto_symbol (new + 4) (chars "UNAME_RELEASE") S_STRING (Some release) ;;;
  auto_symbol (new + 6) (chars "MODULES") S_BOOLEAN (Some (chars "y")).

(** ** Finding symbols *)

Lemma one_letter_none name s : one_letter name = Some s -> exists c, name = [c].
Proof. destruct name as [|c [|d name]]; cbn; try done. eauto. Qed.
Lemma in_chain_state l name c k : match in_chain l name c k with Ok (_, k') => k' = k | Err _ => True end.
Proof.
  revert k. induction l as [|s l IH]; intros k; cbn [in_chain]; [done|].
  unfold rd_sym, bind, gets, lift_opt. destruct (tab k !! s) as [x|]; cbn; [|done].
  unfold str_of. destruct (default VNull (s_name x)); cbn; try done. destruct (_ && _); [done|apply IH].
Qed.

(** [sym_lookup] finds or makes a symbol of the name; [sym_find] and another
    [sym_lookup] find the same one from then on. *)
Theorem sym_lookup_find (new new' : Z) (name : list Z) (s : symbol) (k k' : kconf) :
  sym_lookup new (Some name) false k = Ok (s, k') ->
  sym_find name k' = Ok (Some s, k') /\ sym_lookup new' (Some name) false k' = Ok (s, k').
Proof.
  unfold sym_lookup, sym_find. destruct (one_letter name) as [s0|] eqn:E1.
  { by intros [= <- <-]. }
  unfold chain, bind at 1 2, gets at 1, lift_opt at 1, ret at 1. cbn.
  destruct (symbol_hash k !! Z.to_nat (name_hash name)) as [l|] eqn:El; cbn; [|done].
  pose proof (in_chain_state l name false k) as Hst. destruct (in_chain l name false k) as [[[s0|] k1]|e] eqn:Ec; [| |done]; subst k1.
  - intros [= <- <-]. unfold bind, gets, lift_opt. rewrite El. cbn. by rewrite Ec.
  - unfold bind, gets, lift_opt, new_string, modify. cbn. rewrite El. cbn. intros [= <- <-]. cbn.
    rewrite list_lookup_insert_eq by (by eapply lookup_lt_Some). cbn. unfold rd_sym, bind, gets, lift_opt. cbn.
    rewrite lookup_insert_eq. cbn. by rewrite strcmp_l_refl.
Qed.

(** ** Constants and cycles *)

Lemma land_const f : Z.land f SYMBOL_CONST = SYMBOL_CONST -> Z.land f SYMBOL_CHECK = SYMBOL_CHECK.
Proof. intros H. change SYMBOL_CHECK with (Z.land SYMBOL_CONST SYMBOL_CHECK) at 1. by rewrite Z.land_assoc, H. Qed.
Lemma check_constant n c x k : tab k !! c = Some x -> Z.land (s_flags x) SYMBOL_CONST = SYMBOL_CONST -> check_deps n c k = Ok (Some c, k).
Proof.
  intros Hx Hf%land_const. assert (flag x SYMBOL_CHECK = true) as E by (unfold flag; by rewrite Hf).
  destruct n; cbn [check_deps]; unfold rd_sym, bind, gets, lift_opt; rewrite Hx; cbn -[flag]; by rewrite E.
Qed.

(** [C] is visible if [N] is 10. *)
Definition check_tab : gmap symbol sym := list_to_map
  [(sym_at 1, mk_sym (Some (VStr 1 (chars "N"))) S_INT VNull 0 VNull 0 0 SYMBOL_NEW [] None 0);
   (sym_at 2, mk_sym (Some (VStr 2 (chars "10"))) S_UNKNOWN VNull 0 VNull 0 0 (Z.lor SYMBOL_NEW SYMBOL_CONST) [] None 0);
   (sym_at 3, mk_sym (Some (VStr 3 (chars "C"))) S_BOOLEAN VNull 0 VNull 0 0 SYMBOL_NEW
      [mk_prop P_PROMPT true (Some (Equal (sym_at 1) (sym_at 2))) 0 None None] None 0)].
Definition check_k : kconf := mk_kconf check_tab ∅ (replicate 257 []) None tri_no 0 0.
(** Making [FOO], then finding it *)
Lemma sym_lookup_find_witness : exists s k', sym_lookup 10 (Some (chars "FOO")) false check_k = Ok (s, k') /\
  sym_find (chars "FOO") k' = Ok (Some s, k') /\ sym_lookup 11 (Some (chars "FOO")) false k' = Ok (s, k').
Proof.
  destruct (sym_lookup 10 (Some (chars "FOO")) false check_k) as [[s k']|e] eqn:E; [|vm_compute in E; discriminate E].
  exists s, k'. split; [done|]. exact (sym_lookup_find 10 11 _ _ _ _ E).
Defined.
