(* ===== verification/Kcalc.v ===== *)
(** * What calculating and setting the values of symbols keeps (scripts/kconfig/symbol.c)

    [sym_calc_value] and [expr_calc_value] call each other.  A symbol gets its flag
    [SYMBOL_VALID] before anything it depends on is calculated, so each call inside has
    one symbol without a value less, and a recursive dependency reads the old value.
    The last part is about [sym_check_deps]: it ends, and takes constants for
    recursive dependencies. *)

From stdpp Require Import strings.
From S2P Require Import Prelude Str Bytes Symtab Printk Kexpr Ksym.

(** ** What stays while values are calculated

    [ends m Q k]: [m] does not run out of fuel, and when it returns, [Q] holds. *)
Definition ends {A} (m : K A) (Q : A -> kconf -> Prop) (k : kconf) : Prop :=
  match m k with Ok (a, k') => Q a k' | Err e => e <> OutOfFuel end.

Lemma ends_bind {A B} (m : K A) (f : A -> K B) Q k : ends m (fun a k' => ends (f a) Q k') k -> ends (bind m f) Q k.
Proof. unfold ends, bind. by destruct (m k) as [[a k']|e]. Qed.
Lemma ends_mono {A} (m : K A) (P Q : A -> kconf -> Prop) k : ends m P k -> (forall a k', P a k' -> Q a k') -> ends m Q k.
Proof. unfold ends. destruct (m k) as [[a k']|e]; auto. Qed.

Definition valid (x : sym) : bool := flag x SYMBOL_VALID.
Definition invalid (k : kconf) : gset symbol := dom (filter (fun p => valid p.2 = false) (tab k)).

Lemma elem_of_invalid k s : s ∈ invalid k <-> exists x, tab k !! s = Some x /\ valid x = false.
Proof.
  unfold invalid. rewrite elem_of_dom. split.
  - intros [x [Hx Hv]%map_lookup_filter_Some]. by exists x.
  - intros (x & Hx & Hv). exists x. by apply map_lookup_filter_Some.
Qed.

(** A boolean symbol is not [m], nor what the project calls metapack. *)
Definition two (x : sym) : Prop := s_type x = S_BOOLEAN -> curr_tri x <> tri_mod /\ curr_tri x <> tri_metapack.
Definition types (k : kconf) : gmap symbol symbol_type := s_type <$> tab k.

(** The symbol [ex], whose value is being calculated, may change as [R] says; every
    other symbol that has a value keeps it. *)
Definition kept (ex : option symbol) (R : sym -> sym -> Prop) (s : symbol) (x x' : sym) : Prop :=
  s_type x' = s_type x /\ (two x -> two x') /\
  (valid x = true -> valid x' = true /\
    if bool_decide (ex = Some s) then R x x' else curr_val x' = curr_val x /\ curr_tri x' = curr_tri x).
Definition grows (ex : option symbol) (R : sym -> sym -> Prop) (k k' : kconf) : Prop :=
  dom (tab k') = dom (tab k) /\
  forall s x, tab k !! s = Some x -> exists x', tab k' !! s = Some x' /\ kept ex R s x x'.

(** The tristate value stays, or becomes [n]. *)
Definition tri_kept (x x' : sym) : Prop := curr_tri x' = curr_tri x \/ curr_tri x' = tri_no.
Class Allows (R : sym -> sym -> Prop) : Prop := {
  al_trans : forall x y z, R x y -> R y z -> R x z;
  al_tri : forall x x', tri_kept x x' -> R x x'
}.
#[export] Instance allows_tri : Allows tri_kept.
Proof. split; unfold tri_kept; [intros x y z [->| ->] [->| ->]; tauto|done]. Qed.
Definition anything (x x' : sym) : Prop := True.
#[export] Instance allows_anything : Allows anything.
Proof. by split. Qed.

Section Grows.
Context (R : sym -> sym -> Prop) `{HR : !Allows R}.

Lemma kept_refl ex s x : kept ex R s x x.
Proof. split; [done|]. split; [done|]. intros Hv. split; [done|]. case_bool_decide; [|done]. apply al_tri. by left. Qed.
Lemma grows_refl ex k : grows ex R k k.
Proof. split; [done|]. intros s x Hx. exists x. split; [done|apply kept_refl]. Qed.
Lemma grows_trans ex k1 k2 k3 : grows ex R k1 k2 -> grows ex R k2 k3 -> grows ex R k1 k3.
Proof.
  intros [D1 H1] [D2 H2]. split; [congruence|]. intros s x Hx. destruct (H1 s x Hx) as (y & Hy & T1 & B1 & K1).
  destruct (H2 s y Hy) as (z & Hz & T2 & B2 & K2). exists z. split; [done|]. split; [congruence|]. split; [auto|]. intros Hv.
  destruct (K1 Hv) as [V1 E1], (K2 V1) as [V2 E2]. split; [done|]. case_bool_decide; [by eapply al_trans|].
  destruct E1, E2. split; congruence.
Qed.
Lemma grows_invalid ex k k' : grows ex R k k' -> (base.size (invalid k') <= base.size (invalid k))%nat.
Proof.
  intros [D H]. apply subseteq_size. intros s (x' & Hx' & Hv)%elem_of_invalid. apply elem_of_invalid.
  assert (is_Some (tab k !! s)) as [x Hx] by (rewrite <- elem_of_dom, <- D; apply elem_of_dom; eauto).
  exists x. split; [done|]. destruct (H s x Hx) as (y & Hy & _ & _ & K). assert (y = x') as -> by congruence.
  destruct (valid x); [|done]. destruct (K eq_refl). congruence.
Qed.

Lemma grows_types ex k k' : grows ex R k k' -> types k' = types k.
Proof.
  intros [D H]. apply map_eq. intros s. unfold types. rewrite !lookup_fmap. destruct (tab k !! s) as [x|] eqn:E.
  - destruct (H s x E) as (x' & -> & T & _). cbn. by rewrite T.
  - apply not_elem_of_dom in E. rewrite <- D in E. apply not_elem_of_dom in E. by rewrite E.
Qed.

(** [m] keeps values, given that at most [n] symbols have none; [ty] are the types
    of the symbols, which do not change. *)
Context (ty : gmap symbol symbol_type).
Definition calm {A} (ex : option symbol) (n : nat) (m : K A) : Prop :=
  forall k, types k = ty -> (base.size (invalid k) <= n)%nat -> ends m (fun _ k' => grows ex R k k') k.

Lemma calm_ret {A} ex n (a : A) : calm ex n (ret a).
Proof. intros k _ _. apply grows_refl. Qed.
Lemma calm_fail {A} ex n e : e <> OutOfFuel -> calm ex n (fail (A := A) e).
Proof. by intros He k _ _. Qed.
Lemma calm_gets {A} ex n (f : kconf -> A) : calm ex n (gets f).
Proof. intros k _ _. apply grows_refl. Qed.
Lemma calm_lift {A} ex n e (o : option A) : e <> OutOfFuel -> calm ex n (lift_opt e o).
Proof. intros He. destruct o; [apply calm_ret|by apply calm_fail]. Qed.
Lemma calm_bind {A B} ex n (m : K A) (f : A -> K B) : calm ex n m -> (forall a, calm ex n (f a)) -> calm ex n (bind m f).
Proof.
  intros Hm Hf k Ht Hk. apply ends_bind. eapply ends_mono; [by apply Hm|]. intros a k' Hg. cbv beta.
  eapply ends_mono; [apply Hf; [by rewrite (grows_types _ _ _ Hg)|pose proof (grows_invalid _ _ _ Hg); lia]|]. intros b k'' Hg'. exact (grows_trans _ _ _ _ Hg Hg').
Qed.
Lemma calm_modify ex n f : (forall k, tab (f k) = tab k) -> calm ex n (modify f).
Proof.
  intros Hf k _ _. cbn. split; [by rewrite Hf|]. intros s x Hx. exists x. rewrite Hf. split; [done|apply kept_refl].
Qed.
Lemma calm_rd ex n s : calm ex n (rd_sym s).
Proof. apply calm_bind; [apply calm_gets|]. intros t. by apply calm_lift. Qed.
Lemma calm_wr ex n s f : (forall x, ty !! s = Some (s_type x) -> kept ex R s x (f x)) -> calm ex n (wr_sym s f).
Proof.
  intros Hf k Ht _. unfold wr_sym, rd_sym, bind, gets, lift_opt, ends, modify. destruct (tab k !! s) as [x|] eqn:Hx; cbn; [|done].
  split; [cbn; rewrite dom_insert_L; assert (s ∈ dom (tab k)) by (apply elem_of_dom; eauto); set_solver|].
  intros s' y Hy. cbn. destruct (decide (s = s')) as [->|Hne].
  - exists (f x). rewrite lookup_insert_eq. split; [done|]. assert (y = x) as -> by congruence. apply Hf. by rewrite <- Ht; unfold types; rewrite lookup_fmap, Hx.
  - exists y. rewrite lookup_insert_ne by done. split; [done|apply kept_refl].
Qed.
End Grows.

Lemma land_lor_valid f m : negb (Z.land f SYMBOL_VALID =? 0) = true -> negb (Z.land (Z.lor f m) SYMBOL_VALID =? 0) = true.
Proof.
  rewrite !negb_true_iff, !Z.eqb_neq, Z.land_lor_distr_l. intros H E. apply H. apply Z.lor_eq_0_iff in E as [E _]; exact E.
Qed.
Lemma land_lor_other f m c : Z.land m c = 0 -> Z.land (Z.lor f m) c = Z.land f c.
Proof. intros H. by rewrite Z.land_lor_distr_l, H, Z.lor_0_r. Qed.
Lemma land_ldiff_other f m c : Z.land m c = 0 -> Z.land (Z.ldiff f m) c = Z.land f c.
Proof.
  intros H. apply Z.bits_inj'. intros i Hi. assert (Z.testbit (Z.land m c) i = false) as E by (by rewrite H, Z.testbit_0_l).
  rewrite Z.land_spec in *. rewrite Z.land_spec, Z.ldiff_spec. by destruct (Z.testbit m i), (Z.testbit c i), (Z.testbit f i).
Qed.

Section Calm.
Context (R : sym -> sym -> Prop) `{HR : !Allows R} (ty : gmap symbol symbol_type).
Notation calm := (calm R ty).

(** A change that is not of the value *)
Lemma kept_same ex s x y : s_type y = s_type x -> (valid x = true -> valid y = true) ->
  curr_val y = curr_val x -> curr_tri y = curr_tri x -> kept ex R s x y.
Proof. intros H1 H2 H3 H4. split; [done|]. split; [unfold two; by rewrite H1, H4|]. intros Hv. split; [auto|]. case_bool_decide; [|done]. apply al_tri. by left. Qed.
(** A change of the value of the symbol that is being calculated *)
Lemma kept_own s x y : s_type y = s_type x -> valid y = valid x -> (two x -> two y) -> R x y -> kept (Some s) R s x y.
Proof. intros H1 H2 H3 H4. split; [done|]. split; [done|]. intros Hv. split; [congruence|]. by rewrite bool_decide_true. Qed.

Lemma calm_add_flag ex n s m : calm ex n (add_flag s m).
Proof. apply calm_wr; [done|]. intros x _. apply kept_same; try done. apply land_lor_valid. Qed.
Lemma calm_drop_flag ex n s m : Z.land m SYMBOL_VALID = 0 -> calm ex n (drop_flag s m).
Proof.
  intros Hm. apply calm_wr; [done|]. intros x _. apply kept_same; try done. unfold valid, flag. cbn. by rewrite land_ldiff_other.
Qed.
Lemma calm_prop ex n s i v : calm ex n (set_prop_tri s i v).
Proof. apply calm_wr; [done|]. intros x _. by apply kept_same. Qed.
Lemma calm_wr_same ex n s f : (forall x, s_type (f x) = s_type x /\ valid (f x) = valid x /\ curr_val (f x) = curr_val x /\ curr_tri (f x) = curr_tri x) ->
  calm ex n (wr_sym s f).
Proof. intros Hf. apply calm_wr; [done|]. intros x _. destruct (Hf x) as (H1 & H2 & H3 & H4). apply kept_same; congruence. Qed.

Ltac calm := repeat match goal with
  | |- Allows _ => assumption
  | |- _ <> OutOfFuel => discriminate
  | |- forall _ : _, Kcalc.calm _ _ _ _ _ => intro
  | |- Kcalc.calm _ _ _ _ (bind _ _) => apply calm_bind
  | |- Kcalc.calm _ _ _ _ (ret _) => apply calm_ret
  | |- Kcalc.calm _ _ _ _ (gets _) => apply calm_gets
  | |- Kcalc.calm _ _ _ _ (fail _) => apply calm_fail
  | |- Kcalc.calm _ _ _ _ (lift_opt _ _) => apply calm_lift
  | |- Kcalc.calm _ _ _ _ (modify _) => apply calm_modify; [assumption|done]
  | |- Kcalc.calm _ _ _ _ (rd_sym _) => apply calm_rd
  | |- Kcalc.calm _ _ _ _ (add_flag _ _) => apply calm_add_flag
  | |- Kcalc.calm _ _ _ _ (drop_flag _ _) => apply calm_drop_flag; reflexivity
  | |- Kcalc.calm _ _ _ _ (set_prop_tri _ _ _) => apply calm_prop
  | H : _ |- Kcalc.calm _ _ _ _ _ => apply H
  | |- Kcalc.calm _ _ _ _ (wr_sym _ _) => apply calm_wr_same; done
  | |- Kcalc.calm _ _ _ _ (if ?b then _ else _) => destruct b
  | |- Kcalc.calm _ _ _ _ (match ?x with _ => _ end) => destruct x
  end.

Lemma calm_props_changed ex n l : calm ex n (props_changed l).
Proof. induction l as [|p l IH]; cbn [props_changed]; unfold menu_changed; calm. Qed.
Lemma calm_set_changed ex n s : calm ex n (sym_set_changed s).
Proof. pose proof (calm_props_changed ex n) as H. unfold sym_set_changed. calm. Qed.
Lemma calm_get_type ex n s : calm ex n (sym_get_type s).
Proof. unfold sym_get_type. calm. Qed.
Lemma calm_prop_symbol ex n p : calm ex n (prop_get_symbol p).
Proof. unfold prop_get_symbol. calm. Qed.
Lemma calm_choice_prop ex n s : calm ex n (sym_get_choice_prop s).
Proof. unfold sym_get_choice_prop. calm. Qed.
Lemma calm_str ex n v : calm ex n (str_of v).
Proof. unfold str_of. calm. Qed.
Lemma calm_new_string ex n l : calm ex n (new_string l).
Proof. unfold new_string. calm. Qed.
Lemma calm_string_value ex n s : calm ex n (sym_get_string_value s).
Proof. unfold sym_get_string_value. calm. Qed.

Section Within.
Context (calc : symbol -> K unit) (n : nat) (Hcalc : forall ex s, calm ex n (calc s)).

Lemma calm_expr ex e : calm ex n (calc_expr calc e).
Proof.
  pose proof (calm_str ex n). pose proof (calm_string_value ex n).
  induction e; cbn [calc_expr]; unfold same_string; calm.
Qed.
Lemma calm_expr_opt ex e : calm ex n (calc_expr_opt calc e).
Proof. pose proof (calm_expr ex) as H. unfold calc_expr_opt. calm. Qed.
Lemma calm_visible_prop ex t s i l : calm ex n (visible_prop calc t s i l).
Proof. pose proof (calm_expr_opt ex). revert i. induction l as [|p l IH]; intros i; cbn [visible_prop]; calm. Qed.
Lemma calm_default_prop ex s : calm ex n (sym_get_default_prop calc s).
Proof. pose proof (calm_visible_prop ex). unfold sym_get_default_prop. calm. Qed.
Lemma calm_prompts ex s i l t : calm ex n (prompts_value calc s i l t).
Proof. pose proof (calm_expr_opt ex). revert i t. induction l as [|p l IH]; intros i t; cbn [prompts_value]; calm. Qed.
Lemma calm_visibility ex s : calm ex n (sym_calc_visibility calc s).
Proof.
  pose proof (calm_prompts ex). pose proof (calm_expr ex). pose proof (calm_set_changed ex n). pose proof (calm_get_type ex n).
  unfold sym_calc_visibility. calm.
Qed.
Lemma calm_visible_now ex s : calm ex n (visible_now calc s).
Proof. pose proof (calm_visibility ex). unfold visible_now. calm. Qed.
Lemma calm_default_choice ex s i l : calm ex n (default_choice calc s i l).
Proof.
  pose proof (calm_expr_opt ex). pose proof (calm_visible_now ex). pose proof (calm_prop_symbol ex n).
  revert i. induction l as [|p l IH]; intros i; cbn [default_choice]; calm.
Qed.
Lemma calm_first_visible ex l : calm ex n (first_visible calc l).
Proof. pose proof (calm_visible_now ex). induction l as [|p l IH]; cbn [first_visible]; calm. Qed.

(** What is done to the symbol itself *)
Lemma calm_own s f : (forall x, s_type (f x) = s_type x /\ valid (f x) = valid x /\ tri_kept x (f x)) -> calm (Some s) n (wr_sym s f).
Proof.
  intros Hf.  apply calm_wr; [done|]. intros x _. destruct (Hf x) as (H1 & H2 & H3). apply kept_own; try done; [|by apply al_tri].
  unfold two. rewrite H1. destruct H3 as [-> | ->]; [done|]. intros _ _. by split.
Qed.
Lemma calm_choice s : calm (Some s) n (sym_calc_choice calc s).
Proof.
  pose proof (calm_default_choice (Some s)). pose proof (calm_visible_now (Some s)). pose proof (calm_first_visible (Some s)).
  pose proof (calm_choice_prop (Some s) n).
  assert (calm (Some s) n (wr_sym s (fun x => with_curr (curr_val x) tri_no x))) by (apply calm_own; intros x; split_and!; [done..|by right]).
  unfold sym_calc_choice. calm.
Qed.
Lemma calm_range_val ex s b : calm ex n (sym_get_range_val calc s b).
Proof. pose proof (calm_str ex n). unfold sym_get_range_val. calm. Qed.
Lemma calm_validate s : calm (Some s) n (sym_validate_range calc s).
Proof.
  pose proof (calm_range_val (Some s)). pose proof (calm_str (Some s) n). pose proof (calm_new_string (Some s) n).
  pose proof (calm_visible_prop (Some s)).
  assert (forall v, calm (Some s) n (wr_sym s (fun x => with_curr v (curr_tri x) x))) by (intros v; apply calm_own; intros x; split_and!; [done..|by left]).
  unfold sym_validate_range, sym_get_range_prop. calm.
Qed.
Lemma calm_tristate s : calm (Some s) n (calc_tristate calc s).
Proof.
  pose proof (calm_choice_prop (Some s) n). pose proof (calm_prop_symbol (Some s) n). pose proof (calm_default_prop (Some s)).
  pose proof (calm_expr_opt (Some s)). unfold calc_tristate. calm.
Qed.
Lemma calm_string s : calm (Some s) n (calc_string calc s).
Proof.
  pose proof (calm_prop_symbol (Some s) n). pose proof (calm_default_prop (Some s)). unfold calc_string. calm.
Qed.
Lemma calm_pass ex f l : calm ex n (pass_flags f l).
Proof. pose proof (calm_set_changed ex n). induction l as [|d l IH]; cbn [pass_flags]; calm. Qed.

(** A value for a symbol whose type is [t]: not [m] for a boolean symbol *)
Definition fits (s : symbol) (tri : Z) : Prop := ty !! s = Some S_BOOLEAN -> tri <> tri_mod /\ tri <> tri_metapack.
Lemma calm_new_value s v tri : (forall x y, R x y) -> fits s tri -> calm (Some s) n (wr_sym s (with_curr v tri)).
Proof.
  intros HR' Hf. apply calm_wr; [done|]. intros x Hx. apply kept_own; try done.
  intros _ Hb. cbn in Hb |- *. apply Hf. by rewrite Hx, Hb.
Qed.
Lemma fits_no s : fits s tri_no.
Proof. by intros _. Qed.

(** The value stays, or a choice becomes [n]. *)
Lemma calm_after_value s ov ot tri : calm (Some s) n (after_value calc s ov ot tri).
Proof.
  pose proof calm_choice. pose proof (calm_validate s). pose proof (calm_set_changed (Some s) n).
  pose proof (calm_choice_prop (Some s) n). pose proof (calm_pass (Some s)).
  assert (forall v, calm (Some s) n (wr_sym s (fun x => with_curr v (curr_tri x) x))) by (intros v; apply calm_own; intros x; split_and!; [done..|by left]).
  unfold after_value. calm.
Qed.
Lemma calm_end s ov ot v tri : (forall x y, R x y) -> fits s tri -> calm (Some s) n (calc_end calc s ov ot v tri).
Proof. intros HR' Hf. apply calm_bind; [done|by apply calm_new_value|]. intros _. apply calm_after_value. Qed.

(** A boolean symbol is calculated as one. *)
Lemma calm_get_type_bind {A} ex s (f : symbol_type -> K A) :
  (forall t, (ty !! s = Some S_BOOLEAN -> t = S_BOOLEAN) -> calm ex n (f t)) -> calm ex n (bind (sym_get_type s) f).
Proof.
  intros Hf k Ht Hk. unfold sym_get_type, rd_sym, bind, gets, lift_opt, ret, ends.
  destruct (tab k !! s) as [x|] eqn:Hx; cbn; [|done].
  set (t := if bool_decide _ then _ else _). apply (Hf t); [|done..].
  rewrite <- Ht. unfold types. rewrite lookup_fmap, Hx. intros [= E]. unfold t. by rewrite E.
Qed.
Lemma calm_rest s : (forall x y, R x y) -> calm (Some s) n (calc_rest calc s).
Proof.
  intros HR'. pose proof (calm_visibility (Some s)). pose proof (calm_tristate s). pose proof (calm_string s).
  assert (forall x, calm (Some s) n (wr_sym s (with_curr x tri_no))) by (intros x; apply calm_new_value; [done|apply fits_no]).
  assert (forall ov ot v, calm (Some s) n (calc_end calc s ov ot v tri_no)) by (intros; apply calm_end; [done|apply fits_no]).
  unfold calc_rest. apply calm_bind; [done|by apply calm_rd|]. intros x.
  destruct (match s_type x with S_INT | S_HEX | S_STRING => _ | _ => _ end) as [newval|]; [|auto].
  apply calm_bind; [done|calm|]. intros _. apply calm_bind; [done|auto|]. intros _. apply calm_bind; [done|auto|]. intros _.
  apply calm_bind; [done|by apply calm_get_type|]. intros t.
  assert (calm (Some s) n (tri <- calc_tristate calc s ;; t <- sym_get_type s ;;
    let tri := if ((tri =? tri_mod) || (tri =? tri_metapack)) && bool_decide (t = S_BOOLEAN) then tri_no else tri in
    calc_end calc s (curr_val x) (curr_tri x) newval tri)) as Hb.
  { apply calm_bind; [done|auto|]. intros tri. apply calm_get_type_bind. intros t' Ht'. apply calm_end; [done|].
    intros Hs. rewrite bool_decide_true by auto. rewrite andb_true_r.
    destruct (tri =? tri_mod) eqn:E1, (tri =? tri_metapack) eqn:E2; cbn; (lia || by split). }
  destruct t; try exact Hb; calm.
Qed.
End Within.
End Calm.

Lemma valid_lor x : valid (with_flags (fun f => Z.lor f SYMBOL_VALID) x) = true.
Proof.
  unfold valid, flag. cbn. rewrite Z.land_lor_distr_l, Z.land_diag.
  apply negb_true_iff, Z.eqb_neq. intros [_ H]%Z.lor_eq_0_iff. discriminate H.
Qed.

(** One more symbol has its flag, and no other differs. *)
Lemma start_calc k s x : tab k !! s = Some x -> valid x = false ->
  exists k', add_flag s SYMBOL_VALID k = Ok (tt, k') /\
    tab k' = <[s := with_flags (fun f => Z.lor f SYMBOL_VALID) x]> (tab k) /\ types k' = types k /\
    (base.size (invalid k') < base.size (invalid k))%nat.
Proof.
  intros Hx Hv. eexists. split; [unfold add_flag, wr_sym, rd_sym, bind, gets, lift_opt; by rewrite Hx|]. split_and!; [done| |].
  - unfold types. cbn. rewrite fmap_insert. apply insert_id. by rewrite lookup_fmap, Hx.
  - apply subset_size. split; [|intros H].
    + intros s' (y & Hy & Hyv)%elem_of_invalid. apply elem_of_invalid. cbn in Hy. destruct (decide (s = s')) as [->|Hne]; [eauto|].
      rewrite lookup_insert_ne in Hy by done. eauto.
    + assert (s ∈ invalid k) as Hs by (apply elem_of_invalid; eauto). apply H, elem_of_invalid in Hs as (y & Hy & Hyv).
      cbn in Hy. rewrite lookup_insert_eq in Hy. injection Hy as <-. by rewrite valid_lor in Hyv.
Qed.

(** Calculating [s] keeps every value there is. *)
Lemma grows_outer (R : sym -> sym -> Prop) `{!Allows R} ex s x k k1 k2 : tab k !! s = Some x -> valid x = false ->
  tab k1 = <[s := with_flags (fun f => Z.lor f SYMBOL_VALID) x]> (tab k) ->
  grows (Some s) anything k1 k2 -> grows ex R k k2.
Proof.
  intros Hx Hv E [D H]. split; [rewrite D, E, dom_insert_L; assert (s ∈ dom (tab k)) by (apply elem_of_dom; eauto); set_solver|].
  intros s' y Hy. destruct (decide (s = s')) as [->|Hne].
  - destruct (H s' _ ltac:(by rewrite E, lookup_insert_eq)) as (z & Hz & T & B & _). assert (y = x) as -> by congruence.
    exists z. split; [done|]. split; [exact T|]. split; [exact B|]. by rewrite Hv.
  - destruct (H s' y ltac:(by rewrite E, lookup_insert_ne)) as (z & Hz & T & B & V).
    exists z. split; [done|]. split; [done|]. split; [done|]. intros Hvy. destruct (V Hvy) as [Vz Ez]. split; [done|].
    rewrite bool_decide_false in Ez by congruence. destruct (bool_decide (ex = Some s')); [|done]. apply al_tri. left. apply Ez.
Qed.

Lemma sym_calc_at n s k : sym_calc n s k =
  match tab k !! s with
  | None => Err (BadAddr 0)
  | Some x => if valid x then Ok (tt, k) else match n with O => Err OutOfFuel | S n => calc_body (sym_calc n) s k end
  end.
Proof.
  destruct n; cbn [sym_calc]; unfold rd_sym, bind, gets, lift_opt, valid; destruct (tab k !! s) as [x|]; try done; simpl.
  all: by destruct (flag x SYMBOL_VALID).
Qed.
(** With fuel for the symbols without a value, and [s] has one afterwards. *)
Lemma sym_calc_ends n : forall (R : sym -> sym -> Prop) `{!Allows R} ex s k, (base.size (invalid k) <= n)%nat ->
  ends (sym_calc n s) (fun _ k' => grows ex R k k' /\ exists x, tab k' !! s = Some x /\ valid x = true) k.
Proof.
  induction n as [|n IH]; intros R HR ex s k Hn; unfold ends at 1; rewrite sym_calc_at;
    destruct (tab k !! s) as [x|] eqn:Hx; try done; destruct (valid x) eqn:Hv.
  1,3: split; [by apply grows_refl|exists x; split; [exact Hx|exact Hv]].
  - assert (s ∈ invalid k) as Hs by (apply elem_of_invalid; exists x; split; [exact Hx|exact Hv]).
    apply elem_of_subseteq_singleton, subseteq_size in Hs. rewrite size_singleton in Hs. lia.
  - destruct (start_calc k s x Hx Hv) as (k1 & E1 & Ht & Hty & Hsz). unfold calc_body, bind. rewrite E1.
    assert (forall ex s, calm anything (types k1) ex n (sym_calc n s)) as Hc.
    { intros ex' s' k2 _ Hn2. eapply ends_mono; [exact (IH anything _ ex' s' k2 Hn2)|]. by intros a k' [Hg _]. }
    pose proof (calm_rest anything (types k1) (sym_calc n) n Hc s ltac:(done) k1 eq_refl ltac:(lia)) as He. unfold ends in He.
    destruct (calc_rest (sym_calc n) s k1) as [[a k2]|e]; [|done]. split; [by eapply grows_outer|].
    destruct He as [_ H]. destruct (H s _ ltac:(by rewrite Ht, lookup_insert_eq)) as (z & Hz & _ & _ & V).
    exists z. split; [done|]. apply V, valid_lor.
Qed.
Lemma invalid_fuel k : (base.size (invalid k) <= calc_fuel k)%nat.
Proof.
  unfold invalid, calc_fuel. rewrite size_dom. apply map_size_filter.
Qed.
Lemma sym_calc_calm (R : sym -> sym -> Prop) `{!Allows R} ty ex n s : calm R ty ex n (sym_calc n s).
Proof. intros k _ Hn. eapply ends_mono; [by apply sym_calc_ends|]. by intros a k' [Hg _]. Qed.

(** ** What setting values keeps

    Setting a value takes the values of the other symbols away, so less stays: the
    types, and that no boolean symbol is [m]. *)
Definition booleans (k : kconf) : Prop := forall s x, tab k !! s = Some x -> two x.
Definition tame_step (k k' : kconf) : Prop := types k' = types k /\ (booleans k -> booleans k').
Definition tame {A} (m : K A) : Prop := forall k, ends m (fun _ k' => tame_step k k') k.

Lemma tame_refl k : tame_step k k.
Proof. by split. Qed.
Lemma tame_trans k1 k2 k3 : tame_step k1 k2 -> tame_step k2 k3 -> tame_step k1 k3.
Proof. intros [T1 B1] [T2 B2]. split; [congruence|auto]. Qed.
Lemma grows_tame ex R k k' : grows ex R k k' -> tame_step k k'.
Proof.
  intros Hg. split; [by eapply grows_types|]. destruct Hg as [D H]. intros B s x' Hx'.
  assert (is_Some (tab k !! s)) as [x Hx] by (rewrite <- elem_of_dom, <- D; apply elem_of_dom; eauto).
  destruct (H s x Hx) as (y & Hy & _ & HB & _). assert (y = x') as -> by congruence. eauto.
Qed.
Lemma calm_tame {A} (m : K A) : (forall ty n, calm anything ty None n m) -> tame m.
Proof. intros H k. eapply ends_mono; [by apply (H (types k) (base.size (invalid k)))|]. intros a k'. apply grows_tame. Qed.

Lemma tame_bind {A B} (m : K A) (f : A -> K B) : tame m -> (forall a, tame (f a)) -> tame (bind m f).
Proof.
  intros Hm Hf k. apply ends_bind. eapply ends_mono; [apply Hm|]. intros a k' H1.
  eapply ends_mono; [apply Hf|]. intros b k''. by apply tame_trans.
Qed.
(** The fuel is taken from the state at the start. *)
Lemma tame_with_fuel {A} (m : nat -> K A) :
  (forall ty n, calm anything ty None n (m n)) -> tame (bind (gets calc_fuel) m).
Proof.
  intros H k. eapply ends_mono; [apply (H (types k)); [done|apply invalid_fuel]|]. intros a k'. apply grows_tame.
Qed.
Lemma tame_wr s f : (forall x, s_type (f x) = s_type x /\ curr_tri (f x) = curr_tri x) -> tame (wr_sym s f).
Proof.
  intros Hf k. unfold wr_sym, rd_sym, bind, gets, lift_opt, ends, modify. destruct (tab k !! s) as [x|] eqn:Hx; cbn; [|done].
  destruct (Hf x) as [H1 H2]. split.
  - unfold types. cbn. rewrite fmap_insert. apply insert_id. by rewrite lookup_fmap, Hx, H1.
  - intros B s' y Hy. cbn in Hy. destruct (decide (s = s')) as [->|Hne].
    + rewrite lookup_insert_eq in Hy. injection Hy as <-. unfold two. rewrite H1, H2. by apply (B s').
    + rewrite lookup_insert_ne in Hy by done. by apply (B s').
Qed.
Lemma tame_modify f : (forall k, tab (f k) = tab k) -> tame (modify f).
Proof. intros Hf k. cbn. unfold tame_step, types, booleans. rewrite Hf. by split. Qed.

Ltac tame := repeat match goal with
  | |- forall _ : _, tame _ => intro
  | |- tame (bind _ _) => apply tame_bind
  | |- tame (ret _) => apply calm_tame; intros; by apply calm_ret
  | |- tame (gets _) => apply calm_tame; intros; by apply calm_gets
  | |- tame (fail _) => done
  | |- tame (lift_opt _ _) => apply calm_tame; intros; by apply calm_lift
  | |- tame (rd_sym _) => apply calm_tame; intros; by apply calm_rd
  | |- tame (modify _) => by apply tame_modify
  | |- tame (wr_sym _ _) => by apply tame_wr
  | |- tame (add_flag _ _) => by apply tame_wr
  | |- tame (drop_flag _ _) => by apply tame_wr
  | H : _ |- tame _ => apply H
  | |- tame (if ?b then _ else _) => destruct b
  | |- tame (match ?x with _ => _ end) => destruct x
  end.

Lemma tame_set_changed s : tame (sym_set_changed s).
Proof. apply calm_tame. intros. by apply calm_set_changed. Qed.
Lemma tame_get_type s : tame (sym_get_type s).
Proof. apply calm_tame. intros. by apply calm_get_type. Qed.
Lemma tame_choice_prop s : tame (sym_get_choice_prop s).
Proof. apply calm_tame. intros. by apply calm_choice_prop. Qed.
Lemma tame_prop_symbol p : tame (prop_get_symbol p).
Proof. apply calm_tame. intros. by apply calm_prop_symbol. Qed.
Lemma tame_calc s : tame (sym_calc_value s).
Proof. destruct s as [s|]; [|by intros k]. apply tame_with_fuel. intros. by apply sym_calc_calm. Qed.
Lemma tame_each f l : (forall s, tame (f s)) -> tame (each f l).
Proof. intros Hf. induction l as [|s l IH]; cbn [each]; tame. Qed.
Lemma tame_for_all f : (forall s, tame (f s)) -> tame (for_all_symbols f).
Proof. intros Hf. unfold for_all_symbols. apply tame_bind; [tame|]. intros h. apply tame_each. tame. Qed.
Lemma tame_clear : tame sym_clear_all_valid.
Proof.
  pose proof tame_calc. unfold sym_clear_all_valid. apply tame_bind; [apply tame_for_all; tame|]. tame.
Qed.
Lemma tame_in_range s v : tame (sym_tristate_within_range s v).
Proof. pose proof tame_get_type. unfold sym_tristate_within_range. tame. Qed.
Lemma tame_not_new l : tame (not_new l).
Proof. induction l as [|d l IH]; cbn [not_new]; tame. Qed.
Lemma tame_set_tristate s v : tame (sym_set_tristate_value s v).
Proof.
  pose proof tame_in_range. pose proof tame_set_changed. pose proof tame_choice_prop. pose proof tame_prop_symbol.
  pose proof tame_not_new. pose proof tame_clear. pose proof (tame_for_all sym_set_changed tame_set_changed).
  unfold sym_set_tristate_value, sym_set_all_changed. tame.
Qed.

(** The four values come in turn: the old one comes back. *)
Lemma tame_turns f m old (body : Z -> K bool) v :
  (forall v, tame (body v)) -> (0 < m <= f)%nat -> Nat.iter m toggled v = old ->
  tame (loop f (fun v => let v := toggled v in b <- body v ;; ret (if (b : bool) || (old =? v) then inr v else inl v)) v).
Proof.
  intros Hb. revert m v. induction f as [|f IH]; intros m v Hm Hv; [lia|]. cbn [loop]. intros k.
  apply ends_bind, ends_bind. eapply ends_mono; [apply Hb|]. intros b k' H1. unfold ends at 1, ret at 1.
  destruct (b || (old =? toggled v)) eqn:E; [exact H1|].
  eapply ends_mono; [apply (IH (m - 1)%nat)|intros a k''; by apply tame_trans].
  all: destruct m as [|[|m]]; [lia| |].
  1,3: cbn in Hv; apply orb_false_iff in E as [_ E]; lia.
  - lia.
  - by rewrite Nat.iter_succ_r in Hv.
Qed.
Lemma toggled_turn v : exists m, (0 < m <= 5)%nat /\ Nat.iter m toggled v = v.
Proof.
  destruct (decide (v ∈ [0; 1; 2; 3])) as [H|H].
  - exists 4%nat. split; [lia|]. rewrite !elem_of_cons in H. destruct H as [->|[->|[->|[->|H%elem_of_nil]]]]; done.
  - exists 1%nat. split; [lia|]. cbn. unfold toggled, tri_yes, tri_mod, tri_metapack, tri_no. rewrite !elem_of_cons in H.
    assert (v <> 0 /\ v <> 1 /\ v <> 2 /\ v <> 3) as (H0 & H1 & H2 & H3) by tauto.
    apply Z.eqb_neq in H0, H1, H2, H3. by rewrite H0, H1, H2, H3.
Qed.
Lemma tame_toggle s : tame (sym_toggle_tristate_value s).
Proof.
  unfold sym_toggle_tristate_value. apply tame_bind; [tame|]. intros x. cbv zeta.
  destruct (toggled_turn (curr_tri x)) as (m & Hm & Hv). apply (tame_turns 5 m); [apply tame_set_tristate|done..].
Qed.
Lemma tame_within s str base : tame (within s str base).
Proof.
  apply tame_with_fuel. intros ty n. assert (forall ex s, calm anything ty ex n (sym_calc n s)) as Hc by (intros; by apply sym_calc_calm).
  apply calm_bind; [done| |].
  - unfold sym_get_range_prop. apply calm_bind; [done|by apply calm_rd|]. intros x. by apply calm_visible_prop.
  - intros [p|]; [|by apply calm_ret]. apply calm_bind; [done|by apply calm_lift|]. intros [lo hi].
    apply calm_bind; [done|by apply calm_range_val|]. intros v. destruct (_ <=? _); [|by apply calm_ret].
    apply calm_bind; [done|by apply calm_range_val|]. intros w. by apply calm_ret.
Qed.
Lemma tame_str v : tame (str_of v).
Proof. apply calm_tame. intros. by apply calm_str. Qed.
Lemma tame_new_string l : tame (new_string l).
Proof. apply calm_tame. intros. by apply calm_new_string. Qed.
Lemma tame_set_string s l : tame (sym_set_string_value s l).
Proof.
  pose proof tame_within. pose proof tame_set_tristate. pose proof tame_set_changed. pose proof tame_in_range.
  pose proof tame_str. pose proof tame_new_string. pose proof tame_clear.
  assert (tame (sym_string_within_range s l)) by (unfold sym_string_within_range; tame).
  unfold sym_set_string_value. tame.
Qed.

(** ** The value of an expression

    Afterwards the symbols of the expression have values, and the result is the value
    of the expression for these. *)
Definition types_of (k : kconf) (p : Z) : symbol_type := default S_UNKNOWN (types k !! sym_at p).
Definition values_of (k : kconf) : valuation :=
  mk_val (fun s => match tab k !! s with Some x => curr_tri x | None => 0 end)
         (fun s => match tab k !! s with Some x => match curr_val x with VStr _ l => l | _ => [] end | None => [] end).
Definition has_value (k : kconf) (s : symbol) : Prop := exists x, tab k !! s = Some x /\ valid x = true.
Fixpoint settled (k : kconf) (e : expr) : Prop :=
  match e with
  | Sym s => has_value k s
  | Not a => settled k a
  | And a b | Or a b => settled k a /\ settled k b
  | Equal l r | Unequal l r => has_value k l /\ has_value k r
  | Choice _ _ | Range _ _ => True
  end.
(** The constants of symbol.c have no type. *)
Definition constants_ok (k : kconf) : Prop := forall s t, types k !! s = Some t -> (forall p, s <> sym_at p) -> t = S_UNKNOWN.

Lemma has_value_grows k k' s : grows None anything k k' -> has_value k s ->
  has_value k' s /\ tri (values_of k') s = tri (values_of k) s /\ val (values_of k') s = val (values_of k) s.
Proof.
  intros [_ H] (x & Hx & Hv). destruct (H s x Hx) as (y & Hy & _ & _ & K). destruct (K Hv) as [Vy [E1 E2]].
  split; [by exists y|]. unfold values_of. cbn. by rewrite Hx, Hy, E1, E2.
Qed.
Lemma compare_grows k k' l r : grows None anything k k' -> has_value k l -> has_value k r ->
  compare (types_of k') (values_of k') l r = compare (types_of k) (values_of k) l r.
Proof.
  intros Hg Hl Hr. destruct (has_value_grows _ _ l Hg Hl) as (_ & L1 & L2), (has_value_grows _ _ r Hg Hr) as (_ & R1 & R2).
  unfold compare, Kexpr.sym_get_string_value, types_of. by rewrite (grows_types _ _ _ _ Hg), L1, L2, R1, R2.
Qed.
Lemma value_grows k k' e : grows None anything k k' -> settled k e ->
  settled k' e /\ value (types_of k') tri_not (values_of k') e = value (types_of k) tri_not (values_of k) e.
Proof.
  intros Hg. induction e as [x|a IHa|l r|l r|a IHa b IHb|a IHa b IHb|o x|l r]; cbn [settled value]; try done.
  - intros Hx. by destruct (has_value_grows _ _ x Hg Hx) as (? & ? & _).
  - intros [? ->]%IHa. done.
  - intros [Hl Hr]. rewrite (compare_grows k k') by done. by destruct (has_value_grows _ _ l Hg Hl), (has_value_grows _ _ r Hg Hr).
  - intros [Hl Hr]. rewrite (compare_grows k k') by done. by destruct (has_value_grows _ _ l Hg Hl), (has_value_grows _ _ r Hg Hr).
  - intros [[? ->]%IHa [? ->]%IHb]. done.
  - intros [[? ->]%IHa [? ->]%IHb]. done.
Qed.

(** What a symbol's string is for a comparison *)
Lemma string_value_is k s v k1 l k2 : constants_ok k ->
  sym_get_string_value s k = Ok (v, k1) -> str_of v k1 = Ok (l, k2) ->
  k1 = k /\ k2 = k /\ l = Kexpr.sym_get_string_value (types_of k) (values_of k) s.
Proof.
  intros Hk. unfold sym_get_string_value, rd_sym, bind, gets, lift_opt, str_of. destruct (tab k !! s) as [x|] eqn:Hx; [|done].
  cbn. intros [= <- <-].
  assert (sym_type (types_of k) s = s_type x) as Ht.
  { assert (types k !! s = Some (s_type x)) as E by (unfold types; by rewrite lookup_fmap, Hx).
    destruct s; try (symmetry; by apply (Hk _ _ E)). cbn. unfold types_of. by rewrite E. }
  unfold Kexpr.sym_get_string_value, values_of, tri_string. cbn. rewrite Ht, Hx.
  destruct (s_type x); cbn.
  all: repeat match goal with |- context [if ?b then _ else _] => destruct b end; cbn; try (by intros [= <- <-]).
  all: destruct (curr_val x); try done; by intros [= <- <-].
Qed.
Lemma constants_grows ex k k' : constants_ok k -> grows ex anything k k' -> constants_ok k'.
Proof. intros Hk Hg. unfold constants_ok. by rewrite (grows_types _ _ _ _ Hg). Qed.
Lemma invalid_grows ex k k' n : grows ex anything k k' -> (base.size (invalid k) <= n)%nat -> (base.size (invalid k') <= n)%nat.
Proof. intros Hg. pose proof (grows_invalid _ _ _ _ Hg). lia. Qed.
Lemma strcmp_l_same (a b : list Z) : (strcmp_l a b =? 0) = bool_decide (a = b).
Proof.
  destruct (Z.eqb_spec (strcmp_l a b) 0) as [E|E]; symmetry.
  - by apply strcmp_l_zero in E; apply bool_decide_eq_true.
  - apply bool_decide_eq_false. intros ->. by rewrite strcmp_l_refl in E.
Qed.

Lemma same_string_is n l r k : constants_ok k -> (base.size (invalid k) <= n)%nat ->
  ends (same_string (sym_calc n) l r) (fun b k' => grows None anything k k' /\
    has_value k' l /\ has_value k' r /\ b = compare (types_of k') (values_of k') l r) k.
Proof.
  intros Hc Hn. unfold same_string. apply ends_bind. eapply ends_mono; [by apply (sym_calc_ends n anything None)|].
  intros _ k1 [G1 V1]. cbv beta. apply ends_bind.
  eapply ends_mono; [apply (sym_calc_ends n anything None); by eapply invalid_grows|]. intros _ k2 [G2 V2]. cbv beta.
  pose proof (grows_trans _ _ _ _ _ G1 G2) as G. pose proof (constants_grows _ _ _ Hc G) as Hc2.
  unfold bind, ends. destruct (sym_get_string_value l k2) as [[v k3]|e] eqn:E1.
  2: { unfold sym_get_string_value, rd_sym, bind, gets, lift_opt in E1. by destruct (tab k2 !! l); inversion E1. }
  assert (k3 = k2) as -> by (unfold sym_get_string_value, rd_sym, bind, gets, lift_opt in E1; destruct (tab k2 !! l); by inversion E1).
  destruct (sym_get_string_value r k2) as [[w k3]|e] eqn:E2.
  2: { unfold sym_get_string_value, rd_sym, bind, gets, lift_opt in E2. by destruct (tab k2 !! r); inversion E2. }
  assert (k3 = k2) as -> by (unfold sym_get_string_value, rd_sym, bind, gets, lift_opt in E2; destruct (tab k2 !! r); by inversion E2).
  destruct (str_of v k2) as [[a k3]|e] eqn:E3; [|by destruct v; inversion E3].
  destruct (string_value_is _ _ _ _ _ _ Hc2 E1 E3) as (_ & -> & ->).
  destruct (str_of w k2) as [[b k3]|e] eqn:E4; [|by destruct w; inversion E4].
  destruct (string_value_is _ _ _ _ _ _ Hc2 E2 E4) as (_ & -> & ->).
  cbn. split_and!; [done|by apply (has_value_grows _ _ _ G2)|done|]. by rewrite strcmp_l_same.
Qed.

Lemma calc_expr_is n e : forall k, constants_ok k -> (base.size (invalid k) <= n)%nat ->
  ends (calc_expr (sym_calc n) e) (fun r k' => grows None anything k k' /\ settled k' e /\
    r = value (types_of k') tri_not (values_of k') e) k.
Proof.
  assert (forall (f : Z -> Z -> Z) a b k, constants_ok k -> (base.size (invalid k) <= n)%nat ->
    (forall k, constants_ok k -> (base.size (invalid k) <= n)%nat ->
      ends (calc_expr (sym_calc n) a) (fun r k' => grows None anything k k' /\ settled k' a /\ r = value (types_of k') tri_not (values_of k') a) k) ->
    (forall k, constants_ok k -> (base.size (invalid k) <= n)%nat ->
      ends (calc_expr (sym_calc n) b) (fun r k' => grows None anything k k' /\ settled k' b /\ r = value (types_of k') tri_not (values_of k') b) k) ->
    ends (v1 <- calc_expr (sym_calc n) a ;; v2 <- calc_expr (sym_calc n) b ;; ret (f v1 v2)) (fun r k' => grows None anything k k' /\
      (settled k' a /\ settled k' b) /\ r = f (value (types_of k') tri_not (values_of k') a) (value (types_of k') tri_not (values_of k') b)) k) as Htwo.
  { intros f a b k Hc Hn Ha Hb. apply ends_bind. eapply ends_mono; [by apply Ha|]. intros v1 k1 (G1 & S1 & E1). cbv beta.
    apply ends_bind. eapply ends_mono; [apply Hb; [by eapply constants_grows|by eapply invalid_grows]|].
    intros v2 k2 (G2 & S2 & E2). destruct (value_grows k1 k2 a G2 S1) as [S3 E3]. cbn.
    split; [exact (grows_trans _ _ _ _ _ G1 G2)|]. split; [done|]. by rewrite E3, <- E1, <- E2. }
  assert (forall l r (f : bool -> Z) k, constants_ok k -> (base.size (invalid k) <= n)%nat ->
    ends (b <- same_string (sym_calc n) l r ;; ret (f b)) (fun v k' => grows None anything k k' /\
      (has_value k' l /\ has_value k' r) /\ v = f (compare (types_of k') (values_of k') l r)) k) as Hcmp.
  { intros l r f k Hc Hn. apply ends_bind. eapply ends_mono; [by apply same_string_is|]. intros b k' (G & Hl & Hr & ->). by cbn. }
  induction e as [x|a IHa|l r|l r|a IHa b IHb|a IHa b IHb|o x|l r]; intros k Hc Hn; cbn [calc_expr settled value].
  - apply ends_bind. eapply ends_mono; [by apply (sym_calc_ends n anything None)|]. intros _ k' [G V]. cbv beta.
    destruct V as (y & Hy & Hv). unfold ends, rd_sym, bind, gets, lift_opt. rewrite Hy. cbn. rewrite Hy. split; [done|]. split; [by exists y|done].
  - apply ends_bind. eapply ends_mono; [by apply IHa|]. intros v k' (G & S & ->). by cbn.
  - exact (Hcmp l r (fun b : bool => if b then tri_yes else tri_no) k Hc Hn).
  - exact (Hcmp l r (fun b : bool => if b then tri_no else tri_yes) k Hc Hn).
  - by apply (Htwo tri_and).
  - by apply (Htwo tri_or).
  - cbn. split; [by apply grows_refl|done].
  - cbn. split; [by apply grows_refl|done].
Qed.

(** ** [sym_check_deps] ends

    A symbol is entered once: it gets [SYMBOL_CHECKED]. *)
Definition pending (k : kconf) : gset symbol := dom (filter (fun p => flag p.2 SYMBOL_CHECKED = false) (tab k)).
Lemma elem_of_pending k s : s ∈ pending k <-> exists x, tab k !! s = Some x /\ flag x SYMBOL_CHECKED = false.
Proof.
  unfold pending. rewrite elem_of_dom. split.
  - intros [x [Hx Hv]%map_lookup_filter_Some]. by exists x.
  - intros (x & Hx & Hv). exists x. by apply map_lookup_filter_Some.
Qed.

Definition CHECKS : Z := Z.lor SYMBOL_CHECK SYMBOL_CHECKED.
(** Other flags, and [SYMBOL_CHECK], are as they were. *)
Record flags_kept (f f' : Z) : Prop := {
  fk_check : Z.land f' SYMBOL_CHECK = Z.land f SYMBOL_CHECK;
  fk_checked : Z.land f SYMBOL_CHECKED <> 0 -> Z.land f' SYMBOL_CHECKED <> 0;
  fk_rest : Z.ldiff f' CHECKS = Z.ldiff f CHECKS
}.
Definition only_flags (k k' : kconf) : Prop :=
  dom (tab k') = dom (tab k) /\
  forall s x, tab k !! s = Some x -> exists f, tab k' !! s = Some (with_flags (fun _ => f) x) /\ flags_kept (s_flags x) f.

Lemma flags_kept_refl f : flags_kept f f.
Proof. by split. Qed.
Lemma only_flags_refl k : only_flags k k.
Proof. split; [done|]. intros s x Hx. exists (s_flags x). split; [by rewrite Hx; destruct x|apply flags_kept_refl]. Qed.
Lemma only_flags_trans k1 k2 k3 : only_flags k1 k2 -> only_flags k2 k3 -> only_flags k1 k3.
Proof.
  intros [D1 H1] [D2 H2]. split; [congruence|]. intros s x Hx. destruct (H1 s x Hx) as (f & Hf & [A1 A2 A3]).
  destruct (H2 s _ Hf) as (g & Hg & [B1 B2 B3]). exists g. split; [done|]. cbn in *. split; [congruence|auto|congruence].
Qed.
Lemma only_flags_pending k k' : only_flags k k' -> (base.size (pending k') <= base.size (pending k))%nat.
Proof.
  intros [D H]. apply subseteq_size. intros s (x' & Hx' & Hv)%elem_of_pending. apply elem_of_pending.
  assert (is_Some (tab k !! s)) as [x Hx] by (rewrite <- elem_of_dom, <- D; apply elem_of_dom; eauto).
  exists x. split; [done|]. destruct (H s x Hx) as (f & Hf & [_ Hc _]). assert (x' = with_flags (fun _ => f) x) as -> by congruence.
  unfold flag in *. cbn in Hv. apply negb_false_iff, Z.eqb_eq in Hv. apply negb_false_iff, Z.eqb_eq.
  destruct (decide (Z.land (s_flags x) SYMBOL_CHECKED = 0)); [done|]. by destruct (Hc n).
Qed.

Section CheckEnds.
Context (check : symbol -> K (option symbol)) (n : nat).
Definition checks {A} (m : K A) : Prop := forall k, (base.size (pending k) <= n)%nat -> ends m (fun _ k' => only_flags k k') k.
Context (Hcheck : forall s, checks (check s)).
Lemma checks_ret {A} (a : A) : checks (ret a).
Proof. intros k _. apply only_flags_refl. Qed.
Lemma checks_bind {A B} (m : K A) (f : A -> K B) : checks m -> (forall a, checks (f a)) -> checks (bind m f).
Proof.
  intros Hm Hf k Hk. apply ends_bind. eapply ends_mono; [by apply Hm|]. intros a k' Hg. cbv beta.
  eapply ends_mono; [apply Hf; pose proof (only_flags_pending _ _ Hg); lia|]. intros b k''. by apply only_flags_trans.
Qed.
Lemma checks_expr e : checks (check_expr_deps check e).
Proof.
  induction e as [x|a IHa|l r|l r|a IHa b IHb|a IHa b IHb|o x|l r]; cbn [check_expr_deps];
    first [apply Hcheck|apply IHa|apply checks_ret|idtac].
  all: apply checks_bind; [done|]; intros [s|]; [apply checks_ret|done].
Qed.
Lemma checks_expr_opt e : checks (sym_check_expr_deps check e).
Proof. destruct e as [e|]; [apply checks_expr|apply checks_ret]. Qed.
Lemma checks_props b l : checks (check_props check b l).
Proof.
  induction l as [|p l IH]; cbn [check_props]; [apply checks_ret|]. destruct (_ || _); [done|].
  apply checks_bind; [apply checks_expr_opt|]. intros [s|]; [apply checks_ret|]. destruct (_ || _); [done|].
  apply checks_bind; [apply checks_expr_opt|]. intros [s|]; [apply checks_ret|done].
Qed.
End CheckEnds.

(** Entering a symbol and leaving it *)
Lemma flags_enter_leave f f' : Z.land f SYMBOL_CHECK = 0 -> flags_kept (Z.lor f CHECKS) f' -> flags_kept f (Z.ldiff f' SYMBOL_CHECK).
Proof.
  intros Hf [H1 H2 H3].
  assert (forall i, 0 <= i -> Z.testbit (Z.ldiff f' CHECKS) i = Z.testbit (Z.ldiff f CHECKS) i) as Hbits.
  { intros i Hi. rewrite H3, !Z.ldiff_spec, Z.lor_spec. by destruct (Z.testbit f i), (Z.testbit CHECKS i). }
  split.
  - rewrite Hf. apply Z.bits_inj'. intros i Hi. rewrite Z.land_spec, Z.ldiff_spec, Z.bits_0.
    by destruct (Z.testbit f' i), (Z.testbit SYMBOL_CHECK i).
  - intros _. assert (Z.land (Z.ldiff f' SYMBOL_CHECK) SYMBOL_CHECKED = Z.land f' SYMBOL_CHECKED) as ->.
    { by apply land_ldiff_other. }
    apply H2. intros E. rewrite Z.land_lor_distr_l in E. apply Z.lor_eq_0_iff in E as [_ E]. discriminate E.
  - apply Z.bits_inj'. intros i Hi. rewrite <- (Hbits i Hi), !Z.ldiff_spec.
    assert (Z.testbit CHECKS i = Z.testbit SYMBOL_CHECK i || Z.testbit SYMBOL_CHECKED i) as -> by apply Z.lor_spec.
    by destruct (Z.testbit f' i), (Z.testbit SYMBOL_CHECK i), (Z.testbit SYMBOL_CHECKED i).
Qed.

Lemma wr_sym_at s f k : wr_sym s f k = match tab k !! s with Some x => Ok (tt, set_tab (<[s := f x]> (tab k)) k) | None => Err (BadAddr 0) end.
Proof. unfold wr_sym, rd_sym, bind, gets, lift_opt. by destruct (tab k !! s). Qed.

(** Once [s] is entered, it is not pending any more. *)
Lemma pending_enter k s x : tab k !! s = Some x -> flag x SYMBOL_CHECKED = false ->
  (base.size (pending (set_tab (<[s := with_flags (fun f => Z.lor f CHECKS) x]> (tab k)) k)) < base.size (pending k))%nat.
Proof.
  intros Hx F. assert (flag (with_flags (fun f => Z.lor f CHECKS) x) SYMBOL_CHECKED = true) as Fy.
  { unfold flag. cbn. apply negb_true_iff, Z.eqb_neq. rewrite Z.land_lor_distr_l. intros [_ E]%Z.lor_eq_0_iff. discriminate E. }
  apply subset_size. split; [|intros H].
  - intros t (y & Hy & Hyv)%elem_of_pending. apply elem_of_pending. cbn in Hy. destruct (decide (s = t)) as [->|Hne]; [eauto|].
    rewrite lookup_insert_ne in Hy by done. eauto.
  - assert (s ∈ pending k) as Hs by (apply elem_of_pending; eauto). apply H, elem_of_pending in Hs as (y & Hy & Hyv).
    cbn in Hy. rewrite lookup_insert_eq in Hy. injection Hy as <-. congruence.
Qed.
(** Leaving [s], nothing but [SYMBOL_CHECKED] is new. *)
Lemma leave_checks k k3 s x : tab k !! s = Some x -> Z.land (s_flags x) SYMBOL_CHECK = 0 ->
  only_flags (set_tab (<[s := with_flags (fun f => Z.lor f CHECKS) x]> (tab k)) k) k3 ->
  ends (drop_flag s SYMBOL_CHECK) (fun _ k' => only_flags k k') k3.
Proof.
  intros Hx F [D H]. cbn in D, H. destruct (H s _ ltac:(by rewrite lookup_insert_eq)) as (f & Hf & Hk).
  unfold ends, drop_flag. rewrite wr_sym_at, Hf. split; cbn.
  - rewrite dom_insert_L, D, dom_insert_L. assert (s ∈ dom (tab k)) by (apply elem_of_dom; eauto). set_solver.
  - intros t y Hy. destruct (decide (s = t)) as [->|Hne].
    + assert (y = x) as -> by congruence. rewrite lookup_insert_eq. exists (Z.ldiff f SYMBOL_CHECK). split; [done|]. by apply flags_enter_leave.
    + rewrite lookup_insert_ne by done. destruct (H t y ltac:(by rewrite lookup_insert_ne)) as (g & Hg & Hkg). by exists g.
Qed.
Lemma check_deps_checks n s : checks n (check_deps n s).
Proof.
  revert s. induction n as [|n IH]; intros s k Hk; cbn [check_deps]; unfold ends, bind at 1, rd_sym, bind at 1, gets at 1, lift_opt;
    (destruct (tab k !! s) as [x|] eqn:Hx; [|done]); unfold ret at 1;
    (destruct (flag x SYMBOL_CHECK) eqn:F1; [apply only_flags_refl|]); (destruct (flag x SYMBOL_CHECKED) eqn:F2; [apply only_flags_refl|]).
  { assert (s ∈ pending k) as Hs by (apply elem_of_pending; eauto).
    apply elem_of_subseteq_singleton, subseteq_size in Hs. rewrite size_singleton in Hs. lia. }
  pose proof (pending_enter k s x Hx F2) as Hp. apply negb_false_iff, Z.eqb_eq in F1.
  unfold bind at 1, add_flag. rewrite wr_sym_at, Hx. fold CHECKS.
  set (k1 := set_tab _ k) in *. apply ends_bind. eapply ends_mono; [apply (checks_expr_opt _ n IH); lia|]. intros r k2 H2.
  pose proof (only_flags_pending _ _ H2). apply ends_bind. eapply ends_mono with (P := fun _ k3 => only_flags k2 k3).
  { destruct r as [s2|]; [apply only_flags_refl|]. apply (checks_props _ n IH). lia. }
  intros r3 k3 H3. apply ends_bind. eapply ends_mono; [apply (leave_checks k k3 s x Hx F1), (only_flags_trans _ _ _ H2 H3)|]. done.
Qed.

(** [sym_check_deps] returns for any dependencies, recursive or not: it faults at most
    for a symbol that is not there.  It changes flags alone, and of these only
    [SYMBOL_CHECKED] is new afterwards. *)
Theorem sym_check_deps_ends (s : symbol) (k : kconf) :
  match sym_check_deps s k with Ok (_, k') => only_flags k k' | Err e => e <> OutOfFuel end.
Proof.
  unfold sym_check_deps, bind, gets. apply (check_deps_checks (calc_fuel k) s k).
  unfold pending, calc_fuel. rewrite size_dom. apply map_size_filter.
Qed.

(** ** Constants look like recursive dependencies

    [SYMBOL_CONST] has the bit of [SYMBOL_CHECK].  The symbols that
    [sym_check_deps] looks at, in the order in which it does: *)
Fixpoint expr_syms (e : expr) : list symbol :=
  match e with
  | Or a b | And a b => expr_syms a ++ expr_syms b
  | Not a => expr_syms a
  | Equal l r | Unequal l r => [l; r]
  | Sym s => [s]
  | Choice _ _ | Range _ _ => []
  end.
Definition opt_syms (e : option expr) : list symbol := match e with Some e => expr_syms e | None => [] end.
Definition prop_syms (choice : bool) (p : property) : list symbol :=
  if bool_decide (p_type p = P_CHOICE) || bool_decide (p_type p = P_SELECT) then []
  else opt_syms (p_visible p) ++ (if bool_decide (p_type p <> P_DEFAULT) || choice then [] else opt_syms (p_expr p)).
Definition checked_deps (x : sym) : list symbol :=
  opt_syms (rev_expr x) ++ (s_prop x ≫= prop_syms (sym_is_choice x)).

Definition is_const (x : sym) : bool := Z.land (s_flags x) SYMBOL_CONST =? SYMBOL_CONST.
(** No dependency leads back: every dependency is a symbol of the table, a constant
    or one of a lower rank. *)
Definition acyclic (rank : symbol -> nat) (k : kconf) : Prop :=
  forall s x u, tab k !! s = Some x -> u ∈ checked_deps x -> exists y, tab k !! u = Some y /\
    (is_const x = false -> is_const y = false -> (rank u < rank s)%nat).

Section Constants.
Context (rank : symbol -> nat) (k0 : kconf) (Hac : acyclic rank k0).
Definition isc (s : symbol) : Prop := exists x, tab k0 !! s = Some x /\ is_const x = true.

(** The state during the checks: flags may differ, but the constants still look as if
    they were being checked, and no symbol of rank below [r] is. *)
Definition during (r : nat) (k : kconf) : Prop :=
  forall s x, tab k0 !! s = Some x -> exists f, tab k !! s = Some (with_flags (fun _ => f) x) /\
    Z.land f SYMBOL_CHOICE = Z.land (s_flags x) SYMBOL_CHOICE /\
    if is_const x then Z.land f SYMBOL_CHECK <> 0 else (rank s < r)%nat -> Z.land f SYMBOL_CHECK = 0.
Lemma choice_rest f : Z.land f SYMBOL_CHOICE = Z.land (Z.ldiff f CHECKS) SYMBOL_CHOICE.
Proof. rewrite Z.ldiff_land, <- Z.land_assoc. by change (Z.land (Z.lnot CHECKS) SYMBOL_CHOICE) with SYMBOL_CHOICE. Qed.
Lemma choice_enter f : Z.land (Z.lor f CHECKS) SYMBOL_CHOICE = Z.land f SYMBOL_CHOICE.
Proof. rewrite Z.land_lor_distr_l. change (Z.land CHECKS SYMBOL_CHOICE) with 0. apply Z.lor_0_r. Qed.
Lemma during_flags r k k' : during r k -> only_flags k k' -> during r k'.
Proof.
  intros Hd [_ H] s x Hx. destruct (Hd s x Hx) as (f & Hf & Hch & Hc). destruct (H s _ Hf) as (g & Hg & [Hk _ Hr]).
  exists g. split; [exact Hg|]. cbn in Hk, Hr. rewrite Hk. split; [|exact Hc].
  by rewrite (choice_rest g), Hr, <- choice_rest.
Qed.
Lemma during_below r r' k : (r' <= r)%nat -> during r k -> during r' k.
Proof.
  intros Hr Hd s x Hx. destruct (Hd s x Hx) as (f & Hf & Hch & Hc). exists f. do 2 (split; [done|]).
  destruct (is_const x); [done|]. intros ?. apply Hc. lia.
Qed.

(** A check of the symbols [l]: it returns NULL or a constant, and a constant if
    there is one among them. *)
Definition checks_of (n r : nat) (l : list symbol) (m : K (option symbol)) : Prop :=
  forall k, (base.size (pending k) <= n)%nat -> during r k ->
    wp m (fun res k' => only_flags k k' /\ (forall c, res = Some c -> isc c) /\ (Exists isc l -> res <> None)) k.

Lemma checks_of_none n r : checks_of n r [] (ret None).
Proof. intros k _ _. wp_simpl. split; [apply only_flags_refl|]. split; [done|]. by intros H%Exists_nil. Qed.
Lemma checks_of_seq n r l1 l2 m1 m2 : checks_of n r l1 m1 -> checks_of n r l2 m2 ->
  checks_of n r (l1 ++ l2) (x <- m1 ;; match x with Some s => ret (Some s) | None => m2 end).
Proof.
  intros H1 H2 k Hn Hd. wp_simpl. eapply wp_mono; [by apply H1|]. intros [c|] k1 (F & C & X); wp_simpl.
  - split; [done|]. by split.
  - eapply wp_mono; [apply H2; [pose proof (only_flags_pending _ _ F); lia|by eapply during_flags]|].
    intros r2 k2 (F2 & C2 & X2). split; [by eapply only_flags_trans|]. split; [done|].
    intros [H|H]%Exists_app; [by apply X in H|by apply X2].
Qed.

Section Below.
Context (check : symbol -> K (option symbol)) (n r : nat).
Context (Hcheck : forall u y, tab k0 !! u = Some y -> (is_const y = false -> (rank u < r)%nat) -> checks_of n r [u] (check u)).
Definition below (l : list symbol) : Prop :=
  Forall (fun u => exists y, tab k0 !! u = Some y /\ (is_const y = false -> (rank u < r)%nat)) l.

Lemma checks_of_expr e : below (expr_syms e) -> checks_of n r (expr_syms e) (check_expr_deps check e).
Proof.
  induction e as [x|a IHa|l r'|l r'|a IHa b IHb|a IHa b IHb|o x|l r']; cbn [expr_syms check_expr_deps]; intros Hb.
  - apply Forall_singleton in Hb as (y & Hy & Hr). by eapply Hcheck.
  - by apply IHa.
  - apply Forall_cons in Hb as [(y & Hy & Hr) (z & Hz & Hr')%Forall_singleton].
    apply (checks_of_seq n r [l] [r']); by eapply Hcheck.
  - apply Forall_cons in Hb as [(y & Hy & Hr) (z & Hz & Hr')%Forall_singleton].
    apply (checks_of_seq n r [l] [r']); by eapply Hcheck.
  - apply Forall_app in Hb as [Ha Hb]. apply checks_of_seq; auto.
  - apply Forall_app in Hb as [Ha Hb]. apply checks_of_seq; auto.
  - apply checks_of_none.
  - apply checks_of_none.
Qed.
Lemma checks_of_opt e : below (opt_syms e) -> checks_of n r (opt_syms e) (sym_check_expr_deps check e).
Proof. destruct e as [e|]; [apply checks_of_expr|intros _; apply checks_of_none]. Qed.
Lemma checks_of_props choice l : below (l ≫= prop_syms choice) -> checks_of n r (l ≫= prop_syms choice) (check_props check choice l).
Proof.
  induction l as [|p l IH]; intros Hb; [apply checks_of_none|]. cbn [mbind list_bind check_props] in *.
  apply Forall_app in Hb as [Hp Hl]. unfold prop_syms at 1 in Hp. unfold prop_syms at 1. destruct (bool_decide (p_type p = P_CHOICE) || _); [by apply IH|].
  apply Forall_app in Hp as [Hv Hd]. rewrite <- app_assoc. apply checks_of_seq; [by apply checks_of_opt|].
  destruct (bool_decide (p_type p <> P_DEFAULT) || choice); [by apply IH|]. apply checks_of_seq; [by apply checks_of_opt|by apply IH].
Qed.
End Below.

(** Entering [s] marks [s] only. *)
Lemma during_enter r s x y k : tab k0 !! s = Some x -> is_const x = false -> tab k !! s = Some y -> during r k -> (r <= S (rank s))%nat ->
  during (Nat.min r (rank s)) (set_tab (<[s := with_flags (fun f => Z.lor f CHECKS) y]> (tab k)) k).
Proof.
  intros Hx Hc Hy Hd Hr t z Hz. destruct (Hd t z Hz) as (f & Hf & Hch & Hcf). destruct (decide (s = t)) as [<-|Hne].
  - assert (z = x) as -> by congruence. assert (y = with_flags (fun _ => f) x) as -> by congruence.
    exists (Z.lor f CHECKS). cbn. rewrite lookup_insert_eq. split; [done|]. rewrite choice_enter, Hc. split; [done|lia].
  - exists f. cbn. rewrite lookup_insert_ne by done. do 2 (split; [done|]). destruct (is_const z); [done|]. intros ?. apply Hcf. lia.
Qed.

Definition deps_checked (x : sym) (k : kconf) (s : symbol) (res : option symbol) : Prop :=
  forall y, tab k !! s = Some y -> flag y SYMBOL_CHECKED = false -> is_const x = false ->
    Exists isc (checked_deps x) -> res <> None.

Lemma wp_check_deps n : forall r s x k, tab k0 !! s = Some x -> (is_const x = false -> (rank s < r)%nat) ->
  (base.size (pending k) <= n)%nat -> during r k ->
  wp (check_deps n s) (fun res k' => (only_flags k k' /\ (forall c, res = Some c -> isc c) /\ (Exists isc [s] -> res <> None)) /\
    deps_checked x k s res) k.
Proof.
  induction n as [|n IH]; intros r s x k Hx Hr Hn Hd; destruct (Hd s x Hx) as (f & Hf & Hch & Hcf); cbn [check_deps];
    unfold rd_sym; wp_simpl; rewrite Hf; wp_simpl; unfold flag at 1; cbn [s_flags with_flags];
    (destruct (is_const x) eqn:Hc;
     [destruct (Z.eqb_spec (Z.land f SYMBOL_CHECK) 0); [done|]; cbn [negb]; wp_simpl; split;
       [split; [apply only_flags_refl|]; split; [intros c [= <-]; by exists x|done]|by intros y _ _ ?]|]);
    rewrite (Hcf (Hr eq_refl)); cbn [Z.eqb negb];
    (assert (Hns : ~ Exists isc [s]) by (intros [(x' & Hx' & Hc')|H]%Exists_cons; [congruence|by apply Exists_nil in H]));
    (destruct (flag (with_flags (fun _ => f) x) SYMBOL_CHECKED) eqn:F2;
     [wp_simpl; split; [split; [apply only_flags_refl|]; by split|intros y Hy Fy; congruence]|]).
  { assert (s ∈ pending k) as Hs by (apply elem_of_pending; eauto).
    apply elem_of_subseteq_singleton, subseteq_size in Hs. rewrite size_singleton in Hs. lia. }
  pose proof (pending_enter k s _ Hf F2) as Hp. wp_simpl. unfold add_flag. fold CHECKS.
  eapply wp_intro; [rewrite wr_sym_at, Hf; reflexivity|]. set (k1 := set_tab _ k) in *.
  assert (Hd1 : during (rank s) k1).
  { eapply during_below; [|by eapply (during_enter (S (rank s)) s x); [..|eapply during_below; [|exact Hd]|]; try done; apply Hr]. lia. }
  assert (Hbelow : below (rank s) (checked_deps x)).
  { apply Forall_forall. intros u Hu. destruct (Hac s x u Hx Hu) as (y & Hy & Hl). exists y. split; [done|]. by apply Hl. }
  assert (Hcheck : forall u y, tab k0 !! u = Some y -> (is_const y = false -> (rank u < rank s)%nat) -> checks_of n (rank s) [u] (check_deps n u)).
  { intros u y Hy Hu k2 Hn2 Hd2. eapply wp_mono; [by eapply (IH (rank s) u y)|]. by intros res k' [H _]. }
  unfold checked_deps in Hbelow. apply Forall_app in Hbelow as [B1 B2].
  pose proof (checks_of_seq n (rank s) _ _ _ _ (checks_of_opt _ n (rank s) Hcheck _ B1)
    (checks_of_props _ n (rank s) Hcheck (sym_is_choice x) _ B2) k1 ltac:(lia) Hd1) as W.
  fold (checked_deps x) in W. replace (sym_is_choice x) with (sym_is_choice (with_flags (fun _ => f) x)) in W
    by (unfold sym_is_choice, flag; cbn [s_flags with_flags]; by rewrite Hch).
  rewrite wp_bind in W. wp_simpl. eapply wp_mono; [exact W|]. intros res1 k2 W2. cbv beta in W2.
  rewrite wp_bind. eapply wp_mono; [exact W2|]. intros res k3 (F3 & C3 & X3). wp_simpl.
  pose proof (leave_checks k k3 s _ Hf ltac:(cbn; auto) F3) as L. unfold ends in L.
  assert (Hk3 : is_Some (tab k3 !! s)).
  { destruct F3 as [D _]. rewrite <- elem_of_dom, D. cbn. rewrite dom_insert_L. set_solver. }
  unfold drop_flag in *. rewrite wr_sym_at in L. destruct Hk3 as [y3 Hy3]. rewrite Hy3 in L.
  eapply wp_intro; [rewrite wr_sym_at, Hy3; reflexivity|]. wp_simpl.
  assert (Hne : res <> Some s). { intros ->. apply Hns, Exists_cons. left. by apply C3. }
  rewrite bool_decide_false by done. split; [split; [exact L|]; by split|]. intros y _ _ _ H. by apply X3.
Qed.
End Constants.

Lemma during_start rank k : (forall s x, tab k !! s = Some x -> is_const x = false -> flag x SYMBOL_CHECK = false) ->
  forall r, during rank k r k.
Proof.
  intros Hidle r s x Hx. exists (s_flags x). split; [by rewrite Hx; destruct x|]. split; [done|]. destruct (is_const x) eqn:Hc.
  - unfold is_const in Hc. apply Z.eqb_eq, land_const in Hc. by rewrite Hc.
  - intros _. specialize (Hidle s x Hx Hc). unfold flag in Hidle. by apply negb_false_iff, Z.eqb_eq in Hidle.
Qed.


Definition check_rank (s : symbol) : nat := if decide (s = sym_at 3) then 1 else 0.
