(* ===== verification/Ksafe.v ===== *)
(** * Well-formed configurations (scripts/kconfig/symbol.c)

    What the parser makes: the symbols and menu entries that are pointed to exist, a
    choice has the list of its symbols and a symbol of a choice knows its choice, and
    what is compared or used as a number is not a choice.  For such a configuration
    no value is calculated through a wrong pointer. *)

From stdpp Require Import strings.
From S2P Require Import Prelude Str Bytes Symtab Printk Kexpr Ksym Kcalc.

(** ** What does not change while values are calculated *)

Definition strip (p : property) : property := mk_prop (p_type p) (p_text p) (p_visible p) 0 (p_expr p) (p_menu p).
Record shape : Type := mk_shape {
  sh_type : symbol_type; sh_choice : bool; sh_choiceval : bool; sh_set : bool;
  sh_name : option vptr; sh_user : vptr; sh_prop : list property; sh_rev : option expr
}.
Definition shape_of (x : sym) : shape :=
  mk_shape (s_type x) (sym_is_choice x) (sym_is_choice_value x) (sym_has_value x) (s_name x) (user_val x)
    (strip <$> s_prop x) (rev_expr x).
Definition is_text (v : vptr) : Prop := match v with VStr _ _ => True | _ => False end.

Section WellFormed.
Context (G : gmap symbol shape) (M : gset Z) (rk : symbol -> nat).

Definition known (s : symbol) : Prop := is_Some (G !! s).
(** A symbol whose value is a string *)
Definition texts (s : symbol) : Prop := exists h, G !! s = Some h /\ sh_choice h = false.
(** The symbols have ranks: nothing a symbol depends on has a higher one, and what is
    read as a string has a lower one, so no string is read before it is there. *)
Definition below (r : nat) (s : symbol) : Prop := known s /\ (rk s <= r)%nat.
Definition text_below (r : nat) (s : symbol) : Prop := texts s /\ (rk s < r)%nat.
Fixpoint closed (r : nat) (e : expr) : Prop :=
  match e with
  | Sym s | Choice None s => below r s
  | Not a => closed r a
  | And a b | Or a b => closed r a /\ closed r b
  | Equal s s' | Unequal s s' | Range s s' => text_below r s /\ text_below r s'
  | Choice (Some e) s => below r s /\ closed r e
  end.
Definition closed_opt (r : nat) (e : option expr) : Prop := match e with Some e => closed r e | None => True end.

Record prop_ok (r : nat) (h : shape) (p : property) : Prop := {
  po_visible : closed_opt r (p_visible p);
  po_expr : closed_opt r (p_expr p);
  po_menu : forall m, p_menu p = Some m -> m ∈ M;
  po_range : p_type p = P_RANGE -> exists lo hi, p_expr p = Some (Range lo hi);
  po_default : p_type p = P_DEFAULT -> match p_expr p with
    | Some (Choice (Some _) _) => False
    | Some (Sym d) => sh_type h ∈ [S_INT; S_HEX; S_STRING] -> text_below r d
    | _ => sh_choice h = false
    end
}.
Definition choice_prop (h : shape) : option property := snd <$> list_find (fun p => p_type p = P_CHOICE) (sh_prop h).
Record shape_ok (r : nat) (h : shape) : Prop := {
  so_prop : Forall (prop_ok r h) (sh_prop h);
  so_rev : closed_opt r (sh_rev h);
  so_choice : sh_choice h = true -> is_Some (choice_prop h) /\ sh_type h ∉ [S_INT; S_HEX; S_STRING] /\
    match sh_user h with VNull => True | VSym d => below r d | VStr _ _ => False end;
  so_choiceval : sh_choiceval h = true -> exists p c, choice_prop h = Some p /\ p_expr p = Some (Sym c);
  so_user : sh_type h ∈ [S_INT; S_HEX; S_STRING] -> sh_set h = true -> is_text (sh_user h);
  so_name : sh_type h ∈ [S_UNKNOWN; S_OTHER] -> sh_choice h = false -> match sh_name h with Some v => is_text v | None => False end
}.
Definition shapes_ok : Prop := map_Forall (fun s h => shape_ok (rk s) h) G.

(** The symbols of [V] have values; the values that are there are strings, but for
    the symbols of [P], whose visibility is being calculated. *)
Definition good (P V : gset symbol) (k : kconf) : Prop :=
  shape_of <$> tab k = G /\ dom (menus k) = M /\
  forall s x, tab k !! s = Some x ->
    (s ∈ V ∪ P -> valid x = true) /\ (sym_is_choice x = false -> valid x = true -> s ∉ P -> is_text (curr_val x)).
(** Nothing of [P] has a rank below [r]. *)
Definition low (P : gset symbol) (r : nat) : Prop := forall p, p ∈ P -> (r <= rk p)%nat.
Lemma low_mono P r r' : low P r -> (r' <= r)%nat -> low P r'.
Proof. intros H Hr p Hp. specialize (H p Hp). lia. Qed.
Lemma low_empty r : low ∅ r.
Proof. intros p Hp. by apply not_elem_of_empty in Hp. Qed.
Lemma low_add P s : low P (rk s) -> low ({[s]} ∪ P) (rk s).
Proof. intros H p [->%elem_of_singleton|Hp]%elem_of_union; [done|by apply H]. Qed.

Section States.
Context (P V : gset symbol).

(** [m] faults at most for the lack of fuel; its result is as [Q] says. *)
Definition safe {A} (m : K A) (Q : A -> Prop) : Prop :=
  forall k, good P V k -> match m k with Ok (a, k') => good P V k' /\ Q a | Err e => e = OutOfFuel end.

Lemma safe_bind {A B} (m : K A) (f : A -> K B) R Q : safe m R -> (forall a, R a -> safe (f a) Q) -> safe (bind m f) Q.
Proof.
  intros Hm Hf k Hk. specialize (Hm k Hk). unfold bind. destruct (m k) as [[a k']|e]; [|done].
  destruct Hm as [Hg HP]. by apply Hf.
Qed.
Lemma safe_mono {A} (m : K A) (R Q : A -> Prop) : safe m R -> (forall a, R a -> Q a) -> safe m Q.
Proof. intros Hm H k Hk. specialize (Hm k Hk). destruct (m k) as [[a k']|e]; [|done]. destruct Hm. auto. Qed.
Lemma safe_ret {A} (a : A) (Q : A -> Prop) : Q a -> safe (ret a) Q.
Proof. by intros HQ k Hk. Qed.
Lemma safe_gets {A} (f : kconf -> A) : safe (gets f) (fun _ => True).
Proof. by intros k Hk. Qed.
Lemma safe_lift {A} e (a : A) : safe (lift_opt e (Some a)) (fun b => b = a).
Proof. by intros k Hk. Qed.
Lemma safe_modify f : (forall k, tab (f k) = tab k /\ menus (f k) = menus k) -> safe (modify f) (fun _ => True).
Proof. intros Hf k Hk. cbn. destruct (Hf k) as [H1 H2]. unfold good. by rewrite H1, H2. Qed.

(** A symbol that was read: its shape is known, and its value if it is there. *)
Definition reads (s : symbol) (x : sym) : Prop :=
  G !! s = Some (shape_of x) /\ (s ∈ V -> s ∉ P -> sym_is_choice x = false -> is_text (curr_val x)).
Lemma safe_rd s : known s -> safe (rd_sym s) (reads s).
Proof.
  intros [h Hh] k Hk. destruct Hk as (H1 & H2 & H3). unfold rd_sym, bind, gets, lift_opt. rewrite <- H1, lookup_fmap in Hh.
  destruct (tab k !! s) as [x|] eqn:Hx; [|done]. cbn. split; [done|]. split; [by rewrite <- H1, lookup_fmap, Hx|].
  destruct (H3 s x Hx) as [HV HT]. intros Hs Hp Hc. apply HT; [done| |done]. by apply HV, elem_of_union_l.
Qed.
End States.

(** Between two states that differ in what is there *)
Definition shift {A} (P V P' V' : gset symbol) (m : K A) : Prop :=
  forall k, good P V k -> match m k with Ok (_, k') => good P' V' k' | Err e => e = OutOfFuel end.
Lemma shift_after {A B} P V P' V' (m : K A) (f : A -> K B) R :
  safe P V m R -> (forall a, R a -> shift P V P' V' (f a)) -> shift P V P' V' (bind m f).
Proof.
  intros Hm Hf k Hk. specialize (Hm k Hk). unfold bind. destruct (m k) as [[a k']|e]; [|done].
  destruct Hm as [Hg HR]. by apply Hf.
Qed.
Lemma shift_then {A B} P V P1 V1 P' V' (m : K A) (f : A -> K B) :
  shift P V P1 V1 m -> (forall a, shift P1 V1 P' V' (f a)) -> shift P V P' V' (bind m f).
Proof.
  intros Hm Hf k Hk. specialize (Hm k Hk). unfold bind. destruct (m k) as [[a k']|e]; [|done]. by apply Hf.
Qed.
Lemma safe_shift {A} P V (m : K A) Q : safe P V m Q -> shift P V P V m.
Proof. intros Hm k Hk. specialize (Hm k Hk). by destruct (m k) as [[a k']|e]; [destruct Hm|]. Qed.

(** What a change of [s] may do: from [P] and [V] to [P'] and [V'] *)
Lemma good_wr P V P' V' s f x k : good P V k -> tab k !! s = Some x -> shape_of (f x) = shape_of x ->
  (forall t, t <> s -> t ∉ P' -> t ∉ P) -> (forall t, t <> s -> t ∈ V' ∪ P' -> t ∈ V ∪ P) ->
  (s ∈ V' ∪ P' -> valid (f x) = true) ->
  (sym_is_choice x = false -> valid (f x) = true -> s ∉ P' -> is_text (curr_val (f x))) ->
  good P' V' (set_tab (<[s := f x]> (tab k)) k).
Proof.
  intros (H1 & H2 & H3) Hx Hf HP HV Hv Ht. split_and!; cbn; [|done|].
  - rewrite fmap_insert, Hf, H1. apply insert_id. by rewrite <- H1, lookup_fmap, Hx.
  - intros t y Hy. destruct (decide (s = t)) as [->|Hne].
    + rewrite lookup_insert_eq in Hy. injection Hy as <-. split; [done|]. intros Hc. apply Ht.
      assert (sh_choice (shape_of (f x)) = false) as Hc' by exact Hc. by rewrite Hf in Hc'.
    + rewrite lookup_insert_ne in Hy by done. destruct (H3 t y Hy) as [Y1 Y2]. split; [auto|]. intros ???. apply Y2; auto.
Qed.
Lemma good_known P V k s : good P V k -> known s -> exists x, tab k !! s = Some x.
Proof. intros (H1 & _) [h Hh]. rewrite <- H1, lookup_fmap in Hh. destruct (tab k !! s) as [x|]; [by exists x|done]. Qed.

Lemma safe_wr P V s f : known s -> (forall x, shape_of (f x) = shape_of x /\ valid (f x) = valid x /\
    (sym_is_choice x = false -> is_text (curr_val x) -> is_text (curr_val (f x)))) ->
  safe P V (wr_sym s f) (fun _ => True).
Proof.
  intros Hs Hf k Hk. rewrite wr_sym_at. destruct (good_known _ _ _ _ Hk Hs) as [x Hx]. rewrite Hx. split; [|done].
  destruct (Hf x) as (F1 & F2 & F3), Hk as (H1 & H2 & H3). destruct (H3 s x Hx) as [X1 X2].
  eapply (good_wr P V); [by split|done..| |]; rewrite F2; auto.
Qed.
End WellFormed.

(** ** The operations on a well-formed configuration *)

(** The flags that make the shape *)
Definition SHAPE_FLAGS : Z := Z.lor SYMBOL_CHOICE (Z.lor SYMBOL_CHOICEVAL SYMBOL_NEW).
Lemma shape_flags_apart m : Z.land m SHAPE_FLAGS = 0 ->
  Z.land m SYMBOL_CHOICE = 0 /\ Z.land m SYMBOL_CHOICEVAL = 0 /\ Z.land m SYMBOL_NEW = 0.
Proof.
  unfold SHAPE_FLAGS. rewrite !Z.land_lor_distr_r. intros [? [? ?]%Z.lor_eq_0_iff]%Z.lor_eq_0_iff. done.
Qed.
Lemma shape_of_flags g x m : (forall f c, Z.land m c = 0 -> Z.land (g f) c = Z.land f c) -> Z.land m SHAPE_FLAGS = 0 ->
  shape_of (with_flags g x) = shape_of x.
Proof.
  intros Hg (H1 & H2 & H3)%shape_flags_apart. unfold shape_of, sym_is_choice, sym_is_choice_value, sym_has_value, flag. cbn.
  by rewrite !Hg.
Qed.

Section Safe.
Context (G : gmap symbol shape) (M : gset Z) (rk : symbol -> nat) (HG : shapes_ok G M rk).
Notation safe := (safe G M).
Notation known := (known G).
Notation reads := (reads G).
Notation below := (below G rk).
Notation text_below := (text_below G rk).
Notation closed := (closed G rk).
Notation closed_opt := (closed_opt G rk).
Notation prop_ok := (prop_ok G M rk).
Notation shape_ok := (shape_ok G M rk).

Section Basic.
Context (P V : gset symbol).

Lemma shape_known s x : reads P V s x -> known s /\ shape_ok (rk s) (shape_of x).
Proof. intros [H _]. split; [by eexists|]. exact (HG s _ H). Qed.
Lemma prop_ok_strip r h p : prop_ok r h (strip p) -> prop_ok r h p.
Proof. intros H. destruct H; by split. Qed.
Lemma reads_props s x : reads P V s x -> Forall (prop_ok (rk s) (shape_of x)) (s_prop x).
Proof.
  intros [_ [H _ _ _ _ _]]%shape_known. cbn in H. rewrite Forall_fmap in H. eapply Forall_impl; [exact H|]. intros p. apply prop_ok_strip.
Qed.
Lemma reads_same s x y : reads P V s x -> reads P V s y -> shape_of y = shape_of x.
Proof. intros [H1 _] [H2 _]. congruence. Qed.
Lemma reads_text s x : texts G s -> s ∈ V -> s ∉ P -> reads P V s x -> is_text (curr_val x).
Proof. intros (h & Hh & Hc) HV HP [H1 H2]. apply H2; [done..|]. assert (h = shape_of x) as -> by congruence. exact Hc. Qed.
Lemma texts_known s : texts G s -> known s.
Proof. intros (h & Hh & _). by exists h. Qed.

Lemma safe_add_flag s m : known s -> Z.land m SHAPE_FLAGS = 0 -> Z.land m SYMBOL_VALID = 0 -> safe P V (add_flag s m) (fun _ => True).
Proof.
  intros Hs Hm Hv. apply safe_wr; [done|]. intros x. split_and!; [|unfold valid, flag; cbn; by rewrite land_lor_other|done].
  eapply shape_of_flags; [|exact Hm]. intros f c. apply land_lor_other.
Qed.
Lemma safe_drop_flag s m : known s -> Z.land m SHAPE_FLAGS = 0 -> Z.land m SYMBOL_VALID = 0 -> safe P V (drop_flag s m) (fun _ => True).
Proof.
  intros Hs Hm Hv. apply safe_wr; [done|]. intros x. split_and!; [|unfold valid, flag; cbn; by rewrite land_ldiff_other|done].
  eapply shape_of_flags; [|exact Hm]. intros f c. apply land_ldiff_other.
Qed.
Lemma strip_alter v (i : nat) (l : list property) :
  strip <$> alter (fun p => mk_prop (p_type p) (p_text p) (p_visible p) v (p_expr p) (p_menu p)) i l = strip <$> l.
Proof. revert i. induction l as [|p l IH]; intros [|i]; cbn; [done..|]. f_equal. apply IH. Qed.
Lemma safe_prop s i v : known s -> safe P V (set_prop_tri s i v) (fun _ => True).
Proof.
  intros Hs. apply safe_wr; [done|]. intros x. split_and!; [|done..]. unfold shape_of, with_prop. cbn. by rewrite strip_alter.
Qed.
Lemma safe_curr_tri s t : known s -> safe P V (wr_sym s (fun x => with_curr (curr_val x) t x)) (fun _ => True).
Proof. intros Hs. by apply safe_wr. Qed.
Lemma safe_visible s v : known s -> safe P V (wr_sym s (with_visible v)) (fun _ => True).
Proof. intros Hs. by apply safe_wr. Qed.
Lemma safe_rev s v : known s -> safe P V (wr_sym s (with_rev v)) (fun _ => True).
Proof. intros Hs. by apply safe_wr. Qed.
Lemma safe_props_changed r h l : Forall (prop_ok r h) l -> safe P V (props_changed l) (fun _ => True).
Proof.
  induction 1 as [|p l Hp _ IH]; cbn [props_changed]; [by apply safe_ret|]. eapply safe_bind with (R := fun _ => True); [|intros _ _; exact IH].
  destruct (p_menu p) as [m|] eqn:Em; [|by apply safe_ret]. pose proof (po_menu _ _ _ _ _ _ Hp m Em) as Hm.
  intros k (H1 & H2 & H3). unfold menu_changed, bind, gets, lift_opt. rewrite <- H2, elem_of_dom in Hm. destruct Hm as [f Hf].
  rewrite Hf. cbn. split; [|done]. split_and!; cbn; [done| |done]. rewrite dom_insert_L, H2.
  assert (m ∈ M) by (rewrite <- H2; apply elem_of_dom; eauto). set_solver.
Qed.
Lemma safe_set_changed s : known s -> safe P V (sym_set_changed s) (fun _ => True).
Proof.
  intros Hs. eapply safe_bind; [by apply safe_add_flag|]. intros _ _. eapply safe_bind; [by apply safe_rd|]. intros x Hx.
  eapply safe_props_changed. by eapply reads_props.
Qed.
Lemma safe_get_type s : known s -> safe P V (sym_get_type s) (fun _ => True).
Proof.
  intros Hs. eapply safe_bind; [by apply safe_rd|]. intros x _. eapply safe_bind; [apply safe_gets|]. intros m _. by apply safe_ret.
Qed.
Lemma safe_prop_symbol p : (forall e s, p_expr p <> Some (Choice (Some e) s)) ->
  safe P V (prop_get_symbol p) (fun o => o = match p_expr p with Some (Sym s) => Some s | _ => None end).
Proof.
  intros H. unfold prop_get_symbol. destruct (p_expr p) as [[x|a|l r|l r|a b|a b|[e|] x|l r]|]; try by apply safe_ret. by destruct (H e x).
Qed.
Lemma safe_str v : is_text v -> safe P V (str_of v) (fun _ => True).
Proof. destruct v; [done| |done]. intros _. by apply safe_ret. Qed.
Lemma safe_new_string l : safe P V (new_string l) is_text.
Proof.
  eapply safe_bind; [apply safe_gets|]. intros id _. eapply safe_bind; [by apply safe_modify|]. intros _ _. by apply safe_ret.
Qed.
Lemma safe_string_value s : texts G s -> s ∈ V -> s ∉ P -> safe P V (sym_get_string_value s) is_text.
Proof.
  intros Hs HV HP. eapply safe_bind; [apply safe_rd; by apply texts_known|]. intros x Hx. apply safe_ret.
  pose proof (reads_text s x Hs HV HP Hx). destruct (s_type x); try done.
  all: repeat match goal with |- context [if ?b then _ else _] => destruct b end; done.
Qed.
End Basic.

(** Writing a value *)
Lemma safe_own P V s f : known s -> (forall x, shape_of (f x) = shape_of x /\ valid (f x) = valid x) ->
  (forall x, texts G s -> is_text (curr_val (f x))) -> safe P V (wr_sym s f) (fun _ => True).
Proof.
  intros Hs Hf Hv k Hk. rewrite wr_sym_at. destruct (good_known _ _ _ _ _ _ Hk Hs) as [x Hx]. rewrite Hx. split; [|done].
  pose proof Hk as (H1 & H2 & H3). destruct (H3 s x Hx) as [X1 X2], (Hf x) as [F1 F2].
  eapply (good_wr _ _ P V); [done..|by rewrite F2|]. intros Hc _ _. apply Hv. exists (shape_of x). by rewrite <- H1, lookup_fmap, Hx.
Qed.
Lemma safe_curr P V s v t : known s -> (texts G s -> is_text v) -> safe P V (wr_sym s (with_curr v t)) (fun _ => True).
Proof. intros Hs Hv. by apply safe_own. Qed.
Lemma safe_curr_val P V s v : known s -> (texts G s -> is_text v) -> safe P V (wr_sym s (fun x => with_curr v (curr_tri x) x)) (fun _ => True).
Proof. intros Hs Hv. by apply safe_own. Qed.

(** From [SYMBOL_VALID] to the first new value, the value of [s] may be missing. *)
Lemma shift_start P V s x k : known s -> good G M P V k -> tab k !! s = Some x -> valid x = false ->
  s ∉ P /\ match add_flag s SYMBOL_VALID k with Ok (_, k') => good G M ({[s]} ∪ P) ({[s]} ∪ V) k' | Err e => False end.
Proof.
  intros Hs Hk Hx Hv. pose proof Hk as (H1 & H2 & H3). destruct (H3 s x Hx) as [X1 _].
  split; [intros Hp; rewrite X1 in Hv; set_solver|]. unfold add_flag. rewrite wr_sym_at, Hx.
  eapply (good_wr _ _ P V); [done..| | | | |].
  - by apply (shape_of_flags _ _ SYMBOL_VALID); [intros f c; apply land_lor_other|].
  - set_solver.
  - set_solver.
  - intros _. apply valid_lor.
  - set_solver.
Qed.
Lemma shift_curr P V s v t : known s -> (texts G s -> is_text v) -> shift G M ({[s]} ∪ P) V P V (wr_sym s (with_curr v t)).
Proof.
  intros Hs Hv k Hk. rewrite wr_sym_at. destruct (good_known _ _ _ _ _ _ Hk Hs) as [x Hx]. rewrite Hx.
  pose proof Hk as (H1 & H2 & H3). destruct (H3 s x Hx) as [X1 X2].
  eapply (good_wr _ _ ({[s]} ∪ P) V); [done..| | | |].
  - set_solver.
  - set_solver.
  - intros _. apply X1. set_solver.
  - intros Hc _ _. apply Hv. exists (shape_of x). by rewrite <- H1, lookup_fmap, Hx.
Qed.

Section Within.
Context (calc : symbol -> K unit).
(** What is promised about the call inside *)
Definition calc_safe : Prop := forall P V s, known s -> low rk P (rk s) -> shift G M P V P ({[s]} ∪ V) (calc s).
Context (Hcalc : calc_safe).

Ltac rd Hs x Hx := eapply safe_bind; [apply safe_rd; first [exact Hs|by apply texts_known]|]; intros x Hx; cbv beta in Hx.
Ltac go L := eapply safe_bind; [by apply L|]; intros ? ?.

Lemma calc_then {A} P V s (m : K A) Q : known s -> low rk P (rk s) -> safe P ({[s]} ∪ V) m Q -> safe P V (calc s ;;; m) Q.
Proof.
  intros Hs Hl Hm k Hk. pose proof (Hcalc P V s Hs Hl k Hk) as H. unfold bind. destruct (calc s k) as [[[] k']|e]; [|done].
  specialize (Hm k' H). destruct (m k') as [[a k2]|e]; [|done]. destruct Hm as [(H1 & H2 & H3) HQ]. split; [|done]. split_and!; [done..|].
  intros t x Hx. destruct (H3 t x Hx) as [X1 X2]. split; [|done]. intros Ht. apply X1. set_solver.
Qed.
Lemma calc_below {A} P V r s (m : K A) Q : below r s -> low rk P r -> safe P ({[s]} ∪ V) m Q -> safe P V (calc s ;;; m) Q.
Proof. intros [Hs Hr] Hl. apply calc_then; [done|by eapply low_mono]. Qed.
Lemma text_apart P r s : text_below r s -> low rk P r -> s ∉ P.
Proof. intros [_ Hr] Hl Hs. specialize (Hl s Hs). lia. Qed.
Lemma text_is_below r s : text_below r s -> below r s.
Proof. intros [Hs Hr]. split; [by apply texts_known|lia]. Qed.

Lemma safe_same_string P V r a b : low rk P r -> text_below r a -> text_below r b -> safe P V (same_string calc a b) (fun _ => True).
Proof.
  intros Hl Ha Hb. unfold same_string. eapply calc_below; [by apply text_is_below|done|]. eapply calc_below; [by apply text_is_below|done|].
  eapply safe_bind; [apply safe_string_value; [apply Ha|set_solver|by eapply text_apart]|]. intros v1 H1.
  eapply safe_bind; [apply safe_string_value; [apply Hb|set_solver|by eapply text_apart]|]. intros v2 H2.
  go safe_str. go safe_str. by apply safe_ret.
Qed.
Lemma safe_expr P V r e : low rk P r -> closed r e -> safe P V (calc_expr calc e) (fun _ => True).
Proof.
  intros Hl. induction e as [x|a IHa|l l'|l l'|a IHa b IHb|a IHa b IHb|o x|l l']; cbn [Ksafe.closed calc_expr].
  - intros Hx. eapply calc_below; [done..|]. destruct Hx as [Hx _]. rd Hx y Hy. by apply safe_ret.
  - intros Ha. eapply safe_bind; [by apply IHa|]. intros v _. by apply safe_ret.
  - intros [H1 H2]. eapply safe_bind; [by eapply safe_same_string|]. intros b _. by apply safe_ret.
  - intros [H1 H2]. eapply safe_bind; [by eapply safe_same_string|]. intros b _. by apply safe_ret.
  - intros [Ha Hb]. eapply safe_bind; [by apply IHa|]. intros v _. eapply safe_bind; [by apply IHb|]. intros w _. by apply safe_ret.
  - intros [Ha Hb]. eapply safe_bind; [by apply IHa|]. intros v _. eapply safe_bind; [by apply IHb|]. intros w _. by apply safe_ret.
  - intros _. by apply safe_ret.
  - intros _. by apply safe_ret.
Qed.
Lemma safe_expr_opt P V r e : low rk P r -> closed_opt r e -> safe P V (calc_expr_opt calc e) (fun _ => True).
Proof. destruct e as [e|]; [apply safe_expr|]. intros _ _. by apply safe_ret. Qed.

Lemma safe_visible_prop P V r t s i h l : low rk P r -> known s -> Forall (prop_ok r h) l ->
  safe P V (visible_prop calc t s i l) (fun o => forall p, o = Some p -> p_type p = t /\ prop_ok r h p).
Proof.
  intros Hlow Hs Hl. revert i. induction Hl as [|p l Hp _ IH]; intros i; cbn [visible_prop]; [by apply safe_ret|].
  case_bool_decide as Ht; [|apply IH]. eapply safe_bind; [eapply safe_expr_opt; [done|apply Hp]|]. intros v _. go safe_prop.
  destruct (negb _); [|apply IH]. apply safe_ret. by intros q [= <-].
Qed.
Lemma safe_default_prop P V s : low rk P (rk s) -> known s -> safe P V (sym_get_default_prop calc s)
  (fun o => exists x, reads P V s x /\ forall p, o = Some p -> p_type p = P_DEFAULT /\ prop_ok (rk s) (shape_of x) p).
Proof.
  intros Hl Hs. unfold sym_get_default_prop. rd Hs x Hx. eapply safe_mono; [apply safe_visible_prop; [done..|by eapply reads_props]|]. eauto.
Qed.
Lemma safe_range_prop P V s : low rk P (rk s) -> known s -> safe P V (sym_get_range_prop calc s)
  (fun o => forall p, o = Some p -> exists lo hi, p_expr p = Some (Range lo hi) /\ text_below (rk s) lo /\ text_below (rk s) hi).
Proof.
  intros Hl Hs. unfold sym_get_range_prop. rd Hs x Hx.
  eapply safe_mono; [apply safe_visible_prop; [done..|by eapply reads_props]|]. intros o H p Hp. destruct (H p Hp) as [Ht Hok].
  destruct (po_range _ _ _ _ _ _ Hok Ht) as (lo & hi & E). pose proof (po_expr _ _ _ _ _ _ Hok) as Hc. rewrite E in Hc. exists lo, hi. by split.
Qed.
Lemma safe_range_val P V r s b : low rk P r -> text_below r s -> safe P V (sym_get_range_val calc s b) (fun _ => True).
Proof.
  intros Hl Hs. unfold sym_get_range_val. eapply calc_below; [by apply text_is_below|done|].
  pose proof (text_apart _ _ _ Hs Hl). destruct Hs as [Hs _]. rd Hs x Hx.
  eapply safe_bind; [apply safe_str; eapply reads_text; [done| |done..]; set_solver|]. intros l _. by apply safe_ret.
Qed.

(** A symbol with a number is no choice. *)
Lemma reads_number P V s x : reads P V s x -> s_type x ∈ [S_INT; S_HEX; S_STRING] -> texts G s.
Proof.
  intros Hx Ht. exists (shape_of x). split; [apply Hx|]. destruct (sh_choice (shape_of x)) eqn:E; [|done].
  pose proof (shape_known _ _ s x Hx) as [_ [_ _ Hc _ _ _]]. by destruct (Hc E) as (_ & Hn & _).
Qed.
Lemma safe_validate P V s : low rk P (rk s) -> known s -> s ∈ V -> s ∉ P -> safe P V (sym_validate_range calc s) (fun _ => True).
Proof.
  intros Hl Hs HV HP. unfold sym_validate_range. rd Hs x Hx.
  destruct (match s_type x with S_INT => Some 10 | S_HEX => Some 16 | _ => None end) as [base|] eqn:Hb; [|by apply safe_ret].
  assert (texts G s) as Ht by (apply (reads_number P V s x Hx); destruct (s_type x); try done; set_solver).
  eapply safe_bind; [by apply safe_range_prop|]. intros [p|] Hp; [|by apply safe_ret].
  destruct (Hp p eq_refl) as (lo & hi & E & Hlo & Hhi). rd Hs y Hy.
  eapply safe_bind; [apply safe_str; exact (reads_text P V s y Ht HV HP Hy)|]. intros l _. rewrite E.
  eapply safe_bind; [apply safe_lift|]. intros [a b] [= -> ->]. eapply safe_bind; [by eapply safe_range_val|]. intros v2 _.
  eapply safe_bind with (R := fun _ => True).
  { destruct (_ <=? _); [|by apply safe_ret]. eapply safe_bind; [by eapply safe_range_val|]. intros v3 _. by apply safe_ret. }
  intros [v|] _; [|by apply safe_ret]. eapply safe_bind; [apply safe_new_string|]. intros str Hstr. by apply safe_curr_val.
Qed.
Lemma safe_prompts P V r s i h l t : low rk P r -> known s -> Forall (prop_ok r h) l -> safe P V (prompts_value calc s i l t) (fun _ => True).
Proof.
  intros Hlow Hs Hl. revert i t. induction Hl as [|p l Hp _ IH]; intros i t; cbn [prompts_value]; [by apply safe_ret|].
  destruct (p_text p); [|apply IH]. eapply safe_bind; [eapply safe_expr_opt; [done|apply Hp]|]. intros v _. go safe_prop. apply IH.
Qed.
Lemma safe_noted P V s (b : bool) f : known s -> safe P V (wr_sym s f) (fun _ => True) ->
  safe P V (if b then wr_sym s f ;;; sym_set_changed s else ret tt) (fun _ => True).
Proof.
  intros Hs Hf. destruct b; [|by apply safe_ret]. eapply safe_bind; [exact Hf|]. intros _ _. by eapply safe_set_changed.
Qed.
Lemma safe_visibility P V s : low rk P (rk s) -> known s -> safe P V (sym_calc_visibility calc s) (fun _ => True).
Proof.
  intros Hl Hs. unfold sym_calc_visibility. rd Hs x Hx.
  eapply safe_bind; [eapply safe_prompts; [done..|by eapply reads_props]|]. intros t _.
  eapply safe_bind; [apply safe_gets|]. intros m _. cbv zeta. rd Hs y Hy.
  eapply safe_bind; [apply safe_noted; [done|by apply safe_visible]|]. intros _ _. rd Hs z Hz.
  destruct (sym_is_choice_value z); [by apply safe_ret|]. eapply safe_bind with (R := fun _ => True).
  { pose proof (so_rev _ _ _ _ _ (proj2 (shape_known P V s z Hz))) as Hr. cbn in Hr.
    destruct (rev_expr z) as [e|]; [by eapply safe_expr|by apply safe_ret]. }
  intros v _. go safe_get_type. rd Hs w Hw. apply safe_noted; [done|by apply safe_rev].
Qed.
Lemma safe_visible_now P V r s : low rk P r -> below r s -> safe P V (visible_now calc s) (fun _ => True).
Proof.
  intros Hl [Hs Hr]. unfold visible_now. eapply safe_bind; [apply safe_visibility; [by eapply low_mono|done]|]. intros _ _.
  rd Hs x Hx. by apply safe_ret.
Qed.

Lemma safe_default_choice P V r s i h l : low rk P r -> known s -> sh_choice h = true -> Forall (prop_ok r h) l ->
  safe P V (default_choice calc s i l) (fun _ => True).
Proof.
  intros Hlow Hs Hch Hl. revert i. induction Hl as [|p l Hp _ IH]; intros i; cbn [default_choice]; [by apply safe_ret|].
  case_bool_decide as Ht; [|apply IH]. eapply safe_bind; [eapply safe_expr_opt; [done|apply Hp]|]. intros v _. go safe_prop.
  destruct (v =? tri_no); [apply IH|].
  pose proof (po_default _ _ _ _ _ _ Hp Ht) as Hd. pose proof (po_expr _ _ _ _ _ _ Hp) as Hc. rewrite Hch in Hd.
  destruct (p_expr p) as [[d|e1|? ?|? ?|? ?|? ?|[e|] ?|? ?]|] eqn:Ep; try done.
  eapply safe_bind; [apply safe_prop_symbol; by rewrite Ep|]. intros o ->. rewrite Ep. eapply safe_bind; [apply safe_lift|].
  intros d' ->. eapply safe_bind; [by eapply safe_visible_now|]. intros [] _; [by apply safe_ret|apply IH].
Qed.
Lemma safe_first_visible P V r l : low rk P r -> Forall (below r) l -> safe P V (first_visible calc l) (fun _ => True).
Proof.
  intros Hlow. induction 1 as [|d l Hd _ IH]; cbn [first_visible]; [by apply safe_ret|].
  eapply safe_bind; [by eapply safe_visible_now|]. intros [] _; [by apply safe_ret|apply IH].
Qed.
Fixpoint closed_chain (r : nat) (e : expr) : closed r e -> Forall (below r) (choice_symbols e).
Proof.
  destruct e as [x|a|l l'|l l'|a b|a b|[e|] x|l l']; cbn; intros He; try by constructor.
  - destruct He as [H1 H2]. constructor; [done|by apply closed_chain].
Qed.

(** The property of a choice, and of a symbol of one *)
Lemma first_prop_strip t x : p_expr <$> first_prop t x = p_expr <$> (snd <$> list_find (fun p => p_type p = t) (strip <$> s_prop x)).
Proof.
  unfold first_prop. rewrite list_find_fmap. unfold compose. cbn.
  by destruct (list_find _ (s_prop x)) as [[i p]|].
Qed.
Lemma safe_choice_prop P V s : known s -> safe P V (sym_get_choice_prop s)
  (fun o => exists h, G !! s = Some h /\ p_expr <$> o = p_expr <$> choice_prop h).
Proof.
  intros Hs. unfold sym_get_choice_prop. rd Hs x Hx. apply safe_ret. exists (shape_of x). split; [apply Hx|]. apply first_prop_strip.
Qed.
Lemma choice_prop_closed r h p : shape_ok r h -> choice_prop h = Some p -> closed_opt r (p_expr p).
Proof.
  intros [Hp _ _ _ _ _] E. unfold choice_prop in E. apply fmap_Some in E as ([i q] & (Hq & _)%list_find_Some & ->).
  rewrite Forall_lookup in Hp. exact (po_expr _ _ _ _ _ _ (Hp i q Hq)).
Qed.
(** What a choice does with its list *)
Lemma safe_with_list {A} P V s h (f : list symbol -> K A) Q : G !! s = Some h -> sh_choice h = true ->
  (forall l, Forall (below (rk s)) l -> safe P V (f l) Q) ->
  safe P V (p <- sym_get_choice_prop s ;; p <- lift_opt NullDeref p ;; f (match p_expr p with Some e => choice_symbols e | None => [] end)) Q.
Proof.
  intros Hh Hc Hf. assert (known s) as Hs by (by exists h). eapply safe_bind; [by apply safe_choice_prop|]. intros o (h' & Hh' & E).
  assert (h' = h) as -> by congruence. pose proof (HG s h Hh) as Hok. destruct (so_choice _ _ _ _ _ Hok Hc) as ([p Hp] & _).
  rewrite Hp in E. destruct o as [q|]; [|done]. eapply safe_bind; [apply safe_lift|]. intros q' ->. injection E as ->.
  apply Hf. pose proof (choice_prop_closed _ h p Hok Hp) as Hcl. destruct (p_expr p) as [e|]; [by apply closed_chain|by constructor].
Qed.
Lemma safe_choice P V s h : low rk P (rk s) -> G !! s = Some h -> sh_choice h = true -> safe P V (sym_calc_choice calc s) (fun _ => True).
Proof.
  intros Hl Hh Hc. assert (known s) as Hs by (by exists h). unfold sym_calc_choice. rd Hs x Hx.
  assert (shape_of x = h) as Eh by (destruct Hx; congruence). pose proof (HG s h Hh) as Hok.
  destruct (so_choice _ _ _ _ _ Hok Hc) as (_ & _ & Hu). rewrite <- Eh in Hu. cbn in Hu.
  eapply safe_bind with (R := fun _ => True).
  { destruct (user_val x); [by apply safe_ret|done|]. eapply safe_bind; [by eapply safe_visible_now|]. intros b _. by apply safe_ret. }
  intros [d|] _; [by apply safe_ret|]. rd Hs y Hy. eapply safe_bind.
  { eapply (safe_default_choice P V _ s 0 (shape_of y)); [done..| |by eapply reads_props]. by rewrite (reads_same _ _ s x y Hx Hy), Eh. }
  intros [d|] _; [by apply safe_ret|].
  apply (safe_with_list P V s h (fun l => r <- first_visible calc l ;; match r with
    | Some d => ret (VSym d) | None => wr_sym s (fun x => with_curr (curr_val x) tri_no x) ;;; ret VNull end)); [done..|].
  intros l Hl'. eapply safe_bind; [by eapply safe_first_visible|]. intros [d|] _; [by apply safe_ret|].
  eapply safe_bind; [by apply safe_curr_tri|]. intros _ _. by apply safe_ret.
Qed.

(** The value of the property that [sym_get_default_prop] gives *)
Lemma safe_default_value P V s (f : option property -> K Z) : low rk P (rk s) -> known s ->
  f None = ret tri_no -> (forall p, closed_opt (rk s) (p_expr p) -> safe P V (f (Some p)) (fun _ => True)) ->
  safe P V (p <- sym_get_default_prop calc s ;; f p) (fun _ => True).
Proof.
  intros Hl Hs Hn Hf. eapply safe_bind; [by apply safe_default_prop|]. intros [p|] (x & Hx & Hp).
  - apply Hf. destruct (Hp p eq_refl) as [_ Hok]. apply Hok.
  - rewrite Hn. by apply safe_ret.
Qed.
Lemma safe_tristate P V s : low rk P (rk s) -> known s -> safe P V (calc_tristate calc s) (fun _ => True).
Proof.
  intros Hl Hs. unfold calc_tristate. rd Hs x Hx. destruct (sym_is_choice_value x && _) eqn:Ev.
  - apply andb_true_iff in Ev as [Ev _]. pose proof (proj2 (shape_known _ _ s x Hx)) as Hok.
    destruct (so_choiceval _ _ _ _ _ Hok Ev) as (p & c & Hp & Ec). pose proof (choice_prop_closed _ _ p Hok Hp) as Hcl. rewrite Ec in Hcl.
    eapply safe_bind; [by apply safe_choice_prop|]. intros o (h & Hh & E).
    assert (h = shape_of x) as -> by (destruct Hx; congruence). rewrite Hp in E. destruct o as [q|]; [|done]. injection E as E.
    eapply safe_bind; [apply safe_lift|]. intros q' ->. rewrite Ec in E.
    eapply safe_bind; [apply safe_prop_symbol; by rewrite E|]. intros o ->. rewrite E. eapply safe_bind; [apply safe_lift|]. intros c' ->.
    destruct Hcl as [Hcl _]. rd Hcl y Hy. by apply safe_ret.
  - destruct (negb _).
    + eapply safe_bind; [by apply safe_add_flag|]. intros _ _. rd Hs y Hy. eapply safe_bind with (R := fun _ => True).
      { destruct (sym_has_value y); [by apply safe_ret|]. destruct (sym_is_choice y); [by apply safe_ret|].
        apply safe_default_value; [done..|]. intros p Hp. by eapply safe_expr_opt. }
      intros t _. rd Hs z Hz. by apply safe_ret.
    + destruct (sym_is_choice x); [by apply safe_ret|]. apply safe_default_value; [done..|]. intros p Hp.
      eapply safe_bind; [by apply safe_add_flag|]. intros _ _. by eapply safe_expr_opt.
Qed.
Lemma safe_string P V s h : low rk P (rk s) -> G !! s = Some h -> sh_type h ∈ [S_INT; S_HEX; S_STRING] -> safe P V (calc_string calc s) is_text.
Proof.
  intros Hl Hh Ht. assert (known s) as Hs by (by exists h). pose proof (HG s h Hh) as Hok. unfold calc_string. rd Hs x Hx.
  assert (shape_of x = h) as Eh by (destruct Hx; congruence).
  eapply safe_bind with (R := fun o => match o with Some v => is_text v | None => True end).
  { destruct (negb _); [|by apply safe_ret]. eapply safe_bind; [by apply safe_add_flag|]. intros _ _. apply safe_ret.
    destruct (sym_has_value x) eqn:E; [|done]. pose proof (so_user _ _ _ _ _ Hok Ht) as Hu. rewrite <- Eh in Hu. by apply Hu. }
  intros [v|] Hv; [by apply safe_ret|]. eapply safe_bind; [by apply safe_default_prop|]. intros [p|] (y & Hy & Hp); [|by apply safe_ret].
  destruct (Hp p eq_refl) as [Hd Hpo]. pose proof (po_default _ _ _ _ _ _ Hpo Hd) as Hdef.
  rewrite (reads_same _ _ s x y Hx Hy), Eh in Hdef.
  eapply safe_bind; [apply safe_prop_symbol; intros e d E; by rewrite E in Hdef|]. intros o ->.
  destruct (p_expr p) as [[d|? |? ?|? ?|? ?|? ?|? ?|? ?]|]; try by apply safe_ret. specialize (Hdef Ht).
  eapply safe_bind; [by apply safe_add_flag|]. intros _ _. eapply calc_below; [by apply text_is_below|done|].
  pose proof (text_apart _ _ _ Hdef Hl). destruct Hdef as [Hdef _].
  rd Hdef z Hz. apply safe_ret. eapply reads_text; [done| |done..]. set_solver.
Qed.
Lemma safe_pass P V r f l : Z.land f SHAPE_FLAGS = 0 -> Z.land f SYMBOL_VALID = 0 -> Forall (below r) l -> safe P V (pass_flags f l) (fun _ => True).
Proof.
  intros Hf Hv. induction 1 as [|d l [Hd _] _ IH]; cbn [pass_flags]; [by apply safe_ret|].
  eapply safe_bind; [by apply safe_add_flag|]. intros _ _. eapply safe_bind with (R := fun _ => True).
  { destruct (negb _); [by eapply safe_set_changed|by apply safe_ret]. }
  intros _ _. exact IH.
Qed.
Lemma safe_after_value P V s ov ot tri : low rk P (rk s) -> known s -> s ∈ V -> s ∉ P -> safe P V (after_value calc s ov ot tri) (fun _ => True).
Proof.
  intros Hl Hs HV HP. unfold after_value. rd Hs x Hx. eapply safe_bind with (R := fun _ => True).
  { destruct (sym_is_choice x && _) eqn:E; [|by apply safe_ret]. apply andb_true_iff in E as [E _].
    eapply safe_bind; [by eapply safe_choice; [|apply Hx|]|]. intros v _.
    apply safe_curr_val; [done|]. intros (h & Hh & Hc). assert (h = shape_of x) as -> by (destruct Hx; congruence). cbn in Hc. congruence. }
  intros _ _. go safe_validate. rd Hs y Hy. eapply safe_bind with (R := fun _ => True).
  { destruct (_ && _); [by apply safe_ret|by eapply safe_set_changed]. }
  intros _ _. eapply safe_bind; [apply safe_gets|]. intros m _. eapply safe_bind with (R := fun _ => True).
  { destruct (bool_decide _); [by apply safe_modify|by apply safe_ret]. }
  intros _ _. rd Hs z Hz. destruct (sym_is_choice z) eqn:Ez; [|by apply safe_ret].
  apply (safe_with_list _ _ s (shape_of z)); [apply Hz|done|]. intros l Hlist.
  eapply safe_pass; [| |done]; rewrite <- Z.land_assoc; [change (Z.land _ SHAPE_FLAGS) with 0|change (Z.land _ SYMBOL_VALID) with 0]; by rewrite Z.land_0_r.
Qed.
Lemma safe_end P V s ov ot v tri : low rk P (rk s) -> known s -> s ∈ V -> s ∉ P -> (texts G s -> is_text v) ->
  safe P V (calc_end calc s ov ot v tri) (fun _ => True).
Proof. intros Hl Hs HV HP Hv. eapply safe_bind; [by apply safe_curr|]. intros _ _. by apply safe_after_value. Qed.

Lemma shift_rest P V s : low rk P (rk s) -> known s -> s ∈ V -> s ∉ P -> shift G M ({[s]} ∪ P) V P V (calc_rest calc s).
Proof.
  intros Hl Hs HV HP. unfold calc_rest. eapply shift_after; [by apply safe_rd|]. intros x Hx.
  destruct (match s_type x with S_INT | S_HEX | S_STRING => _ | _ => _ end) as [newval|] eqn:En.
  - assert (is_text newval) as Hn by (destruct (s_type x); inversion En; done).
    eapply shift_after with (R := fun _ => True).
    { destruct (negb _); [by apply safe_drop_flag|by apply safe_ret]. }
    intros _ _. eapply shift_after; [apply safe_visibility; [by apply low_add|done]|]. intros _ _.
    eapply shift_then; [by apply shift_curr|]. intros _. eapply safe_shift with (Q := fun _ => True).
    eapply safe_bind with (R := fun t => t ∈ [S_INT; S_HEX; S_STRING] -> s_type x ∈ [S_INT; S_HEX; S_STRING]).
    { unfold sym_get_type. rd Hs y Hy. eapply safe_bind; [apply safe_gets|]. intros m _. apply safe_ret.
      assert (s_type y = s_type x) as ->.
      { destruct Hx as [Hx _], Hy as [Hy _]. rewrite Hx in Hy. by injection Hy as ->. }
      case_bool_decide as Htr; [|done]. intros Hin. destruct (_ && _); [set_solver|]. destruct (m =? tri_no); set_solver. }
    intros t Ht.
    assert (safe P V (tri <- calc_tristate calc s ;; t <- sym_get_type s ;;
      let tri := if ((tri =? tri_mod) || (tri =? tri_metapack)) && bool_decide (t = S_BOOLEAN) then tri_no else tri in
      calc_end calc s (curr_val x) (curr_tri x) newval tri) (fun _ => True)) as Htri.
    { go safe_tristate. go safe_get_type. by apply safe_end. }
    assert (t ∈ [S_INT; S_HEX; S_STRING] -> safe P V (v <- calc_string calc s ;; calc_end calc s (curr_val x) (curr_tri x) v tri_no) (fun _ => True)) as Hstr.
    { intros Hti. eapply safe_bind; [eapply safe_string; [done|apply Hx|by apply Ht]|]. intros v Hv. by apply safe_end. }
    destruct t; first [exact Htri|apply Hstr; set_solver|by apply safe_end].
  - apply shift_curr; [done|]. intros (h & Hh & Hc). assert (h = shape_of x) as -> by (destruct Hx; congruence).
    pose proof (so_name _ _ _ _ _ (HG s _ Hh)) as Hname. cbn in Hname. destruct (s_type x); try done.
    all: specialize (Hname ltac:(set_solver) Hc); by destruct (s_name x).
Qed.
End Within.

Lemma calc_is_safe n : calc_safe (sym_calc n).
Proof.
  induction n as [|n IH]; intros P V s Hs Hl k Hk; rewrite sym_calc_at; destruct (good_known _ _ _ _ _ _ Hk Hs) as [x Hx];
    rewrite Hx; destruct (valid x) eqn:Hv; try done.
  1,2: destruct Hk as (H1 & H2 & H3); split_and!; [done..|]; intros t y Hy; destruct (H3 t y Hy) as [Y1 Y2]; split; [|done];
    intros Ht; destruct (decide (t = s)) as [->|]; [congruence|]; apply Y1; set_solver.
  destruct (shift_start P V s x k Hs Hk Hx Hv) as [HP H]. unfold calc_body, bind. destruct (add_flag s SYMBOL_VALID k) as [[a k1]|e]; [|done].
  refine (shift_rest _ IH P _ s Hl Hs _ HP k1 H). set_solver.
Qed.
End Safe.

(** ** Calculating values in a well-formed configuration *)

Definition well_formed (rk : symbol -> nat) (k : kconf) : Prop :=
  shapes_ok (shape_of <$> tab k) (dom (menus k)) rk /\
  forall s x, tab k !! s = Some x -> sym_is_choice x = false -> valid x = true -> is_text (curr_val x).

Lemma well_formed_good rk k : well_formed rk k -> good (shape_of <$> tab k) (dom (menus k)) ∅ ∅ k.
Proof. intros [H1 H2]. split_and!; [done..|]. intros s x Hx. split; [set_solver|]. intros Hc Hv _. by apply (H2 s). Qed.
Lemma good_well_formed rk k k' V : well_formed rk k -> good (shape_of <$> tab k) (dom (menus k)) ∅ V k' -> well_formed rk k'.
Proof.
  intros [H1 _] (E1 & E2 & E3). unfold well_formed. rewrite E1, E2. split; [done|].
  intros s x Hx Hc Hv. destruct (E3 s x Hx) as [_ H]. apply H; [done..|set_solver].
Qed.

(** What does not fault returns when the fuel is enough. *)
Lemma well_formed_run {A} (m : K A) (Q : A -> kconf -> Prop) rk k V : well_formed rk k ->
  shift (shape_of <$> tab k) (dom (menus k)) ∅ ∅ ∅ V m -> ends m Q k ->
  exists a k', m k = Ok (a, k') /\ well_formed rk k' /\ Q a k'.
Proof.
  intros Hk Hs He. specialize (Hs k (well_formed_good _ _ Hk)). unfold ends in He.
  destruct (m k) as [[a k']|e]; [|done]. exists a, k'. split; [done|]. split; [by eapply good_well_formed|done].
Qed.

(** What is there keeps its value. *)
Definition values_kept (k k' : kconf) : Prop :=
  dom (tab k') = dom (tab k) /\
  forall s x, tab k !! s = Some x -> exists x', tab k' !! s = Some x' /\ s_type x' = s_type x /\
    (valid x = true -> valid x' = true /\ curr_val x' = curr_val x /\ curr_tri x' = curr_tri x).
Lemma grows_values k k' : grows None anything k k' -> values_kept k k'.
Proof.
  intros [D H]. split; [done|]. intros s x Hx. destruct (H s x Hx) as (x' & Hx' & T & _ & V). exists x'. split; [done|]. split; [done|].
  intros Hv. destruct (V Hv) as [? []]. done.
Qed.

(** [C37] [sym_calc_value] returns: the depth of the calls is at most the number of symbols.
    The symbol has a value then, every symbol that had one keeps it, and a second call
    does nothing. *)
Theorem sym_calc_value_correct (rk : symbol -> nat) (s : symbol) (k : kconf) : well_formed rk k -> is_Some (tab k !! s) ->
  exists k', sym_calc_value (Some s) k = Ok (tt, k') /\ well_formed rk k' /\ has_value k' s /\ values_kept k k' /\
    sym_calc_value (Some s) k' = Ok (tt, k').
Proof.
  intros Hk Hs. destruct (well_formed_run (sym_calc_value (Some s))
    (fun _ k' => grows None anything k k' /\ has_value k' s) rk k ({[s]} ∪ ∅) Hk) as ([] & k' & E & Hk' & Hg & Hv).
  - eapply shift_after; [apply safe_gets|]. intros n _. apply (calc_is_safe _ _ rk); [apply Hk| |apply low_empty].
    unfold known. rewrite lookup_fmap. by destruct Hs as [x ->].
  - apply (sym_calc_ends _ anything), invalid_fuel.
  - exists k'. split_and!; [done..|by apply grows_values|]. destruct Hv as (x & Hx & Hvx).
    cbn. unfold bind, gets. by rewrite sym_calc_at, Hx, Hvx.
Qed.

(** [C38] [expr_calc_value] returns the value of the expression for the values that its
    symbols have then, [value] being the definition without a state. *)
Theorem expr_calc_value_refines (rk : symbol -> nat) (r : nat) (e : expr) (k : kconf) :
  well_formed rk k -> constants_ok k -> closed (shape_of <$> tab k) rk r e ->
  exists v k', expr_calc_value (Some e) k = Ok (v, k') /\ well_formed rk k' /\ values_kept k k' /\ settled k' e /\
    v = value (types_of k') tri_not (values_of k') e.
Proof.
  intros Hk Hc He. destruct (well_formed_run (expr_calc_value (Some e)) (fun r k' => grows None anything k k' /\ settled k' e /\
    r = value (types_of k') tri_not (values_of k') e) rk k ∅ Hk) as (v & k' & E & Hk' & Hg & Hv & Hr).
  - eapply shift_after; [apply safe_gets|]. intros n _. eapply safe_shift.
    exact (safe_expr _ _ rk (proj1 Hk) _ (calc_is_safe _ _ rk (proj1 Hk) n) _ _ r e (low_empty _ _) He).
  - unfold expr_calc_value. apply calc_expr_is; [done|apply invalid_fuel].
  - exists v, k'. split_and!; [done..|by apply grows_values|done|done].
Qed.

(** ** Setting values *)

Inductive action : Type :=
| SetTristate (s : symbol) (v : Z) | Toggle (s : symbol) | SetString (s : symbol) (l : list Z)
| ClearValid | CalcSymbol (s : symbol) | CalcExpr (e : expr).
Definition act (a : action) : K unit :=
  match a with
  | SetTristate s v => sym_set_tristate_value s v ;;; ret tt
  | Toggle s => sym_toggle_tristate_value s ;;; ret tt
  | SetString s l => sym_set_string_value s l ;;; ret tt
  | ClearValid => sym_clear_all_valid
  | CalcSymbol s => sym_calc_value (Some s)
  | CalcExpr e => expr_calc_value (Some e) ;;; ret tt
  end.
Fixpoint acts (l : list action) : K unit := match l with [] => ret tt | a :: l => act a ;;; acts l end.

Lemma tame_act a : tame (act a).
Proof.
  destruct a as [s v|s|s l| |s|e]; cbn [act].
  - apply tame_bind; [apply tame_set_tristate|]. by intros _ k.
  - apply tame_bind; [apply tame_toggle|]. by intros _ k.
  - apply tame_bind; [apply tame_set_string|]. by intros _ k.
  - apply tame_clear.
  - apply tame_calc.
  - apply tame_bind; [|by intros _ k]. apply tame_with_fuel. intros ty n.
    apply calm_expr; [done|]. intros. by apply sym_calc_calm.
Qed.
Lemma tame_acts l : tame (acts l).
Proof. induction l as [|a l IH]; cbn [acts]; [by intros k|]. apply tame_bind; [apply tame_act|]. by intros _. Qed.

(** [C39] Whatever is set and calculated, and however often: it never loops for ever, and a
    boolean symbol has never the value [m], though what it depends on may have. *)
Theorem booleans_stay_boolean (l : list action) (k : kconf) : booleans k ->
  match acts l k with
  | Ok (_, k') => forall s x, tab k' !! s = Some x -> s_type x = S_BOOLEAN -> curr_tri x <> tri_mod /\ curr_tri x <> tri_metapack
  | Err e => e <> OutOfFuel
  end.
Proof.
  intros Hk. pose proof (tame_acts l k) as H. unfold ends in H. destruct (acts l k) as [[[] k']|e]; [|done].
  destruct H as [_ H]. exact (H Hk).
Qed.

(** ** A configuration *)

Definition demo_const (id : Z) (l : string) : sym :=
  mk_sym (Some (VStr id (chars l))) S_UNKNOWN VNull 0 VNull 0 0 (Z.lor SYMBOL_NEW SYMBOL_CONST) [] None 0.
Definition demo_sym (id : Z) (l : string) (t : symbol_type) (f : Z) (props : list property) : sym :=
  mk_sym (Some (VStr id (chars l))) t VNull 0 VNull 0 0 (Z.lor SYMBOL_NEW f) props None 0.
Definition demo_prompt (v : option expr) : property := mk_prop P_PROMPT true v 0 None (Some 1).
Definition demo_default (s : symbol) : property := mk_prop P_DEFAULT false None 0 (Some (Sym s)) None.
(** [A] is [m]; [B] is boolean and has the default [A]; [N] is a number from 10 to 20
    with the default 7; [C] is visible if [N] is 10; a choice of two. *)
Definition demo_tab : gmap symbol sym := list_to_map (
  [(sym_at 2, demo_sym 2 "A" S_TRISTATE 0 [demo_prompt None; demo_default symbol_mod]);
   (sym_at 3, demo_sym 3 "B" S_BOOLEAN 0 [demo_prompt (Some (Sym (sym_at 2))); demo_default (sym_at 2)]);
   (sym_at 4, demo_sym 4 "N" S_INT 0 [demo_prompt None; demo_default (sym_at 5);
      mk_prop P_RANGE false None 0 (Some (Range (sym_at 6) (sym_at 7))) None]);
   (sym_at 5, demo_const 5 "7"); (sym_at 6, demo_const 6 "10"); (sym_at 7, demo_const 7 "20");
   (sym_at 8, demo_sym 8 "C" S_BOOLEAN 0 [demo_prompt (Some (Equal (sym_at 4) (sym_at 6))); demo_default symbol_yes]);
   (sym_at 9, mk_sym None S_BOOLEAN VNull 0 VNull 0 0 (Z.lor SYMBOL_NEW SYMBOL_CHOICE)
      [demo_prompt None; mk_prop P_CHOICE false None 0 (Some (Choice (Some (Choice None (sym_at 10))) (sym_at 11))) None] (Some (Sym symbol_yes)) 0);
   (sym_at 10, demo_sym 10 "D" S_BOOLEAN SYMBOL_CHOICEVAL [demo_prompt (Some (Sym (sym_at 9))); mk_prop P_CHOICE false None 0 (Some (Sym (sym_at 9))) None]);
   (sym_at 11, demo_sym 11 "E" S_BOOLEAN SYMBOL_CHOICEVAL [demo_prompt (Some (Sym (sym_at 9))); mk_prop P_CHOICE false None 0 (Some (Sym (sym_at 9))) None])]
  ++ map_to_list static_syms).
Definition demo_k : kconf := mk_kconf demo_tab {[1 := 0]} [sym_at <$> [2; 3; 4; 5; 6; 7; 8; 9; 10; 11]] None tri_yes 0 100.
Definition demo_rank (s : symbol) : nat := match s with sym_at 4 => 1 | sym_at 8 => 2 | _ => 0 end.


(** Facts about a symbol that a lookup decides *)
Lemma known_lookup (G : gmap symbol shape) s : bool_decide (is_Some (G !! s)) = true -> known G s.
Proof. by intros H%bool_decide_eq_true. Qed.
Lemma texts_lookup (G : gmap symbol shape) s : option_map sh_choice (G !! s) = Some false -> texts G s.
Proof. unfold texts. destruct (G !! s) as [h|]; [|done]. intros [= H]. by exists h. Qed.
Ltac demo_solve := repeat match goal with
  | H : _ ∈ [_; _; _] |- _ => exfalso; apply (bool_decide_pack _) in H; vm_compute in H; exact H
  | H : Some _ = Some ?m |- ?m ∈ _ => injection H as <-; apply elem_of_dom; eexists; vm_compute; reflexivity
  | |- ex _ => do 2 eexists; first [reflexivity|split; [vm_compute; reflexivity|reflexivity]]
  | |- _ ∉ _ => apply (bool_decide_unpack _); vm_compute; exact I
  | |- _ /\ _ => split
  | |- True => exact I
  | |- known _ _ => apply known_lookup; vm_compute; reflexivity
  | |- texts _ _ => apply texts_lookup; vm_compute; reflexivity
  | |- below _ _ _ _ => split
  | |- text_below _ _ _ _ => split
  | |- (_ <= _)%nat => vm_compute; lia
  | |- (_ < _)%nat => vm_compute; lia
  | |- forall _ : _, _ => intro
  | |- Forall _ _ => constructor
  | |- prop_ok _ _ _ _ _ _ => split; cbn
  | |- uncurry _ _ => split; cbn
  end.
Lemma demo_well_formed : well_formed demo_rank demo_k.
Proof.
  split.
  - apply map_Forall_to_list. set (G := shape_of <$> tab demo_k). set (M := dom (menus demo_k)).
    let l := eval vm_compute in (map_to_list G) in assert (map_to_list G = l) as -> by (vm_compute; reflexivity).
    all: demo_solve; done.
  - apply (map_Forall_to_list (fun _ x => sym_is_choice x = false -> valid x = true -> is_text (curr_val x))).
    let l := eval vm_compute in (map_to_list (tab demo_k)) in assert (map_to_list (tab demo_k) = l) as -> by (vm_compute; reflexivity).
    repeat (apply Forall_cons; split; [by vm_compute|]). constructor.
Qed.
Lemma demo_constants : constants_ok demo_k.
Proof. intros s t Ht Hs. destruct s; try (vm_compute in Ht; congruence). by destruct (Hs p). Qed.
Lemma demo_booleans : booleans demo_k.
Proof.
  apply (map_Forall_to_list (fun _ x => two x)).
  let l := eval vm_compute in (map_to_list (tab demo_k)) in assert (map_to_list (tab demo_k) = l) as -> by (vm_compute; reflexivity).
  repeat (apply Forall_cons; split; [by vm_compute|]). constructor.
Qed.

(** [N = 10 && !B] *)
Definition demo_expr : expr := And (Equal (sym_at 4) (sym_at 6)) (Not (Sym (sym_at 3))).
Lemma demo_closed : closed (shape_of <$> tab demo_k) demo_rank 2 demo_expr.
Proof. unfold demo_expr. cbn [closed]. demo_solve. Qed.

(** [C] is [y] and [N] the number 10. *)
Definition demo_values (k : kconf) : bool := (tri (values_of k) (sym_at 8) =? tri_yes) && bool_decide (val (values_of k) (sym_at 4) = chars "10").
Lemma sym_calc_value_correct_witness : exists k', sym_calc_value (Some (sym_at 8)) demo_k = Ok (tt, k') /\
  has_value k' (sym_at 8) /\ demo_values k' = true /\ values_kept demo_k k'.
Proof.
  assert (match sym_calc_value (Some (sym_at 8)) demo_k with Ok (_, k') => demo_values k' | Err _ => false end = true) as H by (vm_compute; reflexivity).
  destruct (sym_calc_value_correct demo_rank (sym_at 8) demo_k demo_well_formed) as (k' & E & _ & Hv & Hk & _).
  - vm_compute. by eexists.
  - rewrite E in H. exists k'. split; [exact E|]. split; [exact Hv|]. split; [exact H|exact Hk].
Defined.
Lemma expr_calc_value_refines_witness : exists v k', expr_calc_value (Some demo_expr) demo_k = Ok (v, k') /\
  v = value (types_of k') tri_not (values_of k') demo_expr /\ settled k' demo_expr.
Proof.
  destruct (expr_calc_value_refines demo_rank 2 demo_expr demo_k demo_well_formed demo_constants demo_closed) as (v & k' & E & _ & _ & Hs & Hv).
  exists v, k'. split; [exact E|]. split; [exact Hv|exact Hs].
Defined.
(** [B] is set to [m], which fails, then toggled; [A] is set to [y]. *)
Definition demo_acts : list action :=
  [CalcSymbol (sym_at 3); SetTristate (sym_at 3) tri_mod; Toggle (sym_at 3); CalcSymbol (sym_at 3); SetTristate (sym_at 2) tri_yes;
   SetString (sym_at 4) (chars "12"); ClearValid; CalcSymbol (sym_at 8); CalcExpr demo_expr].
Lemma booleans_stay_boolean_witness :
  match acts demo_acts demo_k with
  | Ok (_, k') => forall s x, tab k' !! s = Some x -> s_type x = S_BOOLEAN -> curr_tri x <> tri_mod /\ curr_tri x <> tri_metapack
  | Err e => False
  end.
Proof.
  assert (match acts demo_acts demo_k with Ok _ => true | Err _ => false end = true) as E by (vm_compute; reflexivity).
  pose proof (booleans_stay_boolean demo_acts demo_k demo_booleans) as H. destruct (acts demo_acts demo_k) as [[u k']|e]; [exact H|done].
Defined.
