(* ===== verification/Kmenu.v ===== *)
(** * scripts/kconfig/menu.c: the tree of the menu entries

    The entries are kept by pointer ([next], [parent], [list]).  A property belongs
    to a symbol, or to an entry without one; the prompt of an entry points to it.
    Expressions are values: the code copies them before it changes them, but for the
    prompt's condition that becomes a part of [rev_dep] at the end. *)

From stdpp Require Import strings.
From S2P Require Import Prelude Str Bytes Symtab Printk Kexpr Kdups Ksym Kcalc Ksafe.

(** ** Data *)

(** A [struct property *] *)
Inductive pref : Type :=
| PSym (s : symbol) (i : nat)    (** the [i]th of a symbol *)
| POwn (p : property).           (** of the entry *)

(** [struct menu]; its [flags] are in [menus] of [kconf] *)
Record menu : Type := mk_menu {
  m_next : option Z; m_parent : option Z; m_list : option Z;
  m_sym : option symbol; m_prompt : option pref; m_dep : option expr
}.
(** What [last_entry_ptr] points to *)
Inductive slot : Type := NextOf (m : Z) | ListOf (m : Z).

(** The messages, the first with the type that stays *)
Inductive warning : Type :=
| WTypeRedefined (t : symbol_type) | WPromptRedefined
| WDefault | WSelectUser | WSelectUndefined | WSelectType | WRangeType | WRange
| WNoType | WChoicePrompt | WValuePrompt | WSinglePrompt | WValueDefault.

Record mconf : Type := mk_mconf {
  kc : kconf; mtab : gmap Z menu;
  current_entry : Z; current_menu : option Z; last_entry_ptr : slot;
  next_menu : Z;                (** where [malloc] puts the next entry *)
  trans : Z;                    (** [trans_count] *)
  warnings : list warning       (** what was printed *)
}.
Definition set_kc (v : kconf) (s : mconf) : mconf := mk_mconf v (mtab s) (current_entry s) (current_menu s) (last_entry_ptr s) (next_menu s) (trans s) (warnings s).
Definition set_mtab (v : gmap Z menu) (s : mconf) : mconf := mk_mconf (kc s) v (current_entry s) (current_menu s) (last_entry_ptr s) (next_menu s) (trans s) (warnings s).
Definition set_entry (v : Z) (s : mconf) : mconf := mk_mconf (kc s) (mtab s) v (current_menu s) (last_entry_ptr s) (next_menu s) (trans s) (warnings s).
Definition set_menu (v : option Z) (s : mconf) : mconf := mk_mconf (kc s) (mtab s) (current_entry s) v (last_entry_ptr s) (next_menu s) (trans s) (warnings s).
Definition set_last (v : slot) (s : mconf) : mconf := mk_mconf (kc s) (mtab s) (current_entry s) (current_menu s) v (next_menu s) (trans s) (warnings s).
Definition set_next_menu (v : Z) (s : mconf) : mconf := mk_mconf (kc s) (mtab s) (current_entry s) (current_menu s) (last_entry_ptr s) v (trans s) (warnings s).
Definition set_trans (v : Z) (s : mconf) : mconf := mk_mconf (kc s) (mtab s) (current_entry s) (current_menu s) (last_entry_ptr s) (next_menu s) v (warnings s).
Definition set_warnings (v : list warning) (s : mconf) : mconf := mk_mconf (kc s) (mtab s) (current_entry s) (current_menu s) (last_entry_ptr s) (next_menu s) (trans s) v.

Notation MM := (M mconf).
Definition rootmenu : Z := 0.

Definition on_conf {A} (m : K A) : MM A := zoom kc set_kc m.
Definition rd_menu (m : Z) : MM menu := t <- gets mtab ;; lift_opt (BadAddr m) (t !! m).
Definition wr_menu (m : Z) (f : menu -> menu) : MM unit :=
  e <- rd_menu m ;; modify (fun s => set_mtab (<[m := f e]> (mtab s)) s).
Definition with_next (v : option Z) (e : menu) : menu := mk_menu v (m_parent e) (m_list e) (m_sym e) (m_prompt e) (m_dep e).
Definition with_parent (v : option Z) (e : menu) : menu := mk_menu (m_next e) v (m_list e) (m_sym e) (m_prompt e) (m_dep e).
Definition with_list (v : option Z) (e : menu) : menu := mk_menu (m_next e) (m_parent e) v (m_sym e) (m_prompt e) (m_dep e).
Definition with_prompt (v : option pref) (e : menu) : menu := mk_menu (m_next e) (m_parent e) (m_list e) (m_sym e) v (m_dep e).
Definition with_dep (v : option expr) (e : menu) : menu := mk_menu (m_next e) (m_parent e) (m_list e) (m_sym e) (m_prompt e) v.
Definition wr_slot (l : slot) (v : option Z) : MM unit :=
  match l with NextOf m => wr_menu m (with_next v) | ListOf m => wr_menu m (with_list v) end.

(** [menu_warn] and [prop_warn], without the place *)
Definition menu_warn (w : warning) : MM unit := modify (fun s => set_warnings (warnings s ++ [w]) s).

(** ** Building the tree *)

Definition menu_init : MM unit :=
  modify (set_entry rootmenu) ;;; modify (set_menu (Some rootmenu)) ;;; modify (set_last (ListOf rootmenu)).

(** The place in the file is left out. *)
Definition menu_add_entry (sym : option symbol) : MM unit :=
  m <- gets next_menu ;;
  p <- gets current_menu ;;
  modify (fun s => set_next_menu (m + 1) (set_mtab (<[m := mk_menu None p None sym None None]> (mtab s)) s)) ;;;
  on_conf (modify (fun k => set_menus (<[m := 0]> (menus k)) k)) ;;;
  l <- gets last_entry_ptr ;;
  wr_slot l (Some m) ;;;
  modify (set_last (NextOf m)) ;;;
  modify (set_entry m).
Definition menu_end_entry : MM unit := ret tt.
Definition menu_add_menu : MM Z :=
  menu_end_entry ;;;
  m <- gets current_entry ;;
  modify (set_last (ListOf m)) ;;;
  modify (set_menu (Some m)) ;;;
  ret m.
Definition menu_end_menu : MM unit :=
  m <- gets current_menu ;;
  m <- lift_opt NullDeref m ;;
  e <- rd_menu m ;;
  modify (set_last (NextOf m)) ;;;
  modify (set_menu (m_parent e)).

(** ** Properties *)

(** [modules_sym] is there once the parser runs. *)
Fixpoint check_dep (modules : option symbol) (e : expr) : option expr :=
  match e with
  | Not a => Not <$> check_dep modules a
  | Or a b => a' ← check_dep modules a; b' ← check_dep modules b; Some (Or a' b')
  | And a b => a' ← check_dep modules a; b' ← check_dep modules b; Some (And a' b')
  | Sym symbol_mod => m ← modules; Some (expr_alloc_two E_AND e (expr_alloc_symbol m))
  | _ => Some e
  end.
Definition menu_check_dep (e : option expr) : MM (option expr) :=
  match e with
  | None => ret None
  | Some e =>
      m <- on_conf (gets modules_sym) ;;
      e' <- lift_opt NullDeref (check_dep m e) ;; ret (Some e')
  end.
Definition menu_add_dep (dep : option expr) : MM unit :=
  m <- gets current_entry ;;
  d <- menu_check_dep dep ;;
  wr_menu m (fun e => with_dep (expr_alloc_and (m_dep e) d) e).

(** The type of another definition stays. *)
Definition menu_set_type (t : symbol_type) : MM unit :=
  m <- gets current_entry ;;
  e <- rd_menu m ;;
  s <- lift_opt NullDeref (m_sym e) ;;
  x <- on_conf (rd_sym s) ;;
  if bool_decide (s_type x = t) then ret tt else
  if bool_decide (s_type x = S_UNKNOWN) then on_conf (wr_sym s (set_type t)) else
  menu_warn (WTypeRedefined (s_type x)).

Definition rd_prop (p : pref) : MM property :=
  match p with
  | PSym s i => x <- on_conf (rd_sym s) ;; lift_opt (BadIndex (Z.of_nat i)) (s_prop x !! i)
  | POwn p => ret p
  end.
Definition menu_add_prop (t : prop_type) (prompt : bool) (e dep : option expr) : MM unit :=
  m <- gets current_entry ;;
  me <- rd_menu m ;;
  d <- menu_check_dep dep ;;
  let p := mk_prop t prompt d tri_no e (Some m) in
  r <- (match m_sym me with
        | Some s =>
            on_conf (prop_alloc t s) ;;;
            x <- on_conf (rd_sym s) ;;
            let i := (length (s_prop x) - 1)%nat in
            on_conf (wr_sym s (fun x => with_prop (<[i := p]> (s_prop x)) x)) ;;;
            ret (PSym s i)
        | None => ret (POwn p)
        end) ;;
  if prompt then
    me <- rd_menu m ;;
    (if match m_prompt me with None => true | Some _ => false end then ret tt else menu_warn WPromptRedefined) ;;;
    wr_menu m (with_prompt (Some r))
  else ret tt.
Definition menu_add_prompt (t : prop_type) (dep : option expr) : MM unit := menu_add_prop t true None dep.
Definition menu_add_expr (t : prop_type) (e dep : option expr) : MM unit := menu_add_prop t false e dep.
Definition menu_add_symbol (t : prop_type) (s : symbol) (dep : option expr) : MM unit :=
  menu_add_prop t false (Some (expr_alloc_symbol s)) dep.

(** ** Checking the properties *)

(** [sym2->name] of a symbol without a name is not read: the name is a string. *)
Definition menu_range_valid_sym (x x2 : sym) : bool :=
  bool_decide (s_type x2 = S_INT) || bool_decide (s_type x2 = S_HEX) ||
  (bool_decide (s_type x2 = S_UNKNOWN) &&
   match s_name x2 with Some (VStr _ l) => sym_string_valid (s_type x) l | _ => false end).
Definition has_number (t : symbol_type) : bool := bool_decide (t = S_INT) || bool_decide (t = S_HEX).
Definition has_tristate (t : symbol_type) : bool := bool_decide (t = S_BOOLEAN) || bool_decide (t = S_TRISTATE).

Definition check_prop (x : sym) (p : property) : MM unit :=
  match p_type p with
  | P_DEFAULT =>
      if bool_decide (s_type x = S_STRING) || has_number (s_type x) then
        e <- lift_opt NullDeref (p_expr p) ;;
        match e with Sym _ => ret tt | _ => menu_warn WDefault end
      else ret tt
  | P_SELECT =>
      s2 <- on_conf (prop_get_symbol p) ;;
      if negb (has_tristate (s_type x)) then menu_warn WSelectUser else
      s2 <- lift_opt NullDeref s2 ;;
      x2 <- on_conf (rd_sym s2) ;;
      if bool_decide (s_type x2 = S_UNKNOWN) then menu_warn WSelectUndefined
      else if negb (has_tristate (s_type x2)) then menu_warn WSelectType else ret tt
  | P_RANGE =>
      (if has_number (s_type x) then ret tt else menu_warn WRangeType) ;;;
      ' (lo, hi) <- lift_opt (BadAddr 0) (match p_expr p with Some (Range lo hi) => Some (lo, hi) | _ => None end) ;;
      l <- on_conf (rd_sym lo) ;;
      h <- on_conf (rd_sym hi) ;;
      if negb (menu_range_valid_sym x l) || negb (menu_range_valid_sym x h) then menu_warn WRange else ret tt
  | _ => ret tt
  end.
Fixpoint for_props {A} (f : A -> MM unit) (l : list A) : MM unit :=
  match l with [] => ret tt | p :: l => f p ;;; for_props f l end.
Definition sym_check_prop (s : symbol) : MM unit := x <- on_conf (rd_sym s) ;; for_props (check_prop x) (s_prop x).

(** ** [menu_finalize]; [finalize] is the call of it inside *)

Definition SYMBOL_WARNED : Z := 0x8000.
Definition SYMBOL_OPTIONAL : Z := 0x0100.
Definition sym_is_optional (x : sym) : bool := flag x SYMBOL_OPTIONAL.

Definition flags_of (k : kconf) (p : Z) : Z := match tab k !! sym_at p with Some x => s_flags x | None => 0 end.
(** A routine of expr.c, with [trans_count] *)
Definition on_expr {A} (m : (Z -> symbol_type) -> (Z -> Z) -> M Z A) : MM A :=
  k <- gets kc ;; zoom trans set_trans (m (types_of k) (flags_of k)).
Definition opt {A B} (f : A -> MM B) (o : option A) : MM (option B) :=
  match o with None => ret None | Some a => b <- f a ;; ret (Some b) end.
Definition do_transform : option expr -> MM (option expr) := opt (fun e => on_expr (fun t _ => expr_transform t e)).
Definition do_dups (e : option expr) : MM (option expr) := on_expr (fun t f => expr_eliminate_dups t f e).
Definition do_copy : option expr -> MM (option expr) := opt expr_copy.

Definition set_visible (v : option expr) (p : property) : property :=
  mk_prop (p_type p) (p_text p) v (p_tri p) (p_expr p) (p_menu p).
(** [prompt->visible.expr], if there is a prompt *)
Definition prompt_visible (e : menu) : MM (option (option expr)) := opt (fun p => p <- rd_prop p ;; ret (p_visible p)) (m_prompt e).
Definition with_rev_expr (v : option expr) (x : sym) : sym :=
  mk_sym (s_name x) (s_type x) (curr_val x) (curr_tri x) (user_val x) (user_tri x) (s_visible x) (s_flags x) (s_prop x) v (rev_tri x).

(** The list that starts at [m], until [f] says so; [next] is read behind [f]. *)
Fixpoint walk (n : nat) (f : Z -> MM bool) (m : option Z) : MM unit :=
  match m with
  | None => ret tt
  | Some a =>
      match n with
      | O => fail OutOfFuel
      | S n => stop <- f a ;; if stop : bool then ret tt else e <- rd_menu a ;; walk n f (m_next e)
      end
  end.
Definition each_menu (n : nat) (f : Z -> MM unit) : option Z -> MM unit := walk n (fun a => f a ;;; ret false).

(** The condition of a property of an entry: the condition of the entry, and its own *)
Definition own_condition (basedep : option expr) (owner : option symbol) (p : property) : MM (option expr) :=
  dep <- do_transform (p_visible p) ;;
  base <- do_copy basedep ;;
  dep <- do_dups (expr_alloc_and base dep) ;;
  match owner with
  | Some s => x <- on_conf (rd_sym s) ;; k <- gets kc ;;
              ret (if bool_decide (s_type x <> S_TRISTATE) then expr_trans_bool (types_of k) dep else dep)
  | None => ret dep
  end.
(** The properties of symbol [s] that are of entry [m] *)
Fixpoint inherit_props (m : Z) (basedep : option expr) (s : symbol) (i : nat) (l : list property) : MM unit :=
  match l with
  | [] => ret tt
  | p :: l =>
      (if bool_decide (p_menu p <> Some m) then ret tt else
         dep <- own_condition basedep (Some s) p ;;
         on_conf (wr_sym s (fun x => with_prop (alter (set_visible dep) i (s_prop x)) x)) ;;;
         if bool_decide (p_type p = P_SELECT) then
           es <- on_conf (prop_get_symbol p) ;;
           es <- lift_opt NullDeref es ;;
           c <- do_copy dep ;;
           on_conf (wr_sym es (fun x => with_rev_expr (expr_alloc_or (rev_expr x) (expr_alloc_and (Some (expr_alloc_symbol s)) c)) x))
         else ret tt) ;;;
      inherit_props m basedep s (S i) l
  end.
(** An entry of a menu with the condition [parentdep] *)
Definition inherit (parentdep : option expr) (m : Z) : MM unit :=
  e <- rd_menu m ;;
  basedep <- do_transform (m_dep e) ;;
  pd <- do_copy parentdep ;;
  basedep <- do_dups (expr_alloc_and pd basedep) ;;
  wr_menu m (with_dep basedep) ;;;
  match m_sym e, m_prompt e with
  | Some s, _ => x <- on_conf (rd_sym s) ;; inherit_props m basedep s 0 (s_prop x)
  | None, Some (POwn p) =>
      if bool_decide (p_menu p <> Some m) then ret tt else
      dep <- own_condition basedep None p ;;
      wr_menu m (with_prompt (Some (POwn (set_visible dep p))))
  | None, Some (PSym _ _) => fail (BadAddr m)
  | None, None => ret tt
  end.

(** The type of a choice and of its first symbol *)
Definition choice_type (n : nat) (parent : Z) (s : symbol) : option Z -> MM unit :=
  walk n (fun m =>
    e <- rd_menu m ;;
    match m_sym e with
    | None => ret false
    | Some s' =>
        modify (set_entry parent) ;;;
        x' <- on_conf (rd_sym s') ;; menu_set_type (s_type x') ;;;
        modify (set_entry m) ;;;
        x <- on_conf (rd_sym s) ;; menu_set_type (s_type x) ;;;
        ret true
    end).

(** Whether the condition [dep] of an entry allows it only where the entry with
    the symbol [s] and the condition [basedep] is visible *)
Definition follows (basedep : option expr) (s : symbol) (dep : option expr) : MM bool :=
  match dep with
  | None => ret false
  | Some d =>
      if negb (expr_contains_symbol d s) then ret false
      else if expr_depends_symbol d s then ret true else
      dep <- on_expr (fun _ _ => expr_trans_compare dep E_UNEQUAL symbol_no) ;;
      dep <- do_transform dep ;; dep <- do_dups dep ;;
      dep2 <- do_copy basedep ;;
      ' (_, dep2) <- on_expr (fun _ f => expr_eliminate_eq f dep dep2) ;;
      ret (expr_is_yes dep2)
  end.
(** The entries behind that become entries of [parent]; the result is the last. *)
Fixpoint absorb (n : nat) (finalize : Z -> MM unit) (basedep : option expr) (s : symbol) (parent : Z) (m last : option Z) : MM (option Z) :=
  match m with
  | None => ret last
  | Some a =>
      match n with
      | O => fail OutOfFuel
      | S n =>
          e <- rd_menu a ;;
          v <- prompt_visible e ;;
          b <- follows basedep s (match v with Some d => d | None => m_dep e end) ;;
          if negb b then ret last else
          finalize a ;;;
          wr_menu a (with_parent (Some parent)) ;;;
          e <- rd_menu a ;;
          absorb n finalize basedep s parent (m_next e) (Some a)
      end
  end.

(** A symbol at the end of the list of a choice *)
Fixpoint chain_add (e : expr) (s : symbol) : option expr :=
  match e with
  | Choice None t => Some (Choice (Some (Choice None s)) t)
  | Choice (Some e) t => r ← chain_add e s; Some (Choice (Some r) t)
  | _ => None
  end.
(** The entry [m] of the choice [s] with the symbol [s'] *)
Definition choice_value (s : symbol) (m : Z) (s' : symbol) : MM unit :=
  on_conf (add_flag s' SYMBOL_CHOICEVAL) ;;;
  e <- rd_menu m ;;
  (if match m_prompt e with None => true | Some _ => false end then menu_warn WValuePrompt else ret tt) ;;;
  x' <- on_conf (rd_sym s') ;;
  for_props (fun p =>
    (if bool_decide (p_type p = P_PROMPT) && bool_decide (p_menu p <> Some m) then menu_warn WSinglePrompt else ret tt) ;;;
    if bool_decide (p_type p = P_DEFAULT) then menu_warn WValueDefault else ret tt) (s_prop x') ;;;
  modify (set_entry m) ;;;
  x <- on_conf (rd_sym s) ;;
  menu_set_type (s_type x) ;;;
  menu_add_symbol P_CHOICE s None ;;;
  x <- on_conf (rd_sym s) ;;
  ' (i, p) <- lift_opt NullDeref (list_find (fun p => p_type p = P_CHOICE) (s_prop x)) ;;
  e <- lift_opt (BadAddr 0) (match p_expr p with None => Some (Choice None s') | Some e => chain_add e s' end) ;;
  on_conf (wr_sym s (fun x => with_prop (<[i := mk_prop (p_type p) (p_text p) (p_visible p) (p_tri p) (Some e) (p_menu p)]> (s_prop x)) x)).
(** The entries of [m], which has no prompt, become entries of its parent. *)
Definition flatten (n : nat) (parent m : Z) : MM unit :=
  e <- rd_menu m ;;
  match m_list e with
  | None => ret tt
  | Some first =>
      t <- (match m_prompt e with None => ret false | Some p => p <- rd_prop p ;; ret (p_text p) end) ;;
      if t : bool then ret tt else
      walk n (fun a =>
        wr_menu a (with_parent (Some parent)) ;;;
        l <- rd_menu a ;;
        match m_next l with
        | Some _ => ret false
        | None =>
            wr_menu a (with_next (m_next e)) ;;;
            wr_menu m (with_next (m_list e)) ;;; wr_menu m (with_list None) ;;;
            ret true
        end) (Some first)
  end.

(** What is said about the symbol once, and the reverse dependency *)
Definition finalize_symbol (parent : Z) (s : symbol) : MM unit :=
  x <- on_conf (rd_sym s) ;;
  e <- rd_menu parent ;;
  let no_prompt := match m_prompt e with None => true | Some _ => false end in
  (if flag x SYMBOL_WARNED then ret tt else
     (if bool_decide (s_type x = S_UNKNOWN) then menu_warn WNoType else ret tt) ;;;
     (if sym_is_choice x && no_prompt then menu_warn WChoicePrompt else ret tt) ;;;
     sym_check_prop s ;;;
     on_conf (add_flag s SYMBOL_WARNED)) ;;;
  if sym_is_optional x then ret tt else
  v <- prompt_visible e ;;
  match v with
  | None => ret tt
  | Some v => on_conf (wr_sym s (fun x => with_rev_expr
      (expr_alloc_or (rev_expr x) (expr_alloc_and v (Some (expr_alloc_symbol symbol_mod)))) x))
  end.

(** The number of entries, for the walks and the depth *)
Definition menu_fuel (s : mconf) : nat := S (base.size (mtab s)).
(** The entries of a menu that has some *)
Definition finalize_list (n : nat) (finalize : Z -> MM unit) (parent : Z) (e : menu) : MM unit :=
  choice <- (match m_sym e with
             | Some s => x <- on_conf (rd_sym s) ;; ret (if sym_is_choice x then Some s else None)
             | None => ret None
             end) ;;
  parentdep <- (match choice with
                | Some s => choice_type n parent s (m_list e) ;;; ret (Some (expr_alloc_symbol s))
                | None => v <- prompt_visible e ;; ret (match v with Some d => d | None => m_dep e end)
                end) ;;
  each_menu n (inherit parentdep) (m_list e) ;;;
  each_menu n finalize (m_list e).
(** The entries behind one with a symbol *)
Definition finalize_following (n : nat) (finalize : Z -> MM unit) (parent : Z) (e : menu) (s : symbol) : MM unit :=
  v <- prompt_visible e ;;
  basedep <- on_expr (fun _ _ => expr_trans_compare (default None v) E_UNEQUAL symbol_no) ;;
  basedep <- do_transform basedep ;; basedep <- do_dups basedep ;;
  last <- absorb n finalize basedep s parent (m_next e) None ;;
  match last with
  | None => ret tt
  | Some last =>
      e <- rd_menu parent ;;
      wr_menu parent (with_list (m_next e)) ;;;
      l <- rd_menu last ;;
      wr_menu parent (with_next (m_next l)) ;;;
      wr_menu last (with_next None)
  end.
Fixpoint finalize (n : nat) (parent : Z) : MM unit :=
  match n with
  | O => fail OutOfFuel
  | S n' =>
      w <- gets menu_fuel ;;
      e <- rd_menu parent ;;
      (match m_list e, m_sym e with
       | Some _, _ => finalize_list w (finalize n') parent e
       | None, Some s => finalize_following w (finalize n') parent e s
       | None, None => ret tt
       end) ;;;
      e <- rd_menu parent ;;
      choice <- (match m_sym e with
                 | Some s => x <- on_conf (rd_sym s) ;; ret (if sym_is_choice x then Some s else None)
                 | None => ret None
                 end) ;;
      each_menu w (fun m =>
        c <- rd_menu m ;;
        (match choice, m_sym c with Some s, Some s' => choice_value s m s' | _, _ => ret tt end) ;;;
        flatten w parent m) (m_list e) ;;;
      match m_sym e with Some s => finalize_symbol parent s | None => ret tt end
  end.
Definition menu_finalize (parent : Z) : MM unit := n <- gets menu_fuel ;; finalize n parent.

(** ** Looking at the tree *)

Fixpoint visible_entry (n : nat) (m : Z) : MM bool :=
  match n with
  | O => fail OutOfFuel
  | S n' =>
      e <- rd_menu m ;;
      match m_prompt e with
      | None => ret false
      | Some p =>
          v <- (match m_sym e with
                | Some s => on_conf (sym_calc_value (Some s)) ;;; p <- rd_prop p ;; ret (p_tri p)
                | None => p <- rd_prop p ;; v <- on_conf (expr_calc_value (p_visible p)) ;;
                          wr_menu m (with_prompt (Some (POwn (mk_prop (p_type p) (p_text p) (p_visible p) v (p_expr p) (p_menu p))))) ;;;
                          ret v
                end) ;;
          if negb (v =? tri_no) then ret true else
          match m_sym e with
          | None => ret false
          | Some s =>
              x <- on_conf (rd_sym s) ;;
              if curr_tri x =? tri_no then ret false else
              (fix children (k : nat) (c : option Z) : MM bool :=
                 match c, k with
                 | None, _ => ret false
                 | Some _, O => fail OutOfFuel
                 | Some a, S k => b <- visible_entry n' a ;; if b : bool then ret true else e <- rd_menu a ;; children k (m_next e)
                 end) n' (m_list e)
          end
      end
  end.
Definition menu_is_visible (m : Z) : MM bool := n <- gets menu_fuel ;; visible_entry n m.
Definition menu_get_root_menu (m : Z) : Z := rootmenu.
Definition menu_get_parent_menu (m : Z) : MM Z :=
  n <- gets menu_fuel ;;
  loop n (fun m =>
    if m =? rootmenu then ret (inr m) else
    e <- rd_menu m ;;
    t <- opt (fun p => p <- rd_prop p ;; ret (p_type p)) (m_prompt e) ;;
    if bool_decide (t = Some P_MENU) then ret (inr m) else
    p <- lift_opt NullDeref (m_parent e) ;; ret (inl p)) m.

(** ** The tree that is built

    The parser makes an entry, and a menu of an entry, in the order of the file. *)
Inductive item : Type := Config (s : option symbol) | Block (s : option symbol) (l : list item).
Fixpoint build (i : item) : MM unit :=
  match i with
  | Config s => menu_add_entry s ;;; menu_end_entry
  | Block s l =>
      menu_add_entry s ;;; menu_add_menu ;;;
      (fix builds (l : list item) : MM unit := match l with [] => ret tt | i :: l => build i ;;; builds l end) l ;;;
      menu_end_menu
  end.
Definition builds : list item -> MM unit :=
  fix builds (l : list item) : MM unit := match l with [] => ret tt | i :: l => build i ;;; builds l end.

(** The entry [m] of [parent] is the item, and all entries below it are made behind
    it and before [b]. *)
Fixpoint entry_at (T : gmap Z menu) (b m parent : Z) (i : item) : Prop :=
  exists e, T !! m = Some e /\ m < b /\ m_parent e = Some parent /\
  match i with
  | Config s => m_sym e = s /\ m_list e = None
  | Block s l => m_sym e = s /\
      (fix entries (o : option Z) (l : list item) : Prop :=
         match l with
         | [] => o = None
         | i :: l => exists c f, o = Some c /\ m < c /\ T !! c = Some f /\ entry_at T b c m i /\ entries (m_next f) l
         end) (m_list e) l
  end.
(** The list from [o] on: entries of [parent], all made from [a] to [b] *)
Definition entries_at (T : gmap Z menu) (a b parent : Z) : option Z -> list item -> Prop :=
  fix entries (o : option Z) (l : list item) : Prop :=
    match l with
    | [] => o = None
    | i :: l => exists c f, o = Some c /\ a < c /\ T !! c = Some f /\ entry_at T b c parent i /\ entries (m_next f) l
    end.

Lemma entry_at_block T b m parent s l : entry_at T b m parent (Block s l) <->
  exists e, T !! m = Some e /\ m < b /\ m_parent e = Some parent /\ m_sym e = s /\ entries_at T m b m (m_list e) l.
Proof. reflexivity. Qed.

Section ItemInd.
Context (P : item -> Prop) (Hc : forall s, P (Config s)) (Hb : forall s l, Forall P l -> P (Block s l)).
Fixpoint item_rect' (i : item) : P i :=
  match i with
  | Config s => Hc s
  | Block s l => Hb s l ((fix go l : Forall P l := match l with [] => Forall_nil_2 P | i :: l => Forall_cons_2 P i l (item_rect' i) (go l) end) l)
  end.
End ItemInd.

(** Entries made before [a] and from [b] on do not matter. *)
Definition agree (T T' : gmap Z menu) (a b : Z) : Prop := forall x, a <= x < b -> T' !! x = T !! x.
Definition same_links (e e' : menu) : Prop := m_parent e' = m_parent e /\ m_sym e' = m_sym e /\ m_list e' = m_list e.
Lemma entries_frame T T' a b b' parent o l :
  Forall (fun i => forall m p e e', entry_at T b m p i -> T !! m = Some e -> T' !! m = Some e' -> same_links e e' ->
    agree T T' (m + 1) b -> entry_at T' b' m p i) l ->
  agree T T' (a + 1) b -> entries_at T a b parent o l -> b <= b' -> entries_at T' a b' parent o l.
Proof.
  intros Hl Ha He Hb. revert o He. induction Hl as [|i l Hi _ IH]; cbn; [done|]. intros o (c & f & Ho & Hc & Hf & Hi' & Hr).
  assert (c < b) by (destruct i; destruct Hi' as (? & ? & ? & _); done).
  assert (T' !! c = Some f) as Hf' by (rewrite Ha by lia; done).
  exists c, f. split_and!; try done; [|by apply IH].
  apply (Hi c parent f f); try done. intros x Hx. apply Ha. lia.
Qed.
Lemma entry_frame T T' b b' i : b <= b' -> forall m p e e', entry_at T b m p i -> T !! m = Some e -> T' !! m = Some e' -> same_links e e' ->
  agree T T' (m + 1) b -> entry_at T' b' m p i.
Proof.
  intros Hb. induction i as [s|s l IH] using item_rect'; intros m p e e' Hi He He' (L1 & L2 & L3) Ha.
  - destruct Hi as (e0 & H0 & H1 & H2 & H3 & H4). assert (e0 = e) as -> by congruence. exists e'. split_and!; try done; [lia|congruence..].
  - apply entry_at_block in Hi as (e0 & H0 & H1 & H2 & H3 & H4). assert (e0 = e) as -> by congruence. apply entry_at_block.
    exists e'. split_and!; try done; [lia|congruence..|]. rewrite L3. by eapply entries_frame.
Qed.

Definition slot_id (l : slot) : Z := match l with NextOf m | ListOf m => m end.
Definition slot_value (l : slot) (e : menu) : option Z := match l with NextOf _ => m_next e | ListOf _ => m_list e end.
Definition slot_set (l : slot) (v : option Z) : menu -> menu := match l with NextOf _ => with_next v | ListOf _ => with_list v end.
Definition upd (l : slot) (v : option Z) (T : gmap Z menu) : gmap Z menu := alter (slot_set l v) (slot_id l) T.

(** The parser is in the menu [p], and the next entry has its place. *)
Record ready (s : mconf) (p : Z) : Prop := {
  rd_in : current_menu s = Some p;
  rd_slot : exists e, mtab s !! slot_id (last_entry_ptr s) = Some e /\ slot_value (last_entry_ptr s) e = None;
  rd_fresh : forall x, is_Some (mtab s !! x) -> x < next_menu s
}.
(** What was there is as before, but for the place of the first entry. *)
Record built (s s' : mconf) (v : option Z) : Prop := {
  bu_next : next_menu s <= next_menu s';
  bu_frame : forall x, x < next_menu s -> mtab s' !! x = upd (last_entry_ptr s) v (mtab s) !! x
}.

Lemma upd_elsewhere l v T x : x <> slot_id l -> upd l v T !! x = T !! x.
Proof. intros H. by apply lookup_alter_ne. Qed.
Lemma upd_none l e T : T !! slot_id l = Some e -> slot_value l e = None -> upd l None T = T.
Proof.
  intros He Hv. apply map_eq. intros x. destruct (decide (x = slot_id l)) as [->|Hne]; [|by apply upd_elsewhere].
  unfold upd. rewrite lookup_alter_eq, He. cbn. f_equal. destruct l, e; cbn in *; by subst.
Qed.

Lemma insert_alter (f : menu -> menu) a e (T : gmap Z menu) : T !! a = Some e -> <[a := f e]> T = alter f a T.
Proof.
  intros He. apply map_eq. intros x. destruct (decide (x = a)) as [->|]; [by rewrite lookup_insert_eq, lookup_alter_eq, He|].
  by rewrite lookup_insert_ne, lookup_alter_ne.
Qed.
Lemma menu_add_entry_spec sym s p : ready s p -> exists s',
  menu_add_entry sym s = Ok (tt, s') /\ ready s' p /\ current_entry s' = next_menu s /\ last_entry_ptr s' = NextOf (next_menu s) /\
  next_menu s' = next_menu s + 1 /\ built s s' (Some (next_menu s)) /\
  mtab s' !! next_menu s = Some (mk_menu None (Some p) None sym None None).
Proof.
  intros [Hp (e & He & Hv) Hf]. set (m := next_menu s) in *. set (n := mk_menu None (Some p) None sym None None).
  assert (slot_id (last_entry_ptr s) < m) as Hlt by (apply Hf; eauto).
  assert (menu_add_entry sym s = Ok (tt, set_entry m (set_last (NextOf m) (set_mtab (upd (last_entry_ptr s) (Some m) (<[m := n]> (mtab s)))
    (set_kc (set_menus (<[m := 0]> (menus (kc s))) (kc s)) (set_next_menu (m + 1) s)))))) as E.
  { unfold menu_add_entry, bind, gets, modify, on_conf, zoom. rewrite Hp. cbn.
    assert (<[m := n]> (mtab s) !! slot_id (last_entry_ptr s) = Some e) as He' by (rewrite lookup_insert_ne by lia; done).
    unfold wr_slot, wr_menu, rd_menu, bind, gets, lift_opt, modify. fold m. fold n.
    destruct (last_entry_ptr s) as [a|a]; cbn in He' |- *; rewrite He'; cbn;
      by rewrite (insert_alter _ _ _ _ He'). }
  eexists. split; [exact E|]. cbn. assert (upd (last_entry_ptr s) (Some m) (<[m := n]> (mtab s)) !! m = Some n) as Hm.
  { rewrite upd_elsewhere by lia. by rewrite lookup_insert_eq. }
  split_and!; try done.
  - split; cbn; [done|exists n; by rewrite Hm|]. intros x [y Hy]. destruct (decide (x = m)); [lia|].
    destruct (decide (x = slot_id (last_entry_ptr s))); [lia|]. rewrite upd_elsewhere, lookup_insert_ne in Hy by done.
    assert (x < m) by (apply Hf; eauto). lia.
  - split; cbn; [lia|]. intros x Hx. unfold upd. destruct (decide (x = slot_id (last_entry_ptr s))) as [->|].
    + rewrite !lookup_alter_eq. by rewrite lookup_insert_ne by lia.
    + rewrite !lookup_alter_ne by done. by rewrite lookup_insert_ne by lia.
Qed.
Lemma ready_none s p : ready s p -> built s s None.
Proof. intros [_ (e & He & Hv) _]. split; [lia|]. intros x _. by rewrite (upd_none _ e). Qed.

Definition build_ok (i : item) : Prop := forall s p, ready s p -> exists s', build i s = Ok (tt, s') /\ ready s' p /\
  last_entry_ptr s' = NextOf (next_menu s) /\ next_menu s < next_menu s' /\ built s s' (Some (next_menu s)) /\
  entry_at (mtab s') (next_menu s') (next_menu s) p i.

Lemma builds_ok l : Forall build_ok l -> forall s p a, ready s p -> a < next_menu s -> exists s' o,
  builds l s = Ok (tt, s') /\ ready s' p /\ built s s' o /\ entries_at (mtab s') a (next_menu s') p o l.
Proof.
  induction 1 as [|i l Hi _ IH]; intros s p a Hs Ha.
  { exists s, None. split_and!; [done..|by eapply ready_none|done]. }
  destruct (Hi s p Hs) as (s1 & E1 & R1 & L1 & N1 & [B1 F1] & I1).
  destruct (IH s1 p a R1 ltac:(lia)) as (s2 & o & E2 & R2 & [B2 F2] & I2).
  exists s2, (Some (next_menu s)). cbn. unfold bind at 1. rewrite E1. split_and!; [exact E2|exact R2| |].
  { split; [lia|]. intros x Hx. rewrite F2, L1, upd_elsewhere by (cbn; lia). by apply F1. }
  assert (exists f1, mtab s1 !! next_menu s = Some f1) as [f1 Hf1] by (destruct i; destruct I1 as (f1 & ? & _); by exists f1).
  assert (mtab s2 !! next_menu s = Some (with_next o f1)) as Hf2.
  { rewrite F2, L1 by lia. unfold upd. cbn. by rewrite lookup_alter_eq, Hf1. }
  exists (next_menu s), (with_next o f1). split_and!; [done|lia|exact Hf2| |exact I2].
  eapply (entry_frame (mtab s1)); [exact B2|exact I1|exact Hf1|exact Hf2|by split_and!|].
  intros x Hx. rewrite F2, L1, upd_elsewhere by (cbn; lia). done.
Qed.

Lemma build_all i : build_ok i.
Proof.
  induction i as [t|t l IH] using item_rect'; intros s p Hs; destruct (menu_add_entry_spec t s p Hs) as (s1 & E1 & R1 & C1 & L1 & N1 & B1 & M1).
  { exists s1. cbn. unfold bind. rewrite E1. split_and!; [done..|lia|done|]. eexists. split; [exact M1|]. split_and!; [lia|done..]. }
  set (m := next_menu s) in *. set (s2 := set_menu (Some m) (set_last (ListOf m) s1)).
  assert (ready s2 m) as R2.
  { split; cbn; [done|by rewrite M1; eexists|]. by apply R1. }
  destruct (builds_ok l IH s2 m m R2) as (s3 & o & E3 & R3 & [B3 F3] & I3); [cbn; lia|].
  assert (mtab s3 !! m = Some (mk_menu None (Some p) o t None None)) as M3.
  { rewrite F3 by (cbn; lia). unfold upd. cbn. by rewrite lookup_alter_eq, M1. }
  exists (set_menu (Some p) (set_last (NextOf m) s3)). split.
  { change (build (Block t l)) with (menu_add_entry t ;;; menu_add_menu ;;; builds l ;;; menu_end_menu).
    unfold bind. rewrite E1. unfold menu_add_menu, menu_end_entry, bind, gets, modify, ret. rewrite C1. fold s2. rewrite E3.
    unfold menu_end_menu, rd_menu, bind, gets, lift_opt, modify. rewrite (rd_in _ _ R3). cbn. by rewrite M3. }
  cbn in B3. split_and!; cbn; [|done|lia| |].
  - split; cbn; [done|by rewrite M3; eexists|]. by apply R3.
  - destruct B1 as [B1 F1]. split; cbn; [lia|]. intros x Hx. rewrite F3, upd_elsewhere by (cbn; lia). by apply F1.
  - apply entry_at_block. eexists. split; [exact M3|]. split_and!; [lia|done..].
Qed.

(** [C35] Whatever entries and menus the parser makes: from [menu_init] on, the lists of the
    entries are the nested blocks, in their order, with the parents they are in. *)
Theorem menu_tree_built (l : list item) (s : mconf) :
  mtab s = {[rootmenu := mk_menu None None None None None None]} -> rootmenu < next_menu s ->
  exists s' root, (menu_init ;;; builds l) s = Ok (tt, s') /\ mtab s' !! rootmenu = Some root /\ m_parent root = None /\
    entries_at (mtab s') rootmenu (next_menu s') rootmenu (m_list root) l /\ current_menu s' = Some rootmenu.
Proof.
  intros Hm Hn. unfold bind, menu_init, modify.
  set (s0 := set_last (ListOf rootmenu) (set_menu (Some rootmenu) (set_entry rootmenu s))).
  assert (ready s0 rootmenu) as R0.
  { split; cbn; [done| |].
    - rewrite Hm. eexists. by rewrite lookup_singleton_eq.
    - intros x [e He]. rewrite Hm in He. apply lookup_singleton_Some in He as [<- _]. done. }
  destruct (builds_ok l ltac:(apply Forall_true, build_all) s0 rootmenu rootmenu R0 Hn) as (s' & o & E & R & [B F] & I).
  exists s', (mk_menu None None o None None None). split; [exact E|]. split_and!; [|done|exact I|apply R].
  rewrite F by exact Hn. unfold upd. cbn. by rewrite lookup_alter_eq, Hm, lookup_singleton_eq.
Qed.

(** A configuration with a menu, a dependency in it, and a choice *)
Definition tree_conf : kconf := mk_kconf (list_to_map (
  [(sym_at 1, demo_sym 1 "MODULES" S_BOOLEAN SYMBOL_OPTIONAL []); (sym_at 2, demo_sym 2 "A" S_UNKNOWN SYMBOL_OPTIONAL []);
   (sym_at 3, demo_sym 3 "B" S_UNKNOWN SYMBOL_OPTIONAL []); (sym_at 4, mk_sym None S_UNKNOWN VNull 0 VNull 0 0 (Z.lor SYMBOL_NEW SYMBOL_CHOICE) [] None 0);
   (sym_at 5, demo_sym 5 "D" S_BOOLEAN SYMBOL_OPTIONAL []); (sym_at 6, demo_sym 6 "E" S_BOOLEAN SYMBOL_OPTIONAL [])] ++ map_to_list static_syms))
  {[rootmenu := 0]} [sym_at <$> [1; 2; 3; 4; 5; 6]] (Some (sym_at 1)) tri_yes 0 100.
Definition tree_start : mconf := mk_mconf tree_conf {[rootmenu := mk_menu None None None None None None]} 0 None (ListOf 0) 1 0 [].
Definition entry (s : Z) (t : symbol_type) (dep : option expr) : MM unit :=
  menu_add_entry (Some (sym_at s)) ;;; menu_set_type t ;;; menu_add_prompt P_PROMPT None ;;; menu_add_dep dep.
Definition tree_parse : MM unit :=
  menu_init ;;;
  entry 1 S_BOOLEAN None ;;;
  menu_add_entry None ;;; menu_add_prompt P_MENU None ;;; menu_add_dep (Some (Sym (sym_at 1))) ;;; menu_add_menu ;;;
    entry 2 S_TRISTATE None ;;; entry 3 S_BOOLEAN (Some (Sym (sym_at 2))) ;;; menu_add_expr P_DEFAULT (Some (Sym symbol_mod)) None ;;;
  menu_end_menu ;;;
  entry 4 S_UNKNOWN None ;;; menu_add_prop P_CHOICE false None None ;;; menu_add_menu ;;; entry 5 S_BOOLEAN None ;;; entry 6 S_BOOLEAN None ;;; menu_end_menu.
Definition tree_done : outcome (unit * mconf) := (tree_parse ;;; menu_finalize rootmenu) tree_start.
(** What [menu_finalize] makes of it: [B] is below [A], the menu below [MODULES], and
    the choice has its symbols; the links, and the conditions *)
Definition tree_links : option (list (option (option Z * option Z * option expr))) :=
  match tree_done with
  | Ok (_, s) => Some ((fun m => (fun e => (m_next e, m_list e, m_dep e)) <$> (mtab s !! m)) <$> [1; 2; 3; 4; 5; 6; 7])
  | Err _ => None
  end.
Example tree_finalized : tree_links = Some
  [Some (Some 5, Some 2, None); Some (None, Some 3, Some (Sym (sym_at 1))); Some (None, Some 4, Some (Sym (sym_at 1)));
   Some (None, None, Some (And (Sym (sym_at 1)) (Sym (sym_at 2)))); Some (None, Some 6, None);
   Some (Some 7, None, Some (Sym (sym_at 4))); Some (None, None, Some (Sym (sym_at 4)))].
Proof. vm_compute. reflexivity. Qed.

(** The tree of the configuration *)
Lemma menu_tree_built_witness : exists s' root, (menu_init ;;; builds [Config (Some (sym_at 1)); Block None [Config (Some (sym_at 2)); Config (Some (sym_at 3))]]) tree_start = Ok (tt, s') /\
  mtab s' !! rootmenu = Some root /\
  entries_at (mtab s') rootmenu (next_menu s') rootmenu (m_list root) [Config (Some (sym_at 1)); Block None [Config (Some (sym_at 2)); Config (Some (sym_at 3))]].
Proof.
  destruct (menu_tree_built [Config (Some (sym_at 1)); Block None [Config (Some (sym_at 2)); Config (Some (sym_at 3))]] tree_start) as (s' & root & E & Hr & _ & Ht & _).
  - reflexivity.
  - reflexivity.
  - exists s', root. split; [exact E|]. split; [exact Hr|exact Ht].
Defined.

(** ** [m] in a condition *)

(** The values, with [m] no more than the symbol [MODULES] *)
Definition modules_limit (modules : symbol) (v : valuation) : valuation :=
  mk_val (fun s => match s with symbol_mod => tri_and (tri v symbol_mod) (tri v modules) | _ => tri v s end) (val v).
(** A condition after [menu_check_dep] has the value that it would have if [m] were
    [n] or [m] as [MODULES] allows; the comparisons are left as they are. *)
Theorem menu_check_dep_value (types : Z -> symbol_type) (neg : Z -> Z) (modules : symbol) (v : valuation) (e : expr) :
  exists e', check_dep (Some modules) e = Some e' /\ value types neg v e' = value types neg (modules_limit modules v) e.
Proof.
  assert (Hc : forall l r, compare types (modules_limit modules v) l r = compare types v l r).
  { intros l r. unfold compare, Kexpr.sym_get_string_value. by destruct l, r. }
  induction e as [x|a (a' & Ea & Va)|l r|l r|a (a' & Ea & Va) b (b' & Eb & Vb)|a (a' & Ea & Va) b (b' & Eb & Vb)|o x|l r]; cbn.
  - destruct x; by eexists.
  - rewrite Ea. eexists. split; [done|]. cbn. by rewrite Va.
  - eexists. split; [done|]. cbn. by rewrite Hc.
  - eexists. split; [done|]. cbn. by rewrite Hc.
  - rewrite Ea, Eb. eexists. split; [done|]. cbn. by rewrite Va, Vb.
  - rewrite Ea, Eb. eexists. split; [done|]. cbn. by rewrite Va, Vb.
  - by eexists.
  - by eexists.
Qed.
