(* ===== verification/Kutil.v ===== *)
(** * scripts/kconfig/util.c: growing strings and the list of the files *)

From stdpp Require Import strings.
From S2P Require Import Prelude Str Bytes Symtab Printk Kexpr Ksym.

(** ** Growing strings *)

(** [struct gstr]: [s] with the room that was allocated for it, and [len] *)
Record gstr : Type := mk_gstr { g_s : option (Z * list Z); g_len : Z }.

Definition str_new : gstr := mk_gstr (Some (64, [])) 16.
Definition str_assign (l : list Z) : gstr := mk_gstr (Some (Z.of_nat (length l) + 1, l)) (Z.of_nat (length l) + 1).
Definition str_free : M gstr unit := modify (fun _ => mk_gstr None 0).
(** [strcat] behind the room is a fault. *)
Definition str_append (l : list Z) : M gstr unit :=
  g <- gets id ;;
  ' (room, s) <- lift_opt NullDeref (g_s g) ;;
  let n := Z.of_nat (length s) + Z.of_nat (length l) + 1 in
  let room := if g_len g <? n then n else room in
  let len := if g_len g <? n then n else g_len g in
  if room <? n then fail (BadIndex n) else
  modify (fun _ => mk_gstr (Some (room, s ++ l)) len).
Definition str_get : M gstr (option (list Z)) := gets (fun g => snd <$> g_s g).

(** [expr_gstr_print]: the pieces of an expression, one after the other *)
Fixpoint append_all (l : list (list Z)) : M gstr unit :=
  match l with [] => ret tt | s :: l => str_append s ;;; append_all l end.
Definition expr_gstr_print (name : symbol -> option (list Z)) (e : option expr) : M gstr unit := append_all (expr_print name e E_NONE).

(** ** Files *)

(** [file_list], the last one first *)
Definition file_lookup (name : list Z) : M (list (list Z)) unit :=
  fs <- gets id ;;
  if existsb (fun f => strcmp_l name f =? 0) fs then ret tt else modify (cons name).
(** What [file_write_dep] writes *)
Fixpoint dep_lines (fs : list (list Z)) : list Z :=
  match fs with
  | [] => []
  | [f] => [9] ++ f ++ [10]
  | f :: fs => [9] ++ f ++ [32; 92; 10] ++ dep_lines fs
  end.
Definition file_write_dep (fs : list (list Z)) : list Z :=
  chars "deps_config := " ++ [92; 10] ++ dep_lines fs ++
  [10] ++ chars ".config include/autoconf.h: $(deps_config)" ++ [10; 10] ++ chars "$(deps_config):" ++ [10].

(** ** What is kept *)

(** [len] is at most what was allocated, and the string with its end fits. *)
Definition gstr_ok (g : gstr) : Prop :=
  match g_s g with Some (room, s) => Z.of_nat (length s) + 1 <= g_len g <= room | None => True end.
Definition holds (l : list Z) (g : gstr) : Prop := gstr_ok g /\ exists room, g_s g = Some (room, l).

Lemma str_append_holds s l g : holds s g -> exists g', str_append l g = Ok (tt, g') /\ holds (s ++ l) g'.
Proof.
  intros [Hok (room & E)]. unfold gstr_ok in Hok. rewrite E in Hok. unfold str_append, bind, gets, lift_opt, id. rewrite E. cbn.
  set (n := Z.of_nat (length s) + Z.of_nat (length l) + 1).
  assert (Z.of_nat (length (s ++ l)) + 1 = n) as Hn by (rewrite length_app; lia).
  destruct (Z.ltb_spec (g_len g) n).
  - rewrite Z.ltb_irrefl. eexists. split; [done|]. split; [unfold gstr_ok; cbn; lia|by eexists].
  - destruct (Z.ltb_spec room n); [lia|]. eexists. split; [done|]. split; [unfold gstr_ok; cbn; lia|by eexists].
Qed.
(** Printing into a growing string never writes behind its room, and what it has then
    is the text of the expression behind what it had. *)
Theorem expr_gstr_print_appends (name : symbol -> option (list Z)) (e : option expr) (s : list Z) (g : gstr) : holds s g ->
  exists g', expr_gstr_print name e g = Ok (tt, g') /\ holds (s ++ concat (expr_print name e E_NONE)) g'.
Proof.
  unfold expr_gstr_print. generalize (expr_print name e E_NONE) as l. intros l. revert s g. induction l as [|x l IH]; intros s g Hg; cbn.
  - exists g. by rewrite app_nil_r.
  - unfold bind. destruct (str_append_holds s x g Hg) as (g1 & E1 & H1). rewrite E1.
    destruct (IH _ _ H1) as (g2 & E2 & H2). exists g2. by rewrite (assoc_L app).
Qed.
Lemma expr_gstr_print_appends_witness : exists g', expr_gstr_print (fun _ => Some (chars "FOO")) (Some (Not (Or (Sym (sym_at 1)) (Sym (sym_at 2))))) str_new = Ok (tt, g') /\
  holds (chars "!(FOO || FOO)") g'.
Proof.
  destruct (expr_gstr_print_appends (fun _ => Some (chars "FOO")) (Some (Not (Or (Sym (sym_at 1)) (Sym (sym_at 2))))) [] str_new) as (g' & E & H).
  - split; [by vm_compute|by eexists].
  - exists g'. split; [exact E|exact H].
Defined.
